(* ===== verification/_CoqProject ===== *)
-Q . S2P
Prelude.v
Hash.v
Base64.v
Md5.v
Sha1.v
Mbuf.v
Strs.v
Cpp.v
Double.v
Printf.v
Uri.v
Http.v
Conn.v
Coap.v
Addr.v
Dns.v
Mqtt.v
Net.v
Resolv.v
Websocket.v
HttpPrefix.v
HttpServer.v
Forms.v
Files.v
Digest.v
Serve.v
Transfer.v
Listing.v
Multipart.v
Dll.v
Broker.v
Json.v
JsonReader.v
JsonSafe.v
JsonRoundtrip.v
Styled.v
Store.v
Relations.v
Person.v
Manager.v
Recommendations.v
Messages.v
Users.v
Sessions.v
Directory.v
Api.v
Handlers.v
Search.v
Web.v
Answers.v
Journey.v
Pages.v
Main.v
