(* ===== verification/Prelude.v ===== *)
(** * A verification library for the Jobify application server

    The repository is the backend of a mobile application in which people look
    for people to work with: an application server in C and C++
    (src/ApplicationServer/src), a second server in JavaScript that shares the
    catalogue of skills and jobs (src/SharedServer), and an Android client.  This
    library models the application server: its own managers and handlers, and the
    parts of the C libraries compiled into it on which they run, the web server
    mongoose (Mongoose/mongoose.c) and jsoncpp (jsoncpp/jsoncpp.cpp).

    ** How the program works, and which file models what

    One process runs an event loop, [mg_mgr_poll]; everything happens inside the
    handlers that the loop calls.  A TCP segment is appended to the receive
    buffer of its connection; the HTTP handler of mongoose waits for a complete
    request there, parses it and calls [ev_handler] of main.cpp, which gives the
    message to the [WebHandler].  That chooses the handler of the path, which checks the
    session, calls the [PersonManager] and writes a response; the managers keep
    everything as Json texts in a LevelDB database.

    C library (Mongoose/mongoose.c)
    - Base64, Md5, Sha1 over Hash: common/base64.c, md5.c, sha1.c, block by block.
    - Mbuf: common/mbuf.c, the growing buffers, with the allocator as an argument.
    - Strs: common/mg_str.c, str_util.c, util.c.  Printf: [c_vsnprintf], [mg_hexdump].
    - Uri: uri.c, parsing and normalising.  Http: the parser of http.c and the chunked encoding.
    - Conn: [mg_send].  Net: net.c and net_if_socket.c, the connection and the event loop.
    - Addr: addresses, /etc/hosts, access control lists.  Resolv: resolv.c over Net and Dns.
    - HttpServer: the HTTP handler of connections and the chunks it sends, over HttpPrefix (the parser on
      the first bytes of a request) and Websocket (frames and the handshake).
    - Forms: the encoding of URLs and forms.  Files: from a request to the path of a file.  Digest: passwords.
      Serve: [mg_serve_http], which answer a request for a file gets.  Transfer: sending it, part by part.
      Listing: the page for a folder.  Multipart: bodies in several parts, URLs of clients.
    - Coap, Dns, Mqtt: coap.c, dns.c with dns-server.c, mqtt.c.  Dll and Broker: mqtt-broker.c and its lists.
    C++ (jsoncpp/)
    - Json: [Json::Value] and [FastWriter].  JsonReader: the [Reader].  Styled: [StyledWriter].
      JsonSafe and JsonRoundtrip hold the theorems about the reader.
    C++ (the program itself)
    - Cpp: methods as functions of a state that return or throw.  Double: the type [double].
    - Store: DB/DBWrapper.cpp over an interface to LevelDB.
    - Person, Manager, Relations, Recommendations, Messages, Users, Directory: person/.
    - Sessions: session/.  Api: api/Response.cpp, api/handler/Handler.cpp, Security/, config/.
    - Handlers, Search: api/handler/.  Web: api/WebHandler.cpp.  Main: main.cpp and tools/MainHelper.cpp.
    - Answers, Journey, Pages: theorems that compose the parts.

    ** How the code is written down

    A C function returns an [outcome], a value or a [fault]: access outside an
    object, a null pointer, memory that was freed, signed overflow, a failed
    assertion, and so on.  A theorem that concludes [Ret] therefore says that
    none of these happen.  Objects are lists of bytes and pointers offsets in
    them; integers are [Z] with the wrap-around of their type written out ([u8],
    [u32], [u64], [s32]) and the overflow of [int] a fault.  Shared buffers keep
    an address, so that a pointer kept across a [realloc] that moves the block is
    a fault.  A C++ method is a function of the database that returns, or throws
    one of the exceptions of the program, with the database it leaves.  Users are
    values; the deletion of the temporary one is modelled where an account or a
    token is saved, and left out where a recommendation or a search ends.

    Loops of the code are [loop fuel body] with a bound computed from the input
    (the length of the text, of the buffer, of the list); running out of it is
    the fault [OutOfFuel], so a theorem that concludes [Ret] shows that the bound
    is enough.  [Reader] uses the length of the document for its recursion as well, and
    [JsonSafe] shows that this is always enough.  Two loops of the program do not
    always end: [Dns] and [Resolv] give the inputs.

    ** Parameters

    What the code gets from outside is an argument: the answers of [malloc] and
    [realloc] with the bytes they leave (Mbuf), of the system calls (Net, Resolv),
    the contents of /etc (Addr), [rand], the clock and the time zone (Sessions,
    Messages), a field that nothing initialises (Sessions), the shell that sends a
    notification and the texts of the exceptions of libraries (Api, Handlers),
    [std::regex] on a text with operators and the order in which [std::sort] leaves equals (Search).
    The interface of LevelDB, which is vendored and not modelled, is the class
    [Store.LevelDB] with its laws, and an instance on finite maps discharges them.

    ** What the theorems show

    - Memory safety of what reads the network: requests, URIs and paths, DNS, CoAP,
      base64, documents of Json.  Nothing outside the document root can be reached with a path.
    - Refinement of simple specifications: buffers are lists, linked lists are lists,
      hashes are RFC 1321, FIPS 180-1 and RFC 2104, formatted output is a renderer without a buffer.
    - What is written is read back: Json, CoAP, MQTT, DNS, URIs, addresses, escaped
      URLs, chunks, websocket frames.
    - The event loop: connections are closed once, and told; lookups end;
      requests and frames arrive whole and in order however the network cuts them, and the part
      of a file that was asked for leaves whole however the network takes it.
    - Invariants of the database: accounts are consistent, contacts agree on both sides,
      recommendations are counted, messages are delivered in order.
    - The server: every request comes to an end, nothing happens without a session, nobody
      acts for somebody else, a new user can register and look at his profile, and the sessions of
      saved tokens last four hours.  Where the code has no defined behaviour the theorems say so: a login
      writes behind the array of its token (Sessions), a temporary user with several jobs or skills is
      deleted wrongly (Users), and an answer is read after it was deleted (Main).

    Each property that needs hypotheses has a witness next to it, and examples on
    concrete inputs show the behaviours that are probably not intended.

    ** Not modelled

    LevelDB, googletest and lcov, which are vendored; the JavaScript server and
    the Android client; TLS, threads, the JavaScript and Windows variants of
    mongoose, which the build leaves out; CGI, SSI and WebDAV of its file server,
    which start processes, include and change files (Serve says when each of them
    is chosen and nothing more); opening listening and outgoing connections, and
    messages between threads; writers and value types of jsoncpp that the program never uses; the logger,
    which only writes a file; and DbBuilder, which loads sample users. *)

From Stdlib Require Import ZArith Lia String Ascii.
From stdpp Require Import base list numbers option strings.

Local Open Scope Z_scope.

(** ** Outcomes

    A C function of the model returns an [outcome]: a value, or the fault at
    which the C program has no defined behaviour left.  [OutOfFuel] is not a
    behaviour of C; a theorem that concludes [Ret] also shows that the fuel
    given to the loop combinator is enough. *)

Inductive fault :=
| OutOfBounds   (* access outside an object *)
| NullPointer   (* access through a null pointer *)
| SignedOverflow (* arithmetic on int outside its range *)
| AssertFailed  (* assert() *)
| Aborted       (* abort() *)
| BadConversion (* a floating value outside the integer type it is converted to *)
| Uninitialised (* the value of an object that was never given one *)
| BadVararg     (* va_arg with another type than the argument, or past the last one *)
| UseAfterFree  (* access to memory that was freed *)
| DoubleFree    (* free() of memory that was freed *)
| OutOfFuel.    (* the bound given to [loop] is exhausted *)

Inductive outcome (A : Type) :=
| Ret (a : A)
| Fault (f : fault).
Arguments Ret {A} a.
Arguments Fault {A} f.

#[export] Instance fault_eq_dec : EqDecision fault.
Proof. solve_decision. Defined.

#[export] Instance outcome_eq_dec `{EqDecision A} : EqDecision (outcome A).
Proof. solve_decision. Defined.

#[export] Instance outcome_ret : MRet outcome := @Ret.
#[export] Instance outcome_bind : MBind outcome := fun A B f c =>
  match c with Ret a => f a | Fault e => Fault e end.

Lemma bind_Ret {A B} (a : A) (f : A -> outcome B) : (Ret a ≫= f) = f a.
Proof. reflexivity. Qed.

Declare Scope c_scope.
Delimit Scope c_scope with c.

(** ** Machine integers and characters *)

Definition u8 (z : Z) : Z := z mod 2 ^ 8.
Definition u16 (z : Z) : Z := z mod 2 ^ 16.
Definition u32 (z : Z) : Z := z mod 2 ^ 32.
Definition u64 (z : Z) : Z := z mod 2 ^ 64.

(** Conversion to the signed types, two's complement. *)
Definition sN (w : Z) (z : Z) : Z := (z + 2 ^ (w - 1)) mod 2 ^ w - 2 ^ (w - 1).
Definition s8 (z : Z) : Z := sN 8 z.
Definition s32 (z : Z) : Z := sN 32 z.
Definition s64 (z : Z) : Z := sN 64 z.

Definition INT_MAX : Z := 2 ^ 31 - 1.
Definition SIZE_MAX : Z := 2 ^ 64 - 1.

Definition is_byte (z : Z) : Prop := 0 <= z < 256.
Abbreviation bytes := (Forall is_byte).

(** The result of an [int] operation: undefined when it does not fit. *)
Definition int (z : Z) : outcome Z :=
  if decide (- 2 ^ 31 <= z < 2 ^ 31) then Ret z else Fault SignedOverflow.

(** The bytes of a C string literal, without its terminator. *)
Definition lit (s : string) : list Z :=
  map (fun c => Z.of_nat (Ascii.nat_of_ascii c)) (list_ascii_of_string s).

(** ** Buffers

    An object in memory is the list of its bytes (or words); [rd] and [wr] are
    the accesses [b[i]] and [b[i] = v], which fault outside the object. *)

Definition rd {A} (b : list A) (i : Z) : outcome A :=
  if decide (0 <= i) then
    match b !! Z.to_nat i with Some v => Ret v | None => Fault OutOfBounds end
  else Fault OutOfBounds.

Definition wr {A} (b : list A) (i : Z) (v : A) : outcome (list A) :=
  if decide (0 <= i < Z.of_nat (length b)) then Ret (<[Z.to_nat i := v]> b)
  else Fault OutOfBounds.

(** [size b] is the number of elements of a buffer, as the C code counts it. *)
Definition size {A} (b : list A) : Z := Z.of_nat (length b).

(** [slice b off n] are the [n] bytes of [b] from offset [off]. *)
Definition slice {A} (b : list A) (off n : Z) : list A :=
  take (Z.to_nat n) (drop (Z.to_nat off) b).

(** [memcpy(&d[off], &s[soff], n)] between two objects. *)
Definition memcpy {A} (d : list A) (off : Z) (s : list A) (soff n : Z) : outcome (list A) :=
  if decide (0 <= off /\ 0 <= n /\ off + n <= size d /\ 0 <= soff /\ soff + n <= size s)
  then Ret (take (Z.to_nat off) d ++ slice s soff n ++ drop (Z.to_nat (off + n)) d)
  else Fault OutOfBounds.

(** [memset(&d[off], v, n)]. *)
Definition memset {A} (d : list A) (off : Z) (v : A) (n : Z) : outcome (list A) :=
  memcpy d off (replicate (Z.to_nat n) v) 0 n.

(** ** Loops

    [loop fuel body s] runs [body] until it exits with [inr]. *)

Fixpoint loop {S R : Type} (fuel : nat) (body : S -> outcome (S + R)) (s : S) : outcome R :=
  match fuel with
  | O => Fault OutOfFuel
  | S n =>
      match body s with
      | Ret (inl s') => loop n body s'
      | Ret (inr r) => Ret r
      | Fault e => Fault e
      end
  end.

(** ** Total correctness

    [wp c Q]: [c] returns, without a fault and without running out of fuel, a
    value that satisfies [Q]. *)

Definition wp {A} (c : outcome A) (Q : A -> Prop) : Prop := exists a, c = Ret a /\ Q a.

Lemma wp_ret {A} (a : A) (Q : A -> Prop) : Q a -> wp (Ret a) Q.
Proof. intros; exists a; auto. Qed.

Lemma wp_mret {A} (a : A) (Q : A -> Prop) : Q a -> wp (mret a) Q.
Proof. apply wp_ret. Qed.

Lemma wp_bind {A B} (c : outcome A) (f : A -> outcome B) (Q : B -> Prop) :
  wp c (fun a => wp (f a) Q) -> wp (mbind f c) Q.
Proof. intros (a & -> & H); exact H. Qed.

Lemma wp_mono {A} (c : outcome A) (P Q : A -> Prop) :
  wp c P -> (forall a, P a -> Q a) -> wp c Q.
Proof. intros (a & -> & H) HPQ; exists a; auto. Qed.

Lemma wp_if {A} (b : bool) (c d : outcome A) (Q : A -> Prop) :
  (b = true -> wp c Q) -> (b = false -> wp d Q) -> wp (if b then c else d) Q.
Proof. destruct b; auto. Qed.

Lemma wp_eq {A} (c : outcome A) (a : A) : wp c (eq a) -> c = Ret a.
Proof. intros (? & -> & ->); reflexivity. Qed.

Lemma wp_of_eq {A} (c : outcome A) (a : A) (Q : A -> Prop) : c = Ret a -> Q a -> wp c Q.
Proof. intros -> H; exists a; auto. Qed.

Lemma wp_elim {A} (c : outcome A) (a : A) (Q : A -> Prop) : wp c Q -> c = Ret a -> Q a.
Proof. intros (b & -> & H) [= ->]; exact H. Qed.

(** The loop rule: an invariant, a measure that decreases, and fuel above it. *)
Lemma wp_loop {S R} (I : S -> Prop) (m : S -> nat) (Q : R -> Prop)
    (body : S -> outcome (S + R)) (fuel : nat) (s : S) :
  (forall s, I s -> wp (body s) (fun v =>
     match v with inl s' => I s' /\ (m s' < m s)%nat | inr r => Q r end)) ->
  I s -> (m s < fuel)%nat -> wp (loop fuel body s) Q.
Proof.
  intros Hb; revert s; induction fuel as [|n IH]; intros s HI Hm; [lia|].
  simpl. destruct (Hb s HI) as (v & -> & Hv).
  destruct v as [s'|r].
  - destruct Hv as [HI' Hlt]. apply IH; [assumption|lia].
  - exists r; auto.
Qed.

Lemma loop_S {S R} (n : nat) (body : S -> outcome (S + R)) (s : S) :
  loop (Datatypes.S n) body s =
  match body s with Ret (inl s') => loop n body s' | Ret (inr r) => Ret r | Fault e => Fault e end.
Proof. done. Qed.

(** [wp_or F c Q]: [c] returns a value that satisfies [Q], or faults as [F] allows. *)
Definition wp_or {A} (F : fault -> Prop) (c : outcome A) (Q : A -> Prop) : Prop := match c with Ret a => Q a | Fault f => F f end.

Lemma wp_or_mret {A} F (a : A) (Q : A -> Prop) : Q a -> wp_or F (mret a) Q.
Proof. done. Qed.

Lemma wp_or_bind {A B} F (c : outcome A) (f : A -> outcome B) (Q : B -> Prop) : wp_or F c (fun a => wp_or F (f a) Q) -> wp_or F (c ≫= f) Q.
Proof. by destruct c. Qed.

Lemma wp_or_mono {A} F (c : outcome A) (P Q : A -> Prop) : wp_or F c P -> (forall a, P a -> Q a) -> wp_or F c Q.
Proof. destruct c; cbn; auto. Qed.

Lemma wp_or_wp {A} F (c : outcome A) (Q : A -> Prop) : wp c Q -> wp_or F c Q.
Proof. by intros (a & -> & H). Qed.

Lemma wp_or_use {A B} F (c : outcome A) (f : A -> outcome B) (P : A -> Prop) (Q : B -> Prop) : wp c P -> (forall a, P a -> wp_or F (f a) Q) -> wp_or F (c ≫= f) Q.
Proof. intros (a & -> & H) Hf. by apply Hf. Qed.

Lemma wp_or_loop {S R} F (I : S -> Prop) (m : S -> nat) (Q : R -> Prop) (body : S -> outcome (S + R)) (fuel : nat) (s : S) :
  (forall s, I s -> wp_or F (body s) (fun v => match v with inl s' => I s' /\ (m s' < m s)%nat | inr r => Q r end)) ->
  I s -> (m s < fuel)%nat -> wp_or F (loop fuel body s) Q.
Proof.
  intros Hb. revert s. induction fuel as [|n IH]; intros s HI Hm; [lia|]. simpl. specialize (Hb s HI). destruct (body s) as [[s'|r]|f]; cbn in Hb; [|done..].
  destruct Hb as [HI' Hlt]. apply IH; [done|lia].
Qed.

(** More fuel does not change a result. *)
Lemma loop_mono {S R} (body : S -> outcome (S + R)) (n m : nat) (s : S) (r : R) :
  (n <= m)%nat -> loop n body s = Ret r -> loop m body s = Ret r.
Proof.
  revert m s; induction n as [|n IH]; intros m s Hle; simpl; [done|].
  destruct m as [|m]; [lia|]. simpl.
  destruct (body s) as [[s'|r']|f]; auto. apply IH; lia.
Qed.

(** ** Buffer access lemmas *)

Section buffers.
Context {A : Type}.
Implicit Types (b d s : list A) (v : A).

Lemma size_nonneg b : 0 <= size b.
Proof. unfold size; lia. Qed.
Lemma size_nil : size ([] : list A) = 0.
Proof. reflexivity. Qed.
Lemma size_cons v b : size (v :: b) = 1 + size b.
Proof. unfold size; simpl; lia. Qed.
Lemma size_app b d : size (b ++ d) = size b + size d.
Proof. unfold size; rewrite length_app; lia. Qed.
Lemma size_to_nat b : Z.to_nat (size b) = length b.
Proof. unfold size; lia. Qed.

Lemma rd_ib b i v : 0 <= i -> b !! Z.to_nat i = Some v -> rd b i = Ret v.
Proof. intros Hi Hl; unfold rd; rewrite decide_True by done; by rewrite Hl. Qed.

Lemma rd_oob b i : ~ (0 <= i < size b) -> rd b i = Fault OutOfBounds.
Proof.
  intros Hi; unfold rd; case_decide; [|done].
  rewrite lookup_ge_None_2; [done|unfold size in Hi; lia].
Qed.

Lemma rd_total b i : 0 <= i < size b -> exists v, b !! Z.to_nat i = Some v /\ rd b i = Ret v.
Proof.
  intros Hi. destruct (lookup_lt_is_Some_2 b (Z.to_nat i)) as [v Hv].
  { unfold size in Hi; lia. }
  exists v; split; [done|apply rd_ib; [lia|done]].
Qed.

Lemma rd_app_l b d i : 0 <= i < size b -> rd (b ++ d) i = rd b i.
Proof. intros Hi; unfold rd; case_decide; [|done].
  rewrite lookup_app_l; [done|unfold size in Hi; lia]. Qed.

Lemma rd_app_r b d i : size b <= i -> rd (b ++ d) i = rd d (i - size b).
Proof.
  intros Hi; pose proof (size_nonneg b); unfold rd.
  rewrite !decide_True by lia.
  rewrite lookup_app_r by (unfold size in *; lia).
  replace (Z.to_nat i - length b)%nat with (Z.to_nat (i - size b)); [done|unfold size in *; lia].
Qed.

Lemma wp_rd b i (Q : A -> Prop) :
  0 <= i < size b -> (forall v, b !! Z.to_nat i = Some v -> Q v) -> wp (rd b i) Q.
Proof. intros Hi HQ. destruct (rd_total b i Hi) as (v & Hv & ->). exists v; auto. Qed.

Lemma wp_or_rd F b i (Q : A -> Prop) : F OutOfBounds -> (forall v, 0 <= i < size b -> Q v) -> wp_or F (rd b i) Q.
Proof.
  intros HF HQ. destruct (decide (0 <= i < size b)) as [Hi|Hi]; [|by rewrite rd_oob]. destruct (rd_total b i Hi) as (v & _ & ->). by apply HQ.
Qed.

Lemma wr_ib b i v : 0 <= i < size b -> wr b i v = Ret (<[Z.to_nat i := v]> b).
Proof. intros Hi; unfold wr; rewrite decide_True; [done|unfold size in Hi; lia]. Qed.

Lemma wp_wr b i v (Q : list A -> Prop) :
  0 <= i < size b -> Q (<[Z.to_nat i := v]> b) -> wp (wr b i v) Q.
Proof. intros Hi HQ; rewrite wr_ib by done; by apply wp_ret. Qed.

Lemma size_slice b off n : 0 <= off -> 0 <= n -> off + n <= size b -> size (slice b off n) = n.
Proof. intros; unfold slice, size in *. rewrite length_take, length_drop; lia. Qed.

Lemma slice_all b : slice b 0 (size b) = b.
Proof. unfold slice; rewrite size_to_nat; simpl; by rewrite firstn_all. Qed.

Lemma slice_app b off n m : 0 <= off -> 0 <= n -> 0 <= m ->
  slice b off (n + m) = slice b off n ++ slice b (off + n) m.
Proof.
  intros; unfold slice. rewrite (Z2Nat.inj_add n m), (Z2Nat.inj_add off n) by lia.
  rewrite <- (drop_drop b). symmetry; apply take_take_drop.
Qed.

Lemma slice_nil b off : slice b off 0 = [].
Proof. unfold slice; by rewrite take_0. Qed.

Lemma slice_one b i v : 0 <= i -> b !! Z.to_nat i = Some v -> slice b i 1 = [v].
Proof. intros Hi Hv; unfold slice; by rewrite (drop_S _ _ _ Hv). Qed.

Lemma slice_snoc b off n v : 0 <= off -> 0 <= n ->
  b !! Z.to_nat (off + n) = Some v -> slice b off (n + 1) = slice b off n ++ [v].
Proof. intros. rewrite slice_app by lia. by rewrite (slice_one b (off + n) v) by (done || lia). Qed.

Lemma slice_cons b off n v : 0 <= off -> 0 < n ->
  b !! Z.to_nat off = Some v -> slice b off n = v :: slice b (off + 1) (n - 1).
Proof.
  intros. replace n with (1 + (n - 1)) at 1 by lia. rewrite slice_app by lia.
  by rewrite (slice_one b off v).
Qed.

Lemma slice_app_l b d off n : 0 <= off -> 0 <= n -> off + n <= size b ->
  slice (b ++ d) off n = slice b off n.
Proof.
  intros; unfold slice, size in *.
  rewrite drop_app_le by lia. rewrite take_app_le; [done|rewrite length_drop; lia].
Qed.

Lemma slice_app_r b d off n : size b <= off ->
  slice (b ++ d) off n = slice d (off - size b) n.
Proof.
  intros; pose proof (size_nonneg b); unfold slice, size in *.
  rewrite drop_app_ge by lia. f_equal. f_equal. lia.
Qed.

Lemma slice_prefix b d : slice (b ++ d) 0 (size b) = b.
Proof. pose proof (size_nonneg b). rewrite slice_app_l by lia. apply slice_all. Qed.

Lemma slice_slice b i n j m : 0 <= i -> 0 <= j -> 0 <= m -> j + m <= n ->
  slice (slice b i n) j m = slice b (i + j) m.
Proof.
  intros; unfold slice. rewrite skipn_firstn_comm, drop_drop, firstn_firstn.
  f_equal; [lia|f_equal; lia].
Qed.

Lemma lookup_slice b off n i : 0 <= off -> 0 <= i < n ->
  slice b off n !! Z.to_nat i = b !! Z.to_nat (off + i).
Proof.
  intros; unfold slice. rewrite lookup_take_lt by lia. rewrite lookup_drop.
  f_equal; lia.
Qed.

Lemma memcpy_ib d off s soff n :
  0 <= off -> 0 <= n -> off + n <= size d -> 0 <= soff -> soff + n <= size s ->
  memcpy d off s soff n = Ret (take (Z.to_nat off) d ++ slice s soff n ++ drop (Z.to_nat (off + n)) d).
Proof. intros; unfold memcpy; by rewrite decide_True. Qed.

Lemma memcpy_size d off s soff n d' : memcpy d off s soff n = Ret d' -> size d' = size d.
Proof.
  unfold memcpy; case_decide as H; [|done]. intros [= <-].
  rewrite !size_app, size_slice by lia. unfold size in *.
  rewrite length_take, length_drop; lia.
Qed.

Lemma Forall_slice (P : A -> Prop) b off n : Forall P b -> Forall P (slice b off n).
Proof. intros; unfold slice; by apply Forall_take, Forall_drop. Qed.
End buffers.

Create Rewrite HintDb size.
#[export] Hint Rewrite @size_cons @size_app @size_nil : size.
#[export] Hint Resolve size_nonneg : core.

(** ** Arithmetic of the machine integers *)

Lemma u8_byte z : is_byte (u8 z).
Proof. unfold is_byte, u8; apply Z.mod_pos_bound; lia. Qed.

Lemma int_small z : - 2 ^ 31 <= z < 2 ^ 31 -> int z = Ret z.
Proof. intros. unfold int. by rewrite decide_True. Qed.

Lemma u8_small z : is_byte z -> u8 z = z.
Proof. unfold is_byte, u8; intros; apply Z.mod_small; lia. Qed.

Lemma u32_small z : 0 <= z < 2 ^ 32 -> u32 z = z.
Proof. apply Z.mod_small. Qed.

Lemma u32_range z : 0 <= u32 z < 2 ^ 32.
Proof. apply Z.mod_pos_bound; lia. Qed.

Lemma u32_add_l a b : u32 (u32 a + b) = u32 (a + b).
Proof. apply Zplus_mod_idemp_l. Qed.
Lemma u32_add_r a b : u32 (a + u32 b) = u32 (a + b).
Proof. apply Zplus_mod_idemp_r. Qed.

Lemma sN_range w z : 0 < w -> - 2 ^ (w - 1) <= sN w z < 2 ^ (w - 1).
Proof.
  intros Hw; unfold sN.
  assert (2 ^ w = 2 * 2 ^ (w - 1)) as E
    by (rewrite <- Z.pow_succ_r by lia; f_equal; lia).
  pose proof (Z.pow_pos_nonneg 2 (w - 1)).
  pose proof (Z.mod_pos_bound (z + 2 ^ (w - 1)) (2 ^ w)). lia.
Qed.

Lemma sN_small w z : 0 < w -> - 2 ^ (w - 1) <= z < 2 ^ (w - 1) -> sN w z = z.
Proof.
  intros Hw Hz; unfold sN.
  assert (2 ^ w = 2 * 2 ^ (w - 1)) as E
    by (rewrite <- Z.pow_succ_r by lia; f_equal; lia).
  rewrite Z.mod_small; lia.
Qed.

Lemma wp_int z (Q : Z -> Prop) : - 2 ^ 31 <= z < 2 ^ 31 -> Q z -> wp (int z) Q.
Proof. intros Hz HQ; unfold int; rewrite decide_True by done; by apply wp_ret. Qed.

(** Bit fields written with shifts and [|] are sums. *)
Lemma lor_disjoint n a b : 0 <= n -> 0 <= b < 2 ^ n -> Z.lor (Z.shiftl a n) b = a * 2 ^ n + b.
Proof.
  intros Hn Hb. rewrite <- Z.shiftl_mul_pow2, <- Z.add_lor_land by lia.
  enough (Z.land (Z.shiftl a n) b = 0) as -> by lia.
  apply Z.bits_inj'; intros i Hi.
  rewrite Z.land_spec, Z.bits_0, Z.shiftl_spec by lia.
  destruct (decide (i < n)).
  - by rewrite Z.testbit_neg_r by lia.
  - rewrite <- (Z.mod_small b (2 ^ n)) by lia.
    rewrite Z.mod_pow2_bits_high by lia. apply andb_false_r.
Qed.

Lemma land_ones_mod a n : 0 <= n -> Z.land a (2 ^ n - 1) = a mod 2 ^ n.
Proof. intros. rewrite <- Z.land_ones by lia. by rewrite Z.ones_equiv, <- Z.sub_1_r. Qed.

(** ** Automation

    [wp_step] takes one step of a [wp] goal: it enters a bind, returns a value,
    splits a conditional, or performs an access whose side condition [lia]
    proves; [wp_steps] repeats it. *)

(** [lia] with division and modulo by constants. *)
Ltac euclid := Z.to_euclidean_division_equations; lia.

(** Split [Forall] hypotheses on cons and append. *)
Ltac inv_Forall := repeat match goal with
  | H : Forall _ (_ :: _) |- _ => apply Forall_cons_1 in H as [? ?]
  | H : Forall _ (_ ++ _) |- _ => apply Forall_app in H as [? ?]
  | H : Forall _ [] |- _ => clear H
  end.

(** [Forall P [x; y; ...]] from the facts about the elements. *)
Ltac solve_bytes := repeat (apply Forall_cons_2; [assumption|]); first [apply Forall_nil_2|assumption].

Ltac size_simpl := autorewrite with size in *.
Ltac size_lia := size_simpl; unfold size in *; lia.

Lemma rd_at {A} (pre rest : list A) k v :
  0 <= k -> rest !! Z.to_nat k = Some v -> rd (pre ++ rest) (size pre + k) = Ret v.
Proof.
  intros Hk Hv. pose proof (size_nonneg pre). rewrite rd_app_r by lia.
  apply rd_ib; [lia|]. by replace (size pre + k - size pre) with k by lia.
Qed.

Lemma rd_at0 {A} (pre rest : list A) v : rd (pre ++ v :: rest) (size pre) = Ret v.
Proof. rewrite <- (Z.add_0_r (size pre)). by apply rd_at. Qed.

Lemma wp_if_ltb {A} x y (c d : outcome A) (Q : A -> Prop) :
  (x < y -> wp c Q) -> (y <= x -> wp d Q) -> wp (if x <? y then c else d) Q.
Proof. destruct (Z.ltb_spec x y); auto. Qed.

Lemma wp_if_eqb {A} x y (c d : outcome A) (Q : A -> Prop) :
  (x = y -> wp c Q) -> (x <> y -> wp d Q) -> wp (if x =? y then c else d) Q.
Proof. destruct (Z.eqb_spec x y); auto. Qed.

Lemma wp_if_decide {A} P `{Decision P} (c d : outcome A) (Q : A -> Prop) :
  (P -> wp c Q) -> (~ P -> wp d Q) -> wp (if decide P then c else d) Q.
Proof. intros. by case_decide; auto. Qed.

Ltac wp_step :=
  lazymatch goal with
  | |- wp (if decide _ then _ else _) _ => apply wp_if_decide; intros ?
  | |- wp (mbind _ _) _ => apply wp_bind
  | |- wp (mret _) _ => apply wp_mret
  | |- wp (Ret _) _ => apply wp_ret
  | |- wp (if ?x <? ?y then _ else _) _ => apply wp_if_ltb; intros ?
  | |- wp (if ?x =? ?y then _ else _) _ => apply wp_if_eqb; intros ?
  | |- wp (if _ then _ else _) _ => apply wp_if; intros ?
  | |- wp (int _) _ => apply wp_int; [lia|]
  | |- wp (rd _ _) _ => apply wp_rd; [lia|intros ? ?]
  | |- wp (wr _ _ _) _ => apply wp_wr; [lia|]
  end.
Ltac wp_steps := repeat (wp_step; cbn beta iota).

(** A boolean predicate that holds on a finite range, by evaluation. *)
Lemma range_forallb (P : Z -> bool) (n : nat) :
  forallb P (seqZ 0 (Z.of_nat n)) = true -> forall v, 0 <= v < Z.of_nat n -> P v = true.
Proof.
  rewrite forallb_forall; intros H v Hv; apply H.
  apply list_elem_of_In, elem_of_seqZ; lia.
Qed.

(** [fill d l]: the object [d] after [l] has been written at its start. *)
Definition fill {A} (d l : list A) : list A := l ++ drop (length l) d.

Section fill.
Context {A : Type}.
Implicit Types (d l : list A).

Lemma fill_nil d : fill d [] = d.
Proof. done. Qed.

Lemma size_fill d l : size l <= size d -> size (fill d l) = size d.
Proof. unfold fill, size; rewrite length_app, length_drop; lia. Qed.

Lemma wr_fill d l v i : i = size l -> size l < size d -> wr (fill d l) i v = Ret (fill d (l ++ [v])).
Proof.
  intros -> Hl. pose proof (size_nonneg l). rewrite wr_ib by (rewrite size_fill; lia).
  f_equal. unfold fill. rewrite size_to_nat, length_app, insert_app_r_alt, Nat.sub_diag by lia.
  destruct (drop (length l) d) as [|x r] eqn:E.
  - apply (f_equal length) in E. rewrite length_drop in E. simpl in E. size_lia.
  - simpl. rewrite <- app_assoc. do 2 f_equal. rewrite <- drop_drop, E. done.
Qed.

Lemma wp_wr_fill d l v i (Q : list A -> Prop) :
  i = size l -> size l < size d -> Q (fill d (l ++ [v])) -> wp (wr (fill d l) i v) Q.
Proof. intros Hi Hl HQ; rewrite wr_fill by done; by apply wp_ret. Qed.
End fill.

Lemma length_slice {A} (b : list A) off n :
  0 <= off -> 0 <= n -> off + n <= size b -> length (slice b off n) = Z.to_nat n.
Proof. intros. rewrite <- size_to_nat. by rewrite size_slice. Qed.

Lemma map_slice {A B} (f : A -> B) (b : list A) off n : map f (slice b off n) = slice (map f b) off n.
Proof. unfold slice. by rewrite <- firstn_map, <- skipn_map. Qed.

Lemma take_slice {A} (b : list A) n : take n b = slice b 0 (Z.of_nat n).
Proof. unfold slice; simpl. by rewrite Nat2Z.id. Qed.

Lemma drop_slice {A} (b : list A) n : (n <= length b)%nat ->
  drop n b = slice b (Z.of_nat n) (size b - Z.of_nat n).
Proof.
  intros. unfold slice. rewrite Nat2Z.id, take_ge; [done|]. unfold size; rewrite length_drop; lia.
Qed.

Lemma wp_memcpy {A} (d s : list A) off soff n (Q : list A -> Prop) :
  0 <= off -> 0 <= n -> off + n <= size d -> 0 <= soff -> soff + n <= size s ->
  (forall d', d' = take (Z.to_nat off) d ++ slice s soff n ++ drop (Z.to_nat (off + n)) d ->
    size d' = size d -> Q d') ->
  wp (memcpy d off s soff n) Q.
Proof.
  intros. eapply wp_of_eq; [by apply memcpy_ib|].
  apply H4; [done|]. by eapply memcpy_size, memcpy_ib.
Qed.

(** A copy that replaces the whole object. *)
Lemma memcpy_whole {A} (d s : list A) soff n :
  size d = n -> 0 <= soff -> soff + n <= size s -> memcpy d 0 s soff n = Ret (slice s soff n).
Proof.
  intros <- Hs Hn. rewrite memcpy_ib by (pose proof (size_nonneg d); lia).
  rewrite drop_ge by (unfold size; lia). simpl. by rewrite app_nil_r.
Qed.

Lemma take_prefix {A} (l r : list A) n : n = length l -> take n (l ++ r) = l.
Proof. intros ->. apply take_app_length. Qed.

(** A list cut at given sizes. *)
Lemma split_at {A} (l : list A) n : 0 <= n <= size l -> exists l1 l2, l = l1 ++ l2 /\ size l1 = n.
Proof.
  intros Hn. exists (take (Z.to_nat n) l), (drop (Z.to_nat n) l). rewrite take_drop. split; [done|].
  unfold size in *; rewrite length_take; lia.
Qed.

Lemma slice_mid {A} (h m r : list A) i n : i = size h -> n = size m -> slice (h ++ m ++ r) i n = m.
Proof.
  intros -> ->. rewrite slice_app_r, Z.sub_diag by lia. apply slice_prefix.
Qed.

Lemma memcpy_mid {A} (h m r s : list A) off soff n :
  off = size h -> n = size m -> 0 <= soff -> soff + n <= size s ->
  memcpy (h ++ m ++ r) off s soff n = Ret (h ++ slice s soff n ++ r).
Proof.
  intros -> -> Hs Hn. pose proof (size_nonneg h). pose proof (size_nonneg m). pose proof (size_nonneg r).
  rewrite memcpy_ib by size_lia. rewrite size_to_nat, take_app_length, (app_assoc h m r).
  replace (Z.to_nat (size h + size m)) with (length (h ++ m)) by (rewrite length_app; unfold size; lia).
  by rewrite drop_app_length.
Qed.

Lemma size_app_pos_take {A} (junk seg : list A) : exists m j, junk ++ seg = m ++ j /\ size m = size seg /\ size j = size junk.
Proof.
  destruct (split_at (junk ++ seg) (size seg)) as (m & j & E & Hm).
  { pose proof (size_nonneg junk). pose proof (size_nonneg seg). size_lia. }
  exists m, j. split_and!; [done|done|]. apply (f_equal size) in E. size_lia.
Qed.

(** A segment is moved down over the gap before it. *)
Lemma copy_down {A} (pre out junk seg rest post : list A) s d n :
  d = size pre + size out -> s = d + size junk -> n = size seg ->
  exists junk', size junk' = size junk /\
    memcpy (pre ++ out ++ junk ++ (seg ++ rest) ++ post) d (pre ++ out ++ junk ++ (seg ++ rest) ++ post) s n =
    Ret (pre ++ (out ++ seg) ++ junk' ++ rest ++ post).
Proof.
  intros Hd Hs Hn. destruct (size_app_pos_take junk seg) as (m & j & E & Hm & Hj). exists j. split; [done|].
  set (b := pre ++ out ++ junk ++ (seg ++ rest) ++ post).
  pose proof (size_nonneg pre). pose proof (size_nonneg out). pose proof (size_nonneg junk).
  assert (slice b s n = seg) as Hsl.
  { assert (b = (pre ++ out ++ junk) ++ seg ++ (rest ++ post)) as -> by (unfold b; rewrite <- !app_assoc; done).
    apply slice_mid; [size_lia|done]. }
  assert (b = (pre ++ out) ++ m ++ (j ++ rest ++ post)) as Eb.
  { unfold b. rewrite <- !app_assoc. do 2 f_equal. rewrite (app_assoc m), <- E. by rewrite <- !app_assoc. }
  assert (0 <= s) by lia. assert (s + n <= size b) by (unfold b; pose proof (size_nonneg rest); pose proof (size_nonneg post); size_lia).
  rewrite Eb at 1. rewrite memcpy_mid; [|size_lia|lia|done|done]. rewrite Hsl. by rewrite <- !app_assoc.
Qed.

(** Copies and fills that start where a known prefix ends. *)
Lemma memcpy_after {A} (l q s : list A) off n :
  off = size l -> n = size s -> n <= size q ->
  memcpy (l ++ q) off s 0 n = Ret (l ++ s ++ drop (length s) q).
Proof.
  intros -> -> Hq. pose proof (size_nonneg l). pose proof (size_nonneg s).
  rewrite memcpy_ib by size_lia. rewrite size_to_nat, take_app_length, slice_all.
  do 3 f_equal. rewrite drop_app_ge by (unfold size; lia). f_equal. unfold size; lia.
Qed.

Lemma memcpy_start {A} (d s : list A) : size s <= size d -> memcpy d 0 s 0 (size s) = Ret (fill d s).
Proof. apply (memcpy_after []); done. Qed.

Lemma memcpy_fill {A} (d l s : list A) i soff n :
  i = size l -> 0 <= n -> 0 <= soff -> soff + n <= size s -> size l + n <= size d ->
  memcpy (fill d l) i s soff n = Ret (fill d (l ++ slice s soff n)).
Proof.
  intros -> Hn Hs Hle Hd. pose proof (size_nonneg l). rewrite memcpy_ib by (rewrite ?size_fill; lia).
  unfold fill. rewrite size_to_nat, take_app_length, <- app_assoc. do 3 f_equal.
  rewrite drop_app_ge by (unfold size; lia). rewrite drop_drop. f_equal.
  rewrite length_app, length_slice by lia. unfold size in *; lia.
Qed.

Lemma memset_after {A} (l q : list A) off v n :
  off = size l -> 0 <= n <= size q ->
  memset (l ++ q) off v n = Ret (l ++ replicate (Z.to_nat n) v ++ drop (Z.to_nat n) q).
Proof.
  intros -> Hq. unfold memset.
  rewrite memcpy_after; rewrite ?length_replicate; [done|done|unfold size; rewrite length_replicate; lia|lia].
Qed.

Lemma wr_after {A} (l q : list A) i v x : i = size l -> wr (l ++ x :: q) i v = Ret (l ++ v :: q).
Proof.
  intros ->. pose proof (size_nonneg l). pose proof (size_nonneg q).
  rewrite wr_ib by size_lia. by rewrite size_to_nat, insert_app_r_alt, Nat.sub_diag by lia.
Qed.

(** Bitwise operations byte by byte. *)
Lemma testbit_byte_split a b i : 0 <= b < 256 -> 0 <= i ->
  Z.testbit (a * 2 ^ 8 + b) i = if decide (i < 8) then Z.testbit b i else Z.testbit a (i - 8).
Proof.
  intros Hb Hi. rewrite <- lor_disjoint by done.
  rewrite Z.lor_spec, Z.shiftl_spec by done. case_decide.
  - by rewrite Z.testbit_neg_r by lia.
  - rewrite <- (Z.mod_small b (2 ^ 8)) by lia.
    rewrite Z.mod_pow2_bits_high by lia. apply orb_false_r.
Qed.

Lemma byte_land b n : 0 <= b < 256 -> 0 <= n < 256 -> 0 <= Z.land b n < 256.
Proof.
  intros Hb Hn. rewrite <- (Z.mod_small n (2 ^ 8)) by lia. rewrite <- Z.land_ones, Z.land_assoc, Z.land_ones by lia.
  apply Z.mod_pos_bound; lia.
Qed.

Lemma byte_lor b n : 0 <= b < 256 -> 0 <= n < 256 -> 0 <= Z.lor b n < 256.
Proof.
  intros Hb Hn. replace (Z.lor b n) with (Z.lor b n mod 2 ^ 8); [apply Z.mod_pos_bound; lia|].
  rewrite <- Z.land_ones, Z.land_lor_distr_l, !Z.land_ones by lia. rewrite !Z.mod_small by lia. done.
Qed.

Lemma land_byte_split a b m n : 0 <= b < 256 -> 0 <= n < 256 ->
  Z.land (a * 2 ^ 8 + b) (m * 2 ^ 8 + n) = Z.land a m * 2 ^ 8 + Z.land b n.
Proof.
  intros Hb Hn. apply Z.bits_inj'; intros i Hi. pose proof (byte_land b n Hb Hn).
  rewrite Z.land_spec, !testbit_byte_split by done. case_decide; by rewrite Z.land_spec.
Qed.

Lemma lor_byte_split a b m n : 0 <= b < 256 -> 0 <= n < 256 ->
  Z.lor (a * 2 ^ 8 + b) (m * 2 ^ 8 + n) = Z.lor a m * 2 ^ 8 + Z.lor b n.
Proof.
  intros Hb Hn. apply Z.bits_inj'; intros i Hi. pose proof (byte_lor b n Hb Hn).
  rewrite Z.lor_spec, !testbit_byte_split by done. case_decide; by rewrite Z.lor_spec.
Qed.

Lemma byte_land_255 b : 0 <= b < 256 -> Z.land b 255 = b.
Proof. intros. change 255 with (2 ^ 8 - 1). rewrite land_ones_mod by lia. by apply Z.mod_small. Qed.

(** Bitwise identities: compare the bits at an arbitrary position. *)
Ltac zbits := apply Z.bits_inj'; intros ? ?;
  repeat first [rewrite Z.lxor_spec | rewrite Z.land_spec | rewrite Z.lor_spec | rewrite Z.lnot_spec by lia].

(** ** Scanning

    [take_while f l] and [drop_while f l] cut [l] at its first element outside
    [f]; [scan_while f b e i] is the C loop [while (i < e && f(b[i])) i++]. *)
Fixpoint take_while {A} (f : A -> bool) (l : list A) : list A :=
  match l with [] => [] | x :: r => if f x then x :: take_while f r else [] end.
Fixpoint drop_while {A} (f : A -> bool) (l : list A) : list A :=
  match l with [] => [] | x :: r => if f x then drop_while f r else l end.

Definition scan_while {A} (f : A -> bool) (b : list A) (e i : Z) : outcome Z :=
  loop (S (Z.to_nat (e - i))) (fun i =>
    if i <? e then v ← rd b i; if f v then mret (inl (i + 1)) else mret (inr i)
    else mret (inr i)) i.

Section scan.
Context {A : Type} (f : A -> bool).
Implicit Types (l b : list A).

Lemma take_drop_while l : take_while f l ++ drop_while f l = l.
Proof. induction l as [|x l IH]; [done|]. simpl. destruct (f x); [simpl; by rewrite IH|done]. Qed.

Lemma take_while_all l : Forall (fun x => f x = true) (take_while f l).
Proof. induction l as [|x l IH]; simpl; [by apply Forall_nil_2|]. destruct (f x) eqn:E; by constructor. Qed.

Lemma drop_while_head l x r : drop_while f l = x :: r -> f x = false.
Proof. induction l as [|y l IH]; [done|]. simpl. destruct (f y) eqn:E; [done|]. by intros [= <- <-]. Qed.

Lemma take_while_app l x r : Forall (fun x => f x = true) l -> f x = false -> take_while f (l ++ x :: r) = l.
Proof. intros Hl Hx. induction Hl as [|y l Hy _ IH]; simpl; [by rewrite Hx|]. by rewrite Hy, IH. Qed.

Lemma take_while_id l : Forall (fun x => f x = true) l -> take_while f l = l.
Proof. induction 1 as [|y l Hy _ IH]; simpl; [done|]. by rewrite Hy, IH. Qed.

Lemma drop_while_app l x r : Forall (fun x => f x = true) l -> f x = false -> drop_while f (l ++ x :: r) = x :: r.
Proof. intros Hl Hx. induction Hl as [|y l Hy _ IH]; simpl; [by rewrite Hx|]. by rewrite Hy, IH. Qed.

Lemma size_take_while l : size (take_while f l) <= size l.
Proof. rewrite <- (take_drop_while l) at 2. pose proof (size_nonneg (drop_while f l)). size_lia. Qed.

Lemma scan_while_spec b e i : 0 <= i -> i <= e <= size b ->
  scan_while f b e i = Ret (i + size (take_while f (slice b i (e - i)))).
Proof.
  intros Hi He. apply wp_eq. unfold scan_while.
  apply wp_loop with (m := fun j => Z.to_nat (e - j))
    (I := fun j => 0 <= j <= e /\
      i + size (take_while f (slice b i (e - i))) = j + size (take_while f (slice b j (e - j))));
    [|split; [lia|done]|lia].
  intros j [Hj E]. wp_step.
  - destruct (rd_total b j) as (v & Hv & ->); [lia|]. cbn [mbind outcome_bind].
    rewrite (slice_cons b j (e - j) v) in E by (done || lia). simpl in E.
    destruct (f v); apply wp_mret; [|size_lia].
    split; [|lia]. replace (e - (j + 1)) with (e - j - 1) by lia. size_lia.
  - apply wp_mret. replace (e - j) with 0 in E by lia. rewrite slice_nil in E. simpl in E. size_lia.
Qed.

Lemma wp_scan_while b e i (Q : Z -> Prop) : 0 <= i -> i <= e <= size b ->
  (forall j, i <= j <= e -> slice b i (j - i) = take_while f (slice b i (e - i)) ->
     slice b j (e - j) = drop_while f (slice b i (e - i)) -> Q j) ->
  wp (scan_while f b e i) Q.
Proof.
  intros Hi He HQ. eapply wp_of_eq; [by apply scan_while_spec|].
  pose proof (take_drop_while (slice b i (e - i))) as E.
  pose proof (size_take_while (slice b i (e - i))) as Hs. rewrite size_slice in Hs by lia.
  set (t := take_while f _) in *. pose proof (size_nonneg t).
  assert (slice b i (e - i) = slice b i (size t) ++ slice b (i + size t) (e - (i + size t))) as E2
    by (rewrite <- slice_app by lia; f_equal; lia).
  rewrite E2 in E at 2. apply app_inj_1 in E as [E3 E4].
  - apply HQ; [lia|by replace (i + size t - i) with (size t) by lia|done].
  - pose proof (size_slice b i (size t)). unfold size in *; lia.
Qed.

(** A scan that stops at a known place: at [x], or at the end of the range. *)
Lemma scan_while_at b e q (pre l r : list A) x :
  b = pre ++ l ++ x :: r -> q = size pre -> size pre + size l < e <= size b ->
  Forall (fun y => f y = true) l -> f x = false -> scan_while f b e q = Ret (q + size l).
Proof.
  intros -> -> He Hl Hx. pose proof (size_nonneg pre). pose proof (size_nonneg l).
  rewrite scan_while_spec by lia. do 2 f_equal.
  destruct (split_at (x :: r) (e - size pre - size l)) as (m & t & E & Hm); [size_simpl; lia|].
  assert (slice (pre ++ l ++ x :: r) (size pre) (e - size pre) = l ++ m) as ->.
  { rewrite E, (app_assoc l). apply slice_mid; [done|size_lia]. }
  destruct m as [|y m]; [exfalso; unfold size in *; simpl in *; lia|]. injection E as <- _. by rewrite take_while_app.
Qed.

Lemma scan_while_end b e q (pre l r : list A) :
  b = pre ++ l ++ r -> q = size pre -> e = size pre + size l ->
  Forall (fun y => f y = true) l -> scan_while f b e q = Ret e.
Proof.
  intros -> -> -> Hl. pose proof (size_nonneg pre). pose proof (size_nonneg l). pose proof (size_nonneg r).
  rewrite scan_while_spec by size_lia. do 2 f_equal.
  replace (size pre + size l - size pre) with (size l) by lia.
  rewrite slice_mid by done. by rewrite take_while_id.
Qed.
End scan.

(** ** Simulation

    [osim R c d]: the two computations fail with the same fault, or return
    values related by [R]. *)
Definition osim {A B} (R : A -> B -> Prop) (c : outcome A) (d : outcome B) : Prop :=
  match c, d with
  | Ret a, Ret b => R a b
  | Fault e, Fault e' => e = e'
  | _, _ => False
  end.

Section simulation.
Context {A A' B B' : Type}.

Lemma osim_ret (R : A -> B -> Prop) a b : R a b -> osim R (mret a) (mret b).
Proof. done. Qed.

Lemma osim_bind (R : A -> B -> Prop) (R' : A' -> B' -> Prop) c d (f : A -> outcome A') (g : B -> outcome B') :
  osim R c d -> (forall a b, R a b -> osim R' (f a) (g b)) -> osim R' (mbind f c) (mbind g d).
Proof. destruct c, d; simpl; try done. by auto. Qed.

Lemma osim_same {T} (R' : A' -> B' -> Prop) (c : outcome T) (f : T -> outcome A') (g : T -> outcome B') :
  (forall a, osim R' (f a) (g a)) -> osim R' (mbind f c) (mbind g c).
Proof. destruct c; simpl; auto. Qed.

(** A call on the left that returns. *)
Lemma osim_left {T} (R' : A' -> B' -> Prop) (c : outcome T) t (f : T -> outcome A') d :
  c = Ret t -> osim R' (f t) d -> osim R' (mbind f c) d.
Proof. by intros ->. Qed.

Lemma osim_if (R : A -> B -> Prop) (x : bool) c c' d d' :
  (x = true -> osim R c d) -> (x = false -> osim R c' d') -> osim R (if x then c else c') (if x then d else d').
Proof. destruct x; auto. Qed.

Lemma osim_mono (R R' : A -> B -> Prop) c d : osim R c d -> (forall a b, R a b -> R' a b) -> osim R' c d.
Proof. destruct c, d; simpl; auto. Qed.

(** Two loops that run in step. *)
Definition sum_rel (R : A -> B -> Prop) (R' : A' -> B' -> Prop) (x : A + A') (y : B + B') : Prop :=
  match x, y with inl a, inl b => R a b | inr a, inr b => R' a b | _, _ => False end.

Lemma osim_loop (R : A -> B -> Prop) (R' : A' -> B' -> Prop) fuel body body' a b :
  (forall a b, R a b -> osim (sum_rel R R') (body a) (body' b)) -> R a b ->
  osim R' (loop fuel body a) (loop fuel body' b).
Proof.
  intros Hs. revert a b. induction fuel as [|n IH]; intros a b Hab; [done|]. simpl.
  specialize (Hs a b Hab). destruct (body a) as [[?|?]|], (body' b) as [[?|?]|]; simpl in *; try done; auto.
Qed.

Lemma osim_eq (f : B -> A) c d : osim (fun a b => a = f b) c d -> c = (x ← d; mret (f x)).
Proof. destruct c, d; simpl; try done; by intros ->. Qed.
End simulation.
