(* ===== verification/Hash.v ===== *)
(** * Block-wise hashing, shared by MD5 and SHA-1

    Both hash functions of mongoose.c consume their input by blocks of 64 bytes
    and keep the incomplete block in a buffer.  [absorb f st m] is the state
    after the complete blocks of [m], with the bytes left over; [pad] is the
    padding both standards prescribe. *)

From Stdlib Require Import ZArith Lia.
From stdpp Require Import base list numbers option.
From S2P Require Import Prelude.

Local Open Scope Z_scope.

Definition BLOCK : nat := 64.

Section absorb.
Context {S : Type} (f : S -> list Z -> S).

Fixpoint absorb_blocks (n : nat) (st : S) (m : list Z) : S * list Z :=
  match n with
  | O => (st, m)
  | Datatypes.S n => absorb_blocks n (f st (take BLOCK m)) (drop BLOCK m)
  end.

Definition absorb (st : S) (m : list Z) : S * list Z :=
  absorb_blocks (length m / BLOCK) st m.

Lemma absorb_small st m : (length m < BLOCK)%nat -> absorb st m = (st, m).
Proof. intros H. unfold absorb. by rewrite Nat.div_small. Qed.

Lemma absorb_block st b m : length b = BLOCK -> absorb st (b ++ m) = absorb (f st b) m.
Proof.
  intros Hb. unfold absorb. rewrite length_app, Hb.
  replace (BLOCK + length m)%nat with (length m + 1 * BLOCK)%nat by lia.
  rewrite Nat.div_add, Nat.add_1_r by done. simpl.
  by rewrite <- Hb, take_app_length, drop_app_length.
Qed.

(** Induction on a message by complete blocks. *)
Lemma block_ind (P : list Z -> Prop) :
  (forall m, (length m < BLOCK)%nat -> P m) ->
  (forall b m, length b = BLOCK -> P m -> P (b ++ m)) -> forall m, P m.
Proof.
  intros H0 H1 m. induction (Nat.lt_wf_0_projected (@length Z) m) as [m _ IH].
  destruct (decide (length m < BLOCK)%nat) as [|Hge]; [by apply H0|].
  rewrite <- (take_drop BLOCK m). apply H1.
  - rewrite length_take; unfold BLOCK in *; lia.
  - apply IH. rewrite length_drop; unfold BLOCK in *; lia.
Qed.

Lemma absorb_app st m s :
  absorb st (m ++ s) = absorb (absorb st m).1 ((absorb st m).2 ++ s).
Proof.
  revert st. induction m as [m Hm|b m Hb IH] using block_ind; intros st.
  - by rewrite (absorb_small st m).
  - rewrite <- app_assoc, !(absorb_block st b) by done. apply IH.
Qed.

Lemma absorb_rest_length st m : length (absorb st m).2 = (length m mod BLOCK)%nat.
Proof.
  revert st. induction m as [m Hm|b m Hb IH] using block_ind; intros st.
  - rewrite absorb_small by done. by rewrite Nat.mod_small.
  - rewrite absorb_block, IH, length_app, Hb by done.
    replace (BLOCK + length m)%nat with (length m + 1 * BLOCK)%nat by lia.
    by rewrite Nat.Div0.mod_add.
Qed.

(** The bytes left over are a suffix of the message. *)
Lemma absorb_rest st m : (absorb st m).2 = drop (length m / BLOCK * BLOCK) m.
Proof.
  revert st. induction m as [m Hm|b m Hb IH] using block_ind; intros st.
  - rewrite absorb_small by done. by rewrite Nat.div_small.
  - rewrite absorb_block, IH, length_app, Hb by done.
    replace (BLOCK + length m)%nat with (length m + 1 * BLOCK)%nat by lia.
    rewrite Nat.div_add by done. rewrite drop_app_ge by (rewrite Hb; lia).
    f_equal. rewrite Hb; lia.
Qed.
End absorb.

(** The padding of a message of [n] bytes, given the encoding of the length:
    one bit set, then zeros, up to a whole number of blocks. *)
Definition pad_zeros (n : Z) : nat := Z.to_nat ((55 - n) mod 64).

Definition pad (encode_len : Z -> list Z) (m : list Z) : list Z :=
  m ++ [128] ++ replicate (pad_zeros (size m)) 0 ++ encode_len (8 * size m).

(** Words in the two byte orders. *)
Definition le32 (b : list Z) (i : nat) : Z :=
  nth i b 0 + nth (i + 1) b 0 * 2 ^ 8 + nth (i + 2) b 0 * 2 ^ 16 + nth (i + 3) b 0 * 2 ^ 24.
Definition be32 (b : list Z) (i : nat) : Z :=
  nth i b 0 * 2 ^ 24 + nth (i + 1) b 0 * 2 ^ 16 + nth (i + 2) b 0 * 2 ^ 8 + nth (i + 3) b 0.

Definition le_bytes (w : Z) : list Z :=
  [u8 w; u8 (Z.shiftr w 8); u8 (Z.shiftr w 16); u8 (Z.shiftr w 24)].
Definition be_bytes (w : Z) : list Z :=
  [u8 (Z.shiftr w 24); u8 (Z.shiftr w 16); u8 (Z.shiftr w 8); u8 w].

(** Rotation of a 32-bit word. *)
Definition rotl32 (w s : Z) : Z := Z.lor (u32 (Z.shiftl w s)) (Z.shiftr w (32 - s)).
