(* ===== verification/Base64.v ===== *)
(** * Base64 (mongoose.c, common/base64.c)

    The streaming encoder [cs_base64_init]/[update]/[finish], the one-shot
    encoder (the macro [BASE64_ENCODE_BODY] behind [cs_base64_encode] and
    [cs_fprint_base64]) and the decoder, against RFC 4648. *)

From Stdlib Require Import ZArith Lia String.
From stdpp Require Import base list numbers option.
From S2P Require Import Prelude.

Local Open Scope Z_scope.

(** ** The code *)

Definition NUM_UPPERCASES : Z := 26.
Definition NUM_LETTERS : Z := 52.
Definition NUM_DIGITS : Z := 10.

(** [out] is what the callback [b64_putc] has received, in order. *)
Record cs_base64_ctx := mk_ctx { chunk : list Z; chunk_size : Z; out : list Z }.

Definition b64_putc (ctx : cs_base64_ctx) (ch : Z) : cs_base64_ctx :=
  mk_ctx (chunk ctx) (chunk_size ctx) (out ctx ++ [ch]).

Definition cs_base64_emit_code (ctx : cs_base64_ctx) (v : Z) : cs_base64_ctx :=
  if v <? NUM_UPPERCASES then b64_putc ctx (v + 65)
  else if v <? NUM_LETTERS then b64_putc ctx (v - NUM_UPPERCASES + 97)
  else if v <? NUM_LETTERS + NUM_DIGITS then b64_putc ctx (v - NUM_LETTERS + 48)
  else b64_putc ctx (if v - NUM_LETTERS - NUM_DIGITS =? 0 then 43 else 47).

Definition cs_base64_emit_chunk (ctx : cs_base64_ctx) : outcome cs_base64_ctx :=
  a ← rd (chunk ctx) 0; b ← rd (chunk ctx) 1; c ← rd (chunk ctx) 2;
  let ctx := cs_base64_emit_code ctx (Z.shiftr a 2) in
  let ctx := cs_base64_emit_code ctx (Z.lor (Z.shiftl (Z.land a 3) 4) (Z.shiftr b 4)) in
  let ctx := if chunk_size ctx >? 1
    then cs_base64_emit_code ctx (Z.lor (Z.shiftl (Z.land b 15) 2) (Z.shiftr c 6)) else ctx in
  let ctx := if chunk_size ctx >? 2 then cs_base64_emit_code ctx (Z.land c 63) else ctx in
  mret ctx.

(** The chunk is not initialised: its old content is a parameter. *)
Definition cs_base64_init (junk : list Z) : cs_base64_ctx := mk_ctx junk 0 [].

Definition cs_base64_update (ctx : cs_base64_ctx) (str : list Z) (len : Z) : outcome cs_base64_ctx :=
  loop (S (Z.to_nat len)) (fun '(i, ctx) =>
    if i <? len then
      v ← rd str i;
      ch ← wr (chunk ctx) (chunk_size ctx) v;
      let ctx := mk_ctx ch (chunk_size ctx + 1) (out ctx) in
      if chunk_size ctx =? 3 then
        ctx ← cs_base64_emit_chunk ctx;
        mret (inl (i + 1, mk_ctx (chunk ctx) 0 (out ctx)))
      else mret (inl (i + 1, ctx))
    else mret (inr ctx)) (0, ctx).

Definition cs_base64_finish (ctx : cs_base64_ctx) : outcome cs_base64_ctx :=
  if chunk_size ctx >? 0 then
    ch ← memset (chunk ctx) (chunk_size ctx) 0 (3 - chunk_size ctx);
    ctx ← cs_base64_emit_chunk (mk_ctx ch (chunk_size ctx) (out ctx));
    loop 4 (fun '(i, ctx) =>
      if i <? 3 - chunk_size ctx then mret (inl (i + 1, b64_putc ctx 61))
      else mret (inr ctx)) (0, ctx)
  else mret ctx.

Definition b64 : list Z :=
  lit "ABCDEFGHIJKLMNOPQRSTUVWXYZabcdefghijklmnopqrstuvwxyz0123456789+/".

(** The macro: [OUT] and [FLUSH] are the two macros it expands, given the
    destination and [j]. *)
Definition BASE64_ENCODE_BODY {D} (OUT : D -> Z -> Z -> outcome D) (FLUSH : D -> Z -> outcome D)
    (src : list Z) (src_len : Z) (dst : D) : outcome D :=
  '(j, dst) ← loop (S (Z.to_nat src_len)) (fun '(i, j, dst) =>
      if i <? src_len then
        a ← rd src i;
        b ← (if i + 1 >=? src_len then mret 0 else rd src (i + 1));
        c ← (if i + 2 >=? src_len then mret 0 else rd src (i + 2));
        ch ← rd b64 (Z.shiftr a 2);
        dst ← OUT dst j ch; j ← int (j + 1);
        ch ← rd b64 (Z.lor (Z.shiftl (Z.land a 3) 4) (Z.shiftr b 4));
        dst ← OUT dst j ch; j ← int (j + 1);
        '(dst, j) ← (if i + 1 <? src_len then
                       ch ← rd b64 (Z.lor (Z.shiftl (Z.land b 15) 2) (Z.shiftr c 6));
                       dst ← OUT dst j ch; j ← int (j + 1); mret (dst, j)
                     else mret (dst, j));
        '(dst, j) ← (if i + 2 <? src_len then
                       ch ← rd b64 (Z.land c 63);
                       dst ← OUT dst j ch; j ← int (j + 1); mret (dst, j)
                     else mret (dst, j));
        i ← int (i + 3);
        mret (inl (i, j, dst))
      else mret (inr (j, dst))) (0, 0, dst);
  '(j, dst) ← loop 4 (fun '(j, dst) =>
      if j mod 4 =? 0 then mret (inr (j, dst))
      else dst ← OUT dst j 61; j ← int (j + 1); mret (inl (j, dst))) (j, dst);
  FLUSH dst j.

Definition cs_base64_encode (src : list Z) (src_len : Z) (dst : list Z) : outcome (list Z) :=
  BASE64_ENCODE_BODY (fun dst j ch => wr dst j ch) (fun dst j => wr dst j 0) src src_len dst.

(** The destination is the stream [f]: what has been written to it. *)
Definition cs_fprint_base64 (f : list Z) (src : list Z) (src_len : Z) : outcome (list Z) :=
  BASE64_ENCODE_BODY (fun f _ ch => mret (f ++ [ch])) (fun f _ => mret f) src src_len f.

Definition from_b64_tab : list Z :=
  [255; 255; 255; 255;  255; 255; 255; 255;
   255; 255; 255; 255;  255; 255; 255; 255;
   255; 255; 255; 255;  255; 255; 255; 255;
   255; 255; 255; 255;  255; 255; 255; 255;
   255; 255; 255; 255;  255; 255; 255; 255;
   255; 255; 255; 62;   255; 255; 255; 63;
   52; 53; 54; 55;      56; 57; 58; 59;
   60; 61; 255; 255;    255; 200; 255; 255;
   255; 0; 1; 2;        3; 4; 5; 6;
   7; 8; 9; 10;         11; 12; 13; 14;
   15; 16; 17; 18;      19; 20; 21; 22;
   23; 24; 25; 255;     255; 255; 255; 255;
   255; 26; 27; 28;     29; 30; 31; 32;
   33; 34; 35; 36;      37; 38; 39; 40;
   41; 42; 43; 44;      45; 46; 47; 48;
   49; 50; 51; 255;     255; 255; 255; 255].

Definition from_b64 (ch : Z) : outcome Z := rd from_b64_tab (Z.land ch 127).

(** The condition of the decoder's loop, with the four values it assigns. *)
Definition decode_cond (s : list Z) (p len : Z) : outcome (option (Z * Z * Z * Z)) :=
  if len >=? 4 then
    ch ← rd s p; a ← from_b64 ch;
    if a =? 255 then mret None else
    ch ← rd s (p + 1); b ← from_b64 ch;
    if b =? 255 then mret None else
    ch ← rd s (p + 2); c ← from_b64 ch;
    if c =? 255 then mret None else
    ch ← rd s (p + 3); d ← from_b64 ch;
    if d =? 255 then mret None else mret (Some (a, b, c, d))
  else mret None.

Definition cs_base64_decode (s : list Z) (len : Z) (dst : list Z) : outcome (list Z * Z) :=
  let orig_len := len in
  '(dst, w, len) ← loop (S (Z.to_nat len)) (fun '(p, len, dst, w) =>
      q ← decode_cond s p len;
      match q with
      | None => mret (inr (dst, w, len))
      | Some (a, b, c, d) =>
          let p := p + 4 in
          let len := len - 4 in
          if (a =? 200) || (b =? 200) then mret (inr (dst, w, len)) else
          dst ← wr dst w (u8 (Z.lor (Z.shiftl a 2) (Z.shiftr b 4))); let w := w + 1 in
          if c =? 200 then mret (inr (dst, w, len)) else
          dst ← wr dst w (u8 (Z.lor (Z.shiftl b 4) (Z.shiftr c 2))); let w := w + 1 in
          if d =? 200 then mret (inr (dst, w, len)) else
          dst ← wr dst w (u8 (Z.lor (Z.shiftl c 6) d)); let w := w + 1 in
          mret (inl (p, len, dst, w))
      end) (0, len, dst, 0);
  dst ← wr dst w 0;
  mret (dst, orig_len - len).

(** ** RFC 4648 *)

(** The character of a 6-bit value, and the encoding by groups of 24 bits. *)
Definition sextet (v : Z) : Z := nth (Z.to_nat v) b64 0.

Arguments sextet : simpl never.

Fixpoint rfc4648 (s : list Z) : list Z :=
  match s with
  | a :: b :: c :: r =>
      let n := a * 2 ^ 16 + b * 2 ^ 8 + c in
      sextet (n / 2 ^ 18) :: sextet (n / 2 ^ 12 mod 64) :: sextet (n / 2 ^ 6 mod 64)
        :: sextet (n mod 64) :: rfc4648 r
  | [a; b] =>
      let n := a * 2 ^ 16 + b * 2 ^ 8 in
      [sextet (n / 2 ^ 18); sextet (n / 2 ^ 12 mod 64); sextet (n / 2 ^ 6 mod 64); 61]
  | [a] =>
      let n := a * 2 ^ 16 in
      [sextet (n / 2 ^ 18); sextet (n / 2 ^ 12 mod 64); 61; 61]
  | [] => []
  end.

Example enc1 : cs_base64_encode (lit "Man is") 6 (replicate 9 7) = Ret (lit "TWFuIGlz" ++ [0]).
Proof. reflexivity. Qed.
Example enc2 : cs_base64_encode (lit "Ma") 2 (replicate 5 7) = Ret (lit "TWE=" ++ [0]).
Proof. reflexivity. Qed.
Example dec2 : cs_base64_decode (lit "TWE=") 4 (replicate 5 7) = Ret ([77; 97; 0; 7;7], 4).
Proof. vm_compute. reflexivity. Qed.

(** ** Helper lemmas *)

Lemma b64_length : length b64 = 64%nat.
Proof. reflexivity. Qed.

Lemma rd_b64 v : 0 <= v < 64 -> rd b64 v = Ret (sextet v).
Proof.
  intros Hv. destruct (rd_total b64 v) as (x & Hx & ->).
  { unfold size; rewrite b64_length; lia. }
  f_equal; unfold sextet. symmetry. by apply nth_lookup_Some with (d := 0) in Hx.
Qed.

Lemma from_b64_sextet v : 0 <= v < 64 -> from_b64 (sextet v) = Ret v.
Proof.
  intros Hv. apply (bool_decide_eq_true_1 _).
  exact (range_forallb (fun v => bool_decide (from_b64 (sextet v) = Ret v)) 64 eq_refl v Hv).
Qed.

Lemma emit_code_sextet ctx v : 0 <= v < 64 -> cs_base64_emit_code ctx v = b64_putc ctx (sextet v).
Proof.
  intros Hv.
  pose proof (range_forallb (fun v => (if v <? NUM_UPPERCASES then v + 65
    else if v <? NUM_LETTERS then v - NUM_UPPERCASES + 97
    else if v <? NUM_LETTERS + NUM_DIGITS then v - NUM_LETTERS + 48
    else (if v - NUM_LETTERS - NUM_DIGITS =? 0 then 43 else 47)) =? sextet v) 64 eq_refl v Hv) as H.
  apply Z.eqb_eq in H. rewrite <- H. unfold cs_base64_emit_code. by repeat case_match.
Qed.

(** The four 6-bit fields of a group, as the code extracts them. *)
Lemma field1 a : Z.shiftr a 2 = a / 4.
Proof. by rewrite Z.shiftr_div_pow2. Qed.
Lemma field2 a b : is_byte b ->
  Z.lor (Z.shiftl (Z.land a 3) 4) (Z.shiftr b 4) = (a mod 4) * 16 + b / 16.
Proof.
  unfold is_byte; intros. rewrite Z.shiftr_div_pow2 by lia. rewrite lor_disjoint by euclid.
  change 3 with (2 ^ 2 - 1). rewrite land_ones_mod by lia. reflexivity.
Qed.
Lemma field3 b c : is_byte c ->
  Z.lor (Z.shiftl (Z.land b 15) 2) (Z.shiftr c 6) = (b mod 16) * 4 + c / 64.
Proof.
  unfold is_byte; intros. rewrite Z.shiftr_div_pow2 by lia. rewrite lor_disjoint by euclid.
  change 15 with (2 ^ 4 - 1). rewrite land_ones_mod by lia. reflexivity.
Qed.
Lemma field4 c : Z.land c 63 = c mod 64.
Proof. change 63 with (2 ^ 6 - 1). by rewrite land_ones_mod by lia. Qed.

(** The encoding without its padding. *)
Fixpoint unpadded (s : list Z) : list Z :=
  match s with
  | a :: b :: c :: r =>
      sextet (a / 4) :: sextet ((a mod 4) * 16 + b / 16) :: sextet ((b mod 16) * 4 + c / 64)
        :: sextet (c mod 64) :: unpadded r
  | [a; b] => [sextet (a / 4); sextet ((a mod 4) * 16 + b / 16); sextet ((b mod 16) * 4 + 0 / 64)]
  | [a] => [sextet (a / 4); sextet ((a mod 4) * 16 + 0 / 16)]
  | [] => []
  end.

Definition padding (s : list Z) : nat := Z.to_nat ((- size s) mod 3).

(** Induction by groups of three. *)
Lemma list_ind3 {A} (P : list A -> Prop) :
  P [] -> (forall a, P [a]) -> (forall a b, P [a; b]) ->
  (forall a b c r, P r -> P (a :: b :: c :: r)) -> forall l, P l.
Proof.
  intros H0 H1 H2 H3. fix IH 1. intros [|a [|b [|c r]]]; [apply H0|apply H1|apply H2|apply H3, IH].
Qed.

Ltac sextets := repeat (apply (f_equal2 cons)); try (apply (f_equal sextet); euclid).

Lemma rfc4648_unpadded s : bytes s -> rfc4648 s = unpadded s ++ replicate (padding s) 61.
Proof.
  induction s as [| a | a b | a b c r IH] using list_ind3; intros Hs; inv_Forall;
    unfold is_byte in *.
  - reflexivity.
  - cbn -[Z.div Z.modulo sextet Z.mul]. sextets; done.
  - cbn -[Z.div Z.modulo sextet Z.mul]. sextets; done.
  - cbn -[Z.div Z.modulo sextet Z.mul]. rewrite IH by done.
    replace (padding (a :: b :: c :: r)) with (padding r)
      by (unfold padding; f_equal; size_simpl; euclid).
    sextets; done.
Qed.

Lemma size_unpadded s : size (unpadded s) + Z.of_nat (padding s) = 4 * ((size s + 2) / 3).
Proof.
  induction s as [| a | a b | a b c r IH] using list_ind3; [done..|].
  replace (padding (a :: b :: c :: r)) with (padding r)
    by (unfold padding; f_equal; size_simpl; euclid).
  simpl unpadded. size_simpl. euclid.
Qed.

Lemma padding_bound s : 0 <= Z.of_nat (padding s) < 3.
Proof. unfold padding; euclid. Qed.

(** ** The one-shot encoder, for any destination

    [Sink dst l] says that [l] has been written to the destination [dst], of
    which [cap] bytes can be written. *)

Section encoder.
Context {D : Type} (Sink : D -> list Z -> Prop) (cap : Z)
  (OUT : D -> Z -> Z -> outcome D) (FLUSH : D -> Z -> outcome D).
Hypothesis OUT_spec : forall dst l ch, Sink dst l -> size l < cap ->
  wp (OUT dst (size l) ch) (fun dst' => Sink dst' (l ++ [ch])).

Lemma out_step dst l j ch (Q : D -> Prop) :
  Sink dst l -> j = size l -> size l < cap -> (forall dst', Sink dst' (l ++ [ch]) -> Q dst') ->
  wp (OUT dst j ch) Q.
Proof. intros HS -> Hc HQ. eapply wp_mono; [by apply OUT_spec|done]. Qed.

Lemma wp_rd_b64 v v' (Q : Z -> Prop) :
  v = v' -> 0 <= v' < 64 -> Q (sextet v') -> wp (rd b64 v) Q.
Proof. intros -> Hv HQ; eapply wp_of_eq; [by apply rd_b64|done]. Qed.

Ltac byte_euclid := unfold is_byte in *; euclid.
Ltac enc_step := lazymatch goal with
  | |- wp (if _ then _ else _) _ => apply wp_if; intros ?; [try (exfalso; size_lia)|try (exfalso; size_lia)]
  | |- wp (OUT _ _ _) _ => eapply out_step; [eassumption|size_lia|size_lia|intros ? ?]
  | |- wp (rd b64 (Z.shiftr _ 2)) _ => apply (wp_rd_b64 _ _ _ (field1 _)); [byte_euclid|]
  | |- wp (rd b64 (Z.lor _ (Z.shiftr _ 4))) _ => eapply wp_rd_b64; [apply field2; assumption|byte_euclid|]
  | |- wp (rd b64 (Z.lor _ (Z.shiftr _ 6))) _ => eapply wp_rd_b64; [apply field3; assumption|byte_euclid|]
  | |- wp (rd b64 (Z.land _ 63)) _ => eapply wp_rd_b64; [apply field4|byte_euclid|]
  | |- wp (rd (_ ++ _) _) _ => eapply wp_of_eq; [apply rd_at; [lia|reflexivity]|]
  | |- wp (int _) _ => apply wp_int; [unfold INT_MAX in *; size_lia|]
  | _ => wp_step
  end.

Lemma encode_body_spec src dst (Q : D -> Prop) :
  bytes src -> Sink dst [] -> 4 * ((size src + 2) / 3) <= cap -> cap <= INT_MAX - 3 ->
  (forall dst', Sink dst' (rfc4648 src) -> wp (FLUSH dst' (size (rfc4648 src))) Q) ->
  wp (BASE64_ENCODE_BODY OUT FLUSH src (size src) dst) Q.
Proof.
  intros Hsrc HS Hcap Hmax HF. unfold BASE64_ENCODE_BODY.
  assert (size src + 3 <= INT_MAX) as Hlen by (unfold INT_MAX in *; euclid).
  pose proof (size_unpadded src) as Hup. pose proof (padding_bound src) as Hpb.
  apply wp_bind.
  apply wp_mono with (P := fun '(j, dst) => j = size (unpadded src) /\ Sink dst (unpadded src)).
  - apply wp_loop with (m := fun '(i, _, _) => Z.to_nat (size src - i))
      (I := fun '(i, j, dst) => exists pre rest l, src = pre ++ rest /\
         (i = size pre \/ rest = [] /\ size src <= i) /\ Sink dst l /\ j = size l /\
         unpadded src = l ++ unpadded rest); [|exists [], src, []; auto|rewrite size_to_nat; unfold size; lia].
    clear HF HS dst. intros [[i j] dst] (pre & rest & l & -> & Hi & HS & -> & Hu).
    rewrite Hu in Hup. size_simpl.
    apply wp_if_ltb; intros Hlt; cycle 1.
    { assert (rest = []) as ->.
      { destruct Hi as [->|[-> _]]; [|done]. destruct rest; [done|exfalso; size_lia]. }
      wp_step. simpl in Hu. rewrite (app_nil_r l) in Hu; by rewrite Hu. }
    destruct Hi as [->|[-> Hi]]; [|exfalso; size_lia].
    apply Forall_app in Hsrc as [_ Hrest].
    destruct rest as [|x [|y [|z r]]]; simpl in Hup; size_simpl; inv_Forall; [exfalso; lia|..].
    all: assert (is_byte 0) by done.
    all: apply wp_bind; eapply wp_of_eq; [apply rd_at0|]; cbn beta.
    all: repeat (enc_step; cbn beta iota); split; [|size_lia].
    + exists (pre ++ [x]), []; eexists; split_and!; [by rewrite app_nil_r|right; split; [done|size_lia]|eassumption|size_lia|].
      rewrite Hu; simpl. by rewrite app_nil_r, <- app_assoc.
    + exists (pre ++ [x; y]), []; eexists; split_and!; [by rewrite app_nil_r|right; split; [done|size_lia]|eassumption|size_lia|].
      rewrite Hu; simpl. by rewrite app_nil_r, <- !app_assoc.
    + exists (pre ++ [x; y; z]), r; eexists; split_and!; [by rewrite <- app_assoc|left; size_lia|eassumption|size_lia|].
      rewrite Hu; simpl. by rewrite <- !app_assoc.
  - intros [j dst'] [-> HS']. apply wp_bind.
    apply wp_mono with (P := fun '(j, dst) => j = size (rfc4648 src) /\ Sink dst (rfc4648 src)).
    2: { intros [j d] [-> H]. by apply HF. }
    rewrite rfc4648_unpadded by done.
    apply wp_loop with (m := fun '(j, _) => Z.to_nat (4 * ((size src + 2) / 3) - j))
      (I := fun '(j, dst) => exists k, 0 <= k <= Z.of_nat (padding src) /\
         j = size (unpadded src) + k /\ Sink dst (unpadded src ++ replicate (Z.to_nat k) 61)).
    + clear dst HS dst' HS'. intros [j dst] (k & Hk & -> & HS).
      assert (size (unpadded src ++ replicate (Z.to_nat k) 61) = size (unpadded src) + k) as Esz
        by (size_simpl; unfold size; rewrite length_replicate; lia).
      wp_step.
      * assert (k = Z.of_nat (padding src)) as -> by euclid.
        rewrite Nat2Z.id in *. wp_step. by rewrite <- Esz.
      * wp_step. eapply out_step; [eassumption|lia|euclid|intros d Hd].
        repeat enc_step. cbn beta iota; split; [|euclid].
        exists (k + 1); split_and!; [euclid..|].
        rewrite <- app_assoc in Hd. replace (Z.to_nat (k + 1)) with (Z.to_nat k + 1)%nat by lia.
        by rewrite replicate_add.
    + exists 0; split_and!; [lia..|]. simpl. by rewrite app_nil_r.
    + lia.
Qed.
End encoder.

Lemma size_rfc4648 s : bytes s -> size (rfc4648 s) = 4 * ((size s + 2) / 3).
Proof.
  intros. rewrite rfc4648_unpadded, size_app by done. rewrite <- size_unpadded.
  unfold size; rewrite length_replicate; lia.
Qed.

(** ** The streaming encoder *)

Lemma unpadded_app f r : size f mod 3 = 0 -> unpadded (f ++ r) = unpadded f ++ unpadded r.
Proof.
  induction f as [| a | a b | a b c f IH] using list_ind3; intros Hm; [done|done|done|].
  simpl. rewrite IH; [done|]. size_simpl. euclid.
Qed.

Lemma emit_chunk_full a b c n o : is_byte a -> is_byte b -> is_byte c -> 1 <= n <= 3 ->
  cs_base64_emit_chunk (mk_ctx [a; b; c] n o) =
  Ret (mk_ctx [a; b; c] n (o ++ take (Z.to_nat (n + 1)) (unpadded [a; b; c]))).
Proof.
  intros Ha Hb Hc Hn. unfold cs_base64_emit_chunk; cbn [chunk].
  change (rd [a; b; c] 0) with (Ret a). change (rd [a; b; c] 1) with (Ret b).
  change (rd [a; b; c] 2) with (Ret c). cbn [mbind outcome_bind].
  rewrite (field2 a b), (field3 b c), field1, field4 by done. unfold is_byte in *.
  rewrite !emit_code_sextet by euclid. unfold b64_putc; cbn [chunk chunk_size out].
  assert (n = 1 \/ n = 2 \/ n = 3) as [->|[->| ->]] by lia;
    cbn -[Z.div Z.modulo Z.mul]; by rewrite <- ?app_assoc.
Qed.

Arguments cs_base64_emit_chunk : simpl never.

(** What the context remembers of the bytes [s] it has received. *)
Definition ctx_inv (ctx : cs_base64_ctx) (s : list Z) : Prop :=
  exists f p q, s = f ++ p /\ size f mod 3 = 0 /\ size p < 3 /\ bytes p /\
    chunk ctx = p ++ q /\ size (p ++ q) = 3 /\ chunk_size ctx = size p /\ out ctx = unpadded f.

Lemma ctx_inv_step ctx s v : ctx_inv ctx s -> is_byte v ->
  wp (ch ← wr (chunk ctx) (chunk_size ctx) v;
      let ctx := mk_ctx ch (chunk_size ctx + 1) (out ctx) in
      if chunk_size ctx =? 3 then
        ctx ← cs_base64_emit_chunk ctx; mret (mk_ctx (chunk ctx) 0 (out ctx))
      else mret ctx) (fun ctx' => ctx_inv ctx' (s ++ [v])).
Proof.
  destruct ctx as [ch n o]; intros (f & p & q & -> & Hf & Hp & Hb & Hch & Hl & Hn & Ho) Hv.
  simpl in *; subst. destruct q as [|x q]; [exfalso; size_lia|].
  apply wp_bind, wp_wr; [size_lia|]. cbn zeta. cbn [chunk chunk_size out].
  replace (<[Z.to_nat (size p) := v]> (p ++ x :: q)) with (p ++ v :: q)
    by (rewrite size_to_nat, insert_app_r_alt, Nat.sub_diag by lia; done).
  wp_step.
  - destruct p as [|a [|b [|? ?]]]; [exfalso; size_lia|exfalso; size_lia| |exfalso; size_lia].
    destruct q; [|exfalso; size_lia]. inv_Forall.
    apply wp_bind. simpl. eapply wp_of_eq; [apply emit_chunk_full; (done || size_lia)|].
    apply wp_mret. cbn [chunk out].
    exists (f ++ [a; b; v]), [], [a; b; v]; split_and!; try done.
    + by rewrite <- app_assoc, app_nil_r.
    + size_simpl. euclid.
    + cbn [out]. rewrite unpadded_app by done. done.
  - wp_step. exists f, (p ++ [v]), q; split_and!; try done; cbn [chunk chunk_size out].
    + by rewrite <- app_assoc.
    + size_lia.
    + apply Forall_app; split; [done|by apply Forall_singleton].
    + by rewrite <- app_assoc.
    + size_lia.
    + size_lia.
Qed.

Lemma update_spec ctx s str : ctx_inv ctx s -> bytes str ->
  wp (cs_base64_update ctx str (size str)) (fun ctx' => ctx_inv ctx' (s ++ str)).
Proof.
  intros Hi Hb. unfold cs_base64_update.
  apply wp_loop with (m := fun '(i, _) => Z.to_nat (size str - i))
    (I := fun '(i, ctx) => 0 <= i <= size str /\ ctx_inv ctx (s ++ slice str 0 i)).
  - intros [i c] [Hr HI]. wp_step.
    + apply wp_bind, wp_rd; [lia|]. intros v Hv.
      assert (is_byte v) as Hvb by (eapply Forall_lookup_1; eauto).
      destruct (ctx_inv_step _ _ v HI Hvb) as (c' & E & HI').
      destruct (wr (chunk c) (chunk_size c) v) as [ch|]; [|discriminate]. simpl in *.
      rewrite <- app_assoc, <- (slice_snoc str 0 i v) in HI' by (done || lia).
      destruct (chunk_size c + 1 =? 3).
      * destruct (cs_base64_emit_chunk _) as [c1|]; [|discriminate]. simpl in *.
        injection E as ->. apply wp_mret. split; [split; [lia|done]|lia].
      * injection E as ->. apply wp_mret. split; [split; [lia|done]|lia].
    + wp_step. replace i with (size str) in * by lia. by rewrite slice_all in HI.
  - split; [pose proof (size_nonneg str); lia|]. by rewrite slice_nil, app_nil_r.
  - rewrite size_to_nat. unfold size; lia.
Qed.

Lemma finish_spec ctx s : ctx_inv ctx s -> bytes s ->
  wp (cs_base64_finish ctx) (fun ctx' => out ctx' = rfc4648 s).
Proof.
  destruct ctx as [ch n o]; intros (f & p & q & -> & Hf & Hp & Hb & Hch & Hl & Hn & Ho) Hs.
  simpl in *; subst. rewrite rfc4648_unpadded, unpadded_app by done.
  unfold cs_base64_finish; cbn [chunk chunk_size out app].
  assert (is_byte 0) by done.
  destruct p as [|a [|b [|? ?]]]; [| | |exfalso; size_lia]; inv_Forall.
  - simpl. apply wp_mret. rewrite !app_nil_r; cbn [out].
    unfold padding. replace (- size f mod 3) with 0 by euclid. simpl. by rewrite app_nil_r.
  - destruct q as [|x [|y [|? ?]]]; [exfalso; size_lia..| |exfalso; size_lia].
    cbn [app]. change (size [a] >? 0) with true.
    change (memset [a; x; y] (size [a]) 0 (3 - size [a])) with (Ret [a; 0; 0]).
    cbn [mbind outcome_bind app]. rewrite emit_chunk_full by (done || size_lia). simpl.
    unfold padding. replace (- size (f ++ [a]) mod 3) with 2 by (size_simpl; euclid).
    apply wp_ret. simpl. by rewrite <- !app_assoc.
  - destruct q as [|x [|? ?]]; [exfalso; size_lia| |exfalso; size_lia].
    cbn [app]. change (size [a; b] >? 0) with true.
    change (memset [a; b; x] (size [a; b]) 0 (3 - size [a; b])) with (Ret [a; b; 0]).
    cbn [mbind outcome_bind app]. rewrite emit_chunk_full by (done || size_lia). simpl.
    unfold padding. replace (- size (f ++ [a; b]) mod 3) with 1 by (size_simpl; euclid).
    apply wp_ret. simpl. by rewrite <- !app_assoc.
Qed.

(** The calls [cs_base64_update] on successive fragments. *)
Fixpoint update_all (ctx : cs_base64_ctx) (frags : list (list Z)) : outcome cs_base64_ctx :=
  match frags with
  | [] => mret ctx
  | s :: r => ctx ← cs_base64_update ctx s (size s); update_all ctx r
  end.

(** However the input is cut into fragments, the streaming encoder sends the
    callback exactly the RFC 4648 encoding of the whole input. *)
Theorem cs_base64_streaming_rfc4648 frags junk :
  Forall (fun s => bytes s) frags -> size junk = 3 ->
  exists ctx, (c ← update_all (cs_base64_init junk) frags; cs_base64_finish c) = Ret ctx /\
    out ctx = rfc4648 (concat frags).
Proof.
  intros Hf Hj.
  assert (forall ctx s, ctx_inv ctx s -> bytes s ->
    wp (update_all ctx frags) (fun c => ctx_inv c (s ++ concat frags))) as Hall.
  { clear Hj. induction frags as [|x r IH]; intros ctx s Hi Hs; simpl.
    - apply wp_mret. by rewrite app_nil_r.
    - inv_Forall. apply wp_bind. eapply wp_mono; [by apply update_spec|].
      intros c Hc. rewrite app_assoc. apply IH; [done|done|]. by apply Forall_app. }
  assert (bytes (concat frags)) by (by apply Forall_concat).
  apply wp_bind. eapply wp_mono; [apply (Hall _ [])|].
  - exists [], [], junk; split_and!; done.
  - done.
  - intros c Hc. by apply finish_spec.
Qed.

Lemma cs_base64_streaming_rfc4648_witness :
  exists ctx, (c ← update_all (cs_base64_init [7; 7; 7]) [lit "M"; []; lit "anX"]; cs_base64_finish c) = Ret ctx /\
    out ctx = lit "TWFuWA==".
Proof.
  apply (cs_base64_streaming_rfc4648 [lit "M"; []; lit "anX"] [7; 7; 7]); [|reflexivity].
  repeat constructor; lia.
Defined.

(** ** The one-shot encoders and the decoder *)

Lemma encode_rfc4648 src dst :
  bytes src -> size (rfc4648 src) < size dst -> size (rfc4648 src) <= INT_MAX - 3 ->
  cs_base64_encode src (size src) dst = Ret (fill dst (rfc4648 src ++ [0])).
Proof.
  intros Hs Hd Hm. apply wp_eq.
  apply (encode_body_spec (fun d l => d = fill dst l) (size (rfc4648 src))); try done.
  - intros d l ch -> Hl. by apply wp_wr_fill; [|lia|].
  - by rewrite size_rfc4648.
  - intros d ->. by apply wp_wr_fill.
Qed.

(** [cs_base64_encode] writes the RFC 4648 encoding of its input and a
    terminator at the start of the destination, and nothing else. *)
Theorem cs_base64_encode_rfc4648 src dst :
  bytes src -> size (rfc4648 src) < size dst -> size (rfc4648 src) <= INT_MAX - 3 ->
  cs_base64_encode src (size src) dst = Ret (fill dst (rfc4648 src ++ [0])).
Proof. apply encode_rfc4648. Qed.

Lemma cs_base64_encode_rfc4648_witness :
  cs_base64_encode (lit "Ma") 2 [9; 9; 9; 9; 9; 9] = Ret (lit "TWE=" ++ [0; 9]).
Proof.
  apply (cs_base64_encode_rfc4648 (lit "Ma") [9; 9; 9; 9; 9; 9]);
    [repeat constructor; lia|reflexivity|discriminate].
Defined.

(** The stream variant writes the same characters, without the terminator. *)
Theorem cs_fprint_base64_rfc4648 f src :
  bytes src -> size (rfc4648 src) <= INT_MAX - 3 ->
  cs_fprint_base64 f src (size src) = Ret (f ++ rfc4648 src).
Proof.
  intros Hs Hm. apply wp_eq.
  apply (encode_body_spec (fun d l => d = f ++ l) (size (rfc4648 src))); try done.
  - intros d l ch -> Hl. apply wp_mret. by rewrite <- app_assoc.
  - by rewrite app_nil_r.
  - by rewrite size_rfc4648.
  - intros d ->. by apply wp_mret.
Qed.

Lemma from_b64_pad : from_b64 61 = Ret 200.
Proof. reflexivity. Qed.

Lemma byte1 a b : is_byte a -> 0 <= b < 256 ->
  u8 (Z.lor (Z.shiftl (a / 4) 2) (Z.shiftr (a mod 4 * 16 + b / 16) 4)) = a.
Proof.
  unfold is_byte, u8; intros. rewrite Z.shiftr_div_pow2 by lia. rewrite lor_disjoint by euclid. euclid.
Qed.
Lemma byte2 a b c : is_byte a -> is_byte b -> 0 <= c < 256 ->
  u8 (Z.lor (Z.shiftl (a mod 4 * 16 + b / 16) 4) (Z.shiftr (b mod 16 * 4 + c / 64) 2)) = b.
Proof.
  unfold is_byte, u8; intros. rewrite Z.shiftr_div_pow2 by lia. rewrite lor_disjoint by euclid. euclid.
Qed.
Lemma byte3 b c : is_byte b -> is_byte c ->
  u8 (Z.lor (Z.shiftl (b mod 16 * 4 + c / 64) 6) (c mod 64)) = c.
Proof.
  unfold is_byte, u8; intros. rewrite lor_disjoint by euclid. euclid.
Qed.

(** The four characters of a group, looked up. *)
Lemma decode_cond_group (pre : list Z) w x y z tl len a b c d :
  4 <= len -> from_b64 w = Ret a -> from_b64 x = Ret b -> from_b64 y = Ret c -> from_b64 z = Ret d ->
  a <> 255 -> b <> 255 -> c <> 255 -> d <> 255 ->
  decode_cond (pre ++ w :: x :: y :: z :: tl) (size pre) len = Ret (Some (a, b, c, d)).
Proof.
  intros Hl Ha Hb Hc Hd Na Nb Nc Nd. unfold decode_cond.
  destruct (Z.geb_spec len 4); [|lia].
  rewrite rd_at0. cbn [mbind outcome_bind]. rewrite Ha. cbn [mbind outcome_bind].
  destruct (Z.eqb_spec a 255); [lia|].
  rewrite (rd_at _ _ 1 x) by done. cbn [mbind outcome_bind]. rewrite Hb. cbn [mbind outcome_bind].
  destruct (Z.eqb_spec b 255); [lia|].
  rewrite (rd_at _ _ 2 y) by done. cbn [mbind outcome_bind]. rewrite Hc. cbn [mbind outcome_bind].
  destruct (Z.eqb_spec c 255); [lia|].
  rewrite (rd_at _ _ 3 z) by done. cbn [mbind outcome_bind]. rewrite Hd. cbn [mbind outcome_bind].
  by destruct (Z.eqb_spec d 255); [lia|].
Qed.

Lemma rfc4648_split f r : bytes f -> bytes r -> size f mod 3 = 0 ->
  rfc4648 (f ++ r) = unpadded f ++ rfc4648 r.
Proof.
  intros Hf Hr Hm. rewrite !rfc4648_unpadded, unpadded_app by (done || by apply Forall_app).
  rewrite <- app_assoc. do 3 f_equal. unfold padding. size_simpl. euclid.
Qed.

Lemma size_unpadded_full f : size f mod 3 = 0 -> size (unpadded f) = 4 * (size f / 3).
Proof.
  intros Hm. pose proof (size_unpadded f). unfold padding in *.
  replace ((- size f) mod 3) with 0 in * by euclid. euclid.
Qed.

Ltac wp_val E := apply wp_bind; eapply wp_of_eq; [E|].
Ltac wr_next := apply wp_bind, wp_wr_fill; [size_lia|size_lia|].

Lemma decode_rfc4648 s tl dst : bytes s -> size s < size dst ->
  cs_base64_decode (rfc4648 s ++ tl) (size (rfc4648 s)) dst =
  Ret (fill dst (s ++ [0]), size (rfc4648 s)).
Proof.
  intros Hs Hd. apply wp_eq. unfold cs_base64_decode. apply wp_bind.
  apply wp_mono with (P := fun '(d, w, len) => d = fill dst s /\ w = size s /\ len = 0); cycle 1.
  { intros [[d w] len] (-> & -> & ->). wr_next. apply wp_mret. f_equal. lia. }
  apply wp_loop with (m := fun '(_, len, _, _) => Z.to_nat len)
    (I := fun '(p, len, d, w) => exists pre rest, s = pre ++ rest /\ size pre mod 3 = 0 /\
       p = size (unpadded pre) /\ len = size (rfc4648 rest) /\ d = fill dst pre /\ w = size pre);
    [|by exists [], s|lia].
  intros [[[p len] d] w] (pre & rest & -> & Hm & -> & -> & -> & ->).
  apply Forall_app in Hs as Hs'. destruct Hs' as [Hp Hr].
  rewrite rfc4648_split, <- app_assoc by done. size_simpl.
  assert (is_byte 0) as H0 by done.
  destruct rest as [|a [|b [|c r]]]; inv_Forall.
  - simpl. apply wp_mret. rewrite app_nil_r. split_and!; (done || size_lia).
  - rewrite (rfc4648_unpadded [a]) by solve_bytes. simpl.
    wp_val ltac:(apply decode_cond_group; [size_lia|apply from_b64_sextet|apply from_b64_sextet
      |reflexivity|reflexivity|..]; unfold is_byte in *; euclid).
    cbn beta iota. rewrite byte1 by (done || lia).
    apply wp_if; intros E; [exfalso; unfold is_byte in *; euclid|].
    wr_next. wp_step; [|lia]. by apply wp_mret.
  - rewrite (rfc4648_unpadded [a; b]) by solve_bytes. simpl.
    wp_val ltac:(apply decode_cond_group; [size_lia|apply from_b64_sextet|apply from_b64_sextet
      |apply from_b64_sextet|reflexivity|..]; unfold is_byte in *; euclid).
    cbn beta iota. rewrite byte1, byte2 by (done || unfold is_byte in *; lia).
    apply wp_if; intros E; [exfalso; unfold is_byte in *; euclid|].
    wr_next. wp_step; [exfalso; unfold is_byte in *; euclid|].
    wr_next. wp_step; [|lia]. apply wp_mret. rewrite <- app_assoc. split_and!; (done || size_lia).
  - change (a :: b :: c :: r) with ([a; b; c] ++ r) in *.
    rewrite (rfc4648_split [a; b; c]) by (done || solve_bytes). simpl.
    wp_val ltac:(apply decode_cond_group; [size_lia|apply from_b64_sextet|apply from_b64_sextet
      |apply from_b64_sextet|apply from_b64_sextet|..]; unfold is_byte in *; euclid).
    cbn beta iota. rewrite byte1, byte2, byte3 by (done || unfold is_byte in *; lia).
    apply wp_if; intros E; [exfalso; unfold is_byte in *; euclid|].
    wr_next. wp_step; [exfalso; unfold is_byte in *; euclid|].
    wr_next. wp_step; [exfalso; unfold is_byte in *; euclid|].
    wr_next. apply wp_mret. split; [|size_lia].
    exists (pre ++ [a; b; c]), r. rewrite <- !app_assoc; cbn [app]. split_and!; try done.
    + size_simpl; euclid.
    + rewrite unpadded_app by done. simpl. size_lia.
    + size_lia.
    + size_lia.
Qed.

(** Decoding what [cs_base64_encode] wrote gives back the input, consumes all
    of it, and terminates the result. *)
Theorem cs_base64_roundtrip src dst1 dst2 :
  bytes src -> size src < size dst2 ->
  4 * ((size src + 2) / 3) < size dst1 -> 4 * ((size src + 2) / 3) <= INT_MAX - 3 ->
  (e ← cs_base64_encode src (size src) dst1; cs_base64_decode e (4 * ((size src + 2) / 3)) dst2)
  = Ret (fill dst2 (src ++ [0]), 4 * ((size src + 2) / 3)).
Proof.
  intros Hs Hd2 Hd1 Hm. rewrite <- size_rfc4648 in * by done.
  rewrite encode_rfc4648 by done. cbn [mbind outcome_bind].
  unfold fill at 1. rewrite <- app_assoc. by apply decode_rfc4648.
Qed.

Lemma cs_base64_roundtrip_witness :
  (e ← cs_base64_encode (lit "Jobify") 6 (replicate 9 1); cs_base64_decode e 8 (replicate 8 2))
  = Ret (lit "Jobify" ++ [0; 2], 8).
Proof.
  apply (cs_base64_roundtrip (lit "Jobify") (replicate 9 1) (replicate 8 2));
    [repeat constructor; lia|reflexivity|reflexivity|discriminate].
Defined.

(** *** Memory safety of the decoder on arbitrary input *)

Lemma wp_from_b64 ch (Q : Z -> Prop) : 0 <= ch -> (forall v, is_byte v -> Q v) -> wp (from_b64 ch) Q.
Proof.
  intros Hch HQ. unfold from_b64. change 127 with (2 ^ 7 - 1). rewrite land_ones_mod by lia.
  pose proof (range_forallb (fun v => match rd from_b64_tab v with
    | Ret x => (0 <=? x) && (x <? 256) | _ => false end) 128 eq_refl (ch mod 2 ^ 7)
    ltac:(euclid)) as H; cbn beta in H.
  destruct (rd from_b64_tab (ch mod 2 ^ 7)) as [v|]; [|discriminate H].
  apply wp_ret, HQ. unfold is_byte. lia.
Qed.

Lemma wp_decode_cond s p len (Q : _ -> Prop) :
  bytes s -> 0 <= p -> p + len <= size s -> Q None ->
  (forall a b c d, 4 <= len -> is_byte a -> is_byte b -> is_byte c -> is_byte d -> Q (Some (a, b, c, d))) ->
  wp (decode_cond s p len) Q.
Proof.
  intros Hs Hp Hl HN HS. unfold decode_cond. apply wp_if; intros Hc; [|by apply wp_mret].
  assert (forall i v, s !! i = Some v -> 0 <= v) as Hpos.
  { intros i v Hv. eapply Forall_lookup_1 in Hs; [|done]. unfold is_byte in Hs; lia. }
  do 4 (apply wp_bind, wp_rd; [lia|]; intros ? ?; apply wp_bind, wp_from_b64;
    [by eapply Hpos|]; intros ? ?; wp_step; [by apply wp_mret|]).
  apply wp_mret, HS; (done || lia).
Qed.

Lemma bytes_snoc o v : bytes o -> bytes (o ++ [u8 v]).
Proof. intros; apply Forall_app; split; [done|apply Forall_singleton, u8_byte]. Qed.

(** C38: the decoder never reads outside the [len] bytes it is given, never writes
    more than [3 * (len / 4) + 1] bytes, and always returns: the characters it
    consumed are whole groups. *)
Theorem cs_base64_decode_safe s len dst :
  bytes s -> 0 <= len <= size s -> 3 * (len / 4) + 1 <= size dst ->
  exists out n, cs_base64_decode s len dst = Ret (fill dst (out ++ [0]), n) /\
    bytes out /\ 0 <= n <= len /\ n mod 4 = 0 /\ size out <= 3 * (n / 4).
Proof.
  intros Hs Hl Hd. unfold cs_base64_decode.
  enough (wp (cs_base64_decode s len dst) (fun '(d, n) => exists out, d = fill dst (out ++ [0]) /\
    bytes out /\ 0 <= n <= len /\ n mod 4 = 0 /\ size out <= 3 * (n / 4))) as ([d n] & E & o & -> & H)
    by (exists o, n; split; [exact E|exact H]).
  unfold cs_base64_decode. apply wp_bind.
  apply wp_mono with (P := fun '(d, w, len') => exists o, d = fill dst o /\ w = size o /\ bytes o /\
    0 <= len' <= len /\ (len - len') mod 4 = 0 /\ size o <= 3 * ((len - len') / 4)); cycle 1.
  { intros [[d w] len'] (o & -> & -> & Ho & Hr & Hm & Hsz). apply wp_bind, wp_wr_fill; [done|euclid|].
    apply wp_mret. exists o; split_and!; (done || lia). }
  apply wp_loop with (m := fun '(_, len', _, _) => Z.to_nat len')
    (I := fun '(p, len', d, w) => p = len - len' /\ exists o, d = fill dst o /\ w = size o /\ bytes o /\
       0 <= len' <= len /\ (len - len') mod 4 = 0 /\ size o <= 3 * ((len - len') / 4)).
  - intros [[[p len'] d] w] (-> & o & -> & -> & Ho & Hr & Hm & Hsz).
    apply wp_bind, wp_decode_cond; [done|lia|lia|apply wp_mret; by exists o|].
    intros a b c e H4 Ha Hb Hc He. cbn zeta.
    assert ((len - (len' - 4)) mod 4 = 0) by euclid.
    assert ((len - (len' - 4)) / 4 = (len - len') / 4 + 1) as E by euclid.
    assert (size o + 3 < size dst) by euclid.
    apply wp_if; intros _; [apply wp_mret; exists o; split_and!; (done || lia)|].
    wr_next. wp_step.
    { apply wp_mret; eexists; split_and!; [done|size_lia|by apply bytes_snoc|lia..|rewrite E; size_lia]. }
    wr_next. wp_step.
    { apply wp_mret; eexists; split_and!; [done|size_lia|by repeat apply bytes_snoc|lia..|rewrite E; size_lia]. }
    wr_next. apply wp_mret. split; [|lia]. split; [lia|].
    eexists; split_and!; [done|size_lia|by repeat apply bytes_snoc|lia..|rewrite E; size_lia].
  - split; [lia|]. exists []; split_and!; (done || lia || (rewrite Z.sub_diag; (done || by simpl))).
  - lia.
Qed.

Lemma cs_base64_decode_safe_witness :
  exists out n, cs_base64_decode [84; 87; 255; 110; 61; 61] 6 (replicate 4 0) = Ret (fill (replicate 4 0) (out ++ [0]), n) /\
    bytes out /\ 0 <= n <= 6 /\ n mod 4 = 0 /\ size out <= 3 * (n / 4).
Proof.
  apply (cs_base64_decode_safe [84; 87; 255; 110; 61; 61] 6 (replicate 4 0));
    [repeat constructor; lia|cbv; intuition discriminate|discriminate].
Defined.
