(* ===== verification/Md5.v ===== *)
(** * MD5 (mongoose.c, common/md5.c)

    [MD5_Init], [MD5_Update], [MD5_Final], the transform with its 64 steps,
    and [cs_md5], against RFC 1321. *)

From Stdlib Require Import ZArith Lia String.
From stdpp Require Import base list numbers option.
From S2P Require Import Prelude Hash.

Local Open Scope Z_scope.

(** ** The code *)

(** The four words of [ctx->buf], and the local variables of the transform. *)
Record words := W4 { w_a : Z; w_b : Z; w_c : Z; w_d : Z }.

Record MD5_CTX := mk_md5 { buf : words; bits0 : Z; bits1 : Z; inp : list Z }.

Definition F1 (x y z : Z) : Z := Z.lxor z (Z.land x (Z.lxor y z)).
Definition F2 (x y z : Z) : Z := F1 z x y.
Definition F3 (x y z : Z) : Z := Z.lxor (Z.lxor x y) z.
Definition F4 (x y z : Z) : Z := Z.lxor y (Z.lor x (u32 (Z.lnot z))).

(** Names of the local variables, which the macro takes as arguments. *)
Inductive var := a | b | c | d.

Definition get (v : var) (e : words) : Z :=
  match v with a => w_a e | b => w_b e | c => w_c e | d => w_d e end.
Definition set (v : var) (n : Z) (e : words) : words :=
  match v with
  | a => W4 n (w_b e) (w_c e) (w_d e) | b => W4 (w_a e) n (w_c e) (w_d e)
  | c => W4 (w_a e) (w_b e) n (w_d e) | d => W4 (w_a e) (w_b e) (w_c e) n
  end.

(** [MD5STEP(f, w, x, y, z, in[k] + t, s)]. *)
Definition MD5STEP (f : Z -> Z -> Z -> Z) (w x y z : var) (k : nat) (t s : Z)
    (inw : list Z) (e : words) : words :=
  let e := set w (u32 (get w e + u32 (f (get x e) (get y e) (get z e) + u32 (nth k inw 0 + t)))) e in
  let e := set w (rotl32 (get w e) s) e in
  set w (u32 (get w e + get x e)) e.

Definition md5_steps : list (list Z -> words -> words) := [
  MD5STEP F1 a b c d 0 0xd76aa478 7;
  MD5STEP F1 d a b c 1 0xe8c7b756 12;
  MD5STEP F1 c d a b 2 0x242070db 17;
  MD5STEP F1 b c d a 3 0xc1bdceee 22;
  MD5STEP F1 a b c d 4 0xf57c0faf 7;
  MD5STEP F1 d a b c 5 0x4787c62a 12;
  MD5STEP F1 c d a b 6 0xa8304613 17;
  MD5STEP F1 b c d a 7 0xfd469501 22;
  MD5STEP F1 a b c d 8 0x698098d8 7;
  MD5STEP F1 d a b c 9 0x8b44f7af 12;
  MD5STEP F1 c d a b 10 0xffff5bb1 17;
  MD5STEP F1 b c d a 11 0x895cd7be 22;
  MD5STEP F1 a b c d 12 0x6b901122 7;
  MD5STEP F1 d a b c 13 0xfd987193 12;
  MD5STEP F1 c d a b 14 0xa679438e 17;
  MD5STEP F1 b c d a 15 0x49b40821 22;

  MD5STEP F2 a b c d 1 0xf61e2562 5;
  MD5STEP F2 d a b c 6 0xc040b340 9;
  MD5STEP F2 c d a b 11 0x265e5a51 14;
  MD5STEP F2 b c d a 0 0xe9b6c7aa 20;
  MD5STEP F2 a b c d 5 0xd62f105d 5;
  MD5STEP F2 d a b c 10 0x02441453 9;
  MD5STEP F2 c d a b 15 0xd8a1e681 14;
  MD5STEP F2 b c d a 4 0xe7d3fbc8 20;
  MD5STEP F2 a b c d 9 0x21e1cde6 5;
  MD5STEP F2 d a b c 14 0xc33707d6 9;
  MD5STEP F2 c d a b 3 0xf4d50d87 14;
  MD5STEP F2 b c d a 8 0x455a14ed 20;
  MD5STEP F2 a b c d 13 0xa9e3e905 5;
  MD5STEP F2 d a b c 2 0xfcefa3f8 9;
  MD5STEP F2 c d a b 7 0x676f02d9 14;
  MD5STEP F2 b c d a 12 0x8d2a4c8a 20;

  MD5STEP F3 a b c d 5 0xfffa3942 4;
  MD5STEP F3 d a b c 8 0x8771f681 11;
  MD5STEP F3 c d a b 11 0x6d9d6122 16;
  MD5STEP F3 b c d a 14 0xfde5380c 23;
  MD5STEP F3 a b c d 1 0xa4beea44 4;
  MD5STEP F3 d a b c 4 0x4bdecfa9 11;
  MD5STEP F3 c d a b 7 0xf6bb4b60 16;
  MD5STEP F3 b c d a 10 0xbebfbc70 23;
  MD5STEP F3 a b c d 13 0x289b7ec6 4;
  MD5STEP F3 d a b c 0 0xeaa127fa 11;
  MD5STEP F3 c d a b 3 0xd4ef3085 16;
  MD5STEP F3 b c d a 6 0x04881d05 23;
  MD5STEP F3 a b c d 9 0xd9d4d039 4;
  MD5STEP F3 d a b c 12 0xe6db99e5 11;
  MD5STEP F3 c d a b 15 0x1fa27cf8 16;
  MD5STEP F3 b c d a 2 0xc4ac5665 23;

  MD5STEP F4 a b c d 0 0xf4292244 6;
  MD5STEP F4 d a b c 7 0x432aff97 10;
  MD5STEP F4 c d a b 14 0xab9423a7 15;
  MD5STEP F4 b c d a 5 0xfc93a039 21;
  MD5STEP F4 a b c d 12 0x655b59c3 6;
  MD5STEP F4 d a b c 3 0x8f0ccc92 10;
  MD5STEP F4 c d a b 10 0xffeff47d 15;
  MD5STEP F4 b c d a 1 0x85845dd1 21;
  MD5STEP F4 a b c d 8 0x6fa87e4f 6;
  MD5STEP F4 d a b c 15 0xfe2ce6e0 10;
  MD5STEP F4 c d a b 6 0xa3014314 15;
  MD5STEP F4 b c d a 13 0x4e0811a1 21;
  MD5STEP F4 a b c d 4 0xf7537e82 6;
  MD5STEP F4 d a b c 11 0xbd3af235 10;
  MD5STEP F4 c d a b 2 0x2ad7d2bb 15;
  MD5STEP F4 b c d a 9 0xeb86d391 21].

Definition MD5Transform (st : words) (inw : list Z) : words :=
  let e := fold_left (fun e step => step inw e) md5_steps st in
  W4 (u32 (w_a st + w_a e)) (u32 (w_b st + w_b e)) (u32 (w_c st + w_c e)) (u32 (w_d st + w_d e)).

(** The 64 bytes read as the words of [(uint32_t * ) ctx->in], on the
    little-endian machines for which [byteReverse] is empty. *)
Definition in_words (bs : list Z) : list Z := map (fun i => le32 bs (4 * i)) (List.seq 0 16).

Definition MD5_Init (junk : list Z) : MD5_CTX :=
  mk_md5 (W4 0x67452301 0xefcdab89 0x98badcfe 0x10325476) 0 0 junk.

Definition MD5_Update (ctx : MD5_CTX) (bf : list Z) (len : Z) : outcome MD5_CTX :=
  let t := bits0 ctx in
  let bits0' := u32 (t + u32 (Z.shiftl (u32 len) 3)) in
  let bits1' := if bits0' <? t then u32 (bits1 ctx + 1) else bits1 ctx in
  let bits1' := u32 (bits1' + Z.shiftr (u32 len) 29) in
  let t := Z.land (Z.shiftr t 3) 0x3f in
  r ← (if t =? 0 then mret (inr (buf ctx, inp ctx, 0, len)) else
         let p := t in
         let t := 64 - t in
         if len <? t then
           i ← memcpy (inp ctx) p bf 0 len;
           mret (inl (mk_md5 (buf ctx) bits0' bits1' i))
         else
           i ← memcpy (inp ctx) p bf 0 t;
           mret (inr (MD5Transform (buf ctx) (in_words i), i, t, len - t)));
  match r with
  | inl ctx => mret ctx
  | inr (st, i, off, len) =>
      loop (S (Z.to_nat len)) (fun '(st, i, off, len) =>
        if len >=? 64 then
          i ← memcpy i 0 bf off 64;
          mret (inl (MD5Transform st (in_words i), i, off + 64, len - 64))
        else
          i ← memcpy i 0 bf off len;
          mret (inr (mk_md5 st bits0' bits1' i))) (st, i, off, len)
  end.

Definition MD5_Final (ctx : MD5_CTX) : outcome (list Z) :=
  let count := Z.land (Z.shiftr (bits0 ctx) 3) 0x3F in
  let p := count in
  i ← wr (inp ctx) p 0x80; let p := p + 1 in
  let count := 64 - 1 - count in
  '(st, i) ← (if count <? 8 then
       i ← memset i p 0 count;
       let st := MD5Transform (buf ctx) (in_words i) in
       i ← memset i 0 0 56;
       mret (st, i)
     else i ← memset i p 0 (count - 8); mret (buf ctx, i));
  i ← memcpy i 56 (le_bytes (bits0 ctx)) 0 4;
  i ← memcpy i 60 (le_bytes (bits1 ctx)) 0 4;
  let st := MD5Transform st (in_words i) in
  mret (le_bytes (w_a st) ++ le_bytes (w_b st) ++ le_bytes (w_c st) ++ le_bytes (w_d st)).

Definition hex : list Z := lit "0123456789abcdef".

Definition cs_to_hex (to p : list Z) (len : Z) : outcome (list Z) :=
  '(to, k) ← loop (S (Z.to_nat len)) (fun '(to, k, i, len) =>
      if len =? 0 then mret (inr (to, k)) else
      v ← rd p i; ch ← rd hex (Z.shiftr v 4);
      to ← wr to k ch; let k := k + 1 in
      v ← rd p i; ch ← rd hex (Z.land v 0x0f);
      to ← wr to k ch; let k := k + 1 in
      mret (inl (to, k, i + 1, len - 1))) (to, 0, 0, len);
  wr to k 0.

(** The variadic arguments, up to [NULL]: pointer and length of each piece. *)
Fixpoint update_args (ctx : MD5_CTX) (ap : list (list Z * Z)) : outcome MD5_CTX :=
  match ap with
  | [] => mret ctx
  | (p, len) :: ap => ctx ← MD5_Update ctx p len; update_args ctx ap
  end.

Definition cs_md5 (junk : list Z) (bf : list Z) (ap : list (list Z * Z)) : outcome (list Z) :=
  ctx ← update_args (MD5_Init junk) ap;
  hash ← MD5_Final ctx;
  cs_to_hex bf hash 16.

Definition md5_hex (s : string) : outcome (list Z) :=
  cs_md5 (replicate 64 170) (replicate 33 1) [(lit s, size (lit s))].

Example md5_empty : md5_hex "" = Ret (lit "d41d8cd98f00b204e9800998ecf8427e" ++ [0]).
Proof. vm_compute. reflexivity. Qed.
Example md5_abc : md5_hex "abc" = Ret (lit "900150983cd24fb0d6963f7d28e17f72" ++ [0]).
Proof. vm_compute. reflexivity. Qed.
Example md5_digits :
  md5_hex "12345678901234567890123456789012345678901234567890123456789012345678901234567890"
  = Ret (lit "57edf4a22be3c955ac49da2e2107b67a" ++ [0]).
Proof. vm_compute. reflexivity. Qed.

(** ** RFC 1321 *)

Module RFC1321.
(** The table [T]: the integer part of [2^32 * |sin (i + 1)|]. *)
Definition T : list Z := [
  0xd76aa478; 0xe8c7b756; 0x242070db; 0xc1bdceee; 0xf57c0faf; 0x4787c62a; 0xa8304613; 0xfd469501;
  0x698098d8; 0x8b44f7af; 0xffff5bb1; 0x895cd7be; 0x6b901122; 0xfd987193; 0xa679438e; 0x49b40821;
  0xf61e2562; 0xc040b340; 0x265e5a51; 0xe9b6c7aa; 0xd62f105d; 0x02441453; 0xd8a1e681; 0xe7d3fbc8;
  0x21e1cde6; 0xc33707d6; 0xf4d50d87; 0x455a14ed; 0xa9e3e905; 0xfcefa3f8; 0x676f02d9; 0x8d2a4c8a;
  0xfffa3942; 0x8771f681; 0x6d9d6122; 0xfde5380c; 0xa4beea44; 0x4bdecfa9; 0xf6bb4b60; 0xbebfbc70;
  0x289b7ec6; 0xeaa127fa; 0xd4ef3085; 0x04881d05; 0xd9d4d039; 0xe6db99e5; 0x1fa27cf8; 0xc4ac5665;
  0xf4292244; 0x432aff97; 0xab9423a7; 0xfc93a039; 0x655b59c3; 0x8f0ccc92; 0xffeff47d; 0x85845dd1;
  0x6fa87e4f; 0xfe2ce6e0; 0xa3014314; 0x4e0811a1; 0xf7537e82; 0xbd3af235; 0x2ad7d2bb; 0xeb86d391].

(** The auxiliary functions, message indices and rotations of the four rounds. *)
Definition FGHI (round : nat) (x y z : Z) : Z :=
  match round with
  | 0 => Z.lor (Z.land x y) (Z.land (Z.lnot x) z)
  | 1 => Z.lor (Z.land x z) (Z.land y (Z.lnot z))
  | 2 => Z.lxor (Z.lxor x y) z
  | _ => Z.lxor y (Z.lor x (u32 (Z.lnot z)))
  end%nat.
Definition index (i : nat) : nat :=
  (match i / 16 with 0 => i | 1 => 5 * i + 1 | 2 => 3 * i + 5 | _ => 7 * i end mod 16)%nat.
Definition shift (i : nat) : Z :=
  nth (i mod 4) (match i / 16 with
    | 0 => [7; 12; 17; 22]%Z | 1 => [5; 9; 14; 20]%Z
    | 2 => [4; 11; 16; 23]%Z | _ => [6; 10; 15; 21]%Z end)%nat 0.

Definition step (X : list Z) (e : words) (i : nat) : words :=
  let t := u32 (w_a e + FGHI (i / 16) (w_b e) (w_c e) (w_d e) + nth (index i) X 0 + nth i T 0) in
  W4 (w_d e) (u32 (w_b e + rotl32 t (shift i))) (w_b e) (w_c e).

Definition compress (st : words) (block : list Z) : words :=
  let e := fold_left (step (in_words block)) (List.seq 0 64) st in
  W4 (u32 (w_a st + w_a e)) (u32 (w_b st + w_b e)) (u32 (w_c st + w_c e)) (u32 (w_d st + w_d e)).

Definition init : words := W4 0x67452301 0xefcdab89 0x98badcfe 0x10325476.

(** The length in bits, low-order word first. *)
Definition length64 (n : Z) : list Z := le_bytes (u32 n) ++ le_bytes (u32 (n / 2 ^ 32)).

Definition md5 (m : list Z) : list Z :=
  let st := (absorb compress init (pad length64 m)).1 in
  le_bytes (w_a st) ++ le_bytes (w_b st) ++ le_bytes (w_c st) ++ le_bytes (w_d st).
End RFC1321.

(** ** The transform is the RFC's compression function *)

Lemma F1_spec x y z : F1 x y z = RFC1321.FGHI 0 x y z.
Proof. unfold F1; simpl. zbits. by destruct (Z.testbit x _), (Z.testbit y _), (Z.testbit z _). Qed.
Lemma F2_spec x y z : F2 x y z = RFC1321.FGHI 1 x y z.
Proof. unfold F2, F1; simpl. zbits. by destruct (Z.testbit x _), (Z.testbit y _), (Z.testbit z _). Qed.

Definition code_F (round : nat) : Z -> Z -> Z -> Z :=
  match round with 0 => F1 | 1 => F2 | 2 => F3 | _ => F4 end%nat.

Lemma code_F_spec r x y z : code_F r x y z = RFC1321.FGHI r x y z.
Proof. destruct r as [|[|[|r]]]; [apply F1_spec|apply F2_spec|done..]. Qed.

(** The arguments of the macro at step [i], from the RFC's tables. *)
Definition gen_step (i : nat) : list Z -> words -> words :=
  let st := MD5STEP (code_F (i / 16)) in
  let k := RFC1321.index i in let t := nth i RFC1321.T 0 in let s := RFC1321.shift i in
  match (i mod 4)%nat with
  | 0%nat => st a b c d k t s | 1%nat => st d a b c k t s
  | 2%nat => st c d a b k t s | _ => st b c d a k t s
  end.

Lemma md5_steps_gen : md5_steps = map gen_step (List.seq 0 64).
Proof. reflexivity. Qed.

(** The RFC's state, given the code's variables before step [i]. *)
Definition view (i : nat) (e : words) : words :=
  match (i mod 4)%nat with
  | 0%nat => e | 1%nat => W4 (w_d e) (w_a e) (w_b e) (w_c e)
  | 2%nat => W4 (w_c e) (w_d e) (w_a e) (w_b e) | _ => W4 (w_b e) (w_c e) (w_d e) (w_a e)
  end.

Lemma step_value w f k t x r :
  u32 (rotl32 (u32 (w + u32 (f + u32 (k + t)))) r + x) = u32 (x + rotl32 (u32 (w + f + k + t)) r).
Proof.
  rewrite u32_add_r, Z.add_assoc, u32_add_r. rewrite (Z.add_comm _ x). do 4 f_equal. lia.
Qed.

Lemma gen_step_spec X e i : view (S i) (gen_step i X e) = RFC1321.step X (view i e) i.
Proof.
  unfold RFC1321.step, gen_step, view.
  assert (S i mod 4 = if decide (i mod 4 = 3) then 0 else S (i mod 4))%nat as ->.
  { pose proof (Nat.div_mod_eq i 4). pose proof (Nat.mod_upper_bound i 4).
    pose proof (Nat.div_mod_eq (S i) 4). pose proof (Nat.mod_upper_bound (S i) 4). case_decide; lia. }
  destruct e as [wa wb wc wd].
  destruct (i mod 4)%nat as [|[|[|[|n]]]] eqn:E;
    [| | | |pose proof (Nat.mod_upper_bound i 4); lia];
    cbn [decide]; unfold MD5STEP; cbn -[u32 rotl32 code_F nth RFC1321.FGHI RFC1321.index RFC1321.shift RFC1321.T];
    by rewrite code_F_spec, step_value.
Qed.

Lemma MD5Transform_eq st block :
  MD5Transform st (in_words block) = RFC1321.compress st block.
Proof.
  unfold MD5Transform, RFC1321.compress. rewrite md5_steps_gen.
  assert (forall n e, view n (fold_left (fun e step => step (in_words block) e) (map gen_step (List.seq 0 n)) e)
    = fold_left (RFC1321.step (in_words block)) (List.seq 0 n) e) as H.
  { intros n e. induction n as [|n IH]; [done|].
    rewrite seq_S, map_app, !fold_left_app. simpl. by rewrite gen_step_spec, IH. }
  specialize (H 64%nat st). unfold view in H. change (64 mod 4)%nat with 0%nat in H.
  by rewrite H.
Qed.

(** ** Update, Final and [cs_md5] *)

(** What the context holds after the bytes [m]. *)
Definition md5_repr (ctx : MD5_CTX) (m : list Z) : Prop :=
  let r := absorb RFC1321.compress RFC1321.init m in
  buf ctx = r.1 /\ size (inp ctx) = 64 /\ take (length r.2) (inp ctx) = r.2 /\
  bits0 ctx = u32 (8 * size m) /\ bits1 ctx = u32 (8 * size m / 2 ^ 32).

Lemma md5_init_repr junk : size junk = 64 -> md5_repr (MD5_Init junk) [].
Proof. intros; by split_and!. Qed.

Lemma bits_count n len : 0 <= n -> 0 <= len < 2 ^ 32 ->
  let t := u32 (8 * n) in
  let b0 := u32 (t + u32 (Z.shiftl (u32 len) 3)) in
  let b1 := u32 (8 * n / 2 ^ 32) in
  b0 = u32 (8 * (n + len)) /\
  u32 ((if b0 <? t then u32 (b1 + 1) else b1) + Z.shiftr (u32 len) 29) = u32 (8 * (n + len) / 2 ^ 32).
Proof.
  intros Hn Hl. cbv zeta. rewrite (u32_small len) by done.
  rewrite Z.shiftl_mul_pow2, Z.shiftr_div_pow2 by lia. unfold u32.
  split; [euclid|]. case_match; euclid.
Qed.

Lemma rest_count n : 0 <= n -> Z.land (Z.shiftr (u32 (8 * n)) 3) 0x3f = n mod 64.
Proof.
  intros. change 0x3f with (2 ^ 6 - 1). rewrite land_ones_mod, Z.shiftr_div_pow2 by lia.
  unfold u32; euclid.
Qed.

Lemma transform_words st i : MD5Transform st (in_words i) = RFC1321.compress st i.
Proof. apply MD5Transform_eq. Qed.

Lemma update_loop_spec st i off len bf b0 b1 R :
  size i = 64 -> 0 <= off -> 0 <= len -> off + len = size bf ->
  absorb RFC1321.compress st (slice bf off len) = R ->
  wp (loop (S (Z.to_nat len)) (fun '(st, i, off, len) =>
        if len >=? 64 then
          i ← memcpy i 0 bf off 64;
          mret (inl (MD5Transform st (in_words i), i, off + 64, len - 64))
        else
          i ← memcpy i 0 bf off len;
          mret (inr (mk_md5 st b0 b1 i))) (st, i, off, len))
    (fun c => buf c = R.1 /\ size (inp c) = 64 /\ take (length R.2) (inp c) = R.2 /\
       bits0 c = b0 /\ bits1 c = b1).
Proof.
  intros Hi Hoff Hlen Hb HR.
  apply wp_loop with (m := fun '(_, _, _, len) => Z.to_nat len)
    (I := fun '(st, i, off, len) => size i = 64 /\ 0 <= off /\ 0 <= len /\ off + len = size bf /\
      absorb RFC1321.compress st (slice bf off len) = R); [|done|lia].
  clear st i off len Hi Hoff Hlen Hb HR. intros [[[st i] off] len] (Hi & Hoff & Hlen & Hb & HR).
  assert (length i = 64%nat) as Hi' by (unfold size in Hi; lia).
  apply wp_if; intros Hc.
  - rewrite memcpy_whole by (done || lia).
    apply wp_mret. split; [|lia]. split_and!; [by rewrite size_slice by lia|lia..|].
    rewrite <- HR. replace len with (64 + (len - 64)) at 2 by lia.
    rewrite slice_app by lia. rewrite absorb_block by (rewrite length_slice by lia; done).
    by rewrite transform_words.
  - apply wp_bind, wp_memcpy; [lia..|]. intros i' -> Hsz.
    apply wp_mret. rewrite absorb_small in HR by (rewrite length_slice by lia; unfold BLOCK; lia).
    subst R. simpl in *. split_and!; try done; [congruence|].
    by rewrite take_app_length.
Qed.

Lemma md5_update_repr ctx m s : md5_repr ctx m -> size s < 2 ^ 32 ->
  wp (MD5_Update ctx s (size s)) (fun ctx' => md5_repr ctx' (m ++ s)).
Proof.
  intros (Hb & Hi & Ht & H0 & H1) Hs. unfold MD5_Update. rewrite H0, H1.
  pose proof (size_nonneg m). pose proof (size_nonneg s).
  destruct (bits_count (size m) (size s)) as [E0 E1]; [done..|].
  rewrite E1, E0, rest_count by done. clear E0 E1.
  pose proof (absorb_app RFC1321.compress RFC1321.init m s) as Happ.
  pose proof (absorb_rest_length RFC1321.compress RFC1321.init m) as Hrest.
  set (r := absorb RFC1321.compress RFC1321.init m) in *.
  assert (size m mod 64 = size r.2) as Hsz
    by (unfold size; rewrite Hrest; unfold BLOCK; by rewrite Nat2Z.inj_mod).
  rewrite Hsz. rewrite Hb.
  assert (forall R b0 b1 c, absorb RFC1321.compress RFC1321.init (m ++ s) = R ->
    buf c = R.1 /\ size (inp c) = 64 /\ take (length R.2) (inp c) = R.2 /\ bits0 c = b0 /\ bits1 c = b1 ->
    b0 = u32 (8 * (size m + size s)) -> b1 = u32 (8 * (size m + size s) / 2 ^ 32) ->
    md5_repr c (m ++ s)) as Hfin.
  { intros R b0 b1 c <- (? & ? & ? & ? & ?) ? ?. unfold md5_repr. rewrite size_app.
    split_and!; congruence. }
  apply wp_bind. wp_step.
  - destruct r.2 as [|x y] eqn:Er; [|exfalso; size_lia].
    apply wp_mret. eapply wp_mono; [apply (update_loop_spec _ _ 0 (size s) s); [done|lia..|]|].
    { by rewrite slice_all. }
    intros c Hc. eapply Hfin; [reflexivity|exact Hc|done|done].
  - assert (size r.2 = Z.of_nat (length r.2)) as Hr2 by done.
    assert (take (Z.to_nat (size r.2)) (inp ctx) = r.2) as Ht' by (by rewrite size_to_nat).
    assert (0 < size r.2 < 64) by (pose proof (size_nonneg r.2); pose proof (Z.mod_pos_bound (size m) 64); lia).
    apply wp_if; intros Hlt.
    + apply wp_bind, wp_memcpy; [lia..|]. intros i -> Hsi. apply wp_mret, wp_mret.
      eapply Hfin; [reflexivity| |done|done].
      rewrite Happ, absorb_small by (rewrite length_app; unfold BLOCK; size_lia).
      cbn [buf inp bits0 bits1 fst snd]. split_and!; [done|by rewrite Hsi| |done..].
      rewrite Ht', slice_all, app_assoc, length_app.
      by rewrite take_prefix by (rewrite length_app; lia).
    + apply wp_bind, wp_memcpy; [lia..|]. intros i -> Hsi. apply wp_mret.
      rewrite Ht', drop_ge, app_nil_r in * by (unfold size in *; lia).
      eapply wp_mono; [apply (update_loop_spec _ _ _ _ s); [by rewrite Hsi|lia..|done]|].
      intros c Hc. eapply Hfin; [|exact Hc|done|done].
      rewrite Happ, transform_words. rewrite <- (slice_all s) at 1.
      replace (size s) with ((64 - size r.2) + (size s - (64 - size r.2))) at 1 by lia.
      rewrite slice_app, app_assoc, absorb_block by (rewrite ?length_app, ?length_slice by lia; unfold BLOCK; lia).
      done.
Qed.

(** ** Padding and the digest *)

Lemma store_length {A} l q w0 w1 (K : list Z -> outcome A) :
  size l = 56 -> size q = 8 ->
  (i ← memcpy (l ++ q) 56 (le_bytes w0) 0 4; i ← memcpy i 60 (le_bytes w1) 0 4; K i) =
  K (l ++ le_bytes w0 ++ le_bytes w1).
Proof.
  intros Hl Hq. rewrite memcpy_after by (done || lia). cbn [mbind outcome_bind].
  rewrite (app_assoc l (le_bytes w0)).
  assert (size (drop (length (le_bytes w0)) q) = 4) as Hd
    by (unfold size in *; rewrite length_drop; simpl; lia).
  rewrite memcpy_after by (rewrite ?size_app, ?Hd; (done || (rewrite Hl; done))).
  cbn [mbind outcome_bind]. rewrite (drop_ge (drop _ q)), app_nil_r by (unfold size in Hd; simpl in *; lia).
  by rewrite <- app_assoc.
Qed.

Lemma md5_final_repr ctx m : md5_repr ctx m -> MD5_Final ctx = Ret (RFC1321.md5 m).
Proof.
  intros (Hb & Hi & Ht & H0 & H1). apply wp_eq. unfold MD5_Final. rewrite H0, H1.
  pose proof (size_nonneg m). rewrite rest_count by done.
  unfold RFC1321.md5. set (L := RFC1321.length64 (8 * size m)).
  assert (L = le_bytes (u32 (8 * size m)) ++ le_bytes (u32 (8 * size m / 2 ^ 32))) as HL by done.
  pose proof (absorb_app RFC1321.compress RFC1321.init m) as Happ.
  pose proof (absorb_rest_length RFC1321.compress RFC1321.init m) as Hrest.
  unfold pad. fold L. rewrite Happ.
  set (r := absorb RFC1321.compress RFC1321.init m) in *.
  assert (size m mod 64 = size r.2) as Hsz
    by (unfold size; rewrite Hrest; unfold BLOCK; by rewrite Nat2Z.inj_mod).
  assert (0 <= size r.2 < 64) as Hr by (rewrite <- Hsz; apply Z.mod_pos_bound; lia).
  rewrite Hsz, Hb.
  assert (inp ctx = r.2 ++ drop (length r.2) (inp ctx)) as Hinp
    by (rewrite <- Ht at 1; by rewrite take_drop).
  assert (size (drop (length r.2) (inp ctx)) = 64 - size r.2) as Hq
    by (unfold size in *; rewrite length_drop; lia).
  rewrite Hinp. destruct (drop (length r.2) (inp ctx)) as [|x q]; [exfalso; size_lia|].
  rewrite size_cons in Hq. assert (length q = Z.to_nat (63 - size r.2)) as Hlq by (unfold size in *; lia).
  rewrite (wr_after _ _ _ _ x) by done. cbn [mbind outcome_bind].
  assert (forall l, size (l ++ [128]) = size l + 1) as Hsnoc by (intros; size_lia).
  change (r.2 ++ 128 :: q) with (r.2 ++ [128] ++ q). rewrite (app_assoc r.2 [128] q).
  assert (le_bytes (u32 (8 * size m)) = take 4 L) as HL1 by (by rewrite HL).
  assert (le_bytes (u32 (8 * size m / 2 ^ 32)) = drop 4 L) as HL2 by (by rewrite HL).
  assert (length L = 8%nat) as HL8 by (by rewrite HL).
  unfold pad_zeros. destruct (Z.ltb_spec (64 - 1 - size r.2) 8).
  - rewrite memset_after by (rewrite ?Hsnoc; unfold size in *; lia). cbn [mbind outcome_bind].
    rewrite (drop_ge q), app_nil_r by lia. rewrite transform_words.
    set (b1 := (r.2 ++ [128]) ++ replicate (Z.to_nat (64 - 1 - size r.2)) 0).
    assert (length b1 = 64%nat) as Hb1
      by (unfold b1, size in *; rewrite !length_app, length_replicate; simpl; lia).
    rewrite (memset_after [] b1) by (unfold size; rewrite ?Hb1; done).
    cbn [mbind outcome_bind mret outcome_ret]. rewrite app_nil_l.
    rewrite store_length by (unfold size; rewrite ?length_drop, ?Hb1; done).
    apply wp_mret. rewrite transform_words.
    replace (absorb RFC1321.compress r.1 _) with (RFC1321.compress (RFC1321.compress r.1 b1)
      (replicate (Z.to_nat 56) 0 ++ L), @nil Z); [by rewrite HL|].
    replace ((55 - size m) mod 64) with ((64 - 1 - size r.2) + 56) by euclid.
    rewrite Z2Nat.inj_add, replicate_add by lia.
    rewrite (app_assoc r.2 [128]), <- (app_assoc (replicate _ _)), (app_assoc (r.2 ++ [128])). fold b1.
    rewrite absorb_block by done. rewrite <- (app_nil_r (replicate _ 0 ++ L)).
    by rewrite absorb_block by (rewrite length_app, length_replicate, HL8; done).
  - rewrite memset_after by (rewrite ?Hsnoc; unfold size in *; lia).
    cbn [mbind outcome_bind mret outcome_ret].
    rewrite (app_assoc (r.2 ++ [128])).
    rewrite store_length by (unfold size in *; rewrite ?length_drop, ?length_app, ?length_replicate; change (length [128]) with 1%nat; lia).
    apply wp_mret. rewrite transform_words.
    replace (absorb RFC1321.compress r.1 _) with (RFC1321.compress r.1
      (((r.2 ++ [128]) ++ replicate (Z.to_nat (64 - 1 - size r.2 - 8)) 0) ++ L), @nil Z); [by rewrite HL|].
    replace ((55 - size m) mod 64) with (64 - 1 - size r.2 - 8) by euclid.
    rewrite (app_assoc r.2 [128]), (app_assoc (r.2 ++ [128])).
    set (X := (_ ++ _) ++ L). rewrite <- (app_nil_r X) at 2.
    rewrite absorb_block; [done|]. unfold X; rewrite !length_app, length_replicate, HL8.
    change (length [128]) with 1%nat. unfold BLOCK, size in *; lia.
Qed.

(** ** Hexadecimal strings *)

Definition hex_digit (v : Z) : Z := nth (Z.to_nat v) hex 0.
Definition hex_string (p : list Z) : list Z :=
  concat (map (fun v => [hex_digit (v / 16); hex_digit (v mod 16)]) p).

Lemma rd_hex v : 0 <= v < 16 -> rd hex v = Ret (hex_digit v).
Proof.
  intros Hv. apply (bool_decide_eq_true_1 _).
  exact (range_forallb (fun v => bool_decide (rd hex v = Ret (hex_digit v))) 16 eq_refl v Hv).
Qed.

Lemma size_hex_string p : size (hex_string p) = 2 * size p.
Proof.
  induction p as [|v p IH]; [done|]. unfold hex_string in *; simpl. size_simpl. lia.
Qed.

Lemma hex_string_app p q : hex_string (p ++ q) = hex_string p ++ hex_string q.
Proof. unfold hex_string. by rewrite map_app, concat_app. Qed.

Lemma cs_to_hex_spec to p : bytes p -> 2 * size p < size to ->
  cs_to_hex to p (size p) = Ret (fill to (hex_string p ++ [0])).
Proof.
  intros Hp Hto. apply wp_eq. unfold cs_to_hex. apply wp_bind.
  apply wp_mono with (P := fun '(t, k) => t = fill to (hex_string p) /\ k = size (hex_string p));
    cycle 1.
  { intros [t k] [-> ->]. apply wp_wr_fill; [done|rewrite size_hex_string; lia|done]. }
  apply wp_loop with (m := fun '(_, _, _, len) => Z.to_nat len)
    (I := fun '(t, k, i, len) => 0 <= i /\ i + len = size p /\ 0 <= len /\
      t = fill to (hex_string (slice p 0 i)) /\ k = size (hex_string (slice p 0 i)));
    [|rewrite slice_nil; pose proof (size_nonneg p); split_and!; (done || lia)|lia].
  intros [[[t k] i] len] (Hi & Hl & Hn & -> & ->). wp_step.
  - subst len. apply wp_mret. replace i with (size p) by lia. by rewrite slice_all.
  - destruct (rd_total p i) as (v & Hv & Hr); [lia|].
    assert (is_byte v) as Hvb by (eapply Forall_lookup_1; eauto). unfold is_byte in Hvb.
    rewrite Hr. cbn [mbind outcome_bind].
    rewrite Z.shiftr_div_pow2 by lia. change 0x0f with (2 ^ 4 - 1).
    rewrite (land_ones_mod v 4), !rd_hex by euclid. cbn [mbind outcome_bind].
    assert (2 * i + 2 < size to) by lia.
    assert (size (hex_string (slice p 0 i)) = 2 * i) as Hsz by (rewrite size_hex_string, size_slice; lia).
    apply wp_bind, wp_wr_fill; [done|lia|]. apply wp_bind, wp_wr_fill; [size_lia|size_lia|].
    apply wp_mret. split; [|lia].
    rewrite (slice_snoc p 0 i v), hex_string_app by (done || lia).
    rewrite <- app_assoc. split_and!; [lia..|done|]. rewrite size_app, Hsz.
    unfold hex_string; simpl; size_lia.
Qed.

Lemma md5_digest_bytes m : bytes (RFC1321.md5 m) /\ size (RFC1321.md5 m) = 16.
Proof.
  unfold RFC1321.md5. split; [|done].
  repeat apply Forall_app_2; repeat (apply Forall_cons_2; [apply u8_byte|]); apply Forall_nil_2.
Qed.

(** C40: [cs_md5] of any pieces shorter than 2^32 bytes is the RFC 1321 digest of
    their concatenation, in hexadecimal, whatever the stack contained; longer
    pieces are cut to the 32 bits of a length. *)
Theorem cs_md5_rfc1321 junk bf pieces :
  size junk = 64 -> 33 <= size bf -> Forall (fun s => size s < 2 ^ 32) pieces ->
  cs_md5 junk bf (map (fun s => (s, size s)) pieces) =
  Ret (fill bf (hex_string (RFC1321.md5 (concat pieces)) ++ [0])).
Proof.
  intros Hj Hbf Hp. apply wp_eq. unfold cs_md5. apply wp_bind.
  assert (forall ctx m, md5_repr ctx m ->
    wp (update_args ctx (map (fun s => (s, size s)) pieces)) (fun c => md5_repr c (m ++ concat pieces))) as Hall.
  { induction pieces as [|s r IH]; intros ctx m Hm; simpl.
    - apply wp_mret. by rewrite app_nil_r.
    - inv_Forall. apply wp_bind. eapply wp_mono; [by apply md5_update_repr|].
      intros c Hc. rewrite app_assoc. by apply IH. }
  eapply wp_mono; [apply (Hall _ []), md5_init_repr, Hj|]. intros c Hc; simpl in Hc.
  rewrite (md5_final_repr c (concat pieces)) by done. cbn [mbind outcome_bind].
  destruct (md5_digest_bytes (concat pieces)) as [Hb Hs].
  change 16 with (size (RFC1321.md5 (concat pieces))).
  rewrite cs_to_hex_spec by (done || (rewrite Hs; lia)). by apply wp_ret.
Qed.

Lemma cs_md5_rfc1321_witness :
  cs_md5 (replicate 64 3) (replicate 33 1) [(lit "a", 1); (lit "bc", 2)] =
  Ret (lit "900150983cd24fb0d6963f7d28e17f72" ++ [0]).
Proof.
  etransitivity; [apply (cs_md5_rfc1321 (replicate 64 3) (replicate 33 1) [lit "a"; lit "bc"]);
    [reflexivity|discriminate|repeat constructor]|vm_compute; reflexivity].
Defined.
