(* ===== verification/Sha1.v ===== *)
(** * SHA-1 and HMAC-SHA1 (mongoose.c, common/sha1.c)

    [cs_sha1_init], [cs_sha1_update], [cs_sha1_final], the unrolled transform
    with its circular message schedule, and [cs_hmac_sha1], against FIPS 180-1
    and RFC 2104. *)

From Stdlib Require Import ZArith Lia String.
From stdpp Require Import base list numbers option.
From S2P Require Import Prelude Hash Md5.

Local Open Scope Z_scope.

(** ** The code *)

(** The five words of [context->state], and the local variables a .. e. *)
Record words5 := W5 { s_a : Z; s_b : Z; s_c : Z; s_d : Z; s_e : Z }.
Inductive var5 := va | vb | vc | vd | ve.

Definition get5 (v : var5) (s : words5) : Z :=
  match v with va => s_a s | vb => s_b s | vc => s_c s | vd => s_d s | ve => s_e s end.
Definition set5 (v : var5) (n : Z) (s : words5) : words5 :=
  match v with
  | va => W5 n (s_b s) (s_c s) (s_d s) (s_e s) | vb => W5 (s_a s) n (s_c s) (s_d s) (s_e s)
  | vc => W5 (s_a s) (s_b s) n (s_d s) (s_e s) | vd => W5 (s_a s) (s_b s) (s_c s) n (s_e s)
  | ve => W5 (s_a s) (s_b s) (s_c s) (s_d s) n
  end.

Record cs_sha1_ctx := mk_sha1 { state : words5; count0 : Z; count1 : Z; buffer : list Z }.

Abbreviation rol := rotl32 (only parsing).

(** [blk0] and [blk] assign a word of the block and return it. *)
Definition blk0 (block : list Z) (i : nat) : list Z * Z :=
  let l := nth i block 0 in
  let v := Z.lor (Z.land (rol l 24) 0xFF00FF00) (Z.land (rol l 8) 0x00FF00FF) in
  (<[i := v]> block, v).

Definition blk (block : list Z) (i : nat) : list Z * Z :=
  let l k := nth ((i + k) mod 16)%nat block 0 in
  let v := rol (Z.lxor (Z.lxor (Z.lxor (l 13%nat) (l 8%nat)) (l 2%nat)) (l 0%nat)) 1 in
  (<[(i mod 16)%nat := v]> block, v).

(** The variables and the block, which the five macros update. *)
Definition sha1_vars : Type := list Z * words5.

Definition round_macro (f : Z -> Z -> Z -> Z) (blkf : list Z -> nat -> list Z * Z) (K : Z)
    (v w x y z : var5) (i : nat) (st : sha1_vars) : sha1_vars :=
  let '(block, s) := st in
  let '(block, bw) := blkf block i in
  let s := set5 z (u32 (get5 z s + (f (get5 w s) (get5 x s) (get5 y s) + bw + K + rol (get5 v s) 5))) s in
  (block, set5 w (rol (get5 w s) 30) s).

Definition R0 := round_macro (fun w x y => Z.lxor (Z.land w (Z.lxor x y)) y) blk0 0x5A827999.
Definition R1 := round_macro (fun w x y => Z.lxor (Z.land w (Z.lxor x y)) y) blk 0x5A827999.
Definition R2 := round_macro (fun w x y => Z.lxor (Z.lxor w x) y) blk 0x6ED9EBA1.
Definition R3 := round_macro (fun w x y => Z.lor (Z.land (Z.lor w x) y) (Z.land w x)) blk 0x8F1BBCDC.
Definition R4 := round_macro (fun w x y => Z.lxor (Z.lxor w x) y) blk 0xCA62C1D6.

Definition sha1_steps : list (sha1_vars -> sha1_vars) := [
  R0 va vb vc vd ve 0;
  R0 ve va vb vc vd 1;
  R0 vd ve va vb vc 2;
  R0 vc vd ve va vb 3;
  R0 vb vc vd ve va 4;
  R0 va vb vc vd ve 5;
  R0 ve va vb vc vd 6;
  R0 vd ve va vb vc 7;
  R0 vc vd ve va vb 8;
  R0 vb vc vd ve va 9;
  R0 va vb vc vd ve 10;
  R0 ve va vb vc vd 11;
  R0 vd ve va vb vc 12;
  R0 vc vd ve va vb 13;
  R0 vb vc vd ve va 14;
  R0 va vb vc vd ve 15;
  R1 ve va vb vc vd 16;
  R1 vd ve va vb vc 17;
  R1 vc vd ve va vb 18;
  R1 vb vc vd ve va 19;
  R2 va vb vc vd ve 20;
  R2 ve va vb vc vd 21;
  R2 vd ve va vb vc 22;
  R2 vc vd ve va vb 23;
  R2 vb vc vd ve va 24;
  R2 va vb vc vd ve 25;
  R2 ve va vb vc vd 26;
  R2 vd ve va vb vc 27;
  R2 vc vd ve va vb 28;
  R2 vb vc vd ve va 29;
  R2 va vb vc vd ve 30;
  R2 ve va vb vc vd 31;
  R2 vd ve va vb vc 32;
  R2 vc vd ve va vb 33;
  R2 vb vc vd ve va 34;
  R2 va vb vc vd ve 35;
  R2 ve va vb vc vd 36;
  R2 vd ve va vb vc 37;
  R2 vc vd ve va vb 38;
  R2 vb vc vd ve va 39;
  R3 va vb vc vd ve 40;
  R3 ve va vb vc vd 41;
  R3 vd ve va vb vc 42;
  R3 vc vd ve va vb 43;
  R3 vb vc vd ve va 44;
  R3 va vb vc vd ve 45;
  R3 ve va vb vc vd 46;
  R3 vd ve va vb vc 47;
  R3 vc vd ve va vb 48;
  R3 vb vc vd ve va 49;
  R3 va vb vc vd ve 50;
  R3 ve va vb vc vd 51;
  R3 vd ve va vb vc 52;
  R3 vc vd ve va vb 53;
  R3 vb vc vd ve va 54;
  R3 va vb vc vd ve 55;
  R3 ve va vb vc vd 56;
  R3 vd ve va vb vc 57;
  R3 vc vd ve va vb 58;
  R3 vb vc vd ve va 59;
  R4 va vb vc vd ve 60;
  R4 ve va vb vc vd 61;
  R4 vd ve va vb vc 62;
  R4 vc vd ve va vb 63;
  R4 vb vc vd ve va 64;
  R4 va vb vc vd ve 65;
  R4 ve va vb vc vd 66;
  R4 vd ve va vb vc 67;
  R4 vc vd ve va vb 68;
  R4 vb vc vd ve va 69;
  R4 va vb vc vd ve 70;
  R4 ve va vb vc vd 71;
  R4 vd ve va vb vc 72;
  R4 vc vd ve va vb 73;
  R4 vb vc vd ve va 74;
  R4 va vb vc vd ve 75;
  R4 ve va vb vc vd 76;
  R4 vd ve va vb vc 77;
  R4 vc vd ve va vb 78;
  R4 vb vc vd ve va 79].

Definition cs_sha1_transform (st : words5) (bf : list Z) : words5 :=
  let '(_, s) := fold_left (fun x r => r x) sha1_steps (in_words bf, st) in
  W5 (u32 (s_a st + s_a s)) (u32 (s_b st + s_b s)) (u32 (s_c st + s_c s))
     (u32 (s_d st + s_d s)) (u32 (s_e st + s_e s)).

Definition cs_sha1_init (junk : list Z) : cs_sha1_ctx :=
  mk_sha1 (W5 0x67452301 0xEFCDAB89 0x98BADCFE 0x10325476 0xC3D2E1F0) 0 0 junk.

Definition cs_sha1_update (ctx : cs_sha1_ctx) (data : list Z) (len : Z) : outcome cs_sha1_ctx :=
  let j := count0 ctx in
  let c0 := u32 (j + u32 (Z.shiftl len 3)) in
  let c1 := if c0 <? j then u32 (count1 ctx + 1) else count1 ctx in
  let c1 := u32 (c1 + Z.shiftr len 29) in
  let j := Z.land (Z.shiftr j 3) 63 in
  '(st, bf, i, j) ← (if u32 (j + len) >? 63 then
      let i := 64 - j in
      bf ← memcpy (buffer ctx) j data 0 i;
      let st := cs_sha1_transform (state ctx) bf in
      '(st, i) ← loop (S (Z.to_nat len)) (fun '(st, i) =>
          if u32 (i + 63) <? len then
            b ← memcpy (replicate 64 0) 0 data i 64;
            mret (inl (cs_sha1_transform st b, u32 (i + 64)))
          else mret (inr (st, i))) (st, i);
      mret (st, bf, i, 0)
    else mret (state ctx, buffer ctx, 0, j));
  bf ← memcpy bf j data i (len - i);
  mret (mk_sha1 st c0 c1 bf).

Definition cs_sha1_final (ctx : cs_sha1_ctx) : outcome (list Z) :=
  let finalcount := map (fun i => u8 (Z.land (Z.shiftr (if decide (4 <= i) then count0 ctx else count1 ctx)
                                      ((3 - Z.land i 3) * 8)) 255)) (seqZ 0 8) in
  ctx ← cs_sha1_update ctx [128] 1;
  ctx ← loop 65 (fun ctx =>
      if Z.land (count0 ctx) 504 =? 448 then mret (inr ctx)
      else ctx ← cs_sha1_update ctx [0] 1; mret (inl ctx)) ctx;
  ctx ← cs_sha1_update ctx finalcount 8;
  let words := [s_a (state ctx); s_b (state ctx); s_c (state ctx); s_d (state ctx); s_e (state ctx)] in
  mret (map (fun i => u8 (Z.land (Z.shiftr (nth (Z.to_nat (Z.shiftr i 2)) words 0)
                                   ((3 - Z.land i 3) * 8)) 255)) (seqZ 0 20)).

Definition cs_hmac_sha1 (junk : list Z) (key : list Z) (keylen : Z) (data : list Z) (datalen : Z) :
    outcome (list Z) :=
  '(key, keylen) ← (if keylen >? 64 then
      ctx ← cs_sha1_update (cs_sha1_init junk) key (u32 keylen);
      tmp_key ← cs_sha1_final ctx;
      mret (tmp_key, 20)
    else mret (key, keylen));
  let buf1 := replicate 64 0 in
  let buf2 := replicate 64 0 in
  buf1 ← memcpy buf1 0 key 0 keylen;
  buf2 ← memcpy buf2 0 key 0 keylen;
  let buf1 := map (fun x => u8 (Z.lxor x 0x36)) buf1 in
  let buf2 := map (fun x => u8 (Z.lxor x 0x5c)) buf2 in
  ctx ← cs_sha1_update (cs_sha1_init junk) buf1 64;
  ctx ← cs_sha1_update ctx data (u32 datalen);
  out ← cs_sha1_final ctx;
  ctx ← cs_sha1_update (cs_sha1_init junk) buf2 64;
  ctx ← cs_sha1_update ctx out 20;
  cs_sha1_final ctx.

Definition sha1_str (s : string) : outcome (list Z) :=
  c ← cs_sha1_update (cs_sha1_init (replicate 64 7)) (lit s) (size (lit s)); cs_sha1_final c.

Example sha1_abc : (d ← sha1_str "abc"; mret (hex_string d)) = Ret (lit "a9993e364706816aba3e25717850c26c9cd0d89d").
Proof. vm_compute. reflexivity. Qed.
Example sha1_two_blocks :
  (d ← sha1_str "abcdbcdecdefdefgefghfghighijhijkijkljklmklmnlmnomnopnopq"; mret (hex_string d))
  = Ret (lit "84983e441c3bd26ebaae4aa1f95129e5e54670f1").
Proof. vm_compute. reflexivity. Qed.
Example hmac_rfc2202_2 :
  (d ← cs_hmac_sha1 (replicate 64 7) (lit "Jefe") 4 (lit "what do ya want for nothing?") 28; mret (hex_string d))
  = Ret (lit "effcdf6ae5eb2fa2d27416d5f184df9c259a7c79").
Proof. vm_compute. reflexivity. Qed.

(** ** FIPS 180-1 *)

Module FIPS180.
(** The message schedule: the first 16 words of the block, big-endian, then
    [rol 1] of an exclusive or of four earlier words.  [schedule b n] is the
    list of its first [n] words. *)
Fixpoint schedule (b : list Z) (n : nat) : list Z :=
  match n with
  | O => []
  | S t =>
      let l := schedule b t in
      l ++ [if decide (t < 16)%nat then be32 b (4 * t)
            else rotl32 (Z.lxor (Z.lxor (Z.lxor (nth (t - 3) l 0) (nth (t - 8) l 0))
                                        (nth (t - 14) l 0)) (nth (t - 16) l 0)) 1]
  end.
Definition W (b : list Z) (t : nat) : Z := nth t (schedule b (S t)) 0.

Definition Ch (x y z : Z) : Z := Z.lor (Z.land x y) (Z.land (Z.lnot x) z).
Definition Parity (x y z : Z) : Z := Z.lxor (Z.lxor x y) z.
Definition Maj (x y z : Z) : Z := Z.lor (Z.lor (Z.land x y) (Z.land x z)) (Z.land y z).

Definition f (t : nat) : Z -> Z -> Z -> Z :=
  match (t / 20)%nat with 0%nat => Ch | 1%nat => Parity | 2%nat => Maj | _ => Parity end.
Definition K (t : nat) : Z :=
  match (t / 20)%nat with
  | 0%nat => 0x5A827999 | 1%nat => 0x6ED9EBA1 | 2%nat => 0x8F1BBCDC | _ => 0xCA62C1D6
  end.

Definition round (b : list Z) (s : words5) (t : nat) : words5 :=
  let temp := u32 (rotl32 (s_a s) 5 + f t (s_b s) (s_c s) (s_d s) + s_e s + K t + W b t) in
  W5 temp (s_a s) (rotl32 (s_b s) 30) (s_c s) (s_d s).

Definition compress_block (h : words5) (b : list Z) : words5 :=
  let s := fold_left (round b) (List.seq 0 80) h in
  W5 (u32 (s_a h + s_a s)) (u32 (s_b h + s_b s)) (u32 (s_c h + s_c s))
     (u32 (s_d h + s_d s)) (u32 (s_e h + s_e s)).

Definition init : words5 := W5 0x67452301 0xEFCDAB89 0x98BADCFE 0x10325476 0xC3D2E1F0.

(** The length in bits, high-order word first. *)
Definition length64 (n : Z) : list Z := be_bytes (u32 (n / 2 ^ 32)) ++ be_bytes (u32 n).

Definition sha1 (m : list Z) : list Z :=
  let h := (absorb compress_block init (pad length64 m)).1 in
  be_bytes (s_a h) ++ be_bytes (s_b h) ++ be_bytes (s_c h) ++ be_bytes (s_d h) ++ be_bytes (s_e h).

(** RFC 2104, for blocks of 64 bytes. *)
Definition hmac (key data : list Z) : list Z :=
  let k := if decide (64 < size key) then sha1 key else key in
  let k := k ++ replicate (64 - length k) 0 in
  sha1 (map (fun x => Z.lxor x 0x5c) k ++ sha1 (map (fun x => Z.lxor x 0x36) k ++ data)).
End FIPS180.

(** ** The transform is the standard's compression function *)

Lemma rotl32_byte_swap b0 b1 b2 b3 l :
  is_byte b0 -> is_byte b1 -> is_byte b2 -> is_byte b3 ->
  l = b0 + b1 * 2 ^ 8 + b2 * 2 ^ 16 + b3 * 2 ^ 24 ->
  Z.lor (Z.land (rotl32 l 24) 0xFF00FF00) (Z.land (rotl32 l 8) 0x00FF00FF) =
  b0 * 2 ^ 24 + b1 * 2 ^ 16 + b2 * 2 ^ 8 + b3.
Proof.
  unfold is_byte; intros H0 H1 H2 H3 ->.
  assert (rotl32 (b0 + b1 * 2 ^ 8 + b2 * 2 ^ 16 + b3 * 2 ^ 24) 24 = ((b0 * 2 ^ 8 + b3) * 2 ^ 8 + b2) * 2 ^ 8 + b1) as ->.
  { unfold rotl32, u32. rewrite Z.shiftl_mul_pow2, Z.shiftr_div_pow2 by lia.
    replace ((b0 + b1 * 2 ^ 8 + b2 * 2 ^ 16 + b3 * 2 ^ 24) * 2 ^ 24 mod 2 ^ 32) with (Z.shiftl b0 24)
      by (rewrite Z.shiftl_mul_pow2 by lia; euclid).
    rewrite lor_disjoint by euclid. euclid. }
  assert (rotl32 (b0 + b1 * 2 ^ 8 + b2 * 2 ^ 16 + b3 * 2 ^ 24) 8 = ((b2 * 2 ^ 8 + b1) * 2 ^ 8 + b0) * 2 ^ 8 + b3) as ->.
  { unfold rotl32, u32. rewrite Z.shiftl_mul_pow2, Z.shiftr_div_pow2 by lia.
    replace ((b0 + b1 * 2 ^ 8 + b2 * 2 ^ 16 + b3 * 2 ^ 24) * 2 ^ 8 mod 2 ^ 32)
      with (Z.shiftl (b0 + b1 * 2 ^ 8 + b2 * 2 ^ 16) 8) by (rewrite Z.shiftl_mul_pow2 by lia; euclid).
    rewrite lor_disjoint by euclid. euclid. }
  change 0xFF00FF00 with (((255 * 2 ^ 8 + 0) * 2 ^ 8 + 255) * 2 ^ 8 + 0).
  change 0x00FF00FF with (((0 * 2 ^ 8 + 255) * 2 ^ 8 + 0) * 2 ^ 8 + 255).
  rewrite !land_byte_split by lia. rewrite !Z.land_0_r, !byte_land_255 by done.
  rewrite !lor_byte_split by lia. rewrite !Z.lor_0_r, !Z.lor_0_l. lia.
Qed.

Lemma schedule_length b n : length (FIPS180.schedule b n) = n.
Proof. induction n as [|n IH]; [done|]. simpl. rewrite length_app, IH. simpl; lia. Qed.

Lemma schedule_nth b n t : (t < n)%nat -> nth t (FIPS180.schedule b n) 0 = FIPS180.W b t.
Proof.
  intros Ht. unfold FIPS180.W. induction n as [|n IH]; [lia|].
  destruct (decide (t = n)) as [->|]; [done|].
  simpl. rewrite app_nth1 by (rewrite schedule_length; lia). apply IH; lia.
Qed.

Lemma W_small b t : (t < 16)%nat -> FIPS180.W b t = be32 b (4 * t).
Proof.
  intros Ht. unfold FIPS180.W; simpl. rewrite app_nth2, schedule_length, Nat.sub_diag by (rewrite schedule_length; lia).
  simpl. by rewrite decide_True.
Qed.

Lemma W_large b t : (16 <= t)%nat -> FIPS180.W b t =
  rotl32 (Z.lxor (Z.lxor (Z.lxor (FIPS180.W b (t - 3)) (FIPS180.W b (t - 8))) (FIPS180.W b (t - 14)))
    (FIPS180.W b (t - 16))) 1.
Proof.
  intros Ht. unfold FIPS180.W at 1; simpl.
  rewrite app_nth2, schedule_length, Nat.sub_diag by (rewrite schedule_length; lia).
  simpl. rewrite decide_False by lia. by rewrite !schedule_nth by lia.
Qed.

(** The circular buffer before round [t]: the last 16 words of the schedule,
    and the words of the block that have not been reached. *)
Definition circular (b : list Z) (t : nat) (block : list Z) : Prop :=
  length block = 16%nat /\
  (forall s, (s < t)%nat -> (t <= s + 16)%nat -> nth (s mod 16) block 0 = FIPS180.W b s) /\
  (forall s, (t <= s < 16)%nat -> nth s block 0 = le32 b (4 * s)).

Lemma nth_insert_eq (l : list Z) i v : (i < length l)%nat -> nth i (<[i := v]> l) 0 = v.
Proof. intros. apply nth_lookup_Some. by apply list_lookup_insert_eq. Qed.

Lemma nth_insert_ne (l : list Z) i j v : i <> j -> nth j (<[i := v]> l) 0 = nth j l 0.
Proof. intros. rewrite !nth_lookup. by rewrite list_lookup_insert_ne. Qed.

Lemma circular_step b t block v :
  circular b t block -> v = FIPS180.W b t -> circular b (S t) (<[(t mod 16)%nat := v]> block).
Proof.
  intros (Hl & HW & HR) ->. pose proof (Nat.mod_upper_bound t 16). split_and!.
  - by rewrite length_insert.
  - intros s Hs Hs'. destruct (decide (s = t)) as [->|Hne].
    + apply nth_insert_eq. rewrite Hl; lia.
    + rewrite nth_insert_ne; [apply HW; lia|].
      pose proof (Nat.div_mod_eq s 16). pose proof (Nat.div_mod_eq t 16). lia.
  - intros s Hs. rewrite nth_insert_ne; [apply HR; lia|]. rewrite Nat.mod_small by lia. lia.
Qed.

Lemma blk0_spec b t block : bytes b -> length b = 64%nat -> (t < 16)%nat -> circular b t block ->
  circular b (S t) (blk0 block t).1 /\ (blk0 block t).2 = FIPS180.W b t.
Proof.
  intros Hb Hlen Ht Hc. unfold blk0; simpl.
  assert (Z.lor (Z.land (rotl32 (nth t block 0) 24) 0xFF00FF00)
    (Z.land (rotl32 (nth t block 0) 8) 0x00FF00FF) = FIPS180.W b t) as HW.
  { destruct Hc as (_ & _ & HR). rewrite HR, W_small by lia.
    assert (forall i, (i < 64)%nat -> is_byte (nth i b 0)) as Hn.
    { intros i Hi. destruct (nth_lookup_or_length b i 0) as [E|]; [|lia].
      by eapply Forall_lookup_1. }
    unfold le32, be32. apply rotl32_byte_swap; [apply Hn; lia..|done]. }
  split; [|done]. rewrite <- (Nat.mod_small t 16) at 2 by lia. by apply circular_step.
Qed.

Lemma blk_spec b t block : (16 <= t)%nat -> circular b t block ->
  circular b (S t) (blk block t).1 /\ (blk block t).2 = FIPS180.W b t.
Proof.
  intros Ht Hc. unfold blk; cbn beta zeta iota delta [fst snd].
  assert (forall k s, (t + k = s + 16)%nat -> (s < t)%nat -> nth ((t + k) mod 16) block 0 = FIPS180.W b s) as Hk.
  { intros k s Hs Hst. destruct Hc as (_ & HW & _). rewrite Hs.
    replace (s + 16)%nat with (s + 1 * 16)%nat by lia. rewrite Nat.Div0.mod_add. apply HW; lia. }
  rewrite (Hk 13 (t - 3))%nat, (Hk 8 (t - 8))%nat, (Hk 2 (t - 14))%nat, (Hk 0 (t - 16))%nat by lia.
  rewrite <- W_large by done. split; [|done]. by apply circular_step.
Qed.

Definition macro_of (i : nat) : var5 -> var5 -> var5 -> var5 -> var5 -> nat -> sha1_vars -> sha1_vars :=
  if (i <? 16)%nat then R0 else if (i <? 20)%nat then R1 else if (i <? 40)%nat then R2
  else if (i <? 60)%nat then R3 else R4.

(** The arguments of the macro at round [i]: the variables rotate. *)
Definition gen_round (i : nat) : sha1_vars -> sha1_vars :=
  match (i mod 5)%nat with
  | 0%nat => macro_of i va vb vc vd ve i | 1%nat => macro_of i ve va vb vc vd i
  | 2%nat => macro_of i vd ve va vb vc i | 3%nat => macro_of i vc vd ve va vb i
  | _ => macro_of i vb vc vd ve va i
  end.

Lemma sha1_steps_gen : sha1_steps = map gen_round (List.seq 0 80).
Proof. reflexivity. Qed.

Definition view5 (i : nat) (s : words5) : words5 :=
  match (i mod 5)%nat with
  | 0%nat => s
  | 1%nat => W5 (s_e s) (s_a s) (s_b s) (s_c s) (s_d s)
  | 2%nat => W5 (s_d s) (s_e s) (s_a s) (s_b s) (s_c s)
  | 3%nat => W5 (s_c s) (s_d s) (s_e s) (s_a s) (s_b s)
  | _ => W5 (s_b s) (s_c s) (s_d s) (s_e s) (s_a s)
  end.

(** One round, as a function of the five values and the schedule word. *)
Definition round_value (i : nat) (v w x y z bw : Z) : Z :=
  u32 (rotl32 v 5 + FIPS180.f i w x y + z + FIPS180.K i + bw).

Lemma Ch_code w x y : Z.lxor (Z.land w (Z.lxor x y)) y = FIPS180.Ch w x y.
Proof. unfold FIPS180.Ch. zbits. by destruct (Z.testbit w _), (Z.testbit x _), (Z.testbit y _). Qed.
Lemma Maj_code w x y : Z.lor (Z.land (Z.lor w x) y) (Z.land w x) = FIPS180.Maj w x y.
Proof. unfold FIPS180.Maj. zbits. by destruct (Z.testbit w _), (Z.testbit x _), (Z.testbit y _). Qed.

(** What a macro does, for any names of distinct variables. *)
Lemma round_macro_spec b i block s v w x y z f blkf K :
  z <> w -> circular b (S i) (blkf block i).1 -> (blkf block i).2 = FIPS180.W b i ->
  (forall a1 a2 a3, f a1 a2 a3 = FIPS180.f i a1 a2 a3) -> K = FIPS180.K i ->
  exists block', round_macro f blkf K v w x y z i (block, s) =
    (block', set5 w (rotl32 (get5 w s) 30)
       (set5 z (round_value i (get5 v s) (get5 w s) (get5 x s) (get5 y s) (get5 z s) (FIPS180.W b i)) s))
    /\ circular b (S i) block'.
Proof.
  intros Hzw Hc Hw Hf ->. unfold round_macro. destruct (blkf block i) as [bl bw]; simpl in *; subst bw.
  exists bl; split; [|done]. rewrite Hf.
  assert (forall n, get5 w (set5 z n s) = get5 w s) as -> by (intros; by destruct w, z).
  do 3 f_equal. unfold round_value. f_equal. lia.
Qed.

Lemma macro_of_spec b i block s v w x y z :
  bytes b -> length b = 64%nat -> (i < 80)%nat -> z <> w -> circular b i block ->
  exists block', macro_of i v w x y z i (block, s) =
    (block', set5 w (rotl32 (get5 w s) 30)
       (set5 z (round_value i (get5 v s) (get5 w s) (get5 x s) (get5 y s) (get5 z s) (FIPS180.W b i)) s))
    /\ circular b (S i) block'.
Proof.
  intros Hb Hlen Hi Hzw Hc. unfold macro_of, FIPS180.f, FIPS180.K.
  assert (i < 20 -> i / 20 = 0)%nat as D0 by (intros; by apply Nat.div_small).
  assert (20 <= i < 40 -> i / 20 = 1)%nat as D1 by (intros; symmetry; apply (Nat.div_unique _ _ _ (i - 20)); lia).
  assert (40 <= i < 60 -> i / 20 = 2)%nat as D2 by (intros; symmetry; apply (Nat.div_unique _ _ _ (i - 40)); lia).
  assert (60 <= i -> i / 20 = 3)%nat as D3 by (intros; symmetry; apply (Nat.div_unique _ _ _ (i - 60)); lia).
  destruct (Nat.ltb_spec i 16); [|destruct (Nat.ltb_spec i 20); [|destruct (Nat.ltb_spec i 40);
    [|destruct (Nat.ltb_spec i 60)]]].
  1: apply round_macro_spec; [done|by apply blk0_spec|by apply blk0_spec|..].
  3-6: apply round_macro_spec; [done|by apply blk_spec|by apply blk_spec|..].
  all: unfold FIPS180.f, FIPS180.K; first [rewrite D0 by lia|rewrite D1 by lia|rewrite D2 by lia|rewrite D3 by lia].
  all: intros; first [apply Ch_code|apply Maj_code|done].
Qed.

Lemma gen_round_spec b i block s :
  bytes b -> length b = 64%nat -> (i < 80)%nat -> circular b i block ->
  exists block' s', gen_round i (block, s) = (block', s') /\ circular b (S i) block' /\
    view5 (S i) s' = FIPS180.round b (view5 i s) i.
Proof.
  intros Hb Hlen Hi Hc. unfold gen_round, view5.
  assert (S i mod 5 = if decide (i mod 5 = 4) then 0 else S (i mod 5))%nat as ->.
  { pose proof (Nat.div_mod_eq i 5). pose proof (Nat.mod_upper_bound i 5).
    pose proof (Nat.div_mod_eq (S i) 5). pose proof (Nat.mod_upper_bound (S i) 5). case_decide; lia. }
  destruct (i mod 5)%nat as [|[|[|[|[|n]]]]] eqn:E;
    [| | | | |pose proof (Nat.mod_upper_bound i 5); lia];
    edestruct (macro_of_spec b i block s) as (block' & -> & Hc'); try done;
    eexists block', _; (split_and!; [reflexivity|done|]); by destruct s.
Qed.

Lemma sha1_transform_eq st b :
  bytes b -> length b = 64%nat -> cs_sha1_transform st b = FIPS180.compress_block st b.
Proof.
  intros Hb Hlen. unfold cs_sha1_transform, FIPS180.compress_block. rewrite sha1_steps_gen.
  assert (forall n, (n <= 80)%nat -> exists block s,
    fold_left (fun x r => r x) (map gen_round (List.seq 0 n)) (in_words b, st) = (block, s) /\
    circular b n block /\ view5 n s = fold_left (FIPS180.round b) (List.seq 0 n) st) as H.
  { induction n as [|n IH]; intros Hn.
    - exists (in_words b), st; split_and!; [done| |done]. split_and!; [done|lia|].
      intros s Hs. unfold in_words. rewrite (nth_indep _ 0 (le32 b (4 * 0))) by (rewrite length_map, length_seq; lia).
      rewrite (map_nth (fun i => le32 b (4 * i))). by rewrite seq_nth by lia.
    - destruct IH as (block & s & Hf & Hc & Hv); [lia|].
      destruct (gen_round_spec b n block s) as (block' & s' & Hg & Hc' & Hv'); [done|done|lia|done|].
      exists block', s'. rewrite seq_S, map_app, !fold_left_app. simpl. rewrite Hf, Hg. split_and!; [done|done|].
      by rewrite Hv', Hv. }
  destruct (H 80%nat) as (block & s & -> & _ & Hv); [lia|]. unfold view5 in Hv.
  change (80 mod 5)%nat with 0%nat in Hv. by rewrite Hv.
Qed.

(** ** Update, Final and HMAC *)

(** What the context holds after the bytes [m]. *)
Definition sha1_repr (ctx : cs_sha1_ctx) (m : list Z) : Prop :=
  let r := absorb FIPS180.compress_block FIPS180.init m in
  bytes m /\ state ctx = r.1 /\ size (buffer ctx) = 64 /\ take (length r.2) (buffer ctx) = r.2 /\
  count0 ctx = u32 (8 * size m) /\ count1 ctx = u32 (8 * size m / 2 ^ 32).

Lemma sha1_init_repr junk : size junk = 64 -> sha1_repr (cs_sha1_init junk) [].
Proof. intros; by split_and!; [apply Forall_nil_2|..]. Qed.

Lemma sha1_loop_spec st i s R :
  0 <= i <= size s -> size s < 2 ^ 32 - 64 -> bytes s ->
  absorb FIPS180.compress_block st (slice s i (size s - i)) = R ->
  wp (loop (S (Z.to_nat (size s))) (fun '(st, i) =>
          if u32 (i + 63) <? size s then
            b ← memcpy (replicate 64 0) 0 s i 64;
            mret (inl (cs_sha1_transform st b, u32 (i + 64)))
          else mret (inr (st, i))) (st, i))
    (fun '(st', i') => st' = R.1 /\ 0 <= i' <= size s /\ R.2 = slice s i' (size s - i') /\ size s - i' < 64).
Proof.
  intros Hi Hs Hb HR.
  apply wp_loop with (m := fun '(_, i) => Z.to_nat (size s - i))
    (I := fun '(st, i) => 0 <= i <= size s /\ absorb FIPS180.compress_block st (slice s i (size s - i)) = R);
    [|done|lia].
  clear st i Hi HR. intros [st i] [Hi HR].
  rewrite !u32_small by lia. wp_step.
  - rewrite memcpy_whole by (done || lia). apply wp_mret. split; [|lia]. split; [lia|].
    rewrite sha1_transform_eq by (by apply Forall_slice || (rewrite length_slice by lia; done)).
    rewrite <- HR. replace (size s - i) with (64 + (size s - (i + 64))) by lia.
    rewrite slice_app by lia. by rewrite absorb_block by (rewrite length_slice by lia; done).
  - apply wp_mret. rewrite absorb_small in HR by (rewrite length_slice by lia; unfold BLOCK; lia).
    subst R. split_and!; (done || lia).
Qed.

Lemma sha1_update_repr ctx m s : sha1_repr ctx m -> bytes s -> size s < 2 ^ 32 - 64 ->
  wp (cs_sha1_update ctx s (size s)) (fun ctx' => sha1_repr ctx' (m ++ s)).
Proof.
  intros (Hm & Hb & Hi & Ht & H0 & H1) Hsb Hs. unfold cs_sha1_update. rewrite H0, H1.
  pose proof (size_nonneg m). pose proof (size_nonneg s).
  destruct (bits_count (size m) (size s)) as [E0 E1]; [lia..|]. rewrite (u32_small (size s)) in E0, E1 by lia.
  change 63 with 0x3f. rewrite rest_count by done. rewrite E0 in *. rewrite E1. clear E0 E1.
  pose proof (absorb_app FIPS180.compress_block FIPS180.init m s) as Happ.
  pose proof (absorb_rest_length FIPS180.compress_block FIPS180.init m) as Hrest.
  pose proof (absorb_rest FIPS180.compress_block FIPS180.init m) as Hrb.
  set (r := absorb FIPS180.compress_block FIPS180.init m) in *.
  assert (size m mod 64 = size r.2) as Hsz
    by (unfold size; rewrite Hrest; unfold BLOCK; by rewrite Nat2Z.inj_mod).
  assert (0 <= size r.2 < 64) as Hr by (rewrite <- Hsz; apply Z.mod_pos_bound; lia).
  assert (take (Z.to_nat (size r.2)) (buffer ctx) = r.2) as Ht' by (by rewrite size_to_nat).
  assert (bytes r.2) by (rewrite Hrb; by apply Forall_drop).
  rewrite Hsz, Hb, (u32_small (size r.2 + _)) by lia. unfold sha1_repr. rewrite size_app.
  assert (bytes (m ++ s)) by (by apply Forall_app).
  apply wp_bind. rewrite Z.gtb_ltb. wp_step.
  - apply wp_bind, wp_memcpy; [lia..|]. intros bf -> Hbf.
    rewrite Ht', drop_ge, app_nil_r in * by (unfold size in *; lia).
    rewrite sha1_transform_eq by (first [by apply Forall_app_2; [|apply Forall_slice]
      |rewrite length_app, length_slice by lia; unfold size in *; lia]).
    apply wp_bind. eapply wp_mono; [apply sha1_loop_spec; [lia|lia|done|reflexivity]|].
    intros [st' i'] (-> & Hi' & HR & Hlt). apply wp_mret.
    assert (absorb FIPS180.compress_block FIPS180.init (m ++ s) =
      absorb FIPS180.compress_block (FIPS180.compress_block r.1 (r.2 ++ slice s 0 (64 - size r.2)))
        (slice s (64 - size r.2) (size s - (64 - size r.2)))) as E.
    { rewrite Happ. rewrite <- (slice_all s) at 1.
      replace (size s) with ((64 - size r.2) + (size s - (64 - size r.2))) at 1 by lia.
      rewrite slice_app, app_assoc, absorb_block; [done|..]; try lia.
      rewrite length_app, length_slice by lia. unfold BLOCK, size in *; lia. }
    apply wp_bind, wp_memcpy; [lia..|]. intros bf2 -> Hbf2. apply wp_mret. cbn [state buffer count0 count1].
    rewrite E, HR. split_and!; [done|done|lia| |done..].
    simpl. by rewrite take_app_length.
  - apply wp_mret. apply wp_bind, wp_memcpy; [lia..|]. intros bf -> Hbf. apply wp_mret.
    cbn [state buffer count0 count1].
    rewrite Happ, absorb_small by (rewrite length_app; unfold BLOCK, size in *; lia).
    cbn [fst snd]. split_and!; [done|done|lia| |done..].
    rewrite Ht', Z.sub_0_r, slice_all, app_assoc, length_app.
    by rewrite take_prefix by (rewrite length_app; lia).
Qed.

Lemma u8_land_255 z : u8 (Z.land z 255) = u8 z.
Proof.
  change 255 with (2 ^ 8 - 1). rewrite land_ones_mod by lia. unfold u8. by rewrite Zmod_mod.
Qed.

(** The two loops of [cs_sha1_final] that store words big-endian. *)
Lemma finalcount_bytes c0 c1 :
  map (fun i => u8 (Z.land (Z.shiftr (if decide (4 <= i) then c0 else c1) ((3 - Z.land i 3) * 8)) 255)) (seqZ 0 8)
  = be_bytes c1 ++ be_bytes c0.
Proof.
  change (seqZ 0 8) with [0; 1; 2; 3; 4; 5; 6; 7]. cbn [map]. rewrite !u8_land_255. reflexivity.
Qed.

Lemma digest_bytes a b c d e :
  map (fun i => u8 (Z.land (Z.shiftr (nth (Z.to_nat (Z.shiftr i 2)) [a; b; c; d; e] 0)
                                   ((3 - Z.land i 3) * 8)) 255)) (seqZ 0 20)
  = be_bytes a ++ be_bytes b ++ be_bytes c ++ be_bytes d ++ be_bytes e.
Proof.
  change (seqZ 0 20) with [0; 1; 2; 3; 4; 5; 6; 7; 8; 9; 10; 11; 12; 13; 14; 15; 16; 17; 18; 19].
  cbn [map]. rewrite !u8_land_255. reflexivity.
Qed.

Lemma land_504 n : 0 <= n -> Z.land (u32 (8 * n)) 504 = 8 * (n mod 64).
Proof.
  intros. change 504 with (Z.shiftl (2 ^ 6 - 1) 3).
  replace (u32 (8 * n)) with (Z.shiftl (n mod 2 ^ 29) 3)
    by (unfold u32; rewrite Z.shiftl_mul_pow2 by lia; euclid).
  rewrite <- Z.shiftl_land, land_ones_mod, Z.shiftl_mul_pow2 by lia. euclid.
Qed.

Lemma be_bytes_bytes w : bytes (be_bytes w).
Proof. unfold be_bytes. repeat (apply Forall_cons_2; [apply u8_byte|]). apply Forall_nil_2. Qed.

Lemma bytes_replicate n v : is_byte v -> bytes (replicate n v).
Proof. intros. by apply Forall_replicate. Qed.

Lemma sha1_pad_loop ctx m :
  sha1_repr ctx (m ++ [128]) ->
  wp (loop 65 (fun ctx =>
      if Z.land (count0 ctx) 504 =? 448 then mret (inr ctx)
      else ctx ← cs_sha1_update ctx [0] 1; mret (inl ctx)) ctx)
    (fun ctx' => sha1_repr ctx' (m ++ [128] ++ replicate (pad_zeros (size m)) 0)).
Proof.
  intros Hr. pose proof (size_nonneg m). unfold pad_zeros.
  apply wp_loop with (m := fun ctx => Z.to_nat ((448 - Z.land (count0 ctx) 504) / 8 mod 64))
    (I := fun ctx => exists k : nat, sha1_repr ctx (m ++ [128] ++ replicate k 0) /\
      Z.of_nat k + ((55 - size m - Z.of_nat k) mod 64) = (55 - size m) mod 64).
  - intros c (k & Hc & Hk).
    assert (count0 c = u32 (8 * (size m + 1 + Z.of_nat k))) as E0.
    { destruct Hc as (_ & _ & _ & _ & -> & _). do 2 f_equal. unfold size.
      rewrite !length_app, length_replicate. simpl; lia. }
    rewrite E0, land_504 by lia. wp_step.
    + apply wp_mret. by replace (Z.to_nat ((55 - size m) mod 64)) with k by euclid.
    + apply wp_bind. eapply wp_mono; [apply (sha1_update_repr _ _ [0] Hc); [by apply Forall_singleton|done]|].
      intros c' Hc'. apply wp_mret.
      assert (count0 c' = u32 (8 * (size m + 1 + Z.of_nat k + 1))) as ->.
      { destruct Hc' as (_ & _ & _ & _ & -> & _). do 2 f_equal. unfold size.
        rewrite !length_app, length_replicate. simpl; lia. }
      rewrite land_504 by lia. split; [|euclid].
      exists (S k). rewrite replicate_S_end, (app_assoc [128]), (app_assoc m). split; [done|euclid].
  - exists 0%nat. split; [done|]. simpl. euclid.
  - pose proof (Z.mod_pos_bound ((448 - Z.land (count0 ctx) 504) / 8) 64). lia.
Qed.

Lemma sha1_final_repr ctx m : sha1_repr ctx m -> cs_sha1_final ctx = Ret (FIPS180.sha1 m).
Proof.
  intros Hr. apply wp_eq. unfold cs_sha1_final. rewrite finalcount_bytes.
  pose proof Hr as (Hm & Hb & Hi & Ht & H0 & H1).
  assert (be_bytes (count1 ctx) ++ be_bytes (count0 ctx) = FIPS180.length64 (8 * size m)) as -> by (by rewrite H0, H1).
  apply wp_bind. eapply wp_mono; [apply (sha1_update_repr _ _ [128] Hr); [by apply Forall_singleton|done]|].
  intros c1 Hc1. apply wp_bind. eapply wp_mono; [apply sha1_pad_loop, Hc1|]. intros c2 Hc2.
  apply wp_bind. eapply wp_mono; [apply (sha1_update_repr _ _ (FIPS180.length64 (8 * size m)) Hc2); [|done]|].
  { apply Forall_app_2; apply be_bytes_bytes. }
  intros c3 (_ & Hst & _). apply wp_mret. rewrite digest_bytes.
  unfold FIPS180.sha1, pad. cbn zeta. rewrite Hst, <- !app_assoc. done.
Qed.

(** The calls [cs_sha1_update] on successive fragments. *)
Fixpoint sha1_update_all (ctx : cs_sha1_ctx) (frags : list (list Z)) : outcome cs_sha1_ctx :=
  match frags with
  | [] => mret ctx
  | s :: r => ctx ← cs_sha1_update ctx s (size s); sha1_update_all ctx r
  end.

Lemma sha1_update_all_repr frags ctx m :
  Forall (fun s => bytes s /\ size s < 2 ^ 32 - 64) frags -> sha1_repr ctx m ->
  wp (sha1_update_all ctx frags) (fun c => sha1_repr c (m ++ concat frags)).
Proof.
  revert ctx m. induction frags as [|s r IH]; intros ctx m Hf Hm; simpl.
  - apply wp_mret. by rewrite app_nil_r.
  - apply Forall_cons_1 in Hf as [[? ?] ?]. apply wp_bind.
    eapply wp_mono; [by apply sha1_update_repr|]. intros c Hc. rewrite app_assoc. by apply IH.
Qed.

Lemma sha1_of_frags frags junk :
  size junk = 64 -> Forall (fun s => bytes s /\ size s < 2 ^ 32 - 64) frags ->
  (c ← sha1_update_all (cs_sha1_init junk) frags; cs_sha1_final c) = Ret (FIPS180.sha1 (concat frags)).
Proof.
  intros Hj Hf. apply wp_eq, wp_bind.
  eapply wp_mono; [apply (sha1_update_all_repr _ _ []); [done|by apply sha1_init_repr]|].
  intros c Hc. rewrite (sha1_final_repr c (concat frags)) by done. by apply wp_ret.
Qed.

Lemma sha1_digest_bytes m : bytes (FIPS180.sha1 m) /\ size (FIPS180.sha1 m) = 20.
Proof. split; [|done]. unfold FIPS180.sha1. repeat apply Forall_app_2; apply be_bytes_bytes. Qed.

(** C39: [cs_sha1_update] on any fragments of a message, each below 2^32 - 64 bytes,
    followed by [cs_sha1_final] is the FIPS 180-1 digest of the message. *)
Theorem cs_sha1_fips180 frags junk :
  size junk = 64 -> Forall (fun s => bytes s /\ size s < 2 ^ 32 - 64) frags ->
  (c ← sha1_update_all (cs_sha1_init junk) frags; cs_sha1_final c) = Ret (FIPS180.sha1 (concat frags)).
Proof. apply sha1_of_frags. Qed.

Lemma cs_sha1_fips180_witness :
  (c ← sha1_update_all (cs_sha1_init (replicate 64 5)) [lit "a"; lit "bc"]; cs_sha1_final c)
  = Ret (FIPS180.sha1 (lit "abc")).
Proof.
  apply (cs_sha1_fips180 [lit "a"; lit "bc"]); [reflexivity|]. repeat constructor; lia.
Defined.

(** The key padded to a block, with every byte xored with [x]. *)
Definition xor_pad (k : list Z) (x : Z) : list Z :=
  map (fun y => Z.lxor y x) (k ++ replicate (64 - length k) 0).

Lemma byte_lxor x y : is_byte x -> is_byte y -> is_byte (Z.lxor y x).
Proof.
  unfold is_byte in *. intros Hx Hy.
  replace (Z.lxor y x) with (Z.lxor y x mod 2 ^ 8); [apply Z.mod_pos_bound; lia|].
  rewrite <- Z.land_ones by lia. zbits.
  rewrite <- (Z.mod_small y (2 ^ 8)), <- (Z.mod_small x (2 ^ 8)), <- !Z.land_ones by lia.
  rewrite !Z.land_spec. by destruct (Z.testbit y _), (Z.testbit x _), (Z.testbit (Z.ones 8) _).
Qed.

Lemma xor_pad_spec k x : bytes k -> size k <= 64 -> is_byte x ->
  map (fun y => u8 (Z.lxor y x)) (k ++ replicate (64 - length k) 0) = xor_pad k x /\
  bytes (xor_pad k x) /\ size (xor_pad k x) = 64.
Proof.
  intros Hk Hs Hx. assert (bytes (k ++ replicate (64 - length k) 0)) as Hb
    by (apply Forall_app_2; [done|by apply bytes_replicate]).
  split_and!.
  - apply map_ext_in. intros y Hy. apply u8_small, byte_lxor; [done|].
    rewrite List.Forall_forall in Hb. by apply Hb.
  - apply Forall_map. eapply List.Forall_impl; [|exact Hb]. intros; by apply byte_lxor.
  - unfold xor_pad, size in *. rewrite length_map, length_app, length_replicate. lia.
Qed.

(** The digest of one piece, and of two pieces, as a step of a longer program. *)
Lemma wp_sha1_of {A} frags junk (g : list Z -> outcome A) Q :
  size junk = 64 -> Forall (fun s => bytes s /\ size s < 2 ^ 32 - 64) frags ->
  wp (g (FIPS180.sha1 (concat frags))) Q ->
  wp (c ← sha1_update_all (cs_sha1_init junk) frags; d ← cs_sha1_final c; g d) Q.
Proof.
  intros Hj Hf Hg. pose proof (sha1_of_frags frags junk Hj Hf) as E.
  destruct (sha1_update_all _ _) as [c|]; simpl in *; [|done]. by rewrite E.
Qed.

Lemma wp_sha1_two {A} junk p s (g : list Z -> outcome A) Q :
  size junk = 64 -> bytes p -> size p = 64 -> bytes s -> size s < 2 ^ 32 - 64 ->
  wp (g (FIPS180.sha1 (p ++ s))) Q ->
  wp (c ← cs_sha1_update (cs_sha1_init junk) p 64; c ← cs_sha1_update c s (size s);
      d ← cs_sha1_final c; g d) Q.
Proof.
  intros Hj Hp Sp Hs Ss Hg.
  assert (wp (c ← sha1_update_all (cs_sha1_init junk) [p; s]; d ← cs_sha1_final c; g d) Q) as H.
  { apply wp_sha1_of; [done|repeat constructor; (done || lia)|]. simpl. by rewrite app_nil_r. }
  revert H. simpl. rewrite Sp.
  destruct (cs_sha1_update _ p 64) as [c|]; simpl; [|done].
  by destruct (cs_sha1_update c s (size s)) as [c'|].
Qed.

Lemma wp_sha1_one {A} junk s (g : list Z -> outcome A) Q :
  size junk = 64 -> bytes s -> size s < 2 ^ 32 - 64 -> wp (g (FIPS180.sha1 s)) Q ->
  wp (c ← cs_sha1_update (cs_sha1_init junk) s (size s); d ← cs_sha1_final c; g d) Q.
Proof.
  intros Hj Hs Ss Hg.
  assert (wp (c ← sha1_update_all (cs_sha1_init junk) [s]; d ← cs_sha1_final c; g d) Q) as H.
  { apply wp_sha1_of; [done|repeat constructor; (done || lia)|]. simpl. by rewrite app_nil_r. }
  revert H. simpl. by destruct (cs_sha1_update _ s (size s)) as [c|].
Qed.

(** C39: [cs_hmac_sha1] is HMAC-SHA1 of RFC 2104, for keys of any length: a key
    longer than a block is replaced by its digest. *)
Theorem cs_hmac_sha1_rfc2104 junk key data :
  size junk = 64 -> bytes key -> bytes data -> size key < 2 ^ 32 - 64 -> size data < 2 ^ 32 - 64 ->
  cs_hmac_sha1 junk key (size key) data (size data) = Ret (FIPS180.hmac key data).
Proof.
  intros Hj Hk Hd Hks Hds. apply wp_eq. unfold cs_hmac_sha1, FIPS180.hmac.
  pose proof (size_nonneg data). pose proof (size_nonneg key).
  set (k := if decide (64 < size key) then FIPS180.sha1 key else key).
  assert (bytes k /\ 0 <= size k <= 64) as [Hkb Hk64].
  { unfold k. case_decide; [|split; [done|lia]]. pose proof (sha1_digest_bytes key) as [? ->]. split; [done|lia]. }
  apply wp_bind, wp_mono with (P := fun '(k', n) => k' = k /\ n = size k).
  { rewrite u32_small by lia. unfold k. rewrite Z.gtb_ltb. wp_step.
    - rewrite decide_True by lia. apply wp_sha1_one; [done..|]. by apply wp_mret.
    - rewrite decide_False by lia. by apply wp_mret. }
  intros [? ?] [-> ->]. clear Hks.
  rewrite memcpy_start by (unfold size in *; rewrite length_replicate; lia).
  unfold fill. rewrite drop_replicate. cbn [mbind outcome_bind].
  destruct (xor_pad_spec k 0x36) as (-> & B1 & S1); [done|lia|done|].
  destruct (xor_pad_spec k 0x5c) as (-> & B2 & S2); [done|lia|done|].
  rewrite (u32_small (size data)) by lia. apply wp_sha1_two; [done..|].
  destruct (sha1_digest_bytes (xor_pad k 0x36 ++ data)) as [Hob Hos].
  pose proof (wp_sha1_two junk (xor_pad k 0x5c) _ Ret (eq (FIPS180.sha1 (xor_pad k 0x5c
    ++ FIPS180.sha1 (xor_pad k 0x36 ++ data)))) Hj B2 S2 Hob) as H2.
  rewrite Hos in H2. destruct H2 as (d & E & <-); [done|by apply wp_ret|].
  refine (wp_of_eq _ _ _ (eq_trans _ E) eq_refl). destruct (cs_sha1_update _ _ 64) as [c|]; [|done]. simpl.
  destruct (cs_sha1_update c _ 20) as [c'|]; [|done]. simpl. by destruct (cs_sha1_final c').
Qed.

Lemma cs_hmac_sha1_rfc2104_witness :
  cs_hmac_sha1 (replicate 64 0) (replicate 80 170) 80 (lit "larger than a block") 19
  = Ret (FIPS180.hmac (replicate 80 170) (lit "larger than a block")).
Proof.
  apply (cs_hmac_sha1_rfc2104 (replicate 64 0) (replicate 80 170) (lit "larger than a block"));
    [reflexivity|repeat constructor; lia|repeat constructor; lia|reflexivity|reflexivity].
Defined.
