(* ===== verification/Mbuf.v ===== *)
(** * Growing memory buffers (mongoose.c, common/mbuf.c)

    A buffer is a heap object and the two counters of [struct mbuf].  The
    allocator is an argument of the operations that call it: what [realloc]
    answered, a null pointer or an address and the indeterminate bytes it
    appended.  The buffers refine byte lists. *)

From Stdlib Require Import ZArith Lia String.
From stdpp Require Import base list numbers option.
From S2P Require Import Prelude.

Local Open Scope Z_scope.

(** ** The code *)

Record mbuf := mk_mbuf {
  mb_addr : Z;          (* the value of the pointer [buf], 0 for NULL *)
  mb_buf : list Z;      (* the object it points to *)
  mb_len : Z;
  mb_size : Z
}.

(** An answer of [realloc(p, n)]: the object holds the first bytes of the old
    one, then indeterminate bytes. *)
Record block := mk_block { b_addr : Z; b_junk : Z -> Z }.

Definition MBUF_REALLOC (r : option block) (old : list Z) (n : Z) : option (Z * list Z) :=
  match r with
  | None => None
  | Some k => Some (b_addr k, take (Z.to_nat n) old ++ map (b_junk k) (seqZ (size old) (n - size old)))
  end.

Definition mbuf_resize (r : option block) (a : mbuf) (new_size : Z) : mbuf :=
  if (new_size >? mb_size a) || ((new_size <? mb_size a) && (new_size >=? mb_len a)) then
    match MBUF_REALLOC r (mb_buf a) new_size with
    | None => if new_size =? 0 then mk_mbuf 0 [] (mb_len a) new_size else a
    | Some (p, bf) => mk_mbuf p bf (mb_len a) new_size
    end
  else a.

Definition mbuf_init (r : option block) (initial_size : Z) : mbuf :=
  mbuf_resize r (mk_mbuf 0 [] 0 0) initial_size.

Definition mbuf_free (m : mbuf) : mbuf :=
  if mb_addr m =? 0 then m else mbuf_init None 0.

Definition mbuf_trim (r : option block) (m : mbuf) : mbuf := mbuf_resize r m (mb_len m).

(** [size_t] to [double]: to 53 bits, to the nearest, ties to even. *)
Definition double (n : Z) : Z :=
  let e := Z.max 0 (Z.log2 n - 52) in
  let q := n / 2 ^ e in
  let d := 2 * (n mod 2 ^ e) in
  (if (2 ^ e <? d) || ((d =? 2 ^ e) && Z.odd q) then q + 1 else q) * 2 ^ e.

(** [n * MBUF_SIZE_MULTIPLIER], in [double] and back to [size_t].  The product
    by 1.5 is rounded as three times the number would be, one binade below. *)
Definition mbuf_grow (n : Z) : outcome Z :=
  let s := double (3 * double n) / 2 in
  if s <? 2 ^ 64 then Ret s else Fault BadConversion.

Definition mbuf_insert (r : option block) (a : mbuf) (off : Z) (bf : option (list Z)) (len : Z) :
    outcome (mbuf * Z) :=
  if negb (mb_len a <=? mb_size a) then Fault AssertFailed else
  if negb (off <=? mb_len a) then Fault AssertFailed else
  if SIZE_MAX - mb_addr a <? len then mret (a, 0) else
  let fill_in (b : list Z) :=
    b ← memcpy b (off + len) b off (mb_len a - off);
    match bf with Some s => memcpy b off s 0 len | None => mret b end in
  if u64 (mb_len a + len) <=? mb_size a then
    b ← fill_in (mb_buf a);
    mret (mk_mbuf (mb_addr a) b (u64 (mb_len a + len)) (mb_size a), len)
  else
    new_size ← mbuf_grow (u64 (mb_len a + len));
    match MBUF_REALLOC r (mb_buf a) new_size with
    | Some (p, b) =>
        b ← fill_in b;
        mret (mk_mbuf p b (u64 (mb_len a + len)) new_size, len)
    | None => mret (a, 0)
    end.

Definition mbuf_append (r : option block) (a : mbuf) (bf : option (list Z)) (len : Z) : outcome (mbuf * Z) :=
  mbuf_insert r a (mb_len a) bf len.

Definition mbuf_remove (mb : mbuf) (n : Z) : outcome mbuf :=
  if (0 <? n) && (n <=? mb_len mb) then
    b ← memcpy (mb_buf mb) 0 (mb_buf mb) n (mb_len mb - n);
    mret (mk_mbuf (mb_addr mb) b (mb_len mb - n) (mb_size mb))
  else mret mb.

(** ** The abstraction *)

Definition content (m : mbuf) : list Z := slice (mb_buf m) 0 (mb_len m).

Record mbuf_wf (m : mbuf) : Prop := {
  wf_len : 0 <= mb_len m <= mb_size m;
  wf_size : mb_size m = size (mb_buf m)
}.

Lemma size_content m : mbuf_wf m -> size (content m) = mb_len m.
Proof. intros [Hl Hs]. unfold content. by rewrite size_slice by lia. Qed.

(** The counters stay far below the widths at which they wrap: no buffer of
    2^60 bytes fits in the address space of the platforms of the program. *)
Definition FITS : Z := 2 ^ 60.

Lemma double_bounds n : 0 <= n -> n - n / 2 ^ 52 - 1 <= double n <= n + n / 2 ^ 52 + 1.
Proof.
  intros Hn. unfold double. set (e := Z.max 0 (Z.log2 n - 52)).
  assert (0 <= e) by lia. assert (0 < 2 ^ e) by (apply Z.pow_pos_nonneg; lia).
  assert (e = 0 \/ 2 ^ e <= n / 2 ^ 52) as He.
  { destruct (decide (Z.log2 n <= 52)); [left; lia|right].
    replace e with (Z.log2 n - 52) by lia. apply Z.div_le_lower_bound; [lia|].
    rewrite <- Z.pow_add_r by lia. replace (52 + (Z.log2 n - 52)) with (Z.log2 n) by lia.
    apply Z.log2_spec. destruct (decide (n = 0)) as [->|]; [simpl in *; lia|lia]. }
  pose proof (Z.div_mod n (2 ^ e)). pose proof (Z.mod_pos_bound n (2 ^ e)).
  pose proof (Z.div_pos n (2 ^ 52)).
  destruct He as [He|He]; [rewrite He in *; change (2 ^ 0) with 1 in *; case_match; lia|].
  case_match; nia.
Qed.

Lemma double_small n : 0 <= n < 2 ^ 53 -> double n = n.
Proof.
  intros Hn. unfold double.
  assert (Z.log2 n <= 52).
  { destruct (decide (n = 0)) as [->|]; [simpl; lia|]. apply Z.lt_succ_r, Z.log2_lt_pow2; lia. }
  replace (Z.max 0 (Z.log2 n - 52)) with 0 by lia.
  change (2 ^ 0) with 1. rewrite Z.mod_1_r, Z.div_1_r. simpl. lia.
Qed.

Lemma mbuf_grow_spec n : 0 < n <= FITS -> exists s, mbuf_grow n = Ret s /\ n <= s < 2 ^ 62.
Proof.
  unfold FITS. intros Hn. unfold mbuf_grow.
  assert (n <= double (3 * double n) / 2 < 2 ^ 62) as H.
  { destruct (decide (n < 2 ^ 50)).
    - rewrite !double_small by (rewrite ?double_small by lia; lia). euclid.
    - pose proof (double_bounds n ltac:(lia)). pose proof (double_bounds (3 * double n) ltac:(euclid)). euclid. }
  exists (double (3 * double n) / 2). split; [|done].
  destruct (Z.ltb_spec (double (3 * double n) / 2) (2 ^ 64)); [done|lia].
Qed.

Lemma realloc_size k old n p b : size old <= n -> MBUF_REALLOC (Some k) old n = Some (p, b) ->
  size b = n /\ take (length old) b = old.
Proof.
  intros Hn [= <- <-]. pose proof (size_nonneg old). rewrite take_ge by (unfold size in *; lia). split.
  - unfold size in *. rewrite length_app, length_map, length_seqZ. lia.
  - apply take_app_length.
Qed.

(** The shift and the copy of [mbuf_insert], on a buffer with room: [h] and [t]
    are the content before and after the offset. *)
Lemma fill_in_spec (h t q : list Z) bf n :
  0 <= n <= size q -> (forall s, bf = Some s -> n <= size s) ->
  exists x q', size x = n /\ size q' = size q - n /\ (forall s, bf = Some s -> x = slice s 0 n) /\
    (b ← memcpy (h ++ t ++ q) (size h + n) (h ++ t ++ q) (size h) (size t);
     match bf with Some s => memcpy b (size h) s 0 n | None => mret b end) = Ret (h ++ x ++ t ++ q').
Proof.
  intros Hn Hs. pose proof (size_nonneg t).
  destruct (split_at (t ++ q) n) as (y & zr & E & Hy); [size_lia|].
  assert (size zr = size t + size q - n) as Hzr by (apply (f_equal size) in E; size_lia).
  destruct (split_at zr (size t)) as (z & r & -> & Hz); [lia|].
  assert ((b ← memcpy (h ++ t ++ q) (size h + n) (h ++ t ++ q) (size h) (size t); mret b) = Ret (h ++ y ++ t ++ r)) as E1.
  { rewrite E, (app_assoc h y) at 1. rewrite memcpy_mid; [|by rewrite size_app, Hy|done|done|size_lia].
    by rewrite slice_mid, <- app_assoc. }
  destruct (memcpy (h ++ t ++ q) _ _ _ _) as [b|]; [|done]. cbn [mbind outcome_bind mret outcome_ret] in E1.
  injection E1 as ->. cbn [mbind outcome_bind]. destruct bf as [s|].
  - specialize (Hs s eq_refl). exists (slice s 0 n), r. split_and!.
    + by rewrite size_slice by lia.
    + size_lia.
    + by intros ? [= ->].
    + by rewrite memcpy_mid.
  - exists y, r. split_and!; [done|size_lia|done|done].
Qed.

(** *** The operations on the content *)

Lemma content_split m off : mbuf_wf m -> 0 <= off <= mb_len m -> exists h t q,
  mb_buf m = h ++ t ++ q /\ content m = h ++ t /\ size h = off /\ size t = mb_len m - off /\
  size q = mb_size m - mb_len m.
Proof.
  intros [Hl Hs] Ho. destruct (split_at (mb_buf m) (mb_len m)) as (c & q & E & Hc); [lia|].
  destruct (split_at c off) as (h & t & -> & Hh); [lia|].
  exists h, t, q. unfold content. rewrite E. rewrite <- Hc at 1. rewrite slice_prefix.
  apply (f_equal size) in E. rewrite <- app_assoc. size_simpl. split_and!; (done || lia).
Qed.

Lemma content_intro p b l sz c q : b = c ++ q -> l = size c -> content (mk_mbuf p b l sz) = c.
Proof. intros -> ->. apply slice_prefix. Qed.

(** The object did not move, or moved to the block of the allocator. *)
Definition placed (r : option block) (a a' : mbuf) : Prop :=
  (mb_addr a' = mb_addr a /\ mb_size a' = mb_size a) \/ exists k, r = Some k /\ mb_addr a' = b_addr k.

(** An insertion either stores the bytes, and says so, or changes nothing; it
    fails only if the allocator does. *)
Lemma mbuf_insert_spec r a off bf n :
  mbuf_wf a -> 0 <= off <= mb_len a -> 0 <= n -> mb_len a + n <= FITS -> mb_addr a + n <= SIZE_MAX ->
  (forall s, bf = Some s -> n <= size s) ->
  exists a' res, mbuf_insert r a off bf n = Ret (a', res) /\ mbuf_wf a' /\ placed r a a' /\
    ((res = n /\ exists x, size x = n /\ (forall s, bf = Some s -> x = slice s 0 n) /\
        content a' = slice (content a) 0 off ++ x ++ slice (content a) off (mb_len a - off)) \/
     (res = 0 /\ a' = a /\ r = None /\ mb_size a < mb_len a + n)).
Proof.
  intros Hwf Ho Hn Hf Ha Hbf. pose proof Hwf as [Hl Hs]. unfold FITS in Hf. unfold mbuf_insert.
  rewrite (proj2 (Z.leb_le (mb_len a) (mb_size a))) by lia. rewrite (proj2 (Z.leb_le off (mb_len a))) by lia.
  rewrite (proj2 (Z.ltb_ge (SIZE_MAX - mb_addr a) n)) by lia. cbn [negb].
  unfold u64. rewrite Z.mod_small by lia.
  destruct (content_split a off Hwf Ho) as (h & t & q & E & Ec & Hh & Ht & Hq).
  rewrite Ec, E, <- Ht, <- Hh.
  assert (slice (h ++ t) 0 (size h) = h) as -> by apply slice_prefix.
  assert (slice (h ++ t) (size h) (size t) = t) as -> by (rewrite <- (app_nil_r t) at 1; by rewrite slice_mid).
  destruct (Z.leb_spec (mb_len a + n) (mb_size a)).
  - destruct (fill_in_spec h t q bf n) as (x & q' & Hx & Hq' & Hxs & ->); [lia|done|].
    cbn [mbind outcome_bind mret outcome_ret]. eexists _, _; split; [done|]. split_and!.
    + split; cbn [mb_len mb_size mb_buf]; [lia|size_lia].
    + by left.
    + left. split; [done|]. exists x. split_and!; [done|done|].
      apply content_intro with (q := q'); [by rewrite <- !app_assoc|size_lia].
  - destruct (mbuf_grow_spec (mb_len a + n)) as (s & -> & Hgr); [unfold FITS; lia|].
    cbn [mbind outcome_bind]. destruct r as [k|].
    + destruct (MBUF_REALLOC (Some k) (h ++ t ++ q) s) as [[p b]|] eqn:Er; [|done].
      assert (p = b_addr k) as Hp by (cbn in Er; congruence).
      apply realloc_size in Er as [Hbs Hbt]; [|rewrite <- E, <- Hs; lia].
      assert (b = h ++ t ++ (q ++ drop (length (h ++ t ++ q)) b)) as Hb
        by (rewrite <- (take_drop (length (h ++ t ++ q)) b) at 1; by rewrite Hbt, <- !app_assoc).
      rewrite Hb. set (q2 := q ++ _) in *. assert (size q2 = s - mb_len a) as Hq2
        by (apply (f_equal size) in Hb; size_lia).
      destruct (fill_in_spec h t q2 bf n) as (x & q' & Hx & Hq' & Hxs & ->); [lia|done|].
      cbn [mbind outcome_bind mret outcome_ret]. eexists _, _; split; [done|]. split_and!.
      * split; cbn [mb_len mb_size mb_buf]; [lia|size_lia].
      * right. by exists k.
      * left. split; [done|]. exists x. split_and!; [done|done|].
        apply content_intro with (q := q'); [by rewrite <- !app_assoc|size_lia].
    + cbn [MBUF_REALLOC]. eexists _, _; split; [done|]. split; [done|]. split; [by left|]. right. split_and!; (done || lia).
Qed.

Lemma mbuf_remove_spec a n : mbuf_wf a -> 0 <= n ->
  exists a', mbuf_remove a n = Ret a' /\ mbuf_wf a' /\ mb_addr a' = mb_addr a /\ mb_size a' = mb_size a /\
    content a' = if decide (n <= mb_len a) then slice (content a) n (mb_len a - n) else content a.
Proof.
  intros Hwf Hn. pose proof Hwf as [Hl Hs]. unfold mbuf_remove.
  destruct (Z.ltb_spec 0 n); cbn [andb].
  - destruct (Z.leb_spec n (mb_len a)); [rewrite decide_True by done|rewrite decide_False by lia; by exists a].
    destruct (content_split a n Hwf) as (h & t & q & E & Ec & Hh & Ht & Hq); [lia|].
    rewrite E, Ec, <- Ht, <- Hh.
    assert (slice (h ++ t) (size h) (size t) = t) as -> by (rewrite <- (app_nil_r t) at 1; by rewrite slice_mid).
    destruct (split_at (h ++ t ++ q) (size t)) as (y & z & Ey & Hy); [size_lia|].
    assert (memcpy (h ++ t ++ q) 0 (h ++ t ++ q) (size h) (size t) = Ret (t ++ z)) as ->.
    { rewrite Ey at 1. pose proof (memcpy_mid [] y z (h ++ t ++ q) 0 (size h) (size t)) as M. simpl in M.
      rewrite M by size_lia. by rewrite slice_mid. }
    eexists; split; [done|]. cbn [mb_addr mb_size]. split_and!; [|done|done|by apply content_intro with (q := z)].
    split; cbn [mb_len mb_size mb_buf]; [lia|]. apply (f_equal size) in Ey. size_lia.
  - replace n with 0 by lia. rewrite decide_True by lia. exists a. split_and!; try done.
    rewrite Z.sub_0_r, <- (size_content a) by done. by rewrite slice_all.
Qed.

(** Only the first [n] bytes of the source matter. *)
Lemma memcpy_prefix {A} (d s : list A) off n : 0 <= n <= size s -> memcpy d off s 0 n = memcpy d off (slice s 0 n) 0 n.
Proof.
  intros Hn. unfold memcpy. rewrite size_slice by lia. rewrite slice_slice by lia.
  destruct (decide (0 <= off /\ 0 <= n /\ off + n <= size d /\ 0 <= 0 /\ 0 + n <= size s)).
  - rewrite decide_True by lia. done.
  - rewrite decide_False by lia. done.
Qed.

Lemma mbuf_insert_prefix r a off s n : 0 <= n <= size s -> mbuf_insert r a off (Some s) n = mbuf_insert r a off (Some (slice s 0 n)) n.
Proof.
  intros Hn. unfold mbuf_insert. assert (forall b, memcpy b off s 0 n = memcpy b off (slice s 0 n) 0 n) as E by (intros; by apply memcpy_prefix).
  do 3 (case_match; [done|]). case_match.
  - destruct (memcpy (mb_buf a) _ _ _ _); [|done]. cbn [mbind outcome_bind]. by rewrite E.
  - destruct (mbuf_grow _); [|done]. cbn [mbind outcome_bind]. destruct (MBUF_REALLOC _ _ _) as [[q b]|]; [|done].
    destruct (memcpy b _ _ _ _); [|done]. cbn [mbind outcome_bind]. by rewrite E.
Qed.

Lemma mbuf_remove_same a n a' : mbuf_remove a n = Ret a' -> mb_addr a' = mb_addr a /\ mb_size a' = mb_size a.
Proof.
  unfold mbuf_remove. case_match; [|by intros [= ->]]. destruct (memcpy _ _ _ _ _); [|done]. by intros [= <-].
Qed.

(** Removing a known front. *)
Lemma mbuf_remove_front a h t : mbuf_wf a -> content a = h ++ t ->
  exists a', mbuf_remove a (size h) = Ret a' /\ mbuf_wf a' /\ mb_len a' = size t /\ content a' = t.
Proof.
  intros Hwf Hc. pose proof (size_nonneg h). pose proof (size_nonneg t). pose proof (size_content a Hwf) as Hl. rewrite Hc, size_app in Hl.
  destruct (mbuf_remove_spec a (size h) Hwf ltac:(done)) as (a' & E & Hwf' & _ & _ & Hc'). rewrite decide_True in Hc' by lia.
  rewrite Hc, <- Hl, slice_app_r, Z.sub_diag in Hc' by lia. replace (size h + size t - size h) with (size t) in Hc' by lia. rewrite slice_all in Hc'.
  exists a'. split_and!; [done|done| |done]. by rewrite <- (size_content a' Hwf'), Hc'.
Qed.

Lemma buf_content a : mbuf_wf a -> exists q, mb_buf a = content a ++ q.
Proof.
  intros Hwf. destruct (content_split a 0 Hwf) as (h & t & q & E & Ec & _); [pose proof (wf_len _ Hwf); lia|].
  exists q. by rewrite Ec, <- app_assoc.
Qed.

(** Resizing never loses content, and the object has at least the requested
    room unless the allocator failed. *)
Lemma mbuf_resize_spec r a n : mbuf_wf a -> 0 <= n ->
  mbuf_wf (mbuf_resize r a n) /\ content (mbuf_resize r a n) = content a /\
  mb_len (mbuf_resize r a n) = mb_len a /\
  (r <> None -> mb_size (mbuf_resize r a n) = if decide (mb_len a <= n) then n else mb_size a).
Proof.
  intros Hwf Hn. pose proof Hwf as [Hl Hs]. unfold mbuf_resize. rewrite Z.gtb_ltb.
  destruct (Z.ltb_spec (mb_size a) n), (Z.ltb_spec n (mb_size a)), (Z.geb_spec n (mb_len a));
    cbn [orb andb]; try lia; try (split_and!; [done..|intros; case_decide; lia]).
  all: rewrite decide_True by lia; destruct r as [k|]; cbn [MBUF_REALLOC];
    [|destruct (Z.eqb_spec n 0); [subst n|by split_and!]; assert (mb_len a = 0) as E0 by lia;
      split_and!; [split; cbn; rewrite ?E0; done|unfold content; cbn; by rewrite E0, !slice_nil|done|done]].
  - cbn [mb_len mb_size]. split_and!; [|rewrite take_ge by (unfold size in *; lia)|done|done].
    + split; cbn [mb_len mb_size mb_buf]; [lia|]. unfold size in *.
      rewrite length_app, length_map, length_seqZ, length_take. lia.
    + unfold content; cbn [mb_len mb_buf]. by rewrite slice_app_l by lia.
  - cbn [mb_len mb_size]. rewrite (seqZ_nil (size (mb_buf a))) by lia. simpl. rewrite app_nil_r.
    split_and!; [|unfold content; cbn [mb_len mb_buf]|done|done].
    + split; cbn [mb_len mb_size mb_buf]; [lia|]. unfold size in *. rewrite length_take; lia.
    + rewrite take_slice, Z2Nat.id by lia. by rewrite slice_slice by lia.
Qed.

(** *** Refinement: a buffer is a byte list *)

Inductive mop :=
| MInsert (off : Z) (data : list Z)
| MAppend (data : list Z)
| MRemove (n : Z)
| MResize (n : Z)
| MTrim
| MFree.

(** One call, with the answer of the allocator; [void] functions return 0. *)
Definition mop_run (r : option block) (a : mbuf) (op : mop) : outcome (mbuf * Z) :=
  match op with
  | MInsert off s => mbuf_insert r a off (Some s) (size s)
  | MAppend s => mbuf_append r a (Some s) (size s)
  | MRemove n => a ← mbuf_remove a n; mret (a, 0)
  | MResize n => mret (mbuf_resize r a n, 0)
  | MTrim => mret (mbuf_trim r a, 0)
  | MFree => mret (mbuf_free a, 0)
  end.

(** The byte list after the call, given what the call returned. *)
Definition mop_spec (c : list Z) (op : mop) (res : Z) : list Z :=
  let insert off s := if decide (res = size s) then slice c 0 off ++ s ++ slice c off (size c - off) else c in
  match op with
  | MInsert off s => insert off s
  | MAppend s => insert (size c) s
  | MRemove n => if decide (n <= size c) then slice c n (size c - n) else c
  | MResize _ | MTrim => c
  | MFree => []
  end.

Definition mop_valid (c : list Z) (op : mop) : Prop :=
  match op with
  | MInsert off s => 0 <= off <= size c /\ size c + size s <= FITS
  | MAppend s => size c + size s <= FITS
  | MRemove n | MResize n => 0 <= n
  | MTrim | MFree => True
  end.

(** Where the allocator may place an object, and what a null pointer means. *)
Definition alloc_ok (r : option block) : Prop :=
  match r with Some k => 0 < b_addr k <= SIZE_MAX - FITS | None => True end.
Definition addr_ok (a : mbuf) : Prop :=
  0 <= mb_addr a <= SIZE_MAX - FITS /\ (mb_addr a = 0 -> mb_size a = 0).

Lemma placed_addr r a a' : placed r a a' -> alloc_ok r -> addr_ok a -> addr_ok a'.
Proof.
  intros [[E1 E2]|(k & -> & E)] Hr Ha; unfold addr_ok in *; [by rewrite E1, E2|].
  simpl in Hr. rewrite E. lia.
Qed.

Lemma mbuf_resize_addr r a n : mbuf_wf a -> 0 <= n -> alloc_ok r -> addr_ok a -> addr_ok (mbuf_resize r a n).
Proof.
  intros [Hl Hs] Hn Hr [Ha H0]. unfold mbuf_resize, addr_ok. case_match eqn:E; [|done].
  destruct r as [k|]; cbn in *; [lia|]. destruct (Z.eqb_spec n 0); cbn; lia.
Qed.

Lemma insert_step r a off s :
  mbuf_wf a -> addr_ok a -> alloc_ok r -> 0 <= off <= size (content a) -> size (content a) + size s <= FITS ->
  exists a' res, mbuf_insert r a off (Some s) (size s) = Ret (a', res) /\
    mbuf_wf a' /\ addr_ok a' /\ content a' = mop_spec (content a) (MInsert off s) res /\
    (r <> None -> res = size s).
Proof.
  intros Hwf [Ha H0] Hr Ho Hf. rewrite size_content in * by done.
  destruct (mbuf_insert_spec r a off (Some s) (size s)) as (a' & res & E & Hwf' & Hpl & Hres);
    [done|done|done|done|lia|by intros ? [= ->]|].
  exists a', res. split_and!; [done|done|by eapply placed_addr|..].
  - destruct Hres as [(-> & x & _ & Hxs & Hc)|(-> & -> & _)].
    + simpl. rewrite decide_True by done. rewrite size_content by done.
      rewrite Hc, (Hxs s eq_refl). by rewrite slice_all.
    + simpl. case_decide as E0; [|done]. destruct s as [|? ?]; [|exfalso; size_lia].
      rewrite app_nil_l, (size_content a), <- (slice_app _ 0 off) by (done || lia).
      replace (off + (mb_len a - off)) with (size (content a)) by (rewrite size_content by done; lia).
      by rewrite slice_all.
  - intros Hrn. destruct Hres as [(-> & _)|(_ & _ & -> & _)]; done.
Qed.

(** C16: the buffers refine byte lists.  From a well-formed buffer, every call
    within the address space returns without a fault, keeps the buffer
    well-formed, changes its content as the list operation does, and, unless
    the allocator failed, stores everything it was given. *)
Theorem mbuf_refines_list r a op :
  mbuf_wf a -> addr_ok a -> alloc_ok r -> mop_valid (content a) op ->
  exists a' res, mop_run r a op = Ret (a', res) /\ mbuf_wf a' /\ addr_ok a' /\
    content a' = mop_spec (content a) op res /\
    (r <> None -> match op with MInsert _ s | MAppend s => res = size s | _ => True end).
Proof.
  intros Hwf Ha Hr Hv. pose proof Hwf as [Hl Hs].
  destruct op as [off s|s|n|n| |]; simpl in *.
  - destruct Hv; by apply insert_step.
  - unfold mbuf_append. rewrite <- (size_content a) by done. apply insert_step; (done || lia).
  - destruct (mbuf_remove_spec a n Hwf Hv) as (a' & -> & Hwf' & E1 & E2 & E3). simpl.
    eexists _, _; split_and!; [done|done|by unfold addr_ok; rewrite E1, E2| |done].
    by rewrite size_content.
  - destruct (mbuf_resize_spec r a n Hwf Hv) as (? & ? & _).
    eexists _, _; split_and!; [done|done|by apply mbuf_resize_addr|done|done].
  - unfold mbuf_trim. destruct (mbuf_resize_spec r a (mb_len a) Hwf) as (? & ? & _); [lia|].
    eexists _, _; split_and!; [done|done|apply mbuf_resize_addr; (done || lia)|done|done].
  - unfold mbuf_free. destruct (Z.eqb_spec (mb_addr a) 0) as [E|].
    + eexists _, _; split_and!; [done|done|done| |done].
      unfold content. destruct Ha as [_ H0]. specialize (H0 E).
      replace (mb_len a) with 0 by lia. apply slice_nil.
    + eexists _, _; split_and!; [done|by split|done|done|done].
Qed.

Definition sample_mbuf : mbuf := mk_mbuf 4096 (lit "GET /" ++ [0; 0]) 5 7.

Lemma mbuf_refines_list_witness :
  exists a' res, mop_run (Some (mk_block 8192 (fun _ => 255))) sample_mbuf (MInsert 4 (lit "abc")) = Ret (a', res) /\
    mbuf_wf a' /\ addr_ok a' /\
    content a' = mop_spec (lit "GET /") (MInsert 4 (lit "abc")) res /\ (Some (mk_block 8192 (fun _ => 255)) <> None -> res = 3).
Proof.
  apply (mbuf_refines_list (Some (mk_block 8192 (fun _ => 255))) sample_mbuf (MInsert 4 (lit "abc")));
    [split; [cbn; lia|reflexivity]|split; [cbv; intuition discriminate|cbn; lia]
    |cbv; intuition discriminate|cbv; intuition discriminate].
Defined.

Example mbuf_insert_grows :
  (let '(a', res) := match mop_run (Some (mk_block 8192 (fun _ => 255))) sample_mbuf (MInsert 4 (lit "abc")) with
     Ret x => x | Fault _ => (sample_mbuf, -1) end in (content a', mb_size a', res))
  = (lit "GET abc/", 12, 3).
Proof. vm_compute. reflexivity. Qed.
