(* ===== verification/Strs.v ===== *)
(** * Strings (mongoose.c, common/mg_str.c, common/str_util.c, util.c)

    A [char *] is an offset in an object; a [struct mg_str] is an offset, or
    [None] for a null pointer, and a length.  A C string argument that the code
    passes as a literal is the list of its characters without the terminator. *)

From Stdlib Require Import ZArith Lia String.
From stdpp Require Import base list numbers option.
From S2P Require Import Prelude.

Local Open Scope Z_scope.

(** ** The code *)

Record mg_str := mk_str { p : option Z; len : Z }.

#[export] Instance mg_str_eq_dec : EqDecision mg_str.
Proof. solve_decision. Defined.

(** The bytes a [mg_str] denotes in its object. *)
Definition str_bytes (b : list Z) (s : mg_str) : list Z :=
  match p s with Some i => slice b i (len s) | None => [] end.

(** A pointer is dereferenced: a null one faults. *)
Definition deref {A} (q : option Z) (K : Z -> outcome A) : outcome A :=
  match q with Some i => K i | None => Fault NullPointer end.

(** [strlen] of the string at offset [i]. *)
Definition strlen (b : list Z) (i : Z) : outcome Z :=
  loop (S (length b)) (fun k =>
    c ← rd b k; if c =? 0 then mret (inr (k - i)) else mret (inl (k + 1))) i.

(** [memcmp]: the difference of the first bytes that differ. *)
Definition memcmp (b1 : list Z) (i1 : Z) (b2 : list Z) (i2 n : Z) : outcome Z :=
  loop (S (Z.to_nat n)) (fun k =>
    if k <? n then
      x ← rd b1 (i1 + k); y ← rd b2 (i2 + k);
      if x =? y then mret (inl (k + 1)) else mret (inr (x - y))
    else mret (inr 0)) 0.

Definition mg_mk_str (b : list Z) (s : option Z) : outcome mg_str :=
  match s with
  | None => mret (mk_str None 0)
  | Some i => n ← strlen b i; mret (mk_str (Some i) n)
  end.

Definition mg_mk_str_n (s : option Z) (n : Z) : mg_str := mk_str s n.

(** A null pointer may be compared over zero bytes. *)
Definition memcmp_str (b : list Z) (q : option Z) (s2 : list Z) (n : Z) : outcome Z :=
  match q with Some i => memcmp b i s2 0 n | None => if n =? 0 then mret 0 else Fault NullPointer end.

Definition mg_vcmp (b : list Z) (str1 : mg_str) (str2 : list Z) : outcome Z :=
  let n2 := size str2 in let n1 := len str1 in
  r ← memcmp_str b (p str1) (str2 ++ [0]) (if n1 <? n2 then n1 else n2);
  if r =? 0 then mret (s32 (u64 (n1 - n2))) else mret r.

(** [tolower], in the C locale. *)
Definition tolower (c : Z) : Z := if (65 <=? c) && (c <=? 90) then c + 32 else c.
Definition lowercase (b : list Z) (i : Z) : outcome Z := c ← rd b i; mret (tolower c).

(** The count [n] may be larger than the objects; every turn reads one byte of
    the first, so its size bounds the turns. *)
Definition mg_ncasecmp (b1 : list Z) (i1 : Z) (b2 : list Z) (i2 n : Z) : outcome Z :=
  if n >? 0 then
    loop (S (length b1)) (fun '(s1, s2, n) =>
      x ← lowercase b1 s1; y ← lowercase b2 s2;
      let diff := x - y in
      if diff =? 0 then
        c ← rd b1 s1;
        if c =? 0 then mret (inr diff) else
        let n := n - 1 in
        if n >? 0 then mret (inl (s1 + 1, s2 + 1, n)) else mret (inr diff)
      else mret (inr diff)) (i1, i2, n)
  else mret 0.

Definition mg_casecmp (b1 : list Z) (i1 : Z) (b2 : list Z) (i2 : Z) : outcome Z :=
  mg_ncasecmp b1 i1 b2 i2 SIZE_MAX.

Definition mg_vcasecmp (b : list Z) (str1 : mg_str) (str2 : list Z) : outcome Z :=
  let n2 := size str2 in let n1 := len str1 in
  let n := if n1 <? n2 then n1 else n2 in
  r ← match p str1 with
      | Some i => mg_ncasecmp b i (str2 ++ [0]) 0 n
      | None => if n =? 0 then mret 0 else Fault NullPointer
      end;
  if r =? 0 then mret (s32 (u64 (n1 - n2))) else mret r.

Definition c_strnlen (b : list Z) (s maxlen : Z) : outcome Z :=
  loop (S (length b)) (fun l =>
    if l <? maxlen then c ← rd b (s + l); if c =? 0 then mret (inr l) else mret (inl (l + 1))
    else mret (inr l)) 0.

(** [strncmp(&b[i], find, n) == 0]: it stops at a terminator. *)
Definition strncmp_eq (b : list Z) (i : Z) (find : list Z) (n : Z) : outcome bool :=
  loop (S (Z.to_nat n)) (fun k =>
    if k <? n then
      x ← rd b (i + k); y ← rd (find ++ [0]) k;
      if x =? y then if x =? 0 then mret (inr true) else mret (inl (k + 1)) else mret (inr false)
    else mret (inr true)) 0.

Definition c_strnstr (b : list Z) (s : Z) (find : list Z) (slen : Z) : outcome (option Z) :=
  let find_length := size find in
  loop (S (Z.to_nat slen)) (fun i =>
    if i <? slen then
      if u64 (i + find_length) >? slen then mret (inr None) else
      e ← strncmp_eq b (s + i) find find_length;
      if e : bool then mret (inr (Some (s + i))) else mret (inl (i + 1))
    else mret (inr None)) 0.

(** [strchr(delims, c) != NULL]: the terminator of [delims] is found too. *)
Definition strchr_in (delims : list Z) (c : Z) : bool := (c =? 0) || existsb (Z.eqb c) delims.

Definition mg_skip (b : list Z) (s e : Z) (delims : list Z) : outcome (mg_str * Z) :=
  let v_p := s in
  s ← scan_while (fun c => negb (strchr_in delims c)) b e s;
  let v_len := s - v_p in
  s ← scan_while (strchr_in delims) b e s;
  mret (mk_str (Some v_p) v_len, s).

(** [memchr(&b[i], c, n)] and [strchr(&b[i], c)]. *)
Definition memchr (b : list Z) (i c n : Z) : outcome (option Z) :=
  loop (S (Z.to_nat n)) (fun k =>
    if k <? n then x ← rd b (i + k); if x =? c then mret (inr (Some (i + k))) else mret (inl (k + 1))
    else mret (inr None)) 0.

Definition strchr (b : list Z) (i c : Z) : outcome (option Z) :=
  loop (S (length b)) (fun k =>
    x ← rd b k;
    if x =? c then mret (inr (Some k)) else if x =? 0 then mret (inr None) else mret (inl (k + 1))) i.

(** The entry, the value after an equals sign when the caller asks for it, and
    the rest of the list; [None] at the end of the list. *)
Definition mg_next_comma_list_entry (b : list Z) (list : option Z) (want_eq : bool) :
    outcome (option (Z * mg_str * option mg_str)) :=
  match list with
  | None => mret None
  | Some l =>
      c ← rd b l;
      if c =? 0 then mret None else
      comma ← strchr b l 44;
      '(list, vlen) ← match comma with
        | Some k => mret (k + 1, k - l)
        | None => n ← strlen b l; mret (l + n, n)
        end;
      if want_eq then
        eq ← memchr b l 61 vlen;
        match eq with
        | Some k => let q := k + 1 in
            mret (Some (list, mk_str (Some l) (q - l - 1), Some (mk_str (Some q) (l + vlen - q))))
        | None => mret (Some (list, mk_str (Some l) vlen, Some (mk_str None 0)))
        end
      else mret (Some (list, mk_str (Some l) vlen, None))
  end.

(** [mg_match_prefix_n]: the pattern is the [pl] bytes at [po] of [pm], the
    subject the [sl] bytes at [so] of [sm].  Every recursive call is on a
    shorter pattern; [fuel] is its length. *)
Fixpoint match_prefix (fuel : nat) (pm : list Z) (po pl : Z) (sm : list Z) (so sl : Z) : outcome Z :=
  match fuel with
  | O => Fault OutOfFuel
  | S fuel =>
      or_str ← memchr pm po 124 pl;
      match or_str with
      | Some o =>
          res ← match_prefix fuel pm po (o - po) sm so sl;
          if res >? 0 then mret res
          else match_prefix fuel pm (o + 1) (po + pl - (o + 1)) sm so sl
      | None =>
          loop (S (Z.to_nat pl)) (fun '(i, j) =>
            if negb (i <? pl) then mret (inr (s32 j)) else
            c ← rd pm (po + i);
            if (c =? 63) && negb (j =? sl) then mret (inl (i + 1, j + 1))
            else if c =? 36 then mret (inr (if j =? sl then s32 j else -1))
            else if c =? 42 then
              let i := i + 1 in
              c ← rd pm (po + i);
              '(i, len) ← (if c =? 42 then mret (i + 1, u64 (sl - j))
                else
                  len ← loop (S (length sm)) (fun len =>
                    if u64 (j + len) =? sl then mret (inr len) else
                    c ← rd sm (so + len);
                    if c =? 47 then mret (inr len) else mret (inl (len + 1))) 0;
                  mret (i, len));
              if i =? pl then mret (inr (s32 (u64 (j + len)))) else
              '(res, len) ← loop (S (Z.to_nat len)) (fun len =>
                  res ← match_prefix fuel pm (po + i) (u64 (pl - i)) sm (so + j + len) (u64 (sl - j - len));
                  if (res =? -1) && (len >? 0) then mret (inl (len - 1))
                  else mret (inr (res, len))) len;
              mret (inr (if res =? -1 then -1 else s32 (u64 (j + res + len))))
            else
              x ← lowercase pm (po + i); y ← lowercase sm (so + j);
              if negb (x =? y) then mret (inr (-1)) else mret (inl (i + 1, j + 1))) (0, 0)
      end
  end.

Definition mg_match_prefix_n (pm : list Z) (pattern : mg_str) (sm : list Z) (str : mg_str) : outcome Z :=
  deref (p pattern) (fun po => deref (p str) (fun so =>
    match_prefix (S (Z.to_nat (len pattern))) pm po (len pattern) sm so (len str))).

Definition mg_match_prefix (pattern : list Z) (pattern_len : Z) (sm : list Z) (so : Z) : outcome Z :=
  s ← mg_mk_str sm (Some so);
  mg_match_prefix_n (pattern ++ [0]) (mk_str (Some 0) (u64 pattern_len)) sm s.

Definition match_lit (pat s : string) : outcome Z := mg_match_prefix (lit pat) (size (lit pat)) (lit s ++ [0]) 0.

Example match_ex1 : match_lit "a|b*$" "Boo" = Ret 3. Proof. vm_compute. reflexivity. Qed.
Example match_ex2 : match_lit "**.cgi$|**.php$" "/x/y.php" = Ret 8. Proof. vm_compute. reflexivity. Qed.
Example match_ex3 : match_lit "/api/?" "/api/v1" = Ret 6. Proof. vm_compute. reflexivity. Qed.
(** The star looks for the slash from the start of the subject, not from the
    position it has reached. *)
Example match_star_slash : match_lit "/*.html" "/index.html" = Ret (-1). Proof. vm_compute. reflexivity. Qed.
Example match_star_noslash : match_lit "*.html" "index.html" = Ret 10. Proof. vm_compute. reflexivity. Qed.
(** A literal pattern is compared past the end of a subject that is not
    followed by a terminator. *)
Example match_past_end :
  mg_match_prefix_n (lit "/admin") (mk_str (Some 0) 6) (lit "/admin HTTP/1.1") (mk_str (Some 0) 1) = Ret 6.
Proof. vm_compute. reflexivity. Qed.

(** ** Comparisons *)

Lemma nul_free_rd (s : list Z) k v : 0 <= k < size s -> 0 ∉ s -> s !! Z.to_nat k = Some v -> v <> 0.
Proof. intros Hk Hn Hv ->. by apply Hn, (list_elem_of_lookup_2 _ _ _ Hv). Qed.

(** Two slices compared element by element, up to a map of the bytes. *)
Lemma slice_cmp_step (f : Z -> Z) b1 i1 b2 i2 k n x y :
  0 <= i1 -> 0 <= i2 -> 0 <= k < n ->
  b1 !! Z.to_nat (i1 + k) = Some x -> b2 !! Z.to_nat (i2 + k) = Some y ->
  (map f (slice b1 (i1 + k) (n - k)) = map f (slice b2 (i2 + k) (n - k)) <->
   f x = f y /\ map f (slice b1 (i1 + (k + 1)) (n - (k + 1))) = map f (slice b2 (i2 + (k + 1)) (n - (k + 1)))).
Proof.
  intros H1 H2 Hk Hx Hy.
  rewrite (slice_cons b1 (i1 + k) (n - k) x), (slice_cons b2 (i2 + k) (n - k) y) by (done || lia).
  replace (i1 + k + 1) with (i1 + (k + 1)) by lia. replace (i2 + k + 1) with (i2 + (k + 1)) by lia.
  replace (n - k - 1) with (n - (k + 1)) by lia. simpl. split; [by intros [=]|by intros [-> ->]].
Qed.

Lemma memcmp_spec b1 i1 b2 i2 n :
  0 <= i1 -> 0 <= i2 -> 0 <= n -> i1 + n <= size b1 -> i2 + n <= size b2 ->
  bytes b1 -> bytes b2 ->
  wp (memcmp b1 i1 b2 i2 n) (fun r => -255 <= r <= 255 /\ (r = 0 <-> slice b1 i1 n = slice b2 i2 n)).
Proof.
  intros H1 H2 Hn Hb1 Hb2 Hy1 Hy2. unfold memcmp.
  apply wp_loop with (m := fun k => Z.to_nat (n - k))
    (I := fun k => 0 <= k <= n /\ (slice b1 i1 n = slice b2 i2 n <->
       map id (slice b1 (i1 + k) (n - k)) = map id (slice b2 (i2 + k) (n - k))));
    [|rewrite !map_id, !Z.add_0_r, Z.sub_0_r; split; [lia|done]|lia].
  intros k [Hk E]. wp_step.
  - destruct (rd_total b1 (i1 + k)) as (x & Hx & ->); [lia|].
    destruct (rd_total b2 (i2 + k)) as (y & Hy & ->); [lia|]. cbn [mbind outcome_bind].
    rewrite (slice_cmp_step id b1 i1 b2 i2 k n x y) in E by (done || lia). unfold id in E at 1 2.
    wp_step; apply wp_mret.
    + split; [|lia]. split; [lia|]. tauto.
    + assert (is_byte x) by (by eapply Forall_lookup_1 in Hx). assert (is_byte y) by (by eapply Forall_lookup_1 in Hy).
      unfold is_byte in *. split; [lia|]. split; [lia|]. tauto.
  - apply wp_mret. replace (n - k) with 0 in E by lia. rewrite !slice_nil in E. split; [lia|]. split; tauto.
Qed.

(** A [mg_str] whose bytes lie in [b]. *)
Definition str_in (b : list Z) (s : mg_str) : Prop :=
  match p s with Some i => 0 <= i /\ 0 <= len s /\ i + len s <= size b | None => len s = 0 end.

Lemma size_str_bytes b s : str_in b s -> size (str_bytes b s) = len s.
Proof. unfold str_in, str_bytes. destruct (p s); [|by intros ->]. intros. apply size_slice; lia. Qed.

Lemma s32_u64_small z : - 2 ^ 31 <= z < 2 ^ 31 -> s32 (u64 z) = z.
Proof. intros. unfold s32, sN, u64. change (2 ^ (32 - 1)) with (2 ^ 31). euclid. Qed.

Lemma len_str_in b s : str_in b s -> 0 <= len s.
Proof. unfold str_in. destruct (p s); lia. Qed.

(** [mg_vcmp] answers 0 exactly on equal strings. *)
Lemma mg_vcmp_spec b s lit :
  bytes b -> bytes lit -> str_in b s -> len s < 2 ^ 31 -> size lit < 2 ^ 31 ->
  wp (mg_vcmp b s lit) (fun r => r = 0 <-> str_bytes b s = lit).
Proof.
  intros Hb Hl Hs H1 H2. unfold mg_vcmp. pose proof (len_str_in b s Hs). pose proof (size_nonneg lit).
  set (n := if len s <? size lit then len s else size lit).
  assert (0 <= n <= len s /\ n <= size lit /\ (n = len s \/ n = size lit)) as (Hn1 & Hn2 & Hn3)
    by (unfold n; case_match eqn:E; lia).
  assert (bytes (lit ++ [0])) by (apply Forall_app; split; [done|by apply Forall_singleton]).
  apply wp_bind, wp_mono with (P := fun r => -255 <= r <= 255 /\
    (r = 0 <-> slice (str_bytes b s) 0 n = slice (lit ++ [0]) 0 n)).
  - unfold memcmp_str, str_bytes, str_in in *. destruct (p s) as [i|].
    + eapply wp_mono; [apply memcmp_spec; (done || size_lia)|]. intros r [Hr E]; split; [done|].
      rewrite slice_slice, Z.add_0_r by lia. done.
    + replace n with 0 by lia. apply wp_mret. by rewrite !slice_nil.
  - intros r [Hr E]. pose proof (size_str_bytes b s Hs) as Hsz.
    rewrite (slice_app_l lit) in E by lia. apply wp_if_eqb; intros Hr0; apply wp_mret.
    + rewrite s32_u64_small by lia. apply proj1 in E. specialize (E Hr0). split.
      * intros E0. replace n with (size (str_bytes b s)) in E at 1 by lia.
        replace n with (size lit) in E by lia. by rewrite !slice_all in E.
      * intros <-. lia.
    + split; [done|]. intros Eq. exfalso. apply Hr0, E. by rewrite Eq.
Qed.

Lemma mg_vcmp_eq b s lit :
  bytes b -> bytes lit -> str_in b s -> len s < 2 ^ 31 -> size lit < 2 ^ 31 ->
  (r ← mg_vcmp b s lit; mret (r =? 0)) = Ret (bool_decide (str_bytes b s = lit)).
Proof.
  intros. apply wp_eq, wp_bind. eapply wp_mono; [by apply mg_vcmp_spec|].
  intros r E; cbn beta in E. apply wp_mret. destruct (Z.eqb_spec r 0).
  - by rewrite bool_decide_eq_true_2 by tauto.
  - by rewrite bool_decide_eq_false_2 by tauto.
Qed.

Lemma wp_lowercase b i (Q : Z -> Prop) :
  0 <= i < size b -> (forall v, b !! Z.to_nat i = Some v -> Q (tolower v)) -> wp (lowercase b i) Q.
Proof. intros Hi HQ. unfold lowercase. apply wp_bind, wp_rd; [done|]. intros v Hv. by apply wp_mret, HQ. Qed.

Lemma tolower_nul v : tolower v = tolower 0 -> v = 0.
Proof.
  unfold tolower. simpl. destruct ((65 <=? v) && (v <=? 90)) eqn:E; [lia|done].
Qed.

Lemma tolower_byte v : is_byte v -> is_byte (tolower v).
Proof. unfold is_byte, tolower. case_match; lia. Qed.

(** Case-insensitive equality of the first [n] bytes, when the second string
    has no terminator among them. *)
Lemma mg_ncasecmp_spec b1 i1 b2 i2 n :
  0 <= i1 -> 0 <= i2 -> 0 <= n -> i1 + n <= size b1 -> i2 + n <= size b2 ->
  0 ∉ slice b2 i2 n ->
  wp (mg_ncasecmp b1 i1 b2 i2 n)
    (fun r => r = 0 <-> map tolower (slice b1 i1 n) = map tolower (slice b2 i2 n)).
Proof.
  intros H1 H2 Hn Hb1 Hb2 Hnul. unfold mg_ncasecmp. rewrite Z.gtb_ltb. wp_step; cycle 1.
  { apply wp_mret. replace n with 0 by lia. by rewrite !slice_nil. }
  apply wp_loop with (m := fun '(_, _, r) => Z.to_nat r)
    (I := fun '(s1, s2, r) => exists k, 0 <= k < n /\ s1 = i1 + k /\ s2 = i2 + k /\ r = n - k /\
      (map tolower (slice b1 i1 n) = map tolower (slice b2 i2 n) <->
       map tolower (slice b1 (i1 + k) (n - k)) = map tolower (slice b2 (i2 + k) (n - k)))).
  - intros [[s1 s2] r] (k & Hk & -> & -> & -> & E).
    destruct (rd_total b1 (i1 + k)) as (x & Hx & Hrx); [lia|].
    destruct (rd_total b2 (i2 + k)) as (y & Hy & Hry); [lia|].
    unfold lowercase. rewrite Hrx, Hry. cbn [mbind outcome_bind mret outcome_ret].
    rewrite (slice_cmp_step tolower b1 i1 b2 i2 k n x y) in E by (done || lia).
    assert (y <> 0) as Hy0.
    { intros ->. apply Hnul. apply list_elem_of_lookup. exists (Z.to_nat k). by rewrite lookup_slice by lia. }
    wp_step.
    + wp_step; [subst x; assert (y = 0) by (apply tolower_nul; lia); done|].
      rewrite Z.gtb_ltb. wp_step; apply wp_mret.
      * split; [|lia]. exists (k + 1). split_and!; [lia..|]. assert (tolower x = tolower y) by lia. tauto.
      * replace (n - (k + 1)) with 0 in E by lia. rewrite !slice_nil in E.
        assert (tolower x = tolower y) by lia. split; [|lia]. intros _. by apply E.
    + apply wp_mret. split; [lia|]. intros Eq. apply E in Eq. lia.
  - exists 0. rewrite !Z.add_0_r, Z.sub_0_r. split_and!; (done || lia).
  - unfold size in *. lia.
Qed.

Lemma mg_vcasecmp_spec b s lit :
  str_in b s -> len s < 2 ^ 31 -> size lit < 2 ^ 31 -> 0 ∉ lit ->
  wp (mg_vcasecmp b s lit) (fun r => r = 0 <-> map tolower (str_bytes b s) = map tolower lit).
Proof.
  intros Hs H1 H2 Hnul. unfold mg_vcasecmp. pose proof (len_str_in b s Hs). pose proof (size_nonneg lit).
  set (n := if len s <? size lit then len s else size lit).
  assert (0 <= n <= len s /\ n <= size lit /\ (n = len s \/ n = size lit)) as (Hn1 & Hn2 & Hn3)
    by (unfold n; case_match eqn:E; lia).
  assert (slice (lit ++ [0]) 0 n = slice lit 0 n) as El by (apply slice_app_l; lia).
  apply wp_bind, wp_mono with (P := fun r =>
    (r = 0 <-> map tolower (slice (str_bytes b s) 0 n) = map tolower (slice lit 0 n))).
  - unfold str_bytes, str_in in *. destruct (p s) as [i|].
    + eapply wp_mono; [apply mg_ncasecmp_spec; try size_lia|].
      * rewrite El. intros Hin. apply Hnul. unfold slice in Hin. simpl in Hin.
        rewrite drop_0 in Hin. eapply elem_of_submseteq; [done|]. apply sublist_submseteq, sublist_take.
      * intros r E. by rewrite slice_slice, Z.add_0_r, El in * by lia.
    + replace n with 0 by lia. apply wp_mret. by rewrite !slice_nil.
  - intros r E. pose proof (size_str_bytes b s Hs) as Hsz. apply wp_if_eqb; intros Hr0; apply wp_mret.
    + rewrite s32_u64_small by lia. apply proj1 in E. specialize (E Hr0). split.
      * intros E0. replace n with (size (str_bytes b s)) in E at 1 by lia.
        replace n with (size lit) in E by lia. by rewrite !slice_all in E.
      * intros E0. apply (f_equal length) in E0. rewrite !length_map in E0. unfold size in *. lia.
    + split; [done|]. intros E0. exfalso. apply Hr0, E. by rewrite !map_slice, E0.
Qed.

(** ** Searching *)

Lemma strncmp_eq_spec b i find :
  0 <= i -> i + size find <= size b -> 0 ∉ find ->
  strncmp_eq b i find (size find) = Ret (bool_decide (slice b i (size find) = find)).
Proof.
  intros Hi Hb Hnul. apply wp_eq. unfold strncmp_eq. set (n := size find).
  assert (0 <= n) by apply size_nonneg.
  apply wp_mono with (P := fun r : bool => if r then slice b i n = find else slice b i n <> find).
  2:{ intros [] E; [by apply bool_decide_eq_true_2|by apply bool_decide_eq_false_2]. }
  apply wp_loop with (m := fun k => Z.to_nat (n - k))
    (I := fun k => 0 <= k <= n /\ (slice b i n = find <->
       map id (slice b (i + k) (n - k)) = map id (slice find (0 + k) (n - k))));
    [|rewrite !map_id, !Z.add_0_r, Z.sub_0_r; unfold n; rewrite slice_all; split; [lia|done]|lia].
  intros k [Hk E]. wp_step.
  - destruct (rd_total b (i + k)) as (x & Hx & ->); [lia|].
    destruct (rd_total find k) as (y & Hy & Hr); [lia|].
    rewrite rd_app_l by lia. rewrite Hr. cbn [mbind outcome_bind].
    rewrite (slice_cmp_step id b i find 0 k n x y) in E by (done || lia). unfold id in E at 1 2.
    wp_step.
    + wp_step; [exfalso; apply (nul_free_rd find k y); (done || lia)|]. apply wp_mret. split; [|lia]. split; [lia|]. tauto.
    + apply wp_mret. tauto.
  - apply wp_mret. replace (n - k) with 0 in E by lia. rewrite !slice_nil in E. tauto.
Qed.

(** [find] occurs in the [slen] bytes at [s], at the relative position [k]. *)
Definition occurs_at (b : list Z) (s : Z) (find : list Z) (slen k : Z) : Prop :=
  0 <= k < slen /\ k + size find <= slen /\ slice b (s + k) (size find) = find.

Lemma c_strnstr_spec b s find slen :
  0 <= s -> 0 <= slen -> s + slen <= size b -> 0 ∉ find -> slen + size find < 2 ^ 64 ->
  wp (c_strnstr b s find slen) (fun r => match r with
    | Some q => exists k, q = s + k /\ occurs_at b s find slen k /\ forall k', k' < k -> ~ occurs_at b s find slen k'
    | None => forall k, ~ occurs_at b s find slen k
    end).
Proof.
  intros Hs Hl Hb Hnul Hov. pose proof (size_nonneg find). unfold c_strnstr.
  apply wp_loop with (m := fun i => Z.to_nat (slen - i))
    (I := fun i => 0 <= i <= slen /\ forall k', k' < i -> ~ occurs_at b s find slen k');
    [|split; [lia|intros k' ? [? ?]; lia]|lia].
  intros i [Hi HI]. wp_step; [|apply wp_mret; intros k Hk; apply (HI k); [unfold occurs_at in Hk; lia|done]].
  unfold u64. rewrite Z.mod_small, Z.gtb_ltb by lia. wp_step.
  - apply wp_mret. intros k Hk. apply (HI k); [unfold occurs_at in Hk; lia|done].
  - rewrite strncmp_eq_spec by (done || lia). cbn [mbind outcome_bind].
    case_bool_decide as E; apply wp_mret.
    + exists i. split_and!; [done|unfold occurs_at; split_and!; (done || lia)|done].
    + split; [|lia]. split; [lia|]. intros k' Hk' Ho. destruct (decide (k' = i)) as [->|].
      * by destruct Ho as (_ & _ & ?).
      * apply (HI k'); [lia|done].
Qed.

(** [c_strnstr] returns the first occurrence of [find] in the [slen] bytes
    at [s], or a null pointer when there is none, and reads only those bytes. *)
Theorem c_strnstr_first b s find slen :
  0 <= s -> 0 <= slen -> s + slen <= size b -> 0 ∉ find -> slen + size find < 2 ^ 64 ->
  exists r, c_strnstr b s find slen = Ret r /\ match r with
    | Some q => exists k, q = s + k /\ occurs_at b s find slen k /\ forall k', k' < k -> ~ occurs_at b s find slen k'
    | None => forall k, ~ occurs_at b s find slen k
    end.
Proof. apply c_strnstr_spec. Qed.

Lemma c_strnstr_first_witness :
  exists r, c_strnstr (lit "--ab--abc") 2 (lit "abc") 7 = Ret r /\ match r with
    | Some q => exists k, q = 2 + k /\ occurs_at (lit "--ab--abc") 2 (lit "abc") 7 k /\
        forall k', k' < k -> ~ occurs_at (lit "--ab--abc") 2 (lit "abc") 7 k'
    | None => forall k, ~ occurs_at (lit "--ab--abc") 2 (lit "abc") 7 k
    end.
Proof.
  apply (c_strnstr_first (lit "--ab--abc") 2 (lit "abc") 7); [lia|lia|discriminate| |reflexivity].
  apply (bool_decide_eq_true_1 _); vm_compute; reflexivity.
Defined.

(** A C string at offset [i]: [n] bytes without a terminator, then one. *)
Definition cstring (b : list Z) (i n : Z) : Prop :=
  0 <= i /\ 0 <= n /\ i + n < size b /\ (0 ∉ slice b i n) /\ b !! Z.to_nat (i + n) = Some 0.

Lemma cstring_nonzero b i n k v : cstring b i n -> 0 <= k < n -> b !! Z.to_nat (i + k) = Some v -> v <> 0.
Proof.
  intros (Hi & Hn & Hb & Hnul & _) Hk Hv ->. apply Hnul, list_elem_of_lookup.
  exists (Z.to_nat k). by rewrite lookup_slice by lia.
Qed.

Lemma strlen_spec b i n : cstring b i n -> strlen b i = Ret n.
Proof.
  intros Hc. pose proof Hc as (Hi & Hn & Hb & Hnul & H0). apply wp_eq. unfold strlen.
  apply wp_loop with (m := fun k => Z.to_nat (i + n - k)) (I := fun k => i <= k <= i + n);
    [|lia|unfold size in *; lia].
  intros k Hk. destruct (rd_total b k) as (v & Hv & ->); [lia|]. cbn [mbind outcome_bind].
  destruct (decide (k = i + n)) as [->|].
  - assert (v = 0) as -> by congruence. apply wp_mret. lia.
  - wp_step; apply wp_mret; [|lia].
    exfalso. apply (cstring_nonzero b i n (k - i) v Hc); [lia| |done]. by replace (i + (k - i)) with k by lia.
Qed.

Lemma wp_memchr b i c n (Q : option Z -> Prop) :
  0 <= i -> 0 <= n -> i + n <= size b ->
  (forall k, 0 <= k < n -> b !! Z.to_nat (i + k) = Some c -> c ∉ slice b i k -> Q (Some (i + k))) ->
  (c ∉ slice b i n -> Q None) -> wp (memchr b i c n) Q.
Proof.
  intros Hi Hn Hb HS HN. unfold memchr.
  apply wp_loop with (m := fun k => Z.to_nat (n - k)) (I := fun k => 0 <= k <= n /\ c ∉ slice b i k);
    [|rewrite slice_nil; split; [lia|apply not_elem_of_nil]|lia].
  intros k [Hk Hnot]. wp_step.
  - destruct (rd_total b (i + k)) as (x & Hx & ->); [lia|]. cbn [mbind outcome_bind].
    wp_step; apply wp_mret; [subst; apply HS; (done || lia)|]. split; [|lia]. split; [lia|].
    rewrite (slice_snoc b i k x) by (done || lia). intros [?|E]%elem_of_app; [done|].
    apply list_elem_of_singleton in E. done.
  - apply wp_mret. replace n with k in * by lia. by apply HN.
Qed.

(** ** Glob patterns *)

(** A pattern of [pl] bytes without a terminator; the byte after it, which the
    code looks at behind a star, is not another star. *)
Definition pattern_at (pm : list Z) (po pl : Z) : Prop :=
  0 <= po /\ 0 <= pl < 2 ^ 31 /\ po + pl < size pm /\ (0 ∉ slice pm po pl) /\ pm !! Z.to_nat (po + pl) <> Some 42.

Lemma slice_sub (b : list Z) i n j m x :
  0 <= i -> 0 <= j -> 0 <= m -> j + m <= n -> x ∉ slice b i n -> x ∉ slice b (i + j) m.
Proof.
  intros ? ? ? ? Hx Hin. apply Hx. rewrite <- (slice_slice b i n j m) in Hin by lia.
  unfold slice at 1 in Hin. apply list_elem_of_lookup in Hin as [k Hk].
  rewrite lookup_take in Hk. case_decide; [|done]. rewrite lookup_drop in Hk.
  by apply list_elem_of_lookup_2 in Hk.
Qed.

Lemma pattern_suffix pm po pl i : pattern_at pm po pl -> 0 <= i <= pl -> pattern_at pm (po + i) (pl - i).
Proof.
  intros (Ho & Hl & Hs & Hn & Hc) Hi. split_and!; try lia.
  - apply (slice_sub pm po pl); (done || lia).
  - by replace (po + i + (pl - i)) with (po + pl) by lia.
Qed.

Lemma pattern_nonzero pm po pl i c :
  pattern_at pm po pl -> 0 <= i < pl -> pm !! Z.to_nat (po + i) = Some c -> c <> 0.
Proof.
  intros (Ho & Hl & Hs & Hn & Hc) Hi Hv ->. apply Hn, list_elem_of_lookup.
  exists (Z.to_nat i). by rewrite lookup_slice by lia.
Qed.

Lemma cstring_suffix b i n k : cstring b i n -> 0 <= k <= n -> cstring b (i + k) (n - k).
Proof.
  intros (Hi & Hn & Hb & Hnul & H0) Hk. split_and!; try lia.
  - apply (slice_sub b i n); (done || lia).
  - by replace (i + k + (n - k)) with (i + n) by lia.
Qed.

Lemma u64_small z : 0 <= z < 2 ^ 64 -> u64 z = z.
Proof. apply Z.mod_small. Qed.

Lemma s32_small z : - 2 ^ 31 <= z < 2 ^ 31 -> s32 z = z.
Proof. apply (sN_small 32); lia. Qed.

(** The length a single star takes at first: up to a slash or the end. *)
Lemma star_len_spec sm so sl j :
  cstring sm so sl -> sl < 2 ^ 31 -> 0 <= j <= sl ->
  wp (loop (S (length sm)) (fun len =>
        if u64 (j + len) =? sl then mret (inr len) else
        c ← rd sm (so + len);
        if c =? 47 then mret (inr len) else mret (inl (len + 1))) 0)
    (fun len => 0 <= len <= sl - j).
Proof.
  intros (Hso & Hsl & Hsz & _ & _) Hl Hj.
  apply wp_loop with (m := fun len => Z.to_nat (sl - j - len)) (I := fun len => 0 <= len <= sl - j);
    [|lia|unfold size in *; lia].
  intros len Hlen. rewrite u64_small by lia. wp_step; [apply wp_mret; lia|].
  apply wp_bind, wp_rd; [lia|]. intros c Hc. wp_step; apply wp_mret; lia.
Qed.

Lemma match_prefix_spec fuel pm po pl sm so sl :
  pattern_at pm po pl -> cstring sm so sl -> sl < 2 ^ 31 -> (Z.to_nat pl < fuel)%nat ->
  wp (match_prefix fuel pm po pl sm so sl) (fun r => -1 <= r <= sl).
Proof.
  revert po pl so sl. induction fuel as [|fuel IH]; intros po pl so sl Hp Hc Hsl Hf; [lia|].
  pose proof Hp as (Hpo & Hpl & Hps & Hpn & Hp42). pose proof Hc as (Hso & Hs0 & Hsz & _ & Hs00).
  cbn [match_prefix]. apply wp_bind, wp_memchr; [lia..| |].
  { intros k Hk Hbar Hnb. apply wp_bind. eapply wp_mono; [apply IH; [|done|done|lia]|].
    - split_and!; try lia.
      + rewrite <- (Z.add_0_r po). apply (slice_sub pm po pl); (done || lia).
      + replace (po + (po + k - po)) with (po + k) by lia. congruence.
    - intros r Hr. wp_step; [by apply wp_mret|].
      eapply wp_mono; [apply IH; [|done|done|lia]|by intros].
      replace (po + k + 1) with (po + (k + 1)) by lia.
      replace (po + pl - (po + (k + 1))) with (pl - (k + 1)) by lia. apply pattern_suffix; (done || lia). }
  intros _.
  apply wp_loop with (m := fun '(i, _) => Z.to_nat (pl - i)) (I := fun '(i, j) => 0 <= i <= pl /\ 0 <= j <= sl);
    [|lia|lia].
  intros [i j] [Hi Hj]. destruct (Z.ltb_spec i pl); cbn [negb]; [|apply wp_mret; rewrite s32_small; lia].
  apply wp_bind, wp_rd; [lia|]. intros c Hcc.
  apply wp_if; intros E1; [apply wp_mret; lia|].
  wp_step; [apply wp_mret; destruct (j =? sl); [rewrite s32_small|]; lia|].
  wp_step.
  - apply wp_bind, wp_rd; [lia|]. intros c2 Hc2.
    apply wp_bind, wp_mono with (P := fun '(i', len) => i < i' <= pl /\ 0 <= len <= sl - j).
    { wp_step; [apply wp_mret; rewrite u64_small by lia; assert (i + 1 <> pl) by (intros <-; congruence); lia|].
      apply wp_bind. eapply wp_mono; [by apply star_len_spec|]. intros len Hlen; cbn beta in Hlen. apply wp_mret. lia. }
    intros [i' len] [Hi' Hlen]. wp_step; [apply wp_mret; rewrite s32_u64_small; lia|].
    apply wp_bind, wp_mono with (P := fun '(res, len) => 0 <= len <= sl - j /\ -1 <= res <= sl - j - len).
    + apply wp_loop with (m := fun len => Z.to_nat len) (I := fun len => 0 <= len <= sl - j); [|lia|lia].
      intros l Hl. rewrite !u64_small by lia. apply wp_bind. eapply wp_mono; [apply IH; [| |lia|lia]|].
      * apply pattern_suffix; (done || lia).
      * replace (so + j + l) with (so + (j + l)) by lia. replace (sl - j - l) with (sl - (j + l)) by lia.
        apply cstring_suffix; (done || lia).
      * intros r Hr; cbn beta in Hr. apply wp_if; intros E; apply wp_mret; [|lia].
        apply andb_true_iff in E as [_ E]. lia.
    + intros [res l] [Hl Hr]. apply wp_mret. destruct (Z.eqb_spec res (-1)); [lia|]. rewrite s32_u64_small; lia.
  - apply wp_bind, wp_lowercase; [lia|]. intros x Hx. apply wp_bind, wp_lowercase; [lia|]. intros y Hy.
    apply wp_if; intros E; apply wp_mret; [lia|]. split; [|lia]. split; [lia|].
    destruct (decide (j = sl)) as [->|]; [|lia]. exfalso.
    rewrite Hs00 in Hy. injection Hy as <-. apply negb_false_iff, Z.eqb_eq, tolower_nul in E.
    apply (pattern_nonzero pm po pl i x); (done || lia).
Qed.

(** Matching a subject that is a C string against a pattern returns, reads
    neither of them out of its object, and answers -1 or a number of bytes that
    is at most the length of the subject. *)
Theorem mg_match_prefix_safe pm pattern sm str po so :
  p pattern = Some po -> p str = Some so -> pattern_at pm po (len pattern) ->
  cstring sm so (len str) -> len str < 2 ^ 31 ->
  exists r, mg_match_prefix_n pm pattern sm str = Ret r /\ -1 <= r <= len str.
Proof.
  intros Hp Hs Hpat Hc Hl. unfold mg_match_prefix_n, deref. rewrite Hp, Hs.
  apply match_prefix_spec; [done|done|done|lia].
Qed.

Lemma mg_match_prefix_safe_witness :
  exists r, mg_match_prefix_n (lit "**.shtml$|**.shtm$" ++ [0]) (mk_str (Some 0) 18)
    (lit "/a/b.shtm" ++ [0]) (mk_str (Some 0) 9) = Ret r /\ -1 <= r <= 9.
Proof.
  apply (mg_match_prefix_safe (lit "**.shtml$|**.shtm$" ++ [0]) (mk_str (Some 0) 18)
    (lit "/a/b.shtm" ++ [0]) (mk_str (Some 0) 9) 0 0); [reflexivity|reflexivity| | |reflexivity].
  - apply (bool_decide_eq_true_1 _); vm_compute; reflexivity.
  - apply (bool_decide_eq_true_1 _); vm_compute; reflexivity.
Defined.

(** ** Comma separated lists *)

Lemma wp_strchr b i n c (Q : option Z -> Prop) :
  cstring b i n -> c <> 0 ->
  (forall k, 0 <= k < n -> b !! Z.to_nat (i + k) = Some c -> c ∉ slice b i k -> Q (Some (i + k))) ->
  (c ∉ slice b i n -> Q None) -> wp (strchr b i c) Q.
Proof.
  intros Hc Hc0 HS HN. pose proof Hc as (Hi & Hn & Hb & _ & H0). unfold strchr.
  apply wp_loop with (m := fun k => Z.to_nat (i + n - k)) (I := fun k => i <= k <= i + n /\ c ∉ slice b i (k - i));
    [|rewrite Z.sub_diag, slice_nil; split; [lia|apply not_elem_of_nil]|unfold size in *; lia].
  intros k [Hk Hnot]. destruct (rd_total b k) as (x & Hx & ->); [lia|]. cbn [mbind outcome_bind].
  destruct (decide (k = i + n)) as [->|].
  - assert (x = 0) as -> by congruence. destruct (Z.eqb_spec 0 c); [lia|]. apply wp_mret.
    replace (i + n - i) with n in Hnot by lia. by apply HN.
  - wp_step.
    + apply wp_mret. subst x. replace k with (i + (k - i)) by lia. apply HS; [lia| |done].
      by replace (i + (k - i)) with k by lia.
    + wp_step; apply wp_mret.
      * exfalso. apply (cstring_nonzero b i n (k - i) x Hc); [lia| |done]. by replace (i + (k - i)) with k by lia.
      * split; [|lia]. split; [lia|]. replace (k + 1 - i) with ((k - i) + 1) by lia.
        rewrite (slice_snoc b i (k - i) x) by (try lia; by replace (i + (k - i)) with k by lia).
        intros [?|E]%elem_of_app; [done|]. apply list_elem_of_singleton in E. done.
Qed.

(** Searching a string known by its bytes. *)
Lemma strchr_hit b i n c l t : cstring b i n -> c <> 0 -> slice b i n = l ++ c :: t -> c ∉ l -> strchr b i c = Ret (Some (i + size l)).
Proof.
  intros Hc Hc0 E Hl. apply wp_eq. pose proof Hc as (Hi & Hn & Hb & _). pose proof (size_nonneg l). pose proof (size_nonneg t).
  assert (n = size l + 1 + size t) as En by (apply (f_equal size) in E; rewrite size_slice in E by lia; rewrite size_app, size_cons in E; lia).
  assert (forall k x, 0 <= k < n -> b !! Z.to_nat (i + k) = Some x -> (l ++ c :: t) !! Z.to_nat k = Some x) as Hlk
    by (intros k x Hk Hx; by rewrite <- E, lookup_slice by lia).
  apply (wp_strchr b i n); [done|done| |].
  - intros k Hk Hx Hno. do 2 f_equal. apply (Hlk k) in Hx; [|done]. destruct (Z.lt_trichotomy k (size l)) as [Hlt|[->|Hgt]]; [|done|]; exfalso.
    + rewrite lookup_app_l in Hx by (unfold size in *; lia). by apply list_elem_of_lookup_2 in Hx.
    + apply Hno. assert (slice b i k = take (Z.to_nat k) (l ++ c :: t)) as -> by
        (rewrite <- E; unfold slice; rewrite take_take; f_equal; unfold size in *; lia).
      apply list_elem_of_lookup. exists (length l). rewrite lookup_take_lt by (unfold size in *; lia).
      by rewrite lookup_app_r, Nat.sub_diag by lia.
  - intros Hno. exfalso. apply Hno. rewrite E. apply elem_of_app. right. left.
Qed.

Lemma strchr_miss b i n c : cstring b i n -> c <> 0 -> c ∉ slice b i n -> strchr b i c = Ret None.
Proof.
  intros Hc Hc0 Hno. apply wp_eq. apply (wp_strchr b i n); [done|done| |done]. intros k Hk Hx _. exfalso. apply Hno.
  pose proof Hc as (Hi & Hn & Hb & _). apply list_elem_of_lookup. exists (Z.to_nat k). by rewrite lookup_slice by lia.
Qed.

(** The bytes before the first [c], and those after it. *)
Definition before (c : Z) (l : list Z) : list Z := take_while (fun x => negb (x =? c)) l.
Definition after (c : Z) (l : list Z) : list Z := drop 1 (drop_while (fun x => negb (x =? c)) l).

Lemma not_in_all c l : c ∉ l -> Forall (fun x => negb (x =? c) = true) l.
Proof.
  intros Hc. apply Forall_forall. intros x Hx. destruct (Z.eqb_spec x c); [exfalso; apply Hc; apply list_elem_of_In; congruence|done].
Qed.

Lemma before_after_hit c l r : c ∉ l -> before c (l ++ c :: r) = l /\ after c (l ++ c :: r) = r.
Proof.
  intros Hc. unfold before, after. apply not_in_all in Hc.
  rewrite take_while_app, drop_while_app by (try done; by rewrite Z.eqb_refl). done.
Qed.

Lemma before_miss c l : c ∉ l -> before c l = l.
Proof. intros. by apply take_while_id, not_in_all. Qed.

(** One step of the iteration over a non-empty list: the entry is what precedes
    the first comma, and the rest is the C string after it. *)
Lemma mg_next_comma_list_entry_spec b l n :
  cstring b l n -> 0 < n ->
  exists k rest, mg_next_comma_list_entry b (Some l) false = Ret (Some (rest, mk_str (Some l) k, None)) /\
    0 <= k <= n /\ l < rest <= l + n /\ slice b l k = before 44 (slice b l n) /\
    cstring b rest (l + n - rest) /\ (rest = l + k + 1 \/ (k = n /\ rest = l + n)).
Proof.
  intros Hc Hn. pose proof Hc as (Hl & _ & Hb & _ & _).
  destruct (rd_total b l) as (v & Hv & Hr); [lia|].
  assert (v <> 0) as Hv0 by (apply (cstring_nonzero b l n 0 v Hc); [lia|by rewrite Z.add_0_r]).
  unfold mg_next_comma_list_entry. rewrite Hr. cbn [mbind outcome_bind].
  destruct (Z.eqb_spec v 0); [done|].
  enough (wp (strchr b l 44) (fun comma => exists k rest,
    match comma with Some j => mret (j + 1, j - l) | None => n ← strlen b l; mret (l + n, n) end = Ret (rest, k) /\
    0 <= k <= n /\ l < rest <= l + n /\ slice b l k = before 44 (slice b l n) /\
    cstring b rest (l + n - rest) /\ (rest = l + k + 1 \/ (k = n /\ rest = l + n)))) as
    (comma & -> & k & rest & E & H).
  { exists k, rest. cbn [mbind outcome_bind]. rewrite E. split; [done|exact H]. }
  apply (wp_strchr b l n); [done|done|..].
  - intros k Hk Hck Hnot. exists k, (l + k + 1). cbn [mret outcome_ret].
    assert (slice b l n = slice b l k ++ 44 :: slice b (l + k + 1) (n - k - 1)) as E.
    { rewrite <- slice_cons by (done || lia). rewrite <- slice_app by lia. f_equal; lia. }
    split_and!; [by replace (l + k - l) with k by lia|lia..| | |by left].
    + rewrite E. by destruct (before_after_hit 44 (slice b l k) (slice b (l + k + 1) (n - k - 1))) as [-> _].
    + replace (l + n - (l + k + 1)) with (n - (k + 1)) by lia. replace (l + k + 1) with (l + (k + 1)) by lia.
      apply cstring_suffix; (done || lia).
  - intros Hnot. exists n, (l + n). rewrite (strlen_spec b l n Hc). cbn [mbind outcome_bind mret outcome_ret].
    split_and!; [done|lia..|by rewrite before_miss| |by right].
    replace (l + n - (l + n)) with (n - n) by lia. apply cstring_suffix; (done || lia).
Qed.
