(* ===== verification/Cpp.v ===== *)
(** * The C++ of the application server

    Exceptions and state: a method is a function of the state it works on that
    returns, or throws one of the exceptions of the program, with the state it
    leaves.  Memory errors and exhausted fuel are the faults of [Prelude].  The
    conversions of the standard library between numbers and strings that the
    managers use are here too; an [std::string] is its bytes. *)

From Stdlib Require Import ZArith Lia String.
From stdpp Require Import base list numbers option.
From S2P Require Import Prelude Strs.

Local Open Scope Z_scope.

(** ** The code *)

(** The exceptions thrown: those of [Exceptions/], those of jsoncpp and those of
    the standard library. *)
Inductive exn :=
  | BadImplementationException
  | ErrorDeletingFileException (message : list Z)
  | ErrorLoginWithFacebookException (message : list Z)
  | InvalidPasswordException
  | InvalidRequestException (message : list Z)
  | InvalidTokenException
  | KeyNotFound
  | MissingConfigurationException (configKey : list Z)
  | NonexistentNotificationToken (userId : Z)
  | NotAuthorizedException
  | PictureNotFoundException (message : list Z)
  | SpecialRequestException
  | TokenExpiredException
  | UserAlreadyExistsException
  | UserNotFoundById (userId : Z)
  | UserNotFoundByMail (userMail : list Z)
  | JsonLogicError
  | JsonRuntimeError
  | StdInvalidArgument
  | StdOutOfRange
  | StdRuntimeError
  | StdRegexError
  | StdException.

#[export] Instance exn_eq_dec : EqDecision exn.
Proof. solve_decision. Defined.

(** A method on a state [S]. *)
Definition cpp (S A : Type) : Type := S -> outcome ((exn + A) * S).

#[export] Instance cpp_ret {S} : MRet (cpp S) := fun A a s => Ret (inr a, s).
#[export] Instance cpp_bind {S} : MBind (cpp S) := fun A B f m s =>
  match m s with
  | Ret (inr a, s') => f a s'
  | Ret (inl e, s') => Ret (inl e, s')
  | Fault e => Fault e
  end.

Definition throw {S A} (e : exn) : cpp S A := fun s => Ret (inl e, s).
Definition catch {S A} (m : cpp S A) (h : exn -> cpp S A) : cpp S A := fun s =>
  match m s with Ret (inl e, s') => h e s' | r => r end.
Definition get {S} : cpp S S := fun s => Ret (inr s, s).
Definition put {S} (s : S) : cpp S unit := fun _ => Ret (inr tt, s).

(** Code that only computes. *)
Definition pure {S A} (c : outcome A) : cpp S A := fun s => a ← c; Ret (inr a, s).

(** A loop over the elements of a vector. *)
Fixpoint for_each {S A} (l : list A) (f : A -> cpp S unit) : cpp S unit :=
  match l with [] => mret tt | x :: l => f x;; for_each l f end.
Fixpoint map_each {S A B} (l : list A) (f : A -> cpp S B) : cpp S (list B) :=
  match l with [] => mret [] | x :: l => y ← f x; ys ← map_each l f; mret (y :: ys) end.

(** [std::to_string] of a [long]; twenty digits are enough for 64 bits. *)
Fixpoint udigits (fuel : nat) (v : Z) (acc : list Z) : list Z :=
  match fuel with
  | O => acc
  | S fuel => let acc := 48 + v mod 10 :: acc in if v / 10 =? 0 then acc else udigits fuel (v / 10) acc
  end.
Definition to_string (z : Z) : list Z := if z <? 0 then 45 :: udigits 20 (- z) [] else udigits 20 z [].

Definition isspace (c : Z) : bool := (c =? 32) || ((9 <=? c) && (c <=? 13)).
Definition isdigit (c : Z) : bool := (48 <=? c) && (c <=? 57).

Fixpoint dec_val (acc : Z) (ds : list Z) : Z := match ds with [] => acc | d :: ds => dec_val (acc * 10 + (d - 48)) ds end.

(** [std::stol]: spaces, a sign, digits. *)
Definition stol {S} (str : list Z) : cpp S Z :=
  let s := drop_while isspace str in
  let '(neg, s) := match s with 45 :: r => (true, r) | 43 :: r => (false, r) | _ => (false, s) end in
  let ds := take_while isdigit s in
  if decide (ds = []) then throw StdInvalidArgument else
  let v := if (neg : bool) then - dec_val 0 ds else dec_val 0 ds in
  if (- 2 ^ 63 <=? v) && (v <? 2 ^ 63) then mret v else throw StdOutOfRange.

(** [std::transform(..., ::tolower)]. *)
Definition to_lower (s : list Z) : list Z := map tolower s.

(** ** Lemmas *)

Lemma bind_ok {S A B} (m : cpp S A) (f : A -> cpp S B) s a s' : m s = Ret (inr a, s') -> (m ≫= f) s = f a s'.
Proof. unfold mbind, cpp_bind. by intros ->. Qed.

Lemma bind_exn {S A B} (m : cpp S A) (f : A -> cpp S B) s e s' : m s = Ret (inl e, s') -> (m ≫= f) s = Ret (inl e, s').
Proof. unfold mbind, cpp_bind. by intros ->. Qed.

Lemma udigits_digits fuel v acc : Forall (fun d => isdigit d = true) acc -> Forall (fun d => isdigit d = true) (udigits fuel v acc).
Proof.
  revert v acc. induction fuel as [|fuel IH]; intros v acc Hacc; cbn [udigits]; [done|].
  assert (isdigit (48 + v mod 10) = true) as Hd by (unfold isdigit; pose proof (Z.mod_pos_bound v 10); lia).
  case_match; [by constructor|]. apply IH. by constructor.
Qed.

Lemma dec_val_app a l r : dec_val a (l ++ r) = dec_val (dec_val a l) r.
Proof. revert a. induction l as [|d l IH]; intros a; cbn; [done|apply IH]. Qed.

Lemma udigits_app fuel v acc : exists ds, udigits (S fuel) v acc = ds ++ acc /\ ds <> [] /\ (forall acc', udigits (S fuel) v acc' = ds ++ acc') /\ (length ds <= S fuel)%nat.
Proof.
  revert v acc. induction fuel as [|fuel IH]; intros v acc.
  - exists [48 + v mod 10]. cbn. split_and!; [by case_match|done|intros; by case_match|lia].
  - cbn [udigits]. destruct (Z.eqb_spec (v / 10) 0).
    + exists [48 + v mod 10]. split_and!; [done|done|done|simpl; lia].
    + destruct (IH (v / 10) (48 + v mod 10 :: acc)) as (ds & E & Hne & Hall & Hlen).
      exists (ds ++ [48 + v mod 10]). change (udigits (S fuel) (v / 10) ?x) with (udigits (S fuel) (v / 10) x) in *.
      split_and!; [rewrite <- app_assoc; exact E|by destruct ds|intros acc'; rewrite <- app_assoc; apply Hall|rewrite length_app; simpl; lia].
Qed.

(** The digits of [v] read back as [v] when they all fit. *)
Lemma udigits_val fuel v : 0 <= v < 10 ^ Z.of_nat (S fuel) -> dec_val 0 (udigits (S fuel) v []) = v.
Proof.
  revert v. induction fuel as [|fuel IH]; intros v Hv.
  - cbn. change (10 ^ Z.of_nat 1) with 10 in Hv. rewrite Z.mod_small by lia. case_match; cbn; lia.
  - rewrite Nat2Z.inj_succ, Z.pow_succ_r in Hv by lia. cbn [udigits]. destruct (Z.eqb_spec (v / 10) 0) as [E|E].
    + cbn. pose proof (Z.div_mod v 10). lia.
    + fold (udigits (S fuel)). assert (0 <= v / 10 < 10 ^ Z.of_nat (S fuel)) as Hq by (split; [apply Z.div_pos; lia|apply Z.div_lt_upper_bound; lia]).
      destruct (udigits_app fuel (v / 10) [48 + v mod 10]) as (ds & E1 & _ & Hall & _). change (udigits (S fuel) (v / 10) [48 + v mod 10]) with (udigits (S fuel) (v / 10) [48 + v mod 10]).
      specialize (IH _ Hq). rewrite (Hall []), app_nil_r in IH.
      assert (dec_val 0 (udigits (S fuel) (v / 10) [48 + v mod 10]) = v) as Hend; [|exact Hend].
      rewrite E1, dec_val_app, IH. cbn. pose proof (Z.div_mod v 10). lia.
Qed.

Lemma udigits_cons fuel v : exists d ds, udigits (S fuel) v [] = d :: ds /\ isdigit d = true /\ Forall (fun d => isdigit d = true) ds.
Proof.
  destruct (udigits_app fuel v []) as (ds & E & Hne & _). rewrite app_nil_r in E.
  pose proof (udigits_digits (S fuel) v [] (List.Forall_nil _)) as Hall. rewrite E in *. destruct ds as [|d ds]; [done|].
  apply Forall_cons_1 in Hall as [Hd Hds]. by exists d, ds.
Qed.

Lemma isdigit_range d : isdigit d = true -> 48 <= d <= 57.
Proof. unfold isdigit. lia. Qed.

(** The characters of a number. *)
Lemma to_string_forall (P : Z -> Prop) z : P 45 -> (forall c, 48 <= c <= 57 -> P c) -> Forall P (to_string z).
Proof.
  intros Hm Hd. assert (forall v, Forall P (udigits 20 v [])) as Hu.
  { intros v. eapply List.Forall_impl; [|apply (udigits_digits 20 v []); constructor]. intros c Hc%isdigit_range. by apply Hd. }
  unfold to_string. destruct (z <? 0); [by constructor|apply Hu].
Qed.

Lemma size_to_string z : size (to_string z) <= 21.
Proof.
  assert (forall v, size (udigits 20 v []) <= 20) as H.
  { intros v. destruct (udigits_app 19 v []) as (ds & E & _ & _ & Hl). rewrite app_nil_r in E. rewrite E. unfold size. lia. }
  unfold to_string. pose proof (H z). pose proof (H (- z)). case_match; [rewrite size_cons|]; lia.
Qed.

(** Ids are read back from the keys they were written into. *)
Lemma stol_to_string {S} z (s : S) : - 2 ^ 63 <= z < 2 ^ 63 -> stol (to_string z) s = Ret (inr z, s).
Proof.
  intros Hz. unfold stol, to_string.
  assert (forall v : Z, 0 <= v <= 2 ^ 63 -> exists d ds, udigits 20 v [] = d :: ds /\ isdigit d = true /\
    take_while isdigit (d :: ds) = d :: ds /\ dec_val 0 (d :: ds) = v) as Hdig.
  { intros v Hv. destruct (udigits_cons 19 v) as (d & ds & E & Hd & Hds). exists d, ds. split; [done|]. split; [done|].
    split; [apply take_while_id; by constructor|]. rewrite <- E. apply udigits_val. split; [lia|]. apply Z.le_lt_trans with (2 ^ 63); [lia|done]. }
  destruct (Z.ltb_spec z 0).
  - destruct (Hdig (- z)) as (d & ds & E & Hd & Ht & Hv); [lia|]. rewrite E. cbn [drop_while isspace]. change (isspace 45) with false. cbn match.
    rewrite Ht, decide_False, Hv by done. rewrite (proj2 (Z.leb_le _ _)), (proj2 (Z.ltb_lt _ _)) by lia. rewrite Z.opp_involutive. done.
  - destruct (Hdig z) as (d & ds & E & Hd & Ht & Hv); [lia|]. rewrite E. pose proof (isdigit_range d Hd).
    assert (isspace d = false) as Hsp by (unfold isspace; lia). cbn [drop_while]. rewrite Hsp.
    assert (match d :: ds with 45 :: r => (true, r) | 43 :: r => (false, r) | _ => (false, d :: ds) end = (false, d :: ds)) as ->.
    { destruct d as [|p|p]; try done. do 6 (destruct p as [p|p|]; try done; try lia). }
    rewrite Ht, decide_False, Hv by done. by rewrite (proj2 (Z.leb_le _ _)), (proj2 (Z.ltb_lt _ _)) by lia.
Qed.

Lemma to_string_inj a b : - 2 ^ 63 <= a < 2 ^ 63 -> - 2 ^ 63 <= b < 2 ^ 63 -> to_string a = to_string b -> a = b.
Proof.
  intros Ha Hb E. pose proof (stol_to_string a tt Ha) as H1. pose proof (stol_to_string b tt Hb) as H2. rewrite E in H1. congruence.
Qed.

Example stol_spaces : stol (lit "  -12x") tt = Ret (inr (-12), tt).
Proof. vm_compute. reflexivity. Qed.
Example stol_none : stol (lit "abc") tt = Ret (inl StdInvalidArgument, tt).
Proof. vm_compute. reflexivity. Qed.
