(* ===== verification/Double.v ===== *)
(** * The type [double] (IEEE 754 binary64)

    The operations on [double] that jsoncpp and the application server use:
    arithmetic and comparison, the conversions with integers, [snprintf] with
    "%.17g" and the reading of a number by a stream or by [stod].  Numbers are
    those of the formal specification of the standard in [SpecFloat]. *)

From Stdlib Require Import ZArith Lia String SpecFloat.
From stdpp Require Import base list numbers option.
From S2P Require Import Prelude Strs Cpp.

Local Open Scope Z_scope.

(** ** Definitions *)

Definition double : Type := spec_float.

#[export] Instance double_eq_dec : EqDecision double.
Proof. unfold double. solve_decision. Defined.

Definition of_Z (z : Z) : double := binary_normalize 53 1024 z 0 false.
Definition dsub (x y : double) : double := SFsub 53 1024 x y.
Definition dadd (x y : double) : double := SFadd 53 1024 x y.
Definition dmul (x y : double) : double := SFmul 53 1024 x y.
Definition dltb (x y : double) : bool := SFltb x y.
Definition dleb (x y : double) : bool := SFleb x y.
Definition deqb (x y : double) : bool := SFeqb x y.

Definition is_finite (x : double) : bool := match x with S754_zero _ | S754_finite _ _ _ => true | _ => false end.

(** Conversion to an integer, towards zero. *)
Definition to_Z (x : double) : option Z :=
  match x with
  | S754_zero _ => Some 0
  | S754_finite s m e =>
      let v := if 0 <=? e then Z.pos m * 2 ^ e else Z.pos m / 2 ^ (- e) in Some (if s then - v else v)
  | _ => None
  end.

(** *** Printing with 17 significant digits *)

(** The exponent of ten of [n / d] > 0; 400 steps are enough for a [double]. *)
Fixpoint exponent_up (fuel : nat) (n d x : Z) : Z :=
  match fuel with O => x | S fuel => if 10 * d <=? n then exponent_up fuel n (10 * d) (x + 1) else x end.
Fixpoint exponent_down (fuel : nat) (n d x : Z) : Z :=
  match fuel with O => x | S fuel => if n <? d then exponent_down fuel (10 * n) d (x - 1) else x end.
Definition exponent10 (n d : Z) : Z := if d <=? n then exponent_up 400 n d 0 else exponent_down 400 n d 0.

(** [n / d] to the nearest integer, ties to even. *)
Definition round_div (n d : Z) : Z :=
  let q := n / d in let r := n mod d in
  if (d <? 2 * r) || ((2 * r =? d) && Z.odd q) then q + 1 else q.

(** The 17 digits and the exponent of the first. *)
Definition digits17 (m : positive) (e : Z) : list Z * Z :=
  let n := Z.pos m * 2 ^ Z.max e 0 in
  let d := 2 ^ Z.max (- e) 0 in
  let x := exponent10 n d in
  let k := 16 - x in
  let v := round_div (n * 10 ^ Z.max k 0) (d * 10 ^ Z.max (- k) 0) in
  let '(v, x) := if v =? 10 ^ 17 then (10 ^ 16, x + 1) else (v, x) in
  (udigits 17 v [], x).

Fixpoint strip_zeros (ds : list Z) : list Z :=
  match ds with
  | [] => []
  | d :: r => match strip_zeros r with [] => if d =? 48 then [] else [d] | r' => d :: r' end
  end.

Definition with_fraction (whole frac : list Z) : list Z :=
  match strip_zeros frac with [] => whole | f => whole ++ 46 :: f end.

(** "%.17g" of a finite number. *)
Definition format_g17 (x : double) : list Z :=
  match x with
  | S754_finite s m e =>
      let '(ds, x) := digits17 m e in
      (if s then [45] else []) ++
      (if (-4 <=? x) && (x <? 17) then
         if 0 <=? x then with_fraction (take (Z.to_nat (x + 1)) ds) (drop (Z.to_nat (x + 1)) ds)
         else with_fraction [48] (replicate (Z.to_nat (- x - 1)) 48 ++ ds)
       else
         with_fraction (take 1 ds) (drop 1 ds) ++
         [101; if x <? 0 then 45 else 43] ++ (if Z.abs x <? 10 then 48 :: udigits 3 (Z.abs x) [] else udigits 3 (Z.abs x) []))
  | S754_zero s => (if s then [45] else []) ++ [48]
  | _ => []
  end.

(** *** Reading *)

(** The number [m * 10 ^ e]; None when it overflows. *)
Definition of_decimal (s : bool) (m e : Z) : option double :=
  let r :=
    match m with
    | Z.pos q =>
        if 0 <=? e then binary_round 53 1024 s (Z.to_pos (m * 10 ^ e)) 0
        else SFdiv 53 1024 (S754_finite s q 0) (S754_finite false (Z.to_pos (10 ^ (- e))) 0)
    | _ => S754_zero s
    end in
  match r with S754_infinity _ | S754_nan => None | _ => Some r end.

(** [strtod] on a text made of a sign, digits, a fraction and an exponent: the
    value and what is left; None when there is no number. *)
Definition strtod (text : list Z) : option (option double * list Z) :=
  let '(s, t) := match text with 45 :: r => (true, r) | 43 :: r => (false, r) | _ => (false, text) end in
  let w := take_while isdigit t in
  let t := drop_while isdigit t in
  let '(f, t) := match t with 46 :: r => (take_while isdigit r, drop_while isdigit r) | _ => ([], t) end in
  if decide (w ++ f = []) then None else
  let '(e, t) :=
    match t with
    | c :: r =>
        if (c =? 101) || (c =? 69) then
          let '(neg, r') := match r with 45 :: r' => (true, r') | 43 :: r' => (false, r') | _ => (false, r) end in
          let ds := take_while isdigit r' in
          if decide (ds = []) then (0, t) else (if (neg : bool) then - dec_val 0 ds else dec_val 0 ds, drop_while isdigit r')
        else (0, t)
    | [] => (0, t)
    end in
  Some (of_decimal s (dec_val 0 (w ++ f)) (e - size f), t).

(** "is >> value" on a stream of just these characters: the whole text must be
    the number. *)
Definition read_double (text : list Z) : option double :=
  match strtod text with Some (Some d, []) => Some d | _ => None end.

(** A quotient of integers, rounded to 53 bits. *)
Definition of_ratio (emax : Z) (s : bool) (n d : Z) : double :=
  match n with Z.pos q => SFdiv 53 emax (S754_finite s q 0) (S754_finite false (Z.to_pos d) 0) | _ => S754_zero s end.

(** [strtod] sets ERANGE for a result that overflows, and for one below the normal
    numbers (when rounded with a larger range of exponents) that is not exact. *)
Definition out_of_range (n d : Z) : bool :=
  match of_ratio 1024 false n d with
  | S754_infinity _ | S754_nan => true
  | r =>
      let exact := match r with S754_finite _ m e => if 0 <=? e then Z.pos m * 2 ^ e * d =? n else Z.pos m * d =? n * 2 ^ (- e) | _ => n =? 0 end in
      SFltb (of_ratio 4096 false n d) (S754_finite false 1 (-1022)) && negb exact
  end.

Definition xdigit (c : Z) : option Z :=
  if isdigit c then Some (c - 48) else let l := tolower c in if (97 <=? l) && (l <=? 102) then Some (l - 87) else None.
Definition is_xdigit (c : Z) : bool := bool_decide (is_Some (xdigit c)).
Definition hex_val (ds : list Z) : Z := foldl (fun v c => v * 16 + default 0 (xdigit c)) 0 ds.

(** An exponent behind a number, with its letter. *)
Definition exponent_part (letter : Z) (t : list Z) : Z :=
  match t with
  | c :: r =>
      if tolower c =? letter then
        let '(neg, r) := match r with 45 :: r => (true, r) | 43 :: r => (false, r) | _ => (false, r) end in
        if (neg : bool) then - dec_val 0 (take_while isdigit r) else dec_val 0 (take_while isdigit r)
      else 0
  | [] => 0
  end.

(** A number without its sign: digits of a base (with a test and a value), a
    fraction and an exponent of another base. *)
Definition ratio_part (test : Z -> bool) (val : list Z -> Z) (base ebase letter : Z) (t : list Z) : option (Z * Z) :=
  let w := take_while test t in
  let t := drop_while test t in
  let '(f, t) := match t with 46 :: r => (take_while test r, drop_while test r) | _ => ([], t) end in
  if decide (w ++ f = []) then None else
  let e := exponent_part letter t in
  Some (val (w ++ f) * ebase ^ Z.max e 0, base ^ size f * ebase ^ Z.max (- e) 0).

Definition text_at (t : list Z) (name : string) : bool := bool_decide (map tolower (take (String.length name) t) = lit name).

(** [std::stod]. *)
Definition stod {S} (str : list Z) : cpp S double :=
  let t := drop_while isspace str in
  let '(s, t) := match t with 45 :: r => (true, r) | 43 :: r => (false, r) | _ => (false, t) end in
  if text_at t "inf" then mret (S754_infinity s) else
  if text_at t "nan" then mret S754_nan else
  let hex := if text_at t "0x" then ratio_part is_xdigit hex_val 16 2 112 (drop 2 t) else None in
  match (match hex with Some q => Some q | None => ratio_part isdigit (dec_val 0) 10 10 101 t end) with
  | None => throw StdInvalidArgument
  | Some (n, d) => if out_of_range n d then throw StdOutOfRange else mret (of_ratio 1024 s n d)
  end.

Example stod_texts :
  stod (lit " -2.5e1,") tt = Ret (inr (of_Z (-25)), tt) /\ stod (lit "0x1.8p3") tt = Ret (inr (of_Z 12), tt) /\ stod (lit "0xg") tt = Ret (inr (S754_zero false), tt) /\
  stod (lit "Infinity") tt = Ret (inr (S754_infinity false), tt) /\ stod (lit "1e-320") tt = Ret (inl StdOutOfRange, tt) /\ stod (lit "1e400") tt = Ret (inl StdOutOfRange, tt) /\
  stod (lit "0x1p-1074") tt = Ret (inr (S754_finite false 1 (-1074)), tt) /\ stod (lit ".e1") tt = Ret (inl StdInvalidArgument, tt).
Proof. vm_compute. done. Qed.

(** ** Examples *)

Definition tenth : double := SFdiv 53 1024 (of_Z 1) (of_Z 10).
Example print_tenth : format_g17 tenth = lit "0.10000000000000001".
Proof. vm_compute. reflexivity. Qed.
Example print_big : format_g17 (of_Z (- 10 ^ 22)) = lit "-1e+22".
Proof. vm_compute. reflexivity. Qed.
Example print_int : format_g17 (of_Z 14400) = lit "14400".
Proof. vm_compute. reflexivity. Qed.
Example print_small : format_g17 (SFdiv 53 1024 (of_Z 1) (of_Z (10 ^ 7))) = lit "9.9999999999999995e-08".
Proof. vm_compute. reflexivity. Qed.
Example read_back : read_double (lit "-34.603722") = read_double (lit "-34.603721999999998") /\ read_double (lit "1e999") = None /\ read_double (lit "1e") = None.
Proof. vm_compute. done. Qed.
Example read_tenth : read_double (lit "0.1") = Some tenth /\ read_double (format_g17 tenth) = Some tenth.
Proof. vm_compute. done. Qed.
Example read_min : option_map format_g17 (read_double (lit "4.9406564584124654e-324")) = Some (lit "4.9406564584124654e-324").
Proof. vm_compute. reflexivity. Qed.
