(* ===== verification/Printf.v ===== *)
(** * Formatted output (mongoose.c, common/str_util.c and util.c)

    [c_itoa], [c_vsnprintf] and [c_snprintf], against a renderer without a
    buffer; [mg_hexdump] over the [snprintf] of the C library. *)

From Stdlib Require Import ZArith Lia String.
From stdpp Require Import base list numbers option.
From S2P Require Import Prelude Strs.

Local Open Scope Z_scope.

(** ** The code *)

(** The variable arguments: an [int], a 64-bit integer or pointer value, or a
    string pointer with the object it points to. *)
Inductive va := VInt (z : Z) | VLong (z : Z) | VStr (s : option (list Z)).

Definition va_int (ap : list va) : outcome (Z * list va) :=
  match ap with VInt z :: ap => mret (s32 z, ap) | _ => Fault BadVararg end.
Definition va_unsigned (ap : list va) : outcome (Z * list va) :=
  match ap with VInt z :: ap => mret (u32 z, ap) | _ => Fault BadVararg end.
Definition va_long (ap : list va) : outcome (Z * list va) :=
  match ap with VLong z :: ap => mret (s64 z, ap) | _ => Fault BadVararg end.
Definition va_ulong (ap : list va) : outcome (Z * list va) :=
  match ap with VLong z :: ap => mret (u64 z, ap) | _ => Fault BadVararg end.
Definition va_str (ap : list va) : outcome (option (list Z) * list va) :=
  match ap with VStr s :: ap => mret (s, ap) | _ => Fault BadVararg end.

Definition C_SNPRINTF_FLAG_ZERO : Z := 1.

(** [C_SNPRINTF_APPEND_CHAR(ch)] for the buffer [&b[base]] of [buf_size] bytes. *)
Definition C_SNPRINTF_APPEND_CHAR (base buf_size : Z) (b : list Z) (i ch : Z) : outcome (list Z * Z) :=
  b ← (if i <? s32 buf_size then wr b (base + i) (u8 ch) else mret b);
  i ← int (i + 1);
  mret (b, i).

(** The digits of [num], least significant first, padding and sign. *)
Definition c_itoa_tmp (num base flags field_width : Z) : outcome (list Z * Z) :=
  let tmp := replicate 40 0 in
  '(neg, num) ← (if num <? 0 then
      if num =? - 2 ^ 63 then Fault SignedOverflow else mret (true, - num)
    else mret (false, num));
  '(tmp, k) ← loop 65 (fun '(tmp, k, num) =>
      let rem := num mod base in
      tmp ← wr tmp k (if rem <? 10 then 48 + rem else 97 + (rem - 10));
      let k := k + 1 in
      let num := num / base in
      if num >? 0 then mret (inl (tmp, k, num)) else mret (inr (tmp, k))) (tmp, 0, num);
  '(tmp, k) ← (if negb (flags =? 0) then
      loop 41 (fun '(tmp, k) =>
        if (k <? field_width) && (k <? 40 - 1) then
          tmp ← wr tmp k 48; mret (inl (tmp, k + 1))
        else mret (inr (tmp, k))) (tmp, k)
    else mret (tmp, k));
  if neg : bool then tmp ← wr tmp k 45; mret (tmp, k + 1) else mret (tmp, k).

Definition c_itoa (b : list Z) (pos buf_size num base flags field_width : Z) : outcome (list Z * Z) :=
  '(tmp, k) ← c_itoa_tmp num base flags field_width;
  loop 42 (fun '(b, i, k) =>
    let k := k - 1 in
    if k >=? 0 then
      c ← rd tmp k;
      '(b, i) ← C_SNPRINTF_APPEND_CHAR pos buf_size b i c;
      mret (inl (b, i, k))
    else mret (inr (b, i))) (b, 0, k).

Record conv_spec := mk_conv {
  cv_flags : Z; field_width : Z; precision : Z; len_mod : Z; cv_ch : Z; cv_next : Z; cv_ap : list va }.

(** [while ( *fmt >= '0' && *fmt <= '9') n = n * 10 + *fmt++ - '0'] *)
Definition parse_number (fmt : list Z) (f n : Z) : outcome (Z * Z) :=
  loop (S (length fmt)) (fun '(f, n) =>
    c ← rd fmt f;
    if (48 <=? c) && (c <=? 57) then
      n ← int (n * 10); n ← int (n + (c - 48)); mret (inl (f + 1, n))
    else mret (inr (f, n))) (f, n).

(** A conversion specification, from the character after the percent sign. *)
Definition parse_conv (fmt : list Z) (f : Z) (ap : list va) : outcome conv_spec :=
  c ← rd fmt f;
  let flags := if c =? 48 then C_SNPRINTF_FLAG_ZERO else 0 in
  '(f, width) ← parse_number fmt f 0;
  c ← rd fmt f;
  '(width, f, ap) ← (if c =? 42 then '(w, ap) ← va_int ap; mret (w, f + 1, ap) else mret (width, f, ap));
  c ← rd fmt f;
  '(prec, f, ap) ← (if c =? 46 then
      let f := f + 1 in
      c ← rd fmt f;
      if c =? 42 then '(p, ap) ← va_int ap; mret (p, f + 1, ap)
      else '(f, p) ← parse_number fmt f 0; mret (p, f, ap)
    else mret (0, f, ap));
  c ← rd fmt f;
  '(lm, f) ← (if bool_decide (c ∈ lit "hlLIqjzt") then
      let lm := c in let f := f + 1 in
      c ← rd fmt f;
      let '(lm, f) := if c =? 104 then (72, f + 1) else (lm, f) in
      c ← rd fmt f;
      mret (if c =? 108 then (113, f + 1) else (lm, f))
    else mret (0, f));
  ch ← rd fmt f;
  mret (mk_conv flags width prec lm ch (f + 1) ap).

Definition append_str (base buf_size : Z) (b : list Z) (i width prec : Z) (s : option (list Z)) :
    outcome (list Z * Z) :=
  n ← (if prec >=? 0 then
         match s with
         | Some m => c_strnlen m 0 prec
         | None => if prec =? 0 then mret 0 else Fault NullPointer
         end
       else mret 0);
  let pad := s32 (u64 (width - n)) in
  '(b, i) ← loop (S (Z.to_nat pad)) (fun '(b, i, j) =>
      if j <? pad then '(b, i) ← C_SNPRINTF_APPEND_CHAR base buf_size b i 32; mret (inl (b, i, j + 1))
      else mret (inr (b, i))) (b, i, 0);
  match s with
  | None => mret (b, i)
  | Some m =>
      loop (S (length m)) (fun '(b, i, j) =>
        if (prec <=? 0) || (j <? prec) then
          c ← rd m j;
          if c =? 0 then mret (inr (b, i)) else
          '(b, i) ← C_SNPRINTF_APPEND_CHAR base buf_size b i c; mret (inl (b, i, j + 1))
        else mret (inr (b, i))) (b, i, 0)
  end.

(** Which variable argument an integer conversion fetches, and its base. *)
Definition int_conv (ch lm : Z) (ap : list va) : option (outcome (Z * list va) * Z) :=
  if (ch =? 100) && (lm =? 0) then Some (va_int ap, 10)
  else if (ch =? 100) && (lm =? 108) then Some (va_long ap, 10)
  else if (ch =? 100) && (lm =? 122) then Some (va_long ap, 10)
  else if (ch =? 100) && (lm =? 113) then Some (va_long ap, 10)
  else if ((ch =? 120) || (ch =? 117)) && (lm =? 0) then Some (va_unsigned ap, if ch =? 120 then 16 else 10)
  else if ((ch =? 120) || (ch =? 117)) && ((lm =? 108) || (lm =? 122)) then
    Some (va_ulong ap, if ch =? 120 then 16 else 10)
  else None.

(** [i += c_itoa(buf + i, buf_size - i, num, ...)]; the parameter [num] of
    [c_itoa] is an [int64_t]. *)
Definition add_itoa (buf_size : Z) (b : list Z) (i num base flags width : Z) : outcome (list Z * Z) :=
  '(b, n) ← c_itoa b i (u64 (buf_size - i)) (s64 num) base flags width;
  i ← int (i + n);
  mret (b, i).

Definition c_vsnprintf (b : list Z) (buf_size : Z) (fmt : list Z) (ap : list va) : outcome (list Z * Z) :=
  let fmt := fmt ++ [0] in
  '(b, i) ← loop (S (length fmt)) (fun '(b, i, f, ap) =>
      ch ← rd fmt f; let f := f + 1 in
      if ch =? 0 then mret (inr (b, i)) else
      if negb (ch =? 37) then
        '(b, i) ← C_SNPRINTF_APPEND_CHAR 0 buf_size b i ch; mret (inl (b, i, f, ap))
      else
        cv ← parse_conv fmt f ap;
        let ch := cv_ch cv in let f := cv_next cv in let ap := cv_ap cv in
        if ch =? 115 then
          '(s, ap) ← va_str ap;
          '(b, i) ← append_str 0 buf_size b i (field_width cv) (precision cv) s;
          mret (inl (b, i, f, ap))
        else if ch =? 99 then
          '(ch, ap) ← va_int ap;
          '(b, i) ← C_SNPRINTF_APPEND_CHAR 0 buf_size b i ch; mret (inl (b, i, f, ap))
        else match int_conv ch (len_mod cv) ap with
        | Some (arg, base) =>
            '(num, ap) ← arg;
            '(b, i) ← add_itoa buf_size b i num base (cv_flags cv) (field_width cv);
            mret (inl (b, i, f, ap))
        | None =>
            if ch =? 112 then
              '(num, ap) ← va_ulong ap;
              '(b, i) ← C_SNPRINTF_APPEND_CHAR 0 buf_size b i 48;
              '(b, i) ← C_SNPRINTF_APPEND_CHAR 0 buf_size b i 120;
              '(b, i) ← add_itoa buf_size b i num 16 (cv_flags cv) 0;
              mret (inl (b, i, f, ap))
            else Fault Aborted
        end) (b, 0, 0, ap);
  b ← (if buf_size >? 0 then wr b (if i <? s32 buf_size then i else s32 buf_size - 1) 0 else mret b);
  mret (b, i).

Definition c_snprintf (b : list Z) (buf_size : Z) (fmt : list Z) (args : list va) : outcome (list Z * Z) :=
  '(b, result) ← c_vsnprintf b buf_size fmt args;
  mret (b, result).

Example snprintf_ex1 :
  c_snprintf (replicate 20 7) 20 (lit "%d-%05x|%.*s|%c") [VInt (-42); VInt 255; VInt 3; VStr (Some (lit "abcdef")); VInt 33]
  = Ret (lit "-42-000ff|abc|!" ++ [0; 7; 7; 7; 7], 15).
Proof. vm_compute. reflexivity. Qed.
Example snprintf_truncates :
  c_snprintf (replicate 6 7) 4 (lit "%s%d") [VStr (Some (lit "ab" ++ [0])); VInt 123456] = Ret (lit "ab1" ++ [0; 7; 7], 8).
Proof. vm_compute. reflexivity. Qed.
(** A width without a precision pads by the whole width, whatever the length. *)
Example snprintf_width : c_snprintf (replicate 9 7) 9 (lit "%4s") [VStr (Some (lit "ab" ++ [0]))]
  = Ret (lit "    ab" ++ [0; 7; 7], 6).
Proof. vm_compute. reflexivity. Qed.
(** An unsigned long with the top bit set prints as a negative number. *)
Example snprintf_ulong : c_snprintf (replicate 24 7) 24 (lit "%lu") [VLong (2 ^ 64 - 1)]
  = Ret (lit "-1" ++ [0] ++ replicate 21 7, 2).
Proof. vm_compute. reflexivity. Qed.

(** ** A renderer without a buffer

    The characters the format produces, all of them; the count must still fit
    in an [int]. *)

Definition emit (out : list Z) (ch : Z) : outcome (list Z) :=
  _ ← int (size out + 1); mret (out ++ [u8 ch]).

Definition render_int (out : list Z) (num base flags width : Z) : outcome (list Z) :=
  '(tmp, k) ← c_itoa_tmp (s64 num) base flags width;
  _ ← int (size out + k);
  mret (out ++ map u8 (rev (take (Z.to_nat k) tmp))).

Definition render_str (out : list Z) (width prec : Z) (s : option (list Z)) : outcome (list Z) :=
  n ← (if prec >=? 0 then
         match s with
         | Some m => c_strnlen m 0 prec
         | None => if prec =? 0 then mret 0 else Fault NullPointer
         end
       else mret 0);
  let pad := s32 (u64 (width - n)) in
  out ← loop (S (Z.to_nat pad)) (fun '(out, j) =>
      if j <? pad then out ← emit out 32; mret (inl (out, j + 1)) else mret (inr out)) (out, 0);
  match s with
  | None => mret out
  | Some m =>
      loop (S (length m)) (fun '(out, j) =>
        if (prec <=? 0) || (j <? prec) then
          c ← rd m j;
          if c =? 0 then mret (inr out) else
          out ← emit out c; mret (inl (out, j + 1))
        else mret (inr out)) (out, 0)
  end.

Definition render (fmt : list Z) (ap : list va) : outcome (list Z) :=
  let fmt := fmt ++ [0] in
  loop (S (length fmt)) (fun '(out, f, ap) =>
      ch ← rd fmt f; let f := f + 1 in
      if ch =? 0 then mret (inr out) else
      if negb (ch =? 37) then out ← emit out ch; mret (inl (out, f, ap))
      else
        cv ← parse_conv fmt f ap;
        let ch := cv_ch cv in let f := cv_next cv in let ap := cv_ap cv in
        if ch =? 115 then
          '(s, ap) ← va_str ap;
          out ← render_str out (field_width cv) (precision cv) s; mret (inl (out, f, ap))
        else if ch =? 99 then '(ch, ap) ← va_int ap; out ← emit out ch; mret (inl (out, f, ap))
        else match int_conv ch (len_mod cv) ap with
        | Some (arg, base) =>
            '(num, ap) ← arg;
            out ← render_int out num base (cv_flags cv) (field_width cv); mret (inl (out, f, ap))
        | None =>
            if ch =? 112 then
              '(num, ap) ← va_ulong ap;
              out ← emit out 48; out ← emit out 120;
              out ← render_int out num 16 (cv_flags cv) 0; mret (inl (out, f, ap))
            else Fault Aborted
        end) ([], 0, ap).

(** ** Numbers in a base, least significant digit first *)

Definition digit_char (d : Z) : Z := if d <? 10 then 48 + d else 97 + (d - 10).

Fixpoint digits_val (base : Z) (ds : list Z) : Z :=
  match ds with [] => 0 | d :: r => d + base * digits_val base r end.

(** The digits of [v]: there is at least one, and no leading zero. *)
Definition digits_of (base v : Z) (ds : list Z) : Prop :=
  ds <> [] /\ Forall (fun d => 0 <= d < base) ds /\ digits_val base ds = v /\
  (v <> 0 -> List.last ds 1 <> 0) /\ (v = 0 -> ds = [0]).

Lemma digits_val_snoc base ds d : digits_val base (ds ++ [d]) = digits_val base ds + base ^ size ds * d.
Proof.
  induction ds as [|x ds IH]; [cbn; change (base ^ size []) with 1; lia|].
  cbn [digits_val app]. rewrite IH, size_cons, Z.add_1_l, Z.pow_succ_r by auto. lia.
Qed.

Lemma itoa_digits_spec base num :
  10 <= base -> 0 <= num < 10 ^ 19 ->
  wp (loop 65 (fun '(tmp, k, num) =>
      let rem := num mod base in
      tmp ← wr tmp k (if rem <? 10 then 48 + rem else 97 + (rem - 10));
      let k := k + 1 in
      let num := num / base in
      if num >? 0 then mret (inl (tmp, k, num)) else mret (inr (tmp, k))) (replicate 40 0, 0, num))
    (fun '(tmp, k) => exists ds, digits_of base num ds /\ tmp = fill (replicate 40 0) (map digit_char ds) /\
       k = size ds /\ k <= 19).
Proof.
  intros Hb Hnum.
  apply wp_loop with (m := fun '(_, k, _) => Z.to_nat (19 - k))
    (I := fun '(tmp, k, m) => exists ds, tmp = fill (replicate 40 0) (map digit_char ds) /\ k = size ds /\
       0 <= k <= 18 /\ 0 <= m < 10 ^ (19 - k) /\ (ds = [] \/ 0 < m) /\
       Forall (fun d => 0 <= d < base) ds /\ num = digits_val base ds + base ^ size ds * m).
  - intros [[tmp k] m] (ds & -> & -> & Hk & Hm & Hpos & Hds & Hval). cbn zeta.
    pose proof (Z.mod_pos_bound m base). pose proof (Z.div_mod m base). pose proof (Z.div_pos m base).
    change (if m mod base <? 10 then _ else _) with (digit_char (m mod base)).
    apply wp_bind, wp_wr_fill.
    { unfold size. by rewrite length_map. }
    { unfold size in *. rewrite length_map, length_replicate. lia. }
    change [digit_char (m mod base)] with (map digit_char [m mod base]). rewrite <- map_app.
    assert (size (ds ++ [m mod base]) = size ds + 1) as Hsz by size_lia.
    assert (Forall (fun d => 0 <= d < base) (ds ++ [m mod base])) by (apply Forall_app_2; [done|apply Forall_singleton; lia]).
    assert (num = digits_val base (ds ++ [m mod base]) + base ^ size (ds ++ [m mod base]) * (m / base)) as Hv.
    { rewrite digits_val_snoc, Hsz, Z.pow_add_r by lia. rewrite Hval at 1. rewrite (Z.div_mod m base) at 1 by lia. lia. }
    assert (m / base < 10 ^ (18 - size ds)) as Hlt.
    { apply Z.div_lt_upper_bound; [lia|]. replace (19 - size ds) with (Z.succ (18 - size ds)) in Hm by lia.
      rewrite Z.pow_succ_r in Hm by lia. nia. }
    rewrite Z.gtb_ltb. wp_step.
    + apply wp_mret. split; [|lia]. exists (ds ++ [m mod base]).
      rewrite Hsz. replace (19 - (size ds + 1)) with (18 - size ds) by lia. split_and!; try (done || lia || (right; lia)).
      2: by rewrite <- Hsz.
      destruct (decide (size ds = 18)) as [E|]; [|lia]. rewrite E in Hlt. change (10 ^ (18 - 18)) with 1 in Hlt. lia.
    + apply wp_mret. exists (ds ++ [m mod base]). replace (m / base) with 0 in * by lia.
      rewrite Z.mul_0_r, Z.add_0_r in Hv. split_and!; [|done|lia|lia].
      split_and!; [by destruct ds|done|done|..].
      * intros Hnz. rewrite List.last_last. intros E. destruct Hpos as [->|]; [simpl in Hv; lia|lia].
      * intros Hz. destruct Hpos as [->|Hp]; [simpl in *; f_equal; lia|].
        exfalso. assert (0 < base ^ size ds) by (apply Z.pow_pos_nonneg; lia).
        assert (0 <= digits_val base ds); [|nia].
        clear -Hds Hb. induction Hds; simpl; [lia|nia].
  - exists []. split_and!; [done|done|lia|lia|lia|change (10 ^ (19 - 0)) with (10 ^ 19); lia|by left|by apply Forall_nil_2|].
    cbn; change (base ^ size []) with 1; lia.
  - lia.
Qed.

(** The number of zeros the padding adds. *)
Definition zero_pad (flags width n : Z) : Z := if flags =? 0 then 0 else Z.max 0 (Z.min width 39 - n).

Lemma c_itoa_tmp_spec num base flags width :
  10 <= base -> - 2 ^ 63 < num < 2 ^ 63 ->
  wp (c_itoa_tmp num base flags width) (fun '(tmp, k) => exists ds, digits_of base (Z.abs num) ds /\
    let l := map digit_char ds ++ replicate (Z.to_nat (zero_pad flags width (size ds))) 48
             ++ (if num <? 0 then [45] else []) in
    tmp = fill (replicate 40 0) l /\ k = size l /\ k <= 40).
Proof.
  intros Hb Hnum. unfold c_itoa_tmp.
  assert ((if num <? 0 then if num =? - 2 ^ 63 then Fault SignedOverflow else mret (true, - num) else mret (false, num))
    = Ret (num <? 0, Z.abs num)) as ->.
  { destruct (Z.ltb_spec num 0); [|by rewrite Z.abs_eq by lia].
    destruct (Z.eqb_spec num (- 2 ^ 63)); [lia|]. by rewrite Z.abs_neq by lia. }
  cbn [mbind outcome_bind]. apply wp_bind. eapply wp_mono; [apply itoa_digits_spec; [done|lia]|].
  intros [tmp k] (ds & Hds & -> & -> & Hk).
  assert (size (map digit_char ds) = size ds) as Hms by (unfold size; by rewrite length_map).
  apply wp_bind, wp_mono with (P := fun '(tmp, k) =>
    let l := map digit_char ds ++ replicate (Z.to_nat (zero_pad flags width (size ds))) 48 in
    tmp = fill (replicate 40 0) l /\ k = size l /\ k <= 39).
  - unfold zero_pad. destruct (Z.eqb_spec flags 0); cbn [negb].
    + apply wp_mret. simpl. rewrite app_nil_r. split_and!; [done|done|lia].
    + apply wp_loop with (m := fun '(_, k) => Z.to_nat (39 - k))
        (I := fun '(tmp, k) => exists z, 0 <= z <= Z.max 0 (Z.min width 39 - size ds) /\
          tmp = fill (replicate 40 0) (map digit_char ds ++ replicate (Z.to_nat z) 48) /\ k = size ds + z).
      * intros [t j] (z & Hz & -> & ->).
        assert (size (replicate (Z.to_nat z) 48) = z) as Hzs by (unfold size; rewrite length_replicate; lia).
        destruct (Z.ltb_spec (size ds + z) width), (Z.ltb_spec (size ds + z) (40 - 1)); cbn [andb].
        1: apply wp_bind, wp_wr_fill; [size_lia|rewrite size_app, Hms, Hzs; change (size (replicate 40 0)) with 40; lia|].
        1: apply wp_mret; split; [|lia]; exists (z + 1); split_and!; [lia|lia| |lia].
        1: rewrite <- app_assoc; do 2 f_equal; rewrite Z2Nat.inj_add by lia; by rewrite replicate_add.
        all: apply wp_mret; replace (Z.max 0 (Z.min width 39 - size ds)) with z by lia; cbn zeta;
          rewrite size_app, Hms, Hzs; split_and!; (done || lia).
      * exists 0. simpl. rewrite app_nil_r. split_and!; (done || lia).
      * pose proof (size_nonneg ds); lia.
  - intros [t j] (-> & -> & Hj). set (l := map digit_char ds ++ _) in *.
    destruct (num <? 0).
    + apply wp_bind, wp_wr_fill; [done|unfold size in *; rewrite length_replicate; lia|].
      apply wp_mret. exists ds. cbn zeta. rewrite app_assoc. fold l. split_and!; [done|done|size_lia|lia].
    + apply wp_mret. exists ds. cbn zeta. rewrite app_assoc, app_nil_r. fold l. split_and!; (done || lia).
Qed.

(** ** The buffer holds what the renderer produced, cut to its size *)

Section contract.
Context (b0 : list Z) (n : Z) (Hn : 0 <= n < 2 ^ 31) (Hb0 : n <= size b0).

Definition cut (out : list Z) : list Z := fill b0 (take (Z.to_nat n) out).

(** The state of the loops after the output [out]. *)
Definition holds (st : list Z * Z) (out : list Z) : Prop := st = (cut out, size out) /\ size out < 2 ^ 31.

Lemma append_char_cut pos bs out i ch :
  0 <= i -> 0 <= pos < 2 ^ 31 -> pos + i = size out -> bs = u64 (n - pos) ->
  C_SNPRINTF_APPEND_CHAR pos bs (cut out) i ch =
  (i' ← int (i + 1); mret (cut (out ++ [u8 ch]), i')).
Proof using Hn Hb0.
  intros Hi Hp Hpi ->. unfold C_SNPRINTF_APPEND_CHAR. rewrite s32_u64_small by lia.
  assert ((if i <? n - pos then wr (cut out) (pos + i) (u8 ch) else mret (cut out)) = Ret (cut (out ++ [u8 ch]))) as ->;
    [|done].
  unfold cut. destruct (Z.ltb_spec i (n - pos)).
  - rewrite !take_ge by (rewrite ?length_app; simpl; unfold size in *; lia). apply wr_fill; lia.
  - rewrite take_app_le by (unfold size in *; lia). done.
Qed.

Lemma int_cases z : int z = Ret z /\ - 2 ^ 31 <= z < 2 ^ 31 \/ int z = Fault SignedOverflow.
Proof. unfold int. case_decide; auto. Qed.

Lemma append_char_sim st out ch : holds st out ->
  osim holds (C_SNPRINTF_APPEND_CHAR 0 n st.1 st.2 ch) (emit out ch).
Proof using Hn Hb0.
  intros [-> Ho]. cbn [fst snd]. pose proof (size_nonneg out).
  rewrite (append_char_cut 0 n out) by (done || (rewrite ?u64_small by lia; lia)). unfold emit.
  destruct (int_cases (size out + 1)) as [[-> Hr]| ->]; [|done]. cbn [mbind outcome_bind].
  split; [f_equal; size_lia|size_lia].
Qed.
(** *** Integers *)

Lemma itoa_out pos bs out tmp k :
  0 <= pos < 2 ^ 31 -> pos = size out -> 0 <= k <= size tmp -> size tmp <= 40 ->
  bs = u64 (n - pos) ->
  loop 42 (fun '(b, i, k) =>
    let k := k - 1 in
    if k >=? 0 then
      c ← rd tmp k;
      '(b, i) ← C_SNPRINTF_APPEND_CHAR pos bs b i c;
      mret (inl (b, i, k))
    else mret (inr (b, i))) (cut out, 0, k)
  = Ret (cut (out ++ map u8 (rev (take (Z.to_nat k) tmp))), k).
Proof using Hn Hb0.
  intros Hp Ho Hk Ht Hbs. apply wp_eq.
  apply wp_loop with (m := fun '(_, _, k') => Z.to_nat k')
    (I := fun '(b, i, k') => 0 <= k' <= k /\ i = k - k' /\
      exists d, b = cut (out ++ d) /\ size d = i /\
        d ++ map u8 (rev (take (Z.to_nat k') tmp)) = map u8 (rev (take (Z.to_nat k) tmp))).
  - intros [[b i] k'] (Hk' & -> & d & -> & Hd & Hdt). cbn zeta.
    destruct (Z.geb_spec (k' - 1) 0).
    + destruct (rd_total tmp (k' - 1)) as (c & Hc & ->); [lia|]. cbn [mbind outcome_bind].
      rewrite append_char_cut by (try done; size_lia). rewrite int_small by lia.
      apply wp_mret. split; [|lia]. split; [lia|]. split; [lia|].
      exists (d ++ [u8 c]). rewrite <- app_assoc. split_and!; [done|size_lia|].
      rewrite <- Hdt, <- app_assoc. f_equal.
      replace (Z.to_nat k') with (S (Z.to_nat (k' - 1))) by lia.
      rewrite (take_S_r _ _ _ Hc), rev_app_distr. done.
    + apply wp_mret. replace k' with 0 in * by lia. simpl in Hdt. rewrite app_nil_r in Hdt. subst d.
      f_equal. lia.
  - split_and!; [lia|lia|lia|]. exists []. by rewrite app_nil_r.
  - lia.
Qed.

Lemma add_itoa_sim st out num base flags width : 10 <= base -> holds st out ->
  osim holds (add_itoa n st.1 st.2 num base flags width) (render_int out num base flags width).
Proof using Hn Hb0.
  intros Hbase [-> Ho]. cbn [fst snd]. pose proof (size_nonneg out).
  unfold add_itoa, c_itoa, render_int.
  pose proof (sN_range 64 num ltac:(lia)) as Hr. change (sN 64 num) with (s64 num) in Hr.
  pose proof (c_itoa_tmp_spec (s64 num) base flags width Hbase) as Hspec.
  destruct (c_itoa_tmp (s64 num) base flags width) as [[tmp k]|f] eqn:E; [|done].
  assert (0 <= k <= size tmp /\ size tmp = 40) as [Hk Ht].
  { destruct (decide (s64 num = - 2 ^ 63)) as [E0|]; [rewrite E0 in E; discriminate E|].
    destruct Hspec as (? & [= <-] & ds & _ & -> & -> & Hk); [lia|].
    rewrite size_fill by (change (size (replicate 40 0)) with 40; lia). split; [|done].
    split; [apply size_nonneg|done]. }
  cbn [mbind outcome_bind]. rewrite itoa_out by (done || lia). cbn [mbind outcome_bind].
  destruct (int_cases (size out + k)) as [[-> Hi]| ->]; [|done]. cbn [mbind outcome_bind].
  assert (size (map u8 (rev (take (Z.to_nat k) tmp))) = k)
    by (unfold size in *; rewrite length_map, length_rev, length_take; lia).
  split; [f_equal|]; size_lia.
Qed.

(** *** Strings and the format *)

Lemma append_str_sim st out width prec s : holds st out ->
  osim holds (append_str 0 n st.1 st.2 width prec s) (render_str out width prec s).
Proof using Hn Hb0.
  intros Hh. unfold append_str, render_str. apply osim_same; intros m. cbn zeta.
  apply osim_bind with (R := holds).
  - apply (osim_loop (fun '(b, i, j) '(out, j') => holds (b, i) out /\ j = j') holds); [|by destruct st].
    intros [[b i] j] [o j'] [Ho ->]. apply osim_if; intros _; [|by apply osim_ret].
    eapply osim_bind; [apply (append_char_sim (b, i) o 32 Ho)|]. intros [b' i'] o' Ho'. by apply osim_ret.
  - intros [b i] o Ho. destruct s as [m'|]; [|by apply osim_ret].
    apply (osim_loop (fun '(b, i, j) '(out, j') => holds (b, i) out /\ j = j') holds); [|done].
    intros [[b1 i1] j] [o1 j'] [Ho1 ->]. apply osim_if; intros _; [|by apply osim_ret].
    apply osim_same; intros c. apply osim_if; intros _; [by apply osim_ret|].
    eapply osim_bind; [apply (append_char_sim (b1, i1) o1 c Ho1)|]. intros [b' i'] o' Ho'. by apply osim_ret.
Qed.

Lemma int_conv_base ch lm ap arg base : int_conv ch lm ap = Some (arg, base) -> 10 <= base.
Proof. unfold int_conv. intros H. repeat case_match; simplify_eq; lia. Qed.

Lemma c_vsnprintf_render fmt ap :
  c_vsnprintf b0 n fmt ap =
  (out ← render fmt ap;
   mret (if n =? 0 then b0 else fill b0 (take (Z.to_nat (n - 1)) out ++ [0]), size out)).
Proof using Hn Hb0.
  unfold c_vsnprintf, render. cbn zeta.
  match goal with |- mbind ?k (loop ?f ?b1 _) = mbind ?k2 (loop ?f ?b2 _) =>
    assert (osim holds (loop f b1 (b0, 0, 0, ap)) (loop f b2 ([], 0, ap))) as H end.
  - apply (osim_loop (fun '(b, i, f, ap) '(out, f', ap') => holds (b, i) out /\ f = f' /\ ap = ap') holds).
    2: { split; [|done]. split; [|change (0 < 2 ^ 31); lia]. unfold cut. by rewrite take_nil. }
    intros [[[b i] f] ap1] [[out f'] ap2] (Hh & -> & ->).
    apply osim_same; intros ch. cbn zeta. apply osim_if; intros _; [by apply osim_ret|].
    apply osim_if; intros _.
    { eapply osim_bind; [apply (append_char_sim (b, i) out ch Hh)|]. intros [b' i'] o' Ho'. by apply osim_ret. }
    apply osim_same; intros cv. apply osim_if; intros _.
    { apply osim_same; intros [s ap'].
      eapply osim_bind; [apply (append_str_sim (b, i) out _ _ s Hh)|]. intros [b' i'] o' Ho'. by apply osim_ret. }
    apply osim_if; intros _.
    { apply osim_same; intros [c ap'].
      eapply osim_bind; [apply (append_char_sim (b, i) out c Hh)|]. intros [b' i'] o' Ho'. by apply osim_ret. }
    destruct (int_conv _ _ _) as [[arg base]|] eqn:Ei.
    { apply osim_same; intros [num ap'].
      eapply osim_bind; [apply (add_itoa_sim (b, i) out); [by eapply int_conv_base|done]|].
      intros [b' i'] o' Ho'. by apply osim_ret. }
    apply osim_if; intros _; [|done].
    apply osim_same; intros [num ap'].
    eapply osim_bind; [apply (append_char_sim (b, i) out 48 Hh)|]. intros [b1 i1] o1 Ho1.
    eapply osim_bind; [apply (append_char_sim (b1, i1) o1 120 Ho1)|]. intros [b2 i2] o2 Ho2.
    eapply osim_bind; [apply (add_itoa_sim (b2, i2) o2); [lia|done]|].
    intros [b' i'] o' Ho'. by apply osim_ret.
  - destruct (loop _ _ (b0, 0, 0, ap)) as [[b i]|f], (loop _ _ ([], 0, ap)) as [out|f'];
      try done; [|by rewrite H].
    destruct H as [[= -> ->] Ho]. cbn [mbind outcome_bind]. pose proof (size_nonneg out).
    rewrite Z.gtb_ltb. unfold s32. rewrite sN_small by lia. unfold cut.
    destruct (Z.ltb_spec 0 n), (Z.eqb_spec n 0); try lia.
    + assert (size (take (Z.to_nat (n - 1)) out) = Z.min (n - 1) (size out)) as Hs1
        by (unfold size; rewrite length_take; lia).
      destruct (Z.ltb_spec (size out) n).
      * rewrite !take_ge by (unfold size in *; lia). by rewrite wr_fill by lia.
      * set (l := take (Z.to_nat n) out).
        assert (l = take (Z.to_nat (n - 1)) out ++ drop (Z.to_nat (n - 1)) l) as El.
        { rewrite <- (take_drop (Z.to_nat (n - 1)) l) at 1. f_equal. unfold l. rewrite take_take. f_equal. lia. }
        assert (size l = n) as Hl by (unfold l, size; rewrite length_take; unfold size in *; lia).
        destruct (drop (Z.to_nat (n - 1)) l) as [|x [|y r]] eqn:Ed;
          [apply (f_equal size) in El; size_lia| |apply (f_equal size) in El; size_lia].
        unfold fill. rewrite El at 1. rewrite <- app_assoc. cbn [app]. rewrite wr_after by lia.
        cbn [mbind outcome_bind]. do 2 f_equal. rewrite <- app_assoc. do 2 f_equal. f_equal.
        rewrite !length_app. f_equal. apply (f_equal length) in El. rewrite length_app in El. simpl in *. lia.
    + replace n with 0 by lia. done.
Qed.
End contract.

Definition sample_args : list va := [VStr (Some (lit "GET" ++ [0])); VInt 404].

(** C20: [c_snprintf] keeps the contract of [snprintf].  For every format and
    arguments there is one text, whatever the buffer; the call stores its first
    [n - 1] characters and a terminator at the start of the buffer, touches
    nothing else, and returns the length of the whole text. *)
Theorem c_snprintf_contract b n fmt args :
  0 <= n < 2 ^ 31 -> n <= size b ->
  c_snprintf b n fmt args =
  (out ← render fmt args;
   mret (if n =? 0 then b else fill b (take (Z.to_nat (n - 1)) out ++ [0]), size out)).
Proof.
  intros Hn Hb. unfold c_snprintf. rewrite (c_vsnprintf_render b n Hn Hb).
  by destruct (render fmt args).
Qed.

Lemma c_snprintf_contract_witness :
  c_snprintf (replicate 6 7) 5 (lit "%s %03d") sample_args =
  (out ← render (lit "%s %03d") sample_args;
   mret (if 5 =? 0 then replicate 6 7 else fill (replicate 6 7) (take (Z.to_nat (5 - 1)) out ++ [0]), size out)).
Proof.
  apply (c_snprintf_contract (replicate 6 7) 5 (lit "%s %03d") sample_args); [lia|discriminate].
Defined.

Lemma digits_val_bound base ds k : 2 <= base -> Forall (fun d => 0 <= d < base) ds ->
  digits_val base ds < base ^ k -> 0 <= k -> List.last ds 1 <> 0 -> size ds <= k.
Proof.
  intros Hb Hd. revert k. induction Hd as [|d ds Hd Hds IH]; intros k Hv Hk Hlast; [unfold size; simpl; lia|].
  rewrite size_cons. assert (0 <= digits_val base ds) as H0.
  { clear -Hds Hb. induction Hds; simpl; [lia|nia]. }
  simpl in Hv. destruct ds as [|e ds].
  - simpl in *. assert (k <> 0); [|size_lia]. intros ->. change (base ^ 0) with 1 in Hv. lia.
  - assert (k <> 0) as Hk0.
    { intros ->. change (base ^ 0) with 1 in Hv.
      assert (digits_val base (e :: ds) = 0) as Hz by nia.
      specialize (IH 0). change (base ^ 0) with 1 in IH. pose proof (size_nonneg ds).
      rewrite size_cons in IH. assert (1 + size ds <= 0); [apply IH; [lia|lia|exact Hlast]|lia]. }
    assert (size (e :: ds) <= k - 1); [|lia]. apply IH; [|lia|exact Hlast].
    replace k with (Z.succ (k - 1)) in Hv by lia. rewrite Z.pow_succ_r in Hv by lia. nia.
Qed.

Lemma render_d v : render (lit "%d") [VInt v] = (out ← render_int [] (s32 v) 10 0 0; mret out).
Proof.
  unfold render. change (length (lit "%d" ++ [0])) with 3%nat. rewrite loop_S. cbv beta iota.
  change (rd (lit "%d" ++ [0]) 0) with (Ret 37). cbn -[loop parse_conv render_int lit emit].
  change (0 + 1) with 1.
  assert (forall ap, parse_conv (lit "%d" ++ [0]) 1 ap = Ret (mk_conv 0 0 0 0 100 2 ap)) as -> by reflexivity.
  cbn -[loop parse_conv render_int lit emit s32].
  destruct (render_int [] (s32 v) 10 0 0) as [out|]; [|done]. cbn -[loop lit parse_conv emit].
  rewrite loop_S. cbv beta iota. by change (rd (lit "%d" ++ [0]) 2) with (Ret 0).
Qed.

(** [c_snprintf(b, n, "%d", v)] prints every [int] in decimal: a minus sign
    for the negative ones, then the digits of the absolute value without leading
    zeros, most significant first. *)
Theorem c_snprintf_decimal b n v :
  - 2 ^ 31 <= v < 2 ^ 31 -> 12 <= n < 2 ^ 31 -> n <= size b ->
  exists ds, digits_of 10 (Z.abs v) ds /\
    let text := (if v <? 0 then [45] else []) ++ rev (map digit_char ds) in
    c_snprintf b n (lit "%d") [VInt v] = Ret (fill b (text ++ [0]), size text).
Proof.
  intros Hv Hn Hb.
  assert (exists ds, digits_of 10 (Z.abs v) ds /\ size ds <= 10 /\
    render (lit "%d") [VInt v] = Ret ((if v <? 0 then [45] else []) ++ rev (map digit_char ds))) as (ds & Hds & Hsz & Hr).
  - destruct (c_itoa_tmp_spec v 10 0 0) as ([tmp k] & E & ds & Hds & -> & -> & Hk); [lia|lia|].
    exists ds. split; [done|].
    assert (size ds <= 10) as Hsz.
    { destruct Hds as (Hne & Hd & Hval & Hl & Hz). destruct (decide (v = 0)) as [->|].
      - rewrite Hz by done. by cbn.
      - apply (digits_val_bound 10); [lia|done|rewrite Hval; change (10 ^ 10) with 10000000000; lia|lia|].
        apply Hl; lia. }
    split; [done|].
    assert (render_int [] v 10 0 0 = Ret ((if v <? 0 then [45] else []) ++ rev (map digit_char ds))) as Hi.
    { unfold render_int. change (s64 v) with (sN 64 v). rewrite sN_small by lia. rewrite E.
      cbn [mbind outcome_bind]. unfold zero_pad in *. change (0 =? 0) with true in *.
      change (replicate (Z.to_nat 0) 48) with (@nil Z) in *. rewrite !app_nil_l in *.
      set (l := map digit_char ds ++ (if v <? 0 then [45] else [])) in *.
      rewrite int_small by (change (size []) with 0; pose proof (size_nonneg l); lia). cbn [mbind outcome_bind].
      rewrite size_to_nat. unfold fill. rewrite take_app_length. cbn [app mret outcome_ret]. f_equal.
      assert (forall d, In d l -> 0 <= d < 256) as Hl.
      { intros d. unfold l. rewrite in_app_iff, in_map_iff. intros [(x & <- & Hx)|Hin].
        - destruct Hds as (_ & Hd & _). rewrite List.Forall_forall in Hd. specialize (Hd x Hx).
          unfold digit_char. case_match; lia.
        - destruct (v <? 0); simpl in Hin; lia. }
      rewrite (map_ext_in u8 id), map_id.
      - unfold l. rewrite rev_app_distr. by destruct (v <? 0).
      - intros d Hd. apply u8_small, Hl. by apply in_rev in Hd. }
    rewrite render_d, s32_small by lia. by rewrite Hi.
  - exists ds. split; [done|]. cbn zeta. unfold c_snprintf. rewrite (c_vsnprintf_render b n ltac:(lia) Hb), Hr.
    cbn [mbind outcome_bind]. destruct (Z.eqb_spec n 0); [lia|]. set (text := (if v <? 0 then [45] else []) ++ rev (map digit_char ds)).
    assert (size text <= 11) by (unfold text, size in *; rewrite length_app, length_rev, length_map; destruct (v <? 0); simpl; lia).
    rewrite take_ge by (unfold size in *; lia). done.
Qed.

Lemma c_snprintf_decimal_witness :
  exists ds, digits_of 10 (Z.abs (-2147483648)) ds /\
    let text := (if -2147483648 <? 0 then [45] else []) ++ rev (map digit_char ds) in
    c_snprintf (replicate 12 0) 12 (lit "%d") [VInt (-2147483648)] = Ret (fill (replicate 12 0) (text ++ [0]), size text).
Proof. apply (c_snprintf_decimal (replicate 12 0) 12 (-2147483648)); [lia|lia|discriminate]. Defined.

(** ** Hexadecimal dumps *)

(** The C library's [snprintf(&b[off], sz, ...)] for an output [text]. *)
Definition snprintf (b : list Z) (off sz : Z) (text : list Z) : outcome (list Z * Z) :=
  b ← (if sz =? 0 then mret b
       else let l := (if size text <? sz then text else take (Z.to_nat (sz - 1)) text) ++ [0] in
            memcpy b off l 0 (size l));
  mret (b, size text).

(** [%0wx]: hexadecimal digits, padded with zeros on the left to [w]. *)
Fixpoint hex_digits (fuel : nat) (v : Z) : list Z :=
  match fuel with
  | O => []
  | S fuel => if v <? 16 then [digit_char v] else hex_digits fuel (v / 16) ++ [digit_char (v mod 16)]
  end.
Definition fmt_x (w : nat) (v : Z) : list Z :=
  let ds := hex_digits 16 v in replicate (w - length ds) 48 ++ ds.

(** [n += snprintf(dst + n, dst_len - n, ...)] *)
Definition dump_put (dst_len : Z) (dst : list Z) (n : Z) (text : list Z) : outcome (list Z * Z) :=
  '(dst, k) ← snprintf dst n (u64 (dst_len - n)) text; n ← int (n + k); mret (dst, n).

(** The terminated string in [ascii]. *)
Definition ascii_str (ascii : list Z) : outcome (list Z) := n ← strlen ascii 0; mret (slice ascii 0 n).

Definition mg_hexdump (buf : list Z) (len : Z) (dst : list Z) (dst_len : Z) : outcome (list Z * Z) :=
  let ascii := replicate 17 0 in
  let put := dump_put dst_len in
  '(dst, ascii, n) ← loop (S (Z.to_nat len)) (fun '(dst, ascii, i, n) =>
      if i <? len then
        let idx := i mod 16 in
        '(dst, n) ← (if idx =? 0 then
            '(dst, n) ← (if i >? 0 then a ← ascii_str ascii; put dst n (lit "  " ++ a ++ [10]) else mret (dst, n));
            put dst n (fmt_x 4 i ++ [32])
          else mret (dst, n));
        c ← rd buf i;
        '(dst, n) ← put dst n ([32] ++ fmt_x 2 c);
        ascii ← wr ascii idx (if (c <? 0x20) || (c >? 0x7e) then 46 else c);
        ascii ← wr ascii (idx + 1) 0;
        mret (inl (dst, ascii, i + 1, n))
      else mret (inr (dst, ascii, n))) (dst, ascii, 0, 0);
  '(dst, n) ← loop 17 (fun '(dst, n, i) =>
      if negb (i mod 16 =? 0) then '(dst, n) ← put dst n (lit "   "); mret (inl (dst, n, i + 1))
      else mret (inr (dst, n))) (dst, n, if len >? 0 then len else 0);
  a ← ascii_str ascii;
  put dst n (lit "  " ++ a ++ [10; 10]).

Example hexdump_ex :
  mg_hexdump (lit "GET /" ++ [13]) 6 (replicate 130 0) 130 =
  Ret (lit "0000  47 45 54 20 2f 0d" ++ replicate 30 32 ++ lit "  GET /." ++ [10; 10] ++ replicate 67 0, 63).
Proof. vm_compute. reflexivity. Qed.
(** Once the text is longer than the buffer, the room left is computed as a
    negative [int] and passed as a huge [size_t]. *)
Example hexdump_overflows : mg_hexdump (lit "ab") 2 (replicate 8 0) 8 = Fault OutOfBounds.
Proof. vm_compute. reflexivity. Qed.

Lemma snprintf_fits dst out text n dst_len :
  n = size out -> size out + size text < dst_len -> dst_len < 2 ^ 31 -> dst_len <= size dst ->
  forall r : list Z, (r = [] \/ r = [0]) ->
  snprintf (fill dst (out ++ r)) n (u64 (dst_len - n)) text = Ret (fill dst (out ++ text ++ [0]), size text).
Proof.
  intros -> Ht Hd Hs r Hr. assert (length r <= 1)%nat by (by destruct Hr as [-> | ->]; simpl; lia).
  pose proof (size_nonneg out). pose proof (size_nonneg text).
  unfold snprintf. rewrite u64_small by lia. destruct (Z.eqb_spec (dst_len - size out) 0); [lia|].
  destruct (Z.ltb_spec (size text) (dst_len - size out)); [|lia]. set (l := text ++ [0]).
  assert (size l = size text + 1) as Hl by (unfold l; size_lia).
  unfold fill. rewrite <- !app_assoc. rewrite memcpy_after; [|done|done|].
  - cbn [mbind outcome_bind]. do 4 f_equal.
    rewrite drop_app_ge, drop_drop by (unfold size in *; lia). f_equal. rewrite !length_app. unfold size in *; lia.
  - unfold size in *. rewrite !length_app, length_drop, ?length_app. lia.
Qed.

(** What has been written: the text [out], and a terminator after it. *)
Definition dumped (dst0 dst : list Z) (n : Z) : Prop :=
  exists out r, dst = fill dst0 (out ++ r) /\ n = size out /\ (r = [] \/ r = [0]).

Lemma dump_put_spec dst0 dst_len dst n text :
  dumped dst0 dst n -> n + size text < dst_len -> dst_len < 2 ^ 31 -> dst_len <= size dst0 ->
  wp (dump_put dst_len dst n text) (fun '(dst', n') =>
    n' = n + size text /\ exists out, dst' = fill dst0 (out ++ [0]) /\ n' = size out).
Proof.
  intros (out & r & -> & -> & Hr) Ht Hd Hs. unfold dump_put. pose proof (size_nonneg out). pose proof (size_nonneg text).
  rewrite snprintf_fits by done. cbn [mbind outcome_bind]. rewrite int_small by lia.
  apply wp_mret. split; [done|]. exists (out ++ text). rewrite <- app_assoc. split; [done|size_lia].
Qed.

Lemma wp_put {dst0 dst_len dst n text} (Q : list Z * Z -> Prop) :
  dumped dst0 dst n -> n + size text < dst_len -> dst_len < 2 ^ 31 -> dst_len <= size dst0 ->
  (forall dst', dumped dst0 dst' (n + size text) ->
     (exists out, dst' = fill dst0 (out ++ [0]) /\ n + size text = size out) -> Q (dst', n + size text)) ->
  wp (dump_put dst_len dst n text) Q.
Proof.
  intros H1 H2 H3 H4 HQ. eapply wp_mono; [by apply (dump_put_spec dst0)|].
  intros [d' n'] [-> (out & -> & E)]. apply HQ; [|by exists out]. exists out, [0]. split_and!; auto.
Qed.

(** [ascii] holds a C string. *)
Definition ascii_ok (ascii : list Z) : Prop := size ascii = 17 /\ exists k, 0 <= k <= 16 /\ ascii !! Z.to_nat k = Some 0.

Lemma ascii_str_spec ascii : ascii_ok ascii -> wp (ascii_str ascii) (fun a => 0 <= size a <= 16).
Proof.
  intros [Hs (k & Hk & H0)]. unfold ascii_str, strlen. apply wp_bind.
  apply wp_mono with (P := fun n => 0 <= n <= 16).
  - apply wp_loop with (m := fun i => Z.to_nat (k - i)) (I := fun i => 0 <= i <= k); [|lia|unfold size in *; lia].
    intros i Hi. destruct (rd_total ascii i) as (v & Hv & ->); [lia|]. cbn [mbind outcome_bind].
    destruct (decide (i = k)) as [->|].
    + assert (v = 0) as -> by congruence. apply wp_mret. lia.
    + wp_step; apply wp_mret; lia.
  - intros n Hn. apply wp_mret. rewrite size_slice by lia. lia.
Qed.

Lemma hex_digits_len fuel k v : 0 <= v < 16 ^ Z.of_nat k -> (1 <= k)%nat -> (length (hex_digits fuel v) <= k)%nat.
Proof.
  revert v k. induction fuel as [|fuel IH]; intros v k Hv Hk; simpl; [lia|].
  destruct (Z.ltb_spec v 16); simpl; [lia|]. rewrite length_app. simpl.
  destruct k as [|k]; [lia|]. rewrite Nat2Z.inj_succ, Z.pow_succ_r in Hv by lia.
  destruct k as [|k]; [simpl in Hv; lia|].
  enough (length (hex_digits fuel (v / 16)) <= S k)%nat by lia. apply IH; [|lia]. split; [apply Z.div_pos; lia|].
  apply Z.div_lt_upper_bound; lia.
Qed.

Lemma size_fmt_x w k v : 0 <= v < 16 ^ Z.of_nat k -> (1 <= k)%nat -> (w <= k)%nat ->
  0 <= size (fmt_x w v) <= Z.of_nat k.
Proof.
  intros Hv Hk Hw. pose proof (hex_digits_len 16 k v Hv Hk). unfold fmt_x, size.
  rewrite length_app, length_replicate. lia.
Qed.

(** The length of the dump before the padding of the last line. *)
Definition dump_bound (i : Z) : Z := 28 * ((i + 15) / 16) + 3 * i.

(** With the buffer that [mg_hexdump_connection] allocates, five bytes for
    each byte dumped and a hundred more, the dump is never cut, never leaves the
    buffer, and the room passed to [snprintf] is never negative. *)
Theorem mg_hexdump_fits buf len dst dst_len :
  bytes buf -> 0 <= len <= size buf -> 5 * len + 100 <= dst_len < 2 ^ 31 -> dst_len <= size dst ->
  exists text, mg_hexdump buf len dst dst_len = Ret (fill dst (text ++ [0]), size text) /\ size text < dst_len.
Proof.
  intros Hbuf Hl Hd Hs.
  enough (wp (mg_hexdump buf len dst dst_len) (fun '(d, n) => exists out, d = fill dst (out ++ [0]) /\
    n = size out /\ n < dst_len)) as ([d n] & E & out & -> & -> & Hlt) by (by exists out).
  unfold mg_hexdump. apply wp_bind.
  apply wp_mono with (P := fun '(d, ascii, n) => dumped dst d n /\ ascii_ok ascii /\ 0 <= n <= dump_bound len).
  - apply wp_loop with (m := fun '(_, _, i, _) => Z.to_nat (len - i))
      (I := fun '(d, ascii, i, n) => dumped dst d n /\ ascii_ok ascii /\ 0 <= i <= len /\ 0 <= n <= dump_bound i);
      [|split_and!; [exists [], []; auto|split; [done|by exists 0]|lia|lia|lia|vm_compute; discriminate]|lia].
    unfold dump_bound. intros [[[d ascii] i] n] (Hdump & Ha & Hi & Hn). wp_step;
      [|apply wp_mret; replace len with i by lia; split_and!; (done || lia)].
    cbn zeta. apply wp_bind, wp_mono with (P := fun '(d, n') => dumped dst d n' /\
      0 <= n' <= 28 * ((i + 1 + 15) / 16) + 3 * i).
    { wp_step; [|apply wp_mret; split; [done|euclid]].
      apply wp_bind, wp_mono with (P := fun '(d, n') => dumped dst d n' /\ 0 <= n' <= n + 19).
      - rewrite Z.gtb_ltb. wp_step; [|apply wp_mret; split; [done|lia]].
        apply wp_bind. eapply wp_mono; [by apply ascii_str_spec|]. intros a Hla; cbn beta in Hla.
        assert (size (lit "  " ++ a ++ [10]) = size a + 3) by (rewrite !size_app; change (size (lit "  ")) with 2; change (size [10]) with 1; lia).
        apply (wp_put (dst0 := dst)); [done|euclid|lia|done|]. intros d' Hd' _. split; [done|lia].
      - intros [d1 n1] [Hd1 Hn1]. pose proof (size_fmt_x 4 8 i ltac:(simpl; lia) ltac:(lia) ltac:(lia)).
        assert (size (fmt_x 4 i ++ [32]) = size (fmt_x 4 i) + 1) by size_lia.
        apply (wp_put (dst0 := dst)); [done|euclid|lia|done|]. intros d' Hd' _. split; [done|euclid]. }
    intros [d1 n1] [Hd1 Hn1]. apply wp_bind, wp_rd; [lia|]. intros c Hc.
    assert (is_byte c) as Hcb by (by eapply Forall_lookup_1 in Hc). unfold is_byte in Hcb.
    pose proof (size_fmt_x 2 2 c ltac:(simpl; lia) ltac:(lia) ltac:(lia)).
    assert (size ([32] ++ fmt_x 2 c) = size (fmt_x 2 c) + 1) by size_lia.
    apply wp_bind, (wp_put (dst0 := dst)); [done|euclid|lia|done|]. intros d2 Hd2 _.
    destruct Ha as [Has _]. pose proof (Z.mod_pos_bound i 16).
    apply wp_bind, wp_wr; [lia|]. set (a1 := <[_:=_]> ascii).
    assert (size a1 = 17) as Ha1 by (unfold a1, size in *; rewrite length_insert; lia).
    apply wp_bind, wp_wr; [lia|]. apply wp_mret. split; [|lia]. split_and!; [done| |lia..].
    split; [unfold size in *; by rewrite length_insert|]. exists (i mod 16 + 1). split; [lia|].
    apply list_lookup_insert_eq. unfold size in *. lia.
  - unfold dump_bound. intros [[d ascii] n] (Hdump & Ha & Hn). apply wp_bind.
    apply wp_mono with (P := fun '(d, n) => dumped dst d n /\ 0 <= n <= 76 * ((len + 15) / 16)).
    + apply wp_loop with (m := fun '(_, _, i) => Z.to_nat (16 * ((len + 15) / 16) - i))
        (I := fun '(d, n, i) => dumped dst d n /\ 0 <= n <= 28 * ((len + 15) / 16) + 3 * i /\
          len <= i <= 16 * ((len + 15) / 16)).
      * intros [[d' n'] i] (Hd' & Hn' & Hi). destruct (Z.eqb_spec (i mod 16) 0); cbn [negb].
        { apply wp_mret. split; [done|euclid]. }
        apply wp_bind, (wp_put (dst0 := dst)); [done|change (size (lit "   ")) with 3; euclid|lia|done|].
        change (size (lit "   ")) with 3. intros d2 Hd2 _. apply wp_mret. split_and!; [done|lia|lia|lia|euclid|euclid].
      * rewrite Z.gtb_ltb. destruct (Z.ltb_spec 0 len); split_and!; (done || euclid).
      * rewrite Z.gtb_ltb. destruct (Z.ltb_spec 0 len); euclid.
    + intros [d' n'] [Hd' Hn']. apply wp_bind. eapply wp_mono; [by apply ascii_str_spec|].
      intros a Hla; cbn beta in Hla.
      assert (size (lit "  " ++ a ++ [10; 10]) = size a + 4) by (rewrite !size_app; change (size (lit "  ")) with 2; change (size [10; 10]) with 2; lia).
      apply (wp_put (dst0 := dst)); [done|euclid|lia|done|]. intros d2 _ (out & -> & E).
      exists out. split_and!; [done|done|euclid].
Qed.

Lemma mg_hexdump_fits_witness :
  exists text, mg_hexdump (lit "GET / HTTP/1.1") 14 (replicate 170 0) 170 =
    Ret (fill (replicate 170 0) (text ++ [0]), size text) /\ size text < 170.
Proof.
  apply (mg_hexdump_fits (lit "GET / HTTP/1.1") 14 (replicate 170 0) 170);
    [repeat constructor; lia|split; [lia|discriminate]|lia|discriminate].
Defined.
