(* ===== verification/Uri.v ===== *)
(** * URIs (mongoose.c, uri.c)

    [mg_parse_uri], a state machine over the bytes of the URI, and
    [mg_normalize_uri_path], which the static file handler applies in place to
    the path of a request before it looks for a file. *)

From Stdlib Require Import ZArith Lia String.
From stdpp Require Import base list numbers option.
From S2P Require Import Prelude Strs.

Local Open Scope Z_scope.

(** ** The code *)

(** The component up to [sep], and the position after the separator. *)
Definition parse_uri_component (b : list Z) (q e sep : Z) : outcome (mg_str * Z) :=
  q' ← scan_while (fun c => negb (c =? sep)) b e q;
  mret (mk_str (Some q) (q' - q), if q' <? e then q' + 1 else q').

Inductive uri_state := P_START | P_SCHEME_OR_PORT | P_USER_INFO | P_HOST | P_PORT | P_REST.

#[export] Instance uri_state_eq_dec : EqDecision uri_state.
Proof. solve_decision. Defined.

Record uri := mk_uri {
  rscheme : mg_str; ruser_info : mg_str; rhost : mg_str; rport : Z;
  rpath : mg_str; rquery : mg_str; rfragment : mg_str
}.

Definition no_str : mg_str := mk_str None 0.
Definition uri0 : uri := mk_uri no_str no_str no_str 0 no_str no_str no_str.

Definition is_colon_or_slash (c : Z) : bool := (c =? 58) || (c =? 47).

(** Where the scan of a [for] loop that looks for a colon or a slash stops. *)
Definition scan_colon_slash (b : list Z) (e q : Z) : outcome (Z * option Z) :=
  q ← scan_while (fun c => negb (is_colon_or_slash c)) b e q;
  if q <? e then c ← rd b q; mret (q, Some c) else mret (q, None).

(** One turn of [while (p < end) switch (state)]; [u] is [uri.p]. *)
Definition uri_step (b : list Z) (u e : Z) (st : uri_state) (q : Z) (r : uri) : outcome (uri_state * Z * uri) :=
  match st with
  | P_START =>
      '(q, c) ← scan_colon_slash b e q;
      let st := match c with Some c => if c =? 58 then P_SCHEME_OR_PORT else P_REST | None => P_START end in
      let host := if bool_decide (st = P_START) || bool_decide (st = P_REST)
                  then mk_str (Some u) (q - u) else rhost r in
      mret (st, q, mk_uri (rscheme r) (ruser_info r) host (rport r) (rpath r) (rquery r) (rfragment r))
  | P_SCHEME_OR_PORT =>
      sep ← (if e - q >=? 3 then d ← memcmp b q (lit "://" ++ [0]) 0 3; mret (d =? 0) else mret false);
      if sep : bool then
        mret (P_USER_INFO, q + 2,
          mk_uri (mk_str (Some u) (q - u)) (ruser_info r) (rhost r) (rport r) (rpath r) (rquery r) (rfragment r))
      else
        mret (P_PORT, q,
          mk_uri (rscheme r) (ruser_info r) (mk_str (Some u) (q - u)) (rport r) (rpath r) (rquery r) (rfragment r))
  | P_USER_INFO =>
      let q := q + 1 in
      let start := q in
      q ← scan_while (fun c => negb ((c =? 64) || (c =? 47))) b e q;
      '(st, q) ← (if q =? e then mret (P_HOST, start)
        else c ← rd b q; if c =? 47 then mret (P_HOST, start) else mret (P_HOST, q));
      mret (st, q,
        mk_uri (rscheme r) (mk_str (Some start) (q - start)) (rhost r) (rport r) (rpath r) (rquery r) (rfragment r))
  | P_HOST =>
      c ← rd b q;
      let q := if c =? 64 then q + 1 else q in
      let start := q in
      '(q, c) ← scan_colon_slash b e q;
      let st := match c with Some c => if c =? 58 then P_PORT else P_REST | None => P_HOST end in
      mret (st, q,
        mk_uri (rscheme r) (ruser_info r) (mk_str (Some start) (q - start)) (rport r) (rpath r) (rquery r) (rfragment r))
  | P_PORT =>
      let q := q + 1 in
      '(st, q, port) ← loop (S (length b)) (fun '(q, port) =>
          if q <? e then
            c ← rd b q;
            if c =? 47 then mret (inr (P_REST, q, port))
            else let port := u32 (port * 10) in mret (inl (q + 1, u32 (port + (s8 c - 48))))
          else mret (inr (P_PORT, q, port))) (q, rport r);
      mret (st, q,
        mk_uri (rscheme r) (ruser_info r) (rhost r) port (rpath r) (rquery r) (rfragment r))
  | P_REST =>
      '(path, q) ← parse_uri_component b q e 63;
      '(query, q) ← parse_uri_component b q e 35;
      '(fragment, q) ← parse_uri_component b q e 0;
      mret (P_REST, q, mk_uri (rscheme r) (ruser_info r) (rhost r) (rport r) path query fragment)
  end.

(** The URI is the [n] bytes at [u]; the caller's null pointers are not
    modelled, every component is returned. *)
Definition mg_parse_uri (b : list Z) (u n : Z) : outcome uri :=
  let e := u + n in
  loop (6 + Z.to_nat n) (fun '(st, q, r) =>
    if q <? e then s ← uri_step b u e st q r; mret (inl s) else mret (inr r)) (P_START, u, uri0).

(** "Backtrack to previous slash." *)
Definition backtrack (b : list Z) (cp d : Z) : outcome Z :=
  d ← (if d >? cp + 1 then c ← rd b (d - 1); mret (if c =? 47 then d - 1 else d) else mret d);
  loop (S (Z.to_nat (d - cp))) (fun d =>
    if d >? cp then c ← rd b (d - 1); if negb (c =? 47) then mret (inl (d - 1)) else mret (inr d)
    else mret (inr d)) d.

(** The body of the loop over the components of the path. *)
Definition norm_body (b : list Z) (cp se s d : Z) : outcome ((list Z * Z * Z) + (list Z * Z)) :=
  '(component, next) ← parse_uri_component b s se 47;
  dot ← mg_vcmp b component (lit ".");
  if dot =? 0 then mret (inl (b, next, d)) else
  dotdot ← mg_vcmp b component (lit "..");
  if dotdot =? 0 then d ← backtrack b cp d; mret (inl (b, next, d))
  else b ← memcpy b d b s (next - s); mret (inl (b, next, d + (next - s))).

(** The path is the [n] bytes at [s] and the result is written at [cp], in the
    same object: the buffer, the length of the result and the answer. *)
Definition mg_normalize_uri_path (b : list Z) (s n cp : Z) : outcome (list Z * Z * Z) :=
  let se := s + n in
  bad ← (if n =? 0 then mret true else c ← rd b s; mret (negb (c =? 47)));
  if bad : bool then mret (b, 0, 0) else
  '(b, d) ← loop (S (Z.to_nat n)) (fun '(b, s, d) =>
      if s <? se then norm_body b cp se s d else mret (inr (b, d))) (b, s, cp);
  '(b, d) ← (if d =? cp then b ← wr b d 47; mret (b, d + 1) else mret (b, d));
  mret (b, d - cp, 1).

Definition parse (s : string) : outcome (string * list (list Z) * Z) :=
  let b := lit s in
  r ← mg_parse_uri b 0 (size b);
  mret (s, map (str_bytes b) [rscheme r; ruser_info r; rhost r; rpath r; rquery r; rfragment r], rport r).

Example parse_uri_full :
  parse "http://me:pw@example.com:8000/a/b?x=1&y#top"
  = Ret ("http://me:pw@example.com:8000/a/b?x=1&y#top"%string,
      [lit "http"; lit "me:pw"; lit "example.com"; lit "/a/b"; lit "x=1&y"; lit "top"], 8000).
Proof. vm_compute. reflexivity. Qed.
Example parse_uri_hostport :
  parse "tcp:8000" = Ret ("tcp:8000"%string, [[]; []; lit "tcp"; []; []; []], 8000).
Proof. vm_compute. reflexivity. Qed.
Example parse_uri_nouser :
  parse "ws://h/p" = Ret ("ws://h/p"%string, [lit "ws"; []; lit "h"; lit "/p"; []; []], 0).
Proof. vm_compute. reflexivity. Qed.

Definition normalize (s : string) : outcome (list Z) :=
  let b := lit s in
  '(b, n, _) ← mg_normalize_uri_path b 0 (size b) 0;
  mret (slice b 0 n).

Example normalize_ex1 : normalize "/a/./b//../../c" = Ret (lit "/a/c"). Proof. vm_compute. reflexivity. Qed.
Example normalize_ex2 : normalize "/../../etc/passwd" = Ret (lit "/etc/passwd"). Proof. vm_compute. reflexivity. Qed.
Example normalize_ex3 : normalize "/a/b/.." = Ret (lit "/a/"). Proof. vm_compute. reflexivity. Qed.

(** ** Normalisation: a stack of path segments *)

Definition SLASH : Z := 47.

(** A path cut after each of its slashes. *)
Fixpoint segs (l : list Z) : list (list Z) :=
  match l with
  | [] => []
  | c :: r =>
      if c =? SLASH then [SLASH] :: segs r
      else match segs r with [] => [[c]] | s :: t => (c :: s) :: t end
  end.

(** A segment without its slash. *)
Definition name (seg : list Z) : list Z := before SLASH seg.

(** One segment of the path on the stack of the segments kept so far, the last
    one first: a dot is dropped, two dots remove the last segment but not the
    root, anything else is kept. *)
Definition norm_step (acc : list (list Z)) (seg : list Z) : list (list Z) :=
  if bool_decide (name seg = lit ".") then acc
  else if bool_decide (name seg = lit "..") then
    match acc with _ :: y :: r => y :: r | _ => acc end
  else seg :: acc.

Definition norm_path (l : list Z) : list Z := concat (rev (fold_left norm_step (segs l) [])).

(** [seg] ends with its only slash. *)
Definition full (seg : list Z) : Prop := exists nm, seg = nm ++ [SLASH] /\ SLASH ∉ nm.

Lemma full_root : full [SLASH].
Proof. exists []. split; [done|apply not_elem_of_nil]. Qed.

Lemma segs_concat l : concat (segs l) = l.
Proof.
  induction l as [|c r IH]; [done|]. simpl. destruct (Z.eqb_spec c SLASH) as [->|]; [by simpl; rewrite IH|].
  destruct (segs r) as [|s t]; simpl in *; by rewrite <- IH.
Qed.

(** The first segment: up to the first slash, or the whole of the path. *)
Lemma segs_cons nm r : SLASH ∉ nm -> segs (nm ++ SLASH :: r) = (nm ++ [SLASH]) :: segs r.
Proof.
  induction nm as [|c nm IH]; intros Hn; simpl; [done|].
  apply not_elem_of_cons in Hn as [Hc Hn]. destruct (Z.eqb_spec c SLASH); [congruence|]. by rewrite IH.
Qed.

Lemma segs_last nm : nm <> [] -> SLASH ∉ nm -> segs nm = [nm].
Proof.
  induction nm as [|c nm IH]; intros Hne Hn; [done|]. simpl.
  apply not_elem_of_cons in Hn as [Hc Hn]. destruct (Z.eqb_spec c SLASH); [congruence|].
  destruct nm as [|d nm]; [done|]. by rewrite IH.
Qed.

Lemma name_full nm : SLASH ∉ nm -> name (nm ++ [SLASH]) = nm.
Proof. intros. unfold name. by destruct (before_after_hit SLASH nm []) as [-> _]. Qed.

Lemma name_last nm : SLASH ∉ nm -> name nm = nm.
Proof. apply before_miss. Qed.

(** The stack while input remains: the root is at its bottom, and every segment
    is full. *)
Definition stack (acc : list (list Z)) : Prop := exists r, acc = r ++ [[SLASH]] /\ Forall full r.

Lemma stack_out acc : stack acc -> exists x, concat (rev acc) = x ++ [SLASH].
Proof.
  intros (r & -> & Hr). rewrite rev_app_distr. simpl. destruct Hr as [|seg r (nm & -> & _) Hr].
  - by exists [].
  - simpl. rewrite concat_app. simpl. rewrite app_nil_r. exists (SLASH :: concat (rev r) ++ nm).
    simpl. by rewrite app_assoc.
Qed.

Lemma scan_slash b q e nm r pre post :
  b = pre ++ nm ++ r ++ post -> size pre = q -> e = q + size nm + size r -> SLASH ∉ nm ->
  (r = [] \/ exists r', r = SLASH :: r') ->
  parse_uri_component b q e SLASH =
  Ret (mk_str (Some q) (size nm), q + size nm + (if decide (r = []) then 0 else 1)).
Proof.
  intros -> <- -> Hn Hr. pose proof (size_nonneg pre). pose proof (size_nonneg nm). pose proof (size_nonneg r).
  pose proof (size_nonneg post). unfold parse_uri_component.
  rewrite scan_while_spec by size_lia.
  replace (size pre + size nm + size r - size pre) with (size (nm ++ r)) by size_lia.
  assert (slice (pre ++ nm ++ r ++ post) (size pre) (size (nm ++ r)) = nm ++ r) as ->.
  { rewrite (app_assoc nm). by apply slice_mid. }
  assert (take_while (fun c => negb (c =? SLASH)) (nm ++ r) = nm) as ->.
  { destruct Hr as [->|[r' ->]]; [rewrite app_nil_r; by apply before_miss|].
    by destruct (before_after_hit SLASH nm r'). }
  cbn [mbind outcome_bind]. replace (size pre + size nm - size pre) with (size nm) by lia.
  destruct Hr as [->|[r' ->]].
  - rewrite decide_True by done. destruct (Z.ltb_spec (size pre + size nm) (size pre + size nm + size (@nil Z))) as [Hx|];
      [change (size (@nil Z)) with 0 in Hx; lia|]. by rewrite Z.add_0_r.
  - rewrite decide_False by done. rewrite size_cons in *. pose proof (size_nonneg r').
    destruct (Z.ltb_spec (size pre + size nm) (size pre + size nm + (1 + size r'))); [done|lia].
Qed.

(** *** Backtracking to the previous segment *)

Lemma back_scan b cp x nm q :
  b = x ++ [SLASH] ++ nm ++ q -> SLASH ∉ nm -> 0 <= cp <= size x ->
  loop (S (Z.to_nat (size x + 1 + size nm - cp))) (fun d =>
    if d >? cp then c ← rd b (d - 1); if negb (c =? 47) then mret (inl (d - 1)) else mret (inr d)
    else mret (inr d)) (size x + 1 + size nm) = Ret (size x + 1).
Proof.
  intros -> Hn Hcp. apply wp_eq. pose proof (size_nonneg nm). pose proof (size_nonneg q).
  apply wp_loop with (m := fun d => Z.to_nat (d - cp)) (I := fun d => size x + 1 <= d <= size x + 1 + size nm);
    [|lia|lia].
  intros d Hd. rewrite Z.gtb_ltb. destruct (Z.ltb_spec cp d); [|lia].
  destruct (decide (d = size x + 1)) as [->|].
  - rewrite Z.add_simpl_r. cbn [app]. rewrite rd_at0. by apply wp_mret.
  - destruct (rd_total nm (d - 1 - (size x + 1))) as (c & Hc & Hrd); [lia|].
    assert (rd (x ++ [SLASH] ++ nm ++ q) (d - 1) = Ret c) as ->.
    { rewrite (app_assoc x). rewrite rd_app_r by size_lia. rewrite rd_app_l by size_lia.
      rewrite <- Hrd. f_equal. size_lia. }
    cbn [mbind outcome_bind]. destruct (Z.eqb_spec c 47) as [->|]; cbn [negb]; [|apply wp_mret; lia].
    exfalso. apply Hn. by apply list_elem_of_lookup_2 in Hc.
Qed.

Lemma backtrack_spec b pre acc post cp d :
  stack acc -> b = pre ++ concat (rev acc) ++ post -> cp = size pre -> d = cp + size (concat (rev acc)) ->
  backtrack b cp d = Ret (cp + size (concat (rev (match acc with _ :: y :: r => y :: r | _ => acc end)))).
Proof.
  intros (r & -> & Hr) -> -> ->. pose proof (size_nonneg pre). unfold backtrack. rewrite Z.gtb_ltb.
  destruct Hr as [|seg r (nm & -> & Hnm) Hr].
  - cbn [app rev concat]. destruct (Z.ltb_spec (size pre + 1) (size pre + size [SLASH])) as [Hx|];
      [change (size [SLASH]) with 1 in Hx; lia|].
    cbn [mbind outcome_bind mret outcome_ret].
    pose proof (back_scan _ (size pre) pre [] post eq_refl (not_elem_of_nil _)) as E.
    change (size (@nil Z)) with 0 in E. rewrite Z.add_0_r in E. apply E. lia.
  - assert (stack (r ++ [[SLASH]])) as Hst by (by exists r).
    destruct (stack_out _ Hst) as (x & Hx). pose proof (size_nonneg x). pose proof (size_nonneg nm).
    assert (concat (rev (((nm ++ [SLASH]) :: r) ++ [[SLASH]])) = x ++ [SLASH] ++ nm ++ [SLASH]) as E.
    { simpl. rewrite concat_app. simpl. rewrite Hx, app_nil_r, <- app_assoc. done. }
    rewrite E.
    assert (match ((nm ++ [SLASH]) :: r) ++ [[SLASH]] with _ :: y :: r => y :: r | acc => acc end = r ++ [[SLASH]]) as E2
      by (by destruct r).
    replace (match ((nm ++ [SLASH]) :: r) ++ [[SLASH]] with _ :: y :: r => y :: r | _ => _ end) with (r ++ [[SLASH]])
      by (by destruct r).
    rewrite Hx. destruct (Z.ltb_spec (size pre + 1) (size pre + size (x ++ [SLASH] ++ nm ++ [SLASH]))); [|size_lia].
    assert (pre ++ (x ++ [SLASH] ++ nm ++ [SLASH]) ++ post = (pre ++ x ++ [SLASH] ++ nm) ++ SLASH :: post) as Eb
      by (rewrite <- !app_assoc; done).
    assert (size pre + size (x ++ [SLASH] ++ nm ++ [SLASH]) - 1 = size (pre ++ x ++ [SLASH] ++ nm)) as Es by size_lia.
    rewrite Es, Eb, rd_at0. cbn [mbind outcome_bind mret outcome_ret]. change (SLASH =? 47) with true. cbv iota.
    assert (size (pre ++ x ++ [SLASH] ++ nm) = size (pre ++ x) + 1 + size nm) as -> by size_lia.
    rewrite (back_scan _ (size pre) (pre ++ x) nm (SLASH :: post)) by (first [done|by rewrite <- !app_assoc|size_lia]).
    f_equal. size_lia.
Qed.

(** The next segment of the input. *)
Lemma segs_split l : l <> [] -> exists nm r, (SLASH ∉ nm) /\
  ((l = nm ++ SLASH :: r /\ segs l = (nm ++ [SLASH]) :: segs r) \/ (l = nm /\ r = [] /\ segs l = [nm])).
Proof.
  intros Hne. destruct (drop_while (fun x => negb (x =? SLASH)) l) as [|c r] eqn:E;
    pose proof (take_drop_while (fun x => negb (x =? SLASH)) l) as El; rewrite E in El;
    set (nm := take_while _ l) in *;
    assert (SLASH ∉ nm) as Hn by (pose proof (take_while_all (fun x => negb (x =? SLASH)) l) as Ha;
      intros Hin; eapply Forall_forall in Ha; [|by apply list_elem_of_In in Hin]; by rewrite Z.eqb_refl in Ha).
  - rewrite app_nil_r in El. exists nm, []. split; [done|]. right. rewrite <- El in Hne |- *. by rewrite segs_last.
  - apply drop_while_head in E as Hc. apply negb_false_iff, Z.eqb_eq in Hc as ->.
    exists nm, r. split; [done|]. left. split; [done|]. rewrite <- El. by apply segs_cons.
Qed.

Lemma stack_push acc nm : stack acc -> SLASH ∉ nm -> stack ((nm ++ [SLASH]) :: acc).
Proof. intros (r & -> & Hr) Hn. exists ((nm ++ [SLASH]) :: r). split; [done|]. constructor; [by exists nm|done]. Qed.

Lemma stack_pop acc : stack acc -> stack (match acc with _ :: y :: r => y :: r | _ => acc end).
Proof.
  intros (r & -> & Hr). destruct Hr as [|seg r Hs Hr]; [by exists []|]. simpl. destruct r as [|y r]; [by exists []|by exists (y :: r)].
Qed.

Lemma norm_step_stack acc nm : stack acc -> SLASH ∉ nm -> stack (norm_step acc (nm ++ [SLASH])).
Proof.
  intros Ha Hn. unfold norm_step. case_bool_decide; [done|]. case_bool_decide; [by apply stack_pop|by apply stack_push].
Qed.

(** The loop of the normalisation, from the middle of its run. *)
Definition norm_inv (pre fin post : list Z) (se : Z) (st : list Z * Z * Z) : Prop :=
  let '(b, s, d) := st in
  exists acc junk rest, b = pre ++ concat (rev acc) ++ junk ++ rest ++ post /\ bytes b /\
    d = size pre + size (concat (rev acc)) /\ s = d + size junk /\
    s + size rest = se /\ size rest < 2 ^ 31 /\
    concat (rev (fold_left norm_step (segs rest) acc)) = fin /\
    (rest = [] \/ stack acc \/ (acc = [] /\ exists r, rest = SLASH :: r)).

Lemma bytes_memcpy d off s soff n d' : memcpy d off s soff n = Ret d' -> bytes d -> bytes s -> bytes d'.
Proof.
  unfold memcpy. case_decide; [|done]. intros [= <-] Hd Hs.
  repeat apply Forall_app_2; [by apply Forall_take|by apply Forall_slice|by apply Forall_drop].
Qed.

(** Popping leaves a prefix of what was written. *)
Lemma pop_prefix acc : stack acc -> exists x,
  concat (rev acc) = concat (rev (match acc with _ :: y :: r => y :: r | _ => acc end)) ++ x.
Proof.
  intros _. destruct acc as [|x [|y r]]; [by exists []|exists []; simpl; by rewrite !app_nil_r|].
  exists x. simpl. rewrite !concat_app. simpl. by rewrite !app_nil_r.
Qed.

Lemma norm_body_spec pre post b s d nm r acc junk rest' :
  b = pre ++ concat (rev acc) ++ junk ++ (nm ++ r) ++ rest' ++ post -> bytes b ->
  d = size pre + size (concat (rev acc)) -> s = d + size junk -> SLASH ∉ nm -> size nm < 2 ^ 31 ->
  (r = [] /\ rest' = [] \/ r = [SLASH]) -> name (nm ++ r) = nm -> (stack acc \/ acc = [] /\ nm = []) ->
  exists b' junk',
    let out' := concat (rev (norm_step acc (nm ++ r))) in
    norm_body b (size pre) (s + size (nm ++ r) + size rest') s d =
      Ret (inl (b', s + size (nm ++ r), size pre + size out')) /\
    b' = pre ++ out' ++ junk' ++ rest' ++ post /\ bytes b' /\
    s + size (nm ++ r) = size pre + size out' + size junk'.
Proof.
  intros Eb Hb Hd Hs Hn Hsz Hr Hname Hacc. unfold norm_body.
  pose proof (size_nonneg pre). pose proof (size_nonneg junk). pose proof (size_nonneg (concat (rev acc))).
  pose proof (size_nonneg nm). pose proof (size_nonneg r). pose proof (size_nonneg rest'). pose proof (size_nonneg post).
  assert (r = [] /\ r ++ rest' = [] \/ r = [SLASH] /\ r ++ rest' <> []) as Hr2
    by (destruct Hr as [[-> ->]| ->]; auto).
  rewrite (scan_slash b s _ nm (r ++ rest') (pre ++ concat (rev acc) ++ junk) post);
    [|rewrite Eb, <- !app_assoc; done|size_lia|size_lia|done|
      destruct Hr as [[-> ->]| ->]; [by left|right; by exists rest']].
  cbn [mbind outcome_bind]. set (comp := mk_str (Some s) (size nm)).
  assert (s + size nm + (if decide (r ++ rest' = []) then 0 else 1) = s + size (nm ++ r)) as ->.
  { destruct Hr2 as [[-> E]|[-> E]]; [rewrite decide_True by done|rewrite decide_False by done]; rewrite size_app;
      [change (size (@nil Z)) with 0|change (size [SLASH]) with 1]; lia. }
  assert (str_bytes b comp = nm) as Hcomp.
  { unfold str_bytes, comp; simpl.
    assert (b = (pre ++ concat (rev acc) ++ junk) ++ nm ++ (r ++ rest' ++ post)) as -> by (rewrite Eb, <- !app_assoc; done).
    apply slice_mid; [size_lia|done]. }
  assert (str_in b comp) as Hin by (unfold str_in, comp; simpl; rewrite Eb; size_lia).
  assert (forall lit, bytes lit -> size lit < 2 ^ 31 ->
    exists v, mg_vcmp b comp lit = Ret v /\ (v = 0 <-> nm = lit)) as Hv.
  { intros l Hl Hls. destruct (mg_vcmp_spec b comp l) as (v & -> & E); [done..|]. exists v. by rewrite Hcomp in E. }
  destruct (Hv (lit ".")) as (v1 & -> & E1); [repeat constructor; lia|done|]. cbn [mbind outcome_bind].
  unfold norm_step. rewrite Hname. destruct (Z.eqb_spec v1 0) as [Ez|Ez].
  - rewrite bool_decide_eq_true_2 by tauto. exists b, (junk ++ (nm ++ r)).
    split_and!; [by rewrite Hd|by rewrite Eb, <- !app_assoc|done|size_lia].
  - rewrite bool_decide_eq_false_2 by tauto.
    destruct (Hv (lit "..")) as (v2 & -> & E2); [repeat constructor; lia|done|]. cbn [mbind outcome_bind].
    destruct (Z.eqb_spec v2 0) as [Ez2|Ez2].
    + rewrite bool_decide_eq_true_2 by tauto.
      assert (stack acc) as Hst by (destruct Hacc as [|[_ ->]]; [done|exfalso; apply E2 in Ez2; discriminate]).
      rewrite (backtrack_spec b pre acc (junk ++ (nm ++ r) ++ rest' ++ post)) by done.
      cbn [mbind outcome_bind]. destruct (pop_prefix acc Hst) as (x & Hx).
      set (acc' := match acc with _ :: _ => _ | _ => _ end) in *.
      exists b, (x ++ junk ++ (nm ++ r)).
      split_and!; [done|by rewrite Eb, Hx, <- !app_assoc|done|rewrite Hx in *; size_lia].
    + rewrite bool_decide_eq_false_2 by tauto.
      destruct (copy_down pre (concat (rev acc)) junk (nm ++ r) rest' post s d (s + size (nm ++ r) - s))
        as (junk' & Hj & Hcp); [done|done|lia|].
      assert (concat (rev ((nm ++ r) :: acc)) = concat (rev acc) ++ nm ++ r) as Eo
        by (simpl; rewrite concat_app; simpl; by rewrite app_nil_r).
      rewrite Eo. rewrite <- app_assoc in Hcp. rewrite <- Eb in Hcp. rewrite Hcp. cbn [mbind outcome_bind].
      replace (d + (s + size (nm ++ r) - s)) with (size pre + size (concat (rev acc) ++ nm ++ r)) by size_lia.
      eexists _, junk'. split_and!; [done|done| |size_lia].
      by eapply bytes_memcpy.
Qed.

Lemma norm_turn pre fin post se b s d :
  norm_inv pre fin post se (b, s, d) -> s < se ->
  exists b' s' d', norm_body b (size pre) se s d = Ret (inl (b', s', d')) /\ s < s' /\
    norm_inv pre fin post se (b', s', d').
Proof.
  intros (acc & junk & rest & Eb & Hb & Hd & Hs & Hse & Hr31 & Hfin & Hst) Hlt.
  assert (rest <> []) as Hne by (intros ->; change (size (@nil Z)) with 0 in Hse; lia).
  destruct Hst as [|Hst]; [done|].
  destruct (segs_split rest Hne) as (nm & r0 & Hn & [[-> Esegs]|(-> & -> & Esegs)]).
  - pose proof (size_nonneg nm). pose proof (size_nonneg r0).
    destruct (norm_body_spec pre post b s d nm [SLASH] acc junk r0) as (b' & junk' & E & Eb' & Hb' & Hs');
      try done.
    { by rewrite Eb, <- !app_assoc. }
    { size_lia. }
    { by right. }
    { by apply name_full. }
    { destruct Hst as [|[-> [r E]]]; [by left|right]. split; [done|]. destruct nm as [|x nm]; [done|].
      injection E as -> _. by destruct Hn; left. }
    replace se with (s + size (nm ++ [SLASH]) + size r0) by size_lia.
    eexists _, _, _; split; [exact E|]. split; [size_lia|].
    eexists _, junk', r0. split_and!; [done|done|done|lia|lia|size_lia| |].
    + by rewrite Esegs in Hfin.
    + right. left. destruct Hst as [Hst|[-> [r Er]]]; [by apply norm_step_stack|].
      destruct nm as [|x nm]; [by exists []|]. injection Er as -> _. by destruct Hn; left.
  - pose proof (size_nonneg nm).
    destruct (norm_body_spec pre post b s d nm [] acc junk []) as (b' & junk' & E & Eb' & Hb' & Hs'); try done.
    { by rewrite Eb, app_nil_r. }
    { by left. }
    { rewrite app_nil_r. by apply name_last. }
    { destruct Hst as [|[-> [r ->]]]; [by left|]. by destruct Hn; left. }
    rewrite !app_nil_r in *. change (size (@nil Z)) with 0 in E.
    replace se with (s + size nm + 0) by lia.
    eexists _, _, _; split; [exact E|].
    assert (0 < size nm) by (destruct nm; [done|size_lia]). split; [lia|].
    eexists _, junk', []. change (size (@nil Z)) with 0. split_and!; [done|done|done|lia|lia|lia| |by left].
    by rewrite Esegs in Hfin.
Qed.

Lemma norm_loop_spec pre l post :
  bytes (pre ++ l ++ post) -> size l < 2 ^ 31 -> (exists r, l = SLASH :: r) ->
  wp (loop (S (Z.to_nat (size l))) (fun '(b, s, d) =>
        if s <? size pre + size l then norm_body b (size pre) (size pre + size l) s d else mret (inr (b, d)))
        (pre ++ l ++ post, size pre, size pre))
    (fun '(b, d) => d = size pre + size (norm_path l) /\ size (norm_path l) <= size l /\
       exists q, b = pre ++ norm_path l ++ q ++ post /\ size (norm_path l) + size q = size l /\ bytes b).
Proof.
  intros Hb Hl Hslash. pose proof (size_nonneg pre).
  apply wp_loop with (m := fun '(_, s, _) => Z.to_nat (size pre + size l - s))
    (I := norm_inv pre (norm_path l) post (size pre + size l)).
  - intros [[b s] d] Hinv. wp_step.
    + destruct (norm_turn _ _ _ _ _ _ _ Hinv) as (b' & s' & d' & -> & Hs & Hinv'); [done|].
      apply wp_ret. split; [done|lia].
    + apply wp_mret. destruct Hinv as (acc & junk & rest & Eb & Hb' & Hd & Hs & Hse & _ & Hfin & _).
      pose proof (size_nonneg junk). pose proof (size_nonneg rest).
      assert (rest = []) as -> by (destruct rest; [done|]; size_lia). simpl in Hfin. rewrite Hfin in *.
      split_and!; [done|lia|]. exists junk. split_and!; [done|size_simpl; lia|done].
  - exists [], [], l. split_and!; [done|done| | |done|done|done|right; right; by split];
      change (size (concat (rev []))) with 0; change (size (@nil Z)) with 0; lia.
  - lia.
Qed.

(** *** The normal form *)

Definition is_dots (nm : list Z) : bool := bool_decide (nm = lit ".") || bool_decide (nm = lit "..").

Lemma norm_step_clean acc seg :
  Forall (fun s => is_dots (name s) = false) acc -> Forall (fun s => is_dots (name s) = false) (norm_step acc seg).
Proof.
  intros Ha. unfold norm_step. case_bool_decide; [done|]. case_bool_decide.
  - destruct Ha as [|x acc Hx Ha]; [constructor|]. destruct acc; [by constructor|done].
  - constructor; [|done]. unfold is_dots. by rewrite !bool_decide_eq_false_2.
Qed.

(** The segments of [l], full but for the last. *)
Lemma segs_shape l : exists r t, segs l = r ++ t /\ Forall full r /\ (t = [] \/ exists nm, t = [nm] /\ nm <> [] /\ SLASH ∉ nm).
Proof.
  induction l as [|c l (r & t & E & Hr & Ht)]; [by exists [], []; auto|]. simpl. rewrite E.
  destruct (Z.eqb_spec c SLASH) as [->|Hc].
  - exists ([SLASH] :: r), t. split_and!; [done|constructor; [apply full_root|done]|done].
  - destruct Hr as [|s r (nm & -> & Hn) Hr]; simpl.
    + destruct Ht as [->|(nm & -> & Hne & Hn)].
      * exists [], [[c]]. split_and!; [done|constructor|]. right. exists [c]. split_and!; [done|done|].
        apply not_elem_of_cons; split; [done|apply not_elem_of_nil].
      * exists [], [c :: nm]. split_and!; [done|constructor|]. right. exists (c :: nm). split_and!; [done|done|].
        by apply not_elem_of_cons.
    + exists ((c :: nm ++ [SLASH]) :: r), t. split_and!; [done| |done]. constructor; [|done].
      exists (c :: nm). split; [done|]. by apply not_elem_of_cons.
Qed.

Lemma segs_full_app r x : Forall full r -> segs (concat r ++ x) = r ++ segs x.
Proof.
  induction 1 as [|s r (nm & -> & Hn) _ IH]; [done|]. simpl.
  rewrite <- !app_assoc. simpl. rewrite segs_cons by done. by rewrite IH.
Qed.

Lemma stack_full acc : stack acc -> Forall full acc.
Proof. intros (r & -> & Hr). apply Forall_app_2; [done|]. constructor; [apply full_root|constructor]. Qed.

Lemma Forall_rev' {A} (P : A -> Prop) (l : list A) : Forall P l -> Forall P (rev l).
Proof. intros H. apply List.Forall_forall. intros x Hx. apply in_rev in Hx. by apply (proj1 (List.Forall_forall _ _) H). Qed.

Lemma stack_segs acc : stack acc -> segs (concat (rev acc)) = rev acc.
Proof.
  intros H%stack_full. rewrite <- (app_nil_r (concat _)).
  rewrite segs_full_app by (by apply Forall_rev'). simpl. by rewrite app_nil_r.
Qed.

Lemma fold_stack r acc : Forall full r -> stack acc -> stack (fold_left norm_step r acc).
Proof.
  intros Hr. revert acc. induction Hr as [|s r (nm & -> & Hn) _ IH]; intros acc Ha; [done|]. simpl.
  by apply IH, norm_step_stack.
Qed.

(** What the stack holds at the end is the segments of the result. *)
Lemma norm_path_segs l : (exists r, l = SLASH :: r) ->
  segs (norm_path l) = rev (fold_left norm_step (segs l) []).
Proof.
  intros [r0 ->]. unfold norm_path. destruct (segs_shape r0) as (r & t & E & Hr & Ht).
  change (segs (SLASH :: r0)) with ([SLASH] :: segs r0). rewrite E. simpl fold_left. rewrite fold_left_app.
  change (norm_step [] [SLASH]) with [[SLASH]].
  assert (stack [[SLASH]]) as H0 by (exists []; split; [done|constructor]).
  pose proof (fold_stack r _ Hr H0) as Hst. set (acc := fold_left norm_step r _) in *.
  destruct Ht as [->|(nm & -> & Hne & Hn)]; simpl; [by apply stack_segs|].
  unfold norm_step. case_bool_decide; [by apply stack_segs|]. case_bool_decide; [by apply stack_segs, stack_pop|].
  simpl. rewrite concat_app. simpl. rewrite app_nil_r.
  rewrite segs_full_app by (by apply Forall_rev', stack_full). by rewrite segs_last.
Qed.

Lemma norm_path_clean l : (exists r, l = SLASH :: r) -> Forall (fun s => is_dots (name s) = false) (segs (norm_path l)).
Proof.
  intros Hl. rewrite norm_path_segs by done. apply Forall_rev'.
  assert (forall ss acc, Forall (fun s => is_dots (name s) = false) acc ->
    Forall (fun s => is_dots (name s) = false) (fold_left norm_step ss acc)) as H.
  { induction ss as [|s ss IH]; intros acc Ha; [done|]. simpl. by apply IH, norm_step_clean. }
  apply H. constructor.
Qed.

Lemma norm_path_id l : Forall (fun s => is_dots (name s) = false) (segs l) -> norm_path l = l.
Proof.
  intros H. unfold norm_path.
  assert (forall ss acc, Forall (fun s => is_dots (name s) = false) ss ->
    fold_left norm_step ss acc = rev ss ++ acc) as Hf.
  { induction ss as [|s ss IH]; intros acc Hs; [done|]. apply Forall_cons_1 in Hs as [Hs Hss]. simpl. rewrite IH by done.
    unfold is_dots in Hs. apply orb_false_iff in Hs as [H1 H2]. unfold norm_step. rewrite H1, H2. by rewrite <- app_assoc. }
  rewrite Hf, app_nil_r, rev_involutive by done. apply segs_concat.
Qed.

Lemma norm_path_slash l : (exists r, l = SLASH :: r) -> exists o, norm_path l = SLASH :: o.
Proof.
  intros Hl. assert (exists x, segs (norm_path l) = [SLASH] :: x) as [x Hx].
  { rewrite norm_path_segs by done. destruct Hl as [r ->]. change (segs (SLASH :: r)) with ([SLASH] :: segs r).
    simpl fold_left. change (norm_step [] [SLASH]) with [[SLASH]].
    assert (forall ss acc, (exists a, acc = a ++ [[SLASH]]) -> exists a, fold_left norm_step ss acc = a ++ [[SLASH]]) as H.
    { induction ss as [|s ss IH]; intros acc Ha; [done|]. simpl. apply IH. destruct Ha as [a ->].
      unfold norm_step. case_bool_decide; [by exists a|]. case_bool_decide; [|by exists (s :: a)].
      destruct a as [|y [|z a]]; [by exists []|by exists []|by exists (z :: a)]. }
    destruct (H (segs r) [[SLASH]]) as [a ->]; [by exists []|]. rewrite rev_app_distr. by eexists. }
  exists (concat x). rewrite <- (segs_concat (norm_path l)), Hx. done.
Qed.

Lemma normalize_uri_path pre l post :
  bytes (pre ++ l ++ post) -> size l < 2 ^ 31 -> (exists r, l = SLASH :: r) ->
  exists q, mg_normalize_uri_path (pre ++ l ++ post) (size pre) (size l) (size pre) =
    Ret (pre ++ norm_path l ++ q ++ post, size (norm_path l), 1) /\
  size (norm_path l) <= size l /\
  (exists o, norm_path l = SLASH :: o) /\
  Forall (fun s => is_dots (name s) = false) (segs (norm_path l)) /\
  norm_path (norm_path l) = norm_path l /\
  size (norm_path l) + size q = size l /\ bytes (pre ++ norm_path l ++ q ++ post).
Proof.
  intros Hb Hl Hs. pose proof (norm_path_clean l Hs) as Hc. destruct (norm_path_slash l Hs) as [o Ho].
  destruct (norm_loop_spec pre l post Hb Hl Hs) as ([b d] & E & -> & Hle & q & -> & Hq & Hbq).
  exists q. split; [|split_and!; [done|by exists o|done|by apply norm_path_id|done|done]].
  unfold mg_normalize_uri_path. pose proof (size_nonneg l). pose proof (size_nonneg pre).
  assert (1 <= size (norm_path l)) by (rewrite Ho; pose proof (size_nonneg o); size_lia).
  destruct (Z.eqb_spec (size l) 0); [lia|].
  assert (rd (pre ++ l ++ post) (size pre) = Ret SLASH) as -> by (destruct Hs as [r ->]; apply rd_at0).
  cbn [mbind outcome_bind mret outcome_ret]. change (negb (SLASH =? 47)) with false. cbv iota.
  rewrite E. cbn [mbind outcome_bind].
  destruct (Z.eqb_spec (size pre + size (norm_path l)) (size pre)); [lia|].
  cbn [mbind outcome_bind mret outcome_ret]. do 2 f_equal. f_equal. lia.
Qed.

(** C1: [mg_normalize_uri_path], run in place on a path that starts with a
    slash, leaves the normal form of the path at the place of the path and
    touches nothing else.  The normal form starts with a slash, has no component
    "." or "..", so it cannot leave the document root, and is its own normal
    form. *)
Theorem mg_normalize_uri_path_safe pre l post :
  bytes (pre ++ l ++ post) -> size l < 2 ^ 31 -> (exists r, l = SLASH :: r) ->
  exists q, mg_normalize_uri_path (pre ++ l ++ post) (size pre) (size l) (size pre) =
    Ret (pre ++ norm_path l ++ q ++ post, size (norm_path l), 1) /\
  size (norm_path l) <= size l /\
  (exists o, norm_path l = SLASH :: o) /\
  Forall (fun s => is_dots (name s) = false) (segs (norm_path l)) /\
  norm_path (norm_path l) = norm_path l.
Proof.
  intros Hb Hl Hs. destruct (normalize_uri_path pre l post Hb Hl Hs) as (q & E & H1 & H2 & H3 & H4 & _). by exists q.
Qed.

Lemma mg_normalize_uri_path_safe_witness :
  exists q, mg_normalize_uri_path (lit "GET " ++ lit "/a/../../etc/./x" ++ lit " HTTP/1.1") 4 16 4 =
    Ret (lit "GET " ++ norm_path (lit "/a/../../etc/./x") ++ q ++ lit " HTTP/1.1", 6, 1) /\
  6 <= 16 /\
  (exists o, norm_path (lit "/a/../../etc/./x") = SLASH :: o) /\
  Forall (fun s => is_dots (name s) = false) (segs (norm_path (lit "/a/../../etc/./x"))) /\
  norm_path (norm_path (lit "/a/../../etc/./x")) = norm_path (lit "/a/../../etc/./x").
Proof.
  apply (mg_normalize_uri_path_safe (lit "GET ") (lit "/a/../../etc/./x") (lit " HTTP/1.1"));
    [repeat constructor; lia|reflexivity|by eexists].
Defined.

(** ** Parsing an absolute URI *)

Record uri_parts := mk_parts {
  u_scheme : list Z; u_user : list Z; u_host : list Z; u_port : list Z;
  u_path : list Z; u_query : list Z; u_fragment : list Z
}.

(** [scheme://user@host:port/path?query#fragment] *)
Definition unparse (x : uri_parts) : list Z :=
  u_scheme x ++ lit "://" ++ u_user x ++ lit "@" ++ u_host x ++ lit ":" ++ u_port x ++
  SLASH :: u_path x ++ lit "?" ++ u_query x ++ lit "#" ++ u_fragment x.

Definition none_of (cs : list Z) (l : list Z) : Prop := Forall (fun c => c ∉ cs) l.

(** The characters that end a component do not occur in it. *)
Record parts_ok (x : uri_parts) : Prop := {
  ok_scheme : none_of (lit ":/") (u_scheme x);
  ok_user : none_of (lit "@/") (u_user x);
  ok_host : none_of (lit ":/") (u_host x);
  ok_port : Forall (fun c => 48 <= c <= 57) (u_port x);
  ok_path : none_of (lit "?") (u_path x);
  ok_query : none_of (lit "#") (u_query x);
  ok_fragment : none_of [0] (u_fragment x)
}.

(** The number the digits of the port denote, in an [unsigned int]. *)
Definition port_value (ds : list Z) : Z := fold_left (fun v c => u32 (v * 10 + (c - 48))) ds 0.

Lemma none_of_scan cs l (f : Z -> bool) :
  none_of cs l -> (forall c, c ∉ cs -> f c = true) -> Forall (fun c => f c = true) l.
Proof. intros H Hf. eapply List.Forall_impl; [|exact H]. intros c Hc. by apply Hf. Qed.

Lemma not_in_cons (c x : Z) l : c ∉ x :: l -> (c =? x) = false /\ c ∉ l.
Proof. intros [H1 H2]%not_elem_of_cons. split; [by apply Z.eqb_neq|done]. Qed.

(** The scans of the machine skip a component that has none of its ends. *)
Lemma scan_colon_slash_hit b e q pre l r x :
  b = pre ++ l ++ x :: r -> q = size pre -> size pre + size l < e <= size b ->
  none_of (lit ":/") l -> x = 58 \/ x = 47 ->
  scan_colon_slash b e q = Ret (q + size l, Some x).
Proof.
  intros Hb Hq He Hl Hx. unfold scan_colon_slash.
  rewrite (scan_while_at _ b e q pre l r x); [|done..| |].
  - cbn [mbind outcome_bind]. destruct (Z.ltb_spec (q + size l) e); [|lia].
    assert (rd b (q + size l) = Ret x) as ->; [|done].
    rewrite Hb, Hq, app_assoc, <- size_app. apply rd_at0.
  - eapply none_of_scan; [done|]. intros c Hc. change (lit ":/") with [58; 47] in Hc.
    apply not_in_cons in Hc as [H1 Hc]. apply not_in_cons in Hc as [H2 _]. unfold is_colon_or_slash. by rewrite H1, H2.
  - unfold is_colon_or_slash. by destruct Hx as [-> | ->].
Qed.

(** The digits of the port, up to the slash. *)
Lemma port_loop b e q pre ds r port :
  b = pre ++ ds ++ SLASH :: r -> q = size pre -> size pre + size ds < e <= size b ->
  Forall (fun c => 48 <= c <= 57) ds ->
  loop (S (length b)) (fun '(q, port) =>
    if q <? e then
      c ← rd b q;
      if c =? 47 then mret (inr (P_REST, q, port))
      else mret (inl (q + 1, u32 (u32 (port * 10) + (s8 c - 48))))
    else mret (inr (P_PORT, q, port))) (q, port)
  = Ret (P_REST, q + size ds, fold_left (fun v c => u32 (v * 10 + (c - 48))) ds port).
Proof.
  intros Hb Hq He Hds. pose proof (size_nonneg pre). pose proof (size_nonneg ds). apply wp_eq.
  apply wp_loop with (m := fun '(q', _) => Z.to_nat (e - q'))
    (I := fun '(q', port') => exists d1 d2, ds = d1 ++ d2 /\ q' = q + size d1 /\
       port' = fold_left (fun v c => u32 (v * 10 + (c - 48))) d1 port).
  - intros [q' port'] (d1 & d2 & -> & -> & ->). apply Forall_app in Hds as [H1 H2]. size_simpl.
    pose proof (size_nonneg d1). pose proof (size_nonneg d2).
    destruct (Z.ltb_spec (q + size d1) e); [|lia].
    destruct H2 as [|c d2 Hc H2].
    + assert (rd b (q + size d1) = Ret SLASH) as ->.
      { rewrite Hb, Hq, app_nil_r, app_assoc, <- size_app. apply rd_at0. }
      apply wp_mret. change (size (@nil Z)) with 0. by rewrite app_nil_r, Z.add_0_r.
    + assert (rd b (q + size d1) = Ret c) as ->.
      { rewrite Hb, Hq. rewrite <- (app_assoc d1), (app_assoc pre), <- size_app. apply rd_at0. }
      cbn [mbind outcome_bind]. destruct (Z.eqb_spec c 47); [lia|]. apply wp_mret. split; [|lia].
      exists (d1 ++ [c]), d2. rewrite <- app_assoc. split_and!; [done|size_lia|].
      rewrite fold_left_app. simpl. unfold s8. rewrite sN_small by (change (2 ^ (8 - 1)) with 128; lia).
      by rewrite u32_add_l.
  - exists [], ds. change (size (@nil Z)) with 0. split_and!; (done || lia).
  - unfold size in *. lia.
Qed.

Section steps.
Context (x : uri_parts) (Hok : parts_ok x).
Let b := unparse x.
Let e := size b.

(** Where the components start. *)
Definition at_user : Z := size (u_scheme x) + 3.
Definition at_host : Z := at_user + size (u_user x) + 1.
Definition at_port : Z := at_host + size (u_host x) + 1.
Definition at_path : Z := at_port + size (u_port x).
Definition at_query : Z := at_path + 1 + size (u_path x) + 1.
Definition at_fragment : Z := at_query + size (u_query x) + 1.

Ltac parts := unfold at_fragment, at_query, at_path, at_port, at_host, at_user, e, b, unparse; size_simpl;
  change (size (lit "://")) with 3; change (size (lit "@")) with 1; change (size (lit ":")) with 1;
  change (size (lit "?")) with 1; change (size (lit "#")) with 1;
  pose proof (size_nonneg (u_scheme x)); pose proof (size_nonneg (u_user x)); pose proof (size_nonneg (u_host x));
  pose proof (size_nonneg (u_port x)); pose proof (size_nonneg (u_path x)); pose proof (size_nonneg (u_query x));
  pose proof (size_nonneg (u_fragment x)); unfold SLASH; lia.

Lemma end_fragment : e = at_fragment + size (u_fragment x).
Proof. parts. Qed.

Lemma step_start r :
  uri_step b 0 e P_START 0 r = Ret (P_SCHEME_OR_PORT, size (u_scheme x), r).
Proof using Hok.
  unfold uri_step. rewrite (scan_colon_slash_hit b e 0 [] (u_scheme x) (lit "//" ++ u_user x ++ lit "@" ++ u_host x ++
    lit ":" ++ u_port x ++ SLASH :: u_path x ++ lit "?" ++ u_query x ++ lit "#" ++ u_fragment x) 58);
    [|done|done|parts|apply Hok|by left].
  cbn [mbind outcome_bind]. change (58 =? 58) with true. cbv iota. by destruct r.
Qed.

Lemma step_scheme r : rhost r = no_str ->
  uri_step b 0 e P_SCHEME_OR_PORT (size (u_scheme x)) r =
  Ret (P_USER_INFO, size (u_scheme x) + 2,
    mk_uri (mk_str (Some 0) (size (u_scheme x))) (ruser_info r) (rhost r) (rport r) (rpath r) (rquery r) (rfragment r)).
Proof using Hok.
  intros _. unfold uri_step. destruct (Z.geb_spec (e - size (u_scheme x)) 3) as [|Hx]; [|exfalso; revert Hx; parts].
  assert (memcmp b (size (u_scheme x)) (lit "://" ++ [0]) 0 3 = Ret 0) as ->.
  { unfold memcmp. change (S (Z.to_nat 3)) with 4%nat. set (l := size (u_scheme x)).
    assert (forall k c, 0 <= k -> lit "://" !! Z.to_nat k = Some c -> rd b (l + k) = Ret c) as Hrd.
    { intros k c Hk Hc. unfold b, unparse, l. apply rd_at; [done|]. rewrite lookup_app_l; [done|].
      by apply lookup_lt_Some in Hc. }
    assert (forall k c, 0 <= k < 3 -> lit "://" !! Z.to_nat k = Some c ->
      (if k <? 3 then x ← rd b (l + k); y ← rd (lit "://" ++ [0]) (0 + k);
         if x =? y then mret (inl (k + 1)) else mret (inr (x - y)) else mret (inr 0)) = Ret (inl (A := Z) (B := Z) (k + 1))) as Hs.
    { intros k c Hk Hc. destruct (Z.ltb_spec k 3); [|lia]. rewrite (Hrd k c) by (done || lia). cbn [mbind outcome_bind].
      rewrite (rd_ib (lit "://" ++ [0]) (0 + k) c) by (try lia; by rewrite lookup_app_l; [|apply lookup_lt_Some in Hc]).
      cbn [mbind outcome_bind]. by rewrite Z.eqb_refl. }
    rewrite loop_S, (Hs 0 58) by done. change (0 + 1) with 1.
    rewrite loop_S, (Hs 1 47) by done. change (1 + 1) with 2. by rewrite loop_S, (Hs 2 47) by done. }
  cbn [mbind outcome_bind mret outcome_ret]. change (0 =? 0) with true. cbv iota. by rewrite Z.sub_0_r.
Qed.

Lemma step_user r :
  uri_step b 0 e P_USER_INFO (size (u_scheme x) + 2) r =
  Ret (P_HOST, at_user + size (u_user x),
    mk_uri (rscheme r) (mk_str (Some at_user) (size (u_user x))) (rhost r) (rport r) (rpath r) (rquery r) (rfragment r)).
Proof using Hok.
  unfold uri_step. replace (size (u_scheme x) + 2 + 1) with at_user by parts.
  rewrite (scan_while_at _ b e at_user (u_scheme x ++ lit "://") (u_user x)
    (u_host x ++ lit ":" ++ u_port x ++ SLASH :: u_path x ++ lit "?" ++ u_query x ++ lit "#" ++ u_fragment x) 64);
    [|unfold b, unparse; by rewrite <- !app_assoc|by rewrite size_app|parts| |done].
  - cbn [mbind outcome_bind]. destruct (Z.eqb_spec (at_user + size (u_user x)) e) as [Hx|]; [exfalso; revert Hx; parts|].
    assert (rd b (at_user + size (u_user x)) = Ret 64) as ->.
    { unfold b, unparse. rewrite (app_assoc (u_scheme x)), (app_assoc (_ ++ lit "://")).
      replace (at_user + size (u_user x)) with (size ((u_scheme x ++ lit "://") ++ u_user x)) by parts. apply rd_at0. }
    cbn [mbind outcome_bind]. change (64 =? 47) with false. cbn [mbind outcome_bind mret outcome_ret].
    by replace (at_user + size (u_user x) - at_user) with (size (u_user x)) by lia.
  - eapply none_of_scan; [apply Hok|]. intros c Hc. change (lit "@/") with [64; 47] in Hc.
    apply not_in_cons in Hc as [H1 Hc]. apply not_in_cons in Hc as [H2 _]. by rewrite H1, H2.
Qed.

Lemma step_host r :
  uri_step b 0 e P_HOST (at_user + size (u_user x)) r =
  Ret (P_PORT, at_host + size (u_host x),
    mk_uri (rscheme r) (ruser_info r) (mk_str (Some at_host) (size (u_host x))) (rport r) (rpath r) (rquery r) (rfragment r)).
Proof using Hok.
  unfold uri_step.
  assert (rd b (at_user + size (u_user x)) = Ret 64) as ->.
  { unfold b, unparse. rewrite (app_assoc (u_scheme x)), (app_assoc (_ ++ lit "://")).
    replace (at_user + size (u_user x)) with (size ((u_scheme x ++ lit "://") ++ u_user x)) by parts. apply rd_at0. }
  cbn [mbind outcome_bind]. change (64 =? 64) with true. cbv iota zeta.
  change (at_user + size (u_user x) + 1) with at_host.
  rewrite (scan_colon_slash_hit b e at_host (u_scheme x ++ lit "://" ++ u_user x ++ lit "@") (u_host x)
    (u_port x ++ SLASH :: u_path x ++ lit "?" ++ u_query x ++ lit "#" ++ u_fragment x) 58);
    [|unfold b, unparse; by rewrite <- !app_assoc|parts|parts|apply Hok|by left].
  cbn [mbind outcome_bind mret outcome_ret]. change (58 =? 58) with true. cbv iota.
  by replace (at_host + size (u_host x) - at_host) with (size (u_host x)) by lia.
Qed.

Lemma step_port r : rport r = 0 ->
  uri_step b 0 e P_PORT (at_host + size (u_host x)) r =
  Ret (P_REST, at_path,
    mk_uri (rscheme r) (ruser_info r) (rhost r) (port_value (u_port x)) (rpath r) (rquery r) (rfragment r)).
Proof using Hok.
  intros Hp. unfold uri_step. rewrite Hp. cbv zeta. change (at_host + size (u_host x) + 1) with at_port.
  rewrite (port_loop b e at_port (u_scheme x ++ lit "://" ++ u_user x ++ lit "@" ++ u_host x ++ lit ":") (u_port x)
    (u_path x ++ lit "?" ++ u_query x ++ lit "#" ++ u_fragment x) 0);
    [|unfold b, unparse; by rewrite <- !app_assoc|parts|parts|apply Hok].
  done.
Qed.

Lemma component_hit pre l r sep q :
  b = pre ++ l ++ sep :: r -> q = size pre -> none_of [sep] l ->
  parse_uri_component b q e sep = Ret (mk_str (Some q) (size l), q + size l + 1).
Proof.
  intros Hb Hq Hl. unfold parse_uri_component. pose proof (size_nonneg r). pose proof (size_nonneg l).
  assert (size b = size pre + size l + 1 + size r) as Hs by (rewrite Hb; size_lia).
  rewrite (scan_while_at _ b e q pre l r sep); [|done..|unfold e; lia| |by rewrite Z.eqb_refl].
  - cbn [mbind outcome_bind]. unfold e. destruct (Z.ltb_spec (q + size l) (size b)); [|lia].
    by replace (q + size l - q) with (size l) by lia.
  - eapply none_of_scan; [done|]. intros c Hc. apply not_in_cons in Hc as [H1 _]. by rewrite H1.
Qed.

Lemma step_rest r :
  uri_step b 0 e P_REST at_path r =
  Ret (P_REST, e,
    mk_uri (rscheme r) (ruser_info r) (rhost r) (rport r) (mk_str (Some at_path) (1 + size (u_path x)))
      (mk_str (Some at_query) (size (u_query x))) (mk_str (Some at_fragment) (size (u_fragment x)))).
Proof using Hok.
  unfold uri_step.
  set (p1 := u_scheme x ++ lit "://" ++ u_user x ++ lit "@" ++ u_host x ++ lit ":" ++ u_port x).
  rewrite (component_hit p1 (SLASH :: u_path x) (u_query x ++ lit "#" ++ u_fragment x) 63 at_path);
    [|unfold b, unparse, p1; by rewrite <- !app_assoc|unfold p1; parts|
      constructor; [by apply not_elem_of_cons; split; [|apply not_elem_of_nil]|apply Hok]].
  cbn [mbind outcome_bind].
  rewrite (component_hit (p1 ++ SLASH :: u_path x ++ lit "?") (u_query x) (u_fragment x) 35);
    [|unfold b, unparse, p1; rewrite <- !app_assoc; simpl; by rewrite <- !app_assoc|unfold p1; parts|apply Hok].
  cbn [mbind outcome_bind]. unfold parse_uri_component.
  replace (at_path + size (SLASH :: u_path x) + 1) with at_query by parts.
  change (at_query + size (u_query x) + 1) with at_fragment.
  rewrite (scan_while_end _ b e at_fragment (p1 ++ (SLASH :: u_path x ++ lit "?") ++ u_query x ++ lit "#") (u_fragment x) []).
  - cbn [mbind outcome_bind]. rewrite Z.ltb_irrefl, size_cons.
    by replace (e - at_fragment) with (size (u_fragment x)) by (rewrite end_fragment; lia).
  - unfold b, unparse, p1. rewrite app_nil_r, <- !app_assoc. simpl. by rewrite <- !app_assoc.
  - unfold p1; parts.
  - unfold p1; rewrite end_fragment; parts.
  - eapply none_of_scan; [apply Hok|]. intros c Hc. apply not_in_cons in Hc as [H1 _]. by rewrite H1.
Qed.
End steps.

(** The position and length of a component in the object of the URI. *)
Lemma str_bytes_at b pre l r q n : b = pre ++ l ++ r -> q = size pre -> n = size l -> str_bytes b (mk_str (Some q) n) = l.
Proof. intros -> -> ->. unfold str_bytes; simpl. by apply slice_mid. Qed.

(** The components as positions in the URI. *)
Definition parsed (x : uri_parts) : uri :=
  mk_uri (mk_str (Some 0) (size (u_scheme x))) (mk_str (Some (at_user x)) (size (u_user x)))
    (mk_str (Some (at_host x)) (size (u_host x))) (port_value (u_port x))
    (mk_str (Some (at_path x)) (1 + size (u_path x))) (mk_str (Some (at_query x)) (size (u_query x)))
    (mk_str (Some (at_fragment x)) (size (u_fragment x))).

Lemma mg_parse_uri_parsed x : parts_ok x -> mg_parse_uri (unparse x) 0 (size (unparse x)) = Ret (parsed x).
Proof.
  intros Hok. pose proof (end_fragment x) as Hend.
  assert (0 < Z.to_nat (size (unparse x)))%nat as Hpos.
  { rewrite Hend. unfold at_fragment, at_query, at_path, at_port, at_host, at_user.
    pose proof (size_nonneg (u_scheme x)); pose proof (size_nonneg (u_user x)); pose proof (size_nonneg (u_host x));
    pose proof (size_nonneg (u_port x)); pose proof (size_nonneg (u_path x)); pose proof (size_nonneg (u_query x));
    pose proof (size_nonneg (u_fragment x)). lia. }
  unfold mg_parse_uri. rewrite Z.add_0_l. destruct (Z.to_nat (size (unparse x))) as [|k]; [lia|].
  change (6 + S k)%nat with (S (S (S (S (S (S (S k))))))).
  assert (forall n st q r st' q' r', q < size (unparse x) ->
    uri_step (unparse x) 0 (size (unparse x)) st q r = Ret (st', q', r') ->
    loop (S n) (fun '(st, q, r) =>
      if q <? size (unparse x) then s ← uri_step (unparse x) 0 (size (unparse x)) st q r; mret (inl s)
      else mret (inr r)) (st, q, r) =
    loop n (fun '(st, q, r) =>
      if q <? size (unparse x) then s ← uri_step (unparse x) 0 (size (unparse x)) st q r; mret (inl s)
      else mret (inr r)) (st', q', r')) as Hstep.
  { intros n st q r st' q' r' Hq E. rewrite loop_S. destruct (Z.ltb_spec q (size (unparse x))); [|lia].
    rewrite E. done. }
  pose proof (size_nonneg (u_scheme x)); pose proof (size_nonneg (u_user x)); pose proof (size_nonneg (u_host x));
  pose proof (size_nonneg (u_port x)); pose proof (size_nonneg (u_path x)); pose proof (size_nonneg (u_query x));
  pose proof (size_nonneg (u_fragment x)).
  unfold at_fragment, at_query, at_path, at_port, at_host, at_user in Hend.
  erewrite Hstep; [|lia|by apply step_start].
  erewrite Hstep; [|lia|by apply step_scheme].
  erewrite Hstep; [|lia|by apply step_user].
  erewrite Hstep; [|unfold at_user; lia|by apply step_host].
  erewrite Hstep; [|unfold at_host, at_user; lia|by apply step_port].
  erewrite Hstep; [|unfold at_path, at_port, at_host, at_user; lia|by apply step_rest].
  rewrite loop_S, Z.ltb_irrefl. reflexivity.
Qed.

(** C34: [mg_parse_uri] takes an absolute URI apart into exactly the components
    it was put together from, and the port into its number. *)
Theorem mg_parse_uri_roundtrip x :
  parts_ok x ->
  exists r, mg_parse_uri (unparse x) 0 (size (unparse x)) = Ret r /\
    let s := str_bytes (unparse x) in
    s (rscheme r) = u_scheme x /\ s (ruser_info r) = u_user x /\ s (rhost r) = u_host x /\
    rport r = port_value (u_port x) /\ s (rpath r) = SLASH :: u_path x /\
    s (rquery r) = u_query x /\ s (rfragment r) = u_fragment x.
Proof.
  intros Hok. exists (parsed x). split; [by apply mg_parse_uri_parsed|].
  unfold parsed. cbn [rscheme ruser_info rhost rport rpath rquery rfragment uri0]. cbv zeta.
  unfold unparse. split_and!.
  + by eapply (str_bytes_at _ []).
  + eapply (str_bytes_at _ (u_scheme x ++ lit "://")); [by rewrite <- !app_assoc| |done].
    unfold at_user. by rewrite size_app.
  + eapply (str_bytes_at _ (u_scheme x ++ lit "://" ++ u_user x ++ lit "@")); [by rewrite <- !app_assoc| |done].
    unfold at_host, at_user. rewrite !size_app. change (size (lit "://")) with 3. change (size (lit "@")) with 1. lia.
  + done.
  + eapply (str_bytes_at _ (u_scheme x ++ lit "://" ++ u_user x ++ lit "@" ++ u_host x ++ lit ":" ++ u_port x)
      (SLASH :: u_path x)); [by rewrite <- !app_assoc| |by rewrite size_cons].
    unfold at_path, at_port, at_host, at_user. rewrite !size_app.
    change (size (lit "://")) with 3. change (size (lit "@")) with 1. change (size (lit ":")) with 1. lia.
  + eapply (str_bytes_at _ (u_scheme x ++ lit "://" ++ u_user x ++ lit "@" ++ u_host x ++ lit ":" ++ u_port x ++
      SLASH :: u_path x ++ lit "?")); [rewrite <- !app_assoc; cbn [app]; by rewrite <- !app_assoc| |done].
    unfold at_query, at_path, at_port, at_host, at_user. rewrite !size_app, size_cons, size_app.
    change (size (lit "://")) with 3. change (size (lit "@")) with 1. change (size (lit ":")) with 1.
    change (size (lit "?")) with 1. lia.
  + eapply (str_bytes_at _ (u_scheme x ++ lit "://" ++ u_user x ++ lit "@" ++ u_host x ++ lit ":" ++ u_port x ++
      SLASH :: u_path x ++ lit "?" ++ u_query x ++ lit "#") _ []);
      [rewrite app_nil_r, <- !app_assoc; cbn [app]; by rewrite <- !app_assoc| |done].
    unfold at_fragment, at_query, at_path, at_port, at_host, at_user. rewrite !size_app, size_cons, !size_app.
    change (size (lit "://")) with 3. change (size (lit "@")) with 1. change (size (lit ":")) with 1.
    change (size (lit "?")) with 1. change (size (lit "#")) with 1. lia.
Qed.

Definition sample_uri : uri_parts :=
  mk_parts (lit "mqtt") (lit "bob:secret") (lit "broker.local") (lit "1883") (lit "a/b") (lit "q=1") (lit "frag").

Lemma mg_parse_uri_roundtrip_witness :
  exists r, mg_parse_uri (unparse sample_uri) 0 (size (unparse sample_uri)) = Ret r /\
    let s := str_bytes (unparse sample_uri) in
    s (rscheme r) = lit "mqtt" /\ s (ruser_info r) = lit "bob:secret" /\ s (rhost r) = lit "broker.local" /\
    rport r = 1883 /\ s (rpath r) = lit "/a/b" /\ s (rquery r) = lit "q=1" /\ s (rfragment r) = lit "frag".
Proof.
  apply (mg_parse_uri_roundtrip sample_uri).
  split; apply (bool_decide_eq_true_1 _); vm_compute; reflexivity.
Defined.
