(* ===== verification/Http.v ===== *)
(** * The HTTP parser (mongoose.c, http.c)

    Detection of a complete request, request and status lines, headers, and the
    chunked transfer encoding, reassembled in place. *)

From Stdlib Require Import ZArith Lia String.
From stdpp Require Import base list numbers option.
From S2P Require Import Prelude Strs.

Local Open Scope Z_scope.

(** ** The code *)

(** The end of a line; as a set, the delimiters of a line. *)
Definition CRLF : list Z := [13; 10].

Definition isprint (c : Z) : bool := (32 <=? c) && (c <=? 126).
Definition isspace (c : Z) : bool := (c =? 32) || ((9 <=? c) && (c <=? 13)).
Definition isdigit (c : Z) : bool := (48 <=? c) && (c <=? 57).
Definition isxdigit (c : Z) : bool := isdigit c || ((97 <=? tolower c) && (tolower c <=? 102)).

(** -1 for a malformed request, 0 for an incomplete one, the length of the head
    of a complete one.  [buf_len] is an [int]. *)
Definition mg_http_get_request_len (b : list Z) (s buf_len : Z) : outcome Z :=
  loop (S (Z.to_nat buf_len)) (fun i =>
    if i <? buf_len then
      c ← rd b (s + i);
      if negb (isprint c) && negb (c =? 13) && negb (c =? 10) && (c <? 128) then mret (inr (-1)) else
      nl1 ← (if (c =? 10) && (i + 1 <? buf_len) then d ← rd b (s + (i + 1)); mret (d =? 10) else mret false);
      if nl1 : bool then mret (inr (i + 2)) else
      nl2 ← (if (c =? 10) && (i + 2 <? buf_len) then
               d ← rd b (s + (i + 1));
               if d =? 13 then d ← rd b (s + (i + 2)); mret (d =? 10) else mret false
             else mret false);
      if nl2 : bool then mret (inr (i + 3)) else mret (inl (i + 1))
    else mret (inr 0)) 0.

(** The C library's [strtoll(&b[i], NULL, 10)], which saturates, and [atoi]. *)
Definition strtoll (b : list Z) (i : Z) : outcome Z :=
  i ← loop (S (length b)) (fun i => c ← rd b i; if isspace c then mret (inl (i + 1)) else mret (inr i)) i;
  c ← rd b i;
  let '(neg, i) := if c =? 45 then (true, i + 1) else if c =? 43 then (false, i + 1) else (false, i) in
  v ← loop (S (length b)) (fun '(i, v) =>
        c ← rd b i; if isdigit c then mret (inl (i + 1, v * 10 + (c - 48))) else mret (inr v)) (i, 0);
  mret (Z.max (- 2 ^ 63) (Z.min (2 ^ 63 - 1) (if neg : bool then - v else v))).
Definition to64 := strtoll.
Definition atoi (b : list Z) (i : Z) : outcome Z := v ← strtoll b i; mret (s32 v).

Definition MG_MAX_HTTP_HEADERS : Z := 40.

Record http_message := mk_http {
  message : mg_str; method : mg_str; huri : mg_str; proto : mg_str;
  resp_code : Z; resp_status_msg : mg_str; query_string : mg_str;
  header_names : list mg_str; header_values : list mg_str;
  body : mg_str
}.

Definition null_str : mg_str := mk_str None 0.

(** [memset(hm, 0, sizeof( *hm))] *)
Definition http0 : http_message :=
  mk_http null_str null_str null_str null_str 0 null_str null_str
    (replicate (Z.to_nat MG_MAX_HTTP_HEADERS) null_str) (replicate (Z.to_nat MG_MAX_HTTP_HEADERS) null_str) null_str.

Definition set_header (hm : http_message) (i : Z) (k v : mg_str) : http_message :=
  mk_http (message hm) (method hm) (huri hm) (proto hm) (resp_code hm) (resp_status_msg hm) (query_string hm)
    (<[Z.to_nat i := k]> (header_names hm)) (<[Z.to_nat i := v]> (header_values hm)) (body hm).
Definition set_lengths (hm : http_message) (message_len body_len : Z) : http_message :=
  mk_http (mk_str (p (message hm)) message_len) (method hm) (huri hm) (proto hm) (resp_code hm) (resp_status_msg hm)
    (query_string hm) (header_names hm) (header_values hm) (mk_str (p (body hm)) body_len).

(** "Trim trailing spaces in header value" *)
Definition trim_value (b : list Z) (v : mg_str) : outcome mg_str :=
  n ← loop (S (Z.to_nat (len v))) (fun n =>
        if n >? 0 then
          c ← deref (p v) (fun q => rd b (q + n - 1));
          if c =? 32 then mret (inl (n - 1)) else mret (inr n)
        else mret (inr n)) (len v);
  mret (mk_str (p v) n).

Definition mg_http_parse_headers (b : list Z) (s e len : Z) (req : http_message) : outcome (Z * http_message) :=
  loop (S (Z.to_nat MG_MAX_HTTP_HEADERS)) (fun '(i, s, req) =>
    if i <? MG_MAX_HTTP_HEADERS - 1 then
      '(k, s) ← mg_skip b s e (lit ": ");
      '(v, s) ← mg_skip b s e CRLF;
      v ← trim_value b v;
      if (Strs.len k =? 0) || (Strs.len v =? 0) then
        mret (inr (s, set_header req i null_str null_str))
      else
        let req := set_header req i k v in
        d ← deref (p k) (fun q => mg_ncasecmp b q (lit "Content-Length" ++ [0]) 0 14);
        req ← (if d =? 0 then
            n ← deref (p v) (fun q => to64 b q);
            mret (set_lengths req (u64 (len + u64 n)) (u64 n))
          else mret req);
        mret (inl (i + 1, s, req))
    else mret (inr (s, req))) (0, s, req).

Definition mg_parse_http (b : list Z) (s n : Z) (hm : http_message) (is_req : bool) : outcome (Z * http_message) :=
  len ← mg_http_get_request_len b s n;
  if len <=? 0 then mret (len, hm) else
  let base := mk_http (mk_str (Some s) SIZE_MAX) null_str null_str null_str 0 null_str null_str
    (header_names http0) (header_values http0) (mk_str (Some (s + len)) SIZE_MAX) in
  let e := s + len in
  s ← scan_while isspace b e s;
  '(ok, s, hm) ← (if is_req then
      '(m, s) ← mg_skip b s e (lit " ");
      '(u, s) ← mg_skip b s e (lit " ");
      '(pr, s) ← mg_skip b s e CRLF;
      deref (p m) (fun mp => deref (p u) (fun up => deref (p pr) (fun prp =>
        if (up <=? mp) || (prp <=? up) then
          mret (false, s, mk_http (message base) m u pr 0 null_str null_str (header_names base) (header_values base) (body base))
        else
          qs ← memchr b up 63 (Strs.len u);
          let '(u, q) := match qs with
            | Some k => (mk_str (Some up) (k - up), mk_str (Some (k + 1)) (up + Strs.len u - (k + 1)))
            | None => (u, null_str)
            end in
          mret (true, s, mk_http (message base) m u pr 0 null_str q (header_names base) (header_values base) (body base)))))
    else
      '(pr, s) ← mg_skip b s e (lit " ");
      let hm := mk_http (message base) null_str null_str pr 0 null_str null_str (header_names base) (header_values base) (body base) in
      short ← (if e - s <? 4 then mret true else c ← rd b (s + 3); mret (negb (c =? 32)));
      if short : bool then mret (false, s, hm) else
      code ← atoi b s;
      let hm := mk_http (message base) null_str null_str pr code null_str null_str (header_names base) (header_values base) (body base) in
      if (code <? 100) || (code >=? 600) then mret (false, s, hm) else
      let s := s + 4 in
      '(msg, s) ← mg_skip b s e CRLF;
      mret (true, s, mk_http (message base) null_str null_str pr code msg null_str (header_names base) (header_values base) (body base)));
  if negb (ok : bool) then mret (-1, hm) else
  '(s, hm) ← mg_http_parse_headers b s e len hm;
  no_body ← (if (Strs.len (body hm) =? SIZE_MAX) && is_req then
      d ← mg_vcasecmp b (method hm) (lit "PUT");
      if d =? 0 then mret false else
      d ← mg_vcasecmp b (method hm) (lit "POST"); mret (negb (d =? 0))
    else mret false);
  mret (len, if no_body : bool then set_lengths hm len 0 else hm).

(** The value of the first header of that name. *)
Definition mg_get_http_header (b : list Z) (hm : http_message) (name : list Z) : outcome (option mg_str) :=
  let len := size name in
  loop (S (length (header_names hm))) (fun i =>
    h ← rd (header_names hm) i;
    if Strs.len h >? 0 then
      v ← rd (header_values hm) i;
      match p h with
      | Some q =>
          if Strs.len h =? len then
            d ← mg_ncasecmp b q (name ++ [0]) 0 len;
            if d =? 0 then mret (inr (Some v)) else mret (inl (i + 1))
          else mret (inl (i + 1))
      | None => mret (inl (i + 1))
      end
    else mret (inr None)) 0.

(** *** Chunked transfer encoding *)

Definition xdigit_value (c : Z) : Z := if isdigit c then c - 48 else tolower c - 97 + 10.

(** [!(i == 0 || i + 2 > len || s[i] != '\r' || s[i + 1] != '\n')] *)
Definition chunk_newline (b : list Z) (buf i len : Z) : outcome bool :=
  if (i =? 0) || (u64 (i + 2) >? len) then mret false else
  c ← rd b (buf + i);
  if negb (c =? 13) then mret false else
  c ← rd b (buf + (i + 1)); mret (c =? 10).

(** The length of the whole chunk, 0 when it is incomplete, and the data. *)
Definition mg_http_parse_chunk (b : list Z) (buf len : Z) : outcome (Z * option (Z * Z)) :=
  '(i, n) ← loop (S (Z.to_nat len)) (fun '(i, n) =>
      if i <? len then
        c ← rd b (buf + i);
        if isxdigit c then
          let n := u64 (n * 16) in
          mret (inl (i + 1, u64 (n + xdigit_value c)))
        else mret (inr (i, n))
      else mret (inr (i, n))) (0, 0);
  nl ← chunk_newline b buf i len;
  if negb nl then mret (0, None) else
  let i := i + 2 in
  let data := (buf + i, n) in
  let i := u64 (i + n) in
  nl ← chunk_newline b buf i len;
  if negb nl then mret (0, Some data) else
  mret (u64 (i + 2), Some data).

(** What [mg_handle_chunked] works on: the receive buffer, its length, the
    length of the body reassembled so far, and the lengths in the message. *)
Record chunk_state := mk_chunks {
  ck_buf : list Z; recv_len : Z; chunk_body_len : Z; hm_body_len : Z; hm_message_len : Z
}.

(** One turn of the loop over the fully buffered chunks; the state is the
    buffer, [i], [body_len] and [hm->body.len]. *)
Definition chunk_step (buf blen : Z) (st : list Z * Z * Z * Z) : outcome (list Z * Z * Z * Z + list Z * Z * Z * Z * bool) :=
  let '(b, i, body_len, hm_len) := st in
  '(n, data) ← mg_http_parse_chunk b (buf + i) (blen - i);
  match data with
  | Some (data, data_len) =>
      if n >? 0 then
        b ← memcpy b (buf + body_len) b data data_len;
        let body_len := body_len + data_len in
        let hm_len := body_len in
        if data_len =? 0 then mret (inr (b, i + n, body_len, hm_len, true))
        else mret (inl (b, i + n, body_len, hm_len))
      else mret (inr (b, i, body_len, hm_len, false))
  | None => mret (inr (b, i, body_len, hm_len, false))
  end.

(** [delete] says whether the handler of [MG_EV_HTTP_CHUNK] set
    [MG_F_DELETE_CHUNK]; the last component tells whether it was called. *)
Definition mg_handle_chunked (st : chunk_state) (buf blen : Z) (delete : bool) : outcome (chunk_state * Z * bool) :=
  let body_len0 := chunk_body_len st in
  if negb (blen >=? body_len0) then Fault AssertFailed else
  '(b, i, body_len, hm_len, zero) ← loop (S (Z.to_nat blen)) (chunk_step buf blen) (ck_buf st, body_len0, body_len0, hm_body_len st);
  if i >? body_len then
    if negb (i <=? blen) then Fault AssertFailed else
    b ← memcpy b (buf + body_len) b (buf + i) (blen - i);
    b ← memset b (buf + body_len + blen - i) 0 (i - body_len);
    let recv := recv_len st - (i - body_len) in
    '(b, recv, cbl, hm_len) ← (if delete then
        b ← memset b buf 0 body_len;
        b ← memcpy b buf b (buf + body_len) (blen - i);
        mret (b, recv - body_len, 0, 0)
      else mret (b, recv, body_len, hm_len));
    let msg_len := if zero : bool then cbl + blen - i else hm_message_len st in
    mret (mk_chunks b recv cbl hm_len msg_len, body_len, true)
  else mret (mk_chunks b (recv_len st) (chunk_body_len st) hm_len (hm_message_len st), body_len, false).

Definition req1 : list Z :=
  lit "POST /a/b?x=1&y=2 HTTP/1.1" ++ CRLF ++ lit "Host: example.com  " ++ CRLF ++ lit "content-length: 5" ++ CRLF ++ CRLF ++ lit "hello".

Example parse_req1 :
  (r ← mg_parse_http req1 0 (size req1) http0 true;
   let '(n, hm) := r in let s := str_bytes req1 in
   v ← mg_get_http_header req1 hm (lit "HOST");
   mret (n, map s [method hm; huri hm; query_string hm; proto hm], option_map s v, Strs.len (body hm), p (body hm)))
  = Ret (70, [lit "POST"; lit "/a/b"; lit "x=1&y=2"; lit "HTTP/1.1"], Some (lit "example.com"), 5, Some 70).
Proof. vm_compute. reflexivity. Qed.

(** Header names are compared over the 14 characters only, and a negative
    length becomes a huge unsigned one: the message is shorter than its head. *)
Definition req2 : list Z := lit "GET / HTTP/1.1" ++ CRLF ++ lit "Content-Length-Hint: -8" ++ CRLF ++ CRLF.
Example negative_content_length :
  (r ← mg_parse_http req2 0 (size req2) http0 true;
   let '(n, hm) := r in mret (n, Strs.len (message hm), Strs.len (body hm))) = Ret (43, 35, 2 ^ 64 - 8).
Proof. vm_compute. reflexivity. Qed.

(** [atoi] skips white space past the end of the head. *)
Definition resp1 : list Z := lit "HTTP/1.1 " ++ [10; 13; 13; 32; 10; 10].
Example response_reads_past_end : mg_parse_http resp1 0 (size resp1) http0 false = Fault OutOfBounds.
Proof. vm_compute. reflexivity. Qed.

(** The length of a chunk wraps around: the 18 bytes are taken for a chunk of
    almost 2^64 bytes. *)
Example chunk_length_wraps :
  mg_http_parse_chunk (lit "FFFFFFFFFFFFFFFE" ++ CRLF) 0 18 = Ret (18, Some (18, 2 ^ 64 - 2)).
Proof. vm_compute. reflexivity. Qed.
Example chunk_length_wraps_copy :
  mg_handle_chunked (mk_chunks (lit "FFFFFFFFFFFFFFFE" ++ CRLF) 18 0 0 0) 0 18 false = Fault OutOfBounds.
Proof. vm_compute. reflexivity. Qed.

Example chunks_ex :
  mg_handle_chunked (mk_chunks (lit "HDR" ++ lit "4" ++ CRLF ++ lit "Wiki" ++ CRLF ++ lit "5" ++ CRLF ++ lit "pedia" ++ CRLF ++ lit "E" ++ CRLF ++ lit " in") 28 0 0 7) 3 25 false
  = Ret (mk_chunks (lit "HDRWikipediaE" ++ CRLF ++ lit " in" ++ replicate 10 0) 18 9 9 7, 9, true).
Proof. vm_compute. reflexivity. Qed.

(** ** Safety of the request parser *)

Lemma wp_mg_skip b s e delims (Q : mg_str * Z -> Prop) :
  0 <= s <= e -> e <= size b ->
  (forall n s', 0 <= n -> s + n <= s' <= e ->
     slice b s n = take_while (fun c => negb (strchr_in delims c)) (slice b s (e - s)) ->
     slice b s' (e - s') = drop_while (strchr_in delims) (drop_while (fun c => negb (strchr_in delims c)) (slice b s (e - s))) ->
     Q (mk_str (Some s) n, s')) ->
  wp (mg_skip b s e delims) Q.
Proof.
  intros Hs He HQ. unfold mg_skip. apply wp_bind, wp_scan_while; [lia|lia|]. intros j Hj E1 E2.
  apply wp_bind, wp_scan_while; [lia|lia|]. intros k Hk E3 E4. apply wp_mret.
  apply HQ; [lia|lia|done|]. by rewrite E4, E2.
Qed.

(** Bytes a complete head is made of. *)
Definition head_byte (c : Z) : Prop := 32 <= c <= 126 \/ c = 13 \/ c = 10 \/ 128 <= c.

(** The [n] bytes at [s] are the head of a message: they end with a line feed. *)
Definition head_at (b : list Z) (s n : Z) : Prop :=
  2 <= n /\ (forall i c, 0 <= i < n -> b !! Z.to_nat (s + i) = Some c -> head_byte c) /\
  b !! Z.to_nat (s + n - 1) = Some 10.

Lemma bad_byte c : 0 <= c ->
  negb (isprint c) && negb (c =? 13) && negb (c =? 10) && (c <? 128) = false -> head_byte c.
Proof. unfold isprint, head_byte. lia. Qed.

Lemma get_request_len_spec b s n :
  bytes b -> 0 <= s -> 0 <= n -> s + n <= size b ->
  wp (mg_http_get_request_len b s n) (fun r => r = -1 \/ r = 0 \/ (r <= n /\ head_at b s r)).
Proof.
  intros Hb Hs Hn Hsz. unfold mg_http_get_request_len.
  apply wp_loop with (m := fun i => Z.to_nat (n - i))
    (I := fun i => 0 <= i <= n /\ forall j c, 0 <= j < i -> b !! Z.to_nat (s + j) = Some c -> head_byte c);
    [|split; [lia|intros; lia]|lia].
  intros i [Hi Hok]. wp_step; [|apply wp_mret; auto].
  destruct (rd_total b (s + i)) as (c & Hc & ->); [lia|]. cbn [mbind outcome_bind].
  assert (is_byte c) as Hcb by (eapply (Forall_lookup_1 is_byte b); done). unfold is_byte in Hcb.
  apply wp_if; intros Hbad; [apply wp_mret; auto|]. apply bad_byte in Hbad; [|lia].
  assert (forall j x, 0 <= j < i + 1 -> b !! Z.to_nat (s + j) = Some x -> head_byte x) as Hok'.
  { intros j x Hj Hx. destruct (decide (j = i)) as [->|]; [congruence|apply (Hok j); [lia|done]]. }
  assert (head_byte 10) as H10 by (unfold head_byte; lia). assert (head_byte 13) as H13 by (unfold head_byte; lia).
  apply wp_bind, wp_mono with (P := fun nl : bool => nl = true -> i + 2 <= n /\ b !! Z.to_nat (s + (i + 1)) = Some 10).
  { apply wp_if; intros E; [|by apply wp_mret]. apply wp_bind, wp_rd; [lia|]. intros d Hd. apply wp_mret.
    intros Ed. apply Z.eqb_eq in Ed as ->. split; [lia|done]. }
  intros nl1 Hnl1. apply wp_if; intros E1.
  { apply wp_mret. right; right. destruct (Hnl1 E1) as [Hr Hd]. split; [lia|]. split_and!; [lia| |].
    - intros j x Hj Hx. destruct (decide (j = i + 1)) as [->|]; [congruence|apply (Hok' j); [lia|done]].
    - by replace (s + (i + 2) - 1) with (s + (i + 1)) by lia. }
  apply wp_bind, wp_mono with (P := fun nl : bool => nl = true -> i + 3 <= n /\
    b !! Z.to_nat (s + (i + 1)) = Some 13 /\ b !! Z.to_nat (s + (i + 2)) = Some 10).
  { apply wp_if; intros E; [|by apply wp_mret]. apply wp_bind, wp_rd; [lia|]. intros d Hd. wp_step; [|by apply wp_mret].
    apply wp_bind, wp_rd; [lia|]. intros d2 Hd2. apply wp_mret.
    intros Ed. apply Z.eqb_eq in Ed as ->. subst d. split_and!; [lia|done|done]. }
  intros nl2 Hnl2. apply wp_if; intros E2.
  { apply wp_mret. right; right. destruct (Hnl2 E2) as (Hr & Hd & Hd2). split; [lia|]. split_and!; [lia| |].
    - intros j x Hj Hx. destruct (decide (j = i + 2)) as [->|]; [congruence|].
      destruct (decide (j = i + 1)) as [->|]; [congruence|apply (Hok' j); [lia|done]].
    - by replace (s + (i + 3) - 1) with (s + (i + 2)) by lia. }
  apply wp_mret. split; [|lia]. split; [lia|done].
Qed.

(** [strtoll] stops before a line feed, when it does not start on white space. *)
Lemma wp_strtoll b q z :
  0 <= q < z -> z < size b -> b !! Z.to_nat z = Some 10 ->
  (forall c, b !! Z.to_nat q = Some c -> isspace c = false) -> wp (strtoll b q) (fun _ => True).
Proof.
  intros Hq Hz Hlf Hsp. unfold strtoll.
  destruct (rd_total b q) as (c & Hc & Hr); [lia|].
  apply wp_bind. rewrite loop_S, Hr. cbn [mbind outcome_bind]. rewrite (Hsp c Hc). cbn [mret outcome_ret].
  apply wp_ret. rewrite Hr. cbn [mbind outcome_bind].
  assert (exists neg i, (if c =? 45 then (true, q + 1) else if c =? 43 then (false, q + 1) else (false, q)) = (neg, i) /\ q <= i <= z)
    as (neg & i & -> & Hi) by (repeat case_match; eexists _, _; split; (reflexivity || lia)).
  apply wp_bind, wp_mono with (P := fun _ => True); [|intros; by apply wp_mret].
  apply wp_loop with (m := fun '(i, _) => Z.to_nat (z - i)) (I := fun '(i, _) => 0 <= i <= z);
    [|lia|unfold size in *; lia].
  intros [j v] Hj. destruct (rd_total b j) as (d & Hd & ->); [lia|]. cbn [mbind outcome_bind].
  apply wp_if; intros E; apply wp_mret; [|done].
  destruct (decide (j = z)) as [->|]; [|lia]. assert (d = 10) as -> by congruence. discriminate E.
Qed.

(** The comparison of the first bytes of a name stops before a line feed. *)
Lemma wp_ncasecmp_line b q z lit n :
  0 <= q <= z -> z < size b -> b !! Z.to_nat z = Some 10 -> 0 <= n <= size lit -> 10 ∉ lit ->
  wp (mg_ncasecmp b q lit 0 n) (fun _ => True).
Proof.
  intros Hq Hz Hlf Hn Hno. unfold mg_ncasecmp. rewrite Z.gtb_ltb. wp_step; [|by apply wp_mret].
  apply wp_loop with (m := fun '(s1, _, _) => Z.to_nat (z - s1))
    (I := fun '(s1, s2, r) => exists k, 0 <= k < n /\ s1 = q + k /\ s2 = k /\ r = n - k /\ q + k <= z);
    [|exists 0; lia|unfold size in *; lia].
  - intros [[s1 s2] r] (k & Hk & -> & -> & -> & Hkz).
    destruct (rd_total b (q + k)) as (x & Hx & Hrx); [lia|].
    destruct (rd_total lit k) as (y & Hy & Hry); [lia|].
    unfold lowercase. rewrite Hrx, Hry. cbn [mbind outcome_bind mret outcome_ret].
    wp_step; [|by apply wp_mret]. wp_step; [by apply wp_mret|]. rewrite Z.gtb_ltb. wp_step; apply wp_mret; [|done].
    assert (q + k <> z); [|split; [exists (k + 1)|]; lia].
    intros <-. assert (x = 10) as -> by congruence. apply Hno. replace 10 with y; [by apply list_elem_of_lookup_2 in Hy|].
    assert (tolower y = tolower 10) as E by lia. unfold tolower in E. simpl in E. case_match; lia.
Qed.

Lemma wp_trim_value b v (Q : mg_str -> Prop) :
  str_in b v -> (forall n, 0 <= n <= len v -> Q (mk_str (p v) n)) -> wp (trim_value b v) Q.
Proof.
  intros Hv HQ. unfold trim_value. pose proof (len_str_in b v Hv). apply wp_bind, wp_mono with (P := fun n => 0 <= n <= len v).
  - apply wp_loop with (m := fun n => Z.to_nat n) (I := fun n => 0 <= n <= len v); [|lia|lia].
    intros n Hn. rewrite Z.gtb_ltb. wp_step; [|apply wp_mret; lia].
    unfold str_in in Hv. destruct (p v) as [q|]; [|lia]. cbn [deref].
    apply wp_bind, wp_rd; [lia|]. intros c Hc. wp_step; apply wp_mret; lia.
  - intros n Hn. apply wp_mret. by apply HQ.
Qed.

(** A component of the message: null and empty, or within the bytes [lo .. hi). *)
Definition inside (lo hi : Z) (x : mg_str) : Prop :=
  match p x with Some q => lo <= q /\ 0 <= len x /\ q + len x <= hi | None => len x = 0 end.

Record headers_ok (lo hi : Z) (hm : http_message) : Prop := {
  ho_names : length (header_names hm) = 40%nat;
  ho_values : length (header_values hm) = 40%nat;
  ho_last : header_names hm !! 39%nat = Some null_str;
  ho_in : Forall (inside lo hi) (header_names hm) /\ Forall (inside lo hi) (header_values hm)
}.

Lemma inside_null lo hi : inside lo hi null_str.
Proof. done. Qed.

Lemma headers_ok0 lo hi : headers_ok lo hi http0.
Proof. split; [done|done|done|]. split; apply Forall_replicate, inside_null. Qed.

Lemma set_header_ok lo hi hm i k v :
  headers_ok lo hi hm -> 0 <= i < 39 -> inside lo hi k -> inside lo hi v -> headers_ok lo hi (set_header hm i k v).
Proof.
  intros [H1 H2 H3 [H4 H5]] Hi Hk Hv. split; simpl; [by rewrite length_insert|by rewrite length_insert| |].
  - rewrite list_lookup_insert_ne by lia. done.
  - split; by apply Forall_insert.
Qed.

(** Header names and values may change, everything else is kept but for the two
    lengths. *)
Definition same_line (hm hm' : http_message) : Prop :=
  method hm' = method hm /\ huri hm' = huri hm /\ proto hm' = proto hm /\
  query_string hm' = query_string hm /\ resp_status_msg hm' = resp_status_msg hm /\ resp_code hm' = resp_code hm /\
  p (message hm') = p (message hm) /\ p (body hm') = p (body hm).

Lemma content_length_no_lf : 10 ∉ lit "Content-Length" ++ [0].
Proof. apply (bool_decide_eq_true_1 _). reflexivity. Qed.

(** The value starts after the separators, so not on a space. *)
Lemma value_head b s e n s' :
  (forall i c, s <= i < e -> b !! Z.to_nat i = Some c -> head_byte c) -> 0 <= s <= e -> e <= size b ->
  slice b s n = take_while (fun c => negb (strchr_in CRLF c)) (slice b s (e - s)) -> 0 < n -> s + n <= s' <= e ->
  (forall c, b !! Z.to_nat s = Some c -> strchr_in (lit ": ") c = false) ->
  forall c, b !! Z.to_nat s = Some c -> isspace c = false.
Proof.
  intros Hhead Hs He Ht Hn Hs' Hd c Hc. specialize (Hd c Hc).
  assert (strchr_in CRLF c = false) as Hcr.
  { rewrite (slice_cons b s n c) in Ht by (done || lia). rewrite (slice_cons b s (e - s) c) in Ht by (done || lia).
    simpl in Ht. destruct (strchr_in CRLF c); [done|done]. }
  specialize (Hhead s c ltac:(lia) Hc). unfold head_byte in Hhead. unfold strchr_in, CRLF in *. unfold isspace.
  change (lit ": ") with [58; 32] in Hd. simpl in Hd, Hcr. lia.
Qed.

Lemma parse_headers_spec b lo s e len req :
  0 <= lo <= s -> s <= e -> e <= size b -> lo < e -> b !! Z.to_nat (e - 1) = Some 10 ->
  (forall i c, lo <= i < e -> b !! Z.to_nat i = Some c -> head_byte c) ->
  headers_ok lo e req ->
  wp (mg_http_parse_headers b s e len req) (fun '(s', hm) => s <= s' <= e /\ headers_ok lo e hm /\ same_line req hm).
Proof.
  intros Hlo Hs He Hlt Hlf Hhead Hreq. unfold mg_http_parse_headers.
  apply wp_loop with (m := fun '(i, _, _) => Z.to_nat (40 - i))
    (I := fun '(i, s', hm) => 0 <= i <= 40 /\ s <= s' <= e /\ headers_ok lo e hm /\ same_line req hm);
    [|split_and!; [lia|lia|lia|lia|done|done..]|change (Z.to_nat MG_MAX_HTTP_HEADERS) with 40%nat; lia].
  intros [[i s0] hm] (Hi & Hs0 & Hhm & Hsame). change (MG_MAX_HTTP_HEADERS - 1) with 39.
  wp_step; [|by apply wp_mret].
  apply wp_bind, wp_mg_skip; [lia|lia|]. intros nk s1 Hnk Hs1 Ek Ek2. cbn beta iota.
  apply wp_bind, wp_mg_skip; [lia|lia|]. intros nv s2 Hnv Hs2 Ev Ev2. cbn beta iota.
  apply wp_bind, wp_trim_value; [unfold str_in; simpl; lia|]. intros nt Hnt. cbn [Strs.len p].
  apply wp_if; intros Hz.
  { apply wp_mret. split_and!; [lia|lia| |done..]. apply set_header_ok; (done || lia). }
  apply orb_false_iff in Hz as [Hz1 Hz2]. apply Z.eqb_neq in Hz1, Hz2. simpl in Hnt.
  assert (forall c, b !! Z.to_nat s1 = Some c -> isspace c = false) as Hsp.
  { apply (value_head b s1 e nv s2); [intros; apply (Hhead i0); [lia|done]|lia|lia|done|lia|lia|].
    intros c Hc. symmetry in Ek2. rewrite (slice_cons b s1 (e - s1) c) in Ek2 by (done || lia).
    by apply drop_while_head in Ek2. }
  assert (s1 < e - 1) as Hse.
  { assert (s1 <> e - 1); [|lia]. intros E. rewrite <- E in Hlf. by specialize (Hsp 10 Hlf). }
  cbn [deref]. apply wp_bind. eapply wp_mono;
    [apply (wp_ncasecmp_line b s0 (e - 1)); [lia|lia|done|change (size (lit "Content-Length" ++ [0])) with 15; lia|apply content_length_no_lf]|]. intros d _.
  assert (headers_ok lo e (set_header hm i (mk_str (Some s0) nk) (mk_str (Some s1) nt))) as Hset.
  { apply set_header_ok; [done|lia|unfold inside; simpl; lia|unfold inside; simpl; lia]. }
  apply wp_bind, wp_mono with (P := fun hm' => headers_ok lo e hm' /\ same_line req hm').
  - wp_step; [|apply wp_mret; by split].
    apply wp_bind. eapply wp_mono; [apply (wp_strtoll b s1 (e - 1)); [lia|lia|done|done]|].
    intros v _. apply wp_mret. split; [by destruct Hset|done].
  - intros hm' [Hh' Hs']. apply wp_mret. split; [|lia]. split_and!; (done || lia).
Qed.

(** The parsed request, all of it inside the head [lo .. hi). *)
Record request_ok (lo hi : Z) (hm : http_message) : Prop := {
  rq_headers : headers_ok lo hi hm;
  rq_method : inside lo hi (method hm);
  rq_uri : inside lo hi (huri hm);
  rq_proto : inside lo hi (proto hm);
  rq_query : inside lo hi (query_string hm);
  rq_message : p (message hm) = Some lo;
  rq_body : p (body hm) = Some hi
}.

Lemma request_ok_line lo hi hm hm' :
  request_ok lo hi hm -> headers_ok lo hi hm' -> same_line hm hm' -> request_ok lo hi hm'.
Proof.
  intros [H1 H2 H3 H4 H5 H6 H7] Hh (E1 & E2 & E3 & E4 & _ & _ & E7 & E8). split; congruence.
Qed.

Lemma set_lengths_ok lo hi hm a b : request_ok lo hi hm -> request_ok lo hi (set_lengths hm a b).
Proof. intros [[] ? ? ? ? ? ?]. by split. Qed.

(** "if it is HTTP request, and Content-Length is not set, and method is not
    PUT or POST then reset body length to zero" *)
Lemma no_body_spec b lo hi hm :
  0 <= lo -> hi <= size b -> hi - lo < 2 ^ 31 -> request_ok lo hi hm ->
  wp (if (Strs.len (body hm) =? SIZE_MAX) && true then
      d ← mg_vcasecmp b (method hm) (lit "PUT");
      if d =? 0 then mret false else
      d ← mg_vcasecmp b (method hm) (lit "POST"); mret (negb (d =? 0))
    else mret false)
   (fun nb => nb = (Strs.len (body hm) =? SIZE_MAX) &&
      negb (bool_decide (map tolower (str_bytes b (method hm)) = map tolower (lit "PUT"))) &&
      negb (bool_decide (map tolower (str_bytes b (method hm)) = map tolower (lit "POST")))).
Proof.
  intros Hlo Hhi Hsz Hok. rewrite andb_true_r. destruct (Strs.len (body hm) =? SIZE_MAX); [|by apply wp_mret].
  assert (str_in b (method hm) /\ Strs.len (method hm) < 2 ^ 31) as [Hin Hlen].
  { pose proof (rq_method _ _ _ Hok) as Hm. unfold inside in Hm. unfold str_in. destruct (p (method hm)); lia. }
  apply wp_bind. eapply wp_mono; [apply mg_vcasecmp_spec; [done|done|done|by apply (bool_decide_eq_true_1 _)]|].
  intros d E; cbn beta in E. wp_step.
  - apply wp_mret. rewrite (bool_decide_eq_true_2 _ (proj1 E H)). done.
  - rewrite (bool_decide_eq_false_2 (map tolower (str_bytes b (method hm)) = map tolower (lit "PUT"))) by tauto.
    apply wp_bind. eapply wp_mono; [apply mg_vcasecmp_spec; [done|done|done|by apply (bool_decide_eq_true_1 _)]|].
    intros d2 E2; cbn beta in E2. apply wp_mret. simpl. destruct (Z.eqb_spec d2 0).
    + by rewrite (bool_decide_eq_true_2 _ (proj1 E2 e)).
    + by rewrite bool_decide_eq_false_2 by tauto.
Qed.

Lemma parse_request_spec b s n hm :
  bytes b -> 0 <= s -> 0 <= n < 2 ^ 31 -> s + n <= size b ->
  wp (mg_parse_http b s n hm true) (fun '(len, hm') =>
    (len = 0 /\ hm' = hm) \/ len = -1 \/ (0 < len <= n /\ request_ok s (s + len) hm')).
Proof.
  intros Hb Hs Hn Hsz. unfold mg_parse_http.
  apply wp_bind. eapply wp_mono; [apply get_request_len_spec; (done || lia)|].
  intros len Hlen; cbn beta in Hlen. destruct (Z.leb_spec len 0).
  { apply wp_mret. destruct Hlen as [->|[->|[? [? _]]]]; [by right; left|by left|lia]. }
  destruct Hlen as [->|[->|(Hle & H2 & Hhead & Hlf)]]; [lia|lia|]. cbv zeta.
  assert (forall i c, s <= i < s + len -> b !! Z.to_nat i = Some c -> head_byte c) as Hhd.
  { intros i c Hi Hc. apply (Hhead (i - s)); [lia|]. by replace (s + (i - s)) with i by lia. }
  set (base := mk_http (mk_str (Some s) SIZE_MAX) _ _ _ _ _ _ _ _ _).
  apply wp_bind, wp_scan_while; [lia|lia|]. intros s1 Hs1 _ _.
  apply wp_bind, wp_mono with (P := fun '(ok, s', hm') => ok = true -> s1 <= s' <= s + len /\ request_ok s (s + len) hm').
  - apply wp_bind, wp_mg_skip; [lia|lia|]. intros nm s2 Hnm Hs2 _ _. cbn beta iota.
    apply wp_bind, wp_mg_skip; [lia|lia|]. intros nu s3 Hnu Hs3 _ _. cbn beta iota.
    apply wp_bind, wp_mg_skip; [lia|lia|]. intros np s4 Hnp Hs4 _ _. cbn beta iota. cbn [deref p].
    apply wp_if; intros E; [by apply wp_mret|].
    apply wp_bind, wp_memchr; [lia|simpl; lia|simpl; lia| |].
    + intros k Hk _ _. apply wp_mret. intros _. split; [lia|].
      split; [split; [done|done|done|split; apply Forall_replicate, inside_null]|..]; unfold inside; simpl in *; (done || lia).
    + intros _. apply wp_mret. intros _. split; [lia|].
      split; [split; [done|done|done|split; apply Forall_replicate, inside_null]|..]; unfold inside; simpl in *; (done || lia).
  - intros [[ok s'] hm1] Hok. destruct ok; cbn [negb]; [|apply wp_mret; by right; left].
    destruct (Hok eq_refl) as [Hs' Hrq].
    apply wp_bind. eapply wp_mono;
      [apply (parse_headers_spec b s s' (s + len) len hm1); [lia|lia|lia|lia|done|done|apply Hrq]|].
    intros [s5 hm2] (Hs5 & Hh & Hsame). pose proof (request_ok_line _ _ _ _ Hrq Hh Hsame) as Hrq2.
    apply wp_bind. eapply wp_mono; [apply (no_body_spec b s (s + len)); [lia|lia|lia|done]|].
    intros nb _. apply wp_mret. right; right. split; [lia|]. destruct nb; [by apply set_lengths_ok|done].
Qed.

(** C4: parsing any bytes as a request returns without a fault: nothing outside
    the bytes given is read.  The answer is -1 (malformed), 0 (incomplete, and
    the message is not touched) or the length of the head, and then every
    component and every header lies inside the head, and the array of header
    names ends with an empty one, which stops [mg_get_http_header]. *)
Theorem mg_parse_http_request_safe b s n hm :
  bytes b -> 0 <= s -> 0 <= n < 2 ^ 31 -> s + n <= size b ->
  exists len hm', mg_parse_http b s n hm true = Ret (len, hm') /\
    ((len = 0 /\ hm' = hm) \/ len = -1 \/ (0 < len <= n /\ request_ok s (s + len) hm')).
Proof.
  intros Hb Hs Hn Hsz. destruct (parse_request_spec b s n hm Hb Hs Hn Hsz) as ([len hm'] & E & H).
  by exists len, hm'.
Qed.

Lemma mg_parse_http_request_safe_witness :
  exists len hm', mg_parse_http req2 0 43 http0 true = Ret (len, hm') /\
    ((len = 0 /\ hm' = http0) \/ len = -1 \/ (0 < len <= 43 /\ request_ok 0 (0 + len) hm')).
Proof.
  apply (mg_parse_http_request_safe req2 0 43 http0); [repeat constructor; lia|lia|lia|discriminate].
Defined.

(** ** Chunked transfer encoding *)

Lemma u64_range z : 0 <= u64 z < 2 ^ 64.
Proof. apply Z.mod_pos_bound; lia. Qed.

(** The value of the digits of a chunk length, most significant first. *)
Definition xval (hs : list Z) : Z := fold_left (fun v c => v * 16 + xdigit_value c) hs 0.

Lemma u64_digit v x : u64 (u64 (u64 v * 16) + x) = u64 (v * 16 + x).
Proof. unfold u64. rewrite Zplus_mod_idemp_l, <- Zplus_mod_idemp_l, Zmult_mod_idemp_l. by rewrite Zplus_mod_idemp_l. Qed.

(** A chunk on the wire. *)
Definition enc_chunk (hs data : list Z) : list Z := hs ++ CRLF ++ data ++ CRLF.

Definition chunk_ok (c : list Z * list Z) : Prop :=
  c.1 <> [] /\ Forall (fun x => isxdigit x = true) c.1 /\ xval c.1 = size c.2 /\ size (enc_chunk c.1 c.2) < 2 ^ 62.

Lemma rd_in {A} (b pre l post : list A) i k v :
  b = pre ++ l ++ post -> i = size pre + k -> 0 <= k -> l !! Z.to_nat k = Some v -> rd b i = Ret v.
Proof. intros -> -> Hk Hv. apply rd_at; [done|]. rewrite lookup_app_l; [done|]. by apply lookup_lt_Some in Hv. Qed.

Lemma chunk_newline_hit b pre post buf i len :
  b = pre ++ CRLF ++ post -> buf + i = size pre -> 0 < i -> i + 2 <= len < 2 ^ 64 -> chunk_newline b buf i len = Ret true.
Proof.
  intros Hb Hi Hi0 Hl. unfold chunk_newline. destruct (Z.eqb_spec i 0); [lia|]. cbn [orb].
  rewrite u64_small, Z.gtb_ltb by lia. destruct (Z.ltb_spec len (i + 2)); [lia|].
  rewrite (rd_in b pre CRLF post (buf + i) 0 13), (rd_in b pre CRLF post (buf + (i + 1)) 1 10) by (done || lia). done.
Qed.

Lemma parse_chunk_spec b pre hs data post buf len :
  b = pre ++ enc_chunk hs data ++ post -> buf = size pre -> chunk_ok (hs, data) ->
  size (enc_chunk hs data) <= len < 2 ^ 62 ->
  mg_http_parse_chunk b buf len = Ret (size (enc_chunk hs data), Some (buf + size hs + 2, size data)).
Proof.
  intros Hb Hbuf (Hne & Hx & Hval & Hsz) Hlen. simpl in *.
  assert (size (enc_chunk hs data) = size hs + 2 + size data + 2) as Es
    by (unfold enc_chunk; rewrite !size_app; change (size CRLF) with 2; lia).
  pose proof (size_nonneg hs). pose proof (size_nonneg data).
  assert (0 < size hs) by (destruct hs; [done|]; rewrite size_cons; pose proof (size_nonneg hs); lia).
  unfold mg_http_parse_chunk.
  assert (loop (S (Z.to_nat len)) (fun '(i, n) =>
      if i <? len then
        c ← rd b (buf + i);
        if isxdigit c then
          mret (inl (i + 1, u64 (u64 (n * 16) + xdigit_value c)))
        else mret (inr (i, n))
      else mret (inr (i, n))) (0, 0) = Ret (size hs, size data)) as ->.
  { apply wp_eq. apply wp_loop with (m := fun '(i, _) => Z.to_nat (len - i))
      (I := fun '(i, n) => exists h1 h2, hs = h1 ++ h2 /\ i = size h1 /\ n = u64 (xval h1)); [|by exists [], hs|lia].
    intros [i n] (h1 & h2 & -> & -> & ->). rewrite size_app in *. pose proof (size_nonneg h1). pose proof (size_nonneg h2).
    destruct (Z.ltb_spec (size h1) len); [|lia].
    assert (b = (pre ++ h1) ++ h2 ++ CRLF ++ data ++ CRLF ++ post) as Hb'
      by (rewrite Hb; unfold enc_chunk; by rewrite <- !app_assoc).
    destruct h2 as [|c h2].
    - rewrite (rd_in b (pre ++ h1) CRLF (data ++ CRLF ++ post) (buf + size h1) 0 13);
        [|by rewrite Hb'|rewrite size_app; lia|lia|done].
      cbn [mbind outcome_bind]. change (isxdigit 13) with false. apply wp_mret.
      rewrite app_nil_r in *. change (size (@nil Z)) with 0 in *. rewrite Hval. rewrite u64_small by lia. do 2 f_equal; lia.
    - apply Forall_app in Hx as [_ Hx]. apply Forall_cons_1 in Hx as [Hc _].
      rewrite (rd_in b (pre ++ h1) (c :: h2) (CRLF ++ data ++ CRLF ++ post) (buf + size h1) 0 c);
        [|done|rewrite size_app; lia|lia|done].
      cbn [mbind outcome_bind]. rewrite Hc. apply wp_mret. split; [|lia].
      exists (h1 ++ [c]), h2. rewrite <- app_assoc. split_and!; [done|size_lia|].
      rewrite u64_digit. unfold xval. by rewrite fold_left_app. }
  cbn [mbind outcome_bind].
  rewrite (chunk_newline_hit b (pre ++ hs) (data ++ CRLF ++ post) buf (size hs) len);
    [|rewrite Hb; unfold enc_chunk; by rewrite <- !app_assoc|rewrite size_app; lia|lia|lia].
  cbn [mbind outcome_bind negb]. rewrite (u64_small (size hs + 2 + size data)) by lia.
  rewrite (chunk_newline_hit b (pre ++ hs ++ CRLF ++ data) post buf (size hs + 2 + size data) len);
    [|rewrite Hb; unfold enc_chunk; rewrite <- !app_assoc; done|rewrite !size_app; change (size CRLF) with 2; lia|lia|lia].
  cbn [mbind outcome_bind negb mret outcome_ret]. rewrite u64_small, Es by lia. do 3 f_equal. f_equal. lia.
Qed.

(** A chunk that has not arrived completely is not consumed. *)
Lemma parse_chunk_partial b pre hs data post k buf :
  b = pre ++ take k (enc_chunk hs data) ++ post -> buf = size pre -> chunk_ok (hs, data) ->
  (k < length (enc_chunk hs data))%nat ->
  wp (mg_http_parse_chunk b buf (Z.of_nat k)) (fun '(n, _) => n = 0).
Proof.
  intros Hb Hbuf (Hne & Hx & Hval & Hsz) Hk. simpl in *.
  assert (size (enc_chunk hs data) = size hs + 2 + size data + 2) as Es
    by (unfold enc_chunk; rewrite !size_app; change (size CRLF) with 2; lia).
  pose proof (size_nonneg hs). pose proof (size_nonneg data). pose proof (size_nonneg pre).
  set (kz := Z.of_nat k). assert (0 <= kz < size (enc_chunk hs data)) by (unfold kz, size; lia).
  assert (forall i x, 0 <= i < kz -> enc_chunk hs data !! Z.to_nat i = Some x -> rd b (buf + i) = Ret x) as Hrd.
  { intros i x Hi Hx'. apply (rd_in b pre (take k (enc_chunk hs data)) post (buf + i) i x); [done|lia|lia|].
    rewrite lookup_take_lt by (unfold kz in *; lia). done. }
  assert (forall i, u64 (i + 2) > kz -> chunk_newline b buf i kz = Ret false) as Hnl.
  { intros i Hi. unfold chunk_newline. rewrite Z.gtb_ltb. destruct (Z.ltb_spec kz (u64 (i + 2))); [|lia].
    by rewrite orb_true_r. }
  unfold mg_http_parse_chunk. apply wp_bind.
  apply wp_mono with (P := fun '(i, n) => (i = size hs /\ n = size data) \/ (kz <= i <= size hs)).
  - apply wp_loop with (m := fun '(i, _) => Z.to_nat (kz - i))
      (I := fun '(i, n) => exists h1 h2, hs = h1 ++ h2 /\ i = size h1 /\ n = u64 (xval h1)); [|by exists [], hs|lia].
    intros [i n] (h1 & h2 & Eh & -> & ->). pose proof (size_nonneg h1). pose proof (size_nonneg h2).
    assert (size hs = size h1 + size h2) as Eh' by (subst; by rewrite size_app).
    wp_step; [|apply wp_mret; right; lia].
    destruct h2 as [|c h2].
    + rewrite (Hrd (size h1) 13); [|lia|unfold enc_chunk; rewrite Eh, app_nil_r, size_to_nat; by rewrite lookup_app_r, Nat.sub_diag by lia].
      cbn [mbind outcome_bind]. change (isxdigit 13) with false. apply wp_mret. left. rewrite app_nil_r in Eh. subst h1.
      split; [done|]. rewrite Hval. apply u64_small. lia.
    + rewrite (Hrd (size h1) c); [|lia|unfold enc_chunk; rewrite Eh, size_to_nat, <- app_assoc; by rewrite lookup_app_r, Nat.sub_diag by lia].
      cbn [mbind outcome_bind]. rewrite Eh in Hx. apply Forall_app in Hx as [_ Hx]. apply Forall_cons_1 in Hx as [Hc _].
      rewrite Hc. apply wp_mret. split; [|lia]. exists (h1 ++ [c]), h2. rewrite <- app_assoc. split_and!; [done|size_lia|].
      rewrite u64_digit. unfold xval. by rewrite fold_left_app.
  - intros [i n] Hin.
    destruct (decide (u64 (i + 2) > kz)) as [Hgt|Hle]; [rewrite (Hnl i Hgt); by apply wp_mret|].
    rewrite u64_small in Hle by lia. assert (i = size hs /\ n = size data) as [-> ->] by lia.
    assert (u64 (size hs + 2 + size data) = size hs + 2 + size data) as -> by (apply u64_small; lia).
    rewrite (Hnl (size hs + 2 + size data)) by (rewrite u64_small; lia).
    apply wp_bind, wp_mono with (P := fun _ => True).
    + unfold chunk_newline. wp_step; [by apply wp_mret|].
      rewrite (Hrd (size hs) 13); [|lia|unfold enc_chunk; rewrite size_to_nat; by rewrite lookup_app_r, Nat.sub_diag by lia].
      cbn [mbind outcome_bind]. wp_step; [by apply wp_mret|].
      rewrite (Hrd (size hs + 1) 10); [|lia|]; [by apply wp_mret|].
      unfold enc_chunk. rewrite lookup_app_r by (unfold size; lia).
      replace (Z.to_nat (size hs + 1) - length hs)%nat with 1%nat by (unfold size; lia). done.
    + intros [] _; by apply wp_mret.
Qed.

(** What follows the chunks the loop consumes: a truncated chunk, or the last
    chunk, of length zero, and what comes after the message. *)
Inductive wire_end : list Z -> bool -> list Z -> Prop :=
| end_partial hs data k :
    chunk_ok (hs, data) -> (k < length (enc_chunk hs data))%nat ->
    wire_end (take k (enc_chunk hs data)) false (take k (enc_chunk hs data))
| end_zero hs rest : chunk_ok (hs, []) -> wire_end (enc_chunk hs [] ++ rest) true rest.

Definition enc_chunks (cs : list (list Z * list Z)) : list Z := concat (map (fun c => enc_chunk c.1 c.2) cs).
Definition chunks_data (cs : list (list Z * list Z)) : list Z := concat (map snd cs).

(** One iteration: the chunk at the head of the unread bytes is moved down. *)
Lemma chunk_moved pre body junk hs data rest post :
  exists junk', size junk' = size junk + size hs + 4 /\
    (let b := pre ++ body ++ junk ++ (enc_chunk hs data ++ rest) ++ post in
     memcpy b (size pre + size body) b (size pre + size body + size junk + size hs + 2) (size data))
    = Ret (pre ++ (body ++ data) ++ junk' ++ rest ++ post).
Proof.
  destruct (copy_down pre body (junk ++ hs ++ CRLF) data (CRLF ++ rest) post
    (size pre + size body + size junk + size hs + 2) (size pre + size body) (size data)) as (j & Hj & E);
    [done|rewrite !size_app; change (size CRLF) with 2; lia|done|].
  exists (j ++ CRLF). rewrite !size_app in *. change (size CRLF) with 2 in *. split; [lia|]. cbv zeta.
  replace (pre ++ body ++ junk ++ (enc_chunk hs data ++ rest) ++ post)
    with (pre ++ body ++ (junk ++ hs ++ CRLF) ++ (data ++ CRLF ++ rest) ++ post)
    by (unfold enc_chunk; rewrite <- !app_assoc; done).
  rewrite E. by rewrite <- !app_assoc.
Qed.

Lemma enc_chunk_size hs data : size (enc_chunk hs data) = size hs + size data + 4.
Proof. unfold enc_chunk. rewrite !size_app. change (size CRLF) with 2. lia. Qed.

(** One turn of the loop on a complete chunk. *)
Lemma chunk_step_full pre body junk hs data rest post blen hm_len :
  chunk_ok (hs, data) -> blen = size body + size junk + size (enc_chunk hs data ++ rest) -> blen < 2 ^ 62 ->
  exists junk', size junk' = size junk + size hs + 4 /\
    let st' := (pre ++ (body ++ data) ++ junk' ++ rest ++ post, size body + size junk + size (enc_chunk hs data),
                size (body ++ data), size (body ++ data)) in
    chunk_step (size pre) blen (pre ++ body ++ junk ++ (enc_chunk hs data ++ rest) ++ post, size body + size junk, size body, hm_len)
    = Ret (if size data =? 0 then inr (st', true) else inl st').
Proof.
  intros Hc Hbl Hlt. rewrite size_app in Hbl.
  pose proof (size_nonneg body). pose proof (size_nonneg junk). pose proof (size_nonneg rest). pose proof (size_nonneg hs). pose proof (size_nonneg data).
  destruct (chunk_moved pre body junk hs data rest post) as (j & Hj & E). exists j. split; [done|]. cbv zeta in *.
  unfold chunk_step. rewrite (parse_chunk_spec _ (pre ++ body ++ junk) hs data (rest ++ post));
    [|by rewrite <- !app_assoc|rewrite !size_app; lia|done|lia].
  cbn [mbind outcome_bind]. pose proof (enc_chunk_size hs data). rewrite Z.gtb_ltb. destruct (Z.ltb_spec 0 (size (enc_chunk hs data))); [|lia].
  replace (size pre + (size body + size junk) + size hs + 2) with (size pre + size body + size junk + size hs + 2) by lia.
  rewrite E. cbn [mbind outcome_bind]. rewrite size_app. by destruct (size data =? 0).
Qed.

(** The loop consumes every complete chunk up to the last one. *)
Lemma chunk_loop_spec pre post blen tl zero rest cs : wire_end tl zero rest ->
  Forall (fun c => chunk_ok c /\ c.2 <> []) cs ->
  forall body junk hm_len fuel,
  blen = size body + size junk + size (enc_chunks cs ++ tl) -> blen < 2 ^ 62 -> (length cs < fuel)%nat ->
  exists junk', size junk' = blen - size rest - size (body ++ chunks_data cs) /\
    loop fuel (chunk_step (size pre) blen) (pre ++ body ++ junk ++ (enc_chunks cs ++ tl) ++ post, size body + size junk, size body, hm_len)
    = Ret (pre ++ (body ++ chunks_data cs) ++ junk' ++ rest ++ post, blen - size rest, size (body ++ chunks_data cs),
           (if negb zero && bool_decide (cs = []) then hm_len else size (body ++ chunks_data cs)), zero).
Proof.
  intros Htl Hcs. induction Hcs as [|[hs data] cs [Hc Hd] Hcs IH]; intros body junk hm_len fuel Hbl Hlt Hf;
    (destruct fuel as [|fuel]; [simpl in Hf; lia|]); rewrite loop_S.
  - unfold enc_chunks, chunks_data in *. cbn [map concat] in *. rewrite app_nil_r, app_nil_l in *.
    destruct Htl as [hs data k Hc Hk|hs rest Hc].
    + exists junk. split; [lia|]. unfold chunk_step.
      assert (size (take k (enc_chunk hs data)) = Z.of_nat k) as Ek by (unfold size; rewrite length_take; lia).
      destruct (parse_chunk_partial (pre ++ body ++ junk ++ take k (enc_chunk hs data) ++ post) (pre ++ body ++ junk) hs data post k
        (size pre + (size body + size junk))) as ([n d] & E & ->); [by rewrite <- !app_assoc|rewrite !size_app; lia|done|done|].
      replace (blen - (size body + size junk)) with (Z.of_nat k) by lia. rewrite E. cbn [mbind outcome_bind].
      replace (blen - size (take k (enc_chunk hs data))) with (size body + size junk) by lia.
      by destruct d as [[? ?]|].
    + destruct (chunk_step_full pre body junk hs [] rest post blen hm_len) as (j & Hj & ->); [done|done|done|].
      change (size (@nil Z) =? 0) with true. cbv iota. rewrite !app_nil_r. exists j. rewrite size_app, enc_chunk_size in Hbl.
      change (size (@nil Z)) with 0 in Hbl. split; [lia|]. rewrite enc_chunk_size. change (size (@nil Z)) with 0.
      cbn [negb andb]. replace (blen - size rest) with (size body + size junk + (size hs + 0 + 4)) by lia. done.
  - unfold enc_chunks, chunks_data in *. cbn [map concat fst snd] in *. rewrite <- (app_assoc (enc_chunk hs data)) in *.
    destruct (chunk_step_full pre body junk hs data (concat (map (fun c => enc_chunk c.1 c.2) cs) ++ tl) post blen hm_len) as (j & Hj & ->);
      [done|done|done|].
    assert (0 < size data) by (destruct data as [|x d]; [done|]; rewrite size_cons; pose proof (size_nonneg d); lia).
    destruct (Z.eqb_spec (size data) 0); [lia|]. rewrite size_app, enc_chunk_size in Hbl. rewrite enc_chunk_size.
    destruct (IH (body ++ data) j (size (body ++ data)) fuel) as (j' & Hj' & E); [rewrite size_app; lia|done|simpl in Hf; lia|].
    exists j'. rewrite <- !(app_assoc body data) in *. split; [done|].
    replace (size body + size junk + (size hs + size data + 4)) with (size (body ++ data) + size j) by (rewrite size_app; lia).
    rewrite E. rewrite andb_false_r. do 3 f_equal.
    destruct cs; [|by rewrite andb_false_r]. simpl. rewrite app_nil_r. by destruct (negb zero).
Qed.

(** Clearing a segment. *)
Lemma memset_mid (pre seg post : list Z) off n v :
  off = size pre -> n = size seg -> memset (pre ++ seg ++ post) off v n = Ret (pre ++ replicate (length seg) v ++ post).
Proof.
  intros -> ->. pose proof (size_nonneg seg). pose proof (size_nonneg post).
  rewrite memset_after by (done || (rewrite size_app; lia)). by rewrite size_to_nat, drop_app_length.
Qed.

Lemma size_replicate {A} n (v : A) : size (replicate n v) = Z.of_nat n.
Proof. unfold size. by rewrite length_replicate. Qed.

(** What the loop removes. *)
Lemma chunk_gap cs tl zero rest : wire_end tl zero rest ->
  size (chunks_data cs) + size rest + 4 * size cs + (if zero then 4 else 0) <= size (enc_chunks cs ++ tl).
Proof.
  intros Htl. unfold enc_chunks, chunks_data. induction cs as [|[hs d] cs IH]; cbn [map concat fst snd].
  - change (size (@nil Z)) with 0. change (size (@nil (list Z * list Z))) with 0. rewrite app_nil_l. destruct Htl; [lia|].
    rewrite size_app, enc_chunk_size. pose proof (size_nonneg hs). change (size (@nil Z)) with 0. lia.
  - rewrite <- app_assoc. rewrite !(size_app d), !(size_app (enc_chunk _ _)), size_cons, enc_chunk_size.
    pose proof (size_nonneg hs). lia.
Qed.

Lemma handle_chunked_reassembles pre body cs tl zero rest post rl hbl hml (delete : bool) :
  wire_end tl zero rest -> Forall (fun c => chunk_ok c /\ c.2 <> []) cs -> (cs <> [] \/ zero = true) ->
  size (body ++ enc_chunks cs ++ tl) < 2 ^ 62 ->
  let all := body ++ chunks_data cs in
  let blen := size (body ++ enc_chunks cs ++ tl) in
  let kept := if delete then [] else all in
  let gone := blen - size kept - size rest in
  exists gap, size gap = gone /\
    mg_handle_chunked (mk_chunks (pre ++ body ++ (enc_chunks cs ++ tl) ++ post) rl (size body) hbl hml) (size pre) blen delete
    = Ret (mk_chunks (pre ++ kept ++ rest ++ gap ++ post) (rl - gone) (size kept) (size kept)
             (if zero then size kept + size rest else hml), size all, true).
Proof.
  intros Htl Hcs Hne Hlt all blen kept gone.
  pose proof (size_nonneg body). pose proof (size_nonneg rest). pose proof (size_nonneg pre). pose proof (size_nonneg all).
  pose proof (size_nonneg (enc_chunks cs ++ tl)). assert (blen = size body + size (enc_chunks cs ++ tl)) as Hbl by apply size_app.
  pose proof (chunk_gap cs tl zero rest Htl) as Hgap. pose proof (size_nonneg (chunks_data cs)).
  assert (0 <= size cs) by apply size_nonneg. assert (0 <= (if zero then 4 else 0)) by (destruct zero; lia).
  destruct (chunk_loop_spec pre post blen tl zero rest cs Htl Hcs body [] hbl (S (Z.to_nat blen))) as (j & Hj & E);
    [change (size (@nil Z)) with 0; lia|done|unfold size in *; lia|].
  rewrite app_nil_l in E.
  fold all in Hj, E. change (size (@nil Z)) with 0 in E. rewrite Z.add_0_r in E.
  assert (0 < size j).
  { rewrite Hj. unfold all. rewrite size_app. destruct Hne as [Hne| ->]; [|lia].
    destruct cs as [|c cs]; [done|]. rewrite (size_cons c) in Hgap. pose proof (size_nonneg cs). destruct zero; lia. }
  assert (negb zero && bool_decide (cs = []) = false) as Hz
    by (destruct Hne as [Hne| ->]; [rewrite bool_decide_eq_false_2 by done; apply andb_false_r|done]).
  rewrite Hz in E. unfold mg_handle_chunked. cbn [chunk_body_len ck_buf hm_body_len recv_len hm_message_len].
  destruct (Z.geb_spec blen (size body)); [|lia]. cbn [negb]. rewrite E. cbn [mbind outcome_bind].
  rewrite Z.gtb_ltb. destruct (Z.ltb_spec (size all) (blen - size rest)); [|lia].
  destruct (Z.leb_spec (blen - size rest) blen); [|lia]. cbn [negb].
  replace (blen - (blen - size rest)) with (size rest) by lia.
  destruct (copy_down pre all j rest [] post (size pre + (blen - size rest)) (size pre + size all) (size rest)) as (j2 & Hj2 & E2);
    [lia|lia|done|]. rewrite !app_nil_r, !app_nil_l in E2. rewrite E2. cbn [mbind outcome_bind].
  rewrite <- (app_assoc all), (app_assoc pre all), (app_assoc _ rest).
  rewrite memset_mid by (rewrite ?size_app; lia). cbn [mbind outcome_bind].
  set (z := replicate (length j2) 0). assert (size z = size j2) as Hz2 by (unfold z; by rewrite size_replicate).
  destruct delete.
  - rewrite <- !app_assoc. rewrite (memset_mid pre all) by done. cbn [mbind outcome_bind].
    destruct (copy_down pre [] (replicate (length all) 0) rest z post (size pre + size all) (size pre) (size rest)) as (j3 & Hj3 & E3);
      [change (size (@nil Z)) with 0; lia|by rewrite size_replicate|done|]. rewrite !app_nil_l, <- !app_assoc in E3.
    rewrite E3. cbn [mbind outcome_bind mret outcome_ret]. exists (j3 ++ z). rewrite size_replicate in Hj3.
    subst gone kept. rewrite size_app. change (size (@nil Z)) with 0. split; [unfold size in *; lia|].
    rewrite <- !app_assoc. do 3 f_equal. f_equal; [lia|]. destruct zero; lia.
  - cbn [mbind outcome_bind mret outcome_ret]. exists z. subst gone kept. split; [lia|]. rewrite <- !app_assoc.
    do 3 f_equal. f_equal; [lia|]. destruct zero; lia.
Qed.

(** C6: chunked bodies are reassembled in place.  The buffer holds [pre], the
    part [body] reassembled by earlier calls, any number of complete chunks and
    then either a truncated chunk or the last chunk and the bytes after the
    message.  The call leaves the data of all the chunks after [body], followed
    by the unread bytes [rest], removes exactly the framing from the receive
    buffer, records the length of the body for the next call, sets the length
    of the message when the last chunk has come; and when the handler asks for
    it ([delete]) the data is removed as well. *)
Theorem mg_handle_chunked_reassembles pre body cs tl zero rest post rl hbl hml (delete : bool) :
  wire_end tl zero rest -> Forall (fun c => chunk_ok c /\ c.2 <> []) cs -> (cs <> [] \/ zero = true) ->
  size (body ++ enc_chunks cs ++ tl) < 2 ^ 62 ->
  let all := body ++ chunks_data cs in
  let blen := size (body ++ enc_chunks cs ++ tl) in
  let kept := if delete then [] else all in
  let gone := blen - size kept - size rest in
  exists gap, size gap = gone /\
    mg_handle_chunked (mk_chunks (pre ++ body ++ (enc_chunks cs ++ tl) ++ post) rl (size body) hbl hml) (size pre) blen delete
    = Ret (mk_chunks (pre ++ kept ++ rest ++ gap ++ post) (rl - gone) (size kept) (size kept)
             (if zero then size kept + size rest else hml), size all, true).
Proof. apply handle_chunked_reassembles. Qed.

Definition chunks_example : list (list Z * list Z) := [(lit "3", lit "ki!"); (lit "0a", lit "0123456789")].

Lemma chunks_example_ok : chunk_ok (lit "0", []) /\ Forall (fun c => chunk_ok c /\ c.2 <> []) chunks_example.
Proof.
  repeat constructor; try done; apply (bool_decide_eq_true_1 _); reflexivity.
Qed.

Lemma mg_handle_chunked_reassembles_witness :
  exists gap, size gap = 31 /\
    mg_handle_chunked (mk_chunks (lit "HDR" ++ lit "Wi" ++ (enc_chunks chunks_example ++ (enc_chunk (lit "0") [] ++ lit "GET")) ++ []) 34 2 2 7) 3 34 true
    = Ret (mk_chunks (lit "HDR" ++ [] ++ lit "GET" ++ gap ++ []) 3 0 0 3, 15, true).
Proof.
  destruct (mg_handle_chunked_reassembles (lit "HDR") (lit "Wi") chunks_example
    (enc_chunk (lit "0") [] ++ lit "GET") true (lit "GET") [] 34 2 7 true) as (g & Hg & E);
    [apply end_zero, chunks_example_ok|apply chunks_example_ok|by right|apply (bool_decide_eq_true_1 _); reflexivity|].
  exists g. split; [exact Hg|exact E].
Defined.

(** ** Looking a header up *)

(** The value of the first of the named headers, ignoring case. *)
Fixpoint find_header (b : list Z) (ns vs : list mg_str) (name : list Z) : option mg_str :=
  match ns, vs with
  | n :: ns, v :: vs =>
      if len n =? 0 then None
      else if bool_decide (map tolower (str_bytes b n) = map tolower name) then Some v
      else find_header b ns vs name
  | _, _ => None
  end.

(** On every parsed message, [mg_get_http_header] returns the value of the
    first header of that name, compared without regard to case, and nothing when
    there is none: it never runs past the array of headers. *)
Theorem mg_get_http_header_first b lo hi hm name :
  0 <= lo -> hi <= size b -> headers_ok lo hi hm -> 0 ∉ name ->
  mg_get_http_header b hm name = Ret (find_header b (header_names hm) (header_values hm) name).
Proof.
  intros Hlo Hhi [Hn Hv Hlast [Hns Hvs]] Hname. apply wp_eq. unfold mg_get_http_header.
  set (ns := header_names hm) in *. set (vs := header_values hm) in *.
  apply wp_loop with (m := fun i => Z.to_nat (40 - i))
    (I := fun i => 0 <= i < 40 /\ find_header b ns vs name = find_header b (drop (Z.to_nat i) ns) (drop (Z.to_nat i) vs) name);
    [|split; [lia|by rewrite !drop_0]|lia].
  intros i [Hi E]. destruct (rd_total ns i) as (n & En & ->); [unfold size; lia|].
  destruct (rd_total vs i) as (v & Ev & ->); [unfold size; lia|]. cbn [mbind outcome_bind].
  rewrite (drop_S ns n _ En), (drop_S vs v _ Ev) in E. simpl in E.
  rewrite Forall_lookup in Hns. pose proof (Hns _ _ En) as Hin. unfold inside in Hin.
  assert (find_header b (drop (S (Z.to_nat i)) ns) (drop (S (Z.to_nat i)) vs) name =
    find_header b (drop (Z.to_nat (i + 1)) ns) (drop (Z.to_nat (i + 1)) vs) name) as Enext
    by (replace (Z.to_nat (i + 1)) with (S (Z.to_nat i)) by lia; done).
  assert (len n > 0 -> i + 1 < 40) as Hmore.
  { intros Hl. destruct (decide (i = 39)) as [->|]; [|lia]. change (Z.to_nat 39) with 39%nat in En.
    rewrite Hlast in En. injection En as <-. done. }
  rewrite Z.gtb_ltb. apply wp_if; intros Hl.
  2: { apply wp_mret. rewrite E. destruct (p n); by replace (len n =? 0) with true by lia. }
  apply Z.ltb_lt in Hl. replace (len n =? 0) with false in E by lia. unfold str_bytes in E.
  destruct (p n) as [q|]; [|lia]. wp_step.
  - apply wp_bind. eapply wp_mono; [apply mg_ncasecmp_spec; try size_lia|].
    + rewrite slice_app_l, slice_all by (pose proof (size_nonneg name); lia). done.
    + intros d Hd; cbn beta in Hd. rewrite (slice_app_l name [0]), slice_all in Hd by (pose proof (size_nonneg name); lia). replace (size name) with (len n) in Hd by done.
      destruct (Z.eqb_spec d 0); apply wp_mret.
      * rewrite bool_decide_eq_true_2 in E by tauto. done.
      * rewrite bool_decide_eq_false_2 in E by tauto. rewrite <- Enext. split; [split; [lia|done]|lia].
  - apply wp_mret. rewrite bool_decide_eq_false_2 in E; [rewrite <- Enext; split; [split; [lia|done]|lia]|].
    intros Eq. apply (f_equal size) in Eq. unfold size in Eq. rewrite !length_map in Eq.
    rewrite length_slice in Eq by lia. unfold size in *; lia.
Qed.

Lemma mg_get_http_header_first_witness :
  mg_get_http_header req1 (set_header http0 0 (mk_str (Some 28) 4) (mk_str (Some 34) 11)) (lit "hOST") = Ret (Some (mk_str (Some 34) 11)).
Proof.
  rewrite (mg_get_http_header_first req1 0 70); [reflexivity|lia|discriminate| |apply (bool_decide_eq_true_1 _); reflexivity].
  apply set_header_ok; [apply headers_ok0|lia|unfold inside; simpl; lia|unfold inside; simpl; lia].
Defined.
