(* ===== verification/Conn.v ===== *)
(** * Sending on a connection (mongoose.c, net.c and net_if_socket.c)

    The part of a connection that the protocol modules write: its send buffer.
    [mg_send] appends to it, whether the connection is TCP or UDP.  A module
    calls it many times, so the answers of the allocator to come are a stream. *)

From Stdlib Require Import ZArith Lia String.
From stdpp Require Import base list numbers option.
From S2P Require Import Prelude Strs Mbuf.

Local Open Scope Z_scope.

(** ** The code *)

(** The events of a connection. *)
Definition MG_EV_POLL : Z := 0.
Definition MG_EV_ACCEPT : Z := 1.
Definition MG_EV_CONNECT : Z := 2.
Definition MG_EV_RECV : Z := 3.
Definition MG_EV_SEND : Z := 4.
Definition MG_EV_CLOSE : Z := 5.
Definition MG_EV_TIMER : Z := 6.

Record conn := mk_conn { send_mbuf : mbuf; answers : nat -> option block }.

(** One call of an [mbuf] function: it takes one answer. *)
Definition on_send_mbuf (c : conn) (f : option block -> mbuf -> outcome (mbuf * Z)) : outcome conn :=
  '(m, _) ← f (answers c O) (send_mbuf c); mret (mk_conn m (fun n => answers c (S n))).

Definition mg_if_tcp_send (c : conn) (buf : list Z) (len : Z) : outcome conn :=
  on_send_mbuf c (fun r m => mbuf_append r m (Some buf) len).
Definition mg_if_udp_send (c : conn) (buf : list Z) (len : Z) : outcome conn :=
  on_send_mbuf c (fun r m => mbuf_append r m (Some buf) len).

(** [len] is an [int]; [udp] is the flag [MG_F_UDP]. *)
Definition mg_send (udp : bool) (c : conn) (buf : list Z) (len : Z) : outcome conn :=
  let len := u64 (s32 len) in
  if udp then mg_if_udp_send c buf len else mg_if_tcp_send c buf len.

(** ** What is sent *)

Definition sent (c : conn) : list Z := content (send_mbuf c).

(** The allocator answers, and there is room for [n] more bytes. *)
Record can_send (n : Z) (c : conn) : Prop := {
  cs_wf : mbuf_wf (send_mbuf c);
  cs_addr : addr_ok (send_mbuf c);
  cs_answers : forall i, alloc_ok (answers c i) /\ answers c i <> None;
  cs_room : size (sent c) + n <= FITS
}.

(** [f] sends exactly the bytes [bs]. *)
Definition sends (f : conn -> outcome conn) (bs : list Z) : Prop :=
  forall c n, can_send (size bs + n) c -> 0 <= n -> exists c', f c = Ret c' /\ sent c' = sent c ++ bs /\ can_send n c'.

Lemma sends_insert off s c n : 0 <= off <= size (sent c) -> can_send (size s + n) c -> 0 <= n ->
  exists c', on_send_mbuf c (fun r m => mbuf_insert r m off (Some s) (size s)) = Ret c' /\
    sent c' = slice (sent c) 0 off ++ s ++ slice (sent c) off (size (sent c) - off) /\ can_send n c'.
Proof.
  intros Ho [Hwf Ha Hr Hroom] Hn. destruct (Hr O) as [Hr0 Hr1]. pose proof (size_nonneg s).
  destruct (insert_step (answers c O) (send_mbuf c) off s Hwf Ha Hr0 Ho) as (a' & res & E & Hwf' & Ha' & Hc & Hres); [unfold sent in *; lia|].
  unfold on_send_mbuf. rewrite E. cbn [mbind outcome_bind mret outcome_ret]. eexists; split; [done|].
  specialize (Hres Hr1). subst res. cbn [mop_spec] in Hc. rewrite decide_True in Hc by done. split; [exact Hc|].
  split; [done|done|intros i; apply (Hr (S i))|]. unfold sent in *. cbn [send_mbuf]. rewrite Hc, !size_app, !size_slice by lia. lia.
Qed.

Lemma sends_append s n : 0 <= n <= size s -> sends (fun c => on_send_mbuf c (fun r m => mbuf_append r m (Some s) n)) (slice s 0 n).
Proof.
  intros Hs c k Hc Hk. pose proof (size_nonneg (sent c)).
  destruct (sends_insert (size (sent c)) (slice s 0 n) c k) as (c' & E & Hs' & Hc'); [lia|done|done|].
  rewrite slice_all, Z.sub_diag, slice_nil, app_nil_r in Hs'. exists c'. split; [|done]. rewrite <- E.
  unfold on_send_mbuf, mbuf_append, sent. rewrite size_content by apply Hc. by rewrite size_slice, mbuf_insert_prefix by lia.
Qed.

(** The object may be longer than what is sent of it. *)
Lemma mg_send_prefix udp s n : 0 <= n <= size s -> n < 2 ^ 31 -> sends (fun c => mg_send udp c s n) (slice s 0 n).
Proof.
  intros Hs Hn c k Hc Hk. destruct (sends_append s n Hs c k Hc Hk) as (c' & E & H'). exists c'. split; [|done]. rewrite <- E.
  unfold mg_send, mg_if_udp_send, mg_if_tcp_send. rewrite s32_small, u64_small by lia. by destruct udp.
Qed.

Lemma mg_send_sends udp s : size s < 2 ^ 31 -> sends (fun c => mg_send udp c s (size s)) s.
Proof.
  intros Hs. pose proof (size_nonneg s). intros c k. pose proof (mg_send_prefix udp s (size s) ltac:(lia) Hs c k) as H'. by rewrite slice_all in H'.
Qed.

(** Room for less. *)
Lemma sends_weaken n m c : can_send n c -> m <= n -> can_send m c.
Proof. intros [H1 H2 H3 H4] Hm. split; [done|done|done|lia]. Qed.

Lemma sends_nil : sends mret [].
Proof.
  intros c n Hc Hn. exists c. rewrite app_nil_r. split_and!; [done|done|].
  apply (sends_weaken _ n) in Hc; [done|]. change (size (@nil Z)) with 0. lia.
Qed.

Lemma sends_bind f g s t : sends f s -> sends g t -> sends (fun c => c ← f c; g c) (s ++ t).
Proof.
  intros Hf Hg c n Hc Hn. pose proof (size_nonneg t). destruct (Hf c (size t + n)) as (c1 & E1 & Hs1 & Hc1); [|lia|].
  { rewrite size_app in Hc. by replace (size s + (size t + n)) with (size s + size t + n) by lia. }
  destruct (Hg c1 n Hc1 Hn) as (c2 & E2 & Hs2 & Hc2). exists c2. rewrite E1. cbn [mbind outcome_bind]. split; [done|].
  by rewrite Hs2, Hs1, <- app_assoc.
Qed.

(** A connection with an empty buffer, for the examples. *)
Definition fresh_conn : conn := mk_conn (mk_mbuf 0 [] 0 0) (fun _ => Some (mk_block 4096 (fun _ => 0))).

Lemma fresh_can_send n : 0 <= n <= FITS -> can_send n fresh_conn.
Proof.
  intros Hn. split; [by split|split; [vm_compute; split; discriminate|done]|intros i; split; [vm_compute; split; [done|discriminate]|done]|].
  change (size (sent fresh_conn)) with 0. lia.
Qed.
