(* ===== verification/Coap.v ===== *)
(** * CoAP messages (mongoose.c, coap.c)

    The parser and the composer of RFC 7252 datagrams.  A message is parsed in
    place: its strings are offsets in the receive buffer.  The strings of a
    message to compose are offsets in one object of the caller, [mem]. *)

From Stdlib Require Import ZArith Lia String.
From stdpp Require Import base list numbers option sorting.
From S2P Require Import Prelude Strs Mbuf Conn.

Local Open Scope Z_scope.

(** ** The code *)

Definition MG_COAP_MSG_TYPE_FIELD : Z := 0x2.
Definition MG_COAP_CODE_CLASS_FIELD : Z := 0x4.
Definition MG_COAP_CODE_DETAIL_FIELD : Z := 0x8.
Definition MG_COAP_MSG_ID_FIELD : Z := 0x10.
Definition MG_COAP_TOKEN_FIELD : Z := 0x20.
Definition MG_COAP_OPTIOMG_FIELD : Z := 0x40.
Definition MG_COAP_PAYLOAD_FIELD : Z := 0x80.
Definition MG_COAP_ERROR : Z := 0x10000.
Definition MG_COAP_FORMAT_ERROR : Z := Z.lor MG_COAP_ERROR 0x20000.
Definition MG_COAP_IGNORE : Z := Z.lor MG_COAP_ERROR 0x40000.
Definition MG_COAP_NOT_ENOUGH_DATA : Z := Z.lor MG_COAP_ERROR 0x80000.
Definition MG_COAP_MSG_ACK : Z := 2.
Definition MG_COAP_MSG_MAX : Z := 3.
Definition MG_COAP_EVENT_BASE : Z := 300.

Record mg_coap_option := mk_opt { opt_number : Z; opt_value : mg_str }.

(** The linked list of options, in order; [optiomg_tail] is its last element:
    it moves only when an element is appended. *)
Record mg_coap_message := mk_coap {
  cflags : Z; msg_type : Z; code_class : Z; code_detail : Z; msg_id : Z;
  token : mg_str; options : list mg_coap_option; payload : mg_str
}.

Definition coap0 : mg_coap_message := mk_coap 0 0 0 0 0 (mk_str None 0) [] (mk_str None 0).

Definition or_flags (cm : mg_coap_message) (f : Z) : mg_coap_message :=
  mk_coap (Z.lor (cflags cm) f) (msg_type cm) (code_class cm) (code_detail cm) (msg_id cm) (token cm) (options cm) (payload cm).
Definition set_options (cm : mg_coap_message) (os : list mg_coap_option) : mg_coap_message :=
  mk_coap (cflags cm) (msg_type cm) (code_class cm) (code_detail cm) (msg_id cm) (token cm) os (payload cm).
Definition set_token (cm : mg_coap_message) (t : mg_str) : mg_coap_message :=
  mk_coap (cflags cm) (msg_type cm) (code_class cm) (code_detail cm) (msg_id cm) t (options cm) (payload cm).
Definition set_payload (cm : mg_coap_message) (q : mg_str) : mg_coap_message :=
  mk_coap (cflags cm) (msg_type cm) (code_class cm) (code_detail cm) (msg_id cm) (token cm) (options cm) q.

Definition mg_coap_free_options (cm : mg_coap_message) : mg_coap_message := set_options cm [].

(** "looking for appropriate position" *)
Fixpoint opt_insert (o : mg_coap_option) (l : list mg_coap_option) : list mg_coap_option :=
  match l with
  | [] => [o]
  | c :: r => if opt_number c >? opt_number o then o :: c :: r else c :: opt_insert o r
  end.

(** The allocation of the option is not checked by the code; it succeeds here. *)
Definition mg_coap_add_option (cm : mg_coap_message) (number : Z) (value : option Z) (n : Z) : mg_coap_message :=
  let o := mk_opt number (mk_str value n) in
  match last (options cm) with
  | None => set_options cm [o]
  | Some tail =>
      if opt_number tail <=? number then set_options cm (options cm ++ [o])
      else set_options cm (opt_insert o (options cm))
  end.

(** *** Parsing; pointers are offsets in the receive buffer [io]. *)

Definition coap_parse_header (ptr : Z) (io : mbuf) (cm : mg_coap_message) : outcome (option Z * mg_coap_message) :=
  if mb_len io <? 4 then mret (None, or_flags cm MG_COAP_NOT_ENOUGH_DATA) else
  c ← rd (mb_buf io) ptr;
  if negb (Z.shiftr c 6 =? 1) then mret (None, or_flags cm MG_COAP_IGNORE) else
  let cm := mk_coap (cflags cm) (Z.shiftr (Z.land c 0x30) 4) (code_class cm) (code_detail cm) (msg_id cm) (token cm) (options cm) (payload cm) in
  let cm := or_flags cm MG_COAP_MSG_TYPE_FIELD in
  let cm := set_token cm (mk_str (p (token cm)) (Z.land c 0x0F)) in
  if len (token cm) >? 8 then mret (None, or_flags cm MG_COAP_FORMAT_ERROR) else
  let ptr := ptr + 1 in
  c ← rd (mb_buf io) ptr;
  let cm := mk_coap (cflags cm) (msg_type cm) (Z.shiftr c 5) (Z.land c 0x1F) (msg_id cm) (token cm) (options cm) (payload cm) in
  let cm := or_flags cm (Z.lor MG_COAP_CODE_CLASS_FIELD MG_COAP_CODE_DETAIL_FIELD) in
  let ptr := ptr + 1 in
  hi ← rd (mb_buf io) ptr;
  lo ← rd (mb_buf io) (ptr + 1);
  let cm := mk_coap (cflags cm) (msg_type cm) (code_class cm) (code_detail cm) (Z.lor (Z.shiftl hi 8) lo) (token cm) (options cm) (payload cm) in
  mret (Some (ptr + 2), or_flags cm MG_COAP_MSG_ID_FIELD).

Definition coap_get_token (ptr : Z) (io : mbuf) (cm : mg_coap_message) : option Z * mg_coap_message :=
  if negb (len (token cm) =? 0) then
    if ptr + len (token cm) >? mb_len io then (None, or_flags cm MG_COAP_NOT_ENOUGH_DATA)
    else (Some (ptr + len (token cm)), or_flags (set_token cm (mk_str (Some ptr) (len (token cm)))) MG_COAP_TOKEN_FIELD)
  else (Some ptr, cm).

(** The bytes taken, or -1, and the new value of [*opt_info]. *)
Definition coap_get_ext_opt (ptr : Z) (io : mbuf) (opt_info : Z) : outcome (Z * Z) :=
  if opt_info =? 13 then
    if ptr <? mb_len io then c ← rd (mb_buf io) ptr; mret (1, u16 (c + 13)) else mret (-1, opt_info)
  else if opt_info =? 14 then
    if ptr + 1 <? mb_len io then
      hi ← rd (mb_buf io) ptr; lo ← rd (mb_buf io) (ptr + 1);
      mret (2, u16 (Z.lor (Z.shiftl hi 8) lo + 269))
    else mret (-1, opt_info)
  else mret (0, opt_info).

(** One turn of the loop of [coap_get_options]. *)
Definition coap_option_step (io : mbuf) (st : Z * Z * mg_coap_message) : outcome (Z * Z * mg_coap_message + Z * mg_coap_message) :=
  let '(ptr, prev_opt, cm) := st in
  if negb (ptr <? mb_len io) then mret (inr (ptr, cm)) else
  c ← rd (mb_buf io) ptr;
  if c =? 0xFF then mret (inr (ptr, cm)) else
  let option_delta := Z.shiftr (Z.land c 0xF0) 4 in
  let option_lenght := Z.land c 0x0F in
  if (option_delta =? 15) || (option_lenght =? 15) then mret (inr (ptr, or_flags cm MG_COAP_FORMAT_ERROR)) else
  let ptr := ptr + 1 in
  '(optinfo_len, option_delta) ← coap_get_ext_opt ptr io option_delta;
  if optinfo_len =? -1 then mret (inr (ptr, or_flags cm MG_COAP_NOT_ENOUGH_DATA)) else
  let ptr := ptr + optinfo_len in
  '(optinfo_len, option_lenght) ← coap_get_ext_opt ptr io option_lenght;
  if optinfo_len =? -1 then mret (inr (ptr, or_flags cm MG_COAP_NOT_ENOUGH_DATA)) else
  let ptr := ptr + optinfo_len in
  let option_delta := u16 (option_delta + prev_opt) in
  let cm := mg_coap_add_option cm option_delta (Some ptr) option_lenght in
  let prev_opt := option_delta in
  if ptr + option_lenght >? mb_len io then mret (inr (ptr, or_flags cm MG_COAP_NOT_ENOUGH_DATA)) else
  mret (inl (ptr + option_lenght, prev_opt, cm)).

Definition coap_get_options (ptr : Z) (io : mbuf) (cm : mg_coap_message) : outcome (option Z * mg_coap_message) :=
  if ptr =? mb_len io then mret (None, cm) else
  '(ptr, cm) ← loop (S (Z.to_nat (mb_len io))) (coap_option_step io) (ptr, 0, cm);
  if negb (Z.land (cflags cm) MG_COAP_ERROR =? 0) then mret (None, mg_coap_free_options cm) else
  let cm := or_flags cm MG_COAP_OPTIOMG_FIELD in
  if ptr =? mb_len io then mret (None, cm) else mret (Some (ptr + 1), cm).

Definition mg_coap_parse (io : mbuf) : outcome (Z * mg_coap_message) :=
  '(ptr, cm) ← coap_parse_header 0 io coap0;
  match ptr with None => mret (cflags cm, cm) | Some ptr =>
  let '(ptr, cm) := coap_get_token ptr io cm in
  match ptr with None => mret (cflags cm, cm) | Some ptr =>
  '(ptr, cm) ← coap_get_options ptr io cm;
  match ptr with None => mret (cflags cm, cm) | Some ptr =>
  let cm := set_payload cm (mk_str (p (payload cm)) (mb_len io - ptr)) in
  let cm := if negb (len (payload cm) =? 0)
            then or_flags (set_payload cm (mk_str (Some ptr) (len (payload cm)))) MG_COAP_PAYLOAD_FIELD else cm in
  mret (cflags cm, cm)
  end end end.

(** *** Composing *)

Definition coap_get_ext_opt_size (value : Z) : Z :=
  if (value >=? 13) && (value <=? 0xFF + 13) then 1
  else if (value >? 0xFF + 13) && (value <=? 0xFFFF + 269) then 2 else 0.

(** The result, and what [*base] and [*ext] hold after the call. *)
Definition coap_split_opt (value base ext : Z) : Z * Z * Z :=
  if value <? 13 then (0, u8 value, ext)
  else if (value >=? 13) && (value <=? 0xFF + 13) then (1, 13, u16 (value - 13))
  else if (value >? 0xFF + 13) && (value <=? 0xFFFF + 269) then (2, 14, u16 (value - 269))
  else (0, base, ext).

Definition coap_add_uint16 (b : list Z) (ptr val : Z) : outcome (list Z * Z) :=
  b ← wr b ptr (u8 (Z.shiftr val 8));
  b ← wr b (ptr + 1) (u8 (Z.land val 0x00FF));
  mret (b, ptr + 2).

Definition coap_add_opt_info (b : list Z) (ptr val len : Z) : outcome (list Z * Z) :=
  if len =? 1 then b ← wr b ptr (u8 val); mret (b, ptr + 1)
  else if len =? 2 then coap_add_uint16 b ptr val
  else mret (b, ptr).

(** The loop over the options; [prev_opt_number] stays 0 in it. *)
Fixpoint coap_options_size (opts : list mg_coap_option) (n prev_opt_number : Z) : Z * Z :=
  match opts with
  | [] => (0, n)
  | opt :: next =>
      let n := u64 (n + 1) in
      let n := u64 (n + coap_get_ext_opt_size (opt_number opt)) in
      let n := u64 (n + coap_get_ext_opt_size (u32 (len (opt_value opt)))) in
      if match next with o :: _ => opt_number opt >? opt_number o | [] => false end
         || (len (opt_value opt) >? 0xFFFF + 269) || (u32 (opt_number opt - prev_opt_number) >? 0xFFFF + 269)
      then (Z.lor MG_COAP_ERROR MG_COAP_OPTIOMG_FIELD, n)
      else coap_options_size next (u64 (n + len (opt_value opt))) prev_opt_number
  end.

Definition coap_calculate_packet_size (cm : mg_coap_message) : Z * Z :=
  let n := 4 in
  if msg_type cm >? MG_COAP_MSG_MAX then (Z.lor MG_COAP_ERROR MG_COAP_MSG_TYPE_FIELD, n) else
  if len (token cm) >? 8 then (Z.lor MG_COAP_ERROR MG_COAP_TOKEN_FIELD, n) else
  if code_class cm >? 7 then (Z.lor MG_COAP_ERROR MG_COAP_CODE_CLASS_FIELD, n) else
  if code_detail cm >? 31 then (Z.lor MG_COAP_ERROR MG_COAP_CODE_DETAIL_FIELD, n) else
  let n := u64 (n + len (token cm)) in
  let n := if negb (len (payload cm) =? 0) then u64 (n + u64 (len (payload cm) + 1)) else n in
  coap_options_size (options cm) n 0.

(** One option; [indet] is the value of the uninitialised locals. *)
Definition coap_put_option (mem : list Z) (indet : Z) (b : list Z) (ptr prev_opt_number : Z) (opt : mg_coap_option) : outcome (list Z * Z) :=
  let '(opt_delta_len, delta_base, delta_ext) := coap_split_opt (u32 (opt_number opt - prev_opt_number)) 0 indet in
  let '(opt_lenght_len, length_base, length_ext) := coap_split_opt (u32 (len (opt_value opt))) 0 indet in
  b ← wr b ptr (u8 (Z.lor (Z.shiftl delta_base 4) length_base));
  let ptr := ptr + 1 in
  '(b, ptr) ← coap_add_opt_info b ptr delta_ext opt_delta_len;
  '(b, ptr) ← coap_add_opt_info b ptr length_ext opt_lenght_len;
  if negb (len (opt_value opt) =? 0) then
    b ← deref (p (opt_value opt)) (fun q => memcpy b ptr mem q (len (opt_value opt)));
    mret (b, ptr + len (opt_value opt))
  else mret (b, ptr).

Fixpoint coap_put_options (mem : list Z) (indet : Z) (b : list Z) (ptr prev_opt_number : Z) (opts : list mg_coap_option) : outcome (list Z * Z) :=
  match opts with
  | [] => mret (b, ptr)
  | opt :: next =>
      '(b, ptr) ← coap_put_option mem indet b ptr prev_opt_number opt;
      coap_put_options mem indet b ptr (opt_number opt) next
  end.

(** Everything after the size of the packet is known and reserved. *)
Definition coap_put_message (mem : list Z) (indet : Z) (cm : mg_coap_message) (b : list Z) (ptr : Z) : outcome (list Z) :=
  b ← wr b ptr (u8 (Z.lor (Z.lor (Z.shiftl 1 6) (Z.shiftl (msg_type cm) 4)) (len (token cm))));
  let ptr := ptr + 1 in
  b ← wr b ptr (u8 (Z.lor (Z.shiftl (code_class cm) 5) (code_detail cm)));
  let ptr := ptr + 1 in
  '(b, ptr) ← coap_add_uint16 b ptr (msg_id cm);
  '(b, ptr) ← (if negb (len (token cm) =? 0) then
      b ← deref (p (token cm)) (fun q => memcpy b ptr mem q (len (token cm)));
      mret (b, ptr + len (token cm))
    else mret (b, ptr));
  '(b, ptr) ← coap_put_options mem indet b ptr 0 (options cm);
  if negb (len (payload cm) =? 0) then
    b ← wr b ptr 255;
    deref (p (payload cm)) (fun q => memcpy b (ptr + 1) mem q (len (payload cm)))
  else mret b.

Definition mg_coap_compose (r : option block) (indet : Z) (mem : list Z) (cm : mg_coap_message) (io : mbuf) : outcome (Z * mbuf) :=
  let '(res, packet_size) := coap_calculate_packet_size cm in
  if negb (res =? 0) then mret (res, io) else
  let prev_io_len := mb_len io in
  '(io, _) ← mbuf_append r io None packet_size;
  b ← coap_put_message mem indet cm (mb_buf io) prev_io_len;
  mret (0, mk_mbuf (mb_addr io) b (mb_len io) (mb_size io)).

(** The result, and the bytes given to [mg_send], if any. *)
Definition mg_coap_send_message (r : option block) (indet : Z) (mem : list Z) (cm : mg_coap_message) : outcome (Z * option (list Z)) :=
  '(compose_res, packet_out) ← mg_coap_compose r indet mem cm (mbuf_init None 0);
  if negb (compose_res =? 0) then mret (compose_res, None)
  else mret (0, Some (slice (mb_buf packet_out) 0 (mb_len packet_out))).

Definition mg_coap_send_ack (r : option block) (indet msg_id : Z) : outcome (Z * option (list Z)) :=
  mg_coap_send_message r indet [] (mk_coap 0 MG_COAP_MSG_ACK 0 0 msg_id (mk_str None 0) [] (mk_str None 0)).

(** The calls of the user's handler: the event and the message with it.  The
    handler may change the receive buffer: [user] is its effect. *)
Definition coap_handler (user : mbuf -> Z -> option mg_coap_message -> mbuf) (io : mbuf) (ev : Z) :
    outcome (list (Z * option mg_coap_message) * mbuf) :=
  let io := user io ev None in
  if ev =? MG_EV_RECV then
    '(parse_res, cm) ← mg_coap_parse io;
    let cm := if negb (Z.land (cflags cm) MG_COAP_NOT_ENOUGH_DATA =? 0) then or_flags cm MG_COAP_FORMAT_ERROR else cm in
    if Z.land parse_res MG_COAP_IGNORE =? 0 then
      let io := user io (MG_COAP_EVENT_BASE + msg_type cm) (Some cm) in
      io ← mbuf_remove io (mb_len io);
      mret ([(ev, None); (MG_COAP_EVENT_BASE + msg_type cm, Some cm)], io)
    else
      io ← mbuf_remove io (mb_len io);
      mret ([(ev, None)], io)
  else mret ([(ev, None)], io).

(** A message with every field, and its datagram. *)
Definition coap_mem : list Z := lit "tokhelloworld!".
Definition coap_msg : mg_coap_message :=
  mk_coap 0 1 2 5 513 (mk_str (Some 0) 3) [mk_opt 11 (mk_str (Some 3) 5); mk_opt 300 (mk_str (Some 8) 5)] (mk_str (Some 13) 1).

Example compose_coap_msg :
  (match mg_coap_send_message (Some (mk_block 4096 (fun _ => 0))) 0 coap_mem coap_msg with Ret (r, Some b) => (r, b) | _ => (-1, []) end)
  = (0, [83; 69; 2; 1] ++ lit "tok" ++ [181] ++ lit "hello" ++ [229; 0; 20] ++ lit "world" ++ [255] ++ lit "!").
Proof. vm_compute. reflexivity. Qed.

(** ** The list of options *)

Definition opt_le (x y : mg_coap_option) : Prop := opt_number x <= opt_number y.

Lemma opt_insert_split o l : exists l1 l2, l = l1 ++ l2 /\ opt_insert o l = l1 ++ o :: l2 /\
  Forall (fun x => opt_number x <= opt_number o) l1 /\ (forall x r, l2 = x :: r -> opt_number o < opt_number x).
Proof.
  induction l as [|c l (l1 & l2 & -> & E & H1 & H2)]; simpl.
  - by exists [], [].
  - rewrite Z.gtb_ltb. destruct (Z.ltb_spec (opt_number o) (opt_number c)).
    + exists [], (c :: l1 ++ l2). split_and!; [done|done|by constructor|by intros ? ? [= <- _]].
    + exists (c :: l1), l2. rewrite E. split_and!; [done|done|by constructor|done].
Qed.

Lemma sorted_suffix l1 l2 : Sorted opt_le (l1 ++ l2) -> Sorted opt_le l2.
Proof. induction l1 as [|x l1 IH]; [done|]. intros H. inversion H. by apply IH. Qed.

Lemma sorted_head_all x r : Sorted opt_le (x :: r) -> Forall (opt_le x) r.
Proof. intros H. apply Sorted_StronglySorted in H; [by inversion H|]. intros a b c; unfold opt_le; lia. Qed.

Lemma sorted_insert l1 l2 o : Sorted opt_le (l1 ++ l2) -> Forall (fun x => opt_number x <= opt_number o) l1 ->
  (forall x r, l2 = x :: r -> opt_number o < opt_number x) -> Sorted opt_le (l1 ++ o :: l2).
Proof.
  intros Hs H1 H2. induction H1 as [|x l1 Hx H1 IH]; simpl in *.
  - constructor; [done|]. destruct l2 as [|y r]; constructor. specialize (H2 y r eq_refl). unfold opt_le; lia.
  - inversion Hs as [|? ? Hs' Hh]; subst. constructor; [by apply IH|].
    destruct l1; constructor; [done|]. simpl in Hh. by inversion Hh.
Qed.

Lemma last_is_greatest l tail n : Sorted opt_le l -> last l = Some tail -> opt_number tail <= n ->
  Forall (fun x => opt_number x <= n) l.
Proof.
  intros Hs Hl Hn. induction l as [|x l IH]; [done|]. destruct l as [|y l].
  - injection Hl as ->. by repeat constructor.
  - inversion Hs as [|? ? Hs' Hh]; subst. specialize (IH Hs' Hl). constructor; [|done].
    inversion Hh as [|? ? Hle]; subst. unfold opt_le in Hle. inversion IH; subst. lia.
Qed.

Lemma add_option_split cm number value n : Sorted opt_le (options cm) ->
  exists l1 l2, options cm = l1 ++ l2 /\
    mg_coap_add_option cm number value n = set_options cm (l1 ++ mk_opt number (mk_str value n) :: l2) /\
    Forall (fun x => opt_number x <= number) l1 /\ Forall (fun x => number < opt_number x) l2.
Proof.
  intros Hs. unfold mg_coap_add_option. destruct (last (options cm)) as [tail|] eqn:El.
  - destruct (Z.leb_spec (opt_number tail) number).
    + exists (options cm), []. rewrite app_nil_r. split_and!; [done|done|by eapply last_is_greatest|done].
    + destruct (opt_insert_split (mk_opt number (mk_str value n)) (options cm)) as (l1 & l2 & E & -> & H1 & H2).
      exists l1, l2. split_and!; [done|done|done|]. destruct l2 as [|x r]; [done|].
      specialize (H2 x r eq_refl). rewrite E in Hs. apply sorted_suffix in Hs. apply sorted_head_all in Hs.
      constructor; [done|]. eapply Forall_impl; [done|]. unfold opt_le. simpl in *. lia.
  - apply last_None in El. rewrite El. by exists [], [].
Qed.

Lemma add_option_sorted cm number value n : Sorted opt_le (options cm) ->
  Sorted opt_le (options (mg_coap_add_option cm number value n)).
Proof.
  intros Hs. destruct (add_option_split cm number value n Hs) as (l1 & l2 & E & -> & H1 & H2). simpl.
  rewrite E in Hs. apply sorted_insert; [done|done|]. intros x r ->. by inversion H2.
Qed.

(** C40: [mg_coap_add_option] is a stable insertion: in a list sorted by number,
    the new option goes after every option of a smaller or equal number and
    before every option of a greater one; the other fields do not change. *)
Theorem mg_coap_add_option_stable cm number value n : Sorted opt_le (options cm) ->
  exists l1 l2, options cm = l1 ++ l2 /\
    mg_coap_add_option cm number value n = set_options cm (l1 ++ mk_opt number (mk_str value n) :: l2) /\
    Forall (fun x => opt_number x <= number) l1 /\ Forall (fun x => number < opt_number x) l2 /\
    Sorted opt_le (options (mg_coap_add_option cm number value n)).
Proof.
  intros Hs. destruct (add_option_split cm number value n Hs) as (l1 & l2 & H). exists l1, l2.
  destruct H as (? & ? & ? & ?). split_and!; try done. by apply add_option_sorted.
Qed.

Lemma mg_coap_add_option_stable_witness :
  exists l1 l2, options coap_msg = l1 ++ l2 /\
    mg_coap_add_option coap_msg 11 None 0 = set_options coap_msg (l1 ++ mk_opt 11 (mk_str None 0) :: l2) /\
    Forall (fun x => opt_number x <= 11) l1 /\ Forall (fun x => 11 < opt_number x) l2 /\
    Sorted opt_le (options (mg_coap_add_option coap_msg 11 None 0)).
Proof. apply mg_coap_add_option_stable. repeat constructor; unfold opt_le; simpl; lia. Defined.

(** ** The parser is safe *)

Definition err (cm : mg_coap_message) : bool := negb (Z.land (cflags cm) MG_COAP_ERROR =? 0).

Lemma err_or cm f : err (or_flags cm f) = err cm || negb (Z.land f MG_COAP_ERROR =? 0).
Proof.
  unfold err, or_flags. simpl. rewrite Z.land_lor_distr_l. set (x := Z.land (cflags cm) _). set (y := Z.land f _).
  destruct (Z.eqb_spec (Z.lor x y) 0) as [E|E].
  - apply Z.lor_eq_0_iff in E as [-> ->]. done.
  - destruct (Z.eqb_spec x 0) as [E1|]; [|done]. destruct (Z.eqb_spec y 0) as [E2|]; [|done]. rewrite E1, E2 in E. done.
Qed.

Lemma err_ne cm : err (or_flags cm MG_COAP_NOT_ENOUGH_DATA) = true.
Proof. rewrite err_or. apply orb_true_r. Qed.
Lemma err_fmt cm : err (or_flags cm MG_COAP_FORMAT_ERROR) = true.
Proof. rewrite err_or. apply orb_true_r. Qed.

(** A string inside the datagram. *)
Definition within (n : Z) (x : mg_str) : Prop :=
  match p x with Some q => 0 <= q /\ 0 <= len x /\ q + len x <= n | None => len x = 0 end.

Record coap_in (n : Z) (cm : mg_coap_message) : Prop := {
  ci_type : 0 <= msg_type cm <= 3;
  ci_class : 0 <= code_class cm <= 7;
  ci_detail : 0 <= code_detail cm <= 31;
  ci_id : 0 <= msg_id cm < 2 ^ 16;
  ci_token : len (token cm) <= 8 /\ within n (token cm);
  ci_options : Forall (fun o => 0 <= opt_number o < 2 ^ 16 /\ within n (opt_value o)) (options cm) /\ Sorted opt_le (options cm);
  ci_payload : within n (payload cm)
}.

(** The bit fields of a byte. *)
Lemma byte_fields c : 0 <= c < 256 ->
  Z.shiftr c 6 = c / 64 /\ Z.shiftr (Z.land c 0x30) 4 = c / 16 mod 4 /\ Z.land c 0x0F = c mod 16 /\
  Z.shiftr c 5 = c / 32 /\ Z.land c 0x1F = c mod 32 /\ Z.shiftr (Z.land c 0xF0) 4 = c / 16.
Proof.
  intros Hc. pose proof (range_forallb (fun c => (Z.shiftr c 6 =? c / 64) && (Z.shiftr (Z.land c 0x30) 4 =? c / 16 mod 4) &&
    (Z.land c 0x0F =? c mod 16) && (Z.shiftr c 5 =? c / 32) && (Z.land c 0x1F =? c mod 32) && (Z.shiftr (Z.land c 0xF0) 4 =? c / 16))
    256 ltac:(vm_compute; reflexivity) c Hc) as H. simpl in H. lia.
Qed.

Lemma be16 hi lo : 0 <= hi < 256 -> 0 <= lo < 256 -> Z.lor (Z.shiftl hi 8) lo = hi * 256 + lo.
Proof. intros. rewrite (lor_disjoint 8) by lia. done. Qed.

Section parse_safe.
Context (io : mbuf) (Hwf : mbuf_wf io) (Hb : bytes (mb_buf io)).

Local Lemma wp_rdb i (Q : Z -> Prop) : 0 <= i < mb_len io -> (forall c, is_byte c -> mb_buf io !! Z.to_nat i = Some c -> Q c) -> wp (rd (mb_buf io) i) Q.
Proof using Hwf Hb.
  intros Hi HQ. pose proof (wf_len _ Hwf). pose proof (wf_size _ Hwf).
  apply wp_rd; [lia|]. intros c Hc. apply HQ; [|done]. by eapply Forall_lookup_1.
Qed.

Lemma parse_header_safe : wp (coap_parse_header 0 io coap0) (fun '(ptr, cm) =>
options cm = [] /\ payload cm = mk_str None 0 /\
match ptr with
| None => err cm = true
| Some q => q = 4 /\ 4 <= mb_len io /\ err cm = false /\ 0 <= msg_type cm <= 3 /\ 0 <= code_class cm <= 7 /\ 0 <= code_detail cm <= 31 /\
    0 <= msg_id cm < 2 ^ 16 /\ p (token cm) = None /\ 0 <= len (token cm) <= 8
end).
Proof using Hwf Hb.
  unfold coap_parse_header. wp_step; [apply wp_mret; by rewrite err_ne|]. pose proof (wf_len _ Hwf).
  apply wp_bind, wp_rdb; [lia|]. intros c Hc _. unfold is_byte in Hc.
  destruct (byte_fields c Hc) as (E1 & E2 & E3 & E4 & E5 & _). rewrite E1.
  wp_step; [apply wp_mret; split_and!; [done|done|by rewrite err_or]|].
  cbv zeta. cbn [or_flags set_token cflags msg_type code_class code_detail msg_id token options payload coap0 p len].
  rewrite E2, E3, Z.gtb_ltb.
  wp_step; [apply wp_mret; split_and!; [done|done|by apply err_fmt]|].
  apply wp_bind, wp_rdb; [lia|]. intros d Hd _. unfold is_byte in Hd. destruct (byte_fields d Hd) as (_ & _ & _ & E6 & E7 & _).
  apply wp_bind, wp_rdb; [lia|]. intros hi Hhi _. unfold is_byte in Hhi.
  apply wp_bind, wp_rdb; [lia|]. intros lo Hlo _. unfold is_byte in Hlo.
  apply wp_mret. cbn [or_flags set_token cflags msg_type code_class code_detail msg_id token options payload p len].
  rewrite E6, E7, be16 by done. split_and!; first [done|lia|euclid].
Qed.

Lemma get_token_safe ptr cm : 0 <= ptr <= mb_len io -> 0 <= len (token cm) <= 8 -> p (token cm) = None ->
let '(q, cm') := coap_get_token ptr io cm in
options cm' = options cm /\ payload cm' = payload cm /\
msg_type cm' = msg_type cm /\ code_class cm' = code_class cm /\ code_detail cm' = code_detail cm /\ msg_id cm' = msg_id cm /\
match q with None => err cm' = true | Some q => ptr <= q <= mb_len io /\ err cm' = err cm /\ len (token cm') <= 8 /\ within (mb_len io) (token cm') end.
Proof using.
  intros Hp Ht Hn. unfold coap_get_token. destruct (Z.eqb_spec (len (token cm)) 0) as [E|E]; cbn [negb].
  - split_and!; try done; try lia. unfold within. rewrite Hn. done.
  - rewrite Z.gtb_ltb. destruct (Z.ltb_spec (mb_len io) (ptr + len (token cm))).
    + split_and!; try done. apply err_ne.
    + split_and!; try done; try lia; [rewrite err_or; apply orb_false_r|simpl; lia|unfold within; simpl; lia].
Qed.

Lemma get_ext_opt_safe ptr v (Q : Z * Z -> Prop) : 0 <= ptr -> 0 <= v < 15 ->
(forall v', 0 <= v' < 2 ^ 16 -> Q (-1, v')) ->
(forall n v', 0 <= n -> ptr + n <= Z.max ptr (mb_len io) -> 0 <= v' < 2 ^ 16 -> Q (n, v')) ->
wp (coap_get_ext_opt ptr io v) Q.
Proof using Hwf Hb.
  intros Hp Hv H1 H2. unfold coap_get_ext_opt. assert (forall z, 0 <= u16 z < 2 ^ 16) by (intros; apply Z.mod_pos_bound; lia).
  wp_step; [wp_step; [apply wp_bind, wp_rdb; [lia|]; intros c Hc _; apply wp_mret, H2; (done || lia)|apply wp_mret, H1; lia]|].
  wp_step; [wp_step; [|apply wp_mret, H1; lia]|apply wp_mret, H2; lia].
  apply wp_bind, wp_rdb; [lia|]. intros hi Hhi _. apply wp_bind, wp_rdb; [lia|]. intros lo Hlo _. apply wp_mret, H2; (done || lia).
Qed.

(** What the loop over the options preserves. *)
Definition options_inv (cm0 cm : mg_coap_message) : Prop :=
Forall (fun o => 0 <= opt_number o < 2 ^ 16 /\ within (mb_len io) (opt_value o)) (options cm) /\ Sorted opt_le (options cm) /\
set_options cm [] = set_options cm0 [].

Lemma add_option_inv cm0 cm number ptr n : options_inv cm0 cm -> 0 <= number < 2 ^ 16 -> 0 <= ptr -> 0 <= n -> ptr + n <= mb_len io ->
options_inv cm0 (mg_coap_add_option cm number (Some ptr) n).
Proof using.
  intros (Hf & Hs & He) Hn Hp Hl Hle. pose proof (add_option_sorted cm number (Some ptr) n Hs) as Hs'.
  destruct (add_option_split cm number (Some ptr) n Hs) as (l1 & l2 & E & E2 & _). split_and!; [|done|by rewrite E2].
  rewrite E2. simpl. rewrite E in Hf. apply Forall_app in Hf as [Hf1 Hf2]. apply Forall_app; split; [done|].
  constructor; [|done]. unfold within; simpl; lia.
Qed.

Lemma add_option_flags cm number ptr n : cflags (mg_coap_add_option cm number ptr n) = cflags cm.
Proof using. unfold mg_coap_add_option. destruct (last (options cm)); [|done]. by case_match. Qed.

Lemma option_step_safe cm0 ptr prev cm : 0 <= ptr <= mb_len io -> options_inv cm0 cm -> err cm = false ->
wp (coap_option_step io (ptr, prev, cm)) (fun r => match r with
  | inl (ptr', _, cm') => ptr < ptr' <= mb_len io /\ options_inv cm0 cm' /\ err cm' = false
  | inr (ptr', cm') => err cm' = true \/ (0 <= ptr' <= mb_len io /\ options_inv cm0 cm' /\ err cm' = false)
  end).
Proof using Hwf Hb.
  intros Hp Hinv Herr. unfold coap_option_step. wp_step; [apply wp_mret; by right|].
  apply wp_bind, wp_rdb; [lia|]. intros c Hc _. unfold is_byte in Hc. destruct (byte_fields c Hc) as (_ & _ & E3 & _ & _ & E6).
  rewrite E3, E6. wp_step; [apply wp_mret; right; split_and!; (done || lia)|].
  wp_step; [apply wp_mret; left; apply err_fmt|].
  assert (0 <= c / 16 < 15 /\ 0 <= c mod 16 < 15) as [Hd Hl] by euclid.
  apply wp_bind, get_ext_opt_safe; [lia|done|intros v Hv; apply wp_mret; left; apply err_ne|].
  intros n1 d Hn1 Hle1 Hdr. wp_step; [apply wp_mret; left; apply err_ne|].
  apply wp_bind, get_ext_opt_safe; [lia|done|intros v Hv; apply wp_mret; left; apply err_ne|].
  intros n2 l Hn2 Hle2 Hlr. wp_step; [apply wp_mret; left; apply err_ne|].
  cbv zeta. rewrite Z.gtb_ltb. wp_step; apply wp_mret; [left; apply err_ne|].
  split; [lia|]. split; [apply add_option_inv; [done|apply Z.mod_pos_bound; lia|lia..]|].
  unfold err. by rewrite add_option_flags.
Qed.

Lemma parse_safe : wp (mg_coap_parse io) (fun '(f, cm) => f = cflags cm /\
if err cm then options cm = [] else coap_in (mb_len io) cm).
Proof using Hwf Hb.
  unfold mg_coap_parse. apply wp_bind. eapply wp_mono; [apply parse_header_safe|].
  intros [[q|] cm] (Ho & Hpl & H); [|apply wp_mret; split; [done|]; by rewrite H].
  destruct H as (-> & Hlen & Herr & Hty & Hcl & Hde & Hid & Htp & Htl).
  pose proof (get_token_safe 4 cm ltac:(lia) Htl Htp) as Ht.
  destruct (coap_get_token 4 io cm) as [[q|] cm1]; destruct Ht as (Ho1 & Hp1 & E1 & E2 & E3 & E4 & Ht);
    [|apply wp_mret; split; [done|]; rewrite Ht; congruence].
  destruct Ht as (Hq & Herr1 & Ht1 & Ht2).
  assert (forall cm2, options_inv cm1 cm2 -> err cm2 = false -> coap_in (mb_len io) cm2) as Hin.
  { intros cm2 (Hf & Hs & He) _. apply (f_equal (fun c => (msg_type c, code_class c, code_detail c, msg_id c, token c, payload c))) in He.
    simpl in He. injection He as F1 F2 F3 F4 F5 F6. split; rewrite ?F1, ?F2, ?F3, ?F4, ?F5, ?F6, ?E1, ?E2, ?E3, ?E4, ?Hp1, ?Hpl; done. }
  assert (options_inv cm1 cm1) as Hinv0 by (unfold options_inv; rewrite Ho1, Ho; done).
  rewrite Herr in Herr1. apply wp_bind. unfold coap_get_options. wp_step.
  { apply wp_mret, wp_mret. split; [done|]. rewrite Herr1. by apply Hin. }
  apply wp_bind.
  apply wp_mono with (P := fun '(ptr', cm') => err cm' = true \/ (0 <= ptr' <= mb_len io /\ options_inv cm1 cm' /\ err cm' = false)).
  { apply wp_loop with (m := fun '(ptr, _, _) => Z.to_nat (mb_len io - ptr))
      (I := fun '(ptr, _, cm) => 0 <= ptr <= mb_len io /\ options_inv cm1 cm /\ err cm = false); [|split_and!; (done || lia)|lia].
    intros [[ptr prev] cm2] (Hp & Hi & He). eapply wp_mono; [by apply (option_step_safe cm1)|].
    intros [[[ptr' prev'] cm']|[ptr' cm']]; [|done]. intros (? & ? & ?). split_and!; (done || lia). }
  intros [ptr cm2] H2. change (negb (Z.land (cflags cm2) MG_COAP_ERROR =? 0)) with (err cm2).
  destruct H2 as [He|(Hptr & Hinv & He)]; rewrite He.
  { apply wp_mret, wp_mret. split; [done|]. change (err (mg_coap_free_options cm2)) with (err cm2). by rewrite He. }
  wp_step; apply wp_mret, wp_mret; (split; [done|]).
  - rewrite err_or, He. by destruct (Hin cm2 Hinv He).
  - cbv zeta. pose proof (Hin cm2 Hinv He) as Hc.
    assert (err (or_flags cm2 MG_COAP_OPTIOMG_FIELD) = false) as He2 by (rewrite err_or, He; done).
    set (cm3 := if negb _ then _ else _). assert (err cm3 = false) as ->.
    { subst cm3. case_match; [rewrite err_or, orb_false_r; exact He2|exact He2]. }
    destruct Hc as [? ? ? ? ? ? Hcp]. subst cm3. case_match; (split; try done); unfold within in *; simpl in *; destruct (p (payload cm2)); lia.
Qed.
End parse_safe.

(** C21: parsing any datagram returns without a fault and reads nothing outside
    it.  When the result has no error flag, the message is well-formed: every
    field is in its range, the token, the payload and the value of every option
    lie inside the datagram, and the options are sorted by number; otherwise no
    option is left allocated. *)
Theorem mg_coap_parse_safe io : mbuf_wf io -> bytes (mb_buf io) ->
  exists f cm, mg_coap_parse io = Ret (f, cm) /\ f = cflags cm /\
    (if err cm then options cm = [] else coap_in (mb_len io) cm).
Proof. intros Hwf Hb. destruct (parse_safe io Hwf Hb) as ([f cm] & E & H). by exists f, cm. Qed.

Definition coap_io : mbuf := mk_mbuf 4096 [83; 69; 2; 1; 116; 111; 107; 181; 104; 101; 108; 108; 111; 255; 33; 0] 15 16.

Lemma mg_coap_parse_safe_witness : exists f cm, mg_coap_parse coap_io = Ret (f, cm) /\ f = cflags cm /\
  (if err cm then options cm = [] else coap_in 15 cm).
Proof. apply (mg_coap_parse_safe coap_io); [split; [simpl; lia|reflexivity]|repeat constructor; lia]. Defined.

(** ** The format of RFC 7252 *)

Definition enc_ext (v : Z) : list Z :=
  if v <? 13 then [] else if v <=? 268 then [v - 13] else [(v - 269) / 256; (v - 269) mod 256].
Definition nibble (v : Z) : Z := if v <? 13 then v else if v <=? 268 then 13 else 14.
Definition enc_option (prev : Z) (o : Z * list Z) : list Z :=
  (nibble (o.1 - prev) * 16 + nibble (size o.2)) :: enc_ext (o.1 - prev) ++ enc_ext (size o.2) ++ o.2.
Fixpoint enc_options (prev : Z) (os : list (Z * list Z)) : list Z :=
  match os with [] => [] | o :: os => enc_option prev o ++ enc_options o.1 os end.

Record coap_view := mk_view {
  v_type : Z; v_class : Z; v_detail : Z; v_id : Z; v_token : list Z; v_options : list (Z * list Z); v_payload : list Z
}.

Definition enc_payload (l : list Z) : list Z := match l with [] => [] | _ => 255 :: l end.
Definition enc_message (v : coap_view) : list Z :=
  [64 + v_type v * 16 + size (v_token v); v_class v * 32 + v_detail v; v_id v / 256; v_id v mod 256]
  ++ v_token v ++ enc_options 0 (v_options v) ++ enc_payload (v_payload v).

(** What a message denotes. *)
Definition opt_view (b : list Z) (o : mg_coap_option) : Z * list Z := (opt_number o, str_bytes b (opt_value o)).
Definition view (b : list Z) (cm : mg_coap_message) : coap_view :=
  mk_view (msg_type cm) (code_class cm) (code_detail cm) (msg_id cm) (str_bytes b (token cm))
    (map (opt_view b) (options cm)) (str_bytes b (payload cm)).

(** Options in ascending order after number [prev], with the bounds of the format. *)
Fixpoint options_valid (bound prev : Z) (os : list (Z * list Z)) : Prop :=
  match os with
  | [] => True
  | o :: os => prev <= o.1 <= bound /\ size o.2 <= bound /\ options_valid bound o.1 os
  end.

Record view_valid (bound : Z) (v : coap_view) : Prop := {
  vv_type : 0 <= v_type v <= 3;
  vv_class : 0 <= v_class v <= 7;
  vv_detail : 0 <= v_detail v <= 31;
  vv_id : 0 <= v_id v < 2 ^ 16;
  vv_token : size (v_token v) <= 8;
  vv_options : options_valid bound 0 (v_options v)
}.

Definition ext_len (v : Z) : Z := if v <? 13 then 0 else if v <=? 268 then 1 else 2.

Lemma size_enc_ext v : size (enc_ext v) = ext_len v.
Proof. unfold enc_ext, ext_len. by repeat case_match. Qed.

Lemma ext_size_len v : 0 <= v <= 65804 -> coap_get_ext_opt_size v = ext_len v.
Proof. intros. unfold coap_get_ext_opt_size, ext_len. repeat case_match; lia. Qed.

Lemma ext_len_mono v w : v <= w -> ext_len v <= ext_len w.
Proof. unfold ext_len. repeat case_match; lia. Qed.

(** The bytes the code reserves and does not write. *)
Fixpoint slack (prev : Z) (os : list (Z * list Z)) : Z :=
  match os with [] => 0 | o :: os => ext_len o.1 - ext_len (o.1 - prev) + slack o.1 os end.

Lemma slack_nonneg bound prev os : 0 <= prev -> options_valid bound prev os -> 0 <= slack prev os.
Proof.
  revert prev. induction os as [|o os IH]; intros prev Hp; simpl; [done|]. intros (H1 & H2 & H3).
  specialize (IH o.1 ltac:(lia) H3). pose proof (ext_len_mono (o.1 - prev) o.1). lia.
Qed.

(** ** Composing writes the format *)

(** [f] appends [bs] to what has been written of the object. *)
Definition writes (f : list Z -> Z -> outcome (list Z * Z)) (bs : list Z) : Prop :=
  forall d l ptr, ptr = size l -> size l + size bs <= size d -> f (fill d l) ptr = Ret (fill d (l ++ bs), size (l ++ bs)).

Lemma writes_uint16 v : 0 <= v < 2 ^ 16 -> writes (fun b ptr => coap_add_uint16 b ptr v) [v / 256; v mod 256].
Proof.
  intros Hv d l ptr -> Hd. change (size [v / 256; v mod 256]) with 2 in Hd. unfold coap_add_uint16.
  rewrite wr_fill by lia. cbn [mbind outcome_bind]. rewrite wr_fill by size_lia. cbn [mbind outcome_bind mret outcome_ret].
  rewrite <- app_assoc. simpl. rewrite Z.shiftr_div_pow2 by lia. change (2 ^ 8) with 256.
  change 255 with (2 ^ 8 - 1). rewrite land_ones_mod by lia. rewrite !u8_small by (unfold is_byte; euclid).
  rewrite size_app. done.
Qed.

Lemma writes_opt_info v indet : 0 <= v <= 65804 ->
  let '(n, base, ext) := coap_split_opt v 0 indet in
  base = nibble v /\ writes (fun b ptr => coap_add_opt_info b ptr ext n) (enc_ext v).
Proof.
  intros Hv. unfold coap_split_opt, nibble, enc_ext. destruct (Z.ltb_spec v 13).
  - split; [apply u8_small; unfold is_byte; lia|]. intros d l ptr -> Hd. simpl. by rewrite app_nil_r.
  - rewrite (proj2 (Z.geb_le v 13)) by lia. cbn [andb]. destruct (Z.leb_spec v 268).
    + change (255 + 13) with 268. rewrite (proj2 (Z.leb_le v 268)) by done. split; [done|].
      intros d l ptr -> Hd. change (size [v - 13]) with 1 in Hd. unfold coap_add_opt_info. cbn [Z.eqb Pos.eqb].
      rewrite wr_fill by lia. cbn [mbind outcome_bind mret outcome_ret].
      assert (u8 (u16 (v - 13)) = v - 13) as -> by (unfold u8, u16; euclid). by rewrite size_app.
    + change (255 + 13) with 268. change (65535 + 269) with 65804. rewrite (proj2 (Z.leb_gt v 268)) by done. rewrite (Z.gtb_ltb v 268).
      rewrite (proj2 (Z.ltb_lt 268 v)) by lia. rewrite (proj2 (Z.leb_le v 65804)) by lia. cbn [andb]. split; [done|].
      intros d l ptr -> Hd. unfold coap_add_opt_info. cbn [Z.eqb Pos.eqb].
      assert (u16 (v - 269) = v - 269) as -> by (unfold u16; euclid). by apply writes_uint16; [lia|..].
Qed.

Lemma size_enc_option prev o : size (enc_option prev o) = 1 + ext_len (o.1 - prev) + ext_len (size o.2) + size o.2.
Proof. unfold enc_option. rewrite size_cons, !size_app, !size_enc_ext. lia. Qed.

Lemma nibble_range v : 0 <= v -> 0 <= nibble v < 15.
Proof. unfold nibble. repeat case_match; lia. Qed.

Lemma writes_option mem indet prev o : str_in mem (opt_value o) -> 0 <= opt_number o - prev <= 65804 -> len (opt_value o) <= 65804 ->
  writes (fun b ptr => coap_put_option mem indet b ptr prev o) (enc_option prev (opt_view mem o)).
Proof.
  intros Hin Hn Hl d l ptr -> Hd. rewrite size_enc_option in Hd. unfold opt_view in *. cbn [fst snd] in *.
  pose proof (len_str_in _ _ Hin). rewrite size_str_bytes in Hd by done. unfold coap_put_option, enc_option. cbn [fst snd].
  rewrite !u32_small by lia. rewrite size_str_bytes by done. set (del := opt_number o - prev) in *. set (n := len (opt_value o)) in *.
  pose proof (writes_opt_info del indet Hn) as W1. pose proof (writes_opt_info n indet ltac:(lia)) as W2.
  destruct (coap_split_opt del 0 indet) as [[n1 b1] e1], (coap_split_opt n 0 indet) as [[n2 b2] e2].
  destruct W1 as [-> W1], W2 as [-> W2]. pose proof (nibble_range del ltac:(lia)). pose proof (nibble_range n ltac:(lia)).
  rewrite (lor_disjoint 4) by lia. change (2 ^ 4) with 16.
  assert (0 <= ext_len del /\ 0 <= ext_len n) as [? ?] by (unfold ext_len; split; repeat case_match; lia).
  rewrite u8_small by (unfold is_byte; lia). rewrite wr_fill by lia. cbn [mbind outcome_bind].
  rewrite W1 by (rewrite ?size_app, ?size_enc_ext; change (size [_]) with 1; lia). cbn [mbind outcome_bind].
  rewrite W2 by (rewrite ?size_app, ?size_enc_ext; change (size [_]) with 1; lia). cbn [mbind outcome_bind].
  rewrite <- !app_assoc. unfold str_bytes, str_in in *. destruct (Z.eqb_spec n 0) as [E|E]; cbn [negb].
  - assert (match p (opt_value o) with Some i => slice mem i (len (opt_value o)) | None => [] end = []) as ->
      by (fold n; rewrite E; destruct (p (opt_value o)); [apply slice_nil|done]).
    rewrite app_nil_r. done.
  - destruct (p (opt_value o)) as [q|]; [|lia]. cbn [deref].
    rewrite memcpy_fill by (rewrite ?size_app, ?size_enc_ext; change (size [_]) with 1; lia).
    cbn [mbind outcome_bind mret outcome_ret]. fold n. rewrite <- !app_assoc. do 2 f_equal.
    repeat rewrite ?size_app, ?size_cons. rewrite size_nil, size_slice by lia. lia.
Qed.

(** A message whose strings lie in [mem], within the bounds of the format. *)
Record coap_valid (mem : list Z) (cm : mg_coap_message) : Prop := {
  cv_view : view_valid 65804 (view mem cm);
  cv_token : str_in mem (token cm);
  cv_options : Forall (fun o => str_in mem (opt_value o)) (options cm);
  cv_payload : str_in mem (payload cm);
  cv_mem : size mem < 2 ^ 58 /\ size (options cm) * 65820 < 2 ^ 58
}.

Lemma writes_options mem indet os : Forall (fun o => str_in mem (opt_value o)) os ->
  forall prev, options_valid 65804 prev (map (opt_view mem) os) -> 0 <= prev ->
  writes (fun b ptr => coap_put_options mem indet b ptr prev os) (enc_options prev (map (opt_view mem) os)).
Proof.
  induction 1 as [|o os Ho _ IH]; intros prev Hv Hp d l ptr -> Hd; cbn [map enc_options coap_put_options options_valid] in *; [by rewrite app_nil_r|].
  destruct Hv as (H1 & H2 & H3). change ((opt_view mem o).1) with (opt_number o) in *. change ((opt_view mem o).2) with (str_bytes mem (opt_value o)) in *. rewrite size_str_bytes in H2 by done. rewrite size_app in Hd.
  pose proof (size_nonneg (enc_options (opt_number o) (map (opt_view mem) os))).
  rewrite writes_option by (done || lia). cbn [mbind outcome_bind].
  rewrite IH by (done || lia || (rewrite size_app; lia)). by rewrite <- app_assoc.
Qed.

Lemma memcpy_str mem s d l : str_in mem s -> len s <> 0 -> size l + len s <= size d ->
  deref (p s) (fun q => memcpy (fill d l) (size l) mem q (len s)) = Ret (fill d (l ++ str_bytes mem s)).
Proof.
  intros Hin Hn Hd. unfold str_in, str_bytes in *. destruct (p s); [|done]. simpl. rewrite memcpy_fill by lia. done.
Qed.

Lemma str_bytes_empty mem s : str_in mem s -> len s = 0 -> str_bytes mem s = [].
Proof. intros _ E. unfold str_bytes. rewrite E. destruct (p s); [apply slice_nil|done]. Qed.

Lemma enc_payload_size l : size (enc_payload l) = if size l =? 0 then 0 else size l + 1.
Proof. destruct l as [|x l]; [done|]. unfold enc_payload. rewrite !size_cons. pose proof (size_nonneg l). case_match; lia. Qed.

Lemma put_message_spec mem indet cm d l : coap_valid mem cm -> size l + size (enc_message (view mem cm)) <= size d ->
  coap_put_message mem indet cm (fill d l) (size l) = Ret (fill d (l ++ enc_message (view mem cm))).
Proof.
  intros [[Hty Hcl Hde Hid Htok Hop] Ht Ho Hp _] Hd. unfold enc_message in *. cbn [view v_type v_class v_detail v_id v_token v_options v_payload] in *.
  rewrite size_str_bytes in * by done. rewrite !size_app, enc_payload_size, !size_str_bytes in Hd by done. change (size [_; _; _; _]) with 4 in Hd.
  pose proof (len_str_in _ _ Ht). pose proof (len_str_in _ _ Hp). set (eo := enc_options 0 _) in *. pose proof (size_nonneg eo).
  assert (0 <= (if len (payload cm) =? 0 then 0 else len (payload cm) + 1)) by (case_match; lia).
  unfold coap_put_message. rewrite (lor_disjoint 5) by lia.
  assert (Z.lor (Z.lor (Z.shiftl 1 6) (Z.shiftl (msg_type cm) 4)) (len (token cm)) = 64 + msg_type cm * 16 + len (token cm)) as ->.
  { assert (Z.lor (Z.shiftl 1 6) (Z.shiftl (msg_type cm) 4) = Z.shiftl (4 + msg_type cm) 4) as ->.
    { rewrite (lor_disjoint 6); rewrite ?Z.shiftl_mul_pow2 by lia; lia. }
    rewrite (lor_disjoint 4) by lia. lia. }
  rewrite !u8_small by (unfold is_byte; lia). change (2 ^ 5) with 32.
  rewrite wr_fill by lia. cbn [mbind outcome_bind]. rewrite wr_fill by (rewrite ?size_app; change (size [_]) with 1; lia). cbn [mbind outcome_bind].
  rewrite writes_uint16 by (rewrite ?size_app; change (size [_]) with 1; change (size [_; _]) with 2; lia). cbn [mbind outcome_bind].
  rewrite <- !app_assoc. cbn [app]. set (l4 := l ++ [_; _; _; _]). assert (size l4 = size l + 4) as H4 by (subst l4; by rewrite size_app).
  assert ((if negb (len (token cm) =? 0) then
      b ← deref (p (token cm)) (fun q => memcpy (fill d l4) (size l4) mem q (len (token cm))); mret (b, size l4 + len (token cm))
    else mret (fill d l4, size l4)) = Ret (fill d (l4 ++ str_bytes mem (token cm)), size (l4 ++ str_bytes mem (token cm)))) as ->.
  { destruct (Z.eqb_spec (len (token cm)) 0) as [E|E]; cbn [negb].
    - rewrite str_bytes_empty by done. by rewrite app_nil_r.
    - rewrite memcpy_str by (done || lia). cbn [mbind outcome_bind mret outcome_ret]. by rewrite size_app, size_str_bytes. }
  cbn [mbind outcome_bind]. assert (size (l4 ++ str_bytes mem (token cm)) = size l4 + len (token cm)) as H5 by (by rewrite size_app, size_str_bytes).
  rewrite (writes_options mem indet) by (done || lia || (fold eo; lia)). fold eo. cbn [mbind outcome_bind].
  set (l6 := (l4 ++ _) ++ eo). assert (size l6 = size l4 + len (token cm) + size eo) as H6 by (subst l6; rewrite size_app; lia).
  match goal with |- _ = Ret (fill d ?x) => assert (x = l6 ++ enc_payload (str_bytes mem (payload cm))) as -> end.
  { subst l6 l4. by rewrite <- !app_assoc. }
  destruct (Z.eqb_spec (len (payload cm)) 0) as [E|E]; cbn [negb].
  - rewrite str_bytes_empty by done. simpl. by rewrite app_nil_r.
  - rewrite wr_fill by lia. cbn [mbind outcome_bind]. replace (size l6 + 1) with (size (l6 ++ [255])) by (by rewrite size_app).
    rewrite memcpy_str by (done || (rewrite size_app; change (size [255]) with 1; lia)). rewrite <- app_assoc. do 3 f_equal.
    assert (size (str_bytes mem (payload cm)) = len (payload cm)) as Hsz by (by apply size_str_bytes).
    destruct (str_bytes mem (payload cm)); [by rewrite size_nil in Hsz|done].
Qed.

Lemma options_size_bound bound prev os : 0 <= prev -> options_valid bound prev os -> bound <= 65804 ->
  size (enc_options prev os) + slack prev os <= 65809 * size os.
Proof.
  intros Hp Hv Hb. revert prev Hp Hv. induction os as [|o os IH]; intros prev Hp; cbn [options_valid enc_options slack]; [done|].
  intros (H1 & H2 & H3). rewrite size_app, size_enc_option, size_cons. specialize (IH o.1 ltac:(lia) H3).
  assert (ext_len o.1 <= 2 /\ ext_len (size o.2) <= 2) as [? ?] by (unfold ext_len; split; repeat case_match; lia). lia.
Qed.

Lemma options_size_spec mem os : Forall (fun o => str_in mem (opt_value o)) os ->
  forall n prev, options_valid 65804 prev (map (opt_view mem) os) -> 0 <= prev -> 0 <= n -> n + 65820 * size os < 2 ^ 60 ->
  coap_options_size os n 0 =
    (0, n + size (enc_options prev (map (opt_view mem) os)) + slack prev (map (opt_view mem) os)).
Proof.
  induction 1 as [|o os Ho Hos IH]; intros n prev Hv Hp Hn Hb; cbn [map options_valid enc_options slack coap_options_size] in *;
    [change (size (@nil Z)) with 0; f_equal; lia|].
  destruct Hv as (H1 & H2 & H3). change ((opt_view mem o).1) with (opt_number o) in *. change ((opt_view mem o).2) with (str_bytes mem (opt_value o)) in *.
  rewrite size_cons in Hb. pose proof (size_nonneg os). pose proof (len_str_in _ _ Ho). rewrite size_str_bytes in H2 by done.
  rewrite size_app, size_enc_option. unfold opt_view at 1 2 3. cbn [fst snd]. rewrite size_str_bytes by done.
  rewrite (u32_small (len (opt_value o))), (u32_small (opt_number o - 0)), Z.sub_0_r by lia. rewrite !ext_size_len by lia.
  assert (forall v, 0 <= ext_len v <= 2) as He by (intros; unfold ext_len; repeat case_match; lia).
  pose proof (He (opt_number o)). pose proof (He (len (opt_value o))).
  rewrite !(u64_small (n + 1)), !(u64_small (n + 1 + _)), !(u64_small (n + 1 + _ + _)) by lia.
  change (65535 + 269) with 65804. rewrite !Z.gtb_ltb.
  assert (match os with o' :: _ => opt_number o >? opt_number o' | [] => false end = false) as ->.
  { destruct os as [|o' os]; [done|]. simpl in H3. rewrite Z.gtb_ltb. lia. }
  rewrite (proj2 (Z.ltb_ge 65804 (len (opt_value o)))), (proj2 (Z.ltb_ge 65804 (opt_number o))) by lia. cbn [orb].
  rewrite u64_small by lia. rewrite (IH _ (opt_number o)) by (done || lia). f_equal. lia.
Qed.

Lemma packet_size_spec mem cm : coap_valid mem cm ->
  coap_calculate_packet_size cm = (0, size (enc_message (view mem cm)) + slack 0 (v_options (view mem cm))) /\
  size (enc_message (view mem cm)) + slack 0 (v_options (view mem cm)) < 2 ^ 59.
Proof.
  intros [[Hty Hcl Hde Hid Htok Hop] Ht Ho Hp [Hm Hb]]. unfold enc_message. cbn [view v_type v_class v_detail v_id v_token v_options v_payload] in *.
  rewrite size_str_bytes in * by done. rewrite !size_app, enc_payload_size, !size_str_bytes by done. change (size [_; _; _; _]) with 4.
  pose proof (len_str_in _ _ Ht). pose proof (len_str_in _ _ Hp). pose proof (size_nonneg (options cm)).
  assert (len (payload cm) <= size mem) by (unfold str_in in Hp; destruct (p (payload cm)); [lia|pose proof (size_nonneg mem); lia]).
  pose proof (options_size_bound 65804 0 _ ltac:(lia) Hop ltac:(lia)) as Hsz. pose proof (slack_nonneg _ _ _ (Z.le_refl 0) Hop).
  unfold size in Hsz at 2. rewrite length_map in Hsz. fold (size (options cm)) in Hsz.
  unfold coap_calculate_packet_size. change MG_COAP_MSG_MAX with 3. rewrite !Z.gtb_ltb.
  rewrite (proj2 (Z.ltb_ge 3 (msg_type cm))), (proj2 (Z.ltb_ge 8 (len (token cm)))), (proj2 (Z.ltb_ge 7 (code_class cm))), (proj2 (Z.ltb_ge 31 (code_detail cm))) by lia.
  rewrite (u64_small (4 + len (token cm))), (u64_small (len (payload cm) + 1)) by lia.
  destruct (Z.eqb_spec (len (payload cm)) 0); cbn [negb]; rewrite ?(u64_small (4 + len (token cm) + _)) by lia;
    rewrite (options_size_spec mem _ Ho _ 0) by (done || lia); (split; [f_equal|]; lia).
Qed.

Lemma compose_spec k indet mem cm io :
  mbuf_wf io -> coap_valid mem cm -> mb_len io <= 2 ^ 58 -> mb_addr io <= SIZE_MAX - FITS ->
  exists io' junk, mg_coap_compose (Some k) indet mem cm io = Ret (0, io') /\ mbuf_wf io' /\
    content io' = content io ++ enc_message (view mem cm) ++ junk /\ size junk = slack 0 (v_options (view mem cm)).
Proof.
  intros Hwf Hcm Hlen Haddr. destruct (packet_size_spec mem cm Hcm) as [Es Hs]. unfold mg_coap_compose. rewrite Es. cbn [Z.eqb negb].
  pose proof (wf_len _ Hwf). pose proof (size_nonneg (enc_message (view mem cm))).
  pose proof (slack_nonneg _ _ _ (Z.le_refl 0) (vv_options _ _ (cv_view _ _ Hcm))) as Hsl.
  set (n := size (enc_message _)) in *. set (sl := slack 0 _) in *. unfold mbuf_append.
  destruct (mbuf_insert_spec (Some k) io (mb_len io) None (n + sl)) as (a & res & E & Hwfa & _ & Hres); unfold FITS in *; [done|lia..|done|].
  rewrite E. cbn [mbind outcome_bind]. destruct Hres as [(-> & x & Hx & _ & Hc)|(_ & _ & ? & _)]; [|done].
  rewrite Z.sub_diag, slice_nil, app_nil_r in Hc. rewrite <- (size_content io) in Hc by done. rewrite slice_all in Hc.
  assert (size (content a) = mb_len a) as Hla by (by apply size_content). pose proof (wf_len _ Hwfa). pose proof (wf_size _ Hwfa) as Hsa.
  assert (mb_buf a = fill (mb_buf a) (content io)) as Ef.
  { destruct (content_split a 0 Hwfa) as (h & t & q & Eb & Ec & _); [lia|]. unfold fill. rewrite Hc in Ec. rewrite Eb, app_assoc, <- Ec, <- app_assoc.
    by rewrite drop_app_length. }
  assert (mb_len a = mb_len io + (n + sl)) as Hlena by (rewrite <- Hla, Hc, size_app, size_content by done; lia).
  assert (coap_put_message mem indet cm (mb_buf a) (mb_len io) = Ret (fill (mb_buf a) (content io ++ enc_message (view mem cm)))) as ->.
  { rewrite Ef at 1. rewrite <- (size_content io) by done. apply put_message_spec; [done|]. rewrite size_content by done. fold n; lia. }
  cbn [mbind outcome_bind mret outcome_ret].
  set (l := content io ++ enc_message (view mem cm)). assert (size l = mb_len io + n) as Hl by (subst l; rewrite size_app, size_content by done; done).
  exists (mk_mbuf (mb_addr a) (fill (mb_buf a) l) (mb_len a) (mb_size a)), (slice (fill (mb_buf a) l) (size l) sl).
  assert (size (fill (mb_buf a) l) = size (mb_buf a)) as Hf by (apply size_fill; lia). split_and!; [done|split; simpl; lia| |rewrite size_slice; lia].
  unfold content at 1. simpl. rewrite Hlena. replace (mb_len io + (n + sl)) with (size l + sl) by lia.
  pose proof (size_nonneg l). rewrite slice_app by lia. rewrite Z.add_0_l.
  transitivity (l ++ slice (fill (mb_buf a) l) (size l) sl); [f_equal; apply slice_prefix|]. subst l. by rewrite <- app_assoc.
Qed.

(** Composing a valid message appends its RFC 7252 datagram to the buffer,
    and nothing is written outside the bytes reserved for it.  The code reserves
    [slack] more bytes than it writes, which stay indeterminate at the end of the
    datagram: none when no option number of 13 or more follows closely another. *)
Theorem mg_coap_compose_packet k indet mem cm io :
  mbuf_wf io -> coap_valid mem cm -> mb_len io <= 2 ^ 58 -> mb_addr io <= SIZE_MAX - FITS ->
  exists io' junk, mg_coap_compose (Some k) indet mem cm io = Ret (0, io') /\ mbuf_wf io' /\
    content io' = content io ++ enc_message (view mem cm) ++ junk /\ size junk = slack 0 (v_options (view mem cm)).
Proof. apply compose_spec. Qed.

Ltac decide_valid := try done; try lia; try (apply (bool_decide_eq_true_1 _); reflexivity).

Lemma coap_msg_valid : coap_valid coap_mem coap_msg.
Proof.
  split.
  - split; simpl; repeat apply conj; decide_valid.
  - unfold str_in; simpl. repeat apply conj; decide_valid.
  - repeat constructor; unfold str_in; simpl; repeat apply conj; decide_valid.
  - unfold str_in; simpl. repeat apply conj; decide_valid.
  - split; decide_valid.
Qed.

Lemma mg_coap_compose_packet_witness :
  exists io' junk, mg_coap_compose (Some (mk_block 4096 (fun _ => 7))) 0 coap_mem coap_msg coap_io = Ret (0, io') /\ mbuf_wf io' /\
    content io' = content coap_io ++ enc_message (view coap_mem coap_msg) ++ junk /\ size junk = 0.
Proof.
  apply (mg_coap_compose_packet (mk_block 4096 (fun _ => 7)) 0 coap_mem coap_msg coap_io);
    [split; [simpl; lia|reflexivity]|apply coap_msg_valid|simpl; lia|vm_compute; discriminate].
Defined.

(** ** Parsing what is composed *)

Section parse_message.
Context (io : mbuf) (Hwf : mbuf_wf io).

Lemma get_ext_opt_enc pre v rest q : mb_buf io = pre ++ (enc_ext v ++ rest) ++ q -> mb_len io = size pre + size (enc_ext v ++ rest) ->
  0 <= v < 2 ^ 16 -> coap_get_ext_opt (size pre) io (nibble v) = Ret (ext_len v, v).
Proof using.
  intros Hb Hl Hv. pose proof (size_nonneg rest). unfold coap_get_ext_opt, nibble, enc_ext, ext_len in *. destruct (Z.ltb_spec v 13).
  - destruct (Z.eqb_spec v 13); [lia|]. by destruct (Z.eqb_spec v 14); [lia|].
  - destruct (Z.leb_spec v 268).
    + rewrite Z.eqb_refl. rewrite size_app in Hl. change (size [v - 13]) with 1 in Hl. destruct (Z.ltb_spec (size pre) (mb_len io)); [|lia].
      rewrite Hb. simpl. rewrite rd_at0. cbn [mbind outcome_bind mret outcome_ret]. unfold u16. rewrite Z.mod_small by lia. do 2 f_equal; lia.
    + rewrite size_app in Hl. change (size [(v - 269) / 256; (v - 269) mod 256]) with 2 in Hl.
      change (14 =? 13) with false. change (14 =? 14) with true. cbv iota. destruct (Z.ltb_spec (size pre + 1) (mb_len io)); [|lia].
      rewrite Hb. simpl. rewrite rd_at0. cbn [mbind outcome_bind]. rewrite (rd_at pre _ 1 ((v - 269) mod 256)) by done.
      cbn [mbind outcome_bind mret outcome_ret]. rewrite be16 by euclid. do 2 f_equal. unfold u16. rewrite Z.mod_small; euclid.
Qed.

Lemma option_step_enc pre prev o rest q cm :
  mb_buf io = pre ++ (enc_option prev o ++ rest) ++ q -> mb_len io = size pre + size (enc_option prev o ++ rest) ->
  0 <= prev <= o.1 -> o.1 < 2 ^ 16 -> size o.2 < 2 ^ 16 ->
  exists ptr, coap_option_step io (size pre, prev, cm) =
      Ret (inl (size pre + size (enc_option prev o), o.1, mg_coap_add_option cm o.1 (Some ptr) (size o.2))) /\
    slice (mb_buf io) ptr (size o.2) = o.2.
Proof using.
  intros Hb Hl Hp Hn Hs. destruct o as [n val]. cbn [fst snd] in *. pose proof (size_nonneg val). pose proof (size_nonneg rest).
  pose proof (nibble_range (n - prev) ltac:(lia)) as Hd. pose proof (nibble_range (size val) ltac:(lia)) as Hs2.
  set (pre1 := pre ++ [nibble (n - prev) * 16 + nibble (size val)]). set (pre2 := pre1 ++ enc_ext (n - prev)). set (pre3 := pre2 ++ enc_ext (size val)).
  assert (size pre1 = size pre + 1) as H1 by (subst pre1; by rewrite size_app).
  assert (size pre2 = size pre1 + ext_len (n - prev)) as H2 by (subst pre2; by rewrite size_app, size_enc_ext).
  assert (size pre3 = size pre2 + ext_len (size val)) as H3 by (subst pre3; by rewrite size_app, size_enc_ext).
  rewrite size_app, size_enc_option in Hl. cbn [fst snd] in Hl.
  assert (mb_buf io = pre1 ++ (enc_ext (n - prev) ++ (enc_ext (size val) ++ val ++ rest)) ++ q) as Hb1
    by (subst pre1; rewrite Hb; unfold enc_option; cbn [fst snd]; rewrite <- !app_assoc; simpl; rewrite <- ?app_assoc; done).
  assert (mb_buf io = pre2 ++ (enc_ext (size val) ++ (val ++ rest)) ++ q) as Hb2 by (rewrite Hb1; subst pre2; rewrite <- !app_assoc; done).
  assert (mb_buf io = pre3 ++ val ++ (rest ++ q)) as Hb3 by (rewrite Hb2; subst pre3; rewrite <- !app_assoc; done).
  assert (0 <= ext_len (n - prev) /\ 0 <= ext_len (size val)) as [? ?] by (unfold ext_len; split; repeat case_match; lia).
  exists (size pre3). split; [|rewrite Hb3; by apply slice_mid].
  unfold coap_option_step. rewrite (proj2 (Z.ltb_lt (size pre) (mb_len io))) by lia. cbn [negb].
  assert (rd (mb_buf io) (size pre) = Ret (nibble (n - prev) * 16 + nibble (size val))) as ->
    by (rewrite Hb; unfold enc_option; cbn [fst snd]; rewrite <- !app_assoc; apply rd_at0).
  cbn [mbind outcome_bind]. set (c := nibble (n - prev) * 16 + nibble (size val)) in *.
  destruct (byte_fields c) as (_ & _ & E3 & _ & _ & E6); [lia|]. rewrite E3, E6.
  replace (c / 16) with (nibble (n - prev)) by (unfold c; euclid). replace (c mod 16) with (nibble (size val)) by (unfold c; euclid).
  rewrite (proj2 (Z.eqb_neq c 255)), (proj2 (Z.eqb_neq (nibble (n - prev)) 15)), (proj2 (Z.eqb_neq (nibble (size val)) 15)) by lia. cbn [orb].
  rewrite <- H1. rewrite (get_ext_opt_enc pre1 (n - prev) _ q Hb1) by (rewrite ?size_app, ?size_enc_ext; lia). cbn [mbind outcome_bind].
  rewrite (proj2 (Z.eqb_neq (ext_len (n - prev)) (-1))) by lia. rewrite <- H2.
  rewrite (get_ext_opt_enc pre2 (size val) _ q Hb2) by (rewrite ?size_app, ?size_enc_ext; lia). cbn [mbind outcome_bind].
  rewrite (proj2 (Z.eqb_neq (ext_len (size val)) (-1))) by lia. rewrite <- H3. cbv zeta.
  rewrite Z.gtb_ltb, (proj2 (Z.ltb_ge (mb_len io) _)) by lia. assert (u16 (n - prev + prev) = n) as -> by (unfold u16; rewrite Z.mod_small; lia).
  cbn [mret outcome_ret]. rewrite size_enc_option. cbn [fst snd]. do 4 f_equal. lia.
Qed.

(** The options parsed so far are all of a smaller or equal number. *)
Definition at_most (n : Z) (os : list mg_coap_option) : Prop := forall x, last os = Some x -> opt_number x <= n.

Lemma add_option_last cm n ptr l : at_most n (options cm) ->
  mg_coap_add_option cm n ptr l = set_options cm (options cm ++ [mk_opt n (mk_str ptr l)]).
Proof using.
  intros Hm. unfold mg_coap_add_option, at_most in *. destruct (last (options cm)) as [x|] eqn:E.
  - by rewrite (proj2 (Z.leb_le _ _) (Hm x eq_refl)).
  - apply last_None in E. by rewrite E.
Qed.

Lemma options_loop_enc tl q os : (tl = [] \/ exists r, tl = 255 :: r) -> forall prev pre cm fuel,
  mb_buf io = pre ++ (enc_options prev os ++ tl) ++ q -> mb_len io = size pre + size (enc_options prev os ++ tl) ->
  0 <= prev -> options_valid 65535 prev os -> at_most prev (options cm) -> (length os < fuel)%nat ->
  exists os', map (opt_view (mb_buf io)) os' = os /\
    loop fuel (coap_option_step io) (size pre, prev, cm) =
    Ret (size pre + size (enc_options prev os), set_options cm (options cm ++ os')).
Proof using.
  intros Htl. induction os as [|o os IH]; intros prev pre cm fuel Hb Hl Hp Hv Hm Hf; (destruct fuel as [|fuel]; [simpl in Hf; lia|]); rewrite loop_S.
  - cbn [enc_options] in *. rewrite app_nil_l in *. change (size (@nil Z)) with 0. exists []. rewrite app_nil_r, Z.add_0_r. split; [done|].
    unfold coap_option_step. destruct Htl as [->|[r ->]].
    + change (size (@nil Z)) with 0 in Hl. rewrite (proj2 (Z.ltb_ge (size pre) (mb_len io))) by lia. by destruct cm.
    + rewrite size_cons in Hl. pose proof (size_nonneg r). rewrite (proj2 (Z.ltb_lt (size pre) (mb_len io))) by lia. cbn [negb].
      rewrite Hb. simpl. rewrite rd_at0. cbn [mbind outcome_bind Z.eqb Pos.eqb]. by destruct cm.
  - cbn [enc_options options_valid] in *. destruct Hv as (H1 & H2 & H3). rewrite <- (app_assoc (enc_option prev o)) in Hb, Hl.
    destruct (option_step_enc pre prev o (enc_options o.1 os ++ tl) q cm Hb Hl) as (ptr & -> & Hsl); [lia..|].
    rewrite add_option_last by (intros x Hx; specialize (Hm x Hx); lia).
    destruct (IH o.1 (pre ++ enc_option prev o) (set_options cm (options cm ++ [mk_opt o.1 (mk_str (Some ptr) (size o.2))])) fuel) as (os' & Eos & E).
    + rewrite Hb. by rewrite <- !app_assoc.
    + rewrite Hl, !size_app. lia.
    + lia.
    + done.
    + intros x. simpl. rewrite last_snoc. by intros [= <-].
    + simpl in Hf. lia.
    + rewrite size_app in E. exists (mk_opt o.1 (mk_str (Some ptr) (size o.2)) :: os'). split.
      * simpl. rewrite Eos. unfold opt_view, str_bytes. simpl. rewrite Hsl. by destruct o.
      * rewrite E. cbn [options set_options cflags msg_type code_class code_detail msg_id token payload]. rewrite size_app, <- app_assoc. do 2 f_equal. lia.
Qed.
End parse_message.

Lemma parse_header_enc io b q t tkl cl de id :
  mb_buf io = [64 + t * 16 + tkl; cl * 32 + de; id / 256; id mod 256] ++ b ++ q -> mb_len io = 4 + size b ->
  0 <= t <= 3 -> 0 <= tkl <= 8 -> 0 <= cl <= 7 -> 0 <= de <= 31 -> 0 <= id < 2 ^ 16 ->
  exists fl, coap_parse_header 0 io coap0 = Ret (Some 4, mk_coap fl t cl de id (mk_str None tkl) [] (mk_str None 0)) /\ Z.land fl MG_COAP_ERROR = 0.
Proof.
  intros Hb Hl Ht Htk Hcl Hde Hid. pose proof (size_nonneg b). unfold coap_parse_header. rewrite (proj2 (Z.ltb_ge (mb_len io) 4)) by lia.
  rewrite Hb. cbn [rd app]. set (c := 64 + t * 16 + tkl). set (d := cl * 32 + de).
  destruct (byte_fields c) as (E1 & E2 & E3 & _ & _ & _); [lia|]. destruct (byte_fields d) as (_ & _ & _ & E4 & E5 & _); [lia|].
  change (rd (c :: d :: id / 256 :: id mod 256 :: b ++ q) 0) with (Ret c). cbn [mbind outcome_bind]. rewrite E1, E2, E3.
  replace (c / 64) with 1 by (unfold c; euclid). replace (c / 16 mod 4) with t by (unfold c; euclid). replace (c mod 16) with tkl by (unfold c; euclid).
  cbn [Z.eqb Pos.eqb negb]. cbv zeta. cbn [or_flags set_token token p len]. rewrite Z.gtb_ltb, (proj2 (Z.ltb_ge 8 tkl)) by lia.
  change (rd (c :: d :: id / 256 :: id mod 256 :: b ++ q) (0 + 1)) with (Ret d). cbn [mbind outcome_bind]. rewrite E4, E5.
  change (rd (c :: d :: id / 256 :: id mod 256 :: b ++ q) (0 + 1 + 1)) with (Ret (id / 256)).
  change (rd (c :: d :: id / 256 :: id mod 256 :: b ++ q) (0 + 1 + 1 + 1)) with (Ret (id mod 256)). cbn [mbind outcome_bind].
  rewrite be16 by euclid. replace (d / 32) with cl by (unfold d; euclid). replace (d mod 32) with de by (unfold d; euclid).
  replace (id / 256 * 256 + id mod 256) with id by euclid. eexists. split; [reflexivity|]. done.
Qed.

Lemma get_token_enc io b q fl t cl de id tok :
  mb_buf io = b ++ tok ++ q -> size b = 4 -> 4 + size tok <= mb_len io -> Z.land fl MG_COAP_ERROR = 0 ->
  exists cm, coap_get_token 4 io (mk_coap fl t cl de id (mk_str None (size tok)) [] (mk_str None 0)) = (Some (4 + size tok), cm) /\
    err cm = false /\ set_options cm [] = cm /\ view (mb_buf io) cm = mk_view t cl de id tok [] [] /\ payload cm = mk_str None 0.
Proof.
  intros Hb H4 Hl Hfl. unfold coap_get_token. cbn [token len]. destruct (Z.eqb_spec (size tok) 0) as [E|E]; cbn [negb].
  - eexists. split; [by rewrite E|]. split_and!; [unfold err; simpl; by rewrite Hfl|done| |done].
    destruct tok as [|x tok]; [done|]. rewrite size_cons in E. pose proof (size_nonneg tok). lia.
  - rewrite Z.gtb_ltb, (proj2 (Z.ltb_ge (mb_len io) _)) by lia. eexists. split; [reflexivity|].
    split_and!; [rewrite err_or; unfold err; simpl; by rewrite Hfl|done| |done].
    unfold view, str_bytes. simpl. rewrite Hb. by rewrite slice_mid by lia.
Qed.

Lemma ext_len_range v : 0 <= ext_len v <= 2.
Proof. unfold ext_len. repeat case_match; lia. Qed.

Lemma options_count prev os : size os <= size (enc_options prev os).
Proof.
  revert prev. induction os as [|o os IH]; intros prev; [done|]. cbn [enc_options]. rewrite size_app, size_enc_option, size_cons.
  specialize (IH o.1). pose proof (ext_len_range (o.1 - prev)). pose proof (ext_len_range (size o.2)). pose proof (size_nonneg o.2). lia.
Qed.

Lemma no_options prev os : size (enc_options prev os) <= 0 -> os = [].
Proof. pose proof (options_count prev os). destruct os as [|o os]; [done|]. rewrite size_cons in H. pose proof (size_nonneg os). lia. Qed.

Lemma parse_enc io v : mbuf_wf io -> content io = enc_message v -> view_valid 65535 v ->
  exists cm, mg_coap_parse io = Ret (cflags cm, cm) /\ err cm = false /\ view (mb_buf io) cm = v.
Proof.
  intros Hwf Hc [Hty Hcl Hde Hid Htok Hop]. destruct v as [t cl de id tok os pl]. cbn [v_type v_class v_detail v_id v_token v_options v_payload] in *.
  unfold enc_message in Hc. cbn [v_type v_class v_detail v_id v_token v_options v_payload] in Hc.
  set (hd := [64 + t * 16 + size tok; cl * 32 + de; id / 256; id mod 256]) in *.
  pose proof (size_content io Hwf) as Hl. rewrite Hc in Hl. destruct (content_split io 0 Hwf) as (h & r & q & Eb & Ec & _); [pose proof (wf_len _ Hwf); lia|].
  rewrite app_assoc, <- Ec, Hc in Eb. rewrite !size_app in Hl. change (size hd) with 4 in Hl. pose proof (size_nonneg tok).
  pose proof (size_nonneg (enc_options 0 os)). pose proof (size_nonneg (enc_payload pl)).
  destruct (parse_header_enc io (tok ++ enc_options 0 os ++ enc_payload pl) q t (size tok) cl de id) as (fl & E1 & Hfl);
    [by rewrite Eb, <- !app_assoc|rewrite !size_app; lia|lia..|].
  destruct (get_token_enc io hd ((enc_options 0 os ++ enc_payload pl) ++ q) fl t cl de id tok) as (cm1 & E2 & Herr1 & Ho1 & Hv1 & Hp1);
    [rewrite Eb, <- !app_assoc; done|done|lia|done|].
  unfold mg_coap_parse. rewrite E1. cbn [mbind outcome_bind]. rewrite E2. unfold coap_get_options.
  destruct (Z.eqb_spec (4 + size tok) (mb_len io)) as [E|E].
  - cbn [mbind outcome_bind mret outcome_ret]. exists cm1. split_and!; [done|done|]. rewrite Hv1.
    assert (os = []) as -> by (apply (no_options 0); lia).
    destruct pl as [|x pl]; [done|]. rewrite enc_payload_size, size_cons in *. pose proof (size_nonneg pl). case_match; lia.
  - assert (options cm1 = []) as Hoe by (rewrite <- Ho1; done).
    destruct (options_loop_enc io (enc_payload pl) q os) with (prev := 0) (pre := hd ++ tok) (cm := cm1) (fuel := S (Z.to_nat (mb_len io))) as (os' & Eos & E3);
      [destruct pl; [by left|right; by eexists]|by rewrite Eb, <- !app_assoc|rewrite !size_app; change (size hd) with 4; lia|lia|done
      |by rewrite Hoe|pose proof (options_count 0 os); unfold size in *; lia|].
    rewrite size_app in E3. change (size hd) with 4 in E3. rewrite E3. cbn [mbind outcome_bind]. rewrite Hoe, app_nil_l.
    change (negb (Z.land (cflags (set_options cm1 os')) MG_COAP_ERROR =? 0)) with (err cm1). rewrite Herr1.
    injection Hv1 as V1 V2 V3 V4 V5 _ _. rewrite enc_payload_size in Hl.
    assert (forall c, token c = token cm1 -> msg_type c = msg_type cm1 -> code_class c = code_class cm1 -> code_detail c = code_detail cm1 -> msg_id c = msg_id cm1 ->
      options c = os' -> str_bytes (mb_buf io) (payload c) = pl -> view (mb_buf io) c = mk_view t cl de id tok os pl) as Hview.
    { intros c F1 F2 F3 F4 F5 F6 F7. unfold view. rewrite F1, F2, F3, F4, F5, F6, F7, Eos. by rewrite V1, V2, V3, V4, V5. }
    assert (err (or_flags (set_options cm1 os') MG_COAP_OPTIOMG_FIELD) = false) as Herr2 by (rewrite err_or; change (err (set_options cm1 os')) with (err cm1); by rewrite Herr1).
    destruct (Z.eqb_spec (4 + size tok + size (enc_options 0 os)) (mb_len io)) as [Ez|Ez]; cbn [mbind outcome_bind mret outcome_ret].
    + eexists. split_and!; [reflexivity|done|]. apply Hview; try done. simpl. rewrite Hp1. destruct pl as [|x pl]; [done|].
      rewrite size_cons in Hl. pose proof (size_nonneg pl). case_match; lia.
    + destruct pl as [|x pl]; [change (size (@nil Z)) with 0 in Hl; simpl in Hl; lia|].
      assert ((size (x :: pl) =? 0) = false) as Hx by (rewrite size_cons; pose proof (size_nonneg pl); lia). rewrite Hx in Hl.
      cbv zeta. cbn [set_payload payload p len]. rewrite (proj2 (Z.eqb_neq _ 0)) by (rewrite size_cons in *; pose proof (size_nonneg pl); lia). cbn [negb].
      eexists. split_and!; [reflexivity|rewrite err_or, orb_false_r; exact Herr2|]. apply Hview; try done.
      unfold str_bytes. simpl. rewrite Eb, !app_assoc, <- (app_assoc _ _ q). unfold enc_payload.
      replace (((hd ++ tok) ++ enc_options 0 os) ++ (255 :: x :: pl) ++ q) with ((((hd ++ tok) ++ enc_options 0 os) ++ [255]) ++ (x :: pl) ++ q) by (by rewrite <- !app_assoc).
      apply slice_mid; [rewrite !size_app; change (size hd) with 4; change (size [255]) with 1; lia|lia].
Qed.

(** The same message with more bytes behind its payload. *)
Definition padded (v : coap_view) (junk : list Z) : coap_view :=
  mk_view (v_type v) (v_class v) (v_detail v) (v_id v) (v_token v) (v_options v) (v_payload v ++ junk).

Lemma enc_padded v junk : junk = [] \/ v_payload v <> [] -> enc_message v ++ junk = enc_message (padded v junk).
Proof.
  intros Hj. unfold enc_message, padded. cbn [v_type v_class v_detail v_id v_token v_options v_payload]. rewrite <- !app_assoc. do 3 f_equal.
  destruct Hj as [->|Hp]; [by rewrite !app_nil_r|]. by destruct (v_payload v).
Qed.

(** C25: what is composed is parsed back.  A valid message whose option numbers
    and lengths fit the 16 bits of the parser, composed into an empty buffer and
    parsed from it, gives a message without error flags that denotes the same
    type, code, identifier, token and options; behind its payload are the bytes of
    the slack, which the sender allocates too many, one or two for each option
    whose number needs a longer encoding than its distance to the one before.  So
    the payload is the same when there is no slack.  A message with slack and
    without payload is excluded, see [compose_slack]. *)
Theorem mg_coap_roundtrip k indet mem cm :
  coap_valid mem cm -> view_valid 65535 (view mem cm) -> slack 0 (v_options (view mem cm)) = 0 \/ v_payload (view mem cm) <> [] ->
  exists io cm' junk, mg_coap_compose (Some k) indet mem cm (mk_mbuf 0 [] 0 0) = Ret (0, io) /\
    mg_coap_parse io = Ret (cflags cm', cm') /\ err cm' = false /\ view (mb_buf io) cm' = padded (view mem cm) junk /\ size junk = slack 0 (v_options (view mem cm)).
Proof.
  intros Hcm Hv Hs. destruct (compose_spec k indet mem cm (mk_mbuf 0 [] 0 0)) as (io & junk & E & Hwf & Hc & Hj);
    [by split|done|simpl; lia|vm_compute; discriminate|].
  change (content (mk_mbuf 0 [] 0 0)) with (@nil Z) in Hc. rewrite app_nil_l, enc_padded in Hc.
  - destruct (parse_enc io (padded (view mem cm) junk) Hwf Hc) as (cm' & E2 & Herr & Hv'); [destruct Hv; by split|]. by exists io, cm', junk.
  - destruct Hs as [Hs|Hs]; [|by right]. left. rewrite Hs in Hj. destruct junk as [|x junk]; [done|]. rewrite size_cons in Hj. pose proof (size_nonneg junk). lia.
Qed.

Lemma mg_coap_roundtrip_witness :
  exists io cm' junk, mg_coap_compose (Some (mk_block 4096 (fun _ => 7))) 0 coap_mem coap_msg (mk_mbuf 0 [] 0 0) = Ret (0, io) /\
    mg_coap_parse io = Ret (cflags cm', cm') /\ err cm' = false /\ view (mb_buf io) cm' = padded (view coap_mem coap_msg) junk /\ size junk = slack 0 (v_options (view coap_mem coap_msg)).
Proof.
  apply mg_coap_roundtrip; [apply coap_msg_valid| |left; reflexivity].
  split; simpl; repeat apply conj; decide_valid.
Defined.

(** The slack is sent: two options of numbers 20 and 21 leave one indeterminate
    byte at the end of the datagram. *)
Example compose_slack :
  (match mg_coap_send_message (Some (mk_block 4096 (fun _ => 7))) 0 []
     (mk_coap 0 0 0 0 1 (mk_str None 0) [mk_opt 20 (mk_str None 0); mk_opt 21 (mk_str None 0)] (mk_str None 0))
   with Ret (r, Some b) => (r, b) | _ => (-1, []) end) = (0, [64; 0; 0; 1; 208; 7; 16; 7]).
Proof. vm_compute. reflexivity. Qed.

(** The handler of the connection never delivers a message in error. *)
Example format_error_dropped :
  (match coap_handler (fun io _ _ => io) (mk_mbuf 4096 [79; 0; 0; 0] 4 4) MG_EV_RECV with Ret (l, io) => (map fst l, mb_len io) | _ => ([], -1) end)
  = ([MG_EV_RECV], 0).
Proof. vm_compute. reflexivity. Qed.
