(* ===== verification/Addr.v ===== *)
(** * Addresses (mongoose.c, net.c and resolv.c)

    [mg_parse_address], [mg_check_ip_acl], the file of hosts and the choice of a
    name server, over the [sscanf] of the C library.  A file is its bytes, and
    [fgets] reads it into a buffer that keeps what the line before left. *)

From Stdlib Require Import ZArith Lia String.
From stdpp Require Import base list numbers option.
From S2P Require Import Prelude Strs Cpp.

Local Open Scope Z_scope.

(** ** [sscanf] *)

(** The directives the source uses; a [Blank] skips white space, [Count] is "%n". *)
Inductive directive := Lit (c : Z) | Blank | Int (signed : bool) | Word | Scanset (f : Z -> bool) (width : option nat) | Count.

(** What the conversions store, in order. *)
Inductive scanned := SInt (v : Z) | SStr (s : list Z) | SCount (n : Z).

(** A format, from its text with conversions "%u", "%d", "%s", "%n". *)
Fixpoint format (f : list Z) : list directive :=
  match f with
  | 37 :: c :: f => (if c =? 117 then Int false else if c =? 100 then Int true else if c =? 115 then Word else Count) :: format f
  | c :: f => (if isspace c then Blank else Lit c) :: format f
  | [] => []
  end.

(** An integer: white space, a sign, digits; a value that does not fit has no
    defined result.  [None] is a matching failure. *)
Definition scan_int (signed : bool) (t : list Z) : outcome (option (Z * list Z)) :=
  let '(neg, t) := match t with 45 :: t => (true, t) | 43 :: t => (false, t) | _ => (false, t) end in
  let ds := take_while isdigit t in
  if bool_decide (ds = []) then mret None else
  let v := dec_val 0 ds in
  let v := if neg then - v else v in
  v ← (if signed then (if decide (- 2 ^ 31 <= v < 2 ^ 31) then mret v else Fault BadConversion)
       else if decide (- 2 ^ 32 < v < 2 ^ 32) then mret (u32 v) else Fault BadConversion);
  mret (Some (v, drop_while isdigit t)).

(** The conversions that were stored, and whether the text ended too early. *)
Fixpoint sscanf_ (k : Z) (f : list directive) (t : list Z) : outcome (list scanned * bool) :=
  match f with
  | [] => mret ([], false)
  | Count :: f => '(l, e) ← sscanf_ k f t; mret (SCount k :: l, e)
  | Blank :: f => let t' := drop_while isspace t in sscanf_ (k + (size t - size t')) f t'
  | Lit c :: f =>
      match t with
      | [] => mret ([], true)
      | x :: t => if x =? c then sscanf_ (k + 1) f t else mret ([], false)
      end
  | Int signed :: f =>
      let t' := drop_while isspace t in
      match t' with
      | [] => mret ([], true)
      | _ =>
          r ← scan_int signed t';
          match r with
          | None => mret ([], false)
          | Some (v, r) => '(l, e) ← sscanf_ (k + (size t - size r)) f r; mret (SInt v :: l, e)
          end
      end
  | Word :: f =>
      let t' := drop_while isspace t in
      match t' with
      | [] => mret ([], true)
      | _ =>
          let w := take_while (fun c => negb (isspace c)) t' in
          let r := drop_while (fun c => negb (isspace c)) t' in
          '(l, e) ← sscanf_ (k + (size t - size r)) f r; mret (SStr w :: l, e)
      end
  | Scanset p width :: f =>
      match t with
      | [] => mret ([], true)
      | _ =>
          let w := take_while p t in
          let w := match width with Some n => take n w | None => w end in
          if bool_decide (w = []) then mret ([], false) else
          let r := drop (length w) t in
          '(l, e) ← sscanf_ (k + size w) f r; mret (SStr w :: l, e)
      end
  end.

(** The value [sscanf] returns: the conversions but for "%n", or -1. *)
Definition conversions (l : list scanned) : Z := size (List.filter (fun x => match x with SCount _ => false | _ => true end) l).
Definition sscanf (f : list directive) (t : list Z) : outcome (Z * list scanned) :=
  '(l, e) ← sscanf_ 0 f t;
  mret (if e && (conversions l =? 0) then -1 else conversions l, l).

(** The variable that the [i]th conversion stored into. *)
Definition num (l : list scanned) (i : nat) : Z := match l !! i with Some (SInt v) => v | Some (SCount n) => n | _ => 0 end.
Definition word (l : list scanned) (i : nat) : list Z := match l !! i with Some (SStr s) => s | _ => [] end.

(** The string at offset [i] of an object. *)
Definition cstr (b : list Z) (i : Z) : outcome (list Z) := n ← strlen b i; mret (slice b i n).

(** ** Addresses of sockets *)

Record sockaddr := mk_sa { sin_addr : Z; sin_port : Z }.

Definition SOCK_STREAM : Z := 1.
Definition SOCK_DGRAM : Z := 2.

Definition ipv4 (a b c d : Z) : Z := Z.lor (Z.lor (Z.lor (u32 (Z.shiftl a 24)) (u32 (Z.shiftl b 16))) (u32 (Z.shiftl c 8))) d.

Section hosts.
(** The bytes of the files "/etc/hosts" and "/etc/resolv.conf", when they can be
    opened, and what was in the local arrays before. *)
Class Etc := { etc_hosts : option (list Z); etc_resolv : option (list Z); line_junk : list Z }.
Context `{Etc}.

(** [fgets(line, size, fp)]: the rest of the file, and the line with its new
    contents. *)
Definition fgets (line : list Z) (n : Z) (fp : list Z) : outcome (option (list Z * list Z)) :=
  match fp with
  | [] => mret None
  | _ =>
      let l := take_while (fun c => negb (c =? 10)) fp in
      let l := take (Z.to_nat (n - 1)) (l ++ take 1 (drop (length l) fp)) in
      line ← memcpy line 0 (l ++ [0]) 0 (size l + 1);
      mret (Some (drop (length l) fp, line))
  end.

(** The four numbers and [len], which keep their values from line to line. *)
Record quad := mk_quad { q_a : option Z; q_b : option Z; q_c : option Z; q_d : option Z; q_len : Z }.

Definition store_quad (q : quad) (l : list scanned) : quad :=
  let num i old := match l !! i with Some (SInt v) => Some v | _ => old end in
  mk_quad (num 0%nat (q_a q)) (num 1%nat (q_b q)) (num 2%nat (q_c q)) (num 3%nat (q_d q))
    (match l !! 4%nat with Some (SCount n) => n | _ => q_len q end).

(** The aliases of one line, from offset [p]: found, or the [len] that is left.
    [alias] has 256 bytes. *)
Definition alias_step (line name : list Z) (st : Z * Z) : outcome (Z * Z + option Z) :=
  let '(p, len) := st in
  t ← cstr line p;
  '(r, l) ← sscanf [Word; Count] t;
  if negb (r =? 1) then mret (inr (Some len)) else
  let alias := word l 0 in let len := num l 1 in
  if 256 <? size alias + 1 then Fault OutOfBounds else
  if bool_decide (alias = name) then mret (inr None) else mret (inl (p + len, len)).

Definition hosts_step (name : list Z) (st : list Z * list Z * quad) : outcome (list Z * list Z * quad + option Z) :=
  let '(fp, line, q) := st in
  g ← fgets line 1024 fp;
  match g with
  | None => mret (inr None)
  | Some (fp, line) =>
      c ← rd line 0;
      if c =? 35 then mret (inl (fp, line, q)) else
      t ← cstr line 0;
      '(r, l) ← sscanf (format (lit "%u.%u.%u.%u%n")) t;
      let q := store_quad q l in
      if r =? 0 then mret (inl (fp, line, q)) else
      found ← loop (S (length line)) (alias_step line name) (q_len q, q_len q);
      match found with
      | None =>
          match q_a q, q_b q, q_c q, q_d q with
          | Some a, Some b, Some c, Some d => mret (inr (Some (ipv4 a b c d)))
          | _, _, _, _ => Fault Uninitialised
          end
      | Some len => mret (inl (fp, line, mk_quad (q_a q) (q_b q) (q_c q) (q_d q) len))
      end
  end.

(** The address of [name], [None] for -1. *)
Definition mg_resolve_from_hosts_file (name : list Z) : outcome (option Z) :=
  match etc_hosts with
  | None => mret None
  | Some fp => loop (S (length fp)) (hosts_step name) (fp, take 1024 line_junk, mk_quad None None None None 0)
  end.

Definition ns_char (c : Z) : bool := negb ((c =? 10) || (c =? 9) || (c =? 32) || (c =? 35)).

Definition resolv_step (st : list Z * list Z) : outcome (list Z * list Z + option (list Z)) :=
  let '(fp, line) := st in
  g ← fgets line 512 fp;
  match g with
  | None => mret (inr None)
  | Some (fp, line) =>
      t ← cstr line 0;
      '(r, l) ← sscanf (format (lit "nameserver ") ++ [Scanset ns_char (Some 255%nat)] ++ format (lit "s")) t;
      if r =? 1 then mret (inr (Some (word l 0))) else mret (inl (fp, line))
  end.

(** The name server, of at most [name_len - 1] characters; [None] for -1. *)
Definition mg_get_ip_address_of_nameserver (name_len : Z) : outcome (option (list Z)) :=
  match etc_resolv with
  | None => mret None
  | Some fp =>
      r ← loop (S (length fp)) resolv_step (fp, take 512 line_junk);
      mret (buf ← r; Some (take (Z.to_nat (name_len - 1)) (lit "udp://" ++ buf ++ lit ":53")))
  end.

(** [Needs_lookup] is the answer 0, with the name to look up; [Address] has the
    length of the address. *)
Inductive parsed_address := BadAddress | Needs_lookup (host : list Z) (port : Z) | Address (len : Z) (sa : sockaddr).

Definition host_char (c : Z) : bool := negb ((c =? 32) || (c =? 58)).

(** The kind of socket, and the rest of the function; the address is absolute,
    [len] counts from after the protocol. *)
Definition mg_parse_address (str : list Z) (host_len : Z) : outcome (Z * parsed_address) :=
  let proto := if bool_decide (take 6 str = lit "udp://") then SOCK_DGRAM else SOCK_STREAM in
  let str := if bool_decide (take 6 str = lit "udp://") || bool_decide (take 6 str = lit "tcp://") then drop 6 str else str in
  let finish (sa : sockaddr) (port len : Z) :=
    ch ← rd (str ++ [0]) len;
    mret (proto, if (port <? 0xffff) && ((ch =? 0) || (ch =? 44) || isspace ch) then Address len sa else BadAddress) in
  '(r, l) ← sscanf (format (lit "%u.%u.%u.%u:%u%n")) str;
  if r =? 5 then finish (mk_sa (ipv4 (num l 0) (num l 1) (num l 2) (num l 3)) (u16 (num l 4))) (num l 4) (num l 5) else
  '(r, l) ← (if size str <? host_len then sscanf ([Scanset host_char None] ++ format (lit ":%u%n")) str else mret (0, []));
  if r =? 2 then
    a ← mg_resolve_from_hosts_file (word l 0);
    match a with
    | None => mret (proto, Needs_lookup (word l 0) (u16 (num l 1)))
    | Some a => finish (mk_sa a (u16 (num l 1))) (num l 1) (num l 2)
    end
  else
  '(r, l) ← sscanf (format (lit ":%u%n")) str;
  '(r, l) ← (if r =? 1 then mret (r, l) else sscanf (format (lit "%u%n")) str);
  if r =? 1 then finish (mk_sa 0 (u16 (num l 0))) (num l 0) (num l 1) else mret (proto, BadAddress).

End hosts.

(** ** Access control lists *)

Definition isbyte (n : Z) : bool := (0 <=? n) && (n <=? 255).

(** The network, its mask and the length of the text; [None] for 0. *)
Definition parse_net (spec : list Z) : outcome (option (Z * Z * Z)) :=
  '(r, l) ← sscanf (format (lit "%d.%d.%d.%d/%d%n")) spec;
  '(r, l, slash, n) ← (if r =? 5 then mret (true, l, num l 4, num l 5) else
    '(r, l) ← sscanf (format (lit "%d.%d.%d.%d%n")) spec; mret (r =? 4, l, 32, num l 4));
  if r && isbyte (num l 0) && isbyte (num l 1) && isbyte (num l 2) && isbyte (num l 3) && (slash >=? 0) && (slash <? 33) then
    if n =? 0 then mret None else
    mret (Some (ipv4 (num l 0) (num l 1) (num l 2) (num l 3), if slash =? 0 then 0 else u32 (Z.shiftl 0xffffffff (32 - slash)), n))
  else mret None.

(** [acl] is an offset in an object, or null; 43 and 45 are the two signs. *)
Definition acl_step (b : list Z) (remote_ip : Z) (st : option Z * Z) : outcome (option Z * Z + Z) :=
  let '(acl, allowed) := st in
  e ← mg_next_comma_list_entry b acl false;
  match e with
  | None => mret (inr (if allowed =? 43 then 1 else 0))
  | Some (acl, vec, _) =>
      deref (p vec) (fun q =>
        flag ← rd b q;
        if negb (flag =? 43) && negb (flag =? 45) then mret (inr (-1)) else
        spec ← cstr b (q + 1);
        n ← parse_net spec;
        match n with
        | None => mret (inr (-1))
        | Some (net, mask, _) => mret (inl (Some acl, if net =? Z.land remote_ip mask then flag else allowed))
        end)
  end.

Definition mg_check_ip_acl (b : list Z) (acl : option Z) (remote_ip : Z) : outcome Z :=
  allowed ← match acl with None => mret 43 | Some q => c ← rd b q; mret (if c =? 0 then 43 else 45) end;
  loop (S (S (length b))) (acl_step b remote_ip) (acl, allowed).

(** ** Examples *)

#[local] Instance sample_etc : Etc := {|
  etc_hosts := Some (lit "127.0.0.1 localhost" ++ [10] ++ lit "# ::1" ++ [10] ++ lit "10.1.2.3 db mail" ++ [10]);
  etc_resolv := Some (lit "search lan" ++ [10] ++ lit "nameserver 8.8.4.4" ++ [10]); line_junk := replicate 1024 255 |}.

Example hosts_found : mg_resolve_from_hosts_file (lit "mail") = Ret (Some (ipv4 10 1 2 3)).
Proof. vm_compute. reflexivity. Qed.
Example hosts_missing : mg_resolve_from_hosts_file (lit "mai") = Ret None.
Proof. vm_compute. reflexivity. Qed.
Example nameserver_found : mg_get_ip_address_of_nameserver 256 = Ret (Some (lit "udp://8.8.4.4:53")).
Proof. vm_compute. reflexivity. Qed.
Example address_port : mg_parse_address (lit "8000") 200 = Ret (SOCK_STREAM, Address 4 (mk_sa 0 8000)).
Proof. vm_compute. reflexivity. Qed.
Example address_name : mg_parse_address (lit "udp://db:53") 200 = Ret (SOCK_DGRAM, Address 5 (mk_sa (ipv4 10 1 2 3) 53)).
Proof. vm_compute. reflexivity. Qed.
Example address_lookup : mg_parse_address (lit "tcp://fi.uba.ar:80") 200 = Ret (SOCK_STREAM, Needs_lookup (lit "fi.uba.ar") 80).
Proof. vm_compute. reflexivity. Qed.
(** The last port is refused. *)
Example address_last_port : mg_parse_address (lit "10.0.0.1:65535") 200 = Ret (SOCK_STREAM, BadAddress).
Proof. vm_compute. reflexivity. Qed.

(** A line with an address of IPv6 that starts with a digit gives its aliases
    the address of the line before, but for the first number. *)
Definition ipv6_etc : Etc := {|
  etc_hosts := Some (lit "10.1.2.3 db" ++ [10] ++ lit "2001:db8::1 web" ++ [10]); etc_resolv := None; line_junk := replicate 1024 255 |}.
Example hosts_ipv6 : mg_resolve_from_hosts_file (H := ipv6_etc) (lit "web") = Ret (Some (ipv4 2001 1 2 3)).
Proof. vm_compute. reflexivity. Qed.

(** An alias of 256 characters does not fit. *)
Definition long_etc : Etc := {| etc_hosts := Some (lit "10.1.2.3 " ++ replicate 256 97); etc_resolv := None; line_junk := replicate 1024 0 |}.
Example hosts_long_alias : mg_resolve_from_hosts_file (H := long_etc) (lit "web") = Fault OutOfBounds.
Proof. vm_compute. reflexivity. Qed.

Example acl_example : (mg_check_ip_acl (lit "-0.0.0.0/0,+192.168.0.0/16" ++ [0]) (Some 0) (ipv4 192 168 3 4),
  mg_check_ip_acl (lit "-0.0.0.0/0,+192.168.0.0/16" ++ [0]) (Some 0) (ipv4 193 168 3 4)) = (Ret 1, Ret 0).
Proof. vm_compute. reflexivity. Qed.

(** The example of the header, with a network of two numbers, is refused; and a
    network with bits behind its mask holds no address. *)
Example acl_short : mg_check_ip_acl (lit "-0.0.0.0/0,+192.168/16" ++ [0]) (Some 0) (ipv4 192 168 3 4) = Ret (-1).
Proof. vm_compute. reflexivity. Qed.
Example acl_host_bits : mg_check_ip_acl (lit "+192.168.1.5/16" ++ [0]) (Some 0) (ipv4 192 168 1 5) = Ret 0.
Proof. vm_compute. reflexivity. Qed.

(** ** Scanning what was printed *)

(** [r] does not go on with a character of the class [f]. *)
Definition stops (f : Z -> bool) (r : list Z) : Prop := match r with [] => True | x :: _ => f x = false end.

Lemma while_stops (f : Z -> bool) l r : Forall (fun x => f x = true) l -> stops f r ->
  take_while f (l ++ r) = l /\ drop_while f (l ++ r) = r.
Proof.
  intros Hl Hr. destruct r as [|x r]; [|by rewrite take_while_app, drop_while_app].
  rewrite app_nil_r, take_while_id by done. split; [done|]. pose proof (take_drop_while f l) as E. rewrite take_while_id in E by done.
  apply (f_equal length) in E. rewrite length_app in E. destruct (drop_while f l); [done|]. cbn in E. lia.
Qed.

Lemma number v : 0 <= v < 2 ^ 31 -> exists d ds, to_string v = d :: ds /\ isdigit d = true /\
  Forall (fun d => isdigit d = true) (d :: ds) /\ dec_val 0 (d :: ds) = v.
Proof.
  intros Hv. unfold to_string. rewrite (proj2 (Z.ltb_ge v 0)) by lia.
  destruct (udigits_cons 19 v) as (d & ds & E & Hd & Hds). exists d, ds. rewrite E. split_and!; [done|done|by constructor|].
  rewrite <- E. apply udigits_val. change (10 ^ Z.of_nat 20) with 100000000000000000000. lia.
Qed.

Lemma scan_number s v r : 0 <= v < 2 ^ 31 -> stops isdigit r -> scan_int s (to_string v ++ r) = Ret (Some (v, r)).
Proof.
  intros Hv Hr. destruct (number v Hv) as (d & ds & E & Hd & Hds & Hval). pose proof (isdigit_range d Hd). unfold scan_int. rewrite E.
  assert (match d :: ds ++ r with 45 :: t => (true, t) | 43 :: t => (false, t) | _ => (false, d :: ds ++ r) end = (false, d :: ds ++ r)) as Es
    by (repeat (case_match; try lia); done).
  cbn [app]. rewrite Es. destruct (while_stops isdigit (d :: ds) r Hds Hr) as [E1 E2]. cbn [app] in E1, E2. rewrite E1, E2, bool_decide_false by done.
  rewrite Hval. destruct s; [rewrite decide_True by lia|rewrite decide_True, u32_small by lia]; done.
Qed.

Lemma sscanf_int k s f v r : 0 <= v < 2 ^ 31 -> stops isdigit r ->
  sscanf_ k (Int s :: f) (to_string v ++ r) = ('(l, e) ← sscanf_ (k + size (to_string v)) f r; mret (SInt v :: l, e)).
Proof.
  intros Hv Hr. cbn [sscanf_]. assert (drop_while isspace (to_string v ++ r) = to_string v ++ r) as ->.
  { destruct (number v Hv) as (d & ds & E & Hd & _). pose proof (isdigit_range d Hd). rewrite E. cbn [app drop_while].
    assert (isspace d = false) as -> by (unfold isspace; lia). done. }
  assert (exists x l, to_string v ++ r = x :: l) as (x & l & E) by (destruct (number v Hv) as (d & ds & -> & _); by eexists _, _).
  rewrite E at 1. rewrite scan_number by done. cbn [mbind outcome_bind]. by rewrite size_app, Z.add_simpl_r.
Qed.

Lemma sscanf_lit k c f r : sscanf_ k (Lit c :: f) (c :: r) = sscanf_ (k + 1) f r.
Proof. cbn [sscanf_]. by rewrite Z.eqb_refl. Qed.

(** The result of [sscanf] when its five conversions were stored. *)
Ltac five_stored :=
  match goal with |- context [conversions ?l] => change (conversions l) with 5 end;
  cbn [andb]; change (5 =? 5) with true; cbn [num lookup list_lookup andb mbind outcome_bind mret outcome_ret].

(** The four numbers of an address with dots. *)
Definition dotted (a b c d : Z) : list Z := to_string a ++ 46 :: to_string b ++ 46 :: to_string c ++ 46 :: to_string d.
Definition is_octet (v : Z) : Prop := 0 <= v < 256.

Definition dots (s : bool) : list directive := [Int s; Lit 46; Int s; Lit 46; Int s; Lit 46; Int s].

Lemma sscanf_dots k s f a b c d r : is_octet a -> is_octet b -> is_octet c -> is_octet d -> stops isdigit r ->
  sscanf_ k (dots s ++ f) (dotted a b c d ++ r) =
  ('(l, e) ← sscanf_ (k + size (dotted a b c d)) f r; mret (SInt a :: SInt b :: SInt c :: SInt d :: l, e)).
Proof.
  unfold is_octet. intros Ha Hb Hc Hd Hr. unfold dots, dotted. rewrite <- !app_assoc, <- !app_comm_cons, <- !app_assoc, <- !app_comm_cons, <- !app_assoc, <- !app_comm_cons. cbn [app].
  do 3 rewrite sscanf_int, sscanf_lit by (done || lia). rewrite sscanf_int by (done || lia).
  rewrite !size_app, !size_cons, !size_app, !size_cons, !size_app, !size_cons.
  match goal with |- context [sscanf_ ?x f r] => replace x with (k + (size (to_string a) + (1 + (size (to_string b) + (1 + (size (to_string c) + (1 + size (to_string d)))))))) by lia end.
  by destruct (sscanf_ _ f r) as [[l e]|].
Qed.

Lemma ipv4_sum a b c d : is_octet a -> is_octet b -> is_octet c -> is_octet d -> ipv4 a b c d = a * 2 ^ 24 + b * 2 ^ 16 + c * 2 ^ 8 + d.
Proof.
  unfold is_octet. intros Ha Hb Hc Hd. unfold ipv4. rewrite !u32_small by (rewrite Z.shiftl_mul_pow2; lia).
  rewrite (lor_disjoint 24) by (rewrite ?Z.shiftl_mul_pow2; lia).
  replace (a * 2 ^ 24 + Z.shiftl b 16) with (Z.shiftl (a * 2 ^ 8 + b) 16) by (rewrite !Z.shiftl_mul_pow2; lia).
  rewrite (lor_disjoint 16) by (rewrite ?Z.shiftl_mul_pow2; lia).
  replace ((a * 2 ^ 8 + b) * 2 ^ 16 + Z.shiftl c 8) with (Z.shiftl ((a * 2 ^ 8 + b) * 2 ^ 8 + c) 8) by (rewrite !Z.shiftl_mul_pow2; lia).
  rewrite (lor_disjoint 8) by lia. lia.
Qed.

(** ** Theorems *)

(** What may follow an address. *)
Definition ends_address (r : list Z) : Prop := match r with [] => True | x :: _ => x = 44 \/ isspace x = true end.

Lemma ends_no_digit r : ends_address r -> stops isdigit r.
Proof. destruct r as [|x r]; [done|]. cbn. unfold isspace, isdigit. lia. Qed.

(** The three ways to name the protocol. *)
Definition proto_prefix (p : list Z) (proto : Z) : Prop :=
  (p = lit "udp://" /\ proto = SOCK_DGRAM) \/ (p = lit "tcp://" /\ proto = SOCK_STREAM) \/ (p = [] /\ proto = SOCK_STREAM).

Lemma dotted_head a b c d r : is_octet a -> exists x l, dotted a b c d ++ r = x :: l /\ isdigit x = true.
Proof.
  unfold is_octet, dotted. intros Ha. destruct (number a) as (x & ds & -> & Hx & _); [lia|]. by eexists _, _.
Qed.

Lemma parse_address_ipv4 `{Etc} pre proto a b c d port r n : proto_prefix pre proto ->
  is_octet a -> is_octet b -> is_octet c -> is_octet d -> 0 <= port < 2 ^ 16 -> ends_address r ->
  let text := dotted a b c d ++ 58 :: to_string port in
  mg_parse_address (pre ++ text ++ r) n = Ret (proto,
    if port =? 65535 then BadAddress else Address (size text) (mk_sa (a * 2 ^ 24 + b * 2 ^ 16 + c * 2 ^ 8 + d) port)).
Proof.
  intros Hp Ha Hb Hc Hd Hport Hr text. unfold mg_parse_address.
  destruct (dotted_head a b c d (58 :: to_string port ++ r) Ha) as (x & l & Ex & Hx). pose proof (isdigit_range x Hx).
  assert (text ++ r = x :: l) as Et by (subst text; by rewrite <- app_assoc).
  assert (bool_decide (take 6 (text ++ r) = lit "udp://") = false /\ bool_decide (take 6 (text ++ r) = lit "tcp://") = false) as [H1 H2].
  { rewrite Et. split; apply bool_decide_false; intros E%(f_equal (hd 0)); change (x = 117) in E || change (x = 116) in E; lia. }
  assert (exists str, (if bool_decide (take 6 (pre ++ text ++ r) = lit "udp://") then SOCK_DGRAM else SOCK_STREAM) = proto /\
    (if bool_decide (take 6 (pre ++ text ++ r) = lit "udp://") || bool_decide (take 6 (pre ++ text ++ r) = lit "tcp://") then drop 6 (pre ++ text ++ r) else pre ++ text ++ r) = str /\ str = text ++ r)
    as (str & -> & -> & ->).
  { eexists. split; [|split; [reflexivity|]]; destruct Hp as [[-> ->]|[[-> ->]|[-> ->]]]; try reflexivity; cbn [app]; by rewrite ?H1, ?H2. }
  unfold sscanf. change (format (lit "%u.%u.%u.%u:%u%n")) with (dots false ++ [Lit 58; Int false; Count]).
  assert (text ++ r = dotted a b c d ++ 58 :: to_string port ++ r) as E by (subst text; by rewrite <- app_assoc).
  rewrite E at 1. rewrite sscanf_dots by done. rewrite sscanf_lit, sscanf_int by (try lia; by apply ends_no_digit).
  cbn [sscanf_ mbind outcome_bind mret outcome_ret].
  five_stored.
  rewrite ipv4_sum by done. unfold u16. rewrite (Z.mod_small port (2 ^ 16)) by done.
  replace (0 + size (dotted a b c d) + 1 + size (to_string port)) with (size text) by (subst text; rewrite size_app, size_cons; lia).
  assert (exists ch, rd ((text ++ r) ++ [0]) (size text) = Ret ch /\ ((ch =? 0) || (ch =? 44) || isspace ch) = true) as (ch & -> & Hch).
  { rewrite <- app_assoc. destruct r as [|y r]; [exists 0|exists y]; cbn [app]; rewrite rd_at0; (split; [done|]); [done|].
    destruct Hr as [->|Hy]; [done|]. rewrite Hy. by rewrite orb_true_r. }
  cbn [mbind outcome_bind mret outcome_ret]. rewrite Hch, andb_true_r.
  destruct (Z.eqb_spec port 65535) as [->|]; [done|]. by rewrite (proj2 (Z.ltb_lt port 0xffff)) by lia.
Qed.

(** An address of IPv4 with a port, in decimal, is read back: the kind of
    socket is the one of the prefix, and the length is that of the text.  A comma
    or white space may follow.  The port 65535 is refused. *)
Theorem mg_parse_address_ipv4 `{Etc} pre proto a b c d port r n : proto_prefix pre proto ->
  is_octet a -> is_octet b -> is_octet c -> is_octet d -> 0 <= port < 2 ^ 16 -> ends_address r ->
  let text := dotted a b c d ++ 58 :: to_string port in
  mg_parse_address (pre ++ text ++ r) n = Ret (proto,
    if port =? 65535 then BadAddress else Address (size text) (mk_sa (a * 2 ^ 24 + b * 2 ^ 16 + c * 2 ^ 8 + d) port)).
Proof. intros. by apply parse_address_ipv4. Qed.

Lemma mg_parse_address_ipv4_witness :
  mg_parse_address (lit "udp://" ++ (dotted 8 8 4 4 ++ 58 :: to_string 53) ++ []) 200 =
  Ret (SOCK_DGRAM, if 53 =? 65535 then BadAddress else Address (size (dotted 8 8 4 4 ++ 58 :: to_string 53)) (mk_sa (8 * 2 ^ 24 + 8 * 2 ^ 16 + 4 * 2 ^ 8 + 4) 53)).
Proof. apply (mg_parse_address_ipv4 (lit "udp://") SOCK_DGRAM 8 8 4 4 53 [] 200); first [by left|by unfold is_octet|done]. Defined.

(** *** Access control *)

(** A rule "+a.b.c.d/n", or "+a.b.c.d" for a single address. *)
Record rule := mk_rule { sign : Z; r_a : Z; r_b : Z; r_c : Z; r_d : Z; mask_text : option Z }.

Definition net_of (r : rule) : Z := r_a r * 2 ^ 24 + r_b r * 2 ^ 16 + r_c r * 2 ^ 8 + r_d r.
Definition prefix (r : rule) : Z := default 32 (mask_text r).

(** The four numbers are octets, and the address has no bits behind the prefix. *)
Record rule_ok (r : rule) : Prop := {
  ro_sign : sign r = 43 \/ sign r = 45;
  ro_a : is_octet (r_a r); ro_b : is_octet (r_b r); ro_c : is_octet (r_c r); ro_d : is_octet (r_d r);
  ro_prefix : 0 <= prefix r <= 32;
  ro_net : net_of r mod 2 ^ (32 - prefix r) = 0
}.

Definition net_text (r : rule) : list Z :=
  dotted (r_a r) (r_b r) (r_c r) (r_d r) ++ match mask_text r with Some n => 47 :: to_string n | None => [] end.
Definition rule_text (r : rule) : list Z := sign r :: net_text r.
Fixpoint acl_text (rs : list rule) : list Z :=
  match rs with [] => [] | [r] => rule_text r | r :: rs => rule_text r ++ 44 :: acl_text rs end.

(** The address is in the network: the first [prefix] bits agree. *)
Definition in_net (ip : Z) (r : rule) : bool := ip / 2 ^ (32 - prefix r) =? net_of r / 2 ^ (32 - prefix r).

Lemma acl_text_cons r rs : acl_text (r :: rs) = rule_text r ++ match rs with [] => [] | _ => 44 :: acl_text rs end.
Proof. destruct rs; [by rewrite app_nil_r|done]. Qed.

Lemma to_string_no c v : ~ (48 <= c <= 57) -> c <> 45 -> c ∉ to_string v.
Proof.
  intros Hc H45 Hin. pose proof (to_string_forall (fun x => x <> c) v (fun E => H45 (eq_sym E))) as H.
  rewrite Forall_forall in H. apply (H ltac:(intros; lia) c); [by apply list_elem_of_In|done].
Qed.

Lemma net_text_no c r : c <> 46 -> c <> 47 -> c <> 45 -> ~ (48 <= c <= 57) -> c ∉ net_text r.
Proof.
  intros H1 H2 H3 H4. unfold net_text, dotted. rewrite !not_elem_of_app, !not_elem_of_cons, !not_elem_of_app, !not_elem_of_cons, !not_elem_of_app, !not_elem_of_cons.
  repeat split; try done; try (by apply to_string_no). destruct (mask_text r); [|apply not_elem_of_nil]. rewrite not_elem_of_cons. split; [done|by apply to_string_no].
Qed.

(** The mask keeps the first [m] bits. *)
Definition mask_of (m : Z) : Z := if m =? 0 then 0 else u32 (Z.shiftl 0xffffffff (32 - m)).

Lemma mask_land ip m : 0 <= ip < 2 ^ 32 -> 0 <= m <= 32 -> Z.land ip (mask_of m) = ip / 2 ^ (32 - m) * 2 ^ (32 - m).
Proof.
  intros Hip Hm. unfold mask_of. destruct (Z.eqb_spec m 0) as [->|Hm0].
  { rewrite Z.land_0_r, Z.div_small by (simpl; lia). done. }
  rewrite <- Z.shiftl_mul_pow2, <- Z.shiftr_div_pow2 by lia. apply Z.bits_inj'. intros n Hn. rewrite Z.land_spec, Z.shiftl_spec by lia.
  unfold u32. destruct (decide (n < 32)).
  - rewrite Z.mod_pow2_bits_low, Z.shiftl_spec by lia. destruct (decide (n < 32 - m)).
    + rewrite !(Z.testbit_neg_r _ (n - (32 - m))) by lia. by rewrite andb_false_r.
    + rewrite Z.shiftr_spec by lia. replace (n - (32 - m) + (32 - m)) with n by lia.
      change 0xffffffff with (Z.ones 32). rewrite Z.ones_spec_low by lia. by rewrite andb_true_r.
  - rewrite Z.mod_pow2_bits_high by lia. rewrite andb_false_r. symmetry.
    rewrite Z.shiftr_spec by lia. replace (n - (32 - m) + (32 - m)) with n by lia.
    rewrite <- (Z.mod_small ip (2 ^ 32)) by done. apply Z.mod_pow2_bits_high. lia.
Qed.

Lemma in_net_mask ip r : 0 <= ip < 2 ^ 32 -> rule_ok r -> (net_of r =? Z.land ip (mask_of (prefix r))) = in_net ip r.
Proof.
  intros Hip Hr. pose proof (ro_prefix r Hr). rewrite mask_land by done. unfold in_net. set (k := 2 ^ (32 - prefix r)).
  assert (0 < k) as Hk by (apply Z.pow_pos_nonneg; lia). pose proof (Z.div_mod (net_of r) k). pose proof (Z.mod_pos_bound (net_of r) k Hk).
  pose proof (ro_net r Hr) as Hnet. fold k in Hnet. destruct (Z.eqb_spec (ip / k) (net_of r / k)) as [E|E].
  - rewrite E. apply Z.eqb_eq. lia.
  - apply Z.eqb_neq. intros En. apply E. rewrite En, Z.div_mul by lia. done.
Qed.

(** What may follow a rule. *)
Definition ends_rule (r : list Z) : Prop := match r with [] => True | x :: _ => x = 44 end.

Lemma parse_net_text r rest : rule_ok r -> ends_rule rest ->
  exists n, parse_net (net_text r ++ rest) = Ret (Some (net_of r, mask_of (prefix r), n)).
Proof.
  intros [_ Ha Hb Hc Hd Hm _] Hrest. exists (size (net_text r)). unfold parse_net, sscanf, net_text, prefix in *.
  assert (forall v, is_octet v -> isbyte v = true) as Hbyte by (unfold is_octet, isbyte; intros; lia).
  change (format (lit "%d.%d.%d.%d/%d%n")) with (dots true ++ [Lit 47; Int true; Count]). change (format (lit "%d.%d.%d.%d%n")) with (dots true ++ [Count]).
  set (d := dotted (r_a r) (r_b r) (r_c r) (r_d r)). assert (0 < size d) as Hd0.
  { destruct (dotted_head (r_a r) (r_b r) (r_c r) (r_d r) [] Ha) as (x & l & E & _). rewrite app_nil_r in E. unfold d. rewrite E, size_cons. pose proof (size_nonneg l). lia. }
  assert (stops isdigit rest) as Hstop by (destruct rest as [|x rest]; [done|by rewrite Hrest]). destruct (mask_text r) as [n|]; cbn [default from_option] in *.
  - change (Datatypes.id n) with n in *. rewrite <- app_assoc, <- app_comm_cons. unfold d. rewrite (sscanf_dots 0 true [Lit 47; Int true; Count]) by done. fold d. rewrite sscanf_lit, sscanf_int by (done || lia). cbn [sscanf_ mbind outcome_bind mret outcome_ret].
    five_stored. rewrite !Hbyte by done. rewrite Z.geb_leb, (proj2 (Z.leb_le 0 _)), (proj2 (Z.ltb_lt _ 33)) by lia. cbn [andb]. rewrite size_app, size_cons.
    pose proof (size_nonneg (to_string n)). rewrite (proj2 (Z.eqb_neq _ 0)) by lia. rewrite ipv4_sum by done. unfold net_of, mask_of. do 3 f_equal. lia.
  - rewrite app_nil_r. unfold d at 1 2. rewrite !sscanf_dots by (done || by destruct rest as [|x rest]; [|rewrite Hrest]). fold d.
    assert (exists e, sscanf_ (0 + size d) [Lit 47; Int true; Count] rest = Ret ([], e)) as [e ->].
    { destruct rest as [|x rest]; [by eexists|]. cbn in Hrest. subst x. by eexists. }
    cbn [sscanf_ mbind outcome_bind mret outcome_ret]. change (conversions [SInt (r_a r); SInt (r_b r); SInt (r_c r); SInt (r_d r)]) with 4.
    change (conversions [SInt (r_a r); SInt (r_b r); SInt (r_c r); SInt (r_d r); SCount (0 + size d)]) with 4. rewrite andb_false_r. cbn [Z.eqb Pos.eqb mbind outcome_bind mret outcome_ret num lookup list_lookup andb].
    rewrite !Hbyte by done. cbn [andb Z.geb Z.compare Z.ltb Pos.compare Pos.compare_cont]. rewrite (proj2 (Z.eqb_neq _ 0)) by lia. by rewrite ipv4_sum.
Qed.

(** The sign of the last rule that matches. *)
Definition verdict (ip : Z) (acc : Z) (rs : list rule) : Z := fold_left (fun acc r => if in_net ip r then sign r else acc) rs acc.

Lemma rule_text_no r : rule_ok r -> 44 ∉ rule_text r.
Proof. intros Hr. unfold rule_text. rewrite not_elem_of_cons. split; [destruct (ro_sign r Hr); lia|]. apply net_text_no; lia. Qed.

Lemma cstr_cstring b i n : cstring b i n -> cstr b i = Ret (slice b i n).
Proof. intros Hc. unfold cstr. by rewrite (strlen_spec b i n Hc). Qed.

(** The text of the first rule and what is left. *)
Lemma acl_entry b l n r rs : rule_ok r -> cstring b l n -> slice b l n = acl_text (r :: rs) ->
  exists l' n' k, mg_next_comma_list_entry b (Some l) false = Ret (Some (l', mk_str (Some l) k, None)) /\
    cstring b l' n' /\ slice b l' n' = acl_text rs.
Proof.
  intros Hr Hc Hs. pose proof Hc as (Hl & Hn & Hb & _). rewrite acl_text_cons in Hs. set (tail := match rs with [] => [] | _ => 44 :: acl_text rs end) in *.
  pose proof (size_nonneg tail). pose proof (size_nonneg (net_text r)). assert (size (rule_text r) = 1 + size (net_text r)) as Er by apply size_cons.
  pose proof (rule_text_no r Hr) as Hno. set (t := rule_text r) in *. clearbody t.
  assert (n = size t + size tail) as En by (rewrite <- size_app, <- Hs, size_slice by lia; done).
  destruct (mg_next_comma_list_entry_spec b l n Hc) as (k & rest & E & Hk & Hrest & Hsk & Hc' & Hor); [lia|].
  assert (before 44 (slice b l n) = t) as Hbf.
  { rewrite Hs. subst tail. destruct rs; [rewrite app_nil_r; by apply before_miss|]. by apply before_after_hit. }
  assert (k = size t) as Ek by (rewrite <- Hbf, <- Hsk, size_slice by lia; done).
  exists rest, (l + n - rest), k. split; [done|]. split; [done|]. destruct rs as [|r' rs']; subst tail.
  - change (size (@nil Z)) with 0 in *. destruct Hor as [Hor|[_ Hor]]; [lia|]. rewrite Hor, Z.sub_diag. by rewrite slice_nil.
  - set (u := acl_text (r' :: rs')) in *. clearbody u. rewrite size_cons in *. pose proof (size_nonneg u). destruct Hor as [Hor|Hor]; [|lia].
    rewrite Hor. replace (l + k + 1) with (l + (k + 1)) by lia. rewrite <- (slice_slice b l n (k + 1) (l + n - (l + (k + 1)))) by lia. rewrite Hs.
    change (44 :: u) with ([44] ++ u). rewrite app_assoc, slice_app_r by (rewrite size_app; change (size [44]) with 1; lia).
    rewrite size_app. change (size [44]) with 1. replace (k + 1 - (size t + 1)) with 0 by lia.
    replace (l + n - (l + (k + 1))) with (size u) by lia. apply slice_all.
Qed.

(** One rule, at the head of the text. *)
Lemma acl_step_rule b ip l n allowed r rs : 0 <= ip < 2 ^ 32 -> rule_ok r -> cstring b l n -> slice b l n = acl_text (r :: rs) ->
  exists l' n', cstring b l' n' /\ slice b l' n' = acl_text rs /\
    acl_step b ip (Some l, allowed) = Ret (inl (Some l', if in_net ip r then sign r else allowed)).
Proof.
  intros Hip Hr Hc Hs. destruct (acl_entry b l n r rs Hr Hc Hs) as (l' & n' & k & E & Hc' & Hs'). exists l', n'. split; [done|]. split; [done|].
  pose proof Hc as (Hl & Hn & Hb & _). rewrite acl_text_cons in Hs.
  assert (exists t m, rule_text r ++ match rs with [] => [] | _ => 44 :: acl_text rs end = sign r :: t /\ parse_net t = Ret (Some (net_of r, mask_of (prefix r), m))) as (t & m & Et & Hp).
  { destruct (parse_net_text r match rs with [] => [] | _ => 44 :: acl_text rs end Hr) as (m & Hp); [by destruct rs|]. by eexists _, m. }
  rewrite Et in Hs. clear Et. rewrite <- (in_net_mask ip r Hip Hr).
  assert (0 < n) as Hn0 by (apply (f_equal length) in Hs; unfold slice in Hs; rewrite length_take in Hs; simpl in Hs; lia).
  unfold acl_step. rewrite E. cbn [mbind outcome_bind p deref]. destruct (rd_total b l) as (v & Hv & ->); [lia|]. cbn [mbind outcome_bind].
  rewrite (slice_cons b l n v) in Hs by (done || lia). injection Hs as -> Ht.
  assert (negb (sign r =? 43) && negb (sign r =? 45) = false) as -> by (destruct (ro_sign r Hr) as [->| ->]; done).
  rewrite (cstr_cstring b (l + 1) (n - 1)) by (apply cstring_suffix; (done || lia)). rewrite Ht.
  rewrite bind_Ret, Hp, bind_Ret. reflexivity.
Qed.

Lemma acl_loop b ip rs : 0 <= ip < 2 ^ 32 -> Forall rule_ok rs -> forall fuel l n allowed,
  cstring b l n -> slice b l n = acl_text rs -> (length rs < fuel)%nat ->
  loop fuel (acl_step b ip) (Some l, allowed) = Ret (if verdict ip allowed rs =? 43 then 1 else 0).
Proof.
  intros Hip Hrs. induction rs as [|r rs IH]; intros fuel l n allowed Hc Hs Hf; (destruct fuel as [|fuel]; [simpl in Hf; lia|]); rewrite loop_S.
  - assert (n = 0) as -> by (pose proof Hc as (Hl & Hn & Hb & _); apply (f_equal size) in Hs; rewrite size_slice in Hs by lia; done).
    pose proof Hc as (Hl & Hn & Hb & _ & H0). rewrite Z.add_0_r in H0. unfold acl_step, mg_next_comma_list_entry. by rewrite (rd_ib b l 0).
  - apply Forall_cons_1 in Hrs as [Hr Hrs]. destruct (acl_step_rule b ip l n allowed r rs) as (l' & n' & Hc' & Hs' & ->); [done..|].
    rewrite (IH Hrs fuel l' n') by (done || (simpl in Hf; lia)). done.
Qed.

Lemma acl_text_length rs : (length rs <= length (acl_text rs))%nat.
Proof. induction rs as [|r rs IH]; [done|]. rewrite acl_text_cons, length_app. unfold rule_text at 1. destruct rs; simpl in *; lia. Qed.

Lemma acl_text_no_nul rs : Forall rule_ok rs -> 0 ∉ acl_text rs.
Proof.
  induction 1 as [|r rs Hr Hrs IH]; [apply not_elem_of_nil|]. rewrite acl_text_cons, not_elem_of_app. unfold rule_text. rewrite not_elem_of_cons.
  split; [split; [destruct (ro_sign r Hr); lia|apply net_text_no; lia]|]. destruct rs; [apply not_elem_of_nil|]. rewrite not_elem_of_cons. by split.
Qed.

(** C37: an access control list of rules "+a.b.c.d/n" and "+a.b.c.d", whose networks
    have no bits behind the mask, decides by the last rule whose network holds the
    address; when there are rules and none does, the answer is no, and without a
    list it is yes. *)
Theorem mg_check_ip_acl_last_match pre rs post ip : 0 <= ip < 2 ^ 32 -> Forall rule_ok rs ->
  mg_check_ip_acl (pre ++ acl_text rs ++ 0 :: post) (Some (size pre)) ip =
    Ret (if verdict ip (if bool_decide (rs = []) then 43 else 45) rs =? 43 then 1 else 0) /\
  mg_check_ip_acl (pre ++ acl_text rs ++ 0 :: post) None ip = Ret 1.
Proof.
  intros Hip Hrs. split; [|done]. set (b := pre ++ acl_text rs ++ 0 :: post). unfold mg_check_ip_acl.
  pose proof (size_nonneg pre). pose proof (size_nonneg (acl_text rs)). pose proof (size_nonneg post).
  assert (cstring b (size pre) (size (acl_text rs))) as Hc.
  { split_and!; [done|done| | |].
    - subst b. rewrite !size_app, size_cons. lia.
    - subst b. rewrite slice_mid by done. by apply acl_text_no_nul.
    - subst b. rewrite app_assoc, lookup_app_r by (rewrite length_app; unfold size; lia). rewrite length_app. unfold size. by replace (_ - _)%nat with 0%nat by lia. }
  assert ((c ← rd b (size pre); mret (if c =? 0 then 43 else 45)) = Ret (if bool_decide (rs = []) then 43 else 45)) as ->.
  { subst b. destruct rs as [|r rs]; [cbn [acl_text app]; by rewrite rd_at0|]. rewrite acl_text_cons. unfold rule_text. cbn [app]. rewrite rd_at0.
    apply Forall_cons_1 in Hrs as [Hr _]. cbn [mbind outcome_bind]. rewrite (proj2 (Z.eqb_neq (sign r) 0)) by (destruct (ro_sign r Hr); lia). done. }
  cbn [mbind outcome_bind]. apply (acl_loop b ip rs Hip Hrs _ _ (size (acl_text rs))); [done|subst b; by rewrite slice_mid|].
  pose proof (acl_text_length rs). subst b. rewrite !length_app. simpl. lia.
Qed.

Definition sample_rules : list rule := [mk_rule 45 0 0 0 0 (Some 0); mk_rule 43 192 168 0 0 (Some 16); mk_rule 45 192 168 7 0 None].

Lemma sample_rules_ok : Forall rule_ok sample_rules.
Proof. repeat constructor; cbn; unfold is_octet; lia. Qed.

Lemma mg_check_ip_acl_last_match_witness :
  mg_check_ip_acl (lit "x" ++ acl_text sample_rules ++ 0 :: []) (Some (size (lit "x"))) 3232236290 =
    Ret (if verdict 3232236290 (if bool_decide (sample_rules = []) then 43 else 45) sample_rules =? 43 then 1 else 0) /\
  mg_check_ip_acl (lit "x" ++ acl_text sample_rules ++ 0 :: []) None 3232236290 = Ret 1.
Proof. apply (mg_check_ip_acl_last_match (lit "x") sample_rules [] 3232236290); [lia|apply sample_rules_ok]. Defined.
