(* ===== verification/Dns.v ===== *)
(** * DNS messages (mongoose.c, dns.c and dns-server.c)

    Encoding and parsing of questions and records, compressed names, the event
    handler and the replies of the server.  A packet is parsed in place: names
    and data are offsets in the object [b] that holds it.  A buffer that grows is
    an [mbuf] with the answers of its allocator, the [conn] of [Conn]. *)

From Stdlib Require Import ZArith Lia String.
From stdpp Require Import base list numbers option.
From S2P Require Import Prelude Strs Mbuf Conn.

Local Open Scope Z_scope.

(** ** The code *)

Definition MG_DNS_A_RECORD : Z := 0x01.
Definition MG_DNS_CNAME_RECORD : Z := 0x05.
Definition MG_MAX_DNS_QUESTIONS : Z := 32.
Definition MG_MAX_DNS_ANSWERS : Z := 32.
Definition MG_DNS_MESSAGE : Z := 100.

Inductive mg_dns_resource_record_kind := MG_DNS_INVALID_RECORD | MG_DNS_QUESTION | MG_DNS_ANSWER.

#[export] Instance kind_eq_dec : EqDecision mg_dns_resource_record_kind.
Proof. solve_decision. Defined.

Record mg_dns_resource_record := mk_rr {
  rr_name : mg_str; rtype : Z; rclass : Z; ttl : Z; kind : mg_dns_resource_record_kind; rdata : mg_str
}.
Definition rr0 : mg_dns_resource_record := mk_rr (mk_str None 0) 0 0 0 MG_DNS_INVALID_RECORD (mk_str None 0).

Record mg_dns_message := mk_dns {
  pkt : mg_str; dflags : Z; transaction_id : Z; num_questions : Z; num_answers : Z;
  questions : list mg_dns_resource_record; dns_answers : list mg_dns_resource_record
}.
Definition dns0 : mg_dns_message :=
  mk_dns (mk_str None 0) 0 0 0 0 (replicate (Z.to_nat MG_MAX_DNS_QUESTIONS) rr0) (replicate (Z.to_nat MG_MAX_DNS_ANSWERS) rr0).

(** Bytes in memory of a 16-bit value in network order, of a 32-bit one, and of
    a 16-bit value in the order of the machine, little endian. *)
Definition net16 (v : Z) : list Z := [u16 v / 256; u16 v mod 256].
Definition net32 (v : Z) : list Z := [u32 v / 2 ^ 24; u32 v / 2 ^ 16 mod 256; u32 v / 256 mod 256; u32 v mod 256].
Definition host16 (v : Z) : list Z := [u16 v mod 256; u16 v / 256].

(** The first record of the type [query] after [prev], by index. *)
Definition mg_dns_next_record (msg : mg_dns_message) (query : Z) (prev : option Z) : outcome (option Z) :=
  loop (S (Z.to_nat (num_answers msg))) (fun rr =>
    if rr <? num_answers msg then
      r ← rd (dns_answers msg) rr;
      if rtype r =? query then mret (inr (Some rr)) else mret (inl (rr + 1))
    else mret (inr None)) (match prev with None => 0 | Some i => i + 1 end).

(** *** Compressed names *)

(** One turn of the loop; the state is [data], [dst] and the destination, a new
    turn reads the next length.  [off] and the pointers are offsets. *)
Definition uncompress_step (b : list Z) (pk : mg_str) (base dst_len : Z) (st : Z * Z * list Z) :
    outcome (Z * Z * list Z + Z * list Z * bool) :=
  let '(data, dst, d) := st in
  let e := base + Strs.len pk in
  chunk_len ← rd b data;
  let data := data + 1 in
  if chunk_len =? 0 then mret (inr (dst, d, true)) else
  let leeway := dst_len - dst in
  if data >=? e then mret (inr (0, d, false)) else
  if negb (Z.land chunk_len 0xc0 =? 0) then
    lo ← rd b data;
    let off := Z.lor (Z.shiftl (Z.land chunk_len 0x3f) 8) lo in
    if off >=? Strs.len pk then mret (inr (0, d, false)) else mret (inl (base + off, dst, d))
  else
  let chunk_len := if chunk_len >? leeway then leeway else chunk_len in
  if data + chunk_len >=? e then mret (inr (0, d, false)) else
  d ← memcpy d dst b data chunk_len;
  let data := data + chunk_len in
  let dst := dst + chunk_len in
  let leeway := leeway - chunk_len in
  if leeway =? 0 then mret (inr (dst, d, false)) else
  d ← wr d dst 46;
  mret (inl (data, dst + 1, d)).

(** The length of the name and the destination.  The C loop has no bound:
    [fuel] bounds it here. *)
Definition mg_dns_uncompress_name (fuel : nat) (b : list Z) (msg : mg_dns_message) (name : mg_str) (d : list Z) (dst_len : Z) : outcome (Z * list Z) :=
  deref (p (pkt msg)) (fun base => deref (p name) (fun data =>
    if data >=? base + Strs.len (pkt msg) then mret (0, d) else
    '(dst, d, finish) ← loop fuel (uncompress_step b (pkt msg) base dst_len) (data, 0, d);
    if negb finish then mret (dst, d) else
    if negb (dst =? 0) then d ← wr d (dst - 1) 0; mret (dst - 1, d) else mret (dst, d))).

(** The result and [*data]. *)
Definition mg_dns_parse_record_data (fuel : nat) (b : list Z) (msg : mg_dns_message) (rr : mg_dns_resource_record) (data : list Z) (data_len : Z) :
    outcome (Z * list Z) :=
  if rtype rr =? MG_DNS_A_RECORD then
    if data_len <? 4 then mret (-1, data) else
    deref (p (rdata rr)) (fun q => deref (p (pkt msg)) (fun base =>
      if q + data_len >? base + Strs.len (pkt msg) then mret (-1, data) else
      data ← memcpy data 0 b q data_len; mret (0, data)))
  else if rtype rr =? MG_DNS_CNAME_RECORD then
    '(_, data) ← mg_dns_uncompress_name fuel b msg (rdata rr) data (s32 data_len); mret (0, data)
  else mret (-1, data).

(** *** Parsing *)

(** "while (data < end && (chunk_len = *data))" *)
Definition skip_name (b : list Z) (data e : Z) : outcome Z :=
  loop (S (length b)) (fun data =>
    if data <? e then
      chunk_len ← rd b data;
      if chunk_len =? 0 then mret (inr data) else
      if negb (Z.land chunk_len 0xc0 =? 0) then mret (inr (data + 1)) else mret (inl (data + chunk_len + 1))
    else mret (inr data)) data.

Definition rd16 (b : list Z) (i : Z) : outcome Z := hi ← rd b i; lo ← rd b (i + 1); mret (Z.lor (Z.shiftl hi 8) lo).

(** The offset after the record, [None] for NULL, and the record. *)
Definition mg_parse_dns_resource_record (b : list Z) (data e : Z) (rr : mg_dns_resource_record) (reply : bool) : outcome (option Z * mg_dns_resource_record) :=
  let name := data in
  data ← skip_name b data e;
  if data >? e - 5 then mret (None, rr) else
  let rr := mk_rr (mk_str (Some name) (data - name + 1)) (rtype rr) (rclass rr) (ttl rr) (kind rr) (rdata rr) in
  let data := data + 1 in
  t ← rd16 b data; let data := data + 2 in
  c ← rd16 b data; let data := data + 2 in
  let rr := mk_rr (rr_name rr) t c (ttl rr) (if reply then MG_DNS_ANSWER else MG_DNS_QUESTION) (rdata rr) in
  if reply then
    if data >=? e - 6 then mret (None, rr) else
    h ← rd16 b data; l ← rd16 b (data + 2); let data := data + 4 in
    data_len ← rd16 b data; let data := data + 2 in
    mret (Some (data + data_len), mk_rr (rr_name rr) (rtype rr) (rclass rr) (s32 (h * 2 ^ 16 + l)) (kind rr) (mk_str (Some data) data_len))
  else mret (Some data, rr).

(** The loops over the questions and over the answers. *)
Fixpoint parse_records (b : list Z) (data e : Z) (reply : bool) (n : nat) (i : Z) (rs : list mg_dns_resource_record) : outcome (option Z * list mg_dns_resource_record) :=
  match n with
  | O => mret (Some data, rs)
  | S n =>
      r ← rd rs i;
      '(q, r) ← mg_parse_dns_resource_record b data e r reply;
      rs ← wr rs i r;
      match q with None => mret (None, rs) | Some data => parse_records b data e reply n (i + 1) rs end
  end.

Definition mg_parse_dns (b : list Z) (buf len : Z) : outcome (Z * mg_dns_message) :=
  let msg := mk_dns (mk_str (Some buf) len) 0 0 0 0 (questions dns0) (dns_answers dns0) in
  if len <? 12 then mret (-1, msg) else
  lo ← rd b buf; hi ← rd b (buf + 1);
  let id := hi * 256 + lo in
  fl ← rd16 b (buf + 2);
  nq ← rd16 b (buf + 4);
  let nq := if nq >? MG_MAX_DNS_QUESTIONS then MG_MAX_DNS_QUESTIONS else nq in
  na ← rd16 b (buf + 6);
  let na := if na >? MG_MAX_DNS_ANSWERS then MG_MAX_DNS_ANSWERS else na in
  let e := buf + len in
  '(q, qs) ← parse_records b (buf + 12) e false (Z.to_nat nq) 0 (questions msg);
  match q with
  | None => mret (-1, mk_dns (pkt msg) fl id nq na qs (dns_answers msg))
  | Some data =>
      '(q, rs) ← parse_records b data e true (Z.to_nat na) 0 (dns_answers msg);
      mret (match q with None => -1 | Some _ => 0 end, mk_dns (pkt msg) fl id nq na qs rs)
  end.

(** *** Encoding *)

Definition append (io : conn) (l : list Z) (n : Z) : outcome conn := on_send_mbuf io (fun r m => mbuf_append r m (Some l) n).

Definition mg_dns_header_bytes (msg : mg_dns_message) : list Z :=
  host16 (transaction_id msg) ++ net16 (dflags msg) ++ net16 (num_questions msg) ++ net16 (num_answers msg) ++ [0; 0] ++ [0; 0].
Definition mg_dns_insert_header (io : conn) (pos : Z) (msg : mg_dns_message) : outcome conn :=
  on_send_mbuf io (fun r m => mbuf_insert r m pos (Some (mg_dns_header_bytes msg)) 12).

(** The questions are copied from the packet of the message, in [b]. *)
Definition mg_dns_copy_questions (b : list Z) (io : conn) (msg : mg_dns_message) : outcome conn :=
  if num_questions msg <=? 0 then mret io else
  last_q ← rd (questions msg) (num_questions msg - 1);
  deref (p (pkt msg)) (fun base => deref (p (rr_name last_q)) (fun q =>
    let begin := base + 12 in
    let e := q + Strs.len (rr_name last_q) + 4 in
    append io (drop (Z.to_nat begin) b) (u64 (e - begin)))).

(** One label; [nm] is the object of the string. *)
Definition encode_name_step (nm : list Z) (st : conn * Z * Z) : outcome (conn * Z * Z + conn * bool) :=
  let '(io, name, len) := st in
  dot ← strchr nm name 46;
  let s := match dot with Some k => k | None => name + len end in
  if s - name >? 127 then mret (inr (io, false)) else
  let n := u8 (s - name) in
  io ← append io [n] 1;
  io ← append io (drop (Z.to_nat name) nm) n;
  c ← rd nm s;
  let n := if c =? 46 then u8 (n + 1) else n in
  let name := name + n in
  let len := u64 (len - n) in
  if negb (c =? 0) then mret (inl (io, name, len)) else mret (inr (io, true)).

(** The bytes written, or -1. *)
Definition mg_dns_encode_name (io : conn) (nm : list Z) (len : Z) : outcome (conn * Z) :=
  let pos := mb_len (send_mbuf io) in
  '(io, ok) ← loop (S (length nm)) (encode_name_step nm) (io, 0, len);
  if negb ok then mret (io, -1) else
  io ← append io [0] 1;
  mret (io, s32 (u64 (mb_len (send_mbuf io) - pos))).

Definition mg_dns_encode_record (io : conn) (rr : mg_dns_resource_record) (name : list Z) (nlen : Z) (data : list Z) (rlen : Z) : outcome (conn * Z) :=
  let pos := mb_len (send_mbuf io) in
  if decide (kind rr = MG_DNS_INVALID_RECORD) then mret (io, -1) else
  '(io, n) ← mg_dns_encode_name io name nlen;
  if n =? -1 then mret (io, -1) else
  io ← append io (net16 (rtype rr)) 2;
  io ← append io (net16 (rclass rr)) 2;
  '(io, ok) ← (if decide (kind rr = MG_DNS_ANSWER) then
      io ← append io (net32 (ttl rr)) 4;
      if rtype rr =? MG_DNS_CNAME_RECORD then
        let off := mb_len (send_mbuf io) in
        io ← append io (net16 (rclass rr)) 2;
        '(io, clen) ← mg_dns_encode_name io data rlen;
        if clen =? -1 then mret (io, false) else
        b ← wr (mb_buf (send_mbuf io)) off (u16 clen / 256);
        b ← wr b (off + 1) (u16 clen mod 256);
        let m := send_mbuf io in
        mret (mk_conn (mk_mbuf (mb_addr m) b (mb_len m) (mb_size m)) (answers io), true)
      else
        io ← append io (net16 rlen) 2;
        io ← append io data rlen;
        mret (io, true)
    else mret (io, true));
  if negb ok then mret (io, -1) else mret (io, s32 (u64 (mb_len (send_mbuf io) - pos))).

(** [tid] is the static counter; [fresh] the allocator of the packet, whose first
    answer is for [mbuf_init]. *)
Definition mg_send_dns_query (udp : bool) (tid : Z) (fresh : nat -> option block) (nc : conn) (name : list Z) (nlen query_type : Z) : outcome (conn * Z) :=
  tid ← int (tid + 1);
  let pk := mk_conn (mbuf_init (fresh O) 64) (fun i => fresh (S i)) in
  let msg := mk_dns (mk_str None 0) 0x100 (u16 tid) 1 0 (questions dns0) (dns_answers dns0) in
  pk ← mg_dns_insert_header pk 0 msg;
  let rr := mk_rr (mk_str None 0) query_type 1 0 MG_DNS_QUESTION (mk_str None 0) in
  '(pk, n) ← mg_dns_encode_record pk rr name nlen [] 0;
  if n =? -1 then mret (nc, tid) else
  pk ← (if udp then mret pk else on_send_mbuf pk (fun r m => mbuf_insert r m 0 (Some (net16 (mb_len m))) 2));
  nc ← mg_send udp nc (mb_buf (send_mbuf pk)) (mb_len (send_mbuf pk));
  mret (nc, tid).

(** *** The event handler and the server *)

(** [recv] and [nc] are the receive buffer and the sending side; [user] is the
    effect of the user's handler on both.  The list is its calls. *)
Definition dns_handler (user : conn -> conn -> Z -> option mg_dns_message -> conn * conn) (udp : bool) (recv nc : conn) (ev : Z) :
    outcome (list (Z * option mg_dns_message) * conn * conn) :=
  let '(recv, nc) := user recv nc ev None in
  if negb (ev =? MG_EV_RECV) then mret ([(ev, None)], recv, nc) else
  recv ← (if udp then mret recv else m ← mbuf_remove (send_mbuf recv) 2; mret (mk_conn m (answers recv)));
  '(r, msg) ← mg_parse_dns (mb_buf (send_mbuf recv)) 0 (s32 (mb_len (send_mbuf recv)));
  '(calls, recv, nc) ← (if r =? -1 then
      let msg := mk_dns (mk_str None 0) 0x8081 0 0 0 (questions dns0) (dns_answers dns0) in
      recv ← mg_dns_insert_header recv 0 msg;
      recv ← (if udp then mret recv else on_send_mbuf recv (fun r m => mbuf_insert r m 0 (Some (net16 (mb_len m))) 2));
      nc ← mg_send udp nc (mb_buf (send_mbuf recv)) (mb_len (send_mbuf recv));
      mret ([(ev, None)], recv, nc)
    else
      let '(recv, nc) := user recv nc MG_DNS_MESSAGE (Some msg) in
      mret ([(ev, None); (MG_DNS_MESSAGE, Some msg)], recv, nc));
  m ← mbuf_remove (send_mbuf recv) (mb_len (send_mbuf recv));
  mret (calls, mk_conn m (answers recv), nc).

Record mg_dns_reply := mk_reply { rep_io : conn; rep_start : Z; rep_msg : mg_dns_message }.

Definition mg_dns_create_reply (b : list Z) (io : conn) (msg : mg_dns_message) : outcome mg_dns_reply :=
  let start := mb_len (send_mbuf io) in
  let msg := mk_dns (pkt msg) (Z.lor (dflags msg) 0x8080) (transaction_id msg) (num_questions msg) (num_answers msg) (questions msg) (dns_answers msg) in
  io ← mg_dns_copy_questions b io msg;
  mret (mk_reply io start (mk_dns (pkt msg) (dflags msg) (transaction_id msg) (num_questions msg) 0 (questions msg) (dns_answers msg))).

(** A reply built in a buffer of its own; one built in [nc->send_mbuf] is not
    sent again. *)
Definition mg_dns_send_reply (udp own : bool) (nc : conn) (r : mg_dns_reply) : outcome (conn * conn) :=
  let sent := u64 (mb_len (send_mbuf (rep_io r)) - rep_start r) in
  io ← mg_dns_insert_header (rep_io r) (rep_start r) (rep_msg r);
  io ← (if udp then mret io else on_send_mbuf io (fun a m => mbuf_insert a m (rep_start r) (Some (net16 sent)) 2));
  if own then
    nc ← mg_send udp nc (drop (Z.to_nat (rep_start r)) (mb_buf (send_mbuf io))) (mb_len (send_mbuf io) - rep_start r);
    let m := send_mbuf io in
    mret (nc, mk_conn (mk_mbuf (mb_addr m) (mb_buf m) (rep_start r) (mb_size m)) (answers io))
  else mret (nc, io).

(** [name] is the object of the string, or None for the name of the question.
    [rname] is the uninitialised local array. *)
Definition mg_dns_reply_record (fuel : nat) (b : list Z) (rname : list Z) (r : mg_dns_reply) (question : mg_dns_resource_record) (name : option (list Z))
    (rt tt : Z) (data : list Z) (rdata_len : Z) : outcome (mg_dns_reply * Z) :=
  let msg := rep_msg r in
  if num_answers msg >=? MG_MAX_DNS_ANSWERS then mret (r, -1) else
  nm ← match name with
    | Some nm => mret nm
    | None => rname ← wr rname 511 0; '(_, d) ← mg_dns_uncompress_name fuel b msg (rr_name question) rname 511; mret d
    end;
  let ans := mk_rr (rr_name question) rt (rclass question) tt MG_DNS_ANSWER (rdata question) in
  as_ ← wr (dns_answers msg) (num_answers msg) ans;
  let msg' n := mk_dns (pkt msg) (dflags msg) (transaction_id msg) (num_questions msg) n (questions msg) as_ in
  n ← strlen nm 0;
  '(io, k) ← mg_dns_encode_record (rep_io r) ans nm n data rdata_len;
  if k =? -1 then mret (mk_reply io (rep_start r) (msg' (num_answers msg)), -1)
  else mret (mk_reply io (rep_start r) (msg' (num_answers msg + 1)), 0).

(** A query for a name, as it is sent. *)
Definition query_example : list Z :=
  [161; 0; 1; 0; 0; 1; 0; 0; 0; 0; 0; 0] ++ [3] ++ lit "www" ++ [7] ++ lit "example" ++ [3] ++ lit "com" ++ [0; 0; 1; 0; 1].
Example send_query :
  (match mg_send_dns_query true 0xa0 (fun _ => Some (mk_block 4096 (fun _ => 0))) fresh_conn (lit "www.example.com" ++ [0]) 15 1 with
   Ret (c, tid) => (sent c, tid) | Fault _ => ([], 0) end) = (query_example, 161).
Proof. vm_compute. reflexivity. Qed.

Example parse_query :
  ('(r, msg) ← mg_parse_dns query_example 0 (size query_example);
   q ← rd (questions msg) 0; '(n, d) ← mg_dns_uncompress_name 100 query_example msg (rr_name q) (replicate 20 255) 20;
   mret (r, transaction_id msg, num_questions msg, rtype q, n, d)) = Ret (0, 161, 1, 1, 15, lit "www.example.com" ++ [0; 255; 255; 255; 255]).
Proof. vm_compute. reflexivity. Qed.

(** ** The parser is safe *)

(** A parsed record: its name inside the packet [lo .. e), its fields in the
    ranges of the format; the data of an answer starts inside. *)
Record record_in (lo e : Z) (reply : bool) (r : mg_dns_resource_record) : Prop := {
  ri_name : exists q, p (rr_name r) = Some q /\ lo <= q /\ 0 < Strs.len (rr_name r) /\ q + Strs.len (rr_name r) <= e;
  ri_type : 0 <= rtype r < 2 ^ 16;
  ri_class : 0 <= rclass r < 2 ^ 16;
  ri_kind : kind r = if reply then MG_DNS_ANSWER else MG_DNS_QUESTION;
  ri_data : if reply then exists q, p (rdata r) = Some q /\ lo <= q <= e /\ 0 <= Strs.len (rdata r) < 2 ^ 16 else True
}.

Section parse_safe.
Context (b : list Z) (e : Z) (Hb : bytes b) (He : e <= size b).

Lemma wp_rd16 i (Q : Z -> Prop) : 0 <= i -> i + 2 <= size b -> (forall v, 0 <= v < 2 ^ 16 -> Q v) -> wp (rd16 b i) Q.
Proof using Hb.
  intros Hi Hle HQ. unfold rd16. apply wp_bind, wp_rd; [lia|]. intros hi Hhi. apply wp_bind, wp_rd; [lia|]. intros lo Hlo. apply wp_mret, HQ.
  pose proof (Forall_lookup_1 _ _ _ _ Hb Hhi) as H1. pose proof (Forall_lookup_1 _ _ _ _ Hb Hlo) as H2. unfold is_byte in *.
  rewrite (lor_disjoint 8) by lia. lia.
Qed.

Lemma skip_name_safe data (Q : Z -> Prop) : 0 <= data -> (forall j, data <= j -> Q j) -> wp (skip_name b data e) Q.
Proof using Hb He.
  intros Hd HQ. unfold skip_name.
  apply wp_loop with (m := fun j => Z.to_nat (e - j)) (I := fun j => data <= j); [|lia|unfold size in *; lia].
  intros j Hj. wp_step; [|apply wp_mret; by apply HQ]. apply wp_bind, wp_rd; [lia|]. intros c Hc.
  pose proof (Forall_lookup_1 _ _ _ _ Hb Hc) as Hcb. unfold is_byte in Hcb.
  wp_step; [apply wp_mret; by apply HQ|]. wp_step; apply wp_mret; [apply HQ; lia|lia].
Qed.

Lemma parse_record_safe lo data r reply : 0 <= lo <= data ->
  wp (mg_parse_dns_resource_record b data e r reply) (fun '(q, r') => match q with None => True | Some j => data <= j /\ record_in lo e reply r' end).
Proof using Hb He.
  intros Hd. unfold mg_parse_dns_resource_record. apply wp_bind, skip_name_safe; [lia|]. intros j Hj. rewrite Z.gtb_ltb.
  wp_step; [by apply wp_mret|]. cbv zeta. apply wp_bind, wp_rd16; [lia|lia|]. intros t Ht. apply wp_bind, wp_rd16; [lia|lia|]. intros c Hc.
  destruct reply.
  - wp_step; [by apply wp_mret|]. apply wp_bind, wp_rd16; [lia|lia|]. intros h _. apply wp_bind, wp_rd16; [lia|lia|]. intros l _.
    apply wp_bind, wp_rd16; [lia|lia|]. intros n Hn. apply wp_mret. split; [lia|].
    split; cbn [rr_name rtype rclass kind rdata p Strs.len]; [eexists; split; [done|lia]|done|done|done|eexists; split; [done|lia]].
  - apply wp_mret. split; [lia|]. split; cbn [rr_name rtype rclass kind rdata p Strs.len]; [eexists; split; [done|lia]|done..].
Qed.

Lemma parse_records_safe lo reply n : forall data i rs, 0 <= lo <= data -> 0 <= i -> i + Z.of_nat n <= size rs ->
  (forall k r, 0 <= k < i -> rs !! Z.to_nat k = Some r -> record_in lo e reply r) ->
  wp (parse_records b data e reply n i rs) (fun '(q, rs') => size rs' = size rs /\
    match q with None => True | Some j => data <= j /\ forall k r, 0 <= k < i + Z.of_nat n -> rs' !! Z.to_nat k = Some r -> record_in lo e reply r end).
Proof using Hb He.
  induction n as [|n IH]; intros data i rs Hd Hi Hn Hrs; cbn [parse_records].
  - apply wp_mret. split; [done|]. split; [lia|]. intros k r Hk. apply Hrs. lia.
  - apply wp_bind, wp_rd; [lia|]. intros r0 _. apply wp_bind. eapply wp_mono; [by apply (parse_record_safe lo)|]. intros [q r] Hq.
    apply wp_bind, wp_wr; [lia|]. assert (size (<[Z.to_nat i := r]> rs) = size rs) as Hsz by (unfold size; by rewrite length_insert).
    destruct q as [j|]; [|by apply wp_mret]. destruct Hq as [Hj Hr]. eapply wp_mono; [apply (IH j (i + 1)); [lia|lia|lia|]|].
    + intros k r' Hk Hl. destruct (decide (k = i)) as [->|].
      * rewrite list_lookup_insert_eq in Hl by (unfold size in *; lia). by injection Hl as <-.
      * rewrite list_lookup_insert_ne in Hl by lia. apply (Hrs k); [lia|done].
    + intros [q rs'] [H1 H2]. split; [lia|]. destruct q as [j'|]; [|done]. destruct H2 as [H2 H3]. split; [lia|].
      intros k r' Hk Hl. apply (H3 k); [lia|done].
Qed.
End parse_safe.

(** What [mg_parse_dns] leaves in the message. *)
Record dns_in (buf e : Z) (msg : mg_dns_message) : Prop := {
  di_pkt : pkt msg = mk_str (Some buf) (e - buf);
  di_questions : 0 <= num_questions msg <= 32 /\ size (questions msg) = 32 /\
    forall k r, 0 <= k < num_questions msg -> questions msg !! Z.to_nat k = Some r -> record_in (buf + 12) e false r;
  di_answers : 0 <= num_answers msg <= 32 /\ size (dns_answers msg) = 32 /\
    forall k r, 0 <= k < num_answers msg -> dns_answers msg !! Z.to_nat k = Some r -> record_in (buf + 12) e true r
}.

Lemma wp_parse_dns b buf len : bytes b -> 0 <= buf -> 0 <= len -> buf + len <= size b ->
  wp (mg_parse_dns b buf len) (fun '(r, msg) => r = -1 \/ (r = 0 /\ dns_in buf (buf + len) msg)).
Proof.
  intros Hb Hbuf Hlen Hle.
  unfold mg_parse_dns. wp_step; [apply wp_mret; by left|]. apply wp_bind, wp_rd; [lia|]. intros lo _. apply wp_bind, wp_rd; [lia|]. intros hi _.
  apply wp_bind, (wp_rd16 b Hb); [lia|lia|]. intros fl _. apply wp_bind, (wp_rd16 b Hb); [lia|lia|]. intros nq Hnq. apply wp_bind, (wp_rd16 b Hb); [lia|lia|]. intros na Hna.
  cbv zeta. unfold MG_MAX_DNS_QUESTIONS, MG_MAX_DNS_ANSWERS. rewrite !Z.gtb_ltb.
  set (nq' := if 32 <? nq then 32 else nq). set (na' := if 32 <? na then 32 else na).
  assert (0 <= nq' <= 32 /\ 0 <= na' <= 32) as [H1 H2] by (unfold nq', na'; split; case_match; lia).
  apply wp_bind. eapply wp_mono; [apply (parse_records_safe b (buf + len) Hb Hle (buf + 12)); [lia|lia|change (size (questions _)) with 32; lia|lia]|].
  intros [[data|] qs] [Hq1 Hq2]; [|apply wp_mret; by left]. destruct Hq2 as [Hd Hq2].
  apply wp_bind. eapply wp_mono; [apply (parse_records_safe b (buf + len) Hb Hle (buf + 12)); [lia|lia|change (size (dns_answers _)) with 32; lia|lia]|].
  intros [[data2|] rs] [Ha1 Ha2]; apply wp_mret; [|by left]. right. split; [done|]. destruct Ha2 as [_ Ha2].
  split; cbn [pkt num_questions num_answers questions dns_answers]; [f_equal; lia| |].
  - split; [done|]. split; [done|]. intros k r Hk. apply Hq2. lia.
  - split; [done|]. split; [done|]. intros k r Hk. apply Ha2. lia.
Qed.

(** C35: parsing any packet returns and reads nothing outside it.  The answer is
    -1 or 0; when it is 0 the message has at most 32 questions and 32 answers,
    every name lies inside the packet, and the data of every answer starts in
    it (its length is not checked). *)
Theorem mg_parse_dns_safe b buf len : bytes b -> 0 <= buf -> 0 <= len -> buf + len <= size b ->
  exists r msg, mg_parse_dns b buf len = Ret (r, msg) /\ (r = -1 \/ (r = 0 /\ dns_in buf (buf + len) msg)).
Proof. intros Hb Hbuf Hlen Hle. destruct (wp_parse_dns b buf len) as ([r msg] & E & H); [done..|]. by exists r, msg. Qed.

Lemma mg_parse_dns_safe_witness : exists r msg, mg_parse_dns query_example 0 33 = Ret (r, msg) /\ (r = -1 \/ (r = 0 /\ dns_in 0 (0 + 33) msg)).
Proof. apply (mg_parse_dns_safe query_example 0 33); [repeat constructor; lia|lia|lia|discriminate]. Defined.

(** ** Names *)

(** A name is its labels joined with dots; on the wire every label has its
    length in front, and a zero ends them. *)
Fixpoint join (ls : list (list Z)) : list Z :=
  match ls with [] => [] | [l] => l | l :: r => l ++ 46 :: join r end.
Definition enc_labels (ls : list (list Z)) : list Z := concat (map (fun l => size l :: l) ls).
Definition enc_name (ls : list (list Z)) : list Z := enc_labels ls ++ [0].

(** Labels the format can express: not empty, at most 63 bytes. *)
Definition label_ok (l : list Z) : Prop := 0 < size l <= 63 /\ (0 ∉ l) /\ (46 ∉ l).

Definition label_okb (l : list Z) : bool := (0 <? size l) && (size l <=? 63) && forallb (fun x => (0 <? x) && negb (x =? 46)) l.
Lemma label_okb_ok l : label_okb l = true -> label_ok l.
Proof.
  unfold label_okb. intros [[H1 H2]%andb_prop Hl]%andb_prop. split; [lia|]. rewrite forallb_forall in Hl.
  split; intros Hx%list_elem_of_In%Hl; discriminate.
Qed.

Lemma small_label c : 0 <= c < 64 -> Z.land c 0xc0 = 0.
Proof.
  intros Hc. pose proof (range_forallb (fun c => Z.land c 0xc0 =? 0) 64 ltac:(vm_compute; reflexivity) c Hc) as H. cbv beta in H. lia.
Qed.

Lemma label_no_dot l : label_ok l -> (46 ∉ l) /\ l <> [].
Proof. intros (H & _ & Hd). split; [done|]. intros ->. change (size (@nil Z)) with 0 in H. lia. Qed.

Lemma join_no_nul ls : Forall label_ok ls -> 0 ∉ join ls.
Proof.
  induction 1 as [|l ls (_ & H0 & _) Hls IH]; [apply not_elem_of_nil|]. destruct ls as [|l2 ls]; [done|].
  cbn [join]. rewrite not_elem_of_app, not_elem_of_cons. split_and!; done.
Qed.

Lemma join_size ls : Forall label_ok ls -> ls <> [] -> size (join ls) + 1 = size (enc_labels ls).
Proof.
  unfold enc_labels. induction 1 as [|l ls Hl Hls IH]; [done|]. intros _. destruct ls as [|l2 ls].
  - simpl. rewrite app_nil_r, size_cons. lia.
  - cbn [join map concat]. rewrite size_app, (size_cons 46), (size_app (size l :: l)), size_cons. specialize (IH ltac:(done)). cbn [join map concat] in IH. lia.
Qed.

(** One label sent: [c1] is the byte after it in the string. *)
Lemma encode_label nm pre l c1 rest dot c len k : nm = pre ++ l ++ c1 :: rest -> label_ok l ->
  strchr nm (size pre) 46 = Ret dot -> (match dot with Some j => j | None => size pre + len end) = size pre + size l ->
  can_send (size (size l :: l) + k) c -> 0 <= k ->
  let n := if c1 =? 46 then size l + 1 else size l in
  exists c', encode_name_step nm (c, size pre, len) = Ret (if c1 =? 0 then inr (c', true) else inl (c', size pre + n, u64 (len - n))) /\
    sent c' = sent c ++ size l :: l /\ can_send k c'.
Proof.
  intros Hnm (Hl & _) Hdot Hs Hc Hk n. unfold encode_name_step. rewrite Hdot. cbn [mbind outcome_bind]. rewrite Hs.
  replace (size pre + size l - size pre) with (size l) by lia. rewrite Z.gtb_ltb, (proj2 (Z.ltb_ge 127 (size l))) by lia.
  rewrite !u8_small by (unfold is_byte; rewrite ?u8_small by (unfold is_byte; lia); lia).
  pose proof (size_nonneg rest). pose proof (size_nonneg pre).
  assert (drop (Z.to_nat (size pre)) nm = l ++ c1 :: rest) as -> by (rewrite Hnm, size_to_nat; apply drop_app_length).
  assert (slice (l ++ c1 :: rest) 0 (size l) = l) as Esl by apply slice_prefix.
  destruct (sends_bind _ _ _ _ (sends_append [size l] 1 ltac:(done)) (sends_append (l ++ c1 :: rest) (size l) ltac:(rewrite size_app; size_lia)) c k)
    as (c2 & E & Hs2 & Hc2); [rewrite Esl; exact Hc|done|]. rewrite Esl in Hs2. exists c2. split; [|done].
  unfold append. destruct (on_send_mbuf c _) as [c1'|]; cbn [mbind outcome_bind] in *; [|done]. rewrite E. cbn [mbind outcome_bind].
  assert (rd nm (size pre + size l) = Ret c1) as ->
    by (rewrite Hnm; apply rd_at; [lia|]; by rewrite size_to_nat, lookup_app_r, Nat.sub_diag by lia).
  cbn [mbind outcome_bind]. unfold n. by destruct (c1 =? 0), (c1 =? 46).
Qed.

Lemma join_cstring nm pre ls r : Forall label_ok ls -> nm = pre ++ join ls ++ 0 :: r ->
  cstring nm (size pre) (size (join ls)) /\ slice nm (size pre) (size (join ls)) = join ls.
Proof.
  intros Hls ->. pose proof (size_nonneg pre). pose proof (size_nonneg r). pose proof (size_nonneg (join ls)).
  assert (slice (pre ++ join ls ++ 0 :: r) (size pre) (size (join ls)) = join ls) as E by by apply slice_mid.
  split; [|done]. split_and!; [lia|lia|rewrite !size_app, size_cons; lia|rewrite E; by apply join_no_nul|].
  rewrite app_assoc. rewrite lookup_app_r by (rewrite length_app; unfold size; lia).
  by replace (_ - _)%nat with 0%nat by (rewrite length_app; unfold size; lia).
Qed.

(** Encoding a name, from any place of the string. *)
Lemma encode_labels nm r : forall ls pre fuel c k, Forall label_ok ls -> ls <> [] -> nm = pre ++ join ls ++ 0 :: r ->
  size (join ls) < 2 ^ 31 -> can_send (size (enc_labels ls) + k) c -> 0 <= k -> (length ls < fuel)%nat ->
  exists c', loop fuel (encode_name_step nm) (c, size pre, size (join ls)) = Ret (c', true) /\ sent c' = sent c ++ enc_labels ls /\ can_send k c'.
Proof.
  induction ls as [|l ls IH]; intros pre fuel c k Hls Hne Hnm Hlt Hc Hk Hf; [done|]. destruct fuel as [|fuel]; [simpl in Hf; lia|].
  destruct (join_cstring nm pre (l :: ls) r Hls Hnm) as [Hcs Hsl]. apply Forall_cons_1 in Hls as [Hl Hls]. pose proof Hl as (_ & _ & Hdot).
  rewrite loop_S. pose proof (size_nonneg (enc_labels ls)). unfold enc_labels in Hc. cbn [map concat] in Hc. fold (enc_labels ls) in Hc.
  rewrite size_app, <- Z.add_assoc in Hc. destruct ls as [|l2 ls].
  - cbn [join] in Hcs, Hsl, Hnm.
    destruct (encode_label nm pre l 0 r None c (size l) k Hnm Hl) as (c' & E & Hs & Hc');
      [apply (strchr_miss _ _ (size l)); [done|done|by rewrite Hsl]|done|exact Hc|done|].
    exists c'. cbn [join]. rewrite E. cbn [mbind outcome_bind Z.eqb]. unfold enc_labels. cbn [map concat]. by rewrite app_nil_r.
  - set (t := join (l2 :: ls)) in *. change (join (l :: l2 :: ls)) with (l ++ 46 :: t) in *. pose proof (size_nonneg t).
    destruct (encode_label nm pre l 46 (t ++ 0 :: r) (Some (size pre + size l)) c (size (l ++ 46 :: t)) (size (enc_labels (l2 :: ls)) + k)) as (c' & E & Hs & Hc');
      [by rewrite Hnm, <- app_assoc|done|by apply (strchr_hit _ _ (size (l ++ 46 :: t)) _ _ t)|done|exact Hc|lia|].
    rewrite E. cbn [mbind outcome_bind Z.eqb Pos.eqb]. rewrite size_app, size_cons in Hlt |- *. pose proof (size_nonneg l).
    rewrite u64_small by lia. replace (size l + (1 + size t) - (size l + 1)) with (size t) by lia.
    destruct (IH (pre ++ l ++ [46]) fuel c' k Hls) as (c3 & E3 & Hs3 & Hc3); [done|rewrite Hnm; by rewrite <- !app_assoc|lia|done|done|simpl in *; lia|].
    replace (size pre + (size l + 1)) with (size (pre ++ l ++ [46])) by (rewrite !size_app; change (size [46]) with 1; lia).
    exists c3. split; [exact E3|]. split; [|done]. by rewrite Hs3, Hs, <- app_assoc.
Qed.

(** *** Compressed names *)

(** [wire_name i ls]: the packet of [plen] bytes at [base] has at [i] the name
    with the labels [ls], the end of it possibly a pointer to another place. *)
Inductive wire_name (b : list Z) (base plen : Z) : Z -> list (list Z) -> Prop :=
  | wire_end i : 0 <= i -> b !! Z.to_nat i = Some 0 -> wire_name b base plen i []
  | wire_label i l ls : 0 <= i -> label_ok l -> slice b i (1 + size l) = size l :: l -> i + 1 + size l < base + plen ->
      wire_name b base plen (i + 1 + size l) ls -> wire_name b base plen i (l :: ls)
  | wire_pointer i hi lo ls : 0 <= i -> i + 1 < base + plen -> b !! Z.to_nat i = Some hi -> b !! Z.to_nat (i + 1) = Some lo ->
      Z.land hi 0xc0 <> 0 -> Z.lor (Z.shiftl (Z.land hi 0x3f) 8) lo < plen ->
      wire_name b base plen (base + Z.lor (Z.shiftl (Z.land hi 0x3f) 8) lo) ls -> wire_name b base plen i ls.

Definition dotted (ls : list (list Z)) : list Z := concat (map (fun l => l ++ [46]) ls).

Lemma dotted_join ls : ls <> [] -> dotted ls = join ls ++ [46].
Proof.
  unfold dotted. induction ls as [|l ls IH]; [done|intros _]. destruct ls as [|l2 ls]; [cbn; by rewrite app_nil_r|].
  change (join (l :: l2 :: ls)) with (l ++ 46 :: join (l2 :: ls)). cbn [map concat] in *. rewrite IH by done. by rewrite <- !app_assoc.
Qed.

Section uncompress.
Context (b : list Z) (base plen dst_len : Z) (pk : mg_str) (d : list Z).
Context (Hpk : pk = mk_str (Some base) plen) (Hin : base + plen <= size b) (Hd : dst_len <= size d).

(** A label: it is copied, with a dot. *)
Lemma uncompress_label i l out : 0 <= i -> label_ok l -> slice b i (1 + size l) = size l :: l -> i + 1 + size l < base + plen ->
  size out + size l < dst_len ->
  uncompress_step b pk base dst_len (i, size out, fill d out) = Ret (inl (i + 1 + size l, size (out ++ l ++ [46]), fill d (out ++ l ++ [46]))).
Proof using Hpk Hin Hd.
  intros Hi ([Hl1 Hl2] & _) Hs Hlt Hroom. pose proof (size_nonneg out). subst pk. unfold uncompress_step. cbn [Strs.len].
  assert (b !! Z.to_nat i = Some (size l)) as H0
    by (rewrite <- (Z.add_0_r i), <- (lookup_slice b i (1 + size l) 0) by lia; by rewrite Hs).
  rewrite (rd_ib b i (size l)) by done.
  assert (slice b (i + 1) (size l) = l) as Hl.
  { rewrite (slice_cons b i _ (size l)) in Hs by (try done; lia). injection Hs as Hs. by replace (1 + size l - 1) with (size l) in Hs by lia. }
  cbn [mbind outcome_bind]. rewrite (proj2 (Z.eqb_neq (size l) 0)), !Z.geb_leb, !Z.gtb_ltb by lia.
  rewrite (proj2 (Z.leb_gt _ (i + 1))) by lia. rewrite small_label by lia. cbn [Z.eqb negb].
  rewrite (proj2 (Z.ltb_ge _ (size l))) by lia. rewrite (proj2 (Z.leb_gt _ (i + 1 + size l))) by lia.
  rewrite memcpy_fill by lia. cbn [mbind outcome_bind]. rewrite Hl, (proj2 (Z.eqb_neq (dst_len - _ - _) 0)) by lia.
  rewrite wr_fill by (rewrite size_app; lia). cbn [mbind outcome_bind mret outcome_ret]. rewrite !size_app, app_assoc. do 4 f_equal. change (size [46]) with 1. lia.
Qed.

(** The loop: the labels go to the destination, each with a dot. *)
Lemma uncompress_loop i ls : bytes b -> 0 <= base -> wire_name b base plen i ls -> forall out, size out + size (dotted ls) <= dst_len ->
  exists fuel, loop fuel (uncompress_step b pk base dst_len) (i, size out, fill d out) = Ret (size (out ++ dotted ls), fill d (out ++ dotted ls), true).
Proof using Hpk Hin Hd.
  intros Hb Hbase. induction 1 as [i Hi H0|i l ls Hi Hl Hs Hlt _ IH|i hi lo ls Hi Hlt Hhi Hlo Hptr Hoff _ IH]; intros out Hroom.
  - exists 1%nat. rewrite loop_S. unfold uncompress_step. rewrite (rd_ib _ _ _ Hi H0). cbn. by rewrite app_nil_r.
  - unfold dotted in Hroom |- *. cbn [map concat] in Hroom |- *. fold (dotted ls) in Hroom |- *. rewrite !size_app in Hroom. change (size [46]) with 1 in Hroom.
    pose proof (size_nonneg (dotted ls)). destruct (IH (out ++ l ++ [46])) as (fuel & E); [rewrite !size_app; change (size [46]) with 1; lia|].
    exists (S fuel). rewrite loop_S, (uncompress_label i l) by (try done; lia). rewrite E. by rewrite <- !app_assoc.
  - destruct (IH out Hroom) as (fuel & E). exists (S fuel). rewrite loop_S. unfold uncompress_step. rewrite (rd_ib _ _ _ Hi Hhi). cbn [mbind outcome_bind].
    destruct (Z.eqb_spec hi 0) as [->|]; [done|]. subst pk. cbn [Strs.len] in *. rewrite !Z.geb_leb, (proj2 (Z.leb_gt _ (i + 1))) by lia.
    rewrite (proj2 (Z.eqb_neq _ 0) Hptr). cbn [negb]. rewrite (rd_ib b (i + 1) lo) by (done || lia). cbn [mbind outcome_bind].
    rewrite Z.geb_leb, (proj2 (Z.leb_gt _ _) Hoff). exact E.
Qed.
End uncompress.

(** A name on the wire, with or without pointers, is written to the
    destination as its labels joined with dots and a zero, and the length is
    returned, when the name and its zero fit; nothing after them changes and
    the loop ends. *)
Theorem mg_dns_uncompress_name_spec b base plen msg i n ls d dst_len : bytes b -> 0 <= base -> base + plen <= size b -> i < base + plen ->
  pkt msg = mk_str (Some base) plen -> wire_name b base plen i ls -> ls <> [] -> size (join ls) < dst_len <= size d ->
  exists fuel0, forall fuel, (fuel0 <= fuel)%nat ->
    mg_dns_uncompress_name fuel b msg (mk_str (Some i) n) d dst_len = Ret (size (join ls), fill d (join ls ++ [0])).
Proof.
  intros Hb Hbase Hin Hi Hpk Hw Hne Hd. pose proof (dotted_join ls Hne) as Hdot. pose proof (size_nonneg (join ls)).
  destruct (uncompress_loop b base plen dst_len (pkt msg) d Hpk Hin (proj2 Hd) i ls Hb Hbase Hw []) as (fuel0 & E).
  { rewrite Hdot, size_app. change (size (@nil Z)) with 0. change (size [46]) with 1. lia. }
  exists fuel0. intros fuel Hf. apply (loop_mono _ _ fuel) in E; [|done]. unfold mg_dns_uncompress_name. rewrite Hpk in E |- *. cbn [p deref Strs.len].
  rewrite Z.geb_leb, (proj2 (Z.leb_gt _ i)) by lia. rewrite fill_nil in E. change (size (@nil Z)) with 0 in E. rewrite E. cbn [mbind outcome_bind negb app].
  rewrite Hdot, size_app. change (size [46]) with 1. rewrite (proj2 (Z.eqb_neq (size (join ls) + 1) 0)), Z.add_simpl_r by lia. cbn [negb].
  unfold fill. rewrite <- app_assoc. cbn [app]. rewrite wr_after by done. cbn [mbind outcome_bind]. by rewrite <- app_assoc, !length_app.
Qed.

(** A response whose answer's name points back to the question. *)
Definition pointer_example : list Z := query_example ++ [192; 12].
Lemma mg_dns_uncompress_name_spec_witness : exists fuel0, forall fuel, (fuel0 <= fuel)%nat ->
  mg_dns_uncompress_name fuel pointer_example (mk_dns (mk_str (Some 0) 35) 0 0 0 0 [] []) (mk_str (Some 33) 2) (replicate 20 255) 20
  = Ret (size (join [lit "www"; lit "example"; lit "com"]), fill (replicate 20 255) (join [lit "www"; lit "example"; lit "com"] ++ [0])).
Proof.
  apply (mg_dns_uncompress_name_spec pointer_example 0 35 _ 33 2 [lit "www"; lit "example"; lit "com"]); [|lia|vm_compute; discriminate|lia|reflexivity| |discriminate|vm_compute; split; [reflexivity|discriminate]].
  { apply (bool_decide_eq_true_1 _); vm_compute; reflexivity. }
  apply (wire_pointer _ _ _ 33 192 12); [lia|lia|reflexivity|reflexivity|discriminate|reflexivity|].
  repeat (apply wire_label; [vm_compute; discriminate|by apply label_okb_ok|reflexivity|reflexivity|]).
  apply wire_end; [vm_compute; discriminate|reflexivity].
Defined.

(** A name that is a pointer to itself makes the loop of
    [mg_dns_uncompress_name] run for ever: no number of turns is enough, whatever
    the packet holds otherwise. *)
Theorem mg_dns_uncompress_name_diverges b plen msg i n d dst_len fuel : 0 <= i -> i + 1 < plen -> i < 2 ^ 14 -> plen <= size b ->
  b !! Z.to_nat i = Some (192 + i / 256) -> b !! Z.to_nat (i + 1) = Some (i mod 256) -> pkt msg = mk_str (Some 0) plen ->
  mg_dns_uncompress_name fuel b msg (mk_str (Some i) n) d dst_len = Fault OutOfFuel.
Proof.
  intros Hi Hp Hi14 Hle Hhi Hlo Hpk. unfold mg_dns_uncompress_name. rewrite Hpk. cbn [p deref Strs.len].
  rewrite Z.geb_leb, (proj2 (Z.leb_gt _ i)) by lia.
  assert (uncompress_step b (mk_str (Some 0) plen) 0 dst_len (i, 0, d) = Ret (inl (i, 0, d))) as Hstep.
  { unfold uncompress_step. rewrite (rd_ib _ _ _ Hi Hhi). cbn [mbind outcome_bind Strs.len].
    assert (0 <= i / 256 < 64) as Hq by euclid.
    pose proof (range_forallb (fun q => negb (Z.land (192 + q) 0xc0 =? 0) && (Z.land (192 + q) 0x3f =? q)) 64 ltac:(vm_compute; reflexivity) _ Hq) as Hb.
    cbv beta in Hb. apply andb_prop in Hb as [-> Hq2%Z.eqb_eq].
    rewrite (proj2 (Z.eqb_neq (192 + _) 0)), Z.geb_leb, (proj2 (Z.leb_gt _ (i + 1))) by lia.
    rewrite (rd_ib b (i + 1) (i mod 256)) by (done || lia). cbn [mbind outcome_bind]. rewrite Hq2, (lor_disjoint 8) by euclid.
    replace (i / 256 * 2 ^ 8 + i mod 256) with i by euclid. by rewrite Z.geb_leb, (proj2 (Z.leb_gt _ i)) by lia. }
  assert (loop fuel (uncompress_step b (mk_str (Some 0) plen) 0 dst_len) (i, 0, d) = Fault OutOfFuel) as ->; [|done].
  induction fuel as [|fuel IH]; [done|]. by rewrite loop_S, Hstep.
Qed.

Lemma mg_dns_uncompress_name_diverges_witness :
  mg_dns_uncompress_name 1000 (replicate 12 0 ++ [192; 12; 0; 1; 0; 1]) (mk_dns (mk_str (Some 0) 18) 0 0 0 0 [] []) (mk_str (Some 12) 2) (replicate 20 0) 20 = Fault OutOfFuel.
Proof. apply (mg_dns_uncompress_name_diverges _ 18); [lia|lia|lia|discriminate|reflexivity|reflexivity|reflexivity]. Defined.

(** Labels of 64 to 127 bytes are sent, but their length is read as a pointer. *)
Example long_label :
  ('(io, n) ← mg_dns_encode_name fresh_conn (replicate 64 97 ++ [0]) 64;
   '(k, _) ← mg_dns_uncompress_name 100 (sent io) (mk_dns (mk_str (Some 0) 66) 0 0 0 0 [] []) (mk_str (Some 0) 66) (replicate 100 0) 100;
   mret (n, k)) = Ret (66, 0).
Proof. vm_compute. reflexivity. Qed.

(** A name that ends with a dot is sent with one zero more. *)
Example trailing_dot : ('(io, n) ← mg_dns_encode_name fresh_conn (lit "a." ++ [0]) 2; mret (n, sent io)) = Ret (4, [1; 97; 0; 0]).
Proof. vm_compute. reflexivity. Qed.

(** ** Queries *)

Definition query_bytes (id : Z) (ls : list (list Z)) (qtype : Z) : list Z :=
  host16 id ++ net16 0x100 ++ net16 1 ++ net16 0 ++ [0; 0] ++ [0; 0] ++ enc_name ls ++ net16 qtype ++ net16 1.

Lemma size_enc_name ls : size (enc_name ls) = size (enc_labels ls) + 1.
Proof. unfold enc_name. by rewrite size_app. Qed.

(** The number of labels is less than the fuel of the encoder. *)
Lemma length_labels ls : Forall label_ok ls -> (length ls <= length (join ls))%nat.
Proof.
  induction 1 as [|l ls ([Hl _] & _) _ IH]; [done|]. destruct ls as [|l2 ls]; [cbn; unfold size in Hl; lia|].
  change (join (l :: l2 :: ls)) with (l ++ 46 :: join (l2 :: ls)). rewrite length_app. cbn [length] in *. lia.
Qed.

Lemma mg_dns_encode_name_sends ls r c k : Forall label_ok ls -> ls <> [] -> size (join ls) < 2 ^ 30 ->
  can_send (size (enc_name ls) + k) c -> 0 <= k ->
  exists c', mg_dns_encode_name c (join ls ++ 0 :: r) (size (join ls)) = Ret (c', size (enc_name ls)) /\ sent c' = sent c ++ enc_name ls /\ can_send k c'.
Proof.
  intros Hls Hne Hlt Hc Hk. rewrite size_enc_name in Hc. pose proof (length_labels ls Hls). pose proof (join_size ls Hls Hne).
  destruct (encode_labels (join ls ++ 0 :: r) r ls [] (S (length (join ls ++ 0 :: r))) c (1 + k)) as (c1 & E1 & Hs1 & Hc1);
    [done|done|done|lia|by rewrite Z.add_assoc|lia|rewrite length_app; lia|].
  destruct (sends_append [0] 1 ltac:(done) c1 k Hc1 Hk) as (c2 & E2 & Hs2 & Hc2). change (slice [0] 0 1) with [0] in Hs2.
  exists c2. unfold mg_dns_encode_name. change (size (@nil Z)) with 0 in E1. rewrite E1. cbn [mbind outcome_bind negb]. unfold append. rewrite E2. cbn [mbind outcome_bind].
  assert (sent c2 = sent c ++ enc_name ls) as Hs by (rewrite Hs2, Hs1, <- app_assoc; done). split; [|done]. do 2 f_equal.
  pose proof (size_content _ (cs_wf _ _ Hc2)) as H2. pose proof (size_content _ (cs_wf _ _ Hc)) as H1. fold (sent c2) in H2. fold (sent c) in H1.
  rewrite <- H1, <- H2, Hs, size_app, Z.add_simpl_l. apply s32_u64_small. rewrite size_enc_name. pose proof (size_nonneg (join ls)). lia.
Qed.

Lemma init_can_send fresh n : (forall i, alloc_ok (fresh i) /\ fresh i <> None) -> 0 <= n <= FITS ->
  let c := mk_conn (mbuf_init (fresh O) 64) (fun i => fresh (S i)) in can_send n c /\ sent c = [].
Proof.
  intros Hf Hn c. assert (mbuf_wf (mk_mbuf 0 [] 0 0)) as Hwf by by split.
  destruct (mbuf_resize_spec (fresh O) _ 64 Hwf) as (H1 & H2 & H3 & _); [lia|].
  split; [|exact H2]. split; [exact H1| |intros i; apply Hf|].
  - apply mbuf_resize_addr; [done|lia|apply Hf|]. split; [vm_compute; split; discriminate|done].
  - unfold sent, c. cbn [send_mbuf]. unfold mbuf_init. rewrite H2. change (size (content _)) with 0. lia.
Qed.

Lemma size_net16 v : size (net16 v) = 2.
Proof. done. Qed.

(** A question as a record of the packet. *)
Lemma mg_dns_encode_record_sends ls r rr c k : Forall label_ok ls -> ls <> [] -> size (join ls) < 2 ^ 30 -> kind rr = MG_DNS_QUESTION ->
  let q := enc_name ls ++ net16 (rtype rr) ++ net16 (rclass rr) in can_send (size q + k) c -> 0 <= k ->
  exists c' n, mg_dns_encode_record c rr (join ls ++ 0 :: r) (size (join ls)) [] 0 = Ret (c', n) /\ n <> -1 /\ sent c' = sent c ++ q /\ can_send k c'.
Proof.
  intros Hls Hne Hlt Hkind q Hc Hk. unfold q in *. rewrite !size_app, !size_net16, <- !Z.add_assoc in Hc.
  unfold mg_dns_encode_record. rewrite decide_False by by rewrite Hkind. pose proof (join_size ls Hls Hne). pose proof (size_nonneg (join ls)).
  destruct (mg_dns_encode_name_sends ls r c (2 + (2 + k))) as (c1 & E1 & Hs1 & Hc1); [done|done|done|done|lia|]. rewrite E1. cbn [mbind outcome_bind].
  rewrite (proj2 (Z.eqb_neq (size (enc_name ls)) (-1))) by (pose proof (size_nonneg (enc_name ls)); lia). unfold append.
  destruct (sends_append (net16 (rtype rr)) 2 ltac:(done) c1 (2 + k) Hc1) as (c2 & E2 & Hs2 & Hc2); [lia|]. rewrite E2. cbn [mbind outcome_bind].
  destruct (sends_append (net16 (rclass rr)) 2 ltac:(done) c2 k Hc2) as (c3 & E3 & Hs3 & Hc3); [lia|]. rewrite E3. cbn [mbind outcome_bind].
  rewrite decide_False by by rewrite Hkind. cbn [mbind outcome_bind mret outcome_ret negb].
  assert (sent c3 = sent c ++ enc_name ls ++ net16 (rtype rr) ++ net16 (rclass rr)) as Hs by (rewrite Hs3, Hs2, Hs1, <- !app_assoc; done).
  eexists c3, _. split; [done|]. split; [|done].
  pose proof (size_content _ (cs_wf _ _ Hc3)) as H3. pose proof (size_content _ (cs_wf _ _ Hc)) as H1. fold (sent c3) in H3. fold (sent c) in H1.
  rewrite <- H1, <- H3, Hs, !size_app, !size_net16, size_enc_name, Z.add_simpl_l, s32_u64_small by lia. lia.
Qed.

Lemma length_enc_labels ls : (length ls <= length (enc_labels ls))%nat.
Proof.
  unfold enc_labels. induction ls as [|l ls IH]; [done|]. cbn [map concat length]. rewrite length_app. cbn [length]. lia.
Qed.

(** Parsing skips the labels of a name, to its zero. *)
Lemma skip_labels b e r : forall ls pre fuel, Forall label_ok ls -> b = pre ++ enc_labels ls ++ 0 :: r -> size pre + size (enc_labels ls) < e ->
  (length ls < fuel)%nat ->
  loop fuel (fun data =>
    if data <? e then
      chunk_len ← rd b data;
      if chunk_len =? 0 then mret (inr data) else
      if negb (Z.land chunk_len 0xc0 =? 0) then mret (inr (data + 1)) else mret (inl (data + chunk_len + 1))
    else mret (inr data)) (size pre) = Ret (size pre + size (enc_labels ls)).
Proof.
  induction ls as [|l ls IH]; intros pre fuel Hls Hb He Hf; (destruct fuel as [|fuel]; [simpl in Hf; lia|]); rewrite loop_S.
  - change (enc_labels []) with (@nil Z) in *. change (size (@nil Z)) with 0 in *. rewrite (proj2 (Z.ltb_lt _ e)) by lia. rewrite Hb. cbn [app]. rewrite rd_at0. cbn. f_equal. lia.
  - apply Forall_cons_1 in Hls as [Hl Hls]. pose proof Hl as ([Hl1 Hl2] & _). unfold enc_labels in Hb, He |- *. cbn [map concat] in Hb, He |- *. fold (enc_labels ls) in Hb, He |- *.
    pose proof (size_nonneg (enc_labels ls)). rewrite size_app, size_cons in He |- *. rewrite (proj2 (Z.ltb_lt _ e)) by lia.
    assert (rd b (size pre) = Ret (size l)) as -> by (rewrite Hb, <- app_assoc; apply rd_at0). cbn [mbind outcome_bind].
    rewrite (proj2 (Z.eqb_neq (size l) 0)), small_label by lia. cbn [Z.eqb negb mret outcome_ret].
    replace (size pre + size l + 1) with (size (pre ++ size l :: l)) by (rewrite size_app, size_cons; lia).
    rewrite (IH (pre ++ size l :: l) fuel Hls) by (rewrite ?size_app, ?size_cons; first [lia|simpl in Hf; lia|rewrite Hb, <- !app_assoc; done]).
    f_equal. rewrite size_app, size_cons. lia.
Qed.

Lemma rd16_net16 b pre v r : b = pre ++ net16 v ++ r -> rd16 b (size pre) = Ret (u16 v).
Proof.
  intros ->. unfold rd16, net16. pose proof (Z.mod_pos_bound v (2 ^ 16) ltac:(lia)) as Hv. fold (u16 v) in Hv.
  change (pre ++ [u16 v / 256; u16 v mod 256] ++ r) with (pre ++ u16 v / 256 :: u16 v mod 256 :: r). rewrite rd_at0. cbn [mbind outcome_bind].
  rewrite (rd_at pre (u16 v / 256 :: u16 v mod 256 :: r) 1 (u16 v mod 256)) by (done || lia). cbn [mbind outcome_bind mret outcome_ret].
  f_equal. rewrite (lor_disjoint 8) by euclid. euclid.
Qed.

Lemma rd16_net16' b pre v r i : b = pre ++ net16 v ++ r -> i = size pre -> rd16 b i = Ret (u16 v).
Proof. intros Hb ->. by apply (rd16_net16 b pre v r). Qed.

Lemma wire_name_labels b plen r : forall ls pre, Forall label_ok ls -> b = pre ++ enc_labels ls ++ 0 :: r -> size pre + size (enc_labels ls) < plen ->
  wire_name b 0 plen (size pre) ls.
Proof.
  induction ls as [|l ls IH]; intros pre Hls Hb Hp; pose proof (size_nonneg pre).
  - apply wire_end; [lia|]. rewrite Hb. cbn. by rewrite size_to_nat, lookup_app_r, Nat.sub_diag by lia.
  - apply Forall_cons_1 in Hls as [Hl Hls]. unfold enc_labels in Hb, Hp. cbn [map concat] in Hb, Hp. fold (enc_labels ls) in Hb, Hp. rewrite size_app, size_cons in Hp.
    pose proof (size_nonneg (enc_labels ls)). rewrite <- app_assoc in Hb. apply wire_label; [lia|done| |lia|].
    + rewrite Hb. apply slice_mid; [done|]. by rewrite size_cons.
    + replace (size pre + 1 + size l) with (size (pre ++ size l :: l)) by (rewrite size_app, size_cons; lia).
      apply IH; [done|by rewrite Hb, <- app_assoc|]. rewrite size_app, size_cons. lia.
Qed.

(** The question of a query, as it is parsed. *)
Lemma parse_question id ls qtype b : b = query_bytes id ls qtype -> Forall label_ok ls -> 0 <= qtype < 2 ^ 16 ->
  mg_parse_dns_resource_record b 12 (size b) rr0 false =
  Ret (Some (size b), mk_rr (mk_str (Some 12) (size (enc_name ls))) qtype 1 0 MG_DNS_QUESTION (mk_str None 0)).
Proof.
  intros Hb Hls Hq. set (hdr := host16 id ++ net16 0x100 ++ net16 1 ++ net16 0 ++ [0; 0] ++ [0; 0]).
  assert (b = hdr ++ enc_labels ls ++ 0 :: net16 qtype ++ net16 1) as Hb' by (rewrite Hb; unfold query_bytes, enc_name, hdr; by rewrite <- !app_assoc).
  assert (size b = size hdr + (size (enc_labels ls) + 5)) as Hsz by (rewrite Hb', !size_app, size_cons, size_app, !size_net16; lia).
  assert (12 = size hdr) as -> by done. pose proof (size_nonneg (enc_labels ls)). unfold mg_parse_dns_resource_record, skip_name.
  assert (length ls < S (length b))%nat as Hf.
  { rewrite Hb', !length_app. pose proof (length_enc_labels ls). lia. }
  rewrite (skip_labels b (size b) (net16 qtype ++ net16 1) ls hdr _ Hls Hb') by lia. cbn [mbind outcome_bind].
  rewrite Z.gtb_ltb, (proj2 (Z.ltb_ge (size b - 5) _)) by lia. cbv zeta.
  rewrite (rd16_net16' b (hdr ++ enc_labels ls ++ [0]) qtype (net16 1) (size hdr + size (enc_labels ls) + 1)); [|rewrite Hb', <- !app_assoc; done|rewrite !size_app; change (size [0]) with 1; lia].
  cbn [mbind outcome_bind].
  rewrite (rd16_net16' b (hdr ++ enc_labels ls ++ [0] ++ net16 qtype) 1 [] (size hdr + size (enc_labels ls) + 1 + 2)); [|rewrite Hb', <- !app_assoc; done|rewrite !size_app, size_net16; change (size [0]) with 1; lia].
  cbn [mbind outcome_bind mret outcome_ret]. change (u16 1) with 1. assert (u16 qtype = qtype) as -> by (by apply Z.mod_small). unfold rr0. cbn [ttl rdata rr_name].
  do 4 f_equal; [lia|]. rewrite size_enc_name. f_equal. lia.
Qed.

Lemma size_query id ls qtype : size (query_bytes id ls qtype) = size (enc_labels ls) + 17.
Proof. unfold query_bytes. rewrite !size_app, size_enc_name, !size_net16. change (size (host16 _)) with 2. change (size [0; 0]) with 2. lia. Qed.

Lemma query_parses id ls qtype : Forall label_ok ls -> 0 <= id < 2 ^ 16 -> 0 <= qtype < 2 ^ 16 ->
  let q := query_bytes id ls qtype in
  mg_parse_dns q 0 (size q) = Ret (0, mk_dns (mk_str (Some 0) (size q)) 0x100 id 1 0
      (mk_rr (mk_str (Some 12) (size (enc_name ls))) qtype 1 0 MG_DNS_QUESTION (mk_str None 0) :: replicate 31 rr0) (replicate 32 rr0)).
Proof.
  intros Hls Hid Hq q. pose proof (size_query id ls qtype) as Hsz. fold q in Hsz. pose proof (size_nonneg (enc_labels ls)). unfold mg_parse_dns.
  rewrite (proj2 (Z.ltb_ge (size q) 12)) by lia.
  assert (rd q 0 = Ret (id mod 256)) as -> by (cbn; unfold u16; by rewrite (Z.mod_small id)).
  assert (rd q (0 + 1) = Ret (id / 256)) as -> by (cbn; unfold u16; by rewrite (Z.mod_small id)).
  change (rd16 q (0 + 2)) with (Ret 256). change (rd16 q (0 + 4)) with (Ret 1). change (rd16 q (0 + 6)) with (Ret 0).
  cbn [mbind outcome_bind]. cbv zeta. change (Z.to_nat (if 1 >? MG_MAX_DNS_QUESTIONS then _ else _)) with 1%nat.
  change (Z.to_nat (if 0 >? MG_MAX_DNS_ANSWERS then _ else _)) with 0%nat. cbn [parse_records questions].
  change (rd (questions dns0) 0) with (Ret rr0). cbn [mbind outcome_bind]. change (0 + 12) with 12. change (0 + size q) with (size q).
  rewrite (parse_question id ls qtype q eq_refl Hls Hq). cbn [mbind outcome_bind].
  change (wr (questions dns0) 0 ?x) with (Ret (x :: replicate 31 rr0)). cbn [mbind outcome_bind mret outcome_ret parse_records].
  by replace (id / 256 * 256 + id mod 256) with id by euclid.
Qed.

Lemma query_sent udp tid fresh nc ls r qtype k : Forall label_ok ls -> ls <> [] -> size (join ls) < 2 ^ 16 - 64 ->
  0 <= tid < INT_MAX -> (forall i, alloc_ok (fresh i) /\ fresh i <> None) -> can_send (2 ^ 16 + k) nc -> 0 <= k ->
  let q := query_bytes (u16 (tid + 1)) ls qtype in
  exists nc', mg_send_dns_query udp tid fresh nc (join ls ++ 0 :: r) (size (join ls)) qtype = Ret (nc', tid + 1) /\
    sent nc' = sent nc ++ (if udp then q else net16 (size q) ++ q) /\ can_send k nc'.
Proof.
  intros Hls Hne Hlt Htid Hf Hnc Hk q. pose proof (join_size ls Hls Hne). pose proof (size_nonneg (join ls)).
  pose proof (size_query (u16 (tid + 1)) ls qtype) as Hsz. fold q in Hsz. unfold mg_send_dns_query.
  assert (int (tid + 1) = Ret (tid + 1)) as -> by (apply wp_eq, wp_int; unfold INT_MAX in *; [lia|done]). cbn [mbind outcome_bind].
  destruct (init_can_send fresh FITS Hf ltac:(by split)) as [Hc0 Hs0]. set (c0 := mk_conn _ _) in *.
  set (msg := mk_dns _ _ _ _ _ _ _). set (hdr := mg_dns_header_bytes msg).
  assert (2 ^ 17 <= FITS) as HF by (vm_compute; discriminate).
  destruct (sends_insert 0 hdr c0 (size (enc_name ls) + 4 + 2)) as (c1 & E1 & Hs1 & Hc1);
    [rewrite Hs0; vm_compute; split; discriminate|apply (sends_weaken FITS); [done|rewrite size_enc_name; change (size hdr) with 12; lia]|rewrite size_enc_name; lia|].
  rewrite Hs0 in Hs1. change (size (@nil Z) - 0) with 0 in Hs1. rewrite !slice_nil, app_nil_r in Hs1. unfold mg_dns_insert_header. fold hdr. change (size hdr) with 12 in E1. rewrite E1. cbn [mbind outcome_bind].
  destruct (mg_dns_encode_record_sends ls r (mk_rr (mk_str None 0) qtype 1 0 MG_DNS_QUESTION (mk_str None 0)) c1 2) as (c2 & n & E2 & Hn & Hs2 & Hc2);
    [done|done|lia|done|cbn [rtype rclass]; rewrite !size_app, !size_net16; eapply sends_weaken; [exact Hc1|lia]|lia|].
  rewrite E2. cbn [mbind outcome_bind]. rewrite (proj2 (Z.eqb_neq n (-1)) Hn).
  assert (sent c2 = q) as Hq2 by (rewrite Hs2, Hs1; unfold q, query_bytes, hdr, mg_dns_header_bytes; cbn [app rtype rclass]; done).
  pose proof (size_content _ (cs_wf _ _ Hc2)) as Hl2. fold (sent c2) in Hl2. rewrite Hq2 in Hl2.
  assert (forall c3 w, can_send 0 c3 -> sent c3 = w -> size w <= 2 ^ 16 ->
    exists nc', (nc ← mg_send udp nc (mb_buf (send_mbuf c3)) (mb_len (send_mbuf c3)); mret (nc, tid + 1)) = Ret (nc', tid + 1) /\ sent nc' = sent nc ++ w /\ can_send k nc') as Hend.
  { intros c3 w Hc3 Hw Hsw. pose proof (cs_wf _ _ Hc3) as [Hl3 Hb3]. pose proof (size_content _ (cs_wf _ _ Hc3)) as Hm3. fold (sent c3) in Hm3. rewrite Hw in Hm3.
    destruct (mg_send_prefix udp (mb_buf (send_mbuf c3)) (mb_len (send_mbuf c3)) ltac:(lia) ltac:(lia) nc k) as (nc' & E & Hs & Hc'); [|lia|].
    - fold (content (send_mbuf c3)). fold (sent c3). rewrite Hw. eapply sends_weaken; [exact Hnc|lia].
    - exists nc'. rewrite E. split; [done|]. split; [|done]. rewrite Hs. fold (content (send_mbuf c3)). fold (sent c3). by rewrite Hw. }
  destruct udp; cbn [mbind outcome_bind].
  - apply Hend; [eapply sends_weaken; [exact Hc2|lia]|done|lia].
  - destruct (sends_insert 0 (net16 (size q)) c2 0) as (c3 & E3 & Hs3 & Hc3); [rewrite Hq2; split; [lia|apply size_nonneg]|exact Hc2|lia|].
    rewrite size_net16 in E3. assert (on_send_mbuf c2 (fun a m => mbuf_insert a m 0 (Some (net16 (mb_len m))) 2) = Ret c3) as ->.
    { unfold on_send_mbuf in E3 |- *. by rewrite <- Hl2. }
    apply Hend; [done| |rewrite size_app, size_net16; lia]. rewrite Hs3, Hq2, Z.sub_0_r, slice_all. by rewrite slice_nil.
Qed.

(** C32: a query for a name of labels that DNS allows, none of them empty or longer
    than 63 bytes, without dots and NULs in them, sent on a connection, is parsed
    by [mg_parse_dns] as one question, with the transaction id of the query, its
    type, the class IN, and a name that reads back as the name asked for; on TCP
    the two bytes of its length come first.  Longer labels and a trailing dot are
    sent, too, but not as the name: see [long_label] and [trailing_dot]. *)
Theorem mg_dns_query_roundtrip udp tid fresh nc ls r qtype k : Forall label_ok ls -> ls <> [] -> size (join ls) < 2 ^ 16 - 64 ->
  0 <= qtype < 2 ^ 16 -> 0 <= tid < INT_MAX -> (forall i, alloc_ok (fresh i) /\ fresh i <> None) -> can_send (2 ^ 16 + k) nc -> 0 <= k ->
  exists nc' q n, mg_send_dns_query udp tid fresh nc (join ls ++ 0 :: r) (size (join ls)) qtype = Ret (nc', tid + 1) /\
    sent nc' = sent nc ++ (if udp then q else net16 (size q) ++ q) /\
    mg_parse_dns q 0 (size q) = Ret (0, mk_dns (mk_str (Some 0) (size q)) 0x100 (u16 (tid + 1)) 1 0
      (mk_rr (mk_str (Some 12) n) qtype 1 0 MG_DNS_QUESTION (mk_str None 0) :: replicate 31 rr0) (replicate 32 rr0)) /\
    wire_name q 0 (size q) 12 ls.
Proof.
  intros Hls Hne Hlt Hq Htid Hf Hnc Hk. destruct (query_sent udp tid fresh nc ls r qtype k) as (nc' & E & Hs & _); [done..|].
  exists nc', (query_bytes (u16 (tid + 1)) ls qtype), (size (enc_name ls)). split; [done|]. split; [done|]. split.
  - apply query_parses; [done| |done]. apply Z.mod_pos_bound. lia.
  - apply (wire_name_labels _ _ (net16 qtype ++ net16 1) ls (host16 (u16 (tid + 1)) ++ net16 0x100 ++ net16 1 ++ net16 0 ++ [0; 0] ++ [0; 0])); [done| |].
    + unfold query_bytes, enc_name. by rewrite <- !app_assoc.
    + rewrite size_query. change (size (host16 _ ++ _)) with 12. lia.
Qed.

Lemma mg_dns_query_roundtrip_witness :
  let ls := [lit "www"; lit "example"; lit "com"] in
  exists nc' q n, mg_send_dns_query false 0xa0 (fun _ => Some (mk_block 4096 (fun _ => 0))) fresh_conn (join ls ++ 0 :: []) (size (join ls)) 1 = Ret (nc', 0xa0 + 1) /\
    sent nc' = sent fresh_conn ++ (net16 (size q) ++ q) /\
    mg_parse_dns q 0 (size q) = Ret (0, mk_dns (mk_str (Some 0) (size q)) 0x100 (u16 (0xa0 + 1)) 1 0
      (mk_rr (mk_str (Some 12) n) 1 1 0 MG_DNS_QUESTION (mk_str None 0) :: replicate 31 rr0) (replicate 32 rr0)) /\
    wire_name q 0 (size q) 12 ls.
Proof.
  apply (mg_dns_query_roundtrip false 0xa0 _ fresh_conn [lit "www"; lit "example"; lit "com"] [] 1 0);
    [repeat constructor; by apply label_okb_ok|discriminate|reflexivity|lia|unfold INT_MAX; lia| |apply fresh_can_send; vm_compute; split; discriminate|lia].
  intros i. split; [vm_compute; split; [reflexivity|discriminate]|discriminate].
Defined.
