(* ===== verification/Mqtt.v ===== *)
(** * MQTT (mongoose.c, mqtt.c)

    The packets the client and the broker send, the parser of received packets
    and the event handler.  A C string is the list of its bytes before the
    terminator; an object sent by address is the list of its bytes in memory. *)

From Stdlib Require Import ZArith Lia String.
From stdpp Require Import base list numbers option.
From S2P Require Import Prelude Strs Mbuf Conn.

Local Open Scope Z_scope.

(** ** The code *)

Definition MG_MQTT_CMD_CONNECT : Z := 1.
Definition MG_MQTT_CMD_CONNACK : Z := 2.
Definition MG_MQTT_CMD_PUBLISH : Z := 3.
Definition MG_MQTT_CMD_PUBACK : Z := 4.
Definition MG_MQTT_CMD_PUBREC : Z := 5.
Definition MG_MQTT_CMD_PUBREL : Z := 6.
Definition MG_MQTT_CMD_PUBCOMP : Z := 7.
Definition MG_MQTT_CMD_SUBSCRIBE : Z := 8.
Definition MG_MQTT_CMD_SUBACK : Z := 9.
Definition MG_MQTT_CMD_UNSUBSCRIBE : Z := 10.
Definition MG_MQTT_CMD_UNSUBACK : Z := 11.
Definition MG_MQTT_CMD_PINGREQ : Z := 12.
Definition MG_MQTT_CMD_PINGRESP : Z := 13.
Definition MG_MQTT_CMD_DISCONNECT : Z := 14.
Definition MG_MQTT_EVENT_BASE : Z := 200.

Definition MG_MQTT_QOS (qos : Z) : Z := Z.shiftl qos 1.
Definition MG_MQTT_GET_QOS (flags : Z) : Z := Z.shiftr (Z.land flags 0x6) 1.
Definition MG_MQTT_HAS_PASSWORD : Z := 0x40.
Definition MG_MQTT_HAS_USER_NAME : Z := 0x80.

Record mg_mqtt_topic_expression := mk_te { te_topic : list Z; te_qos : Z }.

Record mg_mqtt_message := mk_mqtt {
  cmd : Z; mq_payload : mg_str; qos : Z; connack_ret_code : Z; message_id : Z;
  topic : option (list Z)   (* the allocated string, terminator included *)
}.
Definition mqtt0 : mg_mqtt_message := mk_mqtt 0 (mk_str None 0) 0 0 0 None.

Record mg_send_mqtt_handshake_opts := mk_opts {
  o_flags : Z; keep_alive : Z; user_name : option (list Z); password : option (list Z)
}.

(** The bytes in memory of [htons(v)], and [ntohs] of the two bytes at [i]. *)
Definition htons (v : Z) : list Z := [u16 v / 256; u16 v mod 256].
Definition ntohs (b : list Z) (i : Z) : outcome Z := hi ← rd b i; lo ← rd b (i + 1); mret (hi * 256 + lo).

(** *** Sending; the connection is TCP. *)

(** "mqtt variable length encoding": one byte of it. *)
Definition vlen_step (st : list Z * Z * Z) : outcome (list Z * Z * Z + list Z * Z) :=
  let '(buf, vlen, len) := st in
  buf ← wr buf vlen (len mod 0x80);
  let len := len / 0x80 in
  buf ← (if len >? 0 then v ← rd buf vlen; wr buf vlen (Z.lor v 0x80) else mret buf);
  let vlen := vlen + 1 in
  if len >? 0 then mret (inl (buf, vlen, len)) else mret (inr (buf, vlen)).

Definition mg_mqtt_prepend_header (c : conn) (cmd flags len : Z) : outcome conn :=
  let off := u64 (mb_len (send_mbuf c) - len) in
  let header := u8 (Z.lor (Z.shiftl cmd 4) (u8 flags)) in
  if negb (mb_len (send_mbuf c) >=? len) then Fault AssertFailed else
  buf ← wr (replicate 9 0) 0 header;
  '(buf, vlen) ← loop 10 vlen_step (buf, 1, len);
  on_send_mbuf c (fun r m => mbuf_insert r m off (Some buf) vlen).

Definition mg_mqtt_publish (c : conn) (topic : list Z) (message_id flags : Z) (data : list Z) (len : Z) : outcome conn :=
  let old_len := mb_len (send_mbuf c) in
  c ← mg_send false c (htons (size topic)) 2;
  c ← mg_send false c topic (size topic);
  c ← (if MG_MQTT_GET_QOS flags >? 0 then mg_send false c (htons message_id) 2 else mret c);
  c ← mg_send false c data len;
  mg_mqtt_prepend_header c MG_MQTT_CMD_PUBLISH flags (u64 (mb_len (send_mbuf c) - old_len)).

Fixpoint subscribe_topics (c : conn) (topics : list mg_mqtt_topic_expression) : outcome conn :=
  match topics with
  | [] => mret c
  | t :: topics =>
      c ← mg_send false c (htons (size (te_topic t))) 2;
      c ← mg_send false c (te_topic t) (size (te_topic t));
      c ← mg_send false c [te_qos t] 1;
      subscribe_topics c topics
  end.

Definition mg_mqtt_subscribe (c : conn) (topics : list mg_mqtt_topic_expression) (message_id : Z) : outcome conn :=
  let old_len := mb_len (send_mbuf c) in
  c ← mg_send false c (htons message_id) 2;
  c ← subscribe_topics c topics;
  mg_mqtt_prepend_header c MG_MQTT_CMD_SUBSCRIBE (MG_MQTT_QOS 1) (u64 (mb_len (send_mbuf c) - old_len)).

Fixpoint unsubscribe_topics (c : conn) (topics : list (list Z)) : outcome conn :=
  match topics with
  | [] => mret c
  | t :: topics =>
      c ← mg_send false c (htons (size t)) 2;
      c ← mg_send false c t (size t);
      unsubscribe_topics c topics
  end.

Definition mg_mqtt_unsubscribe (c : conn) (topics : list (list Z)) (message_id : Z) : outcome conn :=
  let old_len := mb_len (send_mbuf c) in
  c ← mg_send false c (htons message_id) 2;
  c ← unsubscribe_topics c topics;
  mg_mqtt_prepend_header c MG_MQTT_CMD_UNSUBSCRIBE (MG_MQTT_QOS 1) (u64 (mb_len (send_mbuf c) - old_len)).

Definition mg_mqtt_connack (c : conn) (return_code : Z) : outcome conn :=
  c ← mg_send false c [0] 1;
  c ← mg_send false c [return_code] 1;
  mg_mqtt_prepend_header c MG_MQTT_CMD_CONNACK 0 2.

Definition mg_send_mqtt_short_command (c : conn) (cmd message_id : Z) : outcome conn :=
  c ← mg_send false c (htons message_id) 2;
  mg_mqtt_prepend_header c cmd (MG_MQTT_QOS 1) 2.

Definition mg_mqtt_puback c id := mg_send_mqtt_short_command c MG_MQTT_CMD_PUBACK id.
Definition mg_mqtt_pubrec c id := mg_send_mqtt_short_command c MG_MQTT_CMD_PUBREC id.
Definition mg_mqtt_pubrel c id := mg_send_mqtt_short_command c MG_MQTT_CMD_PUBREL id.
Definition mg_mqtt_pubcomp c id := mg_send_mqtt_short_command c MG_MQTT_CMD_PUBCOMP id.
Definition mg_mqtt_unsuback c id := mg_send_mqtt_short_command c MG_MQTT_CMD_UNSUBACK id.

Fixpoint send_bytes (c : conn) (qoss : list Z) : outcome conn :=
  match qoss with [] => mret c | x :: qoss => c ← mg_send false c [x] 1; send_bytes c qoss end.

Definition mg_mqtt_suback (c : conn) (qoss : list Z) (qoss_len message_id : Z) : outcome conn :=
  c ← mg_send false c (htons message_id) 2;
  c ← send_bytes c (take (Z.to_nat qoss_len) qoss);
  mg_mqtt_prepend_header c MG_MQTT_CMD_SUBACK (MG_MQTT_QOS 1) (2 + qoss_len).

Definition mg_mqtt_ping (c : conn) := mg_mqtt_prepend_header c MG_MQTT_CMD_PINGREQ 0 0.
Definition mg_mqtt_pong (c : conn) := mg_mqtt_prepend_header c MG_MQTT_CMD_PINGRESP 0 0.
Definition mg_mqtt_disconnect (c : conn) := mg_mqtt_prepend_header c MG_MQTT_CMD_DISCONNECT 0 0.

(** A length and a string. *)
Definition send_field (c : conn) (s : list Z) : outcome conn :=
  c ← mg_send false c (htons (size s)) 2; mg_send false c s (size s).

Definition mg_send_mqtt_handshake_opt (c : conn) (client_id : list Z) (opts : mg_send_mqtt_handshake_opts) : outcome conn :=
  let header := u8 (Z.shiftl MG_MQTT_CMD_CONNECT 4) in
  let rem_len := u8 (9 + 1 + 2 + 2 + size client_id) in
  let '(flags, rem_len) := match user_name opts with
    | Some u => (Z.lor (o_flags opts) MG_MQTT_HAS_USER_NAME, u8 (rem_len + (size u + 2)))
    | None => (o_flags opts, rem_len) end in
  let '(flags, rem_len) := match password opts with
    | Some w => (Z.lor flags MG_MQTT_HAS_PASSWORD, u8 (rem_len + (size w + 2)))
    | None => (flags, rem_len) end in
  c ← mg_send false c [header] 1;
  c ← mg_send false c [rem_len] 1;
  c ← mg_send false c ([0; 6] ++ lit "MQIsdp" ++ [3]) 9;
  c ← mg_send false c [flags] 1;
  let keep_alive := if keep_alive opts =? 0 then 60 else keep_alive opts in
  c ← mg_send false c (htons keep_alive) 2;
  c ← send_field c client_id;
  c ← (if negb (Z.land flags MG_MQTT_HAS_USER_NAME =? 0)
       then match user_name opts with Some u => send_field c u | None => Fault NullPointer end else mret c);
  if negb (Z.land flags MG_MQTT_HAS_PASSWORD =? 0)
  then match password opts with Some w => send_field c w | None => Fault NullPointer end else mret c.

Definition mg_send_mqtt_handshake (c : conn) (client_id : list Z) : outcome conn :=
  mg_send_mqtt_handshake_opt c client_id (mk_opts 0 0 None None).

(** *** Receiving *)

(** The 7 bits of [v] shifted by the position of the byte, an [int]. *)
Definition var_bits (v k : Z) : outcome Z :=
  if 7 * k <? 32 then int (Z.shiftl (Z.land v 127) (7 * k)) else Fault SignedOverflow.

(** "decode mqtt variable length": one byte of it; [vlen] is an offset. *)
Definition decode_step (io : mbuf) (st : Z * Z) : outcome (Z * Z + Z * Z) :=
  let '(vlen, len) := st in
  v ← rd (mb_buf io) vlen;
  x ← var_bits v (vlen - 1);
  let len := u64 (len + x) in
  let vlen := vlen + 1 in
  if negb (Z.land v 128 =? 0) && (vlen <=? mb_len io) then mret (inl (vlen, len)) else mret (inr (vlen, len)).

(** [strncpy] to an object of [n] bytes. *)
Fixpoint strncpy (b : list Z) (i : Z) (n : nat) : outcome (list Z) :=
  match n with
  | O => mret []
  | S n => c ← rd b i; if c =? 0 then mret (replicate (S n) 0) else l ← strncpy b (i + 1) n; mret (c :: l)
  end.

(** The [switch] on the command: what it stores in the message, and [var_len]. *)
Definition parse_variable_header (io : mbuf) (header : Z) (mm : mg_mqtt_message) : outcome (mg_mqtt_message * Z) :=
  let cmd := cmd mm in
  let with_id id := mk_mqtt cmd (mq_payload mm) (qos mm) (connack_ret_code mm) id (topic mm) in
  if cmd =? MG_MQTT_CMD_CONNACK then
    c ← rd (mb_buf io) 1;
    mret (mk_mqtt cmd (mq_payload mm) (qos mm) c (message_id mm) (topic mm), 2)
  else if (cmd =? MG_MQTT_CMD_PUBACK) || (cmd =? MG_MQTT_CMD_PUBREC) || (cmd =? MG_MQTT_CMD_PUBREL)
       || (cmd =? MG_MQTT_CMD_PUBCOMP) || (cmd =? MG_MQTT_CMD_SUBACK) || (cmd =? MG_MQTT_CMD_SUBSCRIBE) then
    id ← ntohs (mb_buf io) 0; mret (with_id id, 2)
  else if cmd =? MG_MQTT_CMD_PUBLISH then
    topic_len ← ntohs (mb_buf io) 0;
    t ← strncpy (mb_buf io) 2 (Z.to_nat topic_len);
    let mm := mk_mqtt cmd (mq_payload mm) (qos mm) (connack_ret_code mm) (message_id mm) (Some (t ++ [0])) in
    if MG_MQTT_GET_QOS header >? 0 then
      id ← ntohs (mb_buf io) 0;
      mret (mk_mqtt cmd (mq_payload mm) (qos mm) (connack_ret_code mm) id (topic mm), topic_len + 2 + 2)
    else mret (mm, topic_len + 2)
  else mret (mm, 0).

Definition parse_mqtt (io : mbuf) (mm : mg_mqtt_message) : outcome (mbuf * mg_mqtt_message * Z) :=
  if mb_len io <? 2 then mret (io, mm, -1) else
  header ← rd (mb_buf io) 0;
  let cmd := Z.shiftr header 4 in
  '(vlen, len) ← loop (S (Z.to_nat (mb_len io))) (decode_step io) (1, 0);
  if negb (len =? 0) && (mb_len io <? u64 (len - 1)) then mret (io, mm, -1) else
  io ← mbuf_remove io (1 + (vlen - 1));
  let mm := mk_mqtt cmd (mq_payload mm) (MG_MQTT_GET_QOS header) (connack_ret_code mm) (message_id mm) (topic mm) in
  '(mm, var_len) ← parse_variable_header io header mm;
  io ← mbuf_remove io var_len;
  mret (io, mm, s32 (u64 (len - var_len))).

(** The user's handler may change the receive buffer: [user] is its effect.
    The result lists its calls. *)
Definition mqtt_handler (user : mbuf -> Z -> option mg_mqtt_message -> mbuf) (io : mbuf) (ev : Z) :
    outcome (list (Z * option mg_mqtt_message) * mbuf) :=
  let io := user io ev None in
  if ev =? MG_EV_RECV then
    '(io, mm, len) ← parse_mqtt io mqtt0;
    if len =? -1 then mret ([(ev, None)], io) else
    let mm := mk_mqtt (cmd mm) (mk_str (Some 0) (u64 len)) (qos mm) (connack_ret_code mm) (message_id mm) (topic mm) in
    let io := user io (MG_MQTT_EVENT_BASE + cmd mm) (Some mm) in
    io ← mbuf_remove io (Strs.len (mq_payload mm));
    mret ([(ev, None); (MG_MQTT_EVENT_BASE + cmd mm, Some mm)], io)
  else mret ([(ev, None)], io).

(** The next topic of a SUBSCRIBE message whose payload lies in [b]. *)
Definition mg_mqtt_next_subscribe_topic (b : list Z) (msg : mg_mqtt_message) (pos : Z) : outcome (Z * option (mg_str * Z)) :=
  if u64 pos >=? Strs.len (mq_payload msg) then mret (-1, None) else
  deref (p (mq_payload msg)) (fun q =>
    let buf := q + pos in
    hi ← rd b buf; lo ← rd b (buf + 1);
    let n := Z.lor (Z.shiftl hi 8) lo in
    qos ← rd b (buf + (2 + n));
    mret (s32 (u64 (pos + 2 + n + 1)), Some (mk_str (Some (buf + 2)) n, qos))).

(** ** The packets of MQTT 3.1 *)

(** The remaining length: 7 bits per byte, least significant first. *)
Fixpoint varint (k : nat) (n : Z) : list Z :=
  match k with
  | O => []
  | S k => if n <? 128 then [n] else (n mod 128 + 128) :: varint k (n / 128)
  end.

Definition mqtt_packet (cmd flags : Z) (body : list Z) : list Z := (cmd * 16 + flags) :: varint 8 (size body) ++ body.

Definition be16 (v : Z) : list Z := [v / 256; v mod 256].
Definition field (s : list Z) : list Z := be16 (size s) ++ s.

Inductive mqtt_op :=
| Connect (client_id : list Z) (opts : mg_send_mqtt_handshake_opts)
| Connack (return_code : Z)
| Publish (topic : list Z) (message_id flags : Z) (data : list Z)
| Puback (message_id : Z) | Pubrec (message_id : Z) | Pubrel (message_id : Z) | Pubcomp (message_id : Z)
| Subscribe (topics : list mg_mqtt_topic_expression) (message_id : Z)
| Suback (qoss : list Z) (message_id : Z)
| Unsubscribe (topics : list (list Z)) (message_id : Z)
| Unsuback (message_id : Z) | Ping | Pong | Disconnect.

Definition mqtt_op_run (op : mqtt_op) (c : conn) : outcome conn :=
  match op with
  | Connect id opts => mg_send_mqtt_handshake_opt c id opts
  | Connack rc => mg_mqtt_connack c rc
  | Publish t id flags data => mg_mqtt_publish c t id flags data (size data)
  | Puback id => mg_mqtt_puback c id
  | Pubrec id => mg_mqtt_pubrec c id
  | Pubrel id => mg_mqtt_pubrel c id
  | Pubcomp id => mg_mqtt_pubcomp c id
  | Subscribe ts id => mg_mqtt_subscribe c ts id
  | Suback qoss id => mg_mqtt_suback c qoss (size qoss) id
  | Unsubscribe ts id => mg_mqtt_unsubscribe c ts id
  | Unsuback id => mg_mqtt_unsuback c id
  | Ping => mg_mqtt_ping c
  | Pong => mg_mqtt_pong c
  | Disconnect => mg_mqtt_disconnect c
  end.

Definition opt_field (o : option (list Z)) : list Z := match o with Some s => field s | None => [] end.
Definition connect_flags (opts : mg_send_mqtt_handshake_opts) : Z :=
  o_flags opts + match user_name opts with Some _ => 128 | None => 0 end + match password opts with Some _ => 64 | None => 0 end.

Definition mqtt_op_body (op : mqtt_op) : list Z :=
  match op with
  | Connect id opts => field (lit "MQIsdp") ++ [3; connect_flags opts] ++ be16 (if keep_alive opts =? 0 then 60 else keep_alive opts)
      ++ field id ++ opt_field (user_name opts) ++ opt_field (password opts)
  | Connack rc => [0; rc]
  | Publish t id flags data => field t ++ (if flags / 2 mod 4 =? 0 then [] else be16 id) ++ data
  | Puback id | Pubrec id | Pubrel id | Pubcomp id | Unsuback id => be16 id
  | Subscribe ts id => be16 id ++ concat (map (fun t => field (te_topic t) ++ [te_qos t]) ts)
  | Suback qoss id => be16 id ++ qoss
  | Unsubscribe ts id => be16 id ++ concat (map field ts)
  | Ping | Pong | Disconnect => []
  end.

Definition mqtt_op_header (op : mqtt_op) : Z * Z :=
  match op with
  | Connect _ _ => (1, 0) | Connack _ => (2, 0) | Publish _ _ flags _ => (3, flags)
  | Puback _ => (4, 2) | Pubrec _ => (5, 2) | Pubrel _ => (6, 2) | Pubcomp _ => (7, 2)
  | Subscribe _ _ => (8, 2) | Suback _ _ => (9, 2) | Unsubscribe _ _ => (10, 2) | Unsuback _ => (11, 2)
  | Ping => (12, 0) | Pong => (13, 0) | Disconnect => (14, 0)
  end.

Definition mqtt_op_packet (op : mqtt_op) : list Z :=
  let '(cmd, flags) := mqtt_op_header op in mqtt_packet cmd flags (mqtt_op_body op).

Definition id_ok (v : Z) : Prop := 0 <= v < 2 ^ 16.
Definition str_ok (s : list Z) : Prop := size s < 2 ^ 16.

(** Arguments in the range of their C types, whose lengths fit the format; the
    code encodes the length of a CONNECT packet in one byte. *)
Definition mqtt_op_ok (op : mqtt_op) : Prop :=
  size (mqtt_op_body op) < 2 ^ 31 /\
  match op with
  | Connect id opts => 0 <= o_flags opts < 64 /\ id_ok (keep_alive opts) /\ str_ok id /\ size (mqtt_op_body op) < 128 /\
      match user_name opts with Some u => str_ok u | None => True end /\ match password opts with Some w => str_ok w | None => True end
  | Connack rc => True
  | Publish t id flags _ => str_ok t /\ id_ok id /\ 0 <= flags < 16
  | Puback id | Pubrec id | Pubrel id | Pubcomp id | Unsuback id => id_ok id
  | Subscribe ts id => id_ok id /\ Forall (fun t => str_ok (te_topic t)) ts
  | Suback qoss id => id_ok id
  | Unsubscribe ts id => id_ok id /\ Forall str_ok ts
  | Ping | Pong | Disconnect => True
  end.

(** ** Every operation sends its packet *)

Lemma size_varint k n : 1 <= Z.of_nat k -> 1 <= size (varint k n) <= Z.of_nat k.
Proof.
  revert n. induction k as [|k IH]; intros n Hk; [lia|]. cbn [varint]. case_match; [change (size [n]) with 1; lia|].
  rewrite size_cons. destruct k as [|k]; [simpl; change (size (@nil Z)) with 0; lia|]. specialize (IH (n / 128) ltac:(lia)). lia.
Qed.

(** The loop that encodes the length. *)
Lemma varint_loop d k : forall l n fuel, 0 <= n < 128 ^ Z.of_nat k -> size l + Z.of_nat k <= size d -> (k < fuel)%nat -> (0 < k)%nat ->
  loop fuel vlen_step (fill d l, size l, n)
  = Ret (fill d (l ++ varint k n), size (l ++ varint k n)).
Proof.
  induction k as [|k IH]; intros l n fuel Hn Hd Hf Hk; [lia|]. destruct fuel as [|fuel]; [lia|].
  rewrite loop_S. unfold vlen_step at 1. rewrite wr_fill by lia. cbn [mbind outcome_bind]. cbv zeta. rewrite Z.gtb_ltb. cbn [varint].
  destruct (Z.ltb_spec n 128) as [Hlt|Hge].
  - rewrite (Z.div_small n 128) by lia. cbn [Z.ltb Z.compare mbind outcome_bind mret outcome_ret]. rewrite Z.mod_small by lia. by rewrite size_app.
  - assert (0 < n / 128) by euclid. rewrite (proj2 (Z.ltb_lt 0 (n / 128))) by done.
    assert (rd (fill d (l ++ [n mod 128])) (size l) = Ret (n mod 128)) as -> by (unfold fill; rewrite <- app_assoc; apply rd_at0).
    cbn [mbind outcome_bind]. assert (Z.lor (n mod 128) 128 = n mod 128 + 128) as ->
      by (rewrite Z.lor_comm; change 128 with (Z.shiftl 1 7) at 1; rewrite (lor_disjoint 7) by euclid; lia).
    assert (wr (fill d (l ++ [n mod 128])) (size l) (n mod 128 + 128) = Ret (fill d (l ++ [n mod 128 + 128]))) as ->.
    { unfold fill. rewrite <- !app_assoc. cbn [app]. rewrite wr_after by done. by rewrite !length_app. }
    cbn [mbind outcome_bind mret outcome_ret].
    replace (size l + 1) with (size (l ++ [n mod 128 + 128])) by (by rewrite size_app).
    rewrite Nat2Z.inj_succ, Z.pow_succ_r in Hn by lia.
    destruct k as [|k]; [simpl in Hn; lia|].
    rewrite (IH _ (n / 128) fuel); [by rewrite <- !app_assoc|euclid|rewrite size_app; change (size [_]) with 1; lia|lia|lia].
Qed.

Lemma prepend_spec c cmd flags len pre body n : sent c = pre ++ body -> len = size body -> size body < 2 ^ 56 -> 0 <= cmd < 16 -> 0 <= flags < 16 ->
  can_send (1 + size (varint 8 (size body)) + n) c -> 0 <= n ->
  exists c', mg_mqtt_prepend_header c cmd flags len = Ret c' /\ sent c' = pre ++ mqtt_packet cmd flags body /\ can_send n c'.
Proof.
  intros Hs -> Hlt Hcmd Hfl Hc Hn. pose proof (cs_wf _ _ Hc) as Hwf. pose proof (size_content _ Hwf) as Hsz. fold (sent c) in Hsz.
  rewrite Hs, size_app in Hsz. pose proof (size_nonneg pre). pose proof (size_nonneg body). pose proof (cs_room _ _ Hc) as Hroom. unfold FITS in Hroom.
  pose proof (size_varint 8 (size body) ltac:(lia)) as Hv. unfold mg_mqtt_prepend_header. rewrite <- Hsz. rewrite Hs, size_app in Hroom.
  rewrite u64_small by lia. replace (size pre + size body - size body) with (size pre) by lia.
  rewrite (proj2 (Z.geb_le _ _)) by lia. cbn [negb]. cbv zeta.
  rewrite (u8_small flags) by (unfold is_byte; lia). rewrite (lor_disjoint 4) by lia. change (2 ^ 4) with 16. rewrite u8_small by (unfold is_byte; lia).
  rewrite <- (fill_nil (replicate 9 0)). rewrite wr_fill by (done || lia). cbn [mbind outcome_bind app].
  change 1 with (size [cmd * 16 + flags]) at 1.
  rewrite (varint_loop (replicate 9 0) 8 [cmd * 16 + flags] (size body) 10); [|split; [lia|exact Hlt]|done|lia|lia].
  cbn [mbind outcome_bind]. set (hd := [cmd * 16 + flags] ++ varint 8 (size body)).
  assert (size hd = 1 + size (varint 8 (size body))) as Hhd by (subst hd; by rewrite size_app).
  destruct (sends_insert (size pre) hd c n) as (c' & E & Hs' & Hc'); [rewrite Hs, size_app; lia|by rewrite Hhd|done|].
  exists c'. split_and!; [|rewrite Hs', Hs|done].
  - rewrite <- E. unfold on_send_mbuf. rewrite mbuf_insert_prefix by (rewrite size_fill by (change (size (replicate 9 0)) with 9; lia); change (size (replicate 9 0)) with 9; lia).
    unfold fill. by rewrite slice_prefix.
  - rewrite slice_prefix, size_app. replace (size pre + size body - size pre) with (size body) by lia.
    rewrite slice_app_r, Z.sub_diag, slice_all by lia. unfold mqtt_packet. subst hd. by rewrite <- app_assoc.
Qed.

(** A body sent after a header is inserted before it. *)
Lemma sends_packet f body cmd flags (len : conn -> conn -> Z) : sends f body -> size body < 2 ^ 56 -> 0 <= cmd < 16 -> 0 <= flags < 16 ->
  (forall c c' n, can_send n c -> 0 <= n -> can_send n c' -> sent c' = sent c ++ body -> len c c' = size body) ->
  sends (fun c => c' ← f c; mg_mqtt_prepend_header c' cmd flags (len c c')) (mqtt_packet cmd flags body).
Proof.
  intros Hf Hb Hcmd Hfl Hlen c n Hc Hn. unfold mqtt_packet in Hc. rewrite size_cons, size_app in Hc.
  pose proof (size_varint 8 (size body) ltac:(lia)) as Hv.
  destruct (Hf c (1 + size (varint 8 (size body)) + n)) as (c1 & E1 & Hs1 & Hc1).
  { replace (size body + (1 + size (varint 8 (size body)) + n)) with (1 + (size (varint 8 (size body)) + size body) + n) by lia. done. }
  { lia. }
  rewrite E1. cbn [mbind outcome_bind]. apply (prepend_spec c1 cmd flags (len c c1) (sent c) body n); try done.
  apply (Hlen c c1 n); [|done| |done]; eapply sends_weaken; try done; pose proof (size_nonneg body); lia.
Qed.

(** The length measured on the send buffer. *)
Lemma measured c c' n body : can_send n c -> 0 <= n -> can_send n c' -> sent c' = sent c ++ body ->
  u64 (mb_len (send_mbuf c') - mb_len (send_mbuf c)) = size body.
Proof.
  intros Hc Hn Hc' Hs. pose proof (size_content _ (cs_wf _ _ Hc)) as H1. pose proof (size_content _ (cs_wf _ _ Hc')) as H2.
  fold (sent c) in H1. fold (sent c') in H2. rewrite Hs, size_app in H2. pose proof (cs_room _ _ Hc') as H3. rewrite Hs, size_app in H3. unfold FITS in H3.
  pose proof (size_nonneg body). pose proof (size_nonneg (sent c)). rewrite u64_small; lia.
Qed.

Lemma size_be16 v : size (be16 v) = 2.
Proof. done. Qed.
Lemma size_field s : size (field s) = 2 + size s.
Proof. unfold field. by rewrite size_app. Qed.

Lemma htons_be16 v : id_ok v -> htons v = be16 v.
Proof. unfold id_ok, htons, be16, u16. intros. by rewrite Z.mod_small. Qed.

(** Pieces that are sent one after the other. *)
Lemma send_be16 v : id_ok v -> sends (fun c => mg_send false c (htons v) 2) (be16 v).
Proof. intros Hv. rewrite htons_be16 by done. by apply mg_send_sends. Qed.

Lemma send_byte v : sends (fun c => mg_send false c [v] 1) [v].
Proof. by apply mg_send_sends. Qed.

Lemma send_str s : str_ok s -> sends (fun c => mg_send false c s (size s)) s.
Proof. unfold str_ok. intros. apply mg_send_sends. lia. Qed.

Lemma send_field_sends s : str_ok s -> sends (fun c => send_field c s) (field s).
Proof.
  intros Hs. unfold send_field, field. pose proof (size_nonneg s). unfold str_ok in *.
  apply (sends_bind (fun c => mg_send false c (htons (size s)) 2) (fun c => mg_send false c s (size s)));
    [apply send_be16; unfold id_ok; lia|by apply send_str].
Qed.

Lemma subscribe_topics_sends ts : Forall (fun t => str_ok (te_topic t)) ts ->
  sends (fun c => subscribe_topics c ts) (concat (map (fun t => field (te_topic t) ++ [te_qos t]) ts)).
Proof.
  induction 1 as [|t ts Ht _ IH]; [apply sends_nil|]. cbn [map concat subscribe_topics]. pose proof (size_nonneg (te_topic t)).
  intros c n Hc Hn. unfold field in *. rewrite <- !app_assoc in *. revert c n Hc Hn. unfold str_ok in *.
  apply (sends_bind (fun c => mg_send false c (htons (size (te_topic t))) 2)); [apply send_be16; unfold id_ok; lia|].
  apply (sends_bind (fun c => mg_send false c (te_topic t) (size (te_topic t)))); [by apply send_str|].
  by apply (sends_bind (fun c => mg_send false c [te_qos t] 1)); [apply send_byte|].
Qed.

Lemma unsubscribe_topics_sends ts : Forall str_ok ts -> sends (fun c => unsubscribe_topics c ts) (concat (map field ts)).
Proof.
  induction 1 as [|t ts Ht _ IH]; [apply sends_nil|]. cbn [map concat unsubscribe_topics]. pose proof (size_nonneg t).
  intros c n Hc Hn. unfold field at 1 in Hc. unfold field at 1. rewrite <- !app_assoc in *. revert c n Hc Hn. unfold str_ok in *.
  apply (sends_bind (fun c => mg_send false c (htons (size t)) 2)); [apply send_be16; unfold id_ok; lia|].
  by apply (sends_bind (fun c => mg_send false c t (size t))); [apply send_str|].
Qed.

Lemma send_bytes_sends l : sends (fun c => send_bytes c l) l.
Proof.
  induction l as [|x l IH]; [apply sends_nil|]. cbn [send_bytes]. change (x :: l) with ([x] ++ l).
  by apply (sends_bind (fun c => mg_send false c [x] 1)); [apply send_byte|].
Qed.

Lemma short_command_sends cmd id : id_ok id -> 0 <= cmd < 16 -> sends (fun c => mg_send_mqtt_short_command c cmd id) (mqtt_packet cmd 2 (be16 id)).
Proof.
  intros Hid Hcmd. apply (sends_packet (fun c => mg_send false c (htons id) 2) (be16 id) cmd 2 (fun _ _ => 2)); [by apply send_be16|done|done|lia|done].
Qed.

Lemma get_qos flags : 0 <= flags -> MG_MQTT_GET_QOS flags = flags / 2 mod 4.
Proof.
  intros Hf. unfold MG_MQTT_GET_QOS. rewrite Z.shiftr_land. change (Z.shiftr 6 1) with (2 ^ 2 - 1).
  rewrite land_ones_mod, Z.shiftr_div_pow2 by lia. done.
Qed.

(** A payload of any length that fits an [int]. *)
Lemma publish_sends t id flags data : mqtt_op_ok (Publish t id flags data) ->
  sends (fun c => mg_mqtt_publish c t id flags data (size data)) (mqtt_op_packet (Publish t id flags data)).
Proof.
  intros (Hsz & Ht & Hid & Hfl). unfold mqtt_op_packet, mqtt_op_header. cbn [mqtt_op_body] in *. pose proof (size_nonneg t). pose proof (size_nonneg data).
  set (idb := if flags / 2 mod 4 =? 0 then [] else be16 id) in *. assert (0 <= size idb) by apply size_nonneg. rewrite !size_app, size_field in Hsz.
  unfold mg_mqtt_publish. set (f := fun c => c ← mg_send false c (htons (size t)) 2; c ← mg_send false c t (size t);
    c ← (if MG_MQTT_GET_QOS flags >? 0 then mg_send false c (htons id) 2 else mret c); mg_send false c data (size data)).
  assert (sends f (field t ++ idb ++ data)) as Hf.
  { unfold f, field. rewrite <- app_assoc. unfold str_ok in *.
    apply (sends_bind (fun c => mg_send false c (htons (size t)) 2)); [apply send_be16; unfold id_ok; lia|].
    apply (sends_bind (fun c => mg_send false c t (size t))); [by apply send_str|].
    apply (sends_bind (fun c => if MG_MQTT_GET_QOS flags >? 0 then mg_send false c (htons id) 2 else mret c)); [|apply mg_send_sends; lia].
    rewrite get_qos by lia. unfold idb. rewrite Z.gtb_ltb. destruct (Z.eqb_spec (flags / 2 mod 4) 0) as [E|E].
    - rewrite E. apply sends_nil.
    - rewrite (proj2 (Z.ltb_lt _ _)) by euclid. by apply send_be16. }
  intros c n Hc Hn. destruct (sends_packet f (field t ++ idb ++ data) 3 flags (fun c c' => u64 (mb_len (send_mbuf c') - mb_len (send_mbuf c))) Hf) with (c := c) (n := n)
    as (c' & E & H'); [rewrite !size_app, size_field; lia|lia|lia|intros; by eapply measured|done|done|].
  exists c'. split; [|done]. rewrite <- E. unfold f. destruct (mg_send false c _ _) as [c1|]; [|done]. cbn [mbind outcome_bind].
  destruct (mg_send false c1 _ _) as [c2|]; [|done]. cbn [mbind outcome_bind].
  by destruct (if MG_MQTT_GET_QOS flags >? 0 then _ else _) as [c3|].
Qed.

(** The connection flags, for flags without user name and password. *)
Lemma handshake_flags f : 0 <= f < 64 ->
  Z.lor f 128 = f + 128 /\ Z.lor f 64 = f + 64 /\ Z.lor (f + 128) 64 = f + 128 + 64 /\
  Z.land f 128 = 0 /\ Z.land f 64 = 0 /\ Z.land (f + 128) 128 = 128 /\ Z.land (f + 128) 64 = 0 /\
  Z.land (f + 64) 128 = 0 /\ Z.land (f + 64) 64 = 64 /\ Z.land (f + 128 + 64) 128 = 128 /\ Z.land (f + 128 + 64) 64 = 64.
Proof.
  intros Hf. pose proof (range_forallb (fun f => (Z.lor f 128 =? f + 128) && (Z.lor f 64 =? f + 64) && (Z.lor (f + 128) 64 =? f + 128 + 64) &&
    (Z.land f 128 =? 0) && (Z.land f 64 =? 0) && (Z.land (f + 128) 128 =? 128) && (Z.land (f + 128) 64 =? 0) &&
    (Z.land (f + 64) 128 =? 0) && (Z.land (f + 64) 64 =? 64) && (Z.land (f + 128 + 64) 128 =? 128) && (Z.land (f + 128 + 64) 64 =? 64))
    64 ltac:(vm_compute; reflexivity) f Hf) as H. cbv beta in H. lia.
Qed.

Definition opt_size (o : option (list Z)) : Z := match o with Some s => size s + 2 | None => 0 end.

Lemma opt_field_sends o : match o with Some s => str_ok s | None => True end ->
  sends (fun c => match o with Some s => send_field c s | None => mret c end) (opt_field o).
Proof. destruct o; [apply send_field_sends|intros _; apply sends_nil]. Qed.

Lemma opt_size_nonneg o : 0 <= opt_size o.
Proof. destruct o as [s|]; simpl; [pose proof (size_nonneg s)|]; lia. Qed.

Lemma connect_size id opts : size (mqtt_op_body (Connect id opts)) = 14 + size id + opt_size (user_name opts) + opt_size (password opts).
Proof.
  cbn [mqtt_op_body]. rewrite !size_app, !size_field. change (size (lit "MQIsdp")) with 6. change (size [3; connect_flags opts]) with 2. rewrite size_be16.
  unfold opt_size, opt_field. destruct (user_name opts), (password opts); rewrite ?size_field; change (size (@nil Z)) with 0; lia.
Qed.

(** The handshake as the sequence of its pieces. *)
Lemma handshake_pieces id opts rem c : 0 <= o_flags opts < 64 -> rem < 128 ->
  rem = 14 + size id + opt_size (user_name opts) + opt_size (password opts) ->
  mg_send_mqtt_handshake_opt c id opts =
    (c ← mg_send false c [1 * 16 + 0] 1; c ← mg_send false c [rem] 1;
     c ← mg_send false c ([0; 6] ++ lit "MQIsdp" ++ [3]) 9; c ← mg_send false c [connect_flags opts] 1;
     c ← mg_send false c (htons (if keep_alive opts =? 0 then 60 else keep_alive opts)) 2;
     c ← send_field c id;
     c ← match user_name opts with Some s => send_field c s | None => mret c end;
     match password opts with Some s => send_field c s | None => mret c end).
Proof.
  intros Hfl Hrem Er. destruct (handshake_flags (o_flags opts) Hfl) as (F1 & F2 & F3 & F4 & F5 & F6 & F7 & F8 & F9 & F10 & F11).
  pose proof (opt_size_nonneg (user_name opts)) as Hu. pose proof (opt_size_nonneg (password opts)) as Hw. pose proof (size_nonneg id).
  unfold mg_send_mqtt_handshake_opt, connect_flags. change (u8 (Z.shiftl MG_MQTT_CMD_CONNECT 4)) with (1 * 16 + 0).
  unfold MG_MQTT_HAS_USER_NAME, MG_MQTT_HAS_PASSWORD. unfold opt_size in *. change (9 + 1 + 2 + 2) with 14.
  rewrite (u8_small (14 + size id)) by (unfold is_byte; lia).
  destruct (user_name opts) as [u|], (password opts) as [w|]; rewrite ?(u8_small (14 + size id + _)) by (unfold is_byte; lia);
    rewrite ?(u8_small (14 + size id + _ + _)) by (unfold is_byte; lia);
    rewrite ?F1, ?F2, ?F3, ?F4, ?F5, ?F6, ?F7, ?F8, ?F9, ?F10, ?F11, ?Z.add_0_r in *; cbn [Z.eqb Pos.eqb negb];
    rewrite ?F1, ?F2, ?F3, ?F4, ?F5, ?F6, ?F7, ?F8, ?F9, ?F10, ?F11, ?Z.add_0_r in *; cbn [Z.eqb Pos.eqb negb]; by rewrite <- Er.
Qed.

Lemma connect_sends id opts : mqtt_op_ok (Connect id opts) ->
  sends (fun c => mg_send_mqtt_handshake_opt c id opts) (mqtt_op_packet (Connect id opts)).
Proof.
  intros (_ & Hfl & Hka & Hid & Hsz & Hu & Hw). unfold mqtt_op_packet, mqtt_op_header, mqtt_packet.
  set (body := mqtt_op_body (Connect id opts)) in *. pose proof (size_nonneg body).
  assert (varint 8 (size body) = [size body]) as -> by (cbn [varint]; by rewrite (proj2 (Z.ltb_lt _ _))).
  intros c n Hc Hn. rewrite (handshake_pieces id opts (size body)) by (done || apply connect_size). revert c n Hc Hn.
  change (1 * 16 + 0 :: [size body] ++ body) with ([1 * 16 + 0] ++ [size body] ++ body). set (rem := size body). subst body. cbn [mqtt_op_body].
  change (field (lit "MQIsdp") ++ [3; connect_flags opts] ++ be16 (if keep_alive opts =? 0 then 60 else keep_alive opts) ++ field id ++ opt_field (user_name opts) ++ opt_field (password opts))
    with (([0; 6] ++ lit "MQIsdp" ++ [3]) ++ [connect_flags opts] ++ be16 (if keep_alive opts =? 0 then 60 else keep_alive opts) ++ field id ++ opt_field (user_name opts) ++ opt_field (password opts)).
  apply (sends_bind (fun c => mg_send false c [1 * 16 + 0] 1)); [apply send_byte|].
  apply (sends_bind (fun c => mg_send false c [rem] 1)); [apply send_byte|].
  apply (sends_bind (fun c => mg_send false c ([0; 6] ++ lit "MQIsdp" ++ [3]) 9)); [by apply mg_send_sends|].
  apply (sends_bind (fun c => mg_send false c [connect_flags opts] 1)); [apply send_byte|].
  apply (sends_bind (fun c => mg_send false c (htons (if keep_alive opts =? 0 then 60 else keep_alive opts)) 2));
    [apply send_be16; unfold id_ok in *; destruct (Z.eqb_spec (keep_alive opts) 0); lia|].
  apply (sends_bind (fun c => send_field c id)); [by apply send_field_sends|].
  apply (sends_bind (fun c => match user_name opts with Some s => send_field c s | None => mret c end)); by apply opt_field_sends.
Qed.

(** A message identifier, a list of pieces, and the header put before them. *)
Lemma with_id_sends g id body cmd : id_ok id -> sends g body -> size body < 2 ^ 31 -> 0 <= cmd < 16 ->
  sends (fun c => c' ← mg_send false c (htons id) 2; c' ← g c';
    mg_mqtt_prepend_header c' cmd 2 (u64 (mb_len (send_mbuf c') - mb_len (send_mbuf c)))) (mqtt_packet cmd 2 (be16 id ++ body)).
Proof.
  intros Hid Hg Hb Hcmd c n Hc Hn.
  destruct (sends_packet (fun c => c ← mg_send false c (htons id) 2; g c) (be16 id ++ body) cmd 2
    (fun c c' => u64 (mb_len (send_mbuf c') - mb_len (send_mbuf c)))) with (c := c) (n := n) as (c' & E & H');
    [apply (sends_bind (fun c => mg_send false c (htons id) 2)); [by apply send_be16|done]|rewrite size_app, size_be16; lia|done|lia
    |intros; by eapply measured|done|done|].
  exists c'. split; [|done]. rewrite <- E. by destruct (mg_send false c _ _).
Qed.

Lemma op_sends op : mqtt_op_ok op -> sends (mqtt_op_run op) (mqtt_op_packet op).
Proof.
  intros Hok. destruct op as [id opts|rc|t id flags data|id|id|id|id|ts id|qoss id|ts id|id| | |];
    try first [exact (short_command_sends 4 id (proj2 Hok) ltac:(lia))|exact (short_command_sends 5 id (proj2 Hok) ltac:(lia))
      |exact (short_command_sends 6 id (proj2 Hok) ltac:(lia))|exact (short_command_sends 7 id (proj2 Hok) ltac:(lia))
      |exact (short_command_sends 11 id (proj2 Hok) ltac:(lia))].
  - by apply connect_sends.
  - assert (sends (fun c => c ← mg_send false c [0] 1; mg_send false c [rc] 1) [0; rc]) as Hs
      by (apply (sends_bind (fun c => mg_send false c [0] 1) (fun c => mg_send false c [rc] 1) [0] [rc]); apply send_byte).
    intros c n Hc Hn. destruct (sends_packet _ _ 2 0 (fun _ _ => 2) Hs) with (c := c) (n := n) as (c' & E & H'); [done|lia|lia|done|done|done|].
    exists c'. split; [|done]. rewrite <- E. cbn [mqtt_op_run]. unfold mg_mqtt_connack. by destruct (mg_send false c _ _).
  - by apply publish_sends.
  - destruct Hok as (Hsz & Hid & Hts). cbn [mqtt_op_body] in Hsz. rewrite size_app, size_be16 in Hsz.
    apply (with_id_sends (fun c => subscribe_topics c ts)); [done|by apply subscribe_topics_sends|lia|lia].
  - destruct Hok as (Hsz & Hid). cbn [mqtt_op_body] in Hsz. rewrite size_app, size_be16 in Hsz. pose proof (size_nonneg qoss).
    assert (sends (fun c => c ← mg_send false c (htons id) 2; send_bytes c (take (Z.to_nat (size qoss)) qoss)) (be16 id ++ qoss)) as Hs.
    { apply (sends_bind (fun c => mg_send false c (htons id) 2)); [by apply send_be16|]. rewrite size_to_nat, firstn_all. apply send_bytes_sends. }
    intros c n Hc Hn. destruct (sends_packet _ _ 9 2 (fun _ _ => 2 + size qoss) Hs) with (c := c) (n := n) as (c' & E & H');
      [rewrite size_app, size_be16; lia|lia|lia|intros; by rewrite size_app, size_be16|done|done|].
    exists c'. split; [|done]. rewrite <- E. cbn [mqtt_op_run]. unfold mg_mqtt_suback. by destruct (mg_send false c _ _).
  - destruct Hok as (Hsz & Hid & Hts). cbn [mqtt_op_body] in Hsz. rewrite size_app, size_be16 in Hsz.
    apply (with_id_sends (fun c => unsubscribe_topics c ts)); [done|by apply unsubscribe_topics_sends|lia|lia].
  - by refine (sends_packet mret [] 12 0 (fun _ _ => 0) sends_nil _ _ _ _); first [done|lia].
  - by refine (sends_packet mret [] 13 0 (fun _ _ => 0) sends_nil _ _ _ _); first [done|lia].
  - by refine (sends_packet mret [] 14 0 (fun _ _ => 0) sends_nil _ _ _ _); first [done|lia].
Qed.

(** Every sending function of the module appends exactly one MQTT 3.1 packet
    to the send buffer: the fixed header, the remaining length in its variable
    encoding, and the fields of the command.  This needs room in the buffer,
    arguments in range and, for CONNECT, a body below 128 bytes. *)
Theorem mqtt_ops_send_packets op c n :
  mqtt_op_ok op -> can_send (size (mqtt_op_packet op) + n) c -> 0 <= n ->
  exists c', mqtt_op_run op c = Ret c' /\ sent c' = sent c ++ mqtt_op_packet op /\ can_send n c'.
Proof. intros Hok Hc Hn. by apply op_sends. Qed.

Definition publish_op : mqtt_op := Publish (lit "a/b") 7 2 (lit "hi").

Lemma mqtt_ops_send_packets_witness :
  exists c', mqtt_op_run publish_op fresh_conn = Ret c' /\ sent c' = [] ++ [50; 9; 0; 3; 97; 47; 98; 0; 7; 104; 105] /\ can_send 5 c'.
Proof.
  apply (mqtt_ops_send_packets publish_op fresh_conn 5); [|apply fresh_can_send; split; vm_compute; discriminate|lia].
  split; [reflexivity|]. split; [reflexivity|]. split; [split; [discriminate|reflexivity]|lia].
Defined.

(** ** The parser reads the packets back *)

Lemma land_127 v : Z.land v 127 = v mod 128.
Proof. change 127 with (2 ^ 7 - 1). apply land_ones_mod. lia. Qed.

Lemma bit_128 v : 0 <= v < 256 -> (Z.land v 128 =? 0) = (v <? 128).
Proof.
  intros Hv. pose proof (range_forallb (fun v => Bool.eqb (Z.land v 128 =? 0) (v <? 128)) 256 ltac:(vm_compute; reflexivity) v Hv) as H.
  cbv beta in H. by apply Bool.eqb_prop.
Qed.

Lemma decode_varint io k : forall pre n j acc tl fuel,
  mb_buf io = pre ++ varint k n ++ tl -> size pre = 1 + j -> 0 <= j -> 0 <= n < 128 ^ Z.of_nat k -> 0 <= acc -> acc + n * 128 ^ j < 2 ^ 31 ->
  size pre + size (varint k n) <= mb_len io -> size (varint k n) <= Z.of_nat fuel -> (0 < k)%nat -> (n = 0 -> j = 0) ->
  loop fuel (decode_step io) (1 + j, acc)
  = Ret (1 + j + size (varint k n), acc + n * 128 ^ j).
Proof.
  induction k as [|k IH]; intros pre n j acc tl fuel Hb Hp Hj Hn Hacc Hlt Hl Hf Hk Hnz; [lia|].
  pose proof (size_varint (S k) n ltac:(lia)). destruct fuel as [|fuel]; [lia|].
  assert (0 < 128 ^ j) as Hpow by (apply Z.pow_pos_nonneg; lia).
  assert (2 ^ (7 * j) = 128 ^ j) as Epow by (rewrite Z.pow_mul_r by lia; done).
  assert (j < 5) as Hj5.
  { destruct (decide (j < 5)); [done|]. assert (128 ^ 5 <= 128 ^ j) by (apply Z.pow_le_mono_r; lia). change (128 ^ 5) with 34359738368 in *. destruct (decide (n = 0)); [lia|nia]. }
  rewrite loop_S. unfold decode_step at 1. cbn [varint] in *. destruct (Z.ltb_spec n 128) as [Hs|Hs].
  - rewrite Hb, <- Hp. cbn [app]. rewrite rd_at0. cbn [mbind outcome_bind]. unfold var_bits. replace (size pre - 1) with j by lia.
    rewrite (proj2 (Z.ltb_lt (7 * j) 32)) by lia. rewrite land_127, Z.mod_small, Z.shiftl_mul_pow2, Epow by lia.
    unfold int. rewrite decide_True by nia. cbn [mbind outcome_bind]. rewrite bit_128 by lia. rewrite (proj2 (Z.ltb_lt n 128)) by done.
    cbn [negb andb mret outcome_ret]. rewrite u64_small by nia. change (size [n]) with 1. done.
  - assert (n = n / 128 * 128 + n mod 128) as En by euclid. assert (0 <= n mod 128 < 128) by euclid. assert (0 < n / 128) by euclid.
    assert (n * 128 ^ j = n mod 128 * 128 ^ j + n / 128 * 128 ^ (j + 1)) as Enj.
    { rewrite Z.pow_add_r by lia. change (128 ^ 1) with 128. rewrite En at 1. ring. }
    assert (0 < 128 ^ (j + 1)) by (apply Z.pow_pos_nonneg; lia). assert (0 <= n mod 128 * 128 ^ j) by nia. assert (0 <= n / 128 * 128 ^ (j + 1)) by nia.
    rewrite size_cons in Hl, Hf. pose proof (size_nonneg (varint k (n / 128))).
    assert (rd (mb_buf io) (1 + j) = Ret (n mod 128 + 128)) as -> by (rewrite Hb, <- Hp; apply rd_at0).
    cbn [mbind outcome_bind]. unfold var_bits. replace (1 + j - 1) with j by lia. rewrite (proj2 (Z.ltb_lt (7 * j) 32)) by lia.
    rewrite land_127. replace ((n mod 128 + 128) mod 128) with (n mod 128) by euclid. rewrite Z.shiftl_mul_pow2, Epow by lia.
    unfold int. rewrite decide_True by lia. cbn [mbind outcome_bind]. rewrite bit_128 by lia. rewrite (proj2 (Z.ltb_ge (n mod 128 + 128) 128)) by lia.
    rewrite (proj2 (Z.leb_le (1 + j + 1) (mb_len io))) by lia. cbn [negb andb mret outcome_ret]. rewrite u64_small by lia.
    rewrite Nat2Z.inj_succ, Z.pow_succ_r in Hn by lia. destruct k as [|k]; [simpl in Hn; lia|].
    replace (1 + j + 1) with (1 + (j + 1)) by lia.
    rewrite (IH (pre ++ [n mod 128 + 128]) (n / 128) (j + 1) _ tl fuel);
      [|by rewrite Hb, <- app_assoc|rewrite size_app; change (size [_]) with 1; lia|lia|euclid|lia|lia|rewrite size_app; change (size [_]) with 1; lia|lia|lia|lia].
    rewrite size_cons. do 2 f_equal; lia.
Qed.

(** What the parser makes of a packet: the fields it stores, the bytes it
    consumes, and the payload it leaves at the start of the buffer. *)
Definition op_fields (op : mqtt_op) : mg_mqtt_message :=
  let '(cmd, flags) := mqtt_op_header op in
  let mm := mk_mqtt cmd (mk_str None 0) (flags / 2 mod 4) in
  match op with
  | Connack rc => mm rc 0 None
  | Publish t _ _ _ => mm 0 0 (Some (t ++ [0]))
  | Puback id | Pubrec id | Pubrel id | Pubcomp id | Subscribe _ id | Suback _ id => mm 0 id None
  | _ => mm 0 0 None
  end.

Definition op_var (op : mqtt_op) : list Z :=
  match op with
  | Connack rc => [0; rc]
  | Publish t _ _ _ => field t
  | Puback id | Pubrec id | Pubrel id | Pubcomp id | Subscribe _ id | Suback _ id => be16 id
  | _ => []
  end.

Definition op_payload (op : mqtt_op) : list Z :=
  match op with
  | Connack _ | Puback _ | Pubrec _ | Pubrel _ | Pubcomp _ => []
  | Publish _ _ _ data => data
  | Subscribe ts _ => concat (map (fun t => field (te_topic t) ++ [te_qos t]) ts)
  | Suback qoss _ => qoss
  | op => mqtt_op_body op
  end.

(** The packets the parser reads correctly: a PUBLISH of quality of service 0. *)
Definition op_parsable (op : mqtt_op) : Prop :=
  match op with Publish t _ flags _ => flags / 2 mod 4 = 0 /\ 0 ∉ t | _ => True end.

Lemma op_body_split op : op_parsable op -> mqtt_op_body op = op_var op ++ op_payload op.
Proof. destruct op; try done. intros [E _]. cbn [mqtt_op_body op_var op_payload]. by rewrite E. Qed.

Lemma ntohs_be16 v b tl : b = be16 v ++ tl -> ntohs b 0 = Ret v.
Proof. intros ->. unfold ntohs, be16. cbn [app]. change (rd (v / 256 :: v mod 256 :: tl) 0) with (Ret (v / 256)).
  change (rd (v / 256 :: v mod 256 :: tl) (0 + 1)) with (Ret (v mod 256)). cbn [mbind outcome_bind mret outcome_ret]. f_equal. euclid. Qed.

Lemma strncpy_spec b t : 0 ∉ t -> forall pre tl, b = pre ++ t ++ tl -> strncpy b (size pre) (length t) = Ret t.
Proof.
  induction t as [|c t IH]; intros Hno pre tl Hb; [done|]. cbn [length strncpy]. assert (rd b (size pre) = Ret c) as -> by (rewrite Hb; apply rd_at0). cbn [mbind outcome_bind].
  apply not_elem_of_cons in Hno as [Hc Hno]. rewrite (proj2 (Z.eqb_neq c 0)) by done.
  replace (size pre + 1) with (size (pre ++ [c])) by (by rewrite size_app).
  rewrite (IH Hno (pre ++ [c]) tl) by (by rewrite Hb, <- app_assoc). done.
Qed.

Lemma variable_header_spec op io flags tl : mqtt_op_ok op -> op_parsable op -> mb_buf io = op_var op ++ tl ->
  (flags / 2 mod 4 = (mqtt_op_header op).2 / 2 mod 4) -> 0 <= flags ->
  parse_variable_header io flags (mk_mqtt (mqtt_op_header op).1 (mk_str None 0) ((mqtt_op_header op).2 / 2 mod 4) 0 0 None) = Ret (op_fields op, size (op_var op)).
Proof.
  intros Hok Hpar Hb Hfl Hf0. unfold parse_variable_header, op_fields.
  destruct op as [cid opts|rc|t id fl data|id|id|id|id|ts id|qoss id|ts id|id| | |]; cbn [mqtt_op_header fst snd cmd] in *;
    cbn [Z.eqb Pos.eqb orb]; try reflexivity; cbn [op_var] in *;
    try (rewrite (ntohs_be16 id _ tl Hb); reflexivity).
  - rewrite Hb. reflexivity.
  - destruct Hok as (_ & Ht & _). destruct Hpar as [Hq Hno]. unfold str_ok in Ht. pose proof (size_nonneg t).
    unfold field in Hb. rewrite <- app_assoc in Hb.
    rewrite (ntohs_be16 (size t) _ (t ++ tl)) by done. cbn [mbind outcome_bind].
    rewrite size_to_nat. change 2 with (size (be16 (size t))) at 1. rewrite (strncpy_spec _ t Hno (be16 (size t)) tl) by done. cbn [mbind outcome_bind].
    rewrite get_qos by done. rewrite Hfl, Hq. cbn [Z.gtb Z.compare mret outcome_ret]. rewrite size_field, Z.add_comm. done.
Qed.

Lemma parse_packet io op rest : mbuf_wf io -> content io = mqtt_op_packet op ++ rest -> mqtt_op_ok op -> op_parsable op ->
  exists io', parse_mqtt io mqtt0 = Ret (io', op_fields op, size (op_payload op)) /\ mbuf_wf io' /\ content io' = op_payload op ++ rest.
Proof.
  intros Hwf Hc Hok Hpar. pose proof (proj1 Hok) as Hsz. destruct (buf_content io Hwf) as [q Hb]. rewrite Hc in Hb.
  pose proof (size_content io Hwf) as Hl. rewrite Hc in Hl. unfold mqtt_op_packet, mqtt_packet in *.
  assert (0 <= (mqtt_op_header op).2 < 16 /\ 1 <= (mqtt_op_header op).1 < 16) as [Hfl Hcm] by (clear - Hok; destruct op; cbn [mqtt_op_header fst snd]; try lia; destruct Hok as (_ & _ & _ & ?); lia).
  assert (exists cm fl, mqtt_op_header op = (cm, fl)) as (cm & fl & Eh) by (destruct (mqtt_op_header op); eauto). rewrite Eh in *. cbn [fst snd] in *.
  set (body := mqtt_op_body op) in *. set (vl := varint 8 (size body)) in *. pose proof (size_nonneg body). pose proof (size_nonneg rest).
  pose proof (size_varint 8 (size body) ltac:(lia)) as Hvl. fold vl in Hvl. rewrite size_app, size_cons, size_app in Hl.
  unfold parse_mqtt. rewrite (proj2 (Z.ltb_ge (mb_len io) 2)) by lia. set (h := cm * 16 + fl) in *.
  assert (rd (mb_buf io) 0 = Ret h) as -> by (rewrite Hb; done). cbn [mbind outcome_bind].
  pose proof (decode_varint io 8 [h] (size body) 0 0 ((body ++ rest) ++ q) (S (Z.to_nat (mb_len io)))) as Hd. fold vl in Hd.
  rewrite Z.add_0_l, Z.pow_0_r, Z.mul_1_r in Hd. change (1 + 0) with 1 in Hd. change (size [h]) with 1 in Hd. change (128 ^ Z.of_nat 8) with (2 ^ 56) in Hd.
  rewrite Hd by (first [lia|done|rewrite Hb; cbn [app]; rewrite <- !app_assoc; done]). cbn [mbind outcome_bind].
  assert (negb (size body =? 0) && (mb_len io <? u64 (size body - 1)) = false) as ->.
  { destruct (Z.eqb_spec (size body) 0); [done|]. rewrite u64_small by lia. apply (proj2 (Z.ltb_ge _ _)). lia. }
  replace (1 + (1 + size vl - 1)) with (size (h :: vl)) by (rewrite size_cons; lia).
  destruct (mbuf_remove_front io (h :: vl) (body ++ rest) Hwf) as (io1 & E1 & Hwf1 & Hl1 & Hc1); [by rewrite Hc; cbn [app]; rewrite <- app_assoc|].
  rewrite E1. cbn [mbind outcome_bind]. unfold body in Hc1. rewrite op_body_split, <- app_assoc in Hc1 by done.
  destruct (buf_content io1 Hwf1) as [q1 Hb1]. rewrite Hc1, <- app_assoc in Hb1.
  assert (Z.shiftr h 4 = cm) as -> by (rewrite Z.shiftr_div_pow2 by lia; unfold h; euclid).
  assert (MG_MQTT_GET_QOS h = fl / 2 mod 4) as -> by (rewrite get_qos by lia; unfold h; euclid).
  pose proof (variable_header_spec op io1 h ((op_payload op ++ rest) ++ q1) Hok Hpar Hb1) as Hv. rewrite Eh in Hv. cbn [fst snd] in Hv.
  unfold mqtt0. cbn [mq_payload connack_ret_code message_id topic]. rewrite Hv by (unfold h; euclid). cbn [mbind outcome_bind].
  destruct (mbuf_remove_front io1 (op_var op) (op_payload op ++ rest) Hwf1 Hc1) as (io2 & E2 & Hwf2 & _ & Hc2). rewrite E2. cbn [mbind outcome_bind mret outcome_ret].
  exists io2. split_and!; [|done|done]. assert (size body = size (op_var op) + size (op_payload op)) as Esz by (unfold body; by rewrite op_body_split, size_app).
  pose proof (size_nonneg (op_payload op)). pose proof (size_nonneg (op_var op)).
  do 3 f_equal. rewrite u64_small, s32_small; lia.
Qed.

(** The message with its payload, at the start of the receive buffer. *)
Definition delivered (op : mqtt_op) : mg_mqtt_message :=
  let mm := op_fields op in
  mk_mqtt (cmd mm) (mk_str (Some 0) (size (op_payload op))) (qos mm) (connack_ret_code mm) (message_id mm) (topic mm).

(** C28: what one side sends, the other receives.  The bytes an operation appends
    to an empty send buffer, arriving before any bytes [rest], make the event
    handler call the user's handler once, with the event of the command and a
    message that has the return code, the topic and, at the start of the receive
    buffer, the payload of the operation, and the identifier of an
    acknowledgement, a SUBSCRIBE or a SUBACK; UNSUBSCRIBE and UNSUBACK arrive with
    identifier 0, which the parser does not read.  Then exactly the packet is gone
    from the buffer.  Excluded are a PUBLISH of quality of service above 0, see
    [qos1_publish_misread], or with a NUL in its topic, and a CONNECT of 128 bytes
    or more, whose length takes one byte. *)
Theorem mqtt_roundtrip op c io rest (user : mbuf -> Z -> option mg_mqtt_message -> mbuf) :
  mqtt_op_ok op -> op_parsable op -> can_send (size (mqtt_op_packet op)) c -> sent c = [] ->
  mbuf_wf io -> (forall m e mm, user m e mm = m) ->
  exists c', mqtt_op_run op c = Ret c' /\
    (content io = sent c' ++ rest ->
     exists io1 io', parse_mqtt io mqtt0 = Ret (io1, op_fields op, size (op_payload op)) /\ content io1 = op_payload op ++ rest /\
       mqtt_handler user io MG_EV_RECV =
         Ret ([(MG_EV_RECV, None); (MG_MQTT_EVENT_BASE + (mqtt_op_header op).1, Some (delivered op))], io') /\
       mbuf_wf io' /\ content io' = rest).
Proof.
  intros Hok Hpar Hc Hs Hwf Hu. destruct (op_sends op Hok c 0) as (c' & E & Hs' & _); [by rewrite Z.add_0_r|lia|].
  exists c'. split; [done|]. rewrite Hs', Hs, app_nil_l. intros Hio.
  destruct (parse_packet io op rest Hwf Hio Hok Hpar) as (io1 & E1 & Hwf1 & Hc1).
  destruct (mbuf_remove_front io1 (op_payload op) rest Hwf1 Hc1) as (io2 & E2 & Hwf2 & _ & Hc2).
  exists io1, io2. split_and!; [done|done| |done|done]. pose proof (size_nonneg (op_payload op)).
  assert (size (op_payload op) < 2 ^ 31) by (pose proof (proj1 Hok) as Hsz; rewrite op_body_split, size_app in Hsz by done; pose proof (size_nonneg (op_var op)); lia).
  unfold mqtt_handler. rewrite Hu. cbn [Z.eqb Pos.eqb MG_EV_RECV]. rewrite E1. cbn [mbind outcome_bind].
  rewrite (proj2 (Z.eqb_neq _ _)) by lia. cbn [cmd mq_payload qos connack_ret_code message_id topic Strs.len]. rewrite u64_small, Hu, E2 by lia.
  cbn [mbind outcome_bind mret outcome_ret]. do 2 f_equal. unfold delivered.
  assert (cmd (op_fields op) = (mqtt_op_header op).1) as -> by (by destruct op). done.
Qed.

Definition received (l : list Z) : mbuf := mk_mbuf 8192 l (size l) (size l).

Lemma received_wf l : mbuf_wf (received l) /\ content (received l) = l.
Proof. split; [split; [pose proof (size_nonneg l); simpl; lia|done]|]. apply slice_all. Qed.

Lemma mqtt_roundtrip_witness :
  exists c', mqtt_op_run (Publish (lit "a/b") 0 1 (lit "hi")) fresh_conn = Ret c' /\
    (content (received ([49; 7; 0; 3; 97; 47; 98; 104; 105] ++ lit "next")) = sent c' ++ lit "next" ->
     exists io1 io', parse_mqtt (received ([49; 7; 0; 3; 97; 47; 98; 104; 105] ++ lit "next")) mqtt0 = Ret (io1, mk_mqtt 3 (mk_str None 0) 0 0 0 (Some (lit "a/b" ++ [0])), 2) /\
       content io1 = lit "hi" ++ lit "next" /\
       mqtt_handler (fun m _ _ => m) (received ([49; 7; 0; 3; 97; 47; 98; 104; 105] ++ lit "next")) MG_EV_RECV =
         Ret ([(MG_EV_RECV, None); (203, Some (mk_mqtt 3 (mk_str (Some 0) 2) 0 0 0 (Some (lit "a/b" ++ [0]))))], io') /\
       mbuf_wf io' /\ content io' = lit "next").
Proof.
  apply (mqtt_roundtrip (Publish (lit "a/b") 0 1 (lit "hi")) fresh_conn _ (lit "next"));
    [|split; [reflexivity|apply (bool_decide_eq_true_1 _); reflexivity]|apply fresh_can_send; split; vm_compute; discriminate|reflexivity|apply received_wf|done].
  split; [reflexivity|]. split; [reflexivity|]. split; [split; [discriminate|reflexivity]|lia].
Defined.

(** With a quality of service above 0 the identifier is read where the length of
    the topic is: identifier 7 is received as 3, the length of "a/b". *)
Example qos1_publish_misread :
  (match parse_mqtt (received [50; 9; 0; 3; 97; 47; 98; 0; 7; 104; 105]) mqtt0 with Ret (_, mm, _) => message_id mm | Fault _ => -1 end) = 3.
Proof. vm_compute. reflexivity. Qed.

(** A packet is parsed before it is complete: with two bytes missing, the parser
    makes the topic of one received byte and two stale ones. *)
Example incomplete_packet_parsed :
  (match parse_mqtt (received [48; 5; 0; 3; 97]) mqtt0 with Ret (_, mm, _) => topic mm | Fault _ => None end) = Some [97; 3; 97; 0].
Proof. vm_compute. reflexivity. Qed.

(** A length of 128 bytes or more in a CONNECT packet is sent as one byte. *)
Example long_handshake :
  (match mg_send_mqtt_handshake fresh_conn (replicate 114 65) with Ret c => take 2 (sent c) | Fault _ => [] end) = [16; 128].
Proof. vm_compute. reflexivity. Qed.
