(* ===== verification/Net.v ===== *)
(** * Connections and the event loop (mongoose.c, net.c and net_if_socket.c)

    A connection with its flags, its two buffers and its handlers, the calls of
    the handlers, the reads and writes of its socket, and [mg_mgr_poll], which
    handles every connection and closes those that are due.  A handler is a name
    of the type [F], [run] is what it does to its own connection and to the rest
    of the program, [W].  What the system calls of one turn answer is an
    argument, [calls].  TLS, the control socket and datagrams to a listening
    socket are left out, and so are the time of the last transfer, which only the
    ping of websockets reads, and the dump of the traffic. *)

From Stdlib Require Import ZArith Lia String.
From stdpp Require Import base list numbers option.
From S2P Require Import Prelude Strs Double Mbuf Http Conn.

Local Open Scope Z_scope.

(** ** The code *)

Definition MG_F_LISTENING : Z := Z.shiftl 1 0.
Definition MG_F_UDP : Z := Z.shiftl 1 1.
Definition MG_F_RESOLVING : Z := Z.shiftl 1 2.
Definition MG_F_CONNECTING : Z := Z.shiftl 1 3.
Definition MG_F_SSL : Z := Z.shiftl 1 4.
Definition MG_F_SSL_HANDSHAKE_DONE : Z := Z.shiftl 1 5.
Definition MG_F_WANT_READ : Z := Z.shiftl 1 6.
Definition MG_F_WANT_WRITE : Z := Z.shiftl 1 7.
Definition MG_F_IS_WEBSOCKET : Z := Z.shiftl 1 8.
Definition MG_F_SEND_AND_CLOSE : Z := Z.shiftl 1 10.
Definition MG_F_CLOSE_IMMEDIATELY : Z := Z.shiftl 1 11.
Definition MG_F_WEBSOCKET_NO_DEFRAG : Z := Z.shiftl 1 12.
Definition MG_F_DELETE_CHUNK : Z := Z.shiftl 1 13.
Definition MG_F_USER (i : Z) : Z := Z.shiftl 1 (19 + i).

Definition CALLBACK_MODIFIABLE : Z :=
  fold_right Z.lor 0 [MG_F_USER 1; MG_F_USER 2; MG_F_USER 3; MG_F_USER 4; MG_F_USER 5; MG_F_USER 6;
    MG_F_WEBSOCKET_NO_DEFRAG; MG_F_SEND_AND_CLOSE; MG_F_CLOSE_IMMEDIATELY; MG_F_IS_WEBSOCKET; MG_F_DELETE_CHUNK].
Definition ALLOWED_CONNECT_FLAGS : Z :=
  fold_right Z.lor 0 [MG_F_USER 1; MG_F_USER 2; MG_F_USER 3; MG_F_USER 4; MG_F_USER 5; MG_F_USER 6; MG_F_WEBSOCKET_NO_DEFRAG].

Definition INVALID_SOCKET : Z := -1.
Definition FD_SETSIZE : Z := 1024.
Definition MG_TCP_RECV_BUFFER_SIZE : Z := 1024.

(** A websocket frame: its payload is in the receive buffer, from an offset. *)
Record websocket_message := mk_wsm { wsm_data : Z; wsm_size : Z; wsm_flags : Z }.

(** What the pointer [ev_data] of an event leads to. *)
Inductive ev_data :=
| NoData
| IntData (n : Z)
| TimeData (t : Double.double)   (* of MG_EV_TIMER *)
| SecondsData (t : Z)            (* of MG_EV_POLL *)
| HttpData (hm : http_message)   (* offsets in the receive buffer *)
| StrData (s : mg_str)
| WsData (m : websocket_message).

(** The connection; [nc_stale] says that [recv_mbuf.buf] points to memory that
    was freed, and [nc_data] is what [proto_data] and [user_data] lead to. *)
Record mg_connection {F U : Type} := mk_nc {
  nc_addr : Z;
  listener : option Z;
  sock : Z;
  nc_err : Z;
  recv_mbuf_limit : Z;
  recv_mbuf : conn;
  nc_stale : bool;
  nc_out : conn;
  ev_timer_time : Double.double;
  proto_handler : option F;
  handler : option F;
  nc_data : U;
  nc_flags : Z
}.
Arguments mg_connection : clear implicits.

(** *** The system calls of one turn

    What the calls made for a connection answer, when they are made.  [recv] and
    [recvfrom] give bytes, none at the end of the stream, or fail; [fatal] says
    that [errno] is not one of those that [mg_is_error] ignores. *)
Inductive io_answer := Transferred (n : Z) (bytes : list Z) | IoError (fatal : bool).

Record calls := mk_calls {
  so_error : Z;             (* the error of a pending connect, 1 when getsockopt fails *)
  new_buffer : option Z;    (* malloc for the bytes to read *)
  received : io_answer;     (* recv, recvfrom *)
  written : io_answer;      (* send, sendto *)
  accepted : option Z;      (* accept: a socket *)
  new_conn : option Z       (* calloc for an accepted connection *)
}.

Definition io_result (a : io_answer) : Z := match a with Transferred n _ => n | IoError _ => -1 end.
Definition mg_is_error (a : io_answer) : bool :=
  (io_result a =? 0) || match a with IoError fatal => fatal | _ => false end.

Section net.
Context {F U W : Type} `{EqDecision F}.
Abbreviation connection := (mg_connection F U).

Definition set_flags (nc : connection) (f : Z) : connection :=
  mk_nc F U (nc_addr nc) (listener nc) (sock nc) (nc_err nc) (recv_mbuf_limit nc) (recv_mbuf nc) (nc_stale nc) (nc_out nc)
    (ev_timer_time nc) (proto_handler nc) (handler nc) (nc_data nc) f.
Definition set_recv (nc : connection) (m : conn) (stale : bool) : connection :=
  mk_nc F U (nc_addr nc) (listener nc) (sock nc) (nc_err nc) (recv_mbuf_limit nc) m stale (nc_out nc)
    (ev_timer_time nc) (proto_handler nc) (handler nc) (nc_data nc) (nc_flags nc).
Definition set_out (nc : connection) (m : conn) : connection :=
  mk_nc F U (nc_addr nc) (listener nc) (sock nc) (nc_err nc) (recv_mbuf_limit nc) (recv_mbuf nc) (nc_stale nc) m
    (ev_timer_time nc) (proto_handler nc) (handler nc) (nc_data nc) (nc_flags nc).
Definition set_sock (nc : connection) (s : Z) : connection :=
  mk_nc F U (nc_addr nc) (listener nc) s (nc_err nc) (recv_mbuf_limit nc) (recv_mbuf nc) (nc_stale nc) (nc_out nc)
    (ev_timer_time nc) (proto_handler nc) (handler nc) (nc_data nc) (nc_flags nc).
Definition set_timer (nc : connection) (t : Double.double) : connection :=
  mk_nc F U (nc_addr nc) (listener nc) (sock nc) (nc_err nc) (recv_mbuf_limit nc) (recv_mbuf nc) (nc_stale nc) (nc_out nc)
    t (proto_handler nc) (handler nc) (nc_data nc) (nc_flags nc).
Definition set_data (nc : connection) (d : U) : connection :=
  mk_nc F U (nc_addr nc) (listener nc) (sock nc) (nc_err nc) (recv_mbuf_limit nc) (recv_mbuf nc) (nc_stale nc) (nc_out nc)
    (ev_timer_time nc) (proto_handler nc) (handler nc) d (nc_flags nc).
Definition set_proto (nc : connection) (h : option F) : connection :=
  mk_nc F U (nc_addr nc) (listener nc) (sock nc) (nc_err nc) (recv_mbuf_limit nc) (recv_mbuf nc) (nc_stale nc) (nc_out nc)
    (ev_timer_time nc) h (handler nc) (nc_data nc) (nc_flags nc).

(** [nc->flags & f], [nc->flags |= f] and [nc->flags &= ~f]. *)
Definition has_flag (f : Z) (nc : connection) : bool := negb (Z.land (nc_flags nc) f =? 0).
Definition add_flag (f : Z) (nc : connection) : connection := set_flags nc (Z.lor (nc_flags nc) f).
Definition drop_flag (f : Z) (nc : connection) : connection := set_flags nc (Z.ldiff (nc_flags nc) f).

Definition recv_len (nc : connection) : Z := mb_len (send_mbuf (recv_mbuf nc)).
Definition send_len (nc : connection) : Z := mb_len (send_mbuf (nc_out nc)).

(** *** Calling handlers *)

Context (run : F -> connection -> Z -> ev_data -> W -> outcome (connection * W)).

Definition mg_call (nc : connection) (ev_handler : option F) (ev : Z) (data : ev_data) (w : W) : outcome (connection * W) :=
  let ev_handler := match ev_handler with Some _ => ev_handler | None => match proto_handler nc with Some _ => proto_handler nc | None => handler nc end end in
  match ev_handler with
  | None => mret (nc, w)
  | Some f =>
      let flags_before := nc_flags nc in
      '(nc, w) ← run f nc ev data w;
      let nc := if bool_decide (ev_handler = handler nc) && negb (nc_flags nc =? flags_before)
        then set_flags nc (Z.lor (Z.ldiff flags_before CALLBACK_MODIFIABLE) (Z.land (nc_flags nc) CALLBACK_MODIFIABLE)) else nc in
      mret (nc, w)
  end.

Definition mg_if_timer (c : connection) (now : Double.double) (w : W) : outcome (connection * W) :=
  if dltb (of_Z 0) (ev_timer_time c) && dleb (ev_timer_time c) now then
    let old_value := ev_timer_time c in
    '(c, w) ← mg_call c None MG_EV_TIMER (TimeData now) w;
    mret (if deqb (ev_timer_time c) old_value then set_timer c (of_Z 0) else c, w)
  else mret (c, w).

(** [now] is a [double], the event has a [time_t]. *)
Definition mg_if_poll (nc : connection) (now : Double.double) (w : W) : outcome (connection * W) :=
  match to_Z now with
  | Some t => if decide (- 2 ^ 63 <= t < 2 ^ 63) then
      if negb (has_flag MG_F_SSL nc) || has_flag MG_F_SSL_HANDSHAKE_DONE nc then mg_call nc None MG_EV_POLL (SecondsData t) w else mret (nc, w)
    else Fault BadConversion
  | None => Fault BadConversion
  end.

Definition mg_if_connect_cb (nc : connection) (err : Z) (w : W) : outcome (connection * W) :=
  let nc := drop_flag MG_F_CONNECTING nc in
  let nc := if negb (err =? 0) then add_flag MG_F_CLOSE_IMMEDIATELY nc else nc in
  mg_call nc None MG_EV_CONNECT (IntData err) w.

Definition mg_if_sent_cb (nc : connection) (num_sent : Z) (w : W) : outcome (connection * W) :=
  let nc := if num_sent <? 0 then add_flag MG_F_CLOSE_IMMEDIATELY nc else nc in
  mg_call nc None MG_EV_SEND (IntData num_sent) w.

(** The peer's address is kept by nobody. *)
Definition mg_if_accept_tcp_cb (nc : connection) (w : W) : outcome (connection * W) := mg_call nc None MG_EV_ACCEPT NoData w.

(** *** Receiving *)

(** A block from [malloc], its address and the bytes read into it; [None] when it
    was freed again. *)
Definition heap_buf : Type := Z * option (list Z).

Definition mg_recv_common (nc : connection) (buf : heap_buf) (len : Z) (w : W) : outcome (connection * W) :=
  let free := match buf.2 with Some _ => mret tt | None => Fault DoubleFree end in
  if has_flag MG_F_CLOSE_IMMEDIATELY nc then _ ← free; mret (nc, w) else
  nc ← (if recv_len nc =? 0 then
      _ ← (if nc_stale nc then Fault DoubleFree else mret tt);
      let bytes := match buf.2 with Some l => l | None => [] end in
      mret (set_recv nc (mk_conn (mk_mbuf buf.1 bytes (u64 len) (u64 len)) (answers (recv_mbuf nc))) (bool_decide (buf.2 = None)))
    else if nc_stale nc then Fault UseAfterFree
    else match buf.2 with
      | None => Fault UseAfterFree
      | Some l => m ← on_send_mbuf (recv_mbuf nc) (fun r m => mbuf_append r m (Some l) (u64 len)); mret (set_recv nc m false)
      end);
  mg_call nc None MG_EV_RECV (IntData len) w.

Definition mg_if_recv_tcp_cb := mg_recv_common.

(** The connection is not listening. *)
Definition mg_if_recv_udp_cb (nc : connection) (buf : heap_buf) (len : Z) (w : W) : outcome (connection * W) :=
  if negb (has_flag MG_F_UDP nc) then Fault AssertFailed else mg_recv_common nc buf len w.

Definition recv_avail_size (nc : connection) (max : Z) : Z :=
  if recv_mbuf_limit nc <? recv_len nc then 0 else
  let avail := u64 (recv_mbuf_limit nc - recv_len nc) in
  if avail >? max then max else avail.

Definition mg_handle_tcp_read (c : calls) (nc : connection) (w : W) : outcome (connection * W) :=
  match new_buffer c with
  | None => mret (nc, w)
  | Some a =>
      '(nc, w) ← match received c with
        | Transferred n bytes => if n >? 0 then mg_if_recv_tcp_cb nc (a, Some bytes) n w else mret (nc, w)
        | IoError _ => mret (nc, w)
        end;
      mret (if io_result (received c) =? 0 then add_flag MG_F_SEND_AND_CLOSE nc
            else if mg_is_error (received c) then add_flag MG_F_CLOSE_IMMEDIATELY nc else nc, w)
  end.

(** The buffer and the number of bytes: -12 is [-ENOMEM]; when nothing was read
    the buffer is freed, and its address is returned all the same. *)
Definition mg_recvfrom (c : calls) : Z * heap_buf :=
  match new_buffer c with
  | None => (-12, (0, Some []))
  | Some a => match received c with
    | Transferred n bytes => (n, (a, if n <=? 0 then None else Some bytes))
    | IoError _ => (-1, (a, None))
    end
  end.

Definition mg_handle_udp_read (c : calls) (nc : connection) (w : W) : outcome (connection * W) :=
  let '(n, buf) := mg_recvfrom c in mg_if_recv_udp_cb nc buf n w.

(** *** Sending *)

Definition mg_write_to_socket (c : calls) (nc : connection) (w : W) : outcome (connection * W) :=
  if negb (0 <? send_len nc) then Fault AssertFailed else
  let n := io_result (written c) in
  let sent nc := m ← mbuf_remove (send_mbuf (nc_out nc)) n; mg_if_sent_cb (set_out nc (mk_conn m (answers (nc_out nc)))) n w in
  if has_flag MG_F_UDP nc then (if n >? 0 then sent nc else mret (nc, w))
  else if (n <? 0) && mg_is_error (written c) then mret (add_flag MG_F_CLOSE_IMMEDIATELY nc, w)
  else if n >? 0 then sent nc else mret (nc, w).

(** *** Connections come and go *)

(** [calloc], and the options [opts.flags] and [opts.user_data]. *)
Definition mg_create_connection (p : option Z) (callback : option F) (oflags : Z) (data : U) : option connection :=
  a ← p;
  Some (mk_nc F U a None INVALID_SOCKET 0 (2 ^ 64 - 1) (mk_conn (mk_mbuf 0 [] 0 0) (fun _ => None)) false
    (mk_conn (mk_mbuf 0 [] 0 0) (fun _ => None)) (of_Z 0) None callback data (Z.land oflags ALLOWED_CONNECT_FLAGS)).

(** The connection shares what the pointers of the listener lead to: [accept_data]
    is the view the new connection gets of it.  [mem] is the allocator for the
    buffers of the new connection. *)
Context (accept_data : U -> U) (mem : nat -> option block).

Definition mg_if_accept_new_conn (p : option Z) (lc : connection) : option connection :=
  nc ← mg_create_connection p (handler lc) 0 (nc_data lc);
  let flags := if has_flag MG_F_SSL lc then Z.lor (nc_flags nc) MG_F_SSL else nc_flags nc in
  let empty := mk_conn (mk_mbuf 0 [] 0 0) mem in
  Some (mk_nc F U (nc_addr nc) (Some (nc_addr lc)) (sock nc) 0 (recv_mbuf_limit lc) empty false empty
    (of_Z 0) (proto_handler lc) (handler lc) (accept_data (nc_data lc)) flags).

(** The connection that was accepted, with what its handler left. *)
Definition mg_accept_conn (c : calls) (lc : connection) (w : W) : outcome (option connection * W) :=
  match accepted c with
  | None => mret (None, w)
  | Some s =>
      match mg_if_accept_new_conn (new_conn c) lc with
      | None => mret (None, w)
      | Some nc => '(nc, w) ← mg_if_accept_tcp_cb (set_sock nc s) w; mret (Some nc, w)
      end
  end.

Definition mg_if_destroy_conn (nc : connection) : connection * option Z :=
  if sock nc =? INVALID_SOCKET then (nc, None)
  else (set_sock nc INVALID_SOCKET, if negb (has_flag MG_F_UDP nc) || bool_decide (listener nc = None) then Some (sock nc) else None).

(** The buffers are freed. *)
Definition mg_destroy_conn (nc : connection) : outcome unit := if nc_stale nc then Fault DoubleFree else mret tt.

Definition mg_close_conn (nc : connection) (w : W) : outcome W :=
  let nc := (mg_if_destroy_conn nc).1 in
  '(nc, w) ← mg_call nc None MG_EV_CLOSE NoData w;
  _ ← mg_destroy_conn nc;
  mret w.

(** *** One turn of the event loop *)

Record fd_flags := mk_fd { can_read : bool; can_write : bool; fd_error : bool }.

(** The connection, and the one it accepted. *)
Definition mg_mgr_handle_conn (c : calls) (fd : fd_flags) (now : Double.double) (nc : connection) (w : W) :
    outcome (connection * option connection * W) :=
  '(nc, w) ← (if has_flag MG_F_CONNECTING nc then
      if can_read fd || can_write fd || fd_error fd then
        mg_if_connect_cb nc (if has_flag MG_F_UDP nc then 0 else so_error c) w
      else if negb (nc_err nc =? 0) then mg_if_connect_cb nc (nc_err nc) w
      else mret (nc, w)
    else mret (nc, w));
  '(nc, acc, w) ← (if can_read fd then
      if has_flag MG_F_UDP nc then '(nc, w) ← mg_handle_udp_read c nc w; mret (nc, None, w)
      else if has_flag MG_F_LISTENING nc then '(acc, w) ← mg_accept_conn c nc w; mret (nc, acc, w)
      else '(nc, w) ← mg_handle_tcp_read c nc w; mret (nc, None, w)
    else mret (nc, None, w));
  '(nc, w) ← (if negb (has_flag MG_F_CLOSE_IMMEDIATELY nc) then
      '(nc, w) ← (if can_write fd && (send_len nc >? 0) then mg_write_to_socket c nc w else mret (nc, w));
      '(nc, w) ← (if negb (can_read fd || can_write fd) then mg_if_poll nc now w else mret (nc, w));
      mg_if_timer nc now w
    else mret (nc, w));
  mret (nc, acc, w).

(** What the system answers during one [mg_mgr_poll]: the clock before and after
    the wait, [select] given the three sets and the time to wait, [dup], and the
    calls made for each connection. *)
Record selection := mk_selection { num_ev : Z; read_ready : Z -> bool; write_ready : Z -> bool; err_ready : Z -> bool }.
Record turn := mk_turn {
  time_before : Double.double;
  time_after : Double.double;
  select : list Z -> list Z -> list Z -> Z -> selection;
  dup : Z -> Z;
  calls_for : Z -> calls
}.

(** The descriptors are kept below [FD_SETSIZE]. *)
Fixpoint dup_socks (t : turn) (try_dup : bool) (l : list connection) : list connection :=
  match l with
  | [] => []
  | nc :: l =>
      if negb (sock nc =? INVALID_SOCKET) && (sock nc >=? FD_SETSIZE) && try_dup then
        let new_sock := dup t (sock nc) in
        if (new_sock >=? 0) && (new_sock <? FD_SETSIZE) then set_sock nc new_sock :: dup_socks t true l
        else nc :: dup_socks t false l
      else nc :: dup_socks t try_dup l
  end.

Definition in_set (nc : connection) : bool := negb (sock nc =? INVALID_SOCKET) && (sock nc <? FD_SETSIZE).
Definition reads (nc : connection) : bool :=
  negb (has_flag MG_F_WANT_WRITE nc) && (recv_len nc <? recv_mbuf_limit nc) && (negb (has_flag MG_F_UDP nc) || bool_decide (listener nc = None)).
Definition writes (nc : connection) : bool :=
  (has_flag MG_F_CONNECTING nc && negb (has_flag MG_F_WANT_READ nc)) || ((send_len nc >? 0) && negb (has_flag MG_F_CONNECTING nc)).
Definition sock_set (test : connection -> bool) (l : list connection) : list Z :=
  map sock (List.filter (fun nc => in_set nc && test nc) l).

(** The number of timers and the earliest. *)
Definition min_timer (l : list connection) : Z * Double.double :=
  fold_left (fun '(n, m) nc => if dltb (of_Z 0) (ev_timer_time nc) then (n + 1, if (n =? 0) || dltb (ev_timer_time nc) m then ev_timer_time nc else m) else (n, m))
    l (0, of_Z 0).

(** The milliseconds to wait; [timeout_ms] is an [int]. *)
Definition poll_timeout (t : turn) (l : list connection) (timeout_ms : Z) : outcome Z :=
  let '(n, m) := min_timer l in
  timeout_ms ← (if n >? 0 then
      let timer_timeout_ms := dadd (dmul (dsub m (time_before t)) (of_Z 1000)) (of_Z 1) in
      if dltb timer_timeout_ms (of_Z timeout_ms) then
        match to_Z timer_timeout_ms with
        | Some v => if decide (- 2 ^ 31 <= v < 2 ^ 31) then mret v else Fault BadConversion
        | None => Fault BadConversion
        end
      else mret timeout_ms
    else mret timeout_ms);
  mret (if timeout_ms <? 0 then 0 else timeout_ms).

Definition ready_flags (s : selection) (nc : connection) : fd_flags :=
  if negb (sock nc =? INVALID_SOCKET) && (num_ev s >? 0) then
    mk_fd (read_ready s (sock nc) && (negb (has_flag MG_F_UDP nc) || bool_decide (listener nc = None))) (write_ready s (sock nc)) (err_ready s (sock nc))
  else mk_fd false false false.

(** Every connection is handled in the order of the list; an accepted connection
    is added at its head, and has its first turn at the next poll. *)
Fixpoint handle_all (t : turn) (s : selection) (l : list connection) (w : W) : outcome (list connection * list connection * W) :=
  match l with
  | [] => mret ([], [], w)
  | nc :: l =>
      '(nc, acc, w) ← mg_mgr_handle_conn (calls_for t (nc_addr nc)) (ready_flags s nc) (time_after t) nc w;
      '(l, accs, w) ← handle_all t s l w;
      mret (nc :: l, accs ++ match acc with Some a => [a] | None => [] end, w)
  end.

Definition closing (nc : connection) : bool :=
  has_flag MG_F_CLOSE_IMMEDIATELY nc || ((send_len nc =? 0) && has_flag MG_F_SEND_AND_CLOSE nc).

Fixpoint close_all (l : list connection) (w : W) : outcome (list connection * W) :=
  match l with
  | [] => mret ([], w)
  | nc :: l =>
      if closing nc then w ← mg_close_conn nc w; close_all l w
      else '(l, w) ← close_all l w; mret (nc :: l, w)
  end.

(** The connections that are left, and the time. *)
Definition mg_mgr_poll (t : turn) (active : list connection) (timeout_ms : Z) (w : W) : outcome (list connection * W * Z) :=
  let active := dup_socks t true active in
  timeout_ms ← poll_timeout t active timeout_ms;
  let s := select t (sock_set reads active) (sock_set writes active) (sock_set writes active) timeout_ms in
  '(active, accs, w) ← handle_all t s active w;
  '(active, w) ← close_all (accs ++ active) w;
  match to_Z (time_after t) with
  | Some v => if decide (- 2 ^ 63 <= v < 2 ^ 63) then mret (active, w, v) else Fault BadConversion
  | None => Fault BadConversion
  end.

End net.

(** ** The life of a connection *)

(** Partial correctness: what holds when a function returns. *)
Definition post {A} (c : outcome A) (Q : A -> Prop) : Prop := forall a, c = Ret a -> Q a.

Lemma post_ret {A} (a : A) (Q : A -> Prop) : Q a -> post (mret a) Q.
Proof. by intros H b [= <-]. Qed.
Lemma post_bind {A B} (c : outcome A) (f : A -> outcome B) Q : post c (fun a => post (f a) Q) -> post (c ≫= f) Q.
Proof. intros H b. destruct c as [a|e]; [|done]. cbn [mbind outcome_bind]. apply (H a eq_refl). Qed.
Lemma post_mono {A} (c : outcome A) (P Q : A -> Prop) : post c P -> (forall a, P a -> Q a) -> post c Q.
Proof. intros H HPQ a Ha. apply HPQ, H, Ha. Qed.
Lemma post_fault {A} e (Q : A -> Prop) : post (Fault e) Q.
Proof. done. Qed.
Lemma post_any {A} (c : outcome A) : post c (fun _ => True).
Proof. done. Qed.

Section life.
Context {F U W : Type} `{EqDecision F}.
Abbreviation connection := (mg_connection F U).
Context (run0 : F -> connection -> Z -> ev_data -> W -> outcome (connection * W)).

(** The handlers with a log of the events they are called for. *)
Definition logged (f : F) (nc : connection) (ev : Z) (data : ev_data) (wl : W * list (Z * Z)) : outcome (connection * (W * list (Z * Z))) :=
  '(nc', w) ← run0 f nc ev data wl.1; mret (nc', (w, wl.2 ++ [(nc_addr nc, ev)])).

(** A handler does not change the identity of its connection, nor its handler. *)
Hypothesis run_keeps : forall f nc ev data w nc' w', run0 f nc ev data w = Ret (nc', w') ->
  nc_addr nc' = nc_addr nc /\ (handler nc <> None -> handler nc' <> None).

(** No connection was closed between the two logs. *)
Definition quiet_log (l l' : list (Z * Z)) : Prop := exists es, l' = l ++ es /\ Forall (fun e => e.2 <> MG_EV_CLOSE) es.

Lemma quiet_refl l : quiet_log l l.
Proof. exists []. by rewrite app_nil_r. Qed.
Lemma quiet_trans l1 l2 l3 : quiet_log l1 l2 -> quiet_log l2 l3 -> quiet_log l1 l3.
Proof. intros (a & -> & Ha) (b & -> & Hb). exists (a ++ b). split; [by rewrite app_assoc|by apply Forall_app]. Qed.

Definition same_conn (nc nc' : connection) : Prop := nc_addr nc' = nc_addr nc /\ (handler nc <> None -> handler nc' <> None).

(** The result of a function that handles [nc], started with the log [l]. *)
Definition handles (nc : connection) (l : list (Z * Z)) (r : connection * (W * list (Z * Z))) : Prop := same_conn nc r.1 /\ quiet_log l r.2.2.

Lemma same_refl nc : same_conn nc nc.
Proof. done. Qed.
Lemma same_trans a b c : same_conn a b -> same_conn b c -> same_conn a c.
Proof. intros [H1 H2] [H3 H4]. split; [congruence|auto]. Qed.

Lemma handles_ret nc nc' w l : same_conn nc nc' -> handles nc l (nc', (w, l)).
Proof. intros H. split; [done|apply quiet_refl]. Qed.

Lemma call_log nc h ev data w l : post (mg_call logged nc h ev data (w, l)) (fun r =>
  same_conn nc r.1 /\ (r.2.2 = l ++ [(nc_addr nc, ev)] \/ (r.2.2 = l /\ handler nc = None))).
Proof.
  unfold mg_call. set (e := match h with Some _ => h | None => _ end). destruct e as [f|] eqn:Ee.
  - unfold logged. cbn [fst snd]. apply post_bind. intros [nc1 [w1 l1]] E. destruct (run0 f nc ev data w) as [[nc2 w2]|?] eqn:Er; [|done].
    cbn in E. injection E as <- <- <-. apply run_keeps in Er. apply post_ret. cbn [fst snd].
    split; [|by left]. case_match; done.
  - apply post_ret. cbn. split; [done|]. right. split; [done|]. subst e. destruct h; [done|]. by destruct (proto_handler nc).
Qed.

(** A step before [nc] is handled that keeps its identity. *)
Lemma handles_call nc nc0 h ev data w l : ev <> MG_EV_CLOSE -> same_conn nc nc0 -> post (mg_call logged nc0 h ev data (w, l)) (handles nc l).
Proof.
  intros Hev Hs. eapply post_mono; [apply call_log|]. intros [nc' [w' l']] [H1 H2]. cbn [fst snd] in *. split; [by eapply same_trans|].
  destruct H2 as [->|[-> _]]; [|apply quiet_refl]. exists [(nc_addr nc0, ev)]. split; [done|]. by repeat constructor.
Qed.

Lemma handles_bind {B} nc l (c : outcome (connection * (W * list (Z * Z)))) (f : connection * (W * list (Z * Z)) -> outcome B) Q :
  post c (handles nc l) -> (forall nc' w l', same_conn nc nc' -> quiet_log l l' -> post (f (nc', (w, l'))) Q) -> post (c ≫= f) Q.
Proof. intros Hc Hf. apply post_bind. eapply post_mono; [exact Hc|]. intros [nc' [w' l']] [H1 H2]. by apply Hf. Qed.

Lemma handles_after nc l nc0 l0 c : same_conn nc nc0 -> quiet_log l l0 -> post c (handles nc0 l0) -> post c (handles nc l).
Proof. intros Hs Hq H. eapply post_mono; [exact H|]. intros r [H1 H2]. split; [by eapply same_trans|by eapply quiet_trans]. Qed.

Ltac same := first [done|apply same_refl|split; [done|tauto]].

Lemma connect_log nc0 nc err w l : same_conn nc0 nc -> post (mg_if_connect_cb logged nc err (w, l)) (handles nc0 l).
Proof. intros Hs. unfold mg_if_connect_cb. apply handles_call; [discriminate|]. eapply same_trans; [exact Hs|]. case_match; same. Qed.

Lemma poll_log nc now w l : post (mg_if_poll logged nc now (w, l)) (handles nc l).
Proof.
  unfold mg_if_poll. repeat case_match; try done; [apply handles_call; [discriminate|same]|by apply post_ret, handles_ret].
Qed.

Lemma timer_log nc now w l : post (mg_if_timer logged nc now (w, l)) (handles nc l).
Proof.
  unfold mg_if_timer. case_match; [|by apply post_ret, handles_ret]. eapply handles_bind; [by apply handles_call|].
  intros nc' w' l' Hs Hq. apply post_ret. split; [|done]. cbn. by case_match.
Qed.

Lemma recv_log nc buf len w l : post (mg_recv_common logged nc buf len (w, l)) (handles nc l).
Proof.
  unfold mg_recv_common. cbv zeta. case_match; [apply post_bind; intros [] _; by apply post_ret, handles_ret|].
  apply post_bind. eapply post_mono with (P := same_conn nc); [|intros nc' H'; by apply handles_call].
  case_match; [apply post_bind; intros [] _; by apply post_ret|]. case_match; [done|]. case_match; [|done].
  apply post_bind. intros m _. by apply post_ret.
Qed.

Lemma tcp_read_log c nc w l : post (mg_handle_tcp_read logged c nc (w, l)) (handles nc l).
Proof.
  unfold mg_handle_tcp_read. case_match; [|by apply post_ret, handles_ret].
  eapply handles_bind with (nc := nc) (l := l).
  - case_match; [|by apply post_ret, handles_ret]. case_match; [apply recv_log|by apply post_ret, handles_ret].
  - intros nc' w' l' Hs Hq. apply post_ret. split; [|done]. cbn. repeat case_match; exact Hs.
Qed.

Lemma udp_read_log c nc w l : post (mg_handle_udp_read logged c nc (w, l)) (handles nc l).
Proof. unfold mg_handle_udp_read, mg_if_recv_udp_cb. destruct (mg_recvfrom c). case_match; [done|]. apply recv_log. Qed.

Lemma write_log c nc w l : post (mg_write_to_socket logged c nc (w, l)) (handles nc l).
Proof.
  unfold mg_write_to_socket. cbv zeta.
  assert (forall n, post (m ← mbuf_remove (send_mbuf (nc_out nc)) n; mg_if_sent_cb logged (set_out nc (mk_conn m (answers (nc_out nc)))) n (w, l)) (handles nc l)) as Hs.
  { intros n. apply post_bind. intros m _. unfold mg_if_sent_cb. apply handles_call; [discriminate|]. case_match; same. }
  repeat case_match; try done; try apply Hs; apply post_ret, handles_ret; same.
Qed.

Definition accepted_ok (nc : connection) (acc : option connection) : Prop :=
  forall a, acc = Some a -> handler nc <> None -> handler a <> None.

Lemma accept_log c g mem nc w l : post (mg_accept_conn logged g mem c nc (w, l)) (fun r => accepted_ok nc r.1 /\ quiet_log l r.2.2).
Proof.
  assert (accepted_ok nc None /\ quiet_log l l) as Hn by (split; [done|apply quiet_refl]).
  unfold mg_accept_conn. case_match; [|by apply post_ret]. case_match eqn:E; [|by apply post_ret].
  eapply (handles_bind (set_sock _ _)); [by apply handles_call|]. intros nc' w' l' Hs Hq. apply post_ret. split; [|done].
  intros a [= <-] Hh. apply Hs. cbn. unfold mg_if_accept_new_conn, mg_create_connection in E. destruct (new_conn c); [|done]. by injection E as <-.
Qed.

Lemma handle_conn_log c g mem fd now nc w l : post (mg_mgr_handle_conn logged g mem c fd now nc (w, l)) (fun '(nc', acc, wl) =>
  same_conn nc nc' /\ accepted_ok nc acc /\ quiet_log l wl.2).
Proof.
  unfold mg_mgr_handle_conn. eapply handles_bind with (nc := nc) (l := l).
  { repeat case_match; try (by apply connect_log); by apply post_ret, handles_ret. }
  intros nc1 w1 l1 Hs1 Hq1. apply post_bind.
  eapply post_mono with (P := fun '(nc', acc, wl) => same_conn nc nc' /\ accepted_ok nc acc /\ quiet_log l wl.2).
  { case_match; [|by apply post_ret]. case_match.
    - eapply handles_bind; [apply udp_read_log|]. intros nc2 w2 l2 Hs2 Hq2. apply post_ret. split_and!; [by eapply same_trans|done|by eapply quiet_trans].
    - case_match.
      + apply post_bind. eapply post_mono; [apply accept_log|]. intros [acc [w2 l2]] [Ha Hq2]. apply post_ret.
        split_and!; [done| |by eapply quiet_trans]. intros a Ea Hh. apply (Ha a Ea), Hs1, Hh.
      + eapply handles_bind; [apply tcp_read_log|]. intros nc2 w2 l2 Hs2 Hq2. apply post_ret. split_and!; [by eapply same_trans|done|by eapply quiet_trans]. }
  intros [[nc2 acc] [w2 l2]] (Hs2 & Ha & Hq2). cbn [snd] in *. eapply handles_bind with (nc := nc2) (l := l2).
  - case_match; [|by apply post_ret, handles_ret].
    eapply handles_bind with (nc := nc2) (l := l2); [case_match; [apply write_log|by apply post_ret, handles_ret]|].
    intros nc3 w3 l3 Hs3 Hq3. eapply handles_after; [exact Hs3|exact Hq3|]. eapply handles_bind with (nc := nc3) (l := l3); [case_match; [apply poll_log|by apply post_ret, handles_ret]|].
    intros nc4 w4 l4 Hs4 Hq4. eapply handles_after; [exact Hs4|exact Hq4|]. apply timer_log.
  - intros nc3 w3 l3 Hs3 Hq3. apply post_ret. split_and!; [by eapply same_trans|done|by eapply quiet_trans].
Qed.

Lemma handle_all_log t s g mem l w lg : Forall (fun nc => handler nc <> None) l ->
  post (handle_all logged g mem t s l (w, lg)) (fun '(l', accs, wl) =>
    map nc_addr l' = map nc_addr l /\ Forall (fun nc => handler nc <> None) (accs ++ l') /\ quiet_log lg wl.2).
Proof.
  revert w lg. induction l as [|nc l IH]; intros w lg Hl; cbn [handle_all]; [apply post_ret; split_and!; [done|constructor|apply quiet_refl]|].
  apply Forall_cons_1 in Hl as [Hnc Hl]. apply post_bind. eapply post_mono; [apply handle_conn_log|].
  intros [[nc' acc] [w1 l1]] (Hs & Ha & Hq). apply post_bind. eapply post_mono; [by apply IH|].
  intros [[l' accs] [w2 l2]] (Hm & Hh & Hq2). apply post_ret. cbn [snd] in *. split_and!; [|..|by eapply quiet_trans].
  - cbn. f_equal; [apply Hs|done].
  - apply Forall_app in Hh as [H1 H2]. apply Forall_app_2; [apply Forall_app_2; [done|]|].
    + case_match; [|constructor]. constructor; [by eapply Ha|constructor].
    + apply Forall_cons_2; [by apply Hs|done].
Qed.

Definition closed_event (nc : connection) : Z * Z := (nc_addr nc, MG_EV_CLOSE).

Lemma close_log nc w l : handler nc <> None -> post (mg_close_conn logged nc (w, l)) (fun wl => wl.2 = l ++ [closed_event nc]).
Proof.
  intros Hh. unfold mg_close_conn. set (nc0 := (mg_if_destroy_conn nc).1).
  assert (nc_addr nc0 = nc_addr nc /\ handler nc0 = handler nc) as [Ha He] by (subst nc0; unfold mg_if_destroy_conn; by case_match).
  apply post_bind. eapply post_mono; [apply call_log|]. intros [nc1 [w1 l1]] [_ H]. cbn [fst snd] in H.
  apply post_bind. intros [] _. apply post_ret. cbn. destruct H as [->|[_ H]]; [unfold closed_event; by rewrite Ha|congruence].
Qed.

Lemma close_all_log l w lg : Forall (fun nc => handler nc <> None) l ->
  post (close_all logged l (w, lg)) (fun '(l', wl) =>
    l' = filter (fun nc => closing nc = false) l /\ wl.2 = lg ++ map closed_event (filter (fun nc => closing nc = true) l)).
Proof.
  revert w lg. induction l as [|nc l IH]; intros w lg Hl; cbn [close_all]; [apply post_ret; by rewrite app_nil_r|].
  apply Forall_cons_1 in Hl as [Hnc Hl]. destruct (closing nc) eqn:Ec.
  - apply post_bind. eapply post_mono; [by apply close_log|]. intros [w1 l1] Hl1. cbn [snd] in Hl1. eapply post_mono; [by apply IH|].
    intros [l' wl'] [-> ->]. rewrite filter_cons_False, filter_cons_True by congruence. split; [done|]. subst l1. by rewrite <- app_assoc.
  - apply post_bind. eapply post_mono; [by apply IH|]. intros [l' wl'] [-> Hw]. apply post_ret.
    rewrite filter_cons_True, filter_cons_False by congruence. done.
Qed.

Lemma dup_socks_keeps t b l : map nc_addr (dup_socks t b l) = map nc_addr l /\
  (Forall (fun nc : connection => handler nc <> None) l -> Forall (fun nc : connection => handler nc <> None) (dup_socks t b l)).
Proof.
  revert b. induction l as [|nc l IH]; intros b; [done|]. cbn [dup_socks]. pose proof (fun b => proj1 (IH b)) as H1. pose proof (fun b => proj2 (IH b)) as H2.
  split; [repeat case_match; cbn; by rewrite H1|]. intros [Hnc Hl]%Forall_cons_1. repeat case_match; apply Forall_cons_2; auto.
Qed.

(** C19: the life of connections under the event loop, whatever their handlers do.
    After a turn, the connections that asked to be closed, at once or when their
    data was sent, are gone, and all the others are still there in their order;
    each of those that are gone received the event MG_EV_CLOSE exactly once,
    after every other event of the turn, and no other connection received it. *)
Theorem mg_mgr_poll_closes t g mem (active : list connection) ms w l active' w' l' v :
  Forall (fun nc => handler nc <> None) active ->
  mg_mgr_poll logged g mem t active ms (w, l) = Ret (active', (w', l'), v) ->
  exists accs handled es, map nc_addr handled = map nc_addr active /\
    active' = filter (fun nc => closing nc = false) (accs ++ handled) /\
    l' = l ++ es ++ map closed_event (filter (fun nc => closing nc = true) (accs ++ handled)) /\
    Forall (fun e => e.2 <> MG_EV_CLOSE) es.
Proof.
  intros Hh E. revert E. enough (post (mg_mgr_poll logged g mem t active ms (w, l)) (fun '(active', wl, _) =>
    exists accs handled es, map nc_addr handled = map nc_addr active /\
    active' = filter (fun nc => closing nc = false) (accs ++ handled) /\
    wl.2 = l ++ es ++ map closed_event (filter (fun nc => closing nc = true) (accs ++ handled)) /\ Forall (fun e => e.2 <> MG_EV_CLOSE) es)) as H
    by (intros E; by apply (H _ E)).
  unfold mg_mgr_poll. destruct (dup_socks_keeps t true active) as [Hm Hd]. specialize (Hd Hh). set (act := dup_socks t true active) in *.
  apply post_bind. intros ms' _. cbv zeta. apply post_bind. eapply post_mono; [by apply handle_all_log|].
  intros [[handled accs] [w1 l1]] (Hm1 & Hh1 & (es & Hl1 & Hes)). apply post_bind. eapply post_mono; [by apply close_all_log|].
  intros [active1 wl] [-> Hwl]. case_match; [|done]. case_match; [|done]. apply post_ret.
  exists accs, handled, es. cbn [snd] in *. rewrite Hwl, Hl1, <- app_assoc. split_and!; [congruence|done|done|done].
Qed.

End life.

(** ** Data that arrives *)

Section arrivals.
Context {F U W : Type} `{EqDecision F}.
Abbreviation connection := (mg_connection F U).
Context (run : F -> connection -> Z -> ev_data -> W -> outcome (connection * W)).

(** The segments of a stream arrive, each in a block of its own. *)
Fixpoint receive (nc : connection) (segs : list (Z * list Z)) (w : W) : outcome (connection * W) :=
  match segs with
  | [] => mret (nc, w)
  | (a, s) :: segs => '(nc, w) ← mg_recv_common run nc (a, Some s) (size s) w; receive nc segs w
  end.

Definition segment_ok (s : Z * list Z) : Prop := 0 < s.1 <= SIZE_MAX - FITS /\ 0 < size s.2 < 2 ^ 31.

(** The bytes in the receive buffer. *)
Definition received_bytes (nc : connection) : list Z := sent (recv_mbuf nc).

(** A segment is in the buffer before the handlers are told. *)
Lemma buffer_segment nc a s n : has_flag MG_F_CLOSE_IMMEDIATELY nc = false -> nc_stale nc = false ->
  can_send (size s + n) (recv_mbuf nc) -> segment_ok (a, s) -> 0 <= n ->
  exists m, mg_recv_common run nc (a, Some s) (size s) = (fun w => mg_call run (set_recv nc m false) None MG_EV_RECV (IntData (size s)) w) /\
    can_send n m /\ sent m = received_bytes nc ++ s.
Proof.
  intros Ho Hst Hr [Ha Hs] Hn. cbn [fst snd] in *. pose proof Hr as [Hwf Had Hans Hroom]. unfold mg_recv_common. rewrite Ho, Hst. cbn [fst snd].
  pose proof (size_content _ Hwf) as Hl. fold (recv_len nc) in Hl. rewrite u64_small by (unfold FITS in *; lia).
  destruct (Z.eqb_spec (recv_len nc) 0) as [E0|Hne].
  - rewrite !bind_Ret. cbn [mret outcome_ret]. eexists. split; [rewrite bool_decide_eq_false_2 by done; reflexivity|].
    assert (sent (mk_conn (mk_mbuf a s (size s) (size s)) (answers (recv_mbuf nc))) = s) as Es by apply slice_all.
    split; [split; cbn; [split; cbn; lia|split; cbn; [lia|intros ->; lia]|done|]|].
    + rewrite Es. pose proof (size_nonneg (sent (recv_mbuf nc))). lia.
    + rewrite Es. unfold received_bytes, sent. assert (content (send_mbuf (recv_mbuf nc)) = []) as ->; [|done]. apply length_zero_iff_nil. unfold size in Hl. lia.
  - destruct (sends_append s (size s) ltac:(lia) (recv_mbuf nc) n) as (c1 & E1 & Hs1 & Hc1); [by rewrite slice_all|done|]. rewrite slice_all in Hs1.
    rewrite E1, bind_Ret. eexists. split; [reflexivity|]. by split.
Qed.

End arrivals.

(** ** Examples *)

(** A handler that hangs up when something arrives. *)
Definition hang_up (_ : unit) (nc : mg_connection unit unit) (ev : Z) (_ : ev_data) (w : unit) : outcome (mg_connection unit unit * unit) :=
  mret (if ev =? MG_EV_RECV then add_flag MG_F_CLOSE_IMMEDIATELY nc else nc, w).

Definition sample_conn (a s : Z) (fl : Z) : mg_connection unit unit :=
  mk_nc unit unit a None s 0 (2 ^ 64 - 1) fresh_conn false fresh_conn (of_Z 0) None (Some tt) tt fl.

(** A listening connection and one that has data to read. *)
Definition sample_active : list (mg_connection unit unit) := [sample_conn 100 3 MG_F_LISTENING; sample_conn 200 4 0].
Definition sample_turn : turn :=
  mk_turn (of_Z 1000) (of_Z 1001) (fun _ _ _ _ => mk_selection 2 (fun _ => true) (fun _ => false) (fun _ => false)) (fun s => s)
    (fun a => mk_calls 0 (Some 5000) (Transferred 5 (lit "hello")) (IoError true) (Some 7) (Some 300)).

Lemma hang_up_keeps f nc ev data w nc' w' : hang_up f nc ev data w = Ret (nc', w') ->
  nc_addr nc' = nc_addr nc /\ (handler nc <> None -> handler nc' <> None).
Proof. unfold hang_up. intros [= <- <-]. by case_match. Qed.

Example poll_example : match mg_mgr_poll (logged hang_up) id (fun _ => None) sample_turn sample_active 1000 (tt, []) with
  | Ret (l, (_, log), v) => map nc_addr l = [300; 100] /\ log = [(300, MG_EV_ACCEPT); (200, MG_EV_RECV); (200, MG_EV_CLOSE)] /\ v = 1001
  | Fault _ => False
  end.
Proof. vm_compute. done. Qed.

Lemma mg_mgr_poll_closes_witness : exists active' w' l' v accs handled es,
  mg_mgr_poll (logged hang_up) id (fun _ => None) sample_turn sample_active 1000 (tt, []) = Ret (active', (w', l'), v) /\
    map nc_addr handled = map nc_addr sample_active /\
    active' = filter (fun nc => closing nc = false) (accs ++ handled) /\
    l' = [] ++ es ++ map closed_event (filter (fun nc => closing nc = true) (accs ++ handled)) /\
    Forall (fun e => e.2 <> MG_EV_CLOSE) es.
Proof.
  pose proof poll_example as P. destruct (mg_mgr_poll _ _ _ _ _ _ _) as [[[active' [w' l']] v]|e] eqn:E; [|done].
  destruct (mg_mgr_poll_closes hang_up hang_up_keeps sample_turn id (fun _ => None) sample_active 1000 tt [] active' w' l' v) as (accs & handled & es & H); [|exact E|].
  - repeat (constructor; [discriminate|]). constructor.
  - exists active', w', l', v, accs, handled, es. split; [done|exact H].
Defined.
