(* ===== verification/Resolv.v ===== *)
(** * The resolver (mongoose.c, resolv.c)

    A lookup is a UDP connection to a name server whose handler sends the query
    again and again until an answer comes or the retries are used up, and calls
    back.  The theorem says that it always does, once, when the clock goes on and
    the datagrams can be sent and are not empty.  [malloc] succeeds, but where it
    is an argument. *)

From Stdlib Require Import ZArith Lia String.
From stdpp Require Import base list numbers option.
From S2P Require Import Prelude Strs Double Mbuf Http Conn Dns Mqtt Net Addr.

Local Open Scope Z_scope.

(** ** The code *)

Definition MG_RESOLVE_OK : Z := 0.
Definition MG_RESOLVE_NO_ANSWERS : Z := 1.
Definition MG_RESOLVE_EXCEEDED_RETRY_COUNT : Z := 2.
Definition MG_RESOLVE_TIMEOUT : Z := 3.

Record mg_resolve_async_request := mk_req {
  rq_name : list Z;     (* char name[1024] *)
  rq_query : Z;
  rq_timeout : Z;
  max_retries : Z;
  rq_err : Z;
  last_time : Z;
  retries : Z
}.

(** The only handler, and what it works on besides its connection: the calls of
    [req->callback], the counter of [mg_send_dns_query], what [time(NULL)] will
    answer and the allocators of the packets to come. *)
Inductive resolver_handler := Async_eh.
#[export] Instance resolver_handler_eq_dec : EqDecision resolver_handler.
Proof. solve_decision. Defined.

Record resolver := mk_resolver {
  replies : list (option mg_dns_message * Z);
  tid : Z;
  seconds : nat -> Z;
  packet_mem : nat -> nat -> option block
}.

(** The connection of a lookup; [user_data] is the request, or null. *)
Abbreviation dns_conn := (mg_connection resolver_handler (option mg_resolve_async_request)).

Definition set_err (rq : mg_resolve_async_request) (e : Z) : mg_resolve_async_request :=
  mk_req (rq_name rq) (rq_query rq) (rq_timeout rq) (max_retries rq) e (last_time rq) (retries rq).

Definition next_time (w : resolver) : Z * resolver :=
  (seconds w O, mk_resolver (replies w) (tid w) (fun n => seconds w (S n)) (packet_mem w)).
Definition call_back (w : resolver) (msg : option mg_dns_message) (e : Z) : resolver :=
  mk_resolver (replies w ++ [(msg, e)]) (tid w) (seconds w) (packet_mem w).

(** MG_EV_CONNECT and MG_EV_POLL. *)
Definition resolve_retry (now : Z) (rq : mg_resolve_async_request) (nc : dns_conn) (w : resolver) : outcome (dns_conn * resolver) :=
  if retries rq >? max_retries rq then
    mret (add_flag MG_F_CLOSE_IMMEDIATELY (set_data nc (Some (set_err rq MG_RESOLVE_EXCEEDED_RETRY_COUNT))), w)
  else if now - last_time rq >=? rq_timeout rq then
    n ← strlen (rq_name rq) 0;
    '(out, t) ← mg_send_dns_query (has_flag MG_F_UDP nc) (tid w) (packet_mem w O) (nc_out nc) (rq_name rq) n (rq_query rq);
    r ← int (retries rq + 1);
    mret (set_data (set_out nc out) (Some (mk_req (rq_name rq) (rq_query rq) (rq_timeout rq) (max_retries rq) (rq_err rq) now r)),
      mk_resolver (replies w) t (seconds w) (fun n => packet_mem w (S n)))
  else mret (nc, w).

Definition mg_resolve_async_eh (_ : resolver_handler) (nc : dns_conn) (ev : Z) (data : ev_data) (w : resolver) : outcome (dns_conn * resolver) :=
  let '(now, w) := next_time w in
  match nc_data nc with
  | None => mret (nc, w)
  | Some rq =>
      if (ev =? MG_EV_CONNECT) || (ev =? MG_EV_POLL) then resolve_retry now rq nc w
      else if ev =? MG_EV_RECV then
        '(r, msg) ← mg_parse_dns (mb_buf (send_mbuf (recv_mbuf nc))) 0 (match data with IntData n => n | _ => 0 end);
        let '(nc, w) := if (r =? 0) && (num_answers msg >? 0) then (set_data nc None, call_back w (Some msg) MG_RESOLVE_OK)
          else (set_data nc (Some (set_err rq MG_RESOLVE_NO_ANSWERS)), w) in
        mret (add_flag MG_F_CLOSE_IMMEDIATELY nc, w)
      else if ev =? MG_EV_SEND then
        let nc := drop_flag MG_F_CLOSE_IMMEDIATELY nc in
        m ← mbuf_remove (send_mbuf (nc_out nc)) (send_len nc);
        mret (set_out nc (mk_conn m (Conn.answers (nc_out nc))), w)
      else if ev =? MG_EV_TIMER then
        mret (add_flag MG_F_CLOSE_IMMEDIATELY (set_data nc (Some (set_err rq MG_RESOLVE_TIMEOUT))), w)
      else if ev =? MG_EV_CLOSE then mret (set_data nc None, call_back w None (rq_err rq))
      else mret (nc, w)
  end.

(** *** Starting a lookup *)

(** The answers of [socket], [connect] and their [errno], and of [calloc]. *)
Record system := mk_system { sys_socket : Z; sys_errno : Z; connect_fails : bool; sys_calloc : option Z; sys_req : bool; sys_mem : nat -> option block }.

Definition set_sock_err (nc : dns_conn) (s e : Z) : dns_conn :=
  mk_nc _ _ (nc_addr nc) (listener nc) s e (recv_mbuf_limit nc) (recv_mbuf nc) (nc_stale nc) (nc_out nc)
    (ev_timer_time nc) (proto_handler nc) (handler nc) (nc_data nc) (nc_flags nc).
Definition errno_or_1 (y : system) : Z := if sys_errno y =? 0 then 1 else sys_errno y.

Definition mg_if_connect_udp (y : system) (nc : dns_conn) : dns_conn :=
  if sys_socket y =? INVALID_SOCKET then set_sock_err nc (sys_socket y) (errno_or_1 y) else set_sock_err nc (sys_socket y) 0.

(** [connect_fails] is [mg_is_error(rc)]. *)
Definition mg_if_connect_tcp (y : system) (nc : dns_conn) : dns_conn :=
  if sys_socket y =? INVALID_SOCKET then set_sock_err nc (sys_socket y) (errno_or_1 y)
  else set_sock_err nc (sys_socket y) (if connect_fails y then sys_errno y else 0).

(** The connection is then added to the list. *)
Definition mg_do_connect (y : system) (nc : dns_conn) (proto : Z) : dns_conn :=
  let nc := add_flag MG_F_CONNECTING nc in
  if proto =? SOCK_DGRAM then mg_if_connect_udp y nc else mg_if_connect_tcp y nc.

Definition new_dns_conn (y : system) : option dns_conn :=
  nc ← mg_create_connection (sys_calloc y) (Some Async_eh) 0 None;
  let empty := mk_conn (mk_mbuf 0 [] 0 0) (sys_mem y) in
  Some (set_recv (set_out nc empty) empty false).

Definition mg_default_dns_server : list Z := lit "udp://8.8.8.8:53".

(** A lookup with the options [timeout], [max_retries] and [nameserver_url]: the
    connection, and those that were added to the list.  [server] is the name
    server that was found by an earlier call, or empty. *)
Fixpoint mg_resolve_async_opt `{Etc} (fuel : nat) (y : system) (server : list Z) (name : list Z) (query : Z)
    (o_timeout o_retries : Z) (nameserver_url : option (list Z)) : outcome (option (dns_conn * list dns_conn) * list Z) :=
  match fuel with
  | O => Fault OutOfFuel
  | S fuel =>
      if negb (sys_req y) then mret (None, server) else
      let rq := mk_req (take 1024 (name ++ replicate 1024 0)) query (if o_timeout =? 0 then 5 else o_timeout) (if o_retries =? 0 then 2 else o_retries) 0 0 0 in
      server ← (if bool_decide (nameserver_url = None) && bool_decide (server = []) then
          s ← mg_get_ip_address_of_nameserver 256; mret (match s with Some s => s | None => mg_default_dns_server end)
        else mret server);
      let nameserver := match nameserver_url with Some u => u | None => server end in
      match new_dns_conn y with
      | None => mret (None, server)
      | Some nc =>
          '(proto, a) ← mg_parse_address nameserver 200;
          let nc := if proto =? SOCK_DGRAM then add_flag MG_F_UDP nc else nc in
          match a with
          | BadAddress => mret (None, server)
          | Address _ _ => let nc := set_data (mg_do_connect y nc proto) (Some rq) in mret (Some (nc, [nc]), server)
          | Needs_lookup host _ =>
              '(r, server) ← mg_resolve_async_opt fuel y server host MG_DNS_A_RECORD 0 0 None;
              match r with
              | None => mret (None, server)
              | Some (_, l) => mret (Some (set_data (add_flag MG_F_RESOLVING nc) (Some rq), l), server)
              end
          end
      end
  end.

Definition mg_resolve_async `{Etc} (fuel : nat) (y : system) (server : list Z) (name : list Z) (query : Z) :=
  mg_resolve_async_opt fuel y server name query 0 0 None.

(** *** Turns of the event loop *)

(** [n] turns from the [i]th, on the connections of lookups. *)
Fixpoint polls (ts : nat -> turn) (i n : nat) (st : list dns_conn * resolver) : outcome (list dns_conn * resolver) :=
  match n with
  | O => mret st
  | S n => '(l, w, _) ← mg_mgr_poll mg_resolve_async_eh id (fun _ => None) (ts i) st.1 1000 st.2; polls ts (S i) n (l, w)
  end.

(** ** Every lookup ends *)

Section lookup.
Context (ls : list (list Z)) (pad : list Z) (query timeout maxr tid0 : Z).
Hypothesis ls_ok : Forall label_ok ls.
Hypothesis ls_some : ls <> [].
Hypothesis ls_size : size (join ls) < 1024.
Hypothesis tid_ok : 0 <= tid0 /\ tid0 + maxr + 1 < INT_MAX.

Definition close_bit (cl : bool) : Z := if cl then MG_F_CLOSE_IMMEDIATELY else 0.
Definition connecting_bit (cn : bool) : Z := if cn then MG_F_CONNECTING else 0.
Definition flags_of (cl cn : bool) : Z := MG_F_UDP + connecting_bit cn + close_bit cl.

(** The request is as it was made, but for the retries. *)
Record request_of (rq : mg_resolve_async_request) : Prop := {
  ro_name : rq_name rq = join ls ++ 0 :: pad;
  ro_query : rq_query rq = query;
  ro_timeout : rq_timeout rq = timeout;
  ro_max : max_retries rq = maxr;
  ro_retries : 0 <= retries rq <= maxr + 1
}.

(** The connection of a lookup; [cl] says that it is to be closed, [cn] that it
    is connecting. *)
Record conn_ok (cl cn : bool) (rq : mg_resolve_async_request) (nc : dns_conn) (w : resolver) : Prop := {
  co_flags : nc_flags nc = flags_of cl cn;
  co_listener : listener nc = None;
  co_recv : recv_len nc = 0;
  co_stale : nc_stale nc = false;
  co_timer : ev_timer_time nc = of_Z 0;
  co_proto : proto_handler nc = None;
  co_handler : handler nc = Some Async_eh;
  co_out : can_send ((maxr + 1 - retries rq) * 2 ^ 16) (nc_out nc);
  co_request : request_of rq;
  co_data : nc_data nc = Some rq;
  co_tid : tid w = tid0 + retries rq;
  co_mem : forall i j, alloc_ok (packet_mem w i j) /\ packet_mem w i j <> None
}.

(** [w'] comes [j] calls of [time] after [w], without a reply. *)
Definition after_calls (j : nat) (w w' : resolver) : Prop := replies w' = replies w /\ forall i, seconds w' i = seconds w (j + i)%nat.

Lemma after_trans i j w1 w2 w3 : after_calls i w1 w2 -> after_calls j w2 w3 -> after_calls (i + j) w1 w3.
Proof. intros [H1 H2] [H3 H4]. split; [congruence|]. intros k. rewrite H4, H2. f_equal. lia. Qed.

(** What the code tests. *)
Record tests (cl cn : bool) (nc : dns_conn) : Prop := {
  t_close : has_flag MG_F_CLOSE_IMMEDIATELY nc = cl;
  t_connecting : has_flag MG_F_CONNECTING nc = cn;
  t_udp : has_flag MG_F_UDP nc = true;
  t_listening : has_flag MG_F_LISTENING nc = false;
  t_ssl : has_flag MG_F_SSL nc = false;
  t_send_close : has_flag MG_F_SEND_AND_CLOSE nc = false;
  t_want_read : has_flag MG_F_WANT_READ nc = false;
  t_want_write : has_flag MG_F_WANT_WRITE nc = false
}.

Lemma flags_tests cl cn nc : nc_flags nc = flags_of cl cn -> tests cl cn nc.
Proof. unfold has_flag. intros E. destruct cl, cn; (split; unfold has_flag; rewrite E; reflexivity). Qed.

Lemma flags_add cl cn (nc : dns_conn) : nc_flags nc = flags_of cl cn -> nc_flags (add_flag MG_F_CLOSE_IMMEDIATELY nc) = flags_of true cn.
Proof. cbn. intros ->. by destruct cl, cn. Qed.
Lemma flags_drop_connecting cl cn (nc : dns_conn) : nc_flags nc = flags_of cl cn -> nc_flags (drop_flag MG_F_CONNECTING nc) = flags_of cl false.
Proof. cbn. intros ->. by destruct cl, cn. Qed.
Lemma flags_drop_close cl cn (nc : dns_conn) : nc_flags nc = flags_of cl cn -> nc_flags (drop_flag MG_F_CLOSE_IMMEDIATELY nc) = flags_of false cn.
Proof. cbn. intros ->. by destruct cl, cn. Qed.

(** The handler is the one of the connection, and only asks it to be closed or
    not to be. *)
Lemma call_eh (nc nc' : dns_conn) ev data w w' cl cl' cn : proto_handler nc = None -> handler nc = Some Async_eh -> handler nc' = Some Async_eh ->
  nc_flags nc = flags_of cl cn -> nc_flags nc' = flags_of cl' cn ->
  mg_resolve_async_eh Async_eh nc ev data w = Ret (nc', w') -> mg_call mg_resolve_async_eh nc None ev data w = Ret (nc', w').
Proof.
  intros Hp Hh Hh' Hf Hf' E. unfold mg_call. rewrite Hp, Hh. cbn [mbind]. rewrite E. cbn [mbind outcome_bind]. rewrite Hh'.
  rewrite bool_decide_true by done. destruct (Z.eqb_spec (nc_flags nc') (nc_flags nc)) as [Ef|Ef]; [done|]. cbn [negb andb mret outcome_ret].
  do 2 f_equal. destruct nc'. cbn in *. unfold set_flags. cbn. f_equal. rewrite Hf, Hf'. by destruct cl, cl', cn.
Qed.

Lemma name_strlen rq : request_of rq -> strlen (rq_name rq) 0 = Ret (size (join ls)).
Proof.
  intros Hr. rewrite (ro_name rq Hr). apply strlen_spec. pose proof (size_nonneg (join ls)). pose proof (size_nonneg pad).
  split_and!; [lia|lia|rewrite size_app, size_cons; lia| |].
  - rewrite slice_prefix. by apply join_no_nul.
  - rewrite Z.add_0_l, size_to_nat. by rewrite list_lookup_middle.
Qed.

(** What an event of the resolver made of the lookup: a query, or nothing because
    the time since the last one is not over. *)
Definition waited (j : nat) (w : resolver) (rq rq' : mg_resolve_async_request) : Prop :=
  retries rq < retries rq' \/ (rq' = rq /\ exists i, (i < j)%nat /\ seconds w i - last_time rq < timeout).

Lemma after_next w : after_calls 1 w (next_time w).2.
Proof. done. Qed.

Lemma retry_spec cl cn rq nc w ev data : conn_ok cl cn rq nc w -> (ev =? MG_EV_CONNECT) || (ev =? MG_EV_POLL) = true ->
  exists nc' w' rq' cl', mg_call mg_resolve_async_eh nc None ev data w = Ret (nc', w') /\ conn_ok cl' cn rq' nc' w' /\
    after_calls 1 w w' /\ (cl = true -> cl' = true) /\ (cl' = true \/ waited 1 w rq rq').
Proof.
  intros Hco Hev. pose proof Hco as [Hf Hl Hr Hs Ht Hp Hh Hout Hrq Hd Htid Hmem]. pose proof (flags_tests cl cn nc Hf) as Hts.
  pose proof (ro_retries rq Hrq) as Hret.
  assert (forall nc' w' cl', mg_resolve_async_eh Async_eh nc ev data w = Ret (nc', w') -> handler nc' = Some Async_eh -> nc_flags nc' = flags_of cl' cn ->
    mg_call mg_resolve_async_eh nc None ev data w = Ret (nc', w')) as Hcall by (intros; by eapply call_eh).
  unfold mg_resolve_async_eh in Hcall. cbn [next_time] in Hcall. rewrite Hd, Hev in Hcall. unfold resolve_retry in Hcall.
  rewrite (ro_max rq Hrq), Z.gtb_ltb in Hcall. destruct (Z.ltb_spec maxr (retries rq)) as [Hgt|Hle].
  - (* the retries are used up *)
    eexists _, _, (set_err rq MG_RESOLVE_EXCEEDED_RETRY_COUNT), true. split; [apply (Hcall _ _ true eq_refl); [done|by eapply flags_add]|].
    split_and!; [|apply after_next|done|by left]. split; try done; [by eapply flags_add|]. destruct Hrq. split; done.
  - rewrite (ro_timeout rq Hrq) in Hcall. rewrite Z.geb_leb in Hcall. destruct (Z.leb_spec timeout (seconds w 0%nat - last_time rq)) as [Hover|Hwait].
    + rewrite (name_strlen rq Hrq) in Hcall. cbn [mbind outcome_bind] in Hcall. rewrite (ro_name rq Hrq), (t_udp _ _ _ Hts) in Hcall.
      destruct (query_sent true (tid w) (packet_mem w O) (nc_out nc) ls pad (rq_query rq) ((maxr + 1 - (retries rq + 1)) * 2 ^ 16)) as (out & E & _ & Hout');
        [done|done|lia|lia|apply Hmem|eapply sends_weaken; [exact Hout|lia]|lia|].
      cbn [tid packet_mem mbind outcome_bind] in Hcall. rewrite E in Hcall. cbn [mbind outcome_bind] in Hcall.
      assert (int (retries rq + 1) = Ret (retries rq + 1)) as Ei by (apply wp_eq, wp_int; [unfold INT_MAX in *; lia|done]). rewrite Ei in Hcall. cbn [mbind outcome_bind mret outcome_ret] in Hcall.
      eexists _, _, (mk_req _ _ _ _ _ _ (retries rq + 1)), cl. split; [by eapply (Hcall _ _ cl eq_refl)|].
      split_and!; [|done|done|right; left; cbn; lia].
      split; cbn; try done; try lia; try (intros; apply Hmem). destruct Hrq. split; cbn; try done; lia.
    + eexists nc, _, rq, cl. split; [by eapply (Hcall _ _ cl eq_refl)|].
      split_and!; [|apply after_next|done|right; right; split; [done|]; exists O; split; [lia|done]]. by split.
Qed.

(** A lookup that will be closed at the end of the turn; [rep] are the replies
    when the turn began. *)
Definition reply_ok (r : option mg_dns_message * Z) : Prop :=
  match r.1 with Some msg => r.2 = MG_RESOLVE_OK /\ num_answers msg > 0 | None => True end.

Record to_close (rep : list (option mg_dns_message * Z)) (nc : dns_conn) (w : resolver) : Prop := {
  tc_flags : exists cn, nc_flags nc = flags_of true cn;
  tc_stale : nc_stale nc = false;
  tc_proto : proto_handler nc = None;
  tc_handler : handler nc = Some Async_eh;
  tc_replies : (exists rq, nc_data nc = Some rq /\ replies w = rep) \/ (nc_data nc = None /\ exists r, reply_ok r /\ replies w = rep ++ [r]);
  tc_tid : tid0 <= tid w <= tid0 + maxr + 1
}.

Definition one_reply (rep : list (option mg_dns_message * Z)) (w : resolver) : Prop :=
  (exists r, reply_ok r /\ replies w = rep ++ [r]) /\ tid0 <= tid w <= tid0 + maxr + 1.

Lemma conn_ok_to_close cn rq nc w rep : conn_ok true cn rq nc w -> replies w = rep -> to_close rep nc w.
Proof.
  intros [Hf Hl Hr Hs Ht Hp Hh Hout Hrq Hd Htid Hmem] Hw. pose proof (ro_retries rq Hrq). split; try done; [by exists cn|left; by exists rq|lia].
Qed.

Lemma close_spec rep nc w : to_close rep nc w -> closing nc = true /\
  exists w', mg_close_conn mg_resolve_async_eh nc w = Ret w' /\ one_reply rep w'.
Proof.
  intros [[cn Hf] Hs Hp Hh Hrep Htid]. pose proof (flags_tests _ _ nc Hf) as Hts. split; [unfold closing; by rewrite (t_close _ _ _ Hts)|].
  unfold mg_close_conn. set (nc0 := (mg_if_destroy_conn nc).1).
  assert (nc_flags nc0 = flags_of true cn /\ proto_handler nc0 = None /\ handler nc0 = Some Async_eh /\ nc_stale nc0 = false /\ nc_data nc0 = nc_data nc) as (H1 & H2 & H3 & H4 & H5)
    by (subst nc0; unfold mg_if_destroy_conn; by case_match). clearbody nc0.
  destruct Hrep as [(rq & Hd & Hw)|(Hd & r & Hok & Hw)]; rewrite Hd in H5.
  - rewrite (call_eh nc0 (set_data nc0 None) MG_EV_CLOSE NoData w (call_back (next_time w).2 None (rq_err rq)) true true cn);
      [|done..|cbn [mg_resolve_async_eh next_time]; by rewrite H5].
    cbn [mbind outcome_bind]. unfold mg_destroy_conn. cbn [nc_stale set_data]. rewrite H4. eexists. split; [reflexivity|].
    split; [|done]. exists (None, rq_err rq). split; [done|]. cbn. by rewrite Hw.
  - rewrite (call_eh nc0 nc0 MG_EV_CLOSE NoData w (next_time w).2 true true cn); [|done..|cbn [mg_resolve_async_eh next_time]; by rewrite H5].
    cbn [mbind outcome_bind]. unfold mg_destroy_conn. rewrite H4. eexists. split; [reflexivity|]. split; [|done]. by exists r.
Qed.

(** A datagram ends the lookup. *)
Lemma recv_spec cl cn rq nc w a bs : conn_ok cl cn rq nc w -> bytes bs -> 0 < size bs < 2 ^ 31 ->
  exists nc' w', mg_if_recv_udp_cb mg_resolve_async_eh nc (a, Some bs) (size bs) w = Ret (nc', w') /\ to_close (replies w) nc' w'.
Proof.
  intros Hco Hbs Hsz. pose proof Hco as [Hf Hl Hr Hs Ht Hp Hh Hout Hrq Hd Htid Hmem]. pose proof (flags_tests cl cn nc Hf) as Hts.
  pose proof (ro_retries rq Hrq). unfold mg_if_recv_udp_cb, mg_recv_common. rewrite (t_udp _ _ _ Hts), (t_close _ _ _ Hts). cbn [negb snd fst].
  destruct cl; [cbn [mbind outcome_bind mret outcome_ret]; exists nc, w; split; [done|]; by apply (conn_ok_to_close cn rq)|].
  rewrite Hr, Hs. cbn [Z.eqb mbind outcome_bind mret outcome_ret]. rewrite bool_decide_false by done.
  assert (u64 (size bs) = size bs) as Hu by (apply Z.mod_small; lia). rewrite Hu.
  set (nc1 := set_recv nc _ false). destruct (wp_parse_dns bs 0 (size bs)) as ([r msg] & E & _); [done|lia|lia|lia|].
  assert (mg_parse_dns (mb_buf (send_mbuf (recv_mbuf nc1))) 0 (size bs) = Ret (r, msg)) as E1 by done.
  set (st := if (r =? 0) && (num_answers msg >? 0) then (set_data nc1 None, call_back (next_time w).2 (Some msg) MG_RESOLVE_OK)
    else (set_data nc1 (Some (set_err rq MG_RESOLVE_NO_ANSWERS)), (next_time w).2)).
  exists (add_flag MG_F_CLOSE_IMMEDIATELY st.1), st.2. split.
  - apply (call_eh nc1 _ _ _ _ _ false true cn); [done|done|subst st; by case_match|done|subst st; apply (flags_add false); by case_match|].
    unfold mg_resolve_async_eh. cbn [next_time]. change (nc_data nc1) with (nc_data nc). rewrite Hd. change ((MG_EV_RECV =? _) || _) with false.
    change (MG_EV_RECV =? MG_EV_RECV) with true. cbn iota. rewrite E1. cbn [mbind outcome_bind]. subst st. by destruct ((r =? 0) && (num_answers msg >? 0)).
  - subst st. destruct ((r =? 0) && (num_answers msg >? 0)) eqn:Eok; (split; [exists cn; by apply (flags_add false)|done|exact Hp|exact Hh| |cbn; lia]).
    + right. split; [done|]. exists (Some msg, MG_RESOLVE_OK). split; [|done]. split; [done|]. apply andb_prop in Eok. cbn. lia.
    + left. by eexists.
Qed.

Lemma waited_trans i j w1 w2 rq1 rq2 rq3 : after_calls i w1 w2 -> waited i w1 rq1 rq2 -> waited j w2 rq2 rq3 -> waited (i + j) w1 rq1 rq3.
Proof.
  intros Ha [H1|[-> (k & Hk & Hw)]] [H2|[-> (k2 & Hk2 & Hw2)]]; [left; lia|by left|by left|].
  right. split; [done|]. exists k. split; [lia|done].
Qed.

Lemma can_send_remove k c n : can_send k c -> 0 <= n ->
  exists m, mbuf_remove (send_mbuf c) n = Ret m /\ can_send k (mk_conn m (Conn.answers c)) /\ (n = mb_len (send_mbuf c) -> mb_len m = 0).
Proof.
  intros [Hwf Ha Han Hroom] Hn. destruct (mbuf_remove_spec (send_mbuf c) n Hwf Hn) as (m & E & Hwf' & Ha' & Hs' & Hc).
  exists m. split; [done|]. pose proof (size_content _ Hwf) as Hsz. pose proof (size_content _ Hwf') as Hsz'. pose proof (wf_len _ Hwf).
  assert (size (content m) <= size (content (send_mbuf c)) /\ (n = mb_len (send_mbuf c) -> size (content m) = 0)) as [H1 H2].
  { rewrite Hc. case_decide; [rewrite size_slice by lia; lia|lia]. }
  split; [|intros; rewrite <- Hsz'; auto]. split; [done| |done|unfold sent in *; cbn [send_mbuf]; lia].
  unfold addr_ok in *. cbn [send_mbuf]. by rewrite Ha', Hs'.
Qed.

(** What is sent is removed, and what could not be sent is dropped. *)
Lemma send_spec cn rq nc w c n bs : conn_ok false cn rq nc w -> written c = Transferred n bs -> 0 < n -> 0 < send_len nc ->
  exists nc' w', mg_write_to_socket mg_resolve_async_eh c nc w = Ret (nc', w') /\ conn_ok false cn rq nc' w' /\ after_calls 1 w w' /\ send_len nc' = 0.
Proof.
  intros Hco Hc Hn Hl0. pose proof Hco as [Hf Hl Hr Hs Ht Hp Hh Hout Hrq Hd Htid Hmem]. pose proof (flags_tests false cn nc Hf) as Hts.
  unfold mg_write_to_socket. rewrite (proj2 (Z.ltb_lt 0 (send_len nc))), Hc, (t_udp _ _ _ Hts), Z.gtb_ltb, (proj2 (Z.ltb_lt 0 (io_result _))) by (done || (cbn; lia)).
  cbn [negb io_result]. destruct (can_send_remove _ _ n Hout) as (m & -> & Hout1 & _); [lia|]. cbn [mbind outcome_bind].
  unfold mg_if_sent_cb. rewrite (proj2 (Z.ltb_ge n 0)) by lia. set (nc1 := set_out nc (mk_conn m (Conn.answers (nc_out nc)))).
  destruct (can_send_remove _ _ (mb_len m) Hout1) as (m2 & E2 & Hout2 & Hz); [apply (wf_len _ (cs_wf _ _ Hout1))|]. cbn [send_mbuf] in E2, Hz.
  exists (set_out (drop_flag MG_F_CLOSE_IMMEDIATELY nc1) (mk_conn m2 (Conn.answers (nc_out nc)))), (next_time w).2. split.
  - apply (call_eh nc1 _ _ _ _ _ false false cn); [done..|by apply (flags_drop_close false cn nc1)|].
    unfold mg_resolve_async_eh. cbn [next_time]. change (nc_data nc1) with (nc_data nc). rewrite Hd.
    change ((MG_EV_SEND =? _) || _) with false. change (MG_EV_SEND =? MG_EV_RECV) with false. change (MG_EV_SEND =? MG_EV_SEND) with true. cbn iota.
    change (mbuf_remove (send_mbuf (nc_out (drop_flag _ nc1))) _) with (mbuf_remove m (mb_len m)). by rewrite E2.
  - split_and!; [|apply after_next|by apply Hz]. split; try done. by apply (flags_drop_close false cn nc1).
Qed.

(** *** One turn *)

(** The turn of a lookup that goes on: an event was handled [j] times. *)
Definition goes_on (rq : mg_resolve_async_request) (nc : dns_conn) (w : resolver) (nc' : dns_conn) (w' : resolver) : Prop :=
  exists cn rq' j, conn_ok false cn rq' nc' w' /\ after_calls j w w' /\ (0 < j)%nat /\
    (waited j w rq rq' \/ (rq' = rq /\ 0 < send_len nc /\ send_len nc' = 0)).

(** The answers of the system calls: memory, datagrams with something in them,
    and the datagrams to send are taken. *)
Record calls_ok (c : calls) : Prop := {
  ca_buffer : new_buffer c <> None;
  ca_received : exists bs, received c = Transferred (size bs) bs /\ bytes bs /\ 0 < size bs < 2 ^ 31;
  ca_written : exists n bs, written c = Transferred n bs /\ 0 < n
}.

Lemma conn_ok_flags cl cn cl' cn' rq nc w fl : conn_ok cl cn rq nc w -> fl = flags_of cl' cn' -> conn_ok cl' cn' rq (set_flags nc fl) w.
Proof. intros [Hf Hl Hr Hs Ht Hp Hh Hout Hrq Hd Htid Hmem] ->. by split. Qed.

Lemma connect_cb_spec cn rq nc w err : conn_ok false cn rq nc w ->
  exists nc' w' rq' cl', mg_if_connect_cb mg_resolve_async_eh nc err w = Ret (nc', w') /\ conn_ok cl' false rq' nc' w' /\
    after_calls 1 w w' /\ (cl' = true \/ waited 1 w rq rq').
Proof.
  intros Hco. pose proof (co_flags _ _ _ _ _ Hco) as Hf. unfold mg_if_connect_cb.
  assert (exists cl, conn_ok cl false rq (if negb (err =? 0) then add_flag MG_F_CLOSE_IMMEDIATELY (drop_flag MG_F_CONNECTING nc) else drop_flag MG_F_CONNECTING nc) w) as (cl & H1).
  { assert (conn_ok false false rq (drop_flag MG_F_CONNECTING nc) w) as H0 by (eapply conn_ok_flags; [exact Hco|by apply (flags_drop_connecting false cn)]).
    case_match; [|by exists false]. exists true. eapply conn_ok_flags; [exact H0|]. by apply (flags_add false false), (flags_drop_connecting false cn). }
  destruct (retry_spec cl false rq _ w MG_EV_CONNECT (IntData err) H1 eq_refl) as (nc' & w' & rq' & cl' & E & Hco' & Ha & _ & Hw).
  by exists nc', w', rq', cl'.
Qed.

(** The first part of a turn: the end of connecting. *)
Lemma connect_spec cn rq nc w c fd : conn_ok false cn rq nc w ->
  exists nc' w' rq' cl' cn', (if has_flag MG_F_CONNECTING nc then
      if can_read fd || can_write fd || fd_error fd then
        mg_if_connect_cb mg_resolve_async_eh nc (if has_flag MG_F_UDP nc then 0 else so_error c) w
      else if negb (nc_err nc =? 0) then mg_if_connect_cb mg_resolve_async_eh nc (nc_err nc) w
      else mret (nc, w)
    else mret (nc, w)) = Ret (nc', w') /\ conn_ok cl' cn' rq' nc' w' /\
  ((nc' = nc /\ w' = w /\ rq' = rq /\ cl' = false /\ (cn = true -> can_write fd = false)) \/
   (after_calls 1 w w' /\ (cl' = true \/ waited 1 w rq rq'))).
Proof.
  intros Hco. pose proof (flags_tests _ _ _ (co_flags _ _ _ _ _ Hco)) as Hts. rewrite (t_connecting _ _ _ Hts). destruct cn.
  - destruct (can_read fd || can_write fd || fd_error fd) eqn:Efd; [|destruct (negb (nc_err nc =? 0))].
    1, 2: match goal with Hco : conn_ok _ _ ?rq ?nc ?w |- context [mg_if_connect_cb _ _ ?e _] => destruct (connect_cb_spec true rq nc w e Hco) as (nc' & w' & rq' & cl' & E & Hco' & Ha & Hw) end;
      exists nc', w', rq', cl', false; split; [done|]; split; [done|by right].
    exists nc, w, rq, false, true. split; [done|]. split; [done|]. left. split_and!; try done. intros _. destruct (can_read fd), (can_write fd); done.
  - exists nc, w, rq, false, false. split; [done|]. split; [done|]. by left.
Qed.

Lemma timer_none cl cn rq nc w now : conn_ok cl cn rq nc w -> mg_if_timer mg_resolve_async_eh nc now w = Ret (nc, w).
Proof. intros Hco. unfold mg_if_timer. by rewrite (co_timer _ _ _ _ _ Hco). Qed.

Lemma poll_spec cn rq nc w now v : conn_ok false cn rq nc w -> to_Z now = Some v -> - 2 ^ 63 <= v < 2 ^ 63 ->
  exists nc' w' rq' cl', mg_if_poll mg_resolve_async_eh nc now w = Ret (nc', w') /\ conn_ok cl' cn rq' nc' w' /\
    after_calls 1 w w' /\ (cl' = true \/ waited 1 w rq rq').
Proof.
  intros Hco Hv Hr. pose proof (flags_tests _ _ _ (co_flags _ _ _ _ _ Hco)) as Hts. unfold mg_if_poll. rewrite Hv, decide_True, (t_ssl _ _ _ Hts) by done.
  destruct (retry_spec false cn rq nc w MG_EV_POLL (SecondsData v) Hco eq_refl) as (nc' & w' & rq' & cl' & E & Hco' & Ha & _ & Hw). by exists nc', w', rq', cl'.
Qed.

Lemma after_0 w : after_calls 0 w w.
Proof. done. Qed.

(** The last part: writing, or the event of a turn without anything to do. *)
Lemma rest_spec cn rq nc w c fd now v : conn_ok false cn rq nc w -> calls_ok c -> to_Z now = Some v -> - 2 ^ 63 <= v < 2 ^ 63 -> can_read fd = false ->
  exists nc' w', ('(nc, w) ← (if can_write fd && (send_len nc >? 0) then mg_write_to_socket mg_resolve_async_eh c nc w else mret (nc, w));
      '(nc, w) ← (if negb (can_read fd || can_write fd) then mg_if_poll mg_resolve_async_eh nc now w else mret (nc, w));
      mg_if_timer mg_resolve_async_eh nc now w) = Ret (nc', w') /\
    (to_close (replies w) nc' w' \/ exists cn' rq' j, conn_ok false cn' rq' nc' w' /\ after_calls j w w' /\
      ((can_write fd = true /\ send_len nc = 0 /\ j = O /\ rq' = rq) \/ ((0 < j)%nat /\ (waited j w rq rq' \/ (rq' = rq /\ 0 < send_len nc /\ send_len nc' = 0))))).
Proof.
  intros Hco Hc Hv Hr Hrd. rewrite Hrd. cbn [orb]. destruct (can_write fd) eqn:Ew; cbn [andb negb].
  - rewrite Z.gtb_ltb. destruct (Z.ltb_spec 0 (send_len nc)) as [Hl|Hl].
    + destruct (ca_written c Hc) as (n & bs & Hwr & Hn). destruct (send_spec cn rq nc w c n bs Hco Hwr Hn Hl) as (nc' & w' & -> & Hco' & Ha & Hz).
      cbn [mbind outcome_bind mret outcome_ret]. rewrite (timer_none _ _ _ _ _ now Hco'). exists nc', w'. split; [done|]. right. exists cn, rq, 1%nat.
      split; [done|]. split; [done|]. right. split; [lia|by right].
    + cbn [mbind outcome_bind mret outcome_ret]. rewrite (timer_none _ _ _ _ _ now Hco). exists nc, w. split; [done|]. right. exists cn, rq, O.
      split; [done|]. split; [done|]. left. pose proof (wf_len _ (cs_wf _ _ (co_out _ _ _ _ _ Hco))). unfold send_len in *. split_and!; [done|lia|done|done].
  - cbn [mbind outcome_bind mret outcome_ret]. destruct (poll_spec cn rq nc w now v Hco Hv Hr) as (nc' & w' & rq' & cl' & -> & Hco' & Ha & Hw).
    cbn [mbind outcome_bind mret outcome_ret]. rewrite (timer_none _ _ _ _ _ now Hco'). exists nc', w'. split; [done|]. destruct cl'.
    + left. eapply conn_ok_to_close; [exact Hco'|apply Ha].
    + right. exists cn, rq', 1%nat. split; [done|]. split; [done|]. right. split; [lia|]. left. by destruct Hw.
Qed.

Lemma handle_spec cn rq nc w c fd now v : conn_ok false cn rq nc w -> calls_ok c -> to_Z now = Some v -> - 2 ^ 63 <= v < 2 ^ 63 ->
  (can_write fd = true -> cn = true \/ 0 < send_len nc) ->
  exists nc' w', mg_mgr_handle_conn mg_resolve_async_eh id (fun _ => None) c fd now nc w = Ret (nc', None, w') /\
    (to_close (replies w) nc' w' \/ goes_on rq nc w nc' w').
Proof.
  intros Hco Hc Hv Hr Hwr. unfold mg_mgr_handle_conn.
  destruct (connect_spec cn rq nc w c fd Hco) as (nc1 & w1 & rq1 & cl1 & cn1 & -> & Hco1 & Hst). cbn [mbind outcome_bind].
  assert (replies w1 = replies w) as Hrep by (destruct Hst as [(_ & -> & _)|[Ha _]]; [done|apply Ha]).
  pose proof (flags_tests _ _ _ (co_flags _ _ _ _ _ Hco1)) as Hts. rewrite (t_udp _ _ _ Hts). destruct (can_read fd) eqn:Erd.
  - destruct (ca_received c Hc) as (bs & Hrc & Hbs & Hsz). unfold mg_handle_udp_read, mg_recvfrom.
    pose proof (ca_buffer c Hc) as Hb. destruct (new_buffer c) as [a|]; [|done]. rewrite Hrc, (proj2 (Z.leb_gt (size bs) 0)) by lia.
    destruct (recv_spec cl1 cn1 rq1 nc1 w1 a bs Hco1 Hbs Hsz) as (nc2 & w2 & -> & Htc). cbn [mbind outcome_bind mret outcome_ret].
    destruct (tc_flags _ _ _ Htc) as [cn2 Hf2]. pose proof (flags_tests _ _ _ Hf2) as Hts2. rewrite (t_close _ _ _ Hts2).
    cbn [negb mbind outcome_bind mret outcome_ret]. exists nc2, w2. split; [done|]. left. by rewrite <- Hrep.
  - cbn [mbind outcome_bind mret outcome_ret]. rewrite (t_close _ _ _ Hts). destruct cl1.
    { cbn [negb mbind outcome_bind mret outcome_ret]. exists nc1, w1. split; [done|]. left. by eapply conn_ok_to_close. }
    destruct (rest_spec cn1 rq1 nc1 w1 c fd now v Hco1 Hc Hv Hr Erd) as (nc2 & w2 & E2 & Hend). rewrite Erd in E2. cbn [negb]. rewrite E2.
    cbn [mbind outcome_bind mret outcome_ret]. exists nc2, w2. split; [done|].
    destruct Hend as [Hend|(cn2 & rq2 & j & Hco2 & Ha2 & Hend)]; [left; by rewrite <- Hrep|right]. destruct Hst as [(-> & -> & -> & _ & Hnw)|(Ha1 & [?|Hw1])]; [| |].
    + exists cn2, rq2, j. split; [done|]. split; [done|]. destruct Hend as [(Ew & Hl & _)|[Hj Hend]]; [|done].
      exfalso. destruct (Hwr Ew) as [Hcn|Hl2]; [|lia]. by rewrite (Hnw Hcn) in Ew.
    + done.
    + exists cn2, rq2, (1 + j)%nat. split; [done|]. split; [by eapply after_trans|]. split; [lia|]. left.
      assert (waited j w1 rq1 rq2 \/ rq2 = rq1) as [Hw| ->] by tauto; [by eapply waited_trans|].
      destruct Hw1 as [H1|(-> & i & Hi & Hw)]; [by left|]. right. split; [done|]. exists i. split; [lia|done].
Qed.

(** The answers during a turn: [select] only reports descriptors of its sets,
    and the time fits. *)
Record turn_ok (t : turn) : Prop := {
  to_time : exists v, to_Z (time_after t) = Some v /\ - 2 ^ 63 <= v < 2 ^ 63;
  to_write : forall rs ws es ms s, num_ev (select t rs ws es ms) > 0 -> write_ready (select t rs ws es ms) s = true -> s ∈ ws;
  to_calls : forall a, calls_ok (calls_for t a)
}.

Lemma poll_alone nc w t cn rq : conn_ok false cn rq nc w -> turn_ok t ->
  exists l w' v, mg_mgr_poll mg_resolve_async_eh id (fun _ => None) t [nc] 1000 w = Ret (l, w', v) /\
    ((l = [] /\ one_reply (replies w) w') \/ exists nc', l = [nc'] /\ goes_on rq nc w nc' w').
Proof.
  intros Hco [(v & Hv & Hr) Hwr Hcalls]. unfold mg_mgr_poll.
  assert (exists s, dup_socks t true [nc] = [set_sock nc s]) as (s & Es).
  { cbn [dup_socks]. cbv zeta. repeat case_match; (eexists; first [done|instantiate (1 := sock nc); by destruct nc]). }
  rewrite Es. set (nc1 := set_sock nc s). assert (conn_ok false cn rq nc1 w) as Hco1 by (destruct Hco; by split).
  assert (poll_timeout t [nc1] 1000 = Ret 1000) as ->.
  { unfold poll_timeout, min_timer. cbn [fold_left]. by rewrite (co_timer _ _ _ _ _ Hco1). }
  cbn [mbind outcome_bind]. cbv zeta. set (sel := select t _ _ _ _). cbn [handle_all].
  destruct (handle_spec cn rq nc1 w (calls_for t (nc_addr nc1)) (ready_flags sel nc1) (time_after t) v Hco1 (Hcalls _) Hv Hr) as (nc2 & w2 & -> & Hend).
  { unfold ready_flags. case_match eqn:Ese; [|done]. cbn [can_write]. intros Hw. apply andb_prop in Ese as [_ Hn].
    apply Hwr in Hw; [|fold sel; lia]. unfold sock_set in Hw. cbn [List.filter] in Hw. destruct (in_set nc1 && writes nc1) eqn:Ein; [|by apply not_elem_of_nil in Hw].
    apply andb_prop in Ein as [_ Hwrites]. unfold writes in Hwrites. pose proof (flags_tests _ _ _ (co_flags _ _ _ _ _ Hco1)) as Hts.
    rewrite (t_connecting _ _ _ Hts), (t_want_read _ _ _ Hts) in Hwrites. destruct cn; [by left|right]. cbn [andb orb negb] in Hwrites. lia. }
  cbn [mbind outcome_bind mret outcome_ret app close_all]. destruct Hend as [Hend|Hend].
  - destruct (close_spec _ _ _ Hend) as (-> & w3 & -> & H3). cbn [mbind outcome_bind mret outcome_ret]. rewrite Hv, decide_True by done.
    exists [], w3, v. split; [done|]. by left.
  - pose proof Hend as (cn2 & rq2 & j & Hco2 & _). pose proof (flags_tests _ _ _ (co_flags _ _ _ _ _ Hco2)) as Hts.
    assert (closing nc2 = false) as -> by (unfold closing; rewrite (t_close _ _ _ Hts), (t_send_close _ _ _ Hts); by rewrite andb_false_r).
    cbn [mbind outcome_bind mret outcome_ret]. rewrite Hv, decide_True by done. exists [nc2], w2, v. split; [done|]. right. by exists nc2.
Qed.

(** *** The turns to come *)

(** The clock goes on: sooner or later it stays above any bound. *)
Definition clock_runs (w : resolver) : Prop := forall T, exists k, forall i, (k <= i)%nat -> T <= seconds w i.

Lemma clock_after j w w' : after_calls j w w' -> clock_runs w -> clock_runs w'.
Proof. intros [_ Ha] Hc T. destruct (Hc T) as [k Hk]. exists k. intros i Hi. rewrite Ha. apply Hk. lia. Qed.

Context (ts : nat -> turn).
Hypothesis ts_ok : forall i, turn_ok (ts i).

Lemma polls_nil i n w : polls ts i n ([], w) = Ret ([], w).
Proof.
  revert i. induction n as [|n IH]; intros i; [done|]. cbn [polls fst snd]. destruct (to_time _ (ts_ok i)) as (v & Hv & Hr).
  unfold mg_mgr_poll. cbn [dup_socks]. change (poll_timeout (ts i) [] 1000) with (Ret 1000 : outcome Z).
  cbn [handle_all close_all mbind outcome_bind mret outcome_ret app]. rewrite Hv, decide_True by done. apply IH.
Qed.

(** The turns until the lookup ends: [d] more queries at most, and [k] bounds the
    calls of [time] until the next one. *)
Lemma lookup_ends (d : nat) : forall cn rq nc w i, conn_ok false cn rq nc w -> clock_runs w -> maxr + 1 - retries rq <= Z.of_nat d ->
  exists n w', polls ts i n ([nc], w) = Ret ([], w') /\ one_reply (replies w) w'.
Proof.
  induction d as [d IHd] using (well_founded_induction lt_wf). intros cn rq nc w i Hco Hclock Hd.
  destruct (Hclock (last_time rq + timeout)) as [k Hk]. remember (2 * k + if (0 <? send_len nc)%Z then 1 else 0)%nat as m eqn:Em.
  revert k cn nc w i Em Hco Hclock Hk. induction m as [m IHm] using (well_founded_induction lt_wf). intros k cn nc w i -> Hco Hclock Hk.
  destruct (poll_alone nc w (ts i) cn rq Hco (ts_ok i)) as (l & w1 & v & E & [[-> H1]|(nc1 & -> & cn1 & rq1 & j & Hco1 & Ha & Hj & Hprog)]).
  { exists 1%nat, w1. cbn [polls fst snd]. rewrite E. by split. }
  assert (forall n w', polls ts (S i) n ([nc1], w1) = Ret ([], w') /\ one_reply (replies w1) w' ->
    exists n w', polls ts i n ([nc], w) = Ret ([], w') /\ one_reply (replies w) w') as Hgo.
  { intros n w' [H1 H2]. exists (S n), w'. cbn [polls fst snd]. rewrite E. cbn [mbind outcome_bind]. rewrite (proj1 Ha) in H2. by split. }
  pose proof (clock_after j w w1 Ha Hclock) as Hclock1. pose proof (ro_retries _ (co_request _ _ _ _ _ Hco)). pose proof (ro_retries _ (co_request _ _ _ _ _ Hco1)).
  assert (forall i0, (k - j <= i0)%nat -> last_time rq + timeout <= seconds w1 i0) as Hk1 by (intros i0 Hi0; rewrite (proj2 Ha); apply Hk; lia).
  destruct Hprog as [[Hmore|(-> & i0 & Hi0 & Hwait)]|(-> & Hl & Hl1)].
  - destruct (IHd (Z.to_nat (maxr + 1 - retries rq1))) with (cn := cn1) (rq := rq1) (nc := nc1) (w := w1) (i := S i) as (n & w' & Hn); [lia|done|done|lia|].
    by apply (Hgo n w').
  - assert (i0 < k)%nat by (destruct (decide (i0 < k)%nat); [done|]; specialize (Hk i0 ltac:(lia)); lia).
    destruct (IHm (2 * (k - j) + if (0 <? send_len nc1)%Z then 1 else 0)%nat) with (k := (k - j)%nat) (cn := cn1) (nc := nc1) (w := w1) (i := S i) as (n & w' & Hn);
      [repeat case_match; lia|done|done|done|done|]. by apply (Hgo n w').
  - destruct (IHm (2 * (k - j) + if (0 <? send_len nc1)%Z then 1 else 0)%nat) with (k := (k - j)%nat) (cn := cn1) (nc := nc1) (w := w1) (i := S i) as (n & w' & Hn);
      [rewrite (proj2 (Z.ltb_lt 0 (send_len nc))), (proj2 (Z.ltb_ge 0 (send_len nc1))) by lia; lia|done|done|done|done|]. by apply (Hgo n w').
Qed.

End lookup.

(** ** Theorems *)

(** The connection of a lookup that was just started; the address of the name
    server is in numbers. *)
Lemma start_spec `{Etc} fuel y server ls query o_timeout o_retries a b c d port a0 w :
  Forall label_ok ls -> size (join ls) < 1024 -> sys_req y = true -> sys_calloc y = Some a0 ->
  (forall i, alloc_ok (sys_mem y i) /\ sys_mem y i <> None) -> 0 <= o_retries < 2 ^ 31 -> 
  is_octet a -> is_octet b -> is_octet c -> is_octet d -> 0 <= port < 65535 ->
  (forall i j, alloc_ok (packet_mem w i j) /\ packet_mem w i j <> None) ->
  let maxr := if o_retries =? 0 then 2 else o_retries in
  exists nc rq pad, mg_resolve_async_opt (S fuel) y server (join ls) query o_timeout o_retries
      (Some (lit "udp://" ++ (Addr.dotted a b c d ++ 58 :: Cpp.to_string port) ++ [])) = Ret (Some (nc, [nc]), server) /\
    conn_ok ls pad query (if o_timeout =? 0 then 5 else o_timeout) maxr (tid w) false true rq nc w /\ retries rq = 0.
Proof.
  intros Hls Hsz Hreq Hc Hmem Hr Ha Hb Hcc Hd Hport Hpk maxr.
  assert (take 1024 (join ls ++ replicate 1024 0) = join ls ++ 0 :: replicate (1023 - length (join ls)) 0) as Hname.
  { pose proof (size_nonneg (join ls)). unfold size in *. rewrite take_app_ge by lia. f_equal. rewrite take_replicate.
    replace (1024 - length (join ls))%nat with (S (1023 - length (join ls))) by lia. rewrite Nat.min_l by lia. done. }
  pose proof (parse_address_ipv4 (lit "udp://") SOCK_DGRAM a b c d port [] 200 ltac:(by left) Ha Hb Hcc Hd ltac:(lia) I) as Ens. cbv zeta in Ens.
  rewrite (proj2 (Z.eqb_neq port 65535)) in Ens by lia. set (ns := lit "udp://" ++ _) in *. clearbody ns.
  cbn [mg_resolve_async_opt]. rewrite Hreq. cbn [negb]. rewrite bool_decide_false by done. cbn [andb mbind outcome_bind mret outcome_ret].
  unfold new_dns_conn, mg_create_connection. rewrite Hc. cbn [mbind option_bind].
  rewrite Ens. cbn [mbind outcome_bind mret outcome_ret].
  unfold mg_do_connect, mg_if_connect_udp. change (SOCK_DGRAM =? SOCK_DGRAM) with true. cbn iota.
  assert (0 <= maxr < 2 ^ 31) as Hm by (subst maxr; case_match; lia).
  assert (can_send ((maxr + 1 - 0) * 2 ^ 16) (mk_conn (mk_mbuf 0 [] 0 0) (sys_mem y))) as Hout
    by (split; [by split|split; [vm_compute; split; discriminate|done]|exact Hmem|change (size (sent _)) with 0; change FITS with (2 ^ 60); lia]).
  destruct (sys_socket y =? INVALID_SOCKET).
  all: eexists _, (mk_req (take 1024 (join ls ++ replicate 1024 0)) query (if o_timeout =? 0 then 5 else o_timeout) maxr 0 0 0), (replicate (1023 - length (join ls)) 0).
  all: split; [reflexivity|]; split; [|done].
  all: split; try done; [split; cbn; [exact Hname|done|done|done|lia]|cbn; lia].
Qed.

(** C9: every lookup ends with exactly one call of its callback.  A lookup of a
    name, sent to a name server in numbers, is followed through the turns of the
    event loop: when the clock goes on, the datagrams to send are taken and those
    that arrive are not empty, there is a turn after which the connection is
    closed, the callback was called once, with an answer or with an error, and no
    more than [max_retries + 1] queries were sent; no turn faults, and nothing
    happens after. *)
Theorem mg_resolve_async_answers `{Etc} fuel y server ls query o_timeout o_retries a b c d port a0 w ts :
  Forall label_ok ls -> ls <> [] -> size (join ls) < 1024 ->
  sys_req y = true -> sys_calloc y = Some a0 -> (forall i, alloc_ok (sys_mem y i) /\ sys_mem y i <> None) ->
  0 <= o_retries < 2 ^ 31 -> is_octet a -> is_octet b -> is_octet c -> is_octet d -> 0 <= port < 65535 ->
  (forall i j, alloc_ok (packet_mem w i j) /\ packet_mem w i j <> None) -> clock_runs w ->
  let maxr := if o_retries =? 0 then 2 else o_retries in
  0 <= tid w -> tid w + maxr + 1 < INT_MAX -> (forall i, turn_ok (ts i)) ->
  exists nc n, mg_resolve_async_opt (S fuel) y server (join ls) query o_timeout o_retries
      (Some (lit "udp://" ++ (Addr.dotted a b c d ++ 58 :: Cpp.to_string port) ++ [])) = Ret (Some (nc, [nc]), server) /\
    forall m, (n <= m)%nat -> exists w' r, polls ts 0 m ([nc], w) = Ret ([], w') /\
      replies w' = replies w ++ [r] /\ reply_ok r /\ tid w' <= tid w + maxr + 1.
Proof.
  intros Hls Hne Hsz Hreq Hc Hmem Hr Ha Hb Hcc Hd Hport Hpk Hclock maxr Ht0 Ht1 Hts.
  destruct (start_spec fuel y server ls query o_timeout o_retries a b c d port a0 w) as (nc & rq & pad & E & Hco & Hrq); [done..|]. fold maxr in Hco.
  assert (0 <= maxr < 2 ^ 31) as Hm by (unfold maxr; destruct (o_retries =? 0); lia). clearbody maxr.
  destruct (lookup_ends ls pad query (if o_timeout =? 0 then 5 else o_timeout) maxr (tid w)) with (ts := ts) (d := Z.to_nat (maxr + 1)) (cn := true) (rq := rq) (nc := nc) (w := w) (i := 0%nat)
    as (n & w' & E' & (r & Hok & Hrep) & Htid); [done..|lia|].
  exists nc, n. split; [done|]. intros m Hnm. exists w', r. split; [|split_and!; [done|done|lia]].
  assert (forall n m i st, polls ts i (n + m) st = (st ← polls ts i n st; polls ts (i + n) m st)) as Hadd.
  { clear. induction n as [|n IH]; intros m i st; [cbn; by rewrite Nat.add_0_r|]. cbn [plus polls].
    destruct (mg_mgr_poll _ _ _ _ _ _ _) as [[[l w] v]|]; [|done]. cbn [mbind outcome_bind]. rewrite IH. by replace (i + S n)%nat with (S i + n)%nat by lia. }
  replace m with (n + (m - n))%nat by lia. rewrite Hadd, E'. cbn [mbind outcome_bind]. by apply polls_nil.
Qed.

(** ** Examples *)

#[local] Instance no_etc : Etc := {| etc_hosts := None; etc_resolv := None; line_junk := replicate 1024 0 |}.

Definition sample_mem (_ : nat) : option block := Some (mk_block 4096 (fun _ => 0)).
Definition sample_system (s : Z) : system := mk_system s 24 false (Some 8192) true sample_mem.
(** The clock shows three seconds more at every call. *)
Definition sample_resolver : resolver := mk_resolver [] 100 (fun n => 1000 + 3 * Z.of_nat n) (fun _ => sample_mem).

Lemma sample_mem_ok i : alloc_ok (sample_mem i) /\ sample_mem i <> None.
Proof. split; [vm_compute; split; [done|discriminate]|done]. Qed.

(** A turn: every socket of the set can be written, [r] can be read, and the
    calls give [cl]. *)
Definition turn_with (r : bool) (cl : calls) : turn :=
  mk_turn (of_Z 1000) (of_Z 1001) (fun rs ws _ _ => mk_selection 1 (fun s => r && bool_decide (s ∈ rs)) (fun s => bool_decide (s ∈ ws)) (fun _ => false)) id (fun _ => cl).
Definition good_calls (bs : list Z) : calls := mk_calls 0 (Some 16384) (Transferred (size bs) bs) (Transferred 64 []) None None.

Definition sample_name : list (list Z) := [lit "fi"; lit "uba"; lit "ar"].
Definition sample_server : list Z := lit "udp://" ++ (Addr.dotted 8 8 4 4 ++ 58 :: Cpp.to_string 53) ++ [].

(** A lookup followed for [n] turns: its replies and the connections left. *)
Definition followed (s : Z) (t : turn) (n : nat) : outcome (list (option Z * Z) * Z * nat) :=
  '(r, _) ← mg_resolve_async_opt 1 (sample_system s) [] (join sample_name) 1 0 0 (Some sample_server);
  match r with
  | None => Fault NullPointer
  | Some (nc, l) => '(l, w) ← polls (fun _ => t) 0 n (l, sample_resolver);
      mret (map (fun r => (m ← r.1; Some (num_answers m), r.2)) (replies w), tid w, length l)
  end.

(** A server that is silent: three queries, and an error after the last. *)
Example silent_server : (followed 5 (turn_with false (good_calls [1])) 12) = Ret ([(None, MG_RESOLVE_EXCEEDED_RETRY_COUNT)], 103, 0%nat).
Proof. vm_compute. reflexivity. Qed.

(** A short answer, with one record: its number and its question are not
    compared with those of the query. *)
Definition other_answer : list Z := [7; 7; 0x81; 0x80; 0; 0; 0; 1; 0; 0; 0; 0; 1; 120; 0; 0; 1; 0; 1; 0; 0; 0; 9; 0; 4; 10; 0; 0; 1].
Example other_accepted : followed 5 (turn_with true (good_calls other_answer)) 1 = Ret ([(Some 1, MG_RESOLVE_OK)], 101, 0%nat).
Proof. vm_compute. reflexivity. Qed.

(** When there is no socket, the callback is told that all is well. *)
Example no_socket : followed INVALID_SOCKET (turn_with false (good_calls [1])) 1 = Ret ([(None, MG_RESOLVE_OK)], 101, 0%nat).
Proof. vm_compute. reflexivity. Qed.

(** An empty datagram: its buffer is freed twice. *)
Example empty_datagram : followed 5 (turn_with true (good_calls [])) 1 = Fault DoubleFree.
Proof. vm_compute. reflexivity. Qed.

(** A name server with a name is looked up with the same name server. *)
Lemma server_by_name fuel : exists e, mg_resolve_async_opt fuel (sample_system 5) (lit "udp://dns:53") (lit "a") 1 0 0 None = Fault e /\ e = OutOfFuel.
Proof.
  exists OutOfFuel. split; [|done]. generalize (lit "a") as nm. generalize 1 as q.
  induction fuel as [|fuel IH]; intros q nm; [done|]. cbn [mg_resolve_async_opt]. change (sys_req (sample_system 5)) with true. cbn [negb].
  change (bool_decide (None = None) && bool_decide (lit "udp://dns:53" = [])) with false. cbn [mbind outcome_bind mret outcome_ret].
  change (new_dns_conn (sample_system 5)) with (Some (set_recv (set_out (mk_nc resolver_handler (option mg_resolve_async_request) 8192 None INVALID_SOCKET 0 (2 ^ 64 - 1) (mk_conn (mk_mbuf 0 [] 0 0) (fun _ => None)) false
    (mk_conn (mk_mbuf 0 [] 0 0) (fun _ => None)) (of_Z 0) None (Some Async_eh) None 0) (mk_conn (mk_mbuf 0 [] 0 0) sample_mem)) (mk_conn (mk_mbuf 0 [] 0 0) sample_mem) false)). cbn iota.
  assert (mg_parse_address (lit "udp://dns:53") 200 = Ret (SOCK_DGRAM, Needs_lookup (lit "dns") 53)) as -> by (vm_compute; reflexivity).
  cbn [mbind outcome_bind]. by rewrite IH.
Qed.

(** When a query cannot be sent, the socket stays writable, nothing is retried
    and nothing times out: the callback is never called. *)
Definition failing_calls : calls := mk_calls 0 (Some 16384) (Transferred 1 [1]) (IoError true) None None.

(** The connection has something to send and nothing else to do. *)
Definition stuck (nc : dns_conn) : bool :=
  (nc_flags nc =? MG_F_UDP) && bool_decide (ev_timer_time nc = of_Z 0)
  && (0 <? send_len nc) && in_set nc.

Lemma stuck_stays nc w : stuck nc = true ->
  mg_mgr_poll mg_resolve_async_eh id (fun _ => None) (turn_with false failing_calls) [nc] 1000 w = Ret ([nc], w, 1001).
Proof.
  unfold stuck. intros [[[Hf%Z.eqb_eq Ht%bool_decide_eq_true]%andb_prop Hl%Z.ltb_lt]%andb_prop Hin]%andb_prop.
  assert (has_flag MG_F_CONNECTING nc = false /\ has_flag MG_F_UDP nc = true /\ has_flag MG_F_CLOSE_IMMEDIATELY nc = false /\
    has_flag MG_F_SEND_AND_CLOSE nc = false /\ has_flag MG_F_WANT_READ nc = false) as (H1 & H2 & H3 & H4 & H5) by (unfold has_flag; rewrite Hf; done).
  pose proof Hin as Hin'. unfold in_set in Hin'. apply andb_prop in Hin' as [Hs1 Hs2]. unfold mg_mgr_poll. cbn [dup_socks].
  rewrite Z.geb_leb, (proj2 (Z.leb_gt FD_SETSIZE (sock nc))), andb_false_r by lia. cbn [andb].
  assert (poll_timeout (turn_with false failing_calls) [nc] 1000 = Ret 1000) as -> by (unfold poll_timeout, min_timer; cbn [fold_left]; by rewrite Ht).
  cbn [mbind outcome_bind]. cbv zeta. assert (sock_set writes [nc] = [sock nc]) as ->.
  { unfold sock_set. cbn [List.filter]. rewrite Hin. unfold writes. rewrite H1, Z.gtb_ltb, (proj2 (Z.ltb_lt 0 _)) by done. done. }
  cbn [handle_all]. unfold ready_flags. rewrite Hs1. cbn [num_ev turn_with select andb read_ready write_ready err_ready]. change (1 >? 0) with true. cbn iota.
  rewrite bool_decide_true by by left. unfold mg_mgr_handle_conn. rewrite H1. cbn [can_read can_write mbind outcome_bind mret outcome_ret]. rewrite H3.
  cbn [negb andb]. rewrite Z.gtb_ltb, (proj2 (Z.ltb_lt 0 (send_len nc))) by done. unfold mg_write_to_socket. rewrite (proj2 (Z.ltb_lt 0 (send_len nc))), H2 by done.
  cbn [calls_for turn_with]. change (io_result (written failing_calls) >? 0) with false. cbn [negb mbind outcome_bind mret outcome_ret orb]. unfold mg_if_timer. rewrite Ht. change (dltb (of_Z 0) (of_Z 0)) with false. cbn [andb mbind outcome_bind mret outcome_ret app close_all].
  unfold closing. rewrite H3, H4, andb_false_r. done.
Qed.

Lemma stuck_forever nc w i n : stuck nc = true -> polls (fun _ => turn_with false failing_calls) i n ([nc], w) = Ret ([nc], w).
Proof.
  intros Hst. revert i. induction n as [|n IH]; intros i; [done|]. cbn [polls fst snd]. rewrite stuck_stays by done. apply IH.
Qed.

Definition sample_lookup : list dns_conn :=
  match mg_resolve_async_opt 1 (sample_system 5) [] (join sample_name) 1 0 0 (Some sample_server) with Ret (Some (_, l), _) => l | _ => [] end.

Lemma send_fails_forever n : exists nc w, polls (fun _ => turn_with false failing_calls) 0 (S n) (sample_lookup, sample_resolver) = Ret ([nc], w) /\ replies w = [].
Proof.
  assert (match mg_mgr_poll mg_resolve_async_eh id (fun _ => None) (turn_with false failing_calls) sample_lookup 1000 sample_resolver with
    | Ret ([nc], w, _) => stuck nc && bool_decide (length (replies w) = 0%nat) | _ => false end = true) as H by (vm_compute; reflexivity).
  cbn [polls fst snd]. destruct (mg_mgr_poll _ _ _ _ _ _ _) as [[[[|nc [|? ?]] w] v]|]; try done. apply andb_prop in H as [Hst Hr%bool_decide_eq_true].
  exists nc, w. cbn [mbind outcome_bind]. rewrite stuck_forever by done. split; [done|]. by destruct (replies w).
Qed.

Lemma mg_resolve_async_answers_witness :
  let maxr := if 0 =? 0 then 2 else 0 in
  exists nc n, mg_resolve_async_opt 1 (sample_system 5) [] (join sample_name) 1 0 0 (Some sample_server) = Ret (Some (nc, [nc]), []) /\
    forall m, (n <= m)%nat -> exists w' r, polls (fun _ => turn_with false (good_calls [1])) 0 m ([nc], sample_resolver) = Ret ([], w') /\
      replies w' = replies sample_resolver ++ [r] /\ reply_ok r /\ tid w' <= tid sample_resolver + maxr + 1.
Proof.
  apply (mg_resolve_async_answers 0 (sample_system 5) [] sample_name 1 0 0 8 8 4 4 53 8192 sample_resolver); try done; try (unfold is_octet, INT_MAX; cbn; lia).
  - repeat constructor; by apply label_okb_ok.
  - intros T. exists (Z.to_nat T). intros i Hi. cbn. lia.
  - intros _. split.
    + exists 1001. split; [done|lia].
    + intros rs ws es ms s _ Hw. by apply bool_decide_eq_true in Hw.
    + intros a. split; [done|exists [1]; split; [done|split; [apply Forall_cons_2; [unfold is_byte; lia|apply Forall_nil_2]|split; reflexivity]]|exists 64, []; split; [done|lia]].
Defined.
