(* ===== verification/Websocket.v ===== *)
(** * Websockets (mongoose.c, http.c)

    Frames are cut out of the receive buffer in place: the mask is taken off,
    and the fragments of a message are gathered at the front of the buffer behind
    a byte and a counter of four.  The pointers of the code into the buffer are
    offsets in it; when [realloc] moves the block they dangle. *)

From Stdlib Require Import ZArith Lia String.
From stdpp Require Import base list numbers option.
From S2P Require Import Prelude Strs Double Mbuf Http Conn Dns Sha1 Base64 Net.

Local Open Scope Z_scope.

(** ** The code *)

Definition WEBSOCKET_OP_CONTINUE : Z := 0.
Definition WEBSOCKET_OP_TEXT : Z := 1.
Definition WEBSOCKET_OP_BINARY : Z := 2.
Definition WEBSOCKET_OP_CLOSE : Z := 8.
Definition WEBSOCKET_OP_PING : Z := 9.
Definition WEBSOCKET_OP_PONG : Z := 10.
Definition WEBSOCKET_DONT_FIN : Z := 0x100.

Definition MG_EV_WEBSOCKET_FRAME : Z := 113.
Definition MG_EV_WEBSOCKET_CONTROL_FRAME : Z := 114.
Definition MG_WEBSOCKET_PING_INTERVAL_SECONDS : Z := 5.

Definition mg_is_ws_fragment (flags : Z) : bool := (Z.land flags 0x80 =? 0) || (Z.land flags 0x0f =? 0).
Definition mg_is_ws_first_fragment (flags : Z) : bool := (Z.land flags 0x80 =? 0) && negb (Z.land flags 0x0f =? 0).

(** [ntohs], [ntohl] and an [unsigned] in the order of the machine. *)
Definition get16 (b : list Z) (i : Z) : outcome Z := x ← rd b i; y ← rd b (i + 1); mret (x * 256 + y).
Definition get32 (b : list Z) (i : Z) : outcome Z := x ← get16 b i; y ← get16 b (i + 2); mret (x * 2 ^ 16 + y).
Definition host32 (v : Z) : list Z := [u32 v mod 256; u32 v / 256 mod 256; u32 v / 2 ^ 16 mod 256; u32 v / 2 ^ 24].
Definition get_sizep (b : list Z) : outcome Z :=
  x ← rd b 1; y ← rd b 2; z ← rd b 3; t ← rd b 4; mret (x + y * 2 ^ 8 + z * 2 ^ 16 + t * 2 ^ 24).
Definition set_sizep (b : list Z) (v : Z) : outcome (list Z) := memcpy b 1 (host32 v) 0 4.

(** The lengths of the mask, of the header and of the data of the frame at
    [buf], with [buf_len] bytes in the buffer from there. *)
Definition frame_header (b : list Z) (buf buf_len : Z) : outcome (Z * Z * Z) :=
  if buf_len >=? 2 then
    b1 ← rd b (buf + 1);
    let len := Z.land b1 127 in
    let mask_len := if negb (Z.land b1 128 =? 0) then 4 else 0 in
    if (len <? 126) && (buf_len >=? mask_len) then mret (mask_len, 2 + mask_len, len)
    else if (len =? 126) && (buf_len >=? 4 + mask_len) then
      v ← get16 b (buf + 2); mret (mask_len, 4 + mask_len, v)
    else if buf_len >=? 10 + mask_len then
      hi ← get32 b (buf + 2); lo ← get32 b (buf + 6); mret (mask_len, 10 + mask_len, u64 (u64 (Z.shiftl hi 32) + lo))
    else mret (mask_len, 0, 0)
  else mret (0, 0, 0).

(** The [n] bytes at [pos] are xored with four bytes, in turn: those before the
    data, or those of a number. *)
Definition xor_step (key : list Z -> Z -> outcome Z) (pos n : Z) (st : list Z * Z) : outcome (list Z * Z + list Z) :=
  let '(b, i) := st in
  if i <? n then
    x ← rd b (pos + i); k ← key b (i mod 4);
    b ← wr b (pos + i) (Z.lxor x k);
    mret (inl (b, i + 1))
  else mret (inr b).
Definition unmask (b : list Z) (data n : Z) : outcome (list Z) := loop (S (length b)) (xor_step (fun b i => rd b (data - 4 + i)) data n) (b, 0).

Section websocket.
Context {F U W : Type} `{EqDecision F}.
Abbreviation connection := (mg_connection F U).
Context (run : F -> connection -> Z -> ev_data -> W -> outcome (connection * W)).

Definition mg_handle_incoming_websocket_frame (nc : connection) (m : websocket_message) (w : W) : outcome (connection * W) :=
  if negb (Z.land (wsm_flags m) 8 =? 0) then mg_call run nc (handler nc) MG_EV_WEBSOCKET_CONTROL_FRAME (WsData m) w
  else mg_call run nc (handler nc) MG_EV_WEBSOCKET_FRAME (WsData m) w.

(** The receive buffer, its object and a new content; [at_ p] is the access
    through a pointer into the block with the address [p]. *)
Definition rbuf (nc : connection) : mbuf := send_mbuf (recv_mbuf nc).
Definition set_rbuf (nc : connection) (m : mbuf) : connection := set_recv nc (mk_conn m (Conn.answers (recv_mbuf nc))) (nc_stale nc).
Definition at_ (p : Z) (nc : connection) : outcome (list Z) := if mb_addr (rbuf nc) =? p then mret (mb_buf (rbuf nc)) else Fault UseAfterFree.
Definition with_buf (m : mbuf) (b : list Z) : mbuf := mk_mbuf (mb_addr m) b (mb_len m) (mb_size m).

(** The frame is appended to the message that is gathered. *)
Definition reassemble (nc : connection) (b : list Z) (buf data size flags : Z) (w : W) : outcome (connection * W * Z) :=
  let m := with_buf (rbuf nc) b in
  let p := mb_addr m in
  let e := mb_len m in
  '(m, ans, b, buf) ← (if mg_is_ws_first_fragment flags then
      let m := mbuf_resize (Conn.answers (recv_mbuf nc) O) m (u64 (mb_size m + 4)) in
      if negb (mb_addr m =? p) then Fault UseAfterFree else
      p0 ← rd (mb_buf m) 0;
      b ← wr (mb_buf m) 0 (Z.land p0 0xf0);
      b ← set_sizep b 0;
      mret (m, (fun n => Conn.answers (recv_mbuf nc) (S n)), b, 5)
    else mret (m, Conn.answers (recv_mbuf nc), b, buf));
  b ← memcpy b buf b data (e - data);
  sz ← get_sizep b;
  b ← set_sizep b (sz + size);
  let nc := set_recv nc (mk_conn (mk_mbuf (mb_addr m) b (u64 (mb_len m - (data - buf))) (mb_size m)) ans) (nc_stale nc) in
  '(nc, w) ← (if negb (Z.land flags 0x80 =? 0) then
      sz ← get_sizep b;
      '(nc, w) ← mg_handle_incoming_websocket_frame nc (mk_wsm 5 sz flags) w;
      b ← at_ p nc;
      sz ← get_sizep b;
      m ← mbuf_remove (rbuf nc) (5 + sz);
      mret (set_rbuf nc m, w)
    else mret (nc, w));
  mret (nc, w, buf).

(** Whether a frame was delivered. *)
Definition mg_deliver_websocket_data (nc : connection) (w : W) : outcome (bool * connection * W) :=
  let m := rbuf nc in
  let b := mb_buf m in
  let buf_len := mb_len m in
  p0 ← (if buf_len >? 0 then rd b 0 else mret 0);
  let reass := (buf_len >? 0) && mg_is_ws_fragment p0 && negb (has_flag MG_F_WEBSOCKET_NO_DEFRAG nc) in
  '(buf, buf_len) ← (if reass && negb (mg_is_ws_first_fragment p0) && (buf_len >=? 5) then
      sz ← get_sizep b; mret (if buf_len >=? 5 + sz then (5 + sz, buf_len - (5 + sz)) else (0, buf_len))
    else mret (0, buf_len));
  '(mask_len, header_len, data_len) ← frame_header b buf buf_len;
  let frame_len := u64 (header_len + data_len) in
  if negb ((frame_len >? 0) && (frame_len <=? buf_len)) then mret (false, nc, w) else
  flags ← rd b buf;
  let data := buf + header_len in
  b ← (if mask_len >? 0 then unmask b data data_len else mret b);
  '(nc, w, buf) ← (if reass then reassemble nc b buf data data_len flags w
    else
      '(nc, w) ← mg_handle_incoming_websocket_frame (set_rbuf nc (with_buf m b)) (mk_wsm data data_len flags) w;
      m ← mbuf_remove (rbuf nc) frame_len;
      mret (set_rbuf nc m, w, buf));
  b ← at_ (mb_addr m) nc;
  c ← rd b buf;
  mret (true, if Z.land c 0x0f =? WEBSOCKET_OP_CLOSE then add_flag MG_F_SEND_AND_CLOSE nc else nc, w).

(** *** Sending *)

(** The position of the data in the send buffer, 0 when there is no mask, and
    the mask. *)
Record ws_mask_ctx := mk_ctx { ctx_pos : Z; ctx_mask : Z }.

Definition ws_header (op len : Z) : list Z :=
  let h0 := (if negb (Z.land op WEBSOCKET_DONT_FIN =? 0) then 0 else 0x80) + Z.land op 0x0f in
  if len <? 126 then [h0; len]
  else if len <? 65535 then h0 :: 126 :: net16 len
  else h0 :: 127 :: net32 (Z.shiftr len 32) ++ net32 (Z.land len 0xffffffff).

(** [r] is what [rand] answers. *)
Definition mg_send_ws_header (r : Z) (nc : connection) (op len : Z) : outcome (connection * ws_mask_ctx) :=
  let header := ws_header op len in
  let udp := has_flag MG_F_UDP nc in
  if bool_decide (listener nc = None) then
    h1 ← rd header 1;
    header ← wr header 1 (Z.lor h1 128);
    c ← mg_send udp (nc_out nc) header (size header);
    let mask := u32 r in
    c ← mg_send udp c (host32 mask) 4;
    mret (set_out nc c, mk_ctx (mb_len (send_mbuf c)) mask)
  else
    c ← mg_send udp (nc_out nc) header (size header);
    mret (set_out nc c, mk_ctx 0 0).

Definition mg_ws_mask_frame (m : mbuf) (ctx : ws_mask_ctx) : outcome mbuf :=
  if ctx_pos ctx =? 0 then mret m else
  b ← loop (S (length (mb_buf m))) (xor_step (fun _ i => rd (host32 (ctx_mask ctx)) i) (ctx_pos ctx) (u64 (mb_len m - ctx_pos ctx))) (mb_buf m, 0);
  mret (with_buf m b).

Definition mask_out (nc : connection) (ctx : ws_mask_ctx) (op : Z) : outcome connection :=
  m ← mg_ws_mask_frame (send_mbuf (nc_out nc)) ctx;
  let nc := set_out nc (mk_conn m (Conn.answers (nc_out nc))) in
  mret (if op =? WEBSOCKET_OP_CLOSE then add_flag MG_F_SEND_AND_CLOSE nc else nc).

Definition mg_send_websocket_frame (r : Z) (nc : connection) (op : Z) (data : list Z) (len : Z) : outcome connection :=
  '(nc, ctx) ← mg_send_ws_header r nc op len;
  c ← mg_send (has_flag MG_F_UDP nc) (nc_out nc) data len;
  mask_out (set_out nc c) ctx op.

(** The parts are objects of their own. *)
Fixpoint send_parts (udp : bool) (c : conn) (strv : list (list Z)) : outcome conn :=
  match strv with [] => mret c | s :: strv => c ← mg_send udp c s (size s); send_parts udp c strv end.

Definition mg_send_websocket_framev (r : Z) (nc : connection) (op : Z) (strv : list (list Z)) : outcome connection :=
  len ← int (fold_left (fun n s => n + size s) strv 0);
  '(nc, ctx) ← mg_send_ws_header r nc op (u64 len);
  c ← send_parts (has_flag MG_F_UDP nc) (nc_out nc) strv;
  mask_out (set_out nc c) ctx op.

(** *** The handler *)

(** [last_io_time] is the time of the last transfer, [r] what [rand] answers. *)
Definition mg_websocket_handler (last_io_time r : Z) (nc : connection) (ev : Z) (data : ev_data) (w : W) : outcome (connection * W) :=
  '(nc, w) ← mg_call run nc (handler nc) ev data w;
  if ev =? MG_EV_RECV then
    loop (S (Z.to_nat (mb_len (rbuf nc)))) (fun '(nc, w) =>
      '(ok, nc, w) ← mg_deliver_websocket_data nc w; mret (if ok : bool then inl (nc, w) else inr (nc, w))) (nc, w)
  else if ev =? MG_EV_POLL then
    let now := match data with SecondsData t => t | _ => 0 end in
    if has_flag MG_F_IS_WEBSOCKET nc && (now >? last_io_time + MG_WEBSOCKET_PING_INTERVAL_SECONDS) then
      nc ← mg_send_websocket_frame r nc WEBSOCKET_OP_PING [0] 0; mret (nc, w)
    else mret (nc, w)
  else mret (nc, w).

End websocket.

(** ** Frames *)

(** The data with the mask put on or taken off, from the [i]th byte. *)
Fixpoint masked (key : list Z) (i : Z) (l : list Z) : list Z :=
  match l with [] => [] | x :: l => Z.lxor x (nth (Z.to_nat (i mod 4)) key 0) :: masked key (i + 1) l end.

Lemma masked_twice key i l : masked key i (masked key i l) = l.
Proof. revert i. induction l as [|x l IH]; intros i; [done|]. cbn [masked]. by rewrite IH, Z.lxor_assoc, Z.lxor_nilpotent, Z.lxor_0_r. Qed.

Lemma size_masked key i l : size (masked key i l) = size l.
Proof. revert i. induction l as [|x l IH]; intros i; [done|]. cbn [masked]. by rewrite !size_cons, IH. Qed.

Lemma masked_snoc key i l x : masked key i (l ++ [x]) = masked key i l ++ [Z.lxor x (nth (Z.to_nat ((i + size l) mod 4)) key 0)].
Proof.
  revert i. induction l as [|y l IH]; intros i; cbn [app masked]; [by rewrite Z.add_0_r|]. rewrite IH, size_cons. do 4 f_equal. by rewrite Z.add_assoc.
Qed.

Lemma xor_loop (key : list Z -> Z -> outcome Z) ks pre post n : forall rest fuel l, size l + size rest = n ->
  (forall d i, size d = n -> 0 <= i < 4 -> key (pre ++ d ++ post) i = Ret (nth (Z.to_nat i) ks 0)) ->
  (length rest < fuel)%nat ->
  loop fuel (xor_step key (size pre) n) (pre ++ (masked ks 0 l ++ rest) ++ post, size l) = Ret (pre ++ masked ks 0 (l ++ rest) ++ post).
Proof.
  induction rest as [|x rest IH]; intros fuel l Hn Hkey Hf; (destruct fuel as [|fuel]; [simpl in Hf; lia|]); rewrite loop_S; unfold xor_step at 1.
  - change (size (@nil Z)) with 0 in Hn. rewrite !app_nil_r. rewrite (proj2 (Z.ltb_ge (size l) n)) by lia. done.
  - rewrite size_cons in Hn. pose proof (size_nonneg rest). rewrite (proj2 (Z.ltb_lt (size l) n)) by lia.
    pose proof (size_masked ks 0 l) as Hm.
    set (b := pre ++ (masked ks 0 l ++ x :: rest) ++ post).
    assert (b = (pre ++ masked ks 0 l) ++ x :: (rest ++ post)) as E by (subst b; by rewrite <- !app_assoc).
    assert (size pre + size l = size (pre ++ masked ks 0 l)) as -> by (rewrite size_app; lia).
    rewrite E at 1. rewrite rd_at0. rewrite bind_Ret. subst b. rewrite Hkey; [|rewrite size_app, size_cons; lia|apply Z.mod_pos_bound; lia].
    rewrite bind_Ret, E, wr_after by done. rewrite bind_Ret. cbn [mret outcome_ret].
    specialize (IH fuel (l ++ [x])). rewrite masked_snoc, size_app, Z.add_0_l, <- !app_assoc in IH. rewrite <- !app_assoc. cbn [app] in *.
    apply IH; [change (size [x]) with 1; lia|exact Hkey|simpl in Hf; lia].
Qed.

(** A frame: its first byte, the mask, and the data without the mask.  The
    length takes the form that [mg_send_ws_header] gives it. *)
Record frame := mk_frame { fr_flags : Z; fr_key : option (list Z); fr_data : list Z }.

Definition ws_head (flags : Z) (key : option (list Z)) (len : Z) : list Z :=
  let m := match key with Some _ => 128 | None => 0 end in
  (if len <? 126 then [flags; m + len] else if len <? 65535 then flags :: m + 126 :: net16 len
   else flags :: m + 127 :: net32 (Z.shiftr len 32) ++ net32 (Z.land len 0xffffffff)) ++ default [] key.

Definition frame_bytes (f : frame) : list Z :=
  ws_head (fr_flags f) (fr_key f) (size (fr_data f)) ++ match fr_key f with Some k => masked k 0 (fr_data f) | None => fr_data f end.

(** A whole message, not a fragment. *)
Record frame_ok (f : frame) : Prop := {
  fo_flags : is_byte (fr_flags f);
  fo_fin : mg_is_ws_fragment (fr_flags f) = false;
  fo_key : forall k, fr_key f = Some k -> size k = 4;
  fo_len : size (fr_data f) < 2 ^ 56
}.

Lemma byte_1 m len : m = 0 \/ m = 128 -> 0 <= len < 128 -> Z.land (m + len) 127 = len /\ (Z.land (m + len) 128 =? 0) = (m =? 0) /\ Z.lor len 128 = 128 + len.
Proof.
  intros Hm Hl. assert (forallb (fun l => (Z.land l 127 =? l) && (Z.land (128 + l) 127 =? l) && (Z.land l 128 =? 0) && negb (Z.land (128 + l) 128 =? 0) && (Z.lor l 128 =? 128 + l)) (seqZ 0 128) = true) as H by (vm_compute; reflexivity).
  rewrite forallb_forall in H. specialize (H len). rewrite <- list_elem_of_In, elem_of_seqZ in H. specialize (H ltac:(lia)). rewrite !andb_true_iff, negb_true_iff in H.
  destruct H as [[[[H1 H2]%andb_prop H3] H4] H5] || destruct H as [[[[H1 H2] H3] H4] H5].
  destruct Hm as [-> | ->]; rewrite ?Z.add_0_l; split_and!; try lia; by rewrite ?H3, ?H4.
Qed.

Lemma net16_back n : 0 <= n < 2 ^ 16 -> u16 n / 256 * 256 + u16 n mod 256 = n.
Proof. intros H. unfold u16. rewrite Z.mod_small by lia. euclid. Qed.

Lemma net64_back n : 0 <= n < 2 ^ 64 ->
  let w v := (u32 v / 2 ^ 24 * 256 + u32 v / 2 ^ 16 mod 256) * 2 ^ 16 + (u32 v / 256 mod 256 * 256 + u32 v mod 256) in
  u64 (u64 (Z.shiftl (w (Z.shiftr n 32)) 32) + w (Z.land n 0xffffffff)) = n.
Proof.
  intros H w. assert (forall v, 0 <= v < 2 ^ 32 -> w v = v) as Hw by (intros v Hv; subst w; cbv beta; unfold u32; rewrite !(Z.mod_small v) by lia; euclid).
  assert (Z.land n 0xffffffff = n mod 2 ^ 32) as -> by (change 0xffffffff with (Z.ones 32); by rewrite Z.land_ones by lia).
  rewrite Z.shiftr_div_pow2 by lia. rewrite !Hw by euclid. rewrite Z.shiftl_mul_pow2 by lia. unfold u64. rewrite (Z.mod_small (n / 2 ^ 32 * 2 ^ 32)) by euclid. rewrite Z.mod_small; euclid.
Qed.

Definition klen (f : frame) : Z := match fr_key f with Some _ => 4 | None => 0 end.
Definition hlen (f : frame) : Z := let n := size (fr_data f) in (if n <? 126 then 2 else if n <? 65535 then 4 else 10) + klen f.

Lemma frame_size f : frame_ok f -> size (frame_bytes f) = hlen f + size (fr_data f) /\ 2 <= hlen f <= 14.
Proof.
  intros Hf. unfold frame_bytes, ws_head, hlen, klen. rewrite !size_app. assert (size (default [] (fr_key f)) = match fr_key f with Some _ => 4 | None => 0 end) as ->
    by (destruct (fr_key f) eqn:E; [apply Hf, E|done]). assert (size match fr_key f with Some k => masked k 0 (fr_data f) | None => fr_data f end = size (fr_data f)) as ->
    by (destruct (fr_key f); [apply size_masked|done]).
  unfold net16, net32. destruct (fr_key f), (size (fr_data f) <? 126), (size (fr_data f) <? 65535); cbn [app default]; rewrite ?size_app, ?size_cons, ?size_nil. all: lia.
Qed.

(** [b] agrees with [s] on its first [n] bytes. *)
Definition agrees (b s : list Z) (n : Z) : Prop := forall i, 0 <= i < n -> rd b i = rd s i.

Lemma agrees_prefix c q r s : c ++ r = s -> agrees (c ++ q) s (size c).
Proof. intros <- i Hi. by rewrite !rd_app_l by lia. Qed.

Lemma get16_agrees b s n i : agrees b s n -> 0 <= i -> i + 1 < n -> get16 b i = get16 s i.
Proof. intros H H0 H1. unfold get16. by rewrite !H by lia. Qed.
Lemma get32_agrees b s n i : agrees b s n -> 0 <= i -> i + 3 < n -> get32 b i = get32 s i.
Proof. intros H H0 H1. unfold get32. by rewrite !(get16_agrees b s n) by (done || lia). Qed.

(** The lengths that are read from the start of a frame, whole or not. *)
Lemma header_spec f t b n : frame_ok f -> agrees b (frame_bytes f ++ t) n -> 0 <= n ->
  exists ml hl dl, frame_header b 0 n = Ret (ml, hl, dl) /\
    (hl = 0 /\ dl = 0 /\ n < hlen f \/ ml = klen f /\ hl = hlen f /\ dl = size (fr_data f)).
Proof.
  intros Hf Ha Hn. pose proof (size_nonneg (fr_data f)) as H0. pose proof (fo_len f Hf) as H56. unfold frame_header. rewrite Z.geb_leb.
  destruct (frame_size f Hf) as [_ Hh]. destruct (Z.leb_spec 2 n); [|exists 0, 0, 0; split; [done|left; lia]].
  set (m := match fr_key f with Some _ => 128 | None => 0 end).
  assert (m = 0 \/ m = 128) as Hm by (subst m; destruct (fr_key f); auto).
  assert ((if negb (m =? 0) then 4 else 0) = klen f) as Hk by (subst m; unfold klen; by destruct (fr_key f)).
  assert (exists x y, frame_bytes f ++ t = fr_flags f :: m + x :: y /\
    (size (fr_data f) < 126 /\ x = size (fr_data f) \/ 126 <= size (fr_data f) < 65535 /\ x = 126 /\ take 2 y = net16 (size (fr_data f)) \/
     65535 <= size (fr_data f) /\ x = 127 /\ take 8 y = net32 (Z.shiftr (size (fr_data f)) 32) ++ net32 (Z.land (size (fr_data f)) 0xffffffff))) as (x & y & Es & Hx).
  { unfold frame_bytes, ws_head. fold m. destruct (Z.ltb_spec (size (fr_data f)) 126); [|destruct (Z.ltb_spec (size (fr_data f)) 65535)]; (eexists _, _; split; [reflexivity|]).
    - left. done.
    - right; left. done.
    - right; right. done. }
  rewrite (Ha (0 + 1)), Es by lia. change (rd (fr_flags f :: m + x :: y) (0 + 1)) with (Ret (m + x)). rewrite bind_Ret.
  destruct (byte_1 m x Hm ltac:(lia)) as (E1 & E2 & _). rewrite E1, E2, Hk, !Z.geb_leb. rewrite Es in Ha. unfold hlen.
  destruct Hx as [[Hd ->]|[(Hd & -> & Hy)|(Hd & -> & Hy)]].
  - rewrite (proj2 (Z.ltb_lt _ 126)) by lia. cbn [andb]. destruct (Z.leb_spec (klen f) n); [by exists (klen f), (2 + klen f), (size (fr_data f)); auto|].
    rewrite (proj2 (Z.eqb_neq _ 126)) by lia. cbn [andb]. rewrite (proj2 (Z.leb_gt (10 + klen f) n)) by lia. exists (klen f), 0, 0. split; [done|left; lia].
  - change (126 <? 126) with false. change (126 =? 126) with true. cbn [andb]. rewrite (proj2 (Z.ltb_ge _ 126)), (proj2 (Z.ltb_lt _ 65535)) by lia.
    destruct (Z.leb_spec (4 + klen f) n); [|rewrite (proj2 (Z.leb_gt (10 + klen f) n)) by lia; exists (klen f), 0, 0; split; [done|left; lia]].
    rewrite (get16_agrees _ _ _ _ Ha) by (unfold klen in *; case_match; lia). destruct y as [|y0 [|y1 y]]; try done. injection Hy as -> ->.
    unfold get16. change (0 + 2) with 2. cbn [rd]. eexists _, _, _. split; [reflexivity|]. right. split_and!; [done|done|apply net16_back; lia].
  - change (127 <? 126) with false. change (127 =? 126) with false. cbn [andb]. rewrite (proj2 (Z.ltb_ge _ 126)), (proj2 (Z.ltb_ge _ 65535)) by lia.
    destruct (Z.leb_spec (10 + klen f) n); [|exists (klen f), 0, 0; split; [done|left; lia]].
    rewrite !(get32_agrees _ _ _ _ Ha) by (unfold klen in *; case_match; lia). destruct y as [|y0 [|y1 [|y2 [|y3 [|y4 [|y5 [|y6 [|y7 y]]]]]]]]; try done. injection Hy as -> -> -> -> -> -> -> ->.
    eexists _, _, _. split; [reflexivity|]. right. split_and!; [done|done|apply net64_back; lia].
Qed.

(** ** Receiving *)

(** A handler that writes down the frames it gets: the event, the first byte and
    the data, which it reads in the receive buffer. *)
Inductive ws_fn := WsProto | User.
#[export] Instance ws_fn_eq_dec : EqDecision ws_fn.
Proof. solve_decision. Defined.

Definition ws_log : Type := list (Z * Z * list Z).

Definition collect (nc : mg_connection ws_fn unit) (ev : Z) (data : ev_data) (w : ws_log) : outcome (mg_connection ws_fn unit * ws_log) :=
  match data with
  | WsData m =>
      if decide (0 <= wsm_data m /\ 0 <= wsm_size m /\ wsm_data m + wsm_size m <= mb_len (rbuf nc))
      then mret (nc, w ++ [(ev, wsm_flags m, slice (mb_buf (rbuf nc)) (wsm_data m) (wsm_size m))]) else Fault OutOfBounds
  | _ => mret (nc, w)
  end.

Definition ws_run (f : ws_fn) (nc : mg_connection ws_fn unit) (ev : Z) (data : ev_data) (w : ws_log) : outcome (mg_connection ws_fn unit * ws_log) :=
  match f with WsProto => mg_websocket_handler (fun _ => collect) 0 0 nc ev data w | User => collect nc ev data w end.

Definition delivered (f : frame) : Z * Z * list Z :=
  (if negb (Z.land (fr_flags f) 8 =? 0) then MG_EV_WEBSOCKET_CONTROL_FRAME else MG_EV_WEBSOCKET_FRAME, fr_flags f, fr_data f).

(** What the receiving of frames leaves as it is. *)
Record kept (nc nc' : mg_connection ws_fn unit) : Prop := {
  k_handler : handler nc' = handler nc;
  k_proto : proto_handler nc' = proto_handler nc;
  k_stale : nc_stale nc' = nc_stale nc;
  k_answers : Conn.answers (recv_mbuf nc') = Conn.answers (recv_mbuf nc);
  k_addr : mb_addr (rbuf nc') = mb_addr (rbuf nc);
  k_size : mb_size (rbuf nc') = mb_size (rbuf nc);
  k_open : has_flag MG_F_CLOSE_IMMEDIATELY nc' = has_flag MG_F_CLOSE_IMMEDIATELY nc
}.

Lemma kept_refl nc : kept nc nc.
Proof. done. Qed.
Lemma kept_trans a b c : kept a b -> kept b c -> kept a c.
Proof. intros [] []. split; congruence. Qed.

Lemma call_collect nc ev m w : handler nc = Some User ->
  0 <= wsm_data m -> 0 <= wsm_size m -> wsm_data m + wsm_size m <= mb_len (rbuf nc) ->
  mg_call (fun _ => collect) nc (handler nc) ev (WsData m) w = Ret (nc, w ++ [(ev, wsm_flags m, slice (mb_buf (rbuf nc)) (wsm_data m) (wsm_size m))]).
Proof.
  intros Hh H1 H2 H3. unfold mg_call. rewrite Hh. unfold collect. rewrite decide_True by done. cbn [mbind outcome_bind mret outcome_ret]. by rewrite Z.eqb_refl, andb_false_r.
Qed.

(** The mask of a frame in a buffer is taken off. *)
Lemma unmask_frame f post : frame_ok f ->
  (if klen f >? 0 then unmask (frame_bytes f ++ post) (hlen f) (size (fr_data f)) else mret (frame_bytes f ++ post)) =
    Ret (ws_head (fr_flags f) (fr_key f) (size (fr_data f)) ++ fr_data f ++ post).
Proof.
  intros Hf. destruct (frame_size f Hf) as [Hs _]. unfold frame_bytes in *. rewrite size_app in Hs. unfold klen. destruct (fr_key f) as [k|] eqn:Ek; [|by rewrite <- app_assoc].
  cbn [Z.gtb Z.compare]. rewrite size_masked in Hs. set (pre := ws_head _ _ _) in *. assert (hlen f = size pre) as -> by lia. unfold unmask.
  assert (exists h, pre = h ++ k /\ size h = size pre - 4) as (h & Eh & Hh).
  { subst pre. unfold ws_head. cbn [default from_option Datatypes.id]. eexists. split; [reflexivity|]. rewrite !size_app. pose proof (fo_key f Hf k Ek). change (Datatypes.id k) with k. lia. }
  pose proof (xor_loop (fun b i => rd b (size pre - 4 + i)) k pre post (size (fr_data f)) (masked k 0 (fr_data f)) (S (length ((pre ++ masked k 0 (fr_data f)) ++ post))) []) as X.
  cbn [masked app] in X. change (size (@nil Z)) with 0 in X. rewrite masked_twice in X. rewrite <- app_assoc in *. apply X.
  - by rewrite size_masked.
  - intros d i _ Hi. rewrite Eh at 1. rewrite <- app_assoc, <- Hh. pose proof (fo_key f Hf k Ek) as H4. apply rd_at; [lia|]. rewrite lookup_app_l by (unfold size in *; lia).
    destruct (nth_lookup_or_length k (Z.to_nat i) 0); [done|unfold size in *; lia].
  - rewrite !length_app. lia.
Qed.

Lemma handle_collect nc m w : handler nc = Some User ->
  0 <= wsm_data m -> 0 <= wsm_size m -> wsm_data m + wsm_size m <= mb_len (rbuf nc) ->
  mg_handle_incoming_websocket_frame (fun _ => collect) nc m w =
    Ret (nc, w ++ [(if negb (Z.land (wsm_flags m) 8 =? 0) then MG_EV_WEBSOCKET_CONTROL_FRAME else MG_EV_WEBSOCKET_FRAME, wsm_flags m,
      slice (mb_buf (rbuf nc)) (wsm_data m) (wsm_size m))]).
Proof. intros. unfold mg_handle_incoming_websocket_frame. destruct (negb _); by apply call_collect. Qed.

Lemma close_flag nc (b : bool) : let nc' := if b then add_flag MG_F_SEND_AND_CLOSE nc else nc in kept nc nc' /\ rbuf nc' = rbuf nc.
Proof.
  cbv zeta. destruct b; [|done]. split; [|done]. split; try done. unfold has_flag, add_flag. cbn [nc_flags set_flags].
  rewrite Z.land_lor_distr_l. change (Z.land MG_F_SEND_AND_CLOSE MG_F_CLOSE_IMMEDIATELY) with 0. by rewrite Z.lor_0_r.
Qed.

Lemma deliver_full nc w f t : handler nc = Some User -> frame_ok f -> mbuf_wf (rbuf nc) -> content (rbuf nc) = frame_bytes f ++ t ->
  exists nc', mg_deliver_websocket_data (fun _ => collect) nc w = Ret (true, nc', w ++ [delivered f]) /\
    kept nc nc' /\ mbuf_wf (rbuf nc') /\ content (rbuf nc') = t.
Proof.
  intros Hh Hf Hwf Hc. destruct (frame_size f Hf) as [Hs Hhl]. pose proof (size_nonneg (fr_data f)) as H0. pose proof (size_nonneg t) as Ht. pose proof (fo_len f Hf) as H56.
  pose proof (size_content _ Hwf) as Hl. rewrite Hc, size_app in Hl. destruct (buf_content _ Hwf) as [q Eb]. rewrite Hc, <- app_assoc in Eb.
  unfold mg_deliver_websocket_data. rewrite !Z.gtb_ltb, (proj2 (Z.ltb_lt 0 (mb_len (rbuf nc)))) by lia. rewrite Eb.
  assert (exists y, frame_bytes f = fr_flags f :: y) as [y Ey] by (unfold frame_bytes, ws_head; repeat case_match; eexists; reflexivity).
  assert (forall x z, rd ((frame_bytes f ++ x) ++ z) 0 = Ret (fr_flags f)) as Hr0 by (intros; rewrite Ey; done). rewrite app_assoc, Hr0, <- app_assoc, bind_Ret.
  rewrite (fo_fin f Hf). cbn [andb negb]. unfold mret at 1, outcome_ret at 1. rewrite bind_Ret.
  destruct (header_spec f t (frame_bytes f ++ t ++ q) (mb_len (rbuf nc)) Hf) as (ml & hl & dl & -> & Hd); [|lia|].
  { rewrite <- Hl, <- size_app, app_assoc. by apply (agrees_prefix _ _ []), app_nil_r. }
  destruct Hd as [(_ & _ & ?)|(-> & -> & ->)]; [lia|]. rewrite bind_Ret.
  assert (u64 (hlen f + size (fr_data f)) = size (frame_bytes f)) as -> by (rewrite Hs; unfold u64; apply Z.mod_small; lia).
  rewrite Z.gtb_ltb, (proj2 (Z.ltb_lt 0 _)), (proj2 (Z.leb_le _ (mb_len (rbuf nc)))) by lia. cbn [andb negb].
  rewrite app_assoc, Hr0, <- app_assoc, bind_Ret, Z.add_0_l, unmask_frame, bind_Ret by done.
  set (pre := ws_head _ _ _). assert (size pre = hlen f) as Hp.
  { unfold frame_bytes in Hs. fold pre in Hs. rewrite size_app in Hs. destruct (fr_key f); rewrite ?size_masked in Hs; lia. }
  set (m1 := with_buf (rbuf nc) (pre ++ fr_data f ++ t ++ q)). pose proof Hwf as [Hl1 Hs1]. rewrite Eb in Hs1. rewrite !size_app in Hs1.
  assert (mbuf_wf m1) as Hwf1 by (split; cbn; [done|rewrite !size_app; lia]).
  assert (content m1 = (pre ++ fr_data f) ++ t) as Hc1 by (unfold content, m1; cbn [mb_buf mb_len with_buf]; rewrite <- Hl, Hs, <- Hp, <- !size_app, !app_assoc; apply slice_prefix).
  rewrite handle_collect; [|done|cbn; lia|done|cbn; lia]. rewrite bind_Ret. cbn [wsm_flags wsm_data wsm_size].
  change (rbuf (set_rbuf nc m1)) with m1. cbn [mb_buf m1 with_buf]. rewrite <- Hp, slice_mid by done.
  destruct (mbuf_remove_front m1 (pre ++ fr_data f) t Hwf1 Hc1) as (m2 & E2 & Hwf2 & Hl2 & Hc2).
  assert (size (frame_bytes f) = size (pre ++ fr_data f)) as -> by (rewrite size_app; lia).
  destruct (mbuf_remove_same _ _ _ E2) as [Ha2 Hz2]. pose proof (wf_size _ Hwf2) as Hs2. rewrite E2, bind_Ret. cbn [mret outcome_ret]. rewrite bind_Ret.
  unfold at_. change (rbuf (set_rbuf (set_rbuf nc m1) m2)) with m2. rewrite Ha2. change (mb_addr m1) with (mb_addr (rbuf nc)). rewrite Z.eqb_refl, bind_Ret.
  destruct (rd_total (mb_buf m2) 0) as (c & _ & ->); [rewrite <- Hs2, Hz2; cbn; lia|]. rewrite bind_Ret.
  destruct (close_flag (set_rbuf (set_rbuf nc m1) m2) (Z.land c 15 =? WEBSOCKET_OP_CLOSE)) as [Hk Hr]. eexists. split; [reflexivity|]. rewrite Hr.
  split_and!; [|done|done]. eapply kept_trans; [|exact Hk]. split; done.
Qed.

(** The start of a frame, or nothing: the code waits. *)
Lemma deliver_partial nc w f r : frame_ok f -> mbuf_wf (rbuf nc) -> content (rbuf nc) ++ r = frame_bytes f -> r <> [] ->
  mg_deliver_websocket_data (fun _ => collect) nc w = Ret (false, nc, w).
Proof.
  intros Hf Hwf Hc Hr. destruct (frame_size f Hf) as [Hs Hhl]. pose proof (size_nonneg (fr_data f)) as H0. pose proof (fo_len f Hf) as H56.
  pose proof (size_content _ Hwf) as Hl. assert (0 < size r) as Hr0 by (destruct r; [done|rewrite size_cons; pose proof (size_nonneg r); lia]).
  rewrite <- Hc, size_app in Hs. destruct (buf_content _ Hwf) as [q Eb].
  assert (agrees (mb_buf (rbuf nc)) (frame_bytes f ++ []) (mb_len (rbuf nc))) as Ha by (rewrite Eb, app_nil_r, <- Hl; by eapply agrees_prefix).
  assert (exists y, frame_bytes f = fr_flags f :: y) as [y Ey] by (unfold frame_bytes, ws_head; repeat case_match; eexists; reflexivity).
  destruct (header_spec f [] (mb_buf (rbuf nc)) (mb_len (rbuf nc)) Hf Ha) as (ml & hl & dl & Eh & Hd); [pose proof (wf_len _ Hwf); lia|].
  unfold mg_deliver_websocket_data. assert (exists p0, (if mb_len (rbuf nc) >? 0 then rd (mb_buf (rbuf nc)) 0 else mret 0) = Ret p0 /\ (mb_len (rbuf nc) >? 0) && mg_is_ws_fragment p0 = false) as (p0 & -> & Ep).
  { rewrite Z.gtb_ltb. destruct (Z.ltb_spec 0 (mb_len (rbuf nc))); [|by exists 0]. exists (fr_flags f). rewrite (Ha 0), Ey by lia. split; [done|apply Hf]. }
  rewrite bind_Ret, Ep. cbn [andb]. unfold mret at 1, outcome_ret at 1. rewrite bind_Ret, Eh, bind_Ret.
  destruct Hd as [(-> & -> & ?)|(-> & -> & ->)]; [done|]. unfold u64. rewrite Z.mod_small by lia. rewrite (proj2 (Z.leb_gt _ (mb_len (rbuf nc)))) by lia. by rewrite andb_false_r.
Qed.

(** The start of a stream of frames that is not a whole one. *)
Definition waits (c : list Z) (fs : list frame) (rest : list Z) : Prop :=
  match fs with [] => c = [] /\ rest = [] | f :: fs' => exists r, c ++ r = frame_bytes f /\ r <> [] /\ rest = r ++ concat (map frame_bytes fs') end.

Definition drain (fuel : nat) (nc : mg_connection ws_fn unit) (w : ws_log) : outcome (mg_connection ws_fn unit * ws_log) :=
  loop fuel (fun '(nc, w) => '(ok, nc, w) ← mg_deliver_websocket_data (fun _ => collect) nc w; mret (if ok : bool then inl (nc, w) else inr (nc, w))) (nc, w).

Lemma drain_spec rest : forall fs fuel nc w, handler nc = Some User -> Forall frame_ok fs -> mbuf_wf (rbuf nc) ->
  content (rbuf nc) ++ rest = concat (map frame_bytes fs) -> (Z.to_nat (size (content (rbuf nc))) < fuel)%nat ->
  exists nc' fs1 fs2, drain fuel nc w = Ret (nc', w ++ map delivered fs1) /\ fs = fs1 ++ fs2 /\ kept nc nc' /\ mbuf_wf (rbuf nc') /\ waits (content (rbuf nc')) fs2 rest.
Proof.
  induction fs as [|f fs IH]; intros fuel nc w Hh Hfs Hwf Hc Hfuel; (destruct fuel as [|fuel]; [lia|]); unfold drain; rewrite loop_S.
  - cbn in Hc. apply app_nil in Hc as [Hc ->]. pose (g := mk_frame 0x81 None []).
    rewrite (deliver_partial nc w g (frame_bytes g)); [|by repeat split|done|by rewrite Hc|done]. rewrite bind_Ret. cbn [mret outcome_ret].
    exists nc, [], []. split_and!; [by rewrite app_nil_r|done|done|done|done].
  - apply Forall_cons_1 in Hfs as [Hf Hfs]. cbn [map concat] in Hc. destruct (frame_size f Hf) as [Hs Hhl]. pose proof (size_nonneg (fr_data f)).
    destruct (decide (size (frame_bytes f) <= size (content (rbuf nc)))) as [Hle|Hlt].
    + destruct (split_at (content (rbuf nc)) (size (frame_bytes f))) as (x & t & E & Hx); [lia|]. rewrite E, <- app_assoc in Hc. apply app_inj_1 in Hc as [-> Hc]; [|unfold size in *; lia].
      destruct (deliver_full nc w f t Hh Hf Hwf E) as (nc1 & E1 & Hk & Hwf1 & Hc1). rewrite E1, bind_Ret. cbn [mret outcome_ret].
      destruct (IH fuel nc1 (w ++ [delivered f])) as (nc2 & fs1 & fs2 & E2 & Efs & Hk2 & Hwf2 & Hw2); [by rewrite (k_handler _ _ Hk)|done|done|by rewrite Hc1| |].
      { rewrite Hc1. pose proof (size_nonneg t). rewrite E, size_app in Hfuel. lia. }
      exists nc2, (f :: fs1), fs2. split_and!; [|by rewrite Efs|by eapply kept_trans|done|done]. unfold drain in E2. rewrite E2. by rewrite <- app_assoc.
    + destruct (split_at (frame_bytes f) (size (content (rbuf nc)))) as (x & r & E & Hx); [split; [apply size_nonneg|lia]|]. rewrite E, <- app_assoc in Hc.
      apply app_inj_1 in Hc as [Hc ->]; [|unfold size in *; lia]. rewrite (deliver_partial nc w f r); [|done|done|by rewrite Hc|]; [|intros ->; rewrite E, app_nil_r in Hlt; lia].
      rewrite bind_Ret. cbn [mret outcome_ret]. exists nc, [], (f :: fs). split_and!; [by rewrite app_nil_r|done|done|done|].
      exists r. rewrite Hc. split_and!; [done| |done]. intros ->. rewrite E, app_nil_r in Hlt. lia.
Qed.

(** A connection that has switched to websockets, with room for [n] bytes. *)
Record ws_ready (n : Z) (nc : mg_connection ws_fn unit) : Prop := {
  wr_handler : handler nc = Some User;
  wr_proto : proto_handler nc = Some WsProto;
  wr_stale : nc_stale nc = false;
  wr_open : has_flag MG_F_CLOSE_IMMEDIATELY nc = false;
  wr_room : can_send n (recv_mbuf nc)
}.

Lemma recv_event nc n w r : handler nc = Some User -> proto_handler nc = Some WsProto -> handler r.1 = Some User ->
  drain (S (Z.to_nat (mb_len (rbuf nc)))) nc w = Ret r -> mg_call ws_run nc None MG_EV_RECV (IntData n) w = Ret r.
Proof.
  intros Hh Hp Hr E. destruct r as [nc' w']. assert (ws_run WsProto nc MG_EV_RECV (IntData n) w = Ret (nc', w')) as E1.
  { cbn [ws_run]. unfold mg_websocket_handler. assert (mg_call (fun _ => collect) nc (handler nc) MG_EV_RECV (IntData n) w = Ret (nc, w)) as ->; [|exact E].
    unfold mg_call. rewrite Hh. unfold collect. rewrite bind_Ret. by rewrite Z.eqb_refl, andb_false_r. }
  unfold mg_call. rewrite Hp, E1, bind_Ret. rewrite bool_decide_eq_false_2 by (cbn in Hr; by rewrite Hr). done.
Qed.

Lemma receive_segment nc a s rest fs w : Forall frame_ok fs -> waits (content (rbuf nc)) fs (s ++ rest) ->
  ws_ready (size (s ++ rest)) nc -> segment_ok (a, s) ->
  exists nc' fs1 fs2, mg_recv_common ws_run nc (a, Some s) (size s) w = Ret (nc', w ++ map delivered fs1) /\ fs = fs1 ++ fs2 /\
    ws_ready (size rest) nc' /\ waits (content (rbuf nc')) fs2 rest.
Proof.
  intros Hfs Hw [Hh Hp Hst Ho Hr] Hs. rewrite size_app in Hr. destruct (buffer_segment ws_run nc a s (size rest) Ho Hst Hr Hs (size_nonneg rest)) as (m & E1 & Hroom & Hc1).
  set (nc1 := set_recv nc m false) in *. change (content (rbuf nc1) = content (rbuf nc) ++ s) in Hc1. change (can_send (size rest) (recv_mbuf nc1)) in Hroom.
  change (handler nc1 = Some User) in Hh. change (proto_handler nc1 = Some WsProto) in Hp. change (has_flag MG_F_CLOSE_IMMEDIATELY nc1 = false) in Ho.
  assert (nc_stale nc1 = false) as Hst1 by done. clearbody nc1.
  assert (content (rbuf nc1) ++ rest = concat (map frame_bytes fs)) as Hc.
  { rewrite Hc1, <- app_assoc. destruct fs as [|f fs]; [by destruct Hw as [-> ->]|]. destruct Hw as (r & Ef & _ & ->). cbn [map concat]. by rewrite <- Ef, <- app_assoc. }
  rewrite E1.
  destruct (drain_spec rest fs (S (Z.to_nat (mb_len (rbuf nc1)))) nc1 w) as (nc2 & fs1 & fs2 & E2 & Ef & Hk & Hwf2 & Hw2); [done|done|apply Hroom|done|rewrite size_content by apply Hroom; lia|].
  exists nc2, fs1, fs2. split_and!; [apply recv_event; [done|done|cbn [fst]; rewrite <- Hh; apply Hk|exact E2]|done| |done]. destruct Hroom as [Hwf Had Hans Hroom]. destruct Hk as [K1 K2 K3 K4 K5 K6 K7].
  split; try congruence. split; [done| |by rewrite K4|].
  - unfold addr_ok in *. unfold rbuf in *. by rewrite K5, K6.
  - unfold sent in *. fold (rbuf nc2). fold (rbuf nc1) in Hroom. assert (size (content (rbuf nc2)) <= size (content (rbuf nc1))); [|lia].
    apply (f_equal size) in Hc. rewrite size_app, Ef, map_app, concat_app, size_app in Hc. pose proof (size_nonneg (concat (map frame_bytes fs1))).
    destruct fs2 as [|f fs2]; [destruct Hw2 as [-> _]; apply size_nonneg|]. destruct Hw2 as (r & Er & _ & ->). cbn [map concat] in Hc. rewrite <- Er, !size_app in Hc. lia.
Qed.

Lemma receive_frames : forall segs nc fs w, Forall frame_ok fs -> Forall segment_ok segs ->
  waits (content (rbuf nc)) fs (concat (map snd segs)) -> ws_ready (size (concat (map snd segs))) nc ->
  exists nc', receive ws_run nc segs w = Ret (nc', w ++ map delivered fs) /\ ws_ready 0 nc' /\ content (rbuf nc') = [].
Proof.
  induction segs as [|[a s] segs IH]; intros nc fs w Hfs Hsegs Hw Hr; cbn [receive].
  - destruct fs as [|f fs]; [destruct Hw as [Hc _]; exists nc; by rewrite app_nil_r|]. destruct Hw as (r & _ & Hr0 & Hn). cbn in Hn. symmetry in Hn. apply app_nil in Hn as [-> _]. done.
  - apply Forall_cons_1 in Hsegs as [Hs Hsegs]. cbn [map concat snd] in *. destruct (receive_segment nc a s _ fs w Hfs Hw Hr Hs) as (nc1 & fs1 & fs2 & E & -> & Hr1 & Hw1).
    rewrite E, bind_Ret. apply Forall_app in Hfs as [_ Hfs2]. destruct (IH nc1 fs2 (w ++ map delivered fs1) Hfs2 Hsegs Hw1 Hr1) as (nc2 & E2 & H2). exists nc2. split; [|done].
    by rewrite E2, map_app, <- app_assoc.
Qed.

(** ** Sending *)

Definition first_byte (op : Z) : Z := (if negb (Z.land op WEBSOCKET_DONT_FIN =? 0) then 0 else 0x80) + Z.land op 0x0f.

(** The frame for a message; a client masks it with what [rand] answers. *)
Definition sent_frame (client : bool) (r op : Z) (data : list Z) : frame :=
  mk_frame (first_byte op) (if client then Some (host32 (u32 r)) else None) data.

Definition is_client (nc : mg_connection ws_fn unit) : bool := bool_decide (listener nc = None).

Lemma size_host32 v : size (host32 v) = 4.
Proof. done. Qed.

Lemma ws_header_head op len : 0 <= len -> ws_header op len = ws_head (first_byte op) None len.
Proof. intros H. unfold ws_header, ws_head. cbn [default from_option]. destruct (len <? 126), (len <? 65535); by rewrite app_nil_r. Qed.

Lemma ws_header_masked op len k : 0 <= len -> exists h1 h, rd (ws_header op len) 1 = Ret h1 /\ wr (ws_header op len) 1 (Z.lor h1 128) = Ret h /\ ws_head (first_byte op) (Some k) len = h ++ k.
Proof.
  intros H. unfold ws_header, ws_head. cbn [default from_option Datatypes.id]. fold (first_byte op).
  destruct (Z.ltb_spec len 126); [|destruct (Z.ltb_spec len 65535)]; (eexists _, _; split; [reflexivity|]; split; [reflexivity|]); cbn [insert list_insert Pos.to_nat Z.to_nat Pos.iter_op].
  - destruct (byte_1 128 len) as (_ & _ & ->); [auto|lia|done].
  - done.
  - done.
Qed.

(** A masked frame: the data behind [pos] is xored in place. *)
Lemma mask_content m pre data mask : mbuf_wf m -> content m = pre ++ data -> 0 < size pre -> size pre + size data < 2 ^ 64 ->
  exists b, mg_ws_mask_frame m (mk_ctx (size pre) mask) = Ret (with_buf m b) /\ mbuf_wf (with_buf m b) /\ content (with_buf m b) = pre ++ masked (host32 mask) 0 data.
Proof.
  intros Hwf Hc Hp Hn. pose proof (size_content m Hwf) as Hl. rewrite Hc, size_app in Hl. destruct (buf_content m Hwf) as [q Eb]. rewrite Hc, <- app_assoc in Eb. pose proof (size_nonneg data).
  unfold mg_ws_mask_frame. cbn [ctx_pos ctx_mask]. rewrite (proj2 (Z.eqb_neq (size pre) 0)) by lia. replace (u64 (mb_len m - size pre)) with (size data) by (unfold u64; rewrite Z.mod_small by lia; lia).
  pose proof (xor_loop (fun _ i => rd (host32 mask) i) (host32 mask) pre q (size data) data (S (length (mb_buf m))) []) as X. cbn [masked app] in X. change (size (@nil Z)) with 0 in X. rewrite Eb in *. rewrite X.
  - rewrite bind_Ret. pose proof Hwf as [Hl1 Hs1]. eexists. split; [reflexivity|]. split; [split; cbn; [done|rewrite Hs1, Eb, !size_app, size_masked; lia]|].
    unfold content. cbn [with_buf mb_buf mb_len]. rewrite <- Hl, <- (size_masked (host32 mask) 0 data), <- size_app, app_assoc. apply slice_prefix.
  - lia.
  - intros d i _ Hi. destruct (rd_total (host32 mask) i) as (v & Hv & ->); [by rewrite size_host32|]. by rewrite (nth_lookup_Some _ _ _ _ Hv).
  - rewrite !length_app. lia.
Qed.

Lemma send_frame_client r nc op data n : is_client nc = true -> can_send (size (frame_bytes (sent_frame true r op data)) + n) (nc_out nc) -> 0 <= n -> size data < 2 ^ 31 ->
  exists nc', mg_send_websocket_frame r nc op data (size data) = Ret nc' /\ can_send n (nc_out nc') /\ is_client nc' = true /\
    sent (nc_out nc') = sent (nc_out nc) ++ frame_bytes (sent_frame true r op data).
Proof.
  intros Ec Hr Hn Hd. pose proof (size_nonneg data) as H0. unfold mg_send_websocket_frame, mg_send_ws_header. fold (is_client nc). rewrite Ec.
  unfold sent_frame, frame_bytes in *. cbn [fr_flags fr_key fr_data] in *. destruct (ws_header_masked op (size data) (host32 (u32 r)) H0) as (h1 & h & E1 & E2 & Eh).
  rewrite Eh in *. rewrite !size_app, size_masked, size_host32 in Hr. rewrite E1, bind_Ret, E2, bind_Ret.
  assert (size h = size (ws_header op (size data))) as Es by (unfold wr in E2; case_decide; [|done]; injection E2 as <-; unfold size; by rewrite length_insert).
  assert (2 <= size h <= 10) as Hh by (rewrite Es; unfold ws_header, net16, net32; repeat case_match; cbn [app]; rewrite ?size_cons, ?size_nil; lia).
  destruct (mg_send_sends (has_flag MG_F_UDP nc) h ltac:(lia) (nc_out nc) (4 + (size data + n))) as (c1 & -> & Hs1 & Hc1); [by replace (size h + (4 + (size data + n))) with (size h + 4 + size data + n) by lia|lia|]. rewrite bind_Ret.
  destruct (mg_send_sends (has_flag MG_F_UDP nc) (host32 (u32 r)) ltac:(rewrite size_host32; lia) c1 (size data + n)) as (c2 & E3 & Hs2 & Hc2); [by rewrite size_host32|lia|].
  rewrite size_host32 in E3. rewrite E3, bind_Ret. cbn [mret outcome_ret]. rewrite bind_Ret. cbn [nc_out set_out].
  destruct (mg_send_sends (has_flag MG_F_UDP (set_out nc c2)) data Hd c2 n) as (c3 & -> & Hs3 & Hc3); [done|done|]. rewrite bind_Ret. unfold mask_out. cbn [nc_out set_out].
  assert (mb_len (send_mbuf c2) = size (sent c2)) as -> by (symmetry; apply size_content, Hc2). pose proof (cs_room _ _ Hc3) as Hroom. rewrite Hs3, size_app in Hroom.
  destruct (mask_content (send_mbuf c3) (sent c2) data (u32 r)) as (b & -> & Hwf & Hc); [apply Hc3|exact Hs3|rewrite Hs2, size_app, size_host32; pose proof (size_nonneg (sent c1)); lia|unfold FITS in *; lia|].
  rewrite bind_Ret. assert (sent (mk_conn (with_buf (send_mbuf c3) b) (Conn.answers c3)) = sent (nc_out nc) ++ (h ++ host32 (u32 r)) ++ masked (host32 (u32 r)) 0 data) as Hs4.
  { unfold sent at 1. cbn [send_mbuf]. by rewrite Hc, Hs2, Hs1, <- !app_assoc. }
  assert (can_send n (mk_conn (with_buf (send_mbuf c3) b) (Conn.answers c3))) as Hc4.
  { destruct Hc3 as [W1 W2 W3 W4]. split; [done|done|done|]. rewrite Hs4. rewrite Hs3, Hs2, Hs1 in W4. rewrite !size_app, ?size_masked in *. lia. }
  eexists. split; [reflexivity|]. destruct (op =? WEBSOCKET_OP_CLOSE); (split_and!; [exact Hc4|exact Ec|exact Hs4]).
Qed.

Lemma send_frame_server r nc op data n : is_client nc = false -> can_send (size (frame_bytes (sent_frame false r op data)) + n) (nc_out nc) -> 0 <= n -> size data < 2 ^ 31 ->
  exists nc', mg_send_websocket_frame r nc op data (size data) = Ret nc' /\ can_send n (nc_out nc') /\ is_client nc' = false /\
    sent (nc_out nc') = sent (nc_out nc) ++ frame_bytes (sent_frame false r op data).
Proof.
  intros Ec Hr Hn Hd. pose proof (size_nonneg data) as H0. unfold mg_send_websocket_frame, mg_send_ws_header. fold (is_client nc). rewrite Ec.
  unfold sent_frame, frame_bytes in *. cbn [fr_flags fr_key fr_data] in *. rewrite <- ws_header_head in * by done. rewrite size_app in Hr.
  assert (size (ws_header op (size data)) <= 10) as Hh by (unfold ws_header, net16, net32; repeat case_match; cbn [app]; rewrite ?size_cons, ?size_nil; lia).
  destruct (mg_send_sends (has_flag MG_F_UDP nc) (ws_header op (size data)) ltac:(lia) (nc_out nc) (size data + n)) as (c1 & -> & Hs1 & Hc1); [by rewrite Z.add_assoc|lia|].
  rewrite bind_Ret. cbn [mret outcome_ret]. rewrite bind_Ret. cbn [nc_out set_out].
  destruct (mg_send_sends (has_flag MG_F_UDP (set_out nc c1)) data Hd c1 n) as (c2 & -> & Hs2 & Hc2); [done|done|]. rewrite bind_Ret. unfold mask_out, mg_ws_mask_frame. cbn [ctx_pos Z.eqb nc_out set_out mret outcome_ret].
  rewrite bind_Ret. rewrite Hs1, <- app_assoc in Hs2. eexists. split; [reflexivity|]. destruct c2. destruct (op =? WEBSOCKET_OP_CLOSE); (split_and!; [exact Hc2|exact Ec|exact Hs2]).
Qed.

Lemma send_frame r nc op data n : can_send (size (frame_bytes (sent_frame (is_client nc) r op data)) + n) (nc_out nc) -> 0 <= n -> size data < 2 ^ 31 ->
  exists nc', mg_send_websocket_frame r nc op data (size data) = Ret nc' /\ can_send n (nc_out nc') /\ is_client nc' = is_client nc /\
    sent (nc_out nc') = sent (nc_out nc) ++ frame_bytes (sent_frame (is_client nc) r op data).
Proof. destruct (is_client nc) eqn:E; [by apply send_frame_client|by apply send_frame_server]. Qed.

(** Messages with their opcodes, each with what [rand] answers for it. *)
Definition ws_msg : Type := Z * Z * list Z.
Definition msg_frame (client : bool) (m : ws_msg) : frame := sent_frame client m.1.1 m.1.2 m.2.
Definition send_all (nc : mg_connection ws_fn unit) (msgs : list ws_msg) : outcome (mg_connection ws_fn unit) :=
  foldl (fun nc m => nc ← nc; mg_send_websocket_frame m.1.1 nc m.1.2 m.2 (size m.2)) (mret nc) msgs.

(** A whole message: the flag [WEBSOCKET_DONT_FIN] is not set, and it is not a continuation. *)
Definition msg_ok (m : ws_msg) : Prop := 0 < m.1.2 < 16 /\ size m.2 < 2 ^ 31.

(** What the handler of the peer is told: control frames have an event of their own. *)
Definition msg_event (m : ws_msg) : Z * Z * list Z :=
  (if m.1.2 <? 8 then MG_EV_WEBSOCKET_FRAME else MG_EV_WEBSOCKET_CONTROL_FRAME, 0x80 + m.1.2, m.2).

Lemma op_table op : 0 < op < 16 -> first_byte op = 0x80 + op /\ mg_is_ws_fragment (0x80 + op) = false /\ (Z.land (0x80 + op) 8 =? 0) = (op <? 8).
Proof.
  intros H. assert (forallb (fun op => (first_byte op =? 0x80 + op) && negb (mg_is_ws_fragment (0x80 + op)) && Bool.eqb (Z.land (0x80 + op) 8 =? 0) (op <? 8)) (seqZ 1 15) = true) as T by (vm_compute; reflexivity).
  rewrite forallb_forall in T. specialize (T op). rewrite <- list_elem_of_In, elem_of_seqZ, !andb_true_iff, negb_true_iff in T. destruct (T ltac:(lia)) as [[H1 H2] H3].
  split_and!; [lia|done|by apply eqb_prop].
Qed.

Lemma msg_frame_ok client m : msg_ok m -> frame_ok (msg_frame client m) /\ delivered (msg_frame client m) = msg_event m.
Proof.
  intros [Ho Hs]. destruct (op_table _ Ho) as (E1 & E2 & E3). unfold msg_frame, sent_frame, delivered, msg_event. cbn [fr_flags fr_data]. rewrite E1, E3. split.
  - split; cbn [fr_flags fr_key fr_data]; rewrite ?E1; [unfold is_byte; lia|done| |lia]. destruct client; [by intros k [= <-]|done].
  - by destruct (m.1.2 <? 8).
Qed.

Lemma send_all_spec client : forall msgs nc n, is_client nc = client -> Forall msg_ok msgs ->
  can_send (size (concat (map (fun m => frame_bytes (msg_frame client m)) msgs)) + n) (nc_out nc) -> 0 <= n ->
  exists nc', send_all nc msgs = Ret nc' /\ sent (nc_out nc') = sent (nc_out nc) ++ concat (map (fun m => frame_bytes (msg_frame client m)) msgs).
Proof.
  induction msgs as [|m msgs IH]; intros nc n Hc Hm Hr Hn; [by exists nc; rewrite app_nil_r|]. apply Forall_cons_1 in Hm as [[Ho Hs] Hm].
  cbn [map concat] in *. rewrite size_app in Hr. pose proof (size_nonneg (concat (map (fun m => frame_bytes (msg_frame client m)) msgs))).
  destruct (send_frame m.1.1 nc m.1.2 m.2 (size (concat (map (fun m => frame_bytes (msg_frame client m)) msgs)) + n)) as (nc1 & E1 & Hr1 & Hc1 & Hs1); [by rewrite Hc, Z.add_assoc|lia|done|].
  rewrite Hc in *. destruct (IH nc1 n Hc1 Hm Hr1 Hn) as (nc2 & E2 & Hs2). exists nc2. split; [|by rewrite Hs2, Hs1, <- app_assoc].
  unfold send_all in *. cbn [foldl]. unfold mret at 1, outcome_ret at 1. by rewrite bind_Ret, E1.
Qed.

(** C24: what one side sends as websocket frames, the handler of the other side
    receives: one event for each message, in order, with its opcode and exactly
    its data, whether it was masked on the way, and however the network cuts the
    stream into segments. *)
Theorem websocket_roundtrip nc msgs peer w :
  Forall msg_ok msgs -> sent (nc_out nc) = [] ->
  let n := size (concat (map (fun m => frame_bytes (msg_frame (is_client nc) m)) msgs)) in
  can_send n (nc_out nc) -> ws_ready n peer -> content (rbuf peer) = [] ->
  exists nc', send_all nc msgs = Ret nc' /\
    forall segs, Forall segment_ok segs -> concat (map snd segs) = sent (nc_out nc') ->
      exists peer', receive ws_run peer segs w = Ret (peer', w ++ map msg_event msgs) /\ content (rbuf peer') = [].
Proof.
  intros Hm Hs n Hr Hp Hc. destruct (send_all_spec (is_client nc) msgs nc 0) as (nc' & E & Hs'); [done|done|by rewrite Z.add_0_r|done|]. exists nc'. split; [done|].
  rewrite Hs, app_nil_l, <- (map_map (msg_frame (is_client nc)) frame_bytes) in Hs'. intros segs Hsegs Hcat. rewrite Hs' in Hcat.
  destruct (receive_frames segs peer (map (msg_frame (is_client nc)) msgs) w) as (peer' & Er & _ & Hc'); [|done| | |].
  - apply Forall_map. eapply Forall_impl; [|exact Hm]. intros m H'. by apply msg_frame_ok.
  - rewrite Hc, Hcat. destruct msgs as [|m msgs]; [done|]. exists (frame_bytes (msg_frame (is_client nc) m)). split; [done|]. split; [|done].
    apply Forall_cons_1 in Hm as [Hm _]. destruct (frame_size _ (proj1 (msg_frame_ok (is_client nc) m Hm))) as [Hz ?]. intros E0. rewrite E0 in Hz. pose proof (size_nonneg (fr_data (msg_frame (is_client nc) m))). change (size (@nil Z)) with 0 in Hz. lia.
  - subst n. by rewrite Hcat, map_map.
  - exists peer'. split; [|done]. rewrite Er, map_map. do 3 f_equal. apply map_ext_in. intros m Hin. apply msg_frame_ok. eapply List.Forall_forall; [exact Hm|exact Hin].
Qed.

(** ** Examples *)

Definition ws_conn (l : option Z) (proto : option ws_fn) : mg_connection ws_fn unit :=
  mk_nc ws_fn unit 100 l 5 0 (2 ^ 64 - 1) fresh_conn false fresh_conn (of_Z 0) proto (Some User) tt MG_F_IS_WEBSOCKET.
Definition sample_msgs : list ws_msg := [(0x12345678, WEBSOCKET_OP_TEXT, lit "hello"); (77, WEBSOCKET_OP_PING, []); (1000, WEBSOCKET_OP_BINARY, replicate 300 7)].

Lemma websocket_roundtrip_witness :
  exists nc', send_all (ws_conn None None) sample_msgs = Ret nc' /\
    forall segs, Forall segment_ok segs -> concat (map snd segs) = sent (nc_out nc') ->
      exists peer', receive ws_run (ws_conn (Some 3) (Some WsProto)) segs [] = Ret (peer', [] ++ map msg_event sample_msgs) /\ content (rbuf peer') = [].
Proof.
  apply (websocket_roundtrip (ws_conn None None) sample_msgs (ws_conn (Some 3) (Some WsProto)) []).
  - repeat (constructor; [split; vm_compute; split; reflexivity || discriminate|]). constructor.
  - reflexivity.
  - apply fresh_can_send. vm_compute. split; discriminate.
  - split; [done|done|done|done|]. apply fresh_can_send. vm_compute. split; discriminate.
  - reflexivity.
Defined.

Definition ws_server : mg_connection ws_fn unit := ws_conn (Some 3) (Some WsProto).
Definition masked_frame (flags : Z) (data : list Z) : list Z := frame_bytes (mk_frame flags (Some [1; 2; 3; 4]) data).
(** The frames a handler saw, and whether the connection is to be closed. *)
Definition outcome_of (a : Z) (s : list Z) : outcome (ws_log * bool) :=
  '(nc, w) ← receive ws_run ws_server [(a, s)] []; mret (w, has_flag MG_F_SEND_AND_CLOSE nc).

(** The fragments of a message become one. *)
Example fragments_joined : outcome_of 4096 (masked_frame 0x01 (lit "Wel") ++ masked_frame 0x00 (lit "come, ") ++ masked_frame 0x80 (lit "you")) =
  Ret ([(MG_EV_WEBSOCKET_FRAME, 0x80, lit "Welcome, you")], false).
Proof. vm_compute. reflexivity. Qed.

(** The counter that is written in front of the message overwrites the data of a first fragment without a mask. *)
Example fragment_stomped : outcome_of 4096 (frame_bytes (mk_frame 0x01 None (lit "Welcome ")) ++ frame_bytes (mk_frame 0x80 None (lit "you"))) =
  Ret ([(MG_EV_WEBSOCKET_FRAME, 0x80, [0; 0; 0] ++ lit "come you")], false).
Proof. vm_compute. reflexivity. Qed.

(** [mbuf_resize] moves the buffer, and the function goes on with the old one. *)
Example fragment_moves : outcome_of 8192 (masked_frame 0x01 (lit "Hel") ++ masked_frame 0x80 (lit "lo")) = Fault UseAfterFree.
Proof. vm_compute. reflexivity. Qed.

(** A length near 2^64 makes the length of the frame small. *)
Example length_wraps : outcome_of 4096 ([0x82; 0xff] ++ repeat 0xff 7 ++ [0xf8; 1; 2; 3; 4] ++ lit "data") = Fault OutOfBounds.
Proof. vm_compute. reflexivity. Qed.

(** Whether the peer closes is looked up after the frame was removed: a fragment that starts with "h" closes. *)
Example closed_by_text : outcome_of 4096 (masked_frame 0x01 (lit "hello")) = Ret ([], true).
Proof. vm_compute. reflexivity. Qed.
