(* ===== verification/HttpPrefix.v ===== *)
(** * The HTTP parser and the bytes behind the head (mongoose.c, http.c)

    A connection parses its receive buffer again each time more bytes arrive.  The
    theorems here say what these attempts see: nothing complete while the head is
    not whole, and from then on always the same message, whatever follows. *)

From Stdlib Require Import ZArith Lia String.
From stdpp Require Import base list numbers option.
From S2P Require Import Prelude Strs Http.

Local Open Scope Z_scope.

(** ** Results that stay when an object gets longer *)

(** Whatever [c] returns, [d] returns. *)
Definition below {A} (c d : outcome A) : Prop := forall r, c = Ret r -> d = Ret r.

Lemma below_refl {A} (c : outcome A) : below c c.
Proof. by intros r. Qed.
Lemma below_bind {A B} (c d : outcome A) (f g : A -> outcome B) : below c d -> (forall a, below (f a) (g a)) -> below (c ≫= f) (d ≫= g).
Proof. intros H Hf r. destruct c as [a|]; [|done]. rewrite (H a eq_refl). apply Hf. Qed.
Lemma below_if {A} (b : bool) (c d c' d' : outcome A) : below c c' -> below d d' -> below (if b then c else d) (if b then c' else d').
Proof. by destruct b. Qed.
Lemma below_loop {S R} (f g : S -> outcome (S + R)) n m s : (forall s, below (f s) (g s)) -> (n <= m)%nat -> below (loop n f s) (loop m g s).
Proof.
  intros Hf. revert m s. induction n as [|n IH]; intros m s Hle r; [done|]. destruct m as [|m]; [lia|]. rewrite !loop_S.
  destruct (f s) as [[s'|r']|] eqn:E; [| |done]; rewrite (Hf s _ E); [apply IH; lia|done].
Qed.
Lemma below_rd {A} (b x : list A) i : below (rd b i) (rd (b ++ x) i).
Proof.
  intros r. unfold rd. case_decide; [|done]. case_match eqn:E; [|done]. intros [= <-]. by rewrite (lookup_app_l_Some _ _ _ _ E).
Qed.
Lemma below_deref {A} (q : option Z) (f g : Z -> outcome A) : (forall i, below (f i) (g i)) -> below (deref q f) (deref q g).
Proof. destruct q; cbn [deref]; [auto|]. intros _. apply below_refl. Qed.

Create HintDb below.
#[export] Hint Resolve below_refl below_rd : below.

Ltac below_step := first
  [ progress auto with below | apply below_bind; [|intro] | apply below_loop; [intro|rewrite ?length_app; lia] | apply below_deref; intro
  | match goal with |- below (match ?x with _ => _ end) _ => destruct x end | progress cbv beta zeta ].

Section longer.
Context (b x : list Z).

Lemma below_scan_while test e s : below (scan_while test b e s) (scan_while test (b ++ x) e s).
Proof. unfold scan_while. repeat below_step. Qed.
Lemma below_mg_skip s e delims : below (mg_skip b s e delims) (mg_skip (b ++ x) s e delims).
Proof. unfold mg_skip. repeat (apply below_scan_while || below_step). Qed.
Lemma below_memchr i c n : below (memchr b i c n) (memchr (b ++ x) i c n).
Proof. unfold memchr. repeat below_step. Qed.
Lemma below_mg_ncasecmp i b2 i2 n : below (mg_ncasecmp b i b2 i2 n) (mg_ncasecmp (b ++ x) i b2 i2 n).
Proof. unfold mg_ncasecmp, lowercase. repeat below_step. Qed.
Lemma below_mg_vcasecmp s t : below (mg_vcasecmp b s t) (mg_vcasecmp (b ++ x) s t).
Proof. unfold mg_vcasecmp. repeat (apply below_mg_ncasecmp || below_step). Qed.
Lemma below_strtoll i : below (strtoll b i) (strtoll (b ++ x) i).
Proof. unfold strtoll. repeat below_step. Qed.
Lemma below_trim_value v : below (trim_value b v) (trim_value (b ++ x) v).
Proof. unfold trim_value. repeat below_step. Qed.
Hint Resolve below_scan_while below_mg_skip below_memchr below_mg_ncasecmp below_mg_vcasecmp below_strtoll below_trim_value : below.

Lemma below_parse_headers s e n req : below (mg_http_parse_headers b s e n req) (mg_http_parse_headers (b ++ x) s e n req).
Proof. unfold mg_http_parse_headers, to64. repeat below_step. Qed.
Lemma below_get_header hm name : below (mg_get_http_header b hm name) (mg_get_http_header (b ++ x) hm name).
Proof. unfold mg_get_http_header. repeat below_step. Qed.
End longer.

(** ** Where the head ends *)

Definition byte_at (b : list Z) (i : Z) : Z := nth (Z.to_nat i) b 0.
Definition bad (c : Z) : bool := negb (isprint c) && negb (c =? 13) && negb (c =? 10) && (c <? 128).

(** One turn of [mg_http_get_request_len]. *)
Definition head_step (b : list Z) (n i : Z) : Z + Z :=
  if i <? n then
    if bad (byte_at b i) then inr (-1)
    else if (byte_at b i =? 10) && (i + 1 <? n) && (byte_at b (i + 1) =? 10) then inr (i + 2)
    else if (byte_at b i =? 10) && (i + 2 <? n) && (byte_at b (i + 1) =? 13) && (byte_at b (i + 2) =? 10) then inr (i + 3)
    else inl (i + 1)
  else inr 0.

Definition head_loop (b : list Z) (n : Z) (fuel : nat) (i : Z) : outcome Z := loop fuel (fun i => Ret (head_step b n i)) i.

Lemma byte_at_rd b i : 0 <= i < size b -> rd b i = Ret (byte_at b i).
Proof.
  intros Hi. destruct (rd_total b i Hi) as (v & Hv & ->). unfold byte_at. by rewrite (nth_lookup_Some _ _ _ _ Hv).
Qed.

Lemma loop_ext {S R} (I : S -> Prop) (f g : S -> outcome (S + R)) fuel s :
  (forall s, I s -> f s = g s) -> (forall s s', I s -> g s = Ret (inl s') -> I s') -> I s -> loop fuel f s = loop fuel g s.
Proof.
  intros Hf Hg. revert s. induction fuel as [|n IH]; intros s Hs; [done|]. rewrite !loop_S, (Hf s Hs). destruct (g s) as [[s'|]|] eqn:E; [|done|done]. by apply IH, (Hg s).
Qed.

Lemma get_request_len_loop b n : n <= size b -> mg_http_get_request_len b 0 n = head_loop b n (S (Z.to_nat n)) 0.
Proof.
  intros Hn. unfold mg_http_get_request_len, head_loop. apply (loop_ext (fun i => 0 <= i)); [| |lia].
  - intros i Hi. cbv beta in Hi. rewrite !Z.add_0_l. unfold head_step. destruct (Z.ltb_spec i n); [|done]. rewrite (byte_at_rd b i) by lia. rewrite bind_Ret. fold (bad (byte_at b i)).
    destruct (bad (byte_at b i)); [done|]. destruct (byte_at b i =? 10); cbn [andb]; [|done].
    destruct (Z.ltb_spec (i + 1) n); cbn [andb]; [|rewrite bind_Ret; destruct (Z.ltb_spec (i + 2) n); [lia|done]].
    rewrite (byte_at_rd b (i + 1)) by lia. rewrite bind_Ret. cbn [mret outcome_ret]. rewrite bind_Ret. destruct (byte_at b (i + 1) =? 10); [done|].
    destruct (Z.ltb_spec (i + 2) n); cbn [andb]; [|done]. rewrite bind_Ret. destruct (byte_at b (i + 1) =? 13); cbn [andb]; [|done].
    rewrite (byte_at_rd b (i + 2)) by lia. rewrite bind_Ret. cbn [mret outcome_ret]. rewrite bind_Ret. by destruct (byte_at b (i + 2) =? 10).
  - intros i i' Hi [= E]. revert E. unfold head_step. repeat case_match; intros [= <-]; lia.
Qed.

(** The last byte alone never ends a head. *)
Lemma head_loop_last h n fuel i r : n - 1 <= i -> 0 <= n -> head_loop h n fuel i = Ret r -> r <= 0.
Proof.
  unfold head_loop. revert i. induction fuel as [|fuel IH]; intros i Hi Hn; [done|]. rewrite loop_S. destruct (head_step h n i) as [i'|r'] eqn:E.
  - apply IH; [|done]. revert E. unfold head_step. repeat case_match; intros [= <-]; lia.
  - intros [= <-]. revert E. unfold head_step. case_match; [|intros [= <-]; lia]. repeat (case_match; [try discriminate; intros [= <-]; lia|]). discriminate.
Qed.

Lemma byte_at_app h x i : 0 <= i < size h -> byte_at (h ++ x) i = byte_at h i.
Proof. intros Hi. unfold byte_at. apply app_nth1. unfold size in Hi. lia. Qed.

Lemma head_loop_longer h x n : 0 < size h <= n -> forall fuel m i, 0 <= i -> (fuel <= m)%nat ->
  head_loop h (size h) fuel i = Ret (size h) -> head_loop (h ++ x) n m i = Ret (size h).
Proof.
  intros Hn. induction fuel as [|fuel IH]; intros m i Hi Hm E; [done|]. destruct m as [|m]; [lia|].
  assert (i + 1 < size h) as Hi1 by (destruct (decide (i + 1 < size h)); [done|]; apply head_loop_last in E; lia).
  unfold head_loop in *. rewrite loop_S in *. unfold head_step in *.
  rewrite !byte_at_app by lia. rewrite (proj2 (Z.ltb_lt i n)), (proj2 (Z.ltb_lt (i + 1) n)) by lia. rewrite (proj2 (Z.ltb_lt i (size h))), (proj2 (Z.ltb_lt (i + 1) (size h))) in E by lia.
  destruct (bad _); [done|]. destruct (_ && true && _); [done|]. destruct (Z.ltb_spec (i + 2) (size h)).
  - rewrite !byte_at_app by lia. rewrite (proj2 (Z.ltb_lt (i + 2) n)) by lia. destruct (_ && _ && _ && _); [done|]. apply IH; [lia|lia|done].
  - rewrite andb_false_r in E. cbn [andb] in E. apply (head_loop_last h (size h) fuel (i + 1)) in E; lia.
Qed.

Lemma head_loop_shorter h c q r : h = c ++ r -> forall fuel m i, 0 <= i <= size c -> size c < size h -> (Z.to_nat (size c - i) < m)%nat ->
  head_loop h (size h) fuel i = Ret (size h) -> head_loop (c ++ q) (size c) m i = Ret 0.
Proof.
  intros Eh. assert (forall m i, size c <= i -> (0 < m)%nat -> head_loop (c ++ q) (size c) m i = Ret 0) as Hend.
  { intros m i Hi Hm. destruct m; [lia|]. unfold head_loop. rewrite loop_S. unfold head_step. by rewrite (proj2 (Z.ltb_ge i (size c))) by lia. }
  assert (forall i, 0 <= i < size c -> byte_at (c ++ q) i = byte_at h i) as Hb by (intros i Hi; by rewrite Eh, !byte_at_app).
  induction fuel as [|fuel IH]; intros m i Hi Hlt Hm E; [done|]. destruct (decide (i = size c)); [apply Hend; lia|]. destruct m as [|m]; [lia|].
  unfold head_loop in *. rewrite loop_S in *. unfold head_step in E |- * at 1. rewrite (Hb i) by lia.
  rewrite (proj2 (Z.ltb_lt i (size c))) by lia. rewrite (proj2 (Z.ltb_lt i (size h))), (proj2 (Z.ltb_lt (i + 1) (size h))) in E by lia.
  destruct (bad _); [exfalso; injection E; lia|]. destruct (byte_at h i =? 10); cbn [andb] in *; [|apply IH; (lia || done)].
  destruct (Z.ltb_spec (i + 1) (size c)); cbn [andb]; [|rewrite (proj2 (Z.ltb_ge (i + 2) (size c))) by lia; cbn [andb]; apply Hend; lia].
  rewrite (Hb (i + 1)) by lia. destruct (byte_at h (i + 1) =? 10); [exfalso; injection E; lia|].
  destruct (Z.ltb_spec (i + 2) (size h)); cbn [andb] in E; [|destruct (Z.ltb_spec (i + 2) (size c)); [lia|]; cbn [andb]; apply IH; (lia || done)].
  destruct (Z.ltb_spec (i + 2) (size c)); cbn [andb].
  - rewrite (Hb (i + 2)) by lia. destruct (_ && _); [exfalso; injection E; lia|]. apply IH; (lia || done).
  - destruct (byte_at h (i + 1) =? 13) eqn:E13; cbn [andb] in E; [|apply IH; (lia || done)]. destruct m as [|m]; [lia|]. rewrite loop_S. unfold head_step.
    rewrite (Hb (i + 1)), (proj2 (Z.ltb_lt (i + 1) (size c))) by lia. apply Z.eqb_eq in E13. rewrite E13. cbn. apply Hend; lia.
Qed.

(** ** Parsing again *)

Lemma parse_longer b x s0 n0 n hm is_req len r : 0 < len -> mg_http_get_request_len b s0 n0 = Ret len -> mg_http_get_request_len (b ++ x) s0 n = Ret len ->
  mg_parse_http b s0 n0 hm is_req = Ret r -> mg_parse_http (b ++ x) s0 n hm is_req = Ret r.
Proof.
  intros Hl E1 E2. revert r. change (below (mg_parse_http b s0 n0 hm is_req) (mg_parse_http (b ++ x) s0 n hm is_req)). unfold mg_parse_http. rewrite E1, E2, !bind_Ret.
  rewrite (proj2 (Z.leb_gt len 0)) by lia. cbv zeta. unfold atoi.
  repeat (apply below_scan_while || apply below_mg_skip || apply below_memchr || apply below_mg_vcasecmp || apply below_strtoll || apply below_parse_headers || below_step).
Qed.

(** [h] is the head of a message, and [hm] what it says. *)
Definition head_of (is_req : bool) (h : list Z) (hm : http_message) : Prop := 0 < size h /\ mg_parse_http h 0 (size h) http0 is_req = Ret (size h, hm).

Lemma head_len is_req h hm : head_of is_req h hm -> mg_http_get_request_len h 0 (size h) = Ret (size h).
Proof.
  intros [Hp E]. unfold mg_parse_http in E. destruct (mg_http_get_request_len h 0 (size h)) as [len|] eqn:El; [|done]. rewrite bind_Ret in E.
  destruct (Z.leb_spec len 0); [injection E as E _; lia|]. revert E. cbv zeta.
  assert (forall (c : outcome (bool * Z * http_message)) (f : Z -> http_message -> outcome (Z * http_message)) v, (forall s hm r, f s hm = Ret r -> r.1 = len) ->
    ('(ok, s, hm) ← c; if negb (ok : bool) then mret (-1, hm) else f s hm) = Ret (size h, v) -> size h = len) as Hs.
  { intros c f v Hf. destruct c as [[[ok s] hm']|]; [|done]. cbn [mbind outcome_bind]. destruct ok; cbn [negb]; [apply Hf|intros [= E _]; lia]. }
  destruct (scan_while isspace h (0 + len) 0) as [s|]; [|done]. rewrite bind_Ret. intros E. apply Hs in E; [by rewrite E|].
  intros s' hm' r E'. destruct (mg_http_parse_headers _ _ _ _ _) as [[s2 hm2]|]; [|done]. rewrite bind_Ret in E'.
  destruct (if _ && _ then _ else _) as [nb|] in E'; [|done]. rewrite bind_Ret in E'. injection E' as <-. done.
Qed.

Lemma parse_part is_req h hm c r junk : head_of is_req h hm -> c ++ r = h -> r <> [] -> mg_parse_http (c ++ junk) 0 (size c) http0 is_req = Ret (0, http0).
Proof.
  intros Hh Ec Hr. pose proof (head_len _ _ _ Hh) as Eh. rewrite get_request_len_loop in Eh by lia.
  assert (size c < size h) as Hlt by (rewrite <- Ec, size_app; destruct r; [done|]; rewrite size_cons; pose proof (size_nonneg r); lia).
  unfold mg_parse_http. rewrite get_request_len_loop by (rewrite size_app; pose proof (size_nonneg junk); lia). pose proof (size_nonneg c).
  rewrite (head_loop_shorter h c junk r (eq_sym Ec) (S (Z.to_nat (size h)))); [done|lia|done|lia|done].
Qed.

Lemma parse_whole is_req h hm rest n : head_of is_req h hm -> size h <= n <= size (h ++ rest) -> mg_parse_http (h ++ rest) 0 n http0 is_req = Ret (size h, hm).
Proof.
  intros Hh Hn. pose proof (head_len _ _ _ Hh) as El. destruct Hh as [Hp E]. apply (parse_longer h rest 0 (size h) n http0 is_req (size h)); [done|done| |done].
  rewrite get_request_len_loop in * by lia. apply (head_loop_longer h rest n ltac:(lia) (S (Z.to_nat (size h)))); [lia|lia|done].
Qed.

(** C10: what a connection sees of a message while its bytes arrive.  As long as
    the head is not whole, the parser says so, whatever the buffer holds behind
    the bytes received; from then on it always finds the same message, whatever
    follows the head. *)
Theorem mg_parse_http_incremental is_req h hm : head_of is_req h hm ->
  (forall c r junk, c ++ r = h -> r <> [] -> mg_parse_http (c ++ junk) 0 (size c) http0 is_req = Ret (0, http0)) /\
  (forall rest n, size h <= n <= size (h ++ rest) -> mg_parse_http (h ++ rest) 0 n http0 is_req = Ret (size h, hm)).
Proof.
  intros Hh. split; intros.
  - by eapply parse_part.
  - by eapply parse_whole.
Qed.

Definition sample_head : list Z := lit "PUT /users/7 HTTP/1.1" ++ CRLF ++ lit "Host: jobify" ++ CRLF ++ lit "Content-Length: 2" ++ CRLF ++ CRLF.

Lemma mg_parse_http_incremental_witness : exists hm, message hm = mk_str (Some 0) 60 /\
  (forall c r junk, c ++ r = sample_head -> r <> [] -> mg_parse_http (c ++ junk) 0 (size c) http0 true = Ret (0, http0)) /\
  (forall rest n, size sample_head <= n <= size (sample_head ++ rest) -> mg_parse_http (sample_head ++ rest) 0 n http0 true = Ret (size sample_head, hm)).
Proof.
  eexists. split; [|apply (mg_parse_http_incremental true sample_head); split; [vm_compute; reflexivity|vm_compute; reflexivity]]. vm_compute. reflexivity.
Defined.
