(* ===== verification/HttpServer.v ===== *)
(** * The HTTP server (mongoose.c, http.c)

    [mg_http_handler], the protocol handler of a connection: it waits in the
    receive buffer for a whole message, reassembles chunks, switches to websockets,
    and tells the handler of the user.  Strings of a message are offsets in the
    receive buffer, read when they are needed; a pointer that is used after a
    handler ran must still lead to the same block.  Transfers of files, CGI and
    multipart streams, which the handler starts for static files only or which
    the build leaves out, are left out. *)

From Stdlib Require Import ZArith Lia String.
From stdpp Require Import base list numbers option.
From S2P Require Import Prelude Strs Double Mbuf Http HttpPrefix Conn Sha1 Base64 Net Websocket.

Local Open Scope Z_scope.

(** ** The code *)

Definition MG_EV_HTTP_REQUEST : Z := 100.
Definition MG_EV_HTTP_REPLY : Z := 101.
Definition MG_EV_HTTP_CHUNK : Z := 102.
Definition MG_EV_WEBSOCKET_HANDSHAKE_REQUEST : Z := 111.
Definition MG_EV_WEBSOCKET_HANDSHAKE_DONE : Z := 112.
Definition MG_MAX_HTTP_REQUEST_SIZE : Z := 8192.
Definition MG_VPRINTF_BUFFER_SIZE : Z := 100.

(** *** Sending *)

(** [mg_avprintf] of an output of the C library: -1 when it does not fit an
    [int] or [malloc] fails. *)
Definition mg_avprintf (malloc : bool) (text : list Z) : Z :=
  if (size text >? INT_MAX) || ((size text >=? MG_VPRINTF_BUFFER_SIZE) && negb malloc) then -1 else size text.

Definition mg_vprintf (malloc udp : bool) (c : conn) (text : list Z) : outcome conn :=
  let len := mg_avprintf malloc text in
  if len >? 0 then mg_send udp c text len else mret c.
Definition mg_printf := mg_vprintf.

(** The digits of a number, for [%lX] and [%lu]. *)
Definition hex_digit (d : Z) : Z := if d <? 10 then 48 + d else 55 + d.
Fixpoint digits_in (base : Z) (fuel : nat) (v : Z) (acc : list Z) : list Z :=
  match fuel with
  | O => acc
  | S fuel => let acc := hex_digit (v mod base) :: acc in if v / base =? 0 then acc else digits_in base fuel (v / base) acc
  end.
Abbreviation hex_digits := (digits_in 16).

Definition mg_send_http_chunk (udp : bool) (c : conn) (buf : list Z) (len : Z) : outcome conn :=
  let chunk_size := hex_digits 16 (u64 len) [] ++ CRLF in
  c ← mg_send udp c chunk_size (size chunk_size);
  c ← mg_send udp c buf len;
  mg_send udp c CRLF 2.

(** The output of [vsnprintf] for arguments of the type [unsigned long].  A
    directive that asks for another type, or for one more argument, has no defined
    behaviour; flags, widths and precisions are not modelled. *)
Definition ulong_directive (modifier conversion v : Z) : option (list Z) :=
  if (modifier =? 108) || (modifier =? 122) then                     (* l, z *)
    if conversion =? 117 then Some (digits_in 10 20 v [])            (* u *)
    else if conversion =? 88 then Some (hex_digits 16 v []) else None  (* X *)
  else None.

Fixpoint format_ulongs (fmt args : list Z) : outcome (list Z) :=
  match fmt with
  | [] => mret []
  | x :: fmt =>
      if x =? 37 then
        match fmt with
        | y :: fmt' =>
            if y =? 37 then t ← format_ulongs fmt' args; mret (37 :: t) else
            match fmt', args with
            | z :: fmt'', v :: args =>
                match ulong_directive y z v with Some d => t ← format_ulongs fmt'' args; mret (d ++ t) | None => Fault BadVararg end
            | _, _ => Fault BadVararg
            end
        | [] => Fault BadVararg
        end
      else t ← format_ulongs fmt args; mret (x :: t)
  end.

Definition mg_printf_http_chunk (malloc udp : bool) (c : conn) (fmt args : list Z) : outcome conn :=
  text ← format_ulongs fmt args;
  let len := mg_avprintf malloc text in
  if len >=? 0 then mg_send_http_chunk udp c text len else mret c.

(** *** The handshake of websockets *)

Definition mg_hash_sha1_v (junk : list Z) (msgs : list (list Z)) : outcome (list Z) :=
  ctx ← foldl (fun ctx m => ctx ← ctx; cs_sha1_update ctx m (u32 (size m))) (mret (cs_sha1_init junk)) msgs;
  cs_sha1_final ctx.

Definition magic : list Z := lit "258EAFA5-E914-47DA-95CA-C5AB0DC85B11".

(** The string at [p] in [b]. *)
Definition str_at (b : list Z) (s : mg_str) : outcome (list Z) :=
  match p s with
  | Some q => if decide (0 <= q /\ 0 <= len s /\ q + len s <= size b) then mret (slice b q (len s)) else Fault OutOfBounds
  | None => if len s =? 0 then mret [] else Fault NullPointer
  end.

(** [junk] is what the buffer of the hash holds, and the array for its text. *)
Definition mg_ws_handshake (junk : list Z) (malloc udp : bool) (c : conn) (b : list Z) (key : mg_str) : outcome conn :=
  k ← str_at b key;
  sha ← mg_hash_sha1_v junk [k; magic];
  b64_sha ← cs_base64_encode sha (size sha) (take 30 junk);
  mg_printf malloc udp c (lit "HTTP/1.1 101 Switching Protocols" ++ CRLF ++ lit "Upgrade: websocket" ++ CRLF ++
    lit "Connection: Upgrade" ++ CRLF ++ lit "Sec-WebSocket-Accept: " ++ take_while (fun x => negb (x =? 0)) b64_sha ++ CRLF ++ CRLF).

(** *** The handler *)

(** What the handler keeps for a connection, [proto_data]. *)
Record mg_http_proto_data {F : Type} := mk_pd { chunk_len : Z; endpoint_handler : option F }.
Arguments mg_http_proto_data : clear implicits.
Arguments mk_pd {F} _ _.
Arguments chunk_len {F} _.
Arguments endpoint_handler {F} _.

Section http.
Context {F W : Type} `{EqDecision F}.
Abbreviation pd := (mg_http_proto_data F).
Abbreviation connection := (mg_connection F pd).

(** The handlers by name; [endpoints_of] leads to the endpoints of a listening
    connection; then the time of the last transfer, what [rand] answers, what the
    array of the handshake holds, and whether its [malloc] succeeds. *)
Context (run : F -> connection -> Z -> ev_data -> W -> outcome (connection * W)).
Context (websocket_name : F) (endpoints_of : Z -> list (list Z * F)).
Context (last_io_time r : Z) (junk : list Z) (malloc : bool).

Definition mg_register_http_endpoint (endpoints : list (list Z * F)) (uri_path : list Z) (h : F) : list (list Z * F) := (uri_path, h) :: endpoints.

Fixpoint longest_match (b : list Z) (uri : mg_str) (eps : list (list Z * F)) (ret : option F) (matched_max : Z) : outcome (option F) :=
  match eps with
  | [] => mret ret
  | (name, h) :: eps =>
      matched ← mg_match_prefix_n name (mk_str (Some 0) (size name)) b uri;
      if negb (matched =? -1) && (matched >? matched_max) then longest_match b uri eps (Some h) matched
      else longest_match b uri eps ret matched_max
  end.

Definition mg_http_get_endpoint_handler (nc : option Z) (b : list Z) (uri_path : mg_str) : outcome (option F) :=
  match nc with None => mret None | Some l => longest_match b uri_path (endpoints_of l) None 0 end.

Definition mg_http_call_endpoint_handler (nc : connection) (ev : Z) (hm : http_message) (w : W) : outcome (connection * W) :=
  nc ← (if bool_decide (endpoint_handler (nc_data nc) = None) || (ev =? MG_EV_HTTP_REQUEST) then
      h ← (if ev =? MG_EV_HTTP_REQUEST then mg_http_get_endpoint_handler (listener nc) (mb_buf (rbuf nc)) (huri hm) else mret None);
      mret (set_data nc (mk_pd (chunk_len (nc_data nc)) h))
    else mret nc);
  mg_call run nc (match endpoint_handler (nc_data nc) with Some h => Some h | None => handler nc end) ev (HttpData hm) w.

Definition with_recv (nc : connection) (b : list Z) (n : Z) : connection := set_rbuf nc (mk_mbuf (mb_addr (rbuf nc)) b n (mb_size (rbuf nc))).
Definition with_chunks (nc : connection) (n : Z) : connection := set_data nc (mk_pd n (endpoint_handler (nc_data nc))).

(** The body starts at [buf] and has [blen] bytes so far. *)
Definition mg_handle_chunked (nc : connection) (hm : http_message) (buf blen : Z) (w : W) : outcome (connection * http_message * W) :=
  let a := mb_addr (rbuf nc) in
  let body_len := chunk_len (nc_data nc) in
  if negb (blen >=? body_len) then Fault AssertFailed else
  '(b, i, body_len, hm_len, zero) ← loop (S (Z.to_nat blen)) (chunk_step buf blen) (mb_buf (rbuf nc), body_len, body_len, Strs.len (body hm));
  let hm := set_lengths hm (Strs.len (message hm)) hm_len in
  if i >? body_len then
    if negb (i <=? blen) then Fault AssertFailed else
    b ← memcpy b (buf + body_len) b (buf + i) (blen - i);
    b ← memset b (buf + body_len + blen - i) 0 (i - body_len);
    let nc := with_chunks (with_recv nc b (u64 (mb_len (rbuf nc) - (i - body_len)))) body_len in
    '(nc, w) ← mg_call run (drop_flag MG_F_DELETE_CHUNK nc) (handler nc) MG_EV_HTTP_CHUNK (HttpData hm) w;
    '(nc, hm) ← (if has_flag MG_F_DELETE_CHUNK nc then
        b ← at_ a nc;
        b ← memset b buf 0 body_len;
        b ← memcpy b buf b (buf + body_len) (blen - i);
        mret (with_chunks (with_recv nc b (u64 (mb_len (rbuf nc) - body_len))) 0, set_lengths hm (Strs.len (message hm)) 0)
      else mret (nc, hm));
    mret (nc, if zero : bool then set_lengths hm (u64 (chunk_len (nc_data nc) + blen - i)) (Strs.len (body hm)) else hm, w)
  else mret (with_recv nc b (mb_len (rbuf nc)), hm, w).

(** The message is in the buffer: what comes after [mg_parse_http]. *)
Definition http_switch (nc : connection) (req_len : Z) (data : ev_data) (w : W) : outcome (connection * W) :=
  m ← mbuf_remove (rbuf nc) req_len;
  mret (add_flag MG_F_IS_WEBSOCKET (set_proto (set_rbuf nc m) (Some websocket_name)), w).

Definition http_received (nc : connection) (data : ev_data) (w : W) : outcome (connection * W) :=
  let is_req := negb (bool_decide (listener nc = None)) in
  '(req_len, hm) ← mg_parse_http (mb_buf (rbuf nc)) 0 (mb_len (rbuf nc)) http0 is_req;
  '(nc, hm, w) ← (if req_len >? 0 then
      s ← mg_get_http_header (mb_buf (rbuf nc)) hm (lit "Transfer-Encoding");
      match s with
      | Some s =>
          d ← mg_vcasecmp (mb_buf (rbuf nc)) s (lit "chunked");
          if d =? 0 then mg_handle_chunked nc hm req_len (u64 (mb_len (rbuf nc) - req_len)) w else mret (nc, hm, w)
      | None => mret (nc, hm, w)
      end
    else mret (nc, hm, w));
  if (req_len <? 0) || ((req_len =? 0) && (mb_len (rbuf nc) >=? MG_MAX_HTTP_REQUEST_SIZE)) then
    mret (add_flag MG_F_CLOSE_IMMEDIATELY nc, w)
  else if req_len =? 0 then mret (nc, w)
  else
    accept ← (if is_req then mret None else mg_get_http_header (mb_buf (rbuf nc)) hm (lit "Sec-WebSocket-Accept"));
    key ← (if is_req then mg_get_http_header (mb_buf (rbuf nc)) hm (lit "Sec-WebSocket-Key") else mret None);
    match accept, key with
    | Some _, _ =>
        '(nc, w) ← http_switch nc req_len data w;
        '(nc, w) ← mg_call run nc (handler nc) MG_EV_WEBSOCKET_HANDSHAKE_DONE NoData w;
        mg_websocket_handler run last_io_time r nc MG_EV_RECV data w
    | None, Some vec =>
        let a := mb_addr (rbuf nc) in
        '(nc, w) ← http_switch nc req_len data w;
        '(nc, w) ← mg_call run nc (handler nc) MG_EV_WEBSOCKET_HANDSHAKE_REQUEST (HttpData hm) w;
        if has_flag MG_F_CLOSE_IMMEDIATELY nc then mret (nc, w) else
        nc ← (if send_len nc =? 0 then
            b ← at_ a nc;
            c ← mg_ws_handshake junk malloc (has_flag MG_F_UDP nc) (nc_out nc) b vec; mret (set_out nc c)
          else mret nc);
        '(nc, w) ← mg_call run nc (handler nc) MG_EV_WEBSOCKET_HANDSHAKE_DONE NoData w;
        mg_websocket_handler run last_io_time r nc MG_EV_RECV data w
    | None, None =>
        if Strs.len (message hm) <=? mb_len (rbuf nc) then
          '(nc, w) ← mg_http_call_endpoint_handler nc (if is_req then MG_EV_HTTP_REQUEST else MG_EV_HTTP_REPLY) hm w;
          m ← mbuf_remove (rbuf nc) (Strs.len (message hm));
          mret (set_rbuf nc m, w)
        else mret (nc, w)
    end.

Definition mg_http_handler (nc : connection) (ev : Z) (data : ev_data) (w : W) : outcome (connection * W) :=
  let is_req := negb (bool_decide (listener nc = None)) in
  '(nc, w) ← (if (ev =? MG_EV_CLOSE) && (mb_len (rbuf nc) >? 0) then
      '(n, hm) ← mg_parse_http (mb_buf (rbuf nc)) 0 (mb_len (rbuf nc)) http0 is_req;
      if n >? 0 then
        let body_p := match p (body hm) with Some q => q | None => 0 end in
        mg_http_call_endpoint_handler nc (if is_req then MG_EV_HTTP_REQUEST else MG_EV_HTTP_REPLY)
          (set_lengths hm (mb_len (rbuf nc)) (u64 (mb_len (rbuf nc) - body_p))) w
      else mret (nc, w)
    else mret (nc, w));
  '(nc, w) ← mg_call run nc (handler nc) ev data w;
  if ev =? MG_EV_RECV then http_received nc data w else mret (nc, w).

End http.

(** ** A request arrives *)

Section requests.
Context {F W : Type} `{EqDecision F}.
Abbreviation connection := (mg_connection F (mg_http_proto_data F)).
Context (run : F -> connection -> Z -> ev_data -> W -> outcome (connection * W)) (http user websocket_name : F).
Context (endpoints_of : Z -> list (list Z * F)) (last_io_time r : Z) (junk : list Z) (malloc : bool).
Abbreviation http_handler := (mg_http_handler run websocket_name endpoints_of last_io_time r junk malloc).
Abbreviation received := (http_received run websocket_name endpoints_of last_io_time r junk malloc).

(** The protocol handler is the one above; [run] says what the others do. *)
Definition server_run (f : F) (nc : connection) (ev : Z) (data : ev_data) (w : W) : outcome (connection * W) :=
  if decide (f = http) then http_handler nc ev data w else run f nc ev data w.

(** The user's handler acts on requests only and leaves the handlers of the connection as they are. *)
Context (user_quiet : forall nc ev data w, ev <> MG_EV_HTTP_REQUEST -> run user nc ev data w = Ret (nc, w)).
Context (user_keeps : forall nc ev data w nc' w', run user nc ev data w = Ret (nc', w') -> handler nc' = handler nc).
Context (http_user : http <> user).

(** A connection of a server without endpoints, with room for [n] bytes. *)
Record http_ready (n : Z) (nc : connection) : Prop := {
  hr_handler : handler nc = Some user;
  hr_proto : proto_handler nc = Some http;
  hr_server : exists l, listener nc = Some l /\ endpoints_of l = [];
  hr_data : nc_data nc = mk_pd 0 None;
  hr_stale : nc_stale nc = false;
  hr_open : has_flag MG_F_CLOSE_IMMEDIATELY nc = false;
  hr_room : can_send n (recv_mbuf nc)
}.

(** A request: its head [h], which says [hm], and its body. *)
Record request_is (h bdy : list Z) (hm : http_message) : Prop := {
  rq_head : head_of true h hm;
  rq_size : size h < MG_MAX_HTTP_REQUEST_SIZE;
  rq_length : Strs.len (message hm) = size h + size bdy;
  rq_chunked : mg_get_http_header h hm (lit "Transfer-Encoding") = Ret None;
  rq_websocket : mg_get_http_header h hm (lit "Sec-WebSocket-Key") = Ret None
}.

(** The user's handler gets the message, and it is removed. *)
Definition handle_request (nc : connection) (hm : http_message) (w : W) : outcome (connection * W) :=
  '(nc, w) ← mg_call run nc (handler nc) MG_EV_HTTP_REQUEST (HttpData hm) w;
  m ← mbuf_remove (rbuf nc) (Strs.len (message hm));
  mret (set_rbuf nc m, w).

Lemma call_quiet nc ev data w : handler nc = Some user -> ev <> MG_EV_HTTP_REQUEST -> mg_call run nc (handler nc) ev data w = Ret (nc, w).
Proof. intros Hh He. unfold mg_call. rewrite Hh, user_quiet, bind_Ret by done. by rewrite Z.eqb_refl, andb_false_r. Qed.

Lemma received_part n nc h bdy hm data rest w : http_ready n nc -> request_is h bdy hm -> received_bytes nc ++ rest = h ++ bdy -> rest <> [] ->
  received nc data w = Ret (nc, w).
Proof.
  intros Hr Hq Hc Hrest. pose proof Hr as [Hh _ (l & Hl & _) _ _ _ Hroom]. pose proof (cs_wf _ _ Hroom) as Hwf. fold (rbuf nc) in Hwf. unfold received_bytes, sent in Hc. fold (rbuf nc) in Hc.
  destruct (buf_content _ Hwf) as [q Eb]. pose proof (size_content _ Hwf) as Hn. assert (0 < size rest) as Hr0 by (destruct rest; [done|rewrite size_cons; pose proof (size_nonneg rest); lia]).
  unfold http_received. rewrite Hl. rewrite bool_decide_eq_false_2 by done. cbn [negb].
  destruct (decide (size (content (rbuf nc)) < size h)) as [Hlt|Hge].
  - destruct (split_at h (size (content (rbuf nc)))) as (x & y & Eh & Hx); [split; [apply size_nonneg|lia]|]. assert (x = content (rbuf nc)) as ->.
    { rewrite Eh, <- app_assoc in Hc. by apply app_inj_1 in Hc as [-> _]; [|unfold size in *; lia]. }
    rewrite Eb, <- Hn, (parse_part true h hm (content (rbuf nc)) y q); [|apply Hq|done|intros ->; rewrite app_nil_r in Eh; rewrite Eh in Hlt; lia].
    rewrite !bind_Ret. cbn [Z.gtb Z.compare mret outcome_ret]. rewrite bind_Ret. cbn [Z.ltb Z.compare orb Z.eqb andb].
    rewrite Z.geb_leb, (proj2 (Z.leb_gt MG_MAX_HTTP_REQUEST_SIZE _)); [done|]. pose proof (rq_size _ _ _ Hq). lia.
  - destruct (split_at (content (rbuf nc)) (size h)) as (x & y & Ec & Hx); [split; [apply size_nonneg|lia]|]. rewrite Ec, <- app_assoc in Hc. apply app_inj_1 in Hc as [-> Hb]; [|unfold size in *; lia].
    apply (f_equal size) in Hb. rewrite size_app in Hb. rewrite Ec, size_app in Hn. pose proof (size_nonneg y). pose proof (size_nonneg q). destruct (rq_head _ _ _ Hq) as [Hp _].
    rewrite Eb, Ec, <- app_assoc, (parse_whole true h hm (y ++ q) (mb_len (rbuf nc))); [|apply Hq|rewrite !size_app; lia]. rewrite bind_Ret.
    rewrite Z.gtb_ltb, (proj2 (Z.ltb_lt 0 (size h))) by lia. rewrite (below_get_header h (y ++ q) hm _ _ (rq_chunked _ _ _ Hq)), !bind_Ret. cbn [mret outcome_ret].
    rewrite (proj2 (Z.ltb_ge (size h) 0)), (proj2 (Z.eqb_neq (size h) 0)) by lia. cbn [orb andb]. rewrite Eb, Ec, <- app_assoc, (below_get_header h (y ++ q) hm _ _ (rq_websocket _ _ _ Hq)), !bind_Ret.
    by rewrite (rq_length _ _ _ Hq), (proj2 (Z.leb_gt _ (mb_len (rbuf nc)))) by lia.
Qed.

Lemma received_whole n nc h bdy hm data w : http_ready n nc -> request_is h bdy hm -> received_bytes nc = h ++ bdy ->
  received nc data w = handle_request nc hm w.
Proof.
  intros Hr Hq Hc. pose proof Hr as [Hh _ (l & Hl & He) Hd _ _ Hroom]. pose proof (cs_wf _ _ Hroom) as Hwf. fold (rbuf nc) in Hwf. unfold received_bytes, sent in Hc. fold (rbuf nc) in Hc.
  destruct (buf_content _ Hwf) as [q Eb]. pose proof (size_content _ Hwf) as Hn. rewrite Hc, size_app in Hn. rewrite Hc, <- app_assoc in Eb. destruct (rq_head _ _ _ Hq) as [Hp _].
  pose proof (size_nonneg bdy). pose proof (size_nonneg q). unfold http_received. rewrite Hl. rewrite bool_decide_eq_false_2 by done. cbn [negb].
  rewrite Eb, (parse_whole true h hm (bdy ++ q) (mb_len (rbuf nc))); [|apply Hq|rewrite !size_app; lia]. rewrite bind_Ret.
  rewrite Z.gtb_ltb, (proj2 (Z.ltb_lt 0 (size h))) by lia. rewrite (below_get_header h (bdy ++ q) hm _ _ (rq_chunked _ _ _ Hq)), !bind_Ret. cbn [mret outcome_ret].
  rewrite (proj2 (Z.ltb_ge (size h) 0)), (proj2 (Z.eqb_neq (size h) 0)) by lia. cbn [orb andb]. rewrite Eb, (below_get_header h (bdy ++ q) hm _ _ (rq_websocket _ _ _ Hq)), !bind_Ret.
  rewrite (rq_length _ _ _ Hq), (proj2 (Z.leb_le _ (mb_len (rbuf nc)))) by lia. unfold handle_request. rewrite (rq_length _ _ _ Hq).
  unfold mg_http_call_endpoint_handler. rewrite Z.eqb_refl, orb_true_r, Hl. unfold mg_http_get_endpoint_handler. rewrite He. cbn [longest_match]. unfold mret at 1, outcome_ret at 1. rewrite bind_Ret.
  unfold mret at 1, outcome_ret at 1. rewrite bind_Ret. cbn [endpoint_handler nc_data set_data]. rewrite Hd.
  assert (set_data nc (mk_pd (chunk_len (mk_pd 0 (None : option F))) None) = nc) as -> by (destruct nc; cbn in *; by rewrite Hd). done.
Qed.

Lemma recv_call nc data w : handler nc = Some user -> proto_handler nc = Some http -> post (received nc data w) (fun r => handler r.1 = Some user) ->
  mg_call server_run nc None MG_EV_RECV data w = received nc data w.
Proof.
  intros Hh Hp Hpost. unfold mg_call at 1. rewrite Hp. unfold server_run. rewrite decide_True by done. unfold mg_http_handler. cbn [Z.eqb Pos.eqb MG_EV_RECV MG_EV_CLOSE andb]. unfold mret at 1, outcome_ret at 1. rewrite bind_Ret.
  rewrite call_quiet by done. rewrite bind_Ret. destruct (received nc data w) as [[nc' w']|]; [|done]. rewrite bind_Ret. specialize (Hpost _ eq_refl). cbn [fst] in Hpost.
  by rewrite bool_decide_eq_false_2 by (rewrite Hpost; congruence).
Qed.

Lemma handle_keeps nc hm w : handler nc = Some user -> post (handle_request nc hm w) (fun r => handler r.1 = Some user).
Proof.
  intros Hh. unfold handle_request. apply post_bind. intros [nc1 w1] E1. apply post_bind. intros m _. apply post_ret. cbn.
  unfold mg_call in E1. rewrite Hh in E1. destruct (run user nc _ _ w) as [[nc2 w2]|] eqn:Er; [|done]. cbn in E1. injection E1 as <- _. pose proof (user_keeps _ _ _ _ _ _ Er). case_match; cbn; congruence.
Qed.

(** [nc'] differs from [nc] in its receive buffer only. *)
Definition same_but_buffer (nc nc' : connection) : Prop := nc' = set_recv nc (recv_mbuf nc') false.

Lemma receive_request h bdy hm : request_is h bdy hm -> forall segs n nc w, Forall segment_ok segs -> segs <> [] ->
  received_bytes nc ++ concat (map snd segs) = h ++ bdy -> http_ready (size (concat (map snd segs)) + n) nc -> 0 <= n ->
  exists nc1, same_but_buffer nc nc1 /\ http_ready n nc1 /\ received_bytes nc1 = h ++ bdy /\ receive server_run nc segs w = handle_request nc1 hm w.
Proof.
  intros Hq. induction segs as [|[a s] segs IH]; intros n nc w Hsegs Hne Hc Hr Hn; [done|]. apply Forall_cons_1 in Hsegs as [Hs Hsegs]. cbn [map concat snd receive] in *.
  rewrite size_app in Hr. pose proof (size_nonneg (concat (map snd segs))). pose proof Hr as [Hh Hp Hl Hd Hst Ho Hroom].
  destruct (buffer_segment server_run nc a s (size (concat (map snd segs)) + n) Ho Hst) as (m & E1 & Hm & Hb); [by rewrite Z.add_assoc|done|lia|].
  set (nc1 := set_recv nc m false) in *. assert (http_ready (size (concat (map snd segs)) + n) nc1) as Hr1 by (split; done). change (received_bytes nc1 = received_bytes nc ++ s) in Hb.
  rewrite E1. destruct segs as [|x segs].
  - cbn [map concat] in *. rewrite app_nil_r in Hc. rewrite Hc in Hb. exists nc1. split_and!; [done|done|done|].
    pose proof (received_whole _ nc1 h bdy hm (IntData (size s)) w Hr1 Hq Hb) as Ew. rewrite recv_call; [|done|done|rewrite Ew; by apply handle_keeps].
    rewrite Ew. by destruct (handle_request nc1 hm w) as [[]|].
  - assert (received_bytes nc1 ++ concat (map snd (x :: segs)) = h ++ bdy) as Hc1 by (by rewrite Hb, <- app_assoc).
    assert (concat (map snd (x :: segs)) <> []) as Hne1 by (apply Forall_cons_1 in Hsegs as [[_ Hx] _]; cbn; intros [Hx0 _]%app_nil; rewrite Hx0 in Hx; change (size (@nil Z)) with 0 in Hx; lia).
    pose proof (received_part _ nc1 h bdy hm (IntData (size s)) _ w Hr1 Hq Hc1 Hne1) as Ew. rewrite recv_call; [|done|done|by rewrite Ew; apply post_ret]. rewrite Ew, bind_Ret.
    destruct (IH n nc1 w Hsegs ltac:(done) Hc1 Hr1 Hn) as (nc2 & Hsame & H2). exists nc2. split; [|done]. unfold same_but_buffer in *. rewrite Hsame. done.
Qed.

(** C15: a request reaches the handler of the server whole and once.  However the
    network cuts the head and the body into segments, receiving them is the same
    as one call of the handler with the complete request in the receive buffer
    and the message that describes it, after which the request is removed; before
    its last byte nothing happens. *)
Theorem http_request_received h bdy hm segs nc w :
  request_is h bdy hm -> Forall segment_ok segs -> concat (map snd segs) = h ++ bdy ->
  http_ready (size (h ++ bdy)) nc -> received_bytes nc = [] ->
  exists nc1, same_but_buffer nc nc1 /\ received_bytes nc1 = h ++ bdy /\ receive server_run nc segs w = handle_request nc1 hm w.
Proof.
  intros Hq Hsegs Hc Hr Hb. destruct (receive_request h bdy hm Hq segs 0 nc w) as (nc1 & H1 & _ & H2); [done| |by rewrite Hb|by rewrite Hc, Z.add_0_r|done|by exists nc1].
  intros ->. cbn in Hc. symmetry in Hc. apply app_nil in Hc as [-> _]. destruct (rq_head _ _ _ Hq) as [Hp _]. done.
Qed.

End requests.

(** *** Examples *)

(** A handler that writes down the bodies of the requests it gets. *)
Inductive web_fn := HttpProto | WsProto | Requests.
#[export] Instance web_fn_eq_dec : EqDecision web_fn.
Proof. solve_decision. Defined.

Abbreviation web_conn := (mg_connection web_fn (mg_http_proto_data web_fn)).
Definition requests (nc : web_conn) (ev : Z) (data : ev_data) (w : list (list Z)) : outcome (web_conn * list (list Z)) :=
  match data with
  | HttpData hm => if ev =? MG_EV_HTTP_REQUEST then b ← str_at (mb_buf (rbuf nc)) (body hm); mret (nc, w ++ [b]) else mret (nc, w)
  | _ => mret (nc, w)
  end.
Definition web_user (f : web_fn) : web_conn -> Z -> ev_data -> list (list Z) -> outcome (web_conn * list (list Z)) :=
  match f with Requests => requests | _ => fun nc _ _ w => mret (nc, w) end.
Definition web_run : web_fn -> web_conn -> Z -> ev_data -> list (list Z) -> outcome (web_conn * list (list Z)) :=
  server_run web_user HttpProto WsProto (fun _ => []) 0 0 (replicate 64 0) true.

Definition web_server : web_conn :=
  mk_nc web_fn _ 100 (Some 3) 5 0 (2 ^ 64 - 1) fresh_conn false fresh_conn (of_Z 0) (Some HttpProto) (Some Requests) (mk_pd 0 None) 0.

(** What the handler saw, what is left in the buffer, and what was sent. *)
Definition web_result (segs : list (list Z)) : outcome (list (list Z) * list Z * list Z) :=
  '(nc, w) ← receive web_run web_server (map (fun s => (4096, s)) segs) [];
  mret (w, received_bytes nc, sent (nc_out nc)).

Example request_in_pieces : web_result [take 10 sample_head; drop 10 sample_head; lit "h"; lit "i"] = Ret ([lit "hi"], [], []).
Proof. vm_compute. reflexivity. Qed.

(** Two requests in one segment: the second one waits for more bytes to come. *)
Example second_request_waits : web_result [sample_head ++ lit "hi" ++ sample_head ++ lit "ho"] = Ret ([lit "hi"], sample_head ++ lit "ho", []).
Proof. vm_compute. reflexivity. Qed.

(** A chunked request: the length of the message misses its head, so the end of
    the message stays in the buffer and spoils the next request. *)
Definition chunked_head : list Z := lit "POST /users HTTP/1.1" ++ CRLF ++ lit "Transfer-Encoding: chunked" ++ CRLF ++ CRLF.
Example chunked_left_over : web_result [chunked_head ++ lit "2" ++ CRLF ++ lit "hi" ++ CRLF ++ lit "0" ++ CRLF ++ CRLF] =
  Ret ([lit "hi"], drop 2 chunked_head ++ lit "hi", []).
Proof. vm_compute. reflexivity. Qed.

(** The handshake of RFC 6455, section 1.3. *)
Definition handshake_head : list Z := lit "GET /chat HTTP/1.1" ++ CRLF ++ lit "Sec-WebSocket-Key: dGhlIHNhbXBsZSBub25jZQ==" ++ CRLF ++ CRLF.
Example handshake_rfc : web_result [handshake_head] = Ret ([], [],
  lit "HTTP/1.1 101 Switching Protocols" ++ CRLF ++ lit "Upgrade: websocket" ++ CRLF ++ lit "Connection: Upgrade" ++ CRLF ++
  lit "Sec-WebSocket-Accept: s3pPLMBiTxaQ9kYGzzhZRbK+xOo=" ++ CRLF ++ CRLF).
Proof. vm_compute. reflexivity. Qed.

(** When a frame follows in the same segment, the key is read where the frame was moved to. *)
Example handshake_key_moved : match web_result [handshake_head ++ masked_frame 0x81 (repeat 65 80)] with
  | Ret (_, _, s) => bool_decide (s = lit "HTTP/1.1 101 Switching Protocols" ++ CRLF ++ lit "Upgrade: websocket" ++ CRLF ++ lit "Connection: Upgrade" ++ CRLF ++
      lit "Sec-WebSocket-Accept: s3pPLMBiTxaQ9kYGzzhZRbK+xOo=" ++ CRLF ++ CRLF) = false
  | Fault _ => False
  end.
Proof. vm_compute. reflexivity. Qed.

Lemma sample_request : exists hm, request_is sample_head (lit "hi") hm.
Proof.
  assert (exists hm, mg_parse_http sample_head 0 (size sample_head) http0 true = Ret (size sample_head, hm)) as [hm E] by (eexists; vm_compute; reflexivity).
  exists hm. split; [split; [done|exact E]|done|..]; vm_compute in E; injection E as <-; vm_compute; reflexivity.
Qed.

Lemma http_request_received_witness : exists hm,
  request_is sample_head (lit "hi") hm /\
  exists nc1, same_but_buffer web_server nc1 /\ received_bytes nc1 = sample_head ++ lit "hi" /\
    receive web_run web_server [(4096, take 10 sample_head); (8192, drop 10 sample_head ++ lit "h"); (4096, lit "i")] [] = handle_request web_user nc1 hm [].
Proof.
  destruct sample_request as [hm Hq]. exists hm. split; [exact Hq|].
  apply (http_request_received web_user HttpProto Requests WsProto (fun _ => []) 0 0 (replicate 64 0) true) with (h := sample_head) (bdy := lit "hi").
  - intros nc ev data w He. cbn. unfold requests. destruct data; try done. by rewrite (proj2 (Z.eqb_neq _ _) He).
  - intros nc ev data w nc' w'. cbn. unfold requests. destruct data; try (by intros [= <- _]). destruct (ev =? _); [|by intros [= <- _]]. destruct (str_at _ _); [|done]. by intros [= <- _].
  - discriminate.
  - exact Hq.
  - repeat (constructor; [split; vm_compute; split; reflexivity || discriminate|]). constructor.
  - reflexivity.
  - split; try done; first [by exists 3|apply fresh_can_send; vm_compute; split; discriminate].
  - reflexivity.
Defined.

(** ** What is sent *)

Lemma mg_printf_sends udp t : t <> [] -> size t < 2 ^ 31 -> sends (fun c => mg_printf true udp c t) t.
Proof.
  intros Hne Hs. unfold mg_printf, mg_vprintf, mg_avprintf. rewrite andb_false_r, orb_false_r. rewrite (Z.gtb_ltb (size t) INT_MAX), (proj2 (Z.ltb_ge INT_MAX _)) by (unfold INT_MAX; lia).
  rewrite Z.gtb_ltb, (proj2 (Z.ltb_lt 0 _)); [by apply mg_send_sends|]. destruct t; [done|]. rewrite size_cons. pose proof (size_nonneg t). lia.
Qed.

(** ** What is sent in chunks *)

Lemma hex_digit_ok d : 0 <= d < 16 -> isxdigit (hex_digit d) = true /\ xdigit_value (hex_digit d) = d.
Proof.
  intros Hd. assert (forallb (fun d => isxdigit (hex_digit d) && (xdigit_value (hex_digit d) =? d)) (seqZ 0 16) = true) as H by (vm_compute; reflexivity).
  rewrite forallb_forall in H. specialize (H d). rewrite <- list_elem_of_In, elem_of_seqZ, andb_true_iff in H. destruct (H ltac:(lia)). split; [done|lia].
Qed.

Lemma hex_digits_ok : forall fuel v acc, 0 <= v < 16 ^ Z.of_nat fuel -> (0 < fuel)%nat -> exists ds, hex_digits fuel v acc = ds ++ acc /\ ds <> [] /\
  Forall (fun x => isxdigit x = true) ds /\ xval ds = v /\ size ds <= Z.of_nat fuel.
Proof.
  induction fuel as [|fuel IH]; intros v acc Hv Hf; [lia|]. cbn [digits_in]. destruct (hex_digit_ok (v mod 16)) as [H1 H2]; [apply Z.mod_pos_bound; lia|].
  destruct (Z.eqb_spec (v / 16) 0).
  - exists [hex_digit (v mod 16)]. split_and!; [done|done|by constructor| |rewrite size_cons, size_nil; lia]. unfold xval. cbn [fold_left]. rewrite H2. euclid.
  - rewrite Nat2Z.inj_succ, Z.pow_succ_r in Hv by lia. destruct fuel as [|fuel]; [cbn in Hv; euclid|].
    destruct (IH (v / 16) (hex_digit (v mod 16) :: acc)) as (ds & E & Hne & Hd & Hx & Hs); [euclid|lia|]. exists (ds ++ [hex_digit (v mod 16)]). split_and!.
    + by rewrite E, <- app_assoc.
    + by destruct ds.
    + by apply Forall_app_2; [|constructor].
    + unfold xval in *. rewrite fold_left_app, Hx. cbn [fold_left]. rewrite H2. euclid.
    + rewrite size_app, size_cons, size_nil. lia.
Qed.

(** The chunk for some data. *)
Definition chunk_of (data : list Z) : list Z * list Z := (hex_digits 16 (size data) [], data).
Definition wire_chunk (data : list Z) : list Z := enc_chunk (chunk_of data).1 data.

Lemma chunk_of_ok data : size data < 2 ^ 31 -> chunk_ok (chunk_of data) /\ size (chunk_of data).1 <= 16.
Proof.
  intros Hd. pose proof (size_nonneg data). destruct (hex_digits_ok 16 (size data) []) as (ds & E & Hne & Hx & Hv & Hs); [change (16 ^ Z.of_nat 16) with (2 ^ 64); lia|lia|].
  rewrite app_nil_r in E. unfold chunk_of. cbn [fst snd]. rewrite E. split; [|lia]. split_and!; [done|done|done|]. unfold enc_chunk. rewrite !size_app. change (size CRLF) with 2. cbn [fst snd]. lia.
Qed.

Lemma send_chunk udp data : size data < 2 ^ 31 -> sends (fun c => mg_send_http_chunk udp c data (size data)) (wire_chunk data).
Proof.
  intros Hd. destruct (chunk_of_ok data Hd) as [_ Hs]. pose proof (size_nonneg data). unfold mg_send_http_chunk. rewrite u64_small by lia. cbv zeta.
  assert (wire_chunk data = ((chunk_of data).1 ++ CRLF) ++ data ++ CRLF) as -> by (unfold wire_chunk, enc_chunk; by rewrite <- app_assoc). unfold chunk_of. cbn [fst].
  set (hs := hex_digits 16 (size data) []) in *. change ((chunk_of data).1) with hs in Hs.
  apply (sends_bind (fun c => mg_send udp c (hs ++ CRLF) (size (hs ++ CRLF))) (fun c => c ← mg_send udp c data (size data); mg_send udp c CRLF 2)).
  - apply mg_send_sends. rewrite size_app. change (size CRLF) with 2. lia.
  - apply (sends_bind (fun c => mg_send udp c data (size data)) (fun c => mg_send udp c CRLF 2)); [by apply mg_send_sends|]. by apply (mg_send_sends udp CRLF).
Qed.

Fixpoint send_chunks (udp : bool) (c : conn) (pieces : list (list Z)) : outcome conn :=
  match pieces with [] => mg_send_http_chunk udp c [] 0 | d :: pieces => c ← mg_send_http_chunk udp c d (size d); send_chunks udp c pieces end.

Lemma send_chunks_sends udp pieces : Forall (fun d => size d < 2 ^ 31) pieces ->
  sends (fun c => send_chunks udp c pieces) (enc_chunks (map chunk_of pieces) ++ wire_chunk []).
Proof.
  induction pieces as [|d pieces IH]; intros Hp; [by apply (send_chunk udp [])|]. apply Forall_cons_1 in Hp as [Hd Hp].
  unfold enc_chunks. cbn [map concat send_chunks]. rewrite <- app_assoc. apply (sends_bind (fun c => mg_send_http_chunk udp c d (size d)) (fun c => send_chunks udp c pieces)); [by apply send_chunk|by apply IH].
Qed.

(** C36: what is sent as chunks is put together again.  The pieces that
    [mg_send_http_chunk] sends, ended by an empty one, are exactly what
    [mg_handle_chunked] takes out of the encoding on the other side: it leaves the
    pieces one after the other in place of the encoding, and knows their length. *)
Theorem http_chunks_roundtrip udp c n pieces :
  Forall (fun d => size d < 2 ^ 31 /\ d <> []) pieces -> size (enc_chunks (map chunk_of pieces) ++ wire_chunk []) < 2 ^ 60 ->
  can_send (size (enc_chunks (map chunk_of pieces) ++ wire_chunk []) + n) c -> 0 <= n ->
  exists c' wire, send_chunks udp c pieces = Ret c' /\ sent c' = sent c ++ wire /\
    forall pre post rl hbl hml, exists gap,
      Http.mg_handle_chunked (mk_chunks (pre ++ wire ++ post) rl 0 hbl hml) (size pre) (size wire) false =
        Ret (mk_chunks (pre ++ concat pieces ++ gap ++ post) (rl - size gap) (size (concat pieces)) (size (concat pieces)) (size (concat pieces)), size (concat pieces), true).
Proof.
  intros Hp Hlt Hc Hn. destruct (send_chunks_sends udp pieces) with (c := c) (n := n) as (c' & E & Hs & _); [|done|done|].
  { eapply Forall_impl; [|exact Hp]. by intros d [? _]. }
  exists c', (enc_chunks (map chunk_of pieces) ++ wire_chunk []). split_and!; [done|done|]. intros pre post rl hbl hml.
  destruct (handle_chunked_reassembles pre [] (map chunk_of pieces) (wire_chunk [] ++ []) true [] post rl hbl hml false) as (gap & Hg & E').
  - apply end_zero. apply (chunk_of_ok []). done.
  - apply Forall_map. eapply Forall_impl; [|exact Hp]. intros d [Hd Hne]. split; [by apply chunk_of_ok|done].
  - by right.
  - rewrite app_nil_r. cbn [app]. lia.
  - assert (chunks_data (map chunk_of pieces) = concat pieces) as Ed by (unfold chunks_data; by rewrite map_map, map_id).
    rewrite app_nil_r, !app_nil_l, Ed in E'. change (size (@nil Z)) with 0 in E'. rewrite !Z.add_0_r in E'. exists gap. rewrite E'. do 3 f_equal. rewrite Hg. by rewrite app_nil_r, !app_nil_l, Ed.
Qed.

Lemma http_chunks_roundtrip_witness : exists c' wire, send_chunks false fresh_conn [lit "Hello, "; lit "you"] = Ret c' /\ sent c' = sent fresh_conn ++ wire /\
  forall pre post rl hbl hml, exists gap,
    Http.mg_handle_chunked (mk_chunks (pre ++ wire ++ post) rl 0 hbl hml) (size pre) (size wire) false =
      Ret (mk_chunks (pre ++ lit "Hello, you" ++ gap ++ post) (rl - size gap) 10 10 10, 10, true).
Proof.
  apply (http_chunks_roundtrip false fresh_conn 0 [lit "Hello, "; lit "you"]); [repeat (constructor; [by split|]); constructor|done| |done].
  apply fresh_can_send. vm_compute. split; discriminate.
Defined.
