(* ===== verification/Forms.v ===== *)
(** * The encoding of URLs and of forms (mongoose.c, http.c)

    [mg_url_decode], which is called with its result in another object and in
    place, [mg_url_encode], and the variables of a form. *)

From Stdlib Require Import ZArith Lia String.
From stdpp Require Import base list numbers option.
From S2P Require Import Prelude Strs Http.

Local Open Scope Z_scope.

(** ** The code *)

Definition HEXTOI (x : Z) : Z := if isdigit x then x - 48 else x - 87.

(** The memory [m] holds the source and the destination: [get m k] reads the
    byte [k] of the source, [put m k c] writes the byte [k] of the destination. *)
Section decode.
Context {M : Type} (get : M -> Z -> outcome Z) (put : M -> Z -> Z -> outcome M).

(** The loop gives where it stopped, [None] at a bad escape. *)
Definition url_decode_step (src_len dst_len : Z) (is_form_url_encoded : bool) (st : M * Z * Z) :
    outcome ((M * Z * Z) + (M * option (Z * Z))) :=
  let '(m, i, j) := st in
  room ← (if i <? src_len then limit ← int (dst_len - 1); mret (j <? limit) else mret false);
  if room : bool then
    c ← get m i;
    if c =? 37 then
      escape ← (if i <? src_len - 2 then
          a ← get m (i + 1);
          if isxdigit a then b ← get m (i + 2); mret (isxdigit b) else mret false
        else mret false);
      if escape : bool then
        a ← get m (i + 1);
        b ← get m (i + 2);
        m ← put m j (u8 (Z.lor (Z.shiftl (HEXTOI (tolower a)) 4) (HEXTOI (tolower b))));
        mret (inl (m, i + 3, j + 1))
      else mret (inr (m, None))
    else if is_form_url_encoded && (c =? 43) then
      m ← put m j 32; mret (inl (m, i + 1, j + 1))
    else
      m ← put m j c; mret (inl (m, i + 1, j + 1))
  else mret (inr (m, Some (i, j))).

(** Both lengths are converted to int. *)
Definition mg_url_decode (m : M) (src_len dst_len : Z) (is_form_url_encoded : bool) : outcome (M * Z) :=
  let src_len := s32 src_len in
  let dst_len := s32 dst_len in
  '(m, stop) ← loop (S (Z.to_nat src_len)) (url_decode_step src_len dst_len is_form_url_encoded) (m, 0, 0);
  match stop with
  | None => mret (m, -1)
  | Some (i, j) => m ← put m j 0; mret (m, if i >=? src_len then j else -1)
  end.

End decode.

(** In place at [q] of [b]; and from [src] of [b] to another object. *)
Definition decode_in_place (q : Z) : list Z -> Z -> Z -> bool -> outcome (list Z * Z) :=
  mg_url_decode (fun b k => rd b (q + k)) (fun b k c => wr b (q + k) c).
Definition decode_to (b : list Z) (src : Z) : list Z -> Z -> Z -> bool -> outcome (list Z * Z) :=
  mg_url_decode (fun _ k => rd b (src + k)) wr.

Definition isalnum (c : Z) : bool := isdigit c || ((97 <=? tolower c) && (tolower c <=? 122)).
Definition dont_escape : list Z := lit "._-$,;~()/".
Definition hex : list Z := lit "0123456789abcdef".

Definition url_encode_step (b : list Z) (src s_len dst_len : Z) (st : list Z * Z * Z) :
    outcome ((list Z * Z * Z) + (list Z * Z)) :=
  let '(dst, i, j) := st in
  if (dst_len >? 0) && (i <? s_len) && (u64 (j + 2) <? dst_len - 1) then
    c ← rd b (src + i);
    if isalnum c || strchr_in dont_escape c then
      dst ← wr dst j c; mret (inl (dst, i + 1, j + 1))
    else if u64 (j + 3) <? dst_len then
      dst ← wr dst j 37;
      h ← rd hex (Z.shiftr c 4);
      dst ← wr dst (j + 1) h;
      l ← rd hex (Z.land c 15);
      dst ← wr dst (j + 2) l;
      mret (inl (dst, i + 1, j + 3))
    else mret (inl (dst, i + 1, j + 1))
  else mret (inr (dst, j)).

(** The [s_len] bytes at [src] are written at the start of [dst]. *)
Definition mg_url_encode (b : list Z) (src s_len : Z) (dst : list Z) (dst_len : Z) : outcome (list Z * Z) :=
  '(dst, j) ← loop (S (Z.to_nat s_len)) (url_encode_step b src s_len dst_len) (dst, 0, 0);
  dst ← wr dst j 0;
  mret (dst, j).

(** The variable [name] of the form in [buf], a string of [b], is written to [dst]. *)
Definition mg_get_http_var (b : list Z) (buf : mg_str) (name : list Z) (dst : option (list Z)) (dst_len : Z) :
    outcome (option (list Z) * Z) :=
  match dst with
  | None => mret (None, -2)
  | Some dst =>
      if dst_len =? 0 then mret (Some dst, -2) else
      match p buf with
      | Some bp =>
          if Strs.len buf =? 0 then dst ← wr dst 0 0; mret (Some dst, -1) else
          let name_len := size name in
          let e := bp + Strs.len buf in
          dst ← wr dst 0 0;
          at_ ← loop (S (Z.to_nat (Strs.len buf))) (fun q =>
            if q + name_len <? e then
              first ← (if q =? bp then mret true else c ← rd b (q - 1); mret (c =? 38));
              eq ← (if first : bool then c ← rd b (q + name_len); mret (c =? 61) else mret false);
              d ← (if eq : bool then mg_ncasecmp (name ++ [0]) 0 b q name_len else mret 1);
              if d =? 0 then mret (inr (Some (q + name_len + 1))) else mret (inl (q + 1))
            else mret (inr None)) bp;
          match at_ with
          | None => mret (Some dst, -1)
          | Some q =>
              s ← memchr b q 38 (e - q);
              let s := match s with Some s => s | None => e end in
              '(dst, len) ← decode_to b q dst (s - q) dst_len true;
              mret (Some dst, if len =? -1 then -2 else len)
          end
      | None => dst ← wr dst 0 0; mret (Some dst, -1)
      end
  end.

Definition http_var (form name : string) (dst_len : Z) : outcome (list Z * Z) :=
  '(dst, n) ← mg_get_http_var (lit form) (mk_str (Some 0) (size (lit form))) (lit name) (Some (replicate (Z.to_nat dst_len) 1)) dst_len;
  mret (take (Z.to_nat n) (default [] dst), n).

Example http_var_second : http_var "user=ana&Q=caf%c3%A9+bar&q=2" "q" 20 = Ret (lit "caf" ++ [195; 169] ++ lit " bar", 9).
Proof. vm_compute. reflexivity. Qed.
Example http_var_part_of_name : http_var "subq=1&xq=3" "q" 20 = Ret ([], -1).
Proof. vm_compute. reflexivity. Qed.
Example http_var_too_long : http_var "q=abcdef" "q" 6 = Ret ([], -2).
Proof. vm_compute. reflexivity. Qed.
Example http_var_bad_escape : http_var "q=100%" "q" 20 = Ret ([], -2).
Proof. vm_compute. reflexivity. Qed.

Definition encoded_in (s : list Z) (dst_len : Z) : outcome (list Z * Z) :=
  '(d, j) ← mg_url_encode s 0 (size s) (replicate (Z.to_nat dst_len) 1) dst_len; mret (take (Z.to_nat j) d, j).
Example encode_name : encoded_in (lit "mi foto.png") 40 = Ret (lit "mi%20foto.png", 13).
Proof. vm_compute. reflexivity. Qed.
(** What does not fit is left out. *)
Example encode_short : encoded_in (lit "mi foto.png") 6 = Ret (lit "mi%20", 5).
Proof. vm_compute. reflexivity. Qed.

(** ** Decoding *)

(** The value of two hexadecimal digits. *)
Definition hex_value (a b : Z) : Z := xdigit_value a * 16 + xdigit_value b.

(** What a text stands for, [None] where it has a bad escape. *)
Fixpoint decoded (form : bool) (l : list Z) : option (list Z) :=
  match l with
  | [] => Some []
  | c :: r =>
      if c =? 37 then
        match r with
        | a :: b :: r => if isxdigit a && isxdigit b then cons (hex_value a b) <$> decoded form r else None
        | _ => None
        end
      else cons (if form && (c =? 43) then 32 else c) <$> decoded form r
  end.

Lemma isdigit_tolower x : isdigit (tolower x) = isdigit x.
Proof. unfold isdigit, tolower. repeat case_match; lia. Qed.

Lemma HEXTOI_value x : is_byte x -> isxdigit x = true -> HEXTOI (tolower x) = xdigit_value x /\ 0 <= xdigit_value x < 16.
Proof.
  unfold HEXTOI, xdigit_value, isxdigit. rewrite isdigit_tolower. intros _ Hx.
  destruct (isdigit x) eqn:Hd; [unfold isdigit, tolower in *; case_match; lia|]. simpl in Hx. lia.
Qed.

Lemma escape_value a b : is_byte a -> is_byte b -> isxdigit a = true -> isxdigit b = true ->
  u8 (Z.lor (Z.shiftl (HEXTOI (tolower a)) 4) (HEXTOI (tolower b))) = hex_value a b.
Proof.
  intros Ha Hb Xa Xb. destruct (HEXTOI_value a Ha Xa) as [-> ?], (HEXTOI_value b Hb Xb) as [-> ?].
  rewrite lor_disjoint by lia. unfold hex_value. apply u8_small. unfold is_byte. lia.
Qed.

(** A memory that can be decoded: [Inv m o l] says that [o] has been written and
    [l] is still to be read, [Fin] what the memory is at the end. *)
Section decoding.
Context {M : Type} (get : M -> Z -> outcome Z) (put : M -> Z -> Z -> outcome M).
Context (n dst_len : Z) (Hn31 : n < 2 ^ 31) (Hd31 : dst_len < 2 ^ 31) (Inv : M -> list Z -> list Z -> Prop) (Fin : M -> list Z -> Prop).
Context (Hget : forall m o l k c, Inv m o l -> 0 <= k -> l !! Z.to_nat k = Some c -> get m (n - size l + k) = Ret c).
Context (Hput : forall m o s l v, Inv m o (s ++ l) -> s <> [] -> is_byte v -> wp (put m (size o) v) (fun m' => Inv m' (o ++ [v]) l)).
Context (Hend : forall m o, Inv m o [] -> wp (put m (size o) 0) (fun m' => Fin m' o)).

Lemma get_head m o c l : Inv m o (c :: l) -> get m (n - size (c :: l)) = Ret c.
Proof. intros H. rewrite <- (Z.add_0_r (_ - _)). by eapply Hget. Qed.

(** What the loop gives for a text that stands for [d], when [o] is written. *)
Definition stops (o : list Z) (d : option (list Z)) (r : M * option (Z * Z)) : Prop :=
  match d with Some d => Inv r.1 (o ++ d) [] /\ r.2 = Some (n, size (o ++ d)) | None => r.2 = None end.

(** One byte is written and the loop goes on. *)
Lemma put_next form fuel m o s l d v i j :
  Inv m o (s ++ l) -> s <> [] -> is_byte v ->
  (forall m', Inv m' (o ++ [v]) l ->
    wp (loop fuel (url_decode_step get put n dst_len form) (m', n - size l, size (o ++ [v]))) (stops (o ++ [v]) d)) ->
  i = n - size l -> j = size o + 1 ->
  wp (m ← put m (size o) v; mret (inl (m, i, j))) (fun x => match x with
    | inl st => wp (loop fuel (url_decode_step get put n dst_len form) st) (stops o (cons v <$> d))
    | inr r => stops o (cons v <$> d) r end).
Proof.
  intros HI Hs Hv IH -> ->. apply wp_bind. eapply wp_mono; [by eapply Hput|]. intros m' HI'. apply wp_mret.
  replace (size o + 1) with (size (o ++ [v])) by size_lia.
  eapply wp_mono; [by apply IH|]. intros r Hr. unfold stops in *. destruct d as [d|]; [|done]. simpl.
  by rewrite <- !app_assoc in Hr.
Qed.

(** The loop is one step and the loop. *)
Lemma wp_loop_S {S R} fuel (body : S -> outcome (S + R)) s (Q : R -> Prop) :
  wp (body s) (fun v => match v with inl s' => wp (loop fuel body s') Q | inr r => Q r end) -> wp (loop (Datatypes.S fuel) body s) Q.
Proof. intros (v & E & Hv). rewrite loop_S, E. destruct v; [done|by exists r]. Qed.

Lemma url_decode_loop form : forall fuel l m o, (length l < fuel)%nat -> Inv m o l -> size l <= n -> bytes l -> size o + size l < dst_len ->
  wp (loop fuel (url_decode_step get put n dst_len form) (m, n - size l, size o)) (stops o (decoded form l)).
Proof.
  induction fuel as [|fuel IH]; intros l m o Hf HI Hn Hb Hd; [lia|]. apply wp_loop_S. unfold url_decode_step.
  destruct l as [|c l].
  { rewrite size_nil in *. replace (n - 0 <? n) with false by lia. apply wp_bind, wp_mret. cbn iota. apply wp_mret. unfold stops. cbn [decoded fst snd]. rewrite app_nil_r, Z.sub_0_r. auto. }
  pose proof (Forall_cons_1 _ _ _ Hb) as [Hc Hb']. pose proof (size_nonneg l). pose proof (size_cons c l). simpl in Hf.
  pose proof (size_nonneg o). replace (n - size (c :: l) <? n) with true by lia. apply wp_bind, wp_bind, wp_int; [lia|]. apply wp_mret.
  replace (size o <? dst_len - 1) with true by lia.
  apply wp_bind. eapply wp_of_eq; [by eapply get_head|]. cbn beta iota. cbn [decoded].
  destruct (c =? 37).
  - destruct l as [|a [|b l]]; [| |].
    + replace (n - size [c] <? n - 2) with false by size_lia. rewrite bind_Ret. by apply wp_mret.
    + replace (n - size [c; a] <? n - 2) with false by size_lia. rewrite bind_Ret. by apply wp_mret.
    + pose proof (size_nonneg l). replace (n - size (c :: a :: b :: l) <? n - 2) with true by size_lia.
      assert (Ha : get m (n - size (c :: a :: b :: l) + 1) = Ret a) by by eapply Hget.
      assert (Hbb : get m (n - size (c :: a :: b :: l) + 2) = Ret b) by by eapply Hget.
      rewrite Ha, Hbb, !bind_Ret. apply Forall_cons_1 in Hb' as [Ha' Hb'']. apply Forall_cons_1 in Hb'' as [Hb1 Hb2].
      destruct (isxdigit a) eqn:Xa; [|rewrite bind_Ret; by apply wp_mret]. cbn [andb mret outcome_ret].
      rewrite bind_Ret. destruct (isxdigit b) eqn:Xb; [|by apply wp_mret].
      rewrite escape_value by done.
      apply (put_next form fuel m o [c; a; b] l); try done; [| |size_lia].
      * unfold hex_value. destruct (HEXTOI_value a Ha' Xa), (HEXTOI_value b Hb1 Xb). unfold is_byte. lia.
      * intros m' HI'. simpl in Hf. apply IH; try done; size_lia.
  - destruct (form && (c =? 43)).
    + apply (put_next form fuel m o [c] l); try done; [|lia]. intros m' HI'. apply IH; try done; size_lia.
    + apply (put_next form fuel m o [c] l); try done; [|lia]. intros m' HI'. apply IH; try done; size_lia.
Qed.

Lemma mg_url_decode_spec form l m : Inv m [] l -> size l = n -> bytes l -> n < dst_len ->
  wp (mg_url_decode get put m n dst_len form) (fun r =>
    match decoded form l with Some d => Fin r.1 d /\ r.2 = size d | None => r.2 = -1 end).
Proof.
  intros HI Hn Hb Hd. pose proof (size_nonneg l) as Hl0. unfold mg_url_decode. rewrite !s32_small by lia. cbv zeta. apply wp_bind.
  pose proof (url_decode_loop form (S (Z.to_nat n)) l m [] ltac:(unfold size in *; lia) HI ltac:(lia) Hb ltac:(size_lia)) as H.
  rewrite Hn, Z.sub_diag in H. change (size (@nil Z)) with 0 in H.
  eapply wp_mono; [exact H|]. intros [m' stop] Hs. unfold stops in Hs. cbn [fst snd] in *.
  destruct (decoded form l) as [d|]; [|subst; by apply wp_mret].
  destruct Hs as [HI' ->]. apply wp_bind. eapply wp_mono; [by apply Hend|]. intros m'' HF. apply wp_mret.
  by rewrite Z.geb_leb, Z.leb_refl.
Qed.
End decoding.

Lemma bytes_wr b i v b' : wr b i v = Ret b' -> bytes b -> is_byte v -> bytes b'.
Proof. unfold wr. case_decide; [|done]. intros [= <-] ? ?. by apply Forall_insert. Qed.

(** A write behind [l], where [j] and more follow. *)
Lemma write_next (l j r : list Z) i v : i = size l -> j <> [] -> is_byte v -> bytes (l ++ j ++ r) ->
  exists j', wr (l ++ j ++ r) i v = Ret (l ++ v :: j' ++ r) /\ size j' + 1 = size j /\ bytes (l ++ v :: j' ++ r).
Proof.
  intros Hi Hj Hv Hb. destruct j as [|y j]; [done|]. assert (wr (l ++ (y :: j) ++ r) i v = Ret (l ++ v :: j ++ r)) as E by by apply wr_after.
  exists j. split; [done|]. split; [size_lia|]. by eapply bytes_wr.
Qed.

(** In place, between [pre] and [post]: what is written, what was read, and the rest. *)
Lemma decode_in_place_spec form pre l x post dst_len : bytes (pre ++ l ++ x :: post) -> size l < dst_len < 2 ^ 31 ->
  wp (decode_in_place (size pre) (pre ++ l ++ x :: post) (size l) dst_len form) (fun r =>
    match decoded form l with
    | Some d => exists junk, r.1 = pre ++ d ++ 0 :: junk ++ post /\ size d + size junk = size l /\ r.2 = size d /\ bytes r.1
    | None => r.2 = -1
    end).
Proof.
  intros Hb Hd. assert (bytes l) as Hl by (apply Forall_app in Hb as [_ Hb]; by apply Forall_app in Hb as [Hb _]).
  eapply wp_mono; [apply (mg_url_decode_spec _ _ (size l) dst_len ltac:(lia) ltac:(lia)
    (fun m o r => bytes m /\ exists junk, m = pre ++ o ++ junk ++ r ++ x :: post /\ size o + size junk + size r = size l)
    (fun m d => bytes m /\ exists junk, m = pre ++ d ++ 0 :: junk ++ post /\ size d + size junk = size l)) with (l := l); try done; try lia|].
  - intros m o r k c (_ & junk & -> & Hs) Hk Hr. pose proof (lookup_lt_Some _ _ _ Hr).
    rewrite (rd_app_r pre) by size_lia. rewrite (rd_app_r o) by size_lia. rewrite (rd_app_r junk) by size_lia.
    rewrite rd_app_l by size_lia. apply rd_ib; [size_lia|]. rewrite <- Hr. f_equal. size_lia.
  - intros m o s r v (Hm & junk & -> & Hs) Hne Hv.
    rewrite <- (app_assoc s), (app_assoc junk), (app_assoc pre) in Hm |- *.
    edestruct (write_next (pre ++ o) (junk ++ s) (r ++ x :: post) (size pre + size o) v) as (j & -> & Hj & Hbj); [size_lia|by destruct junk, s|exact Hv|done|].
    apply wp_ret. rewrite <- !app_assoc in Hbj |- *. split; [done|]. exists j. rewrite <- ?app_assoc. split; [done|size_lia].
  - intros m o (Hm & junk & -> & Hs). rewrite app_nil_l in *. change (x :: post) with ([x] ++ post) in *.
    rewrite (app_assoc junk), (app_assoc pre) in Hm |- *.
    edestruct (write_next (pre ++ o) (junk ++ [x]) post (size pre + size o) 0) as (j & -> & Hj & Hbj); [size_lia|by destruct junk|by split|done|].
    apply wp_ret. rewrite <- !app_assoc in Hbj |- *. split; [done|]. exists j. rewrite <- ?app_assoc. split; [done|size_lia].
  - split; [done|]. by exists [].
  - intros [m n] H. cbn [fst snd] in *. destruct (decoded form l); [|done]. destruct H as [(? & junk & ? & ?) ?]. by exists junk.
Qed.

Lemma decode_to_spec form b src l dst dst_len : bytes l -> 0 <= src -> slice b src (size l) = l -> src + size l <= size b -> size l < dst_len < 2 ^ 31 -> dst_len <= size dst ->
  wp (decode_to b src dst (size l) dst_len form) (fun r =>
    match decoded form l with Some d => r.1 = fill dst (d ++ [0]) /\ r.2 = size d | None => r.2 = -1 end).
Proof.
  intros Hb H0 Hl Hsrc Hd Hs. apply (mg_url_decode_spec _ _ (size l) dst_len ltac:(lia) ltac:(lia)
    (fun m o r => m = fill dst o /\ (exists o', l = o' ++ r /\ size o <= size o')) (fun m d => m = fill dst (d ++ [0]))); try done; try lia.
  - intros m o r k c [-> (o' & El & ?)] Hk Hr. pose proof (lookup_lt_Some _ _ _ Hr). pose proof (f_equal size El).
    apply rd_ib; [size_lia|]. rewrite <- Hr, <- (lookup_slice _ _ (size l)), Hl, El by size_lia.
    rewrite lookup_app_r by size_lia. f_equal. size_lia.
  - intros m o s r v [-> (o' & El & ?)] Hne _. apply wp_wr_fill; [done| |].
    + pose proof (f_equal size El). destruct s; [done|]. size_lia.
    + split; [done|]. exists (o' ++ s). rewrite <- app_assoc. split; [done|]. destruct s; [done|]. size_lia.
  - intros m o [-> (o' & El & ?)]. rewrite app_nil_r in El. subst. apply wp_wr_fill; [done|lia|done].
  - split; [by rewrite fill_nil|]. by exists [].
Qed.

(** ** Encoding *)

Definition kept (c : Z) : bool := isalnum c || strchr_in dont_escape c.
Definition hex_of (v : Z) : Z := default 0 (hex !! Z.to_nat v).
Definition escaped_byte (c : Z) : list Z := if kept c then [c] else [37; hex_of (Z.shiftr c 4); hex_of (Z.land c 15)].
Definition escaped (s : list Z) : list Z := concat (map escaped_byte s).

Lemma hex_ok v : 0 <= v < 16 -> rd hex v = Ret (hex_of v) /\ isxdigit (hex_of v) = true /\ xdigit_value (hex_of v) = v.
Proof.
  assert (H : forallb (fun v => bool_decide (rd hex v = Ret (hex_of v)) && isxdigit (hex_of v) && (xdigit_value (hex_of v) =? v)) (seqZ 0 16) = true) by reflexivity.
  intros Hv. pose proof (range_forallb (fun v => bool_decide (rd hex v = Ret (hex_of v)) && isxdigit (hex_of v) && (xdigit_value (hex_of v) =? v)) 16 H v Hv) as E.
  cbv beta in E. rewrite !andb_true_iff, bool_decide_eq_true, Z.eqb_eq in E. tauto.
Qed.

Lemma nibbles c : is_byte c -> 0 <= Z.shiftr c 4 < 16 /\ 0 <= Z.land c 15 < 16 /\ Z.shiftr c 4 * 16 + Z.land c 15 = c.
Proof.
  intros Hc. unfold is_byte in Hc. change 15 with (2 ^ 4 - 1). rewrite land_ones_mod, Z.shiftr_div_pow2 by lia. change (2 ^ 4 - 1) with 15. change (2 ^ 4) with 16. euclid.
Qed.

Lemma size_escaped s : 0 <= size (escaped s) <= 3 * size s.
Proof.
  induction s as [|c s IH]; [done|]. unfold escaped in *. cbn [map concat]. rewrite size_app, size_cons.
  assert (size (escaped_byte c) <= 3) by (unfold escaped_byte; by destruct (kept c)). pose proof (size_nonneg (escaped_byte c)). lia.
Qed.

Lemma kept_plain c : kept c = true -> (c =? 37) = false /\ (c =? 43) = false.
Proof.
  intros H. split; (destruct (_ =? _) eqn:E; [apply Z.eqb_eq in E; subst c; vm_compute in H; discriminate|done]).
Qed.

Lemma decoded_escaped form s : bytes s -> decoded form (escaped s) = Some s.
Proof.
  induction s as [|c s IH]; intros Hb; [done|]. apply Forall_cons_1 in Hb as [Hc Hb].
  unfold escaped in *. cbn [map concat]. unfold escaped_byte at 1. destruct (kept c) eqn:K.
  - apply kept_plain in K as [K1 K2]. cbn [app decoded]. rewrite K1, K2, andb_false_r, IH by done. done.
  - destruct (nibbles c Hc) as (H1 & H2 & H3). destruct (hex_ok _ H1) as (_ & X1 & V1), (hex_ok _ H2) as (_ & X2 & V2).
    cbn [app decoded Z.eqb Pos.eqb]. rewrite X1, X2. cbn [andb]. rewrite IH by done. simpl. unfold hex_value. by rewrite V1, V2, H3.
Qed.

Lemma mg_url_encode_spec b src s dst dst_len : bytes s -> 0 <= src -> src + size s <= size b -> slice b src (size s) = s ->
  3 * size s < dst_len <= size dst -> size dst < 2 ^ 64 ->
  mg_url_encode b src (size s) dst dst_len = Ret (fill dst (escaped s ++ [0]), size (escaped s)).
Proof.
  intros Hb H0 Hsrc Hl Hd H64. apply wp_eq. unfold mg_url_encode. apply wp_bind.
  eapply wp_mono; [apply (wp_loop
    (fun '(d, i, j) => exists s1 s2, s = s1 ++ s2 /\ i = size s1 /\ d = fill dst (escaped s1) /\ j = size (escaped s1))
    (fun '(_, i, _) => Z.to_nat (size s - i)) (fun r => r = (fill dst (escaped s), size (escaped s))))|].
  - intros [[d i] j] (s1 & s2 & El & -> & -> & ->). unfold url_encode_step.
    pose proof (size_escaped s1) as H1. pose proof (size_nonneg s2). pose proof (f_equal size El) as Hs. rewrite size_app in Hs.
    rewrite u64_small by lia. replace (dst_len >? 0) with true by lia.
    destruct s2 as [|c s2].
    { rewrite size_nil in *. rewrite app_nil_r in El. subst s1. replace (size s <? size s) with false by lia. by apply wp_mret. }
    rewrite size_cons in *. pose proof (size_nonneg s2). replace (size s1 <? size s) with true by lia.
    replace (size (escaped s1) + 2 <? dst_len - 1) with true by lia. cbn [andb].
    apply wp_bind. eapply wp_of_eq.
    { apply rd_ib; [lia|]. rewrite <- (lookup_slice _ _ (size s)), Hl, El by size_lia. rewrite size_to_nat. by apply list_lookup_middle. }
    assert (Ee : escaped (s1 ++ [c]) = escaped s1 ++ escaped_byte c) by (unfold escaped; rewrite map_app, concat_app; simpl; by rewrite app_nil_r).
    assert (Hc : is_byte c) by (rewrite El in Hb; apply Forall_app in Hb as [_ Hb]; by inversion Hb).
    cbn beta. unfold escaped_byte, kept in Ee. destruct (isalnum c || strchr_in dont_escape c).
    + apply wp_bind, wp_wr_fill; [done|lia|]. apply wp_mret. split; [|lia].
      exists (s1 ++ [c]), s2. rewrite <- app_assoc, Ee. size_simpl. split_and!; try done; lia.
    + rewrite u64_small by lia. replace (size (escaped s1) + 3 <? dst_len) with true by lia.
      destruct (nibbles c Hc) as (B1 & B2 & _). destruct (hex_ok _ B1) as (X1 & _ & _), (hex_ok _ B2) as (X2 & _ & _).
      apply wp_bind, wp_wr_fill; [done|lia|]. rewrite X1, X2, !bind_Ret.
      apply wp_bind, wp_wr_fill; [size_lia|size_lia|]. rewrite bind_Ret. apply wp_bind, wp_wr_fill; [size_lia|size_lia|]. apply wp_mret. split; [|lia].
      exists (s1 ++ [c]), s2. rewrite <- !app_assoc, Ee. size_simpl. split_and!; try done; lia.
  - by exists [], s.
  - lia.
  - intros r ->. pose proof (size_escaped s). apply wp_bind, wp_wr_fill; [done|lia|]. by apply wp_mret.
Qed.

(** ** What is encoded is decoded *)

Lemma bytes_escaped s : bytes s -> bytes (escaped s).
Proof.
  induction 1 as [|c s Hc Hb IH]; [apply Forall_nil_2|]. unfold escaped in *. cbn [map concat]. apply Forall_app_2; [|done].
  assert (Hx : forall v, is_byte (hex_of v)).
  { intros v. unfold hex_of. destruct (hex !! Z.to_nat v) as [x|] eqn:E; [|by split].
    eapply (Forall_lookup_1 is_byte hex); [|exact E]. repeat constructor; lia. }
  unfold escaped_byte. destruct (kept c); repeat apply Forall_cons_2; try done; by split.
Qed.

(** C29: What [mg_url_encode] writes for any bytes, [mg_url_decode] reads back,
    for paths and for forms, into another object and in place, and nothing after
    the text and its terminator is touched; the room for the text, more than three
    times its size, is less than 2^31, so that its size is an int. *)
Theorem url_roundtrip form b src s dst dst_len d2 pre post : bytes s -> bytes pre -> bytes post -> 0 <= src -> src + size s <= size b -> slice b src (size s) = s ->
  3 * size s < dst_len <= size dst -> dst_len < 2 ^ 31 -> size dst < 2 ^ 64 -> dst_len <= size d2 ->
  exists o, mg_url_encode b src (size s) dst dst_len = Ret (fill dst (o ++ [0]), size o) /\
    decode_to (fill dst (o ++ [0])) 0 d2 (size o) dst_len form = Ret (fill d2 (s ++ [0]), size s) /\
    exists junk, decode_in_place (size pre) (pre ++ o ++ 0 :: post) (size o) dst_len form = Ret (pre ++ s ++ 0 :: junk ++ post, size s) /\
      size s + size junk = size o.
Proof.
  intros Hb Hbp Hbo H0 Hsrc Hl Hd H31 H64 Hd2. pose proof (size_escaped s) as He. pose proof (bytes_escaped s Hb) as Hbe.
  pose proof (size_nonneg s). exists (escaped s). split; [by apply mg_url_encode_spec|]. split.
  - destruct (decode_to_spec form (fill dst (escaped s ++ [0])) 0 (escaped s) d2 dst_len) as ([d n] & -> & HQ); try done; try lia.
    + unfold fill. rewrite <- app_assoc. apply slice_prefix.
    + rewrite size_fill by size_lia. lia.
    + rewrite decoded_escaped in HQ by done. destruct HQ as [H1 H2]. cbn [fst snd] in *. by subst.
  - destruct (decode_in_place_spec form pre (escaped s) 0 post dst_len) as ([d n] & -> & HQ); [|lia|].
    { apply Forall_app_2; [done|]. apply Forall_app_2; [done|]. by apply Forall_cons_2. }
    rewrite decoded_escaped in HQ by done. destruct HQ as (junk & H1 & ? & H2 & _). exists junk. cbn [fst snd] in *. by subst.
Qed.

Lemma url_roundtrip_witness : exists o, mg_url_encode (lit "50% de +") 0 8 (replicate 30 7) 25 = Ret (fill (replicate 30 7) (o ++ [0]), size o) /\
    decode_to (fill (replicate 30 7) (o ++ [0])) 0 (replicate 30 9) (size o) 25 true = Ret (fill (replicate 30 9) (lit "50% de +" ++ [0]), 8) /\
    exists junk, decode_in_place 1 ([47] ++ o ++ [0; 47]) (size o) 25 true = Ret ([47] ++ lit "50% de +" ++ 0 :: junk ++ [47], 8) /\ 8 + size junk = size o.
Proof. apply (url_roundtrip true (lit "50% de +") 0 (lit "50% de +") (replicate 30 7) 25 (replicate 30 9) [47] [47]); try done; repeat constructor; lia. Defined.
