(* ===== verification/Files.v ===== *)
(** * The files of the server (mongoose.c, http.c)

    [mg_serve_http], to which main.cpp hands the requests for pictures: from the
    path of a request to the path of a file, and what is done with that file.
    The file system is an argument: the answers of [stat] and [malloc].  What is
    done in the end is a value of [file_action]; the requests of WebDAV, CGI and SSI
    are only named there. *)

From Stdlib Require Import ZArith Lia String.
From stdpp Require Import base list numbers option.
From S2P Require Import Prelude Strs Uri Http Forms.

Local Open Scope Z_scope.

(** ** The code *)

Definition DIRSEP : Z := 47.

(** The options; a C string is the list of its characters. *)
Record mg_serve_http_opts := mk_opts {
  document_root : option (list Z);
  index_files : option (list Z);
  per_directory_auth_file : option (list Z);
  auth_domain : option (list Z);
  global_auth_file : option (list Z);
  enable_directory_listing : option (list Z);
  ssi_pattern : option (list Z);
  ip_acl : option (list Z);
  url_rewrites : option (list Z);
  dav_document_root : option (list Z);
  dav_auth_file : option (list Z);
  hidden_file_pattern : option (list Z);
  cgi_file_pattern : option (list Z);
  custom_mime_types : option (list Z)
}.

Inductive file_kind := S_REG | S_DIR | S_OTHER.
#[export] Instance file_kind_eq_dec : EqDecision file_kind.
Proof. solve_decision. Defined.
Record cs_stat_t := mk_stat { st_mode : file_kind; st_size : Z; st_mtime : Z }.

(** The string at [q] in [b], up to its terminator. *)
Definition c_string (b : list Z) (q : Z) : outcome (list Z) :=
  n ← strlen b q; mret (slice b q n).

Definition methods : list (list Z) := [lit "PUT"; lit "DELETE"; lit "MKCOL"; lit "PROPFIND"; lit "MOVE"].

Fixpoint is_one_of (b : list Z) (s : mg_str) (l : list (list Z)) : outcome bool :=
  match l with
  | [] => mret false
  | x :: l => d ← mg_vcmp b s x; if d =? 0 then mret true else is_one_of b s l
  end.
Definition mg_is_dav_request (b : list Z) (s : mg_str) : outcome bool := is_one_of b s methods.
Definition mg_is_creation_request (b : list Z) (hm : http_message) : outcome bool :=
  is_one_of b (method hm) [lit "MKCOL"; lit "PUT"].

Definition set_uri (hm : http_message) (s : mg_str) : http_message :=
  mk_http (message hm) (method hm) s (proto hm) (resp_code hm) (resp_status_msg hm) (query_string hm)
    (header_names hm) (header_values hm) (body hm).

(** *** From the URI to a path *)

(** One entry of the rewrites: [inl] goes on, with the position in the list and
    [file_uri_start], which an entry that does not match has changed as well. *)
Definition rewrite_step (b rw : list Z) (uri : mg_str) (uri_p : Z) (hh : option mg_str) (st : Z * Z) :
    outcome ((Z * Z) + (option (list Z) * Z)) :=
  let '(l, start) := st in
  let cp_end := uri_p + Strs.len uri in
  ent ← mg_next_comma_list_entry rw (Some l) true;
  match ent with
  | Some (l, a, Some bb) =>
      let root := option_map (fun _ => str_bytes rw bb) (p bb) in
      deref (p a) (fun ap =>
        at_host ← (if Strs.len a >? 1 then c ← rd rw ap; mret (c =? 64) else mret false);
        if at_host : bool then
          match hh with
          | Some hh =>
              if Strs.len hh =? Strs.len a - 1 then
                deref (p hh) (fun hp =>
                  d ← mg_ncasecmp rw (ap + 1) b hp (Strs.len a - 1);
                  if d =? 0 then mret (inr (root, start)) else mret (inl (l, start)))
              else mret (inl (l, start))
          | None => mret (inl (l, start))
          end
        else
          match_len ← mg_match_prefix_n rw a b uri;
          if match_len >? 0 then
            let start := uri_p + match_len in
            c ← rd b start;
            if (c =? 47) || (start =? cp_end) then mret (inr (root, start)) else
            c ← rd b (start - 1);
            if c =? 47 then mret (inr (root, start - 1)) else mret (inl (l, start))
          else mret (inl (l, start)))
  | _ => mret (inr (None, start))
  end.

(** The root and where the path of the file starts in the URI. *)
Definition choose_root (b : list Z) (hm : http_message) (uri_p : Z) (opts : mg_serve_http_opts) : outcome (list Z * Z) :=
  hh ← mg_get_http_header b hm (lit "Host");
  '(root, start) ← match url_rewrites opts with
    | None => mret (None, uri_p)
    | Some rw => loop (S (length rw)) (rewrite_step b (rw ++ [0]) (huri hm) uri_p hh) (0, uri_p)
    end;
  root ← match root with
    | Some r => mret r
    | None =>
        dav ← match dav_document_root opts with
          | Some r => d ← mg_is_dav_request b (method hm); mret (if d : bool then Some r else None)
          | None => mret None
          end;
        match dav, document_root opts with
        | Some r, _ => mret r
        | None, Some r => mret r
        | None, None => Fault NullPointer
        end
    end;
  if size root >? 0 then mret (root, start) else Fault AssertFailed.

Section path.
Context (mg_stat : list Z -> option cs_stat_t) (malloc : Z -> option (list Z)).

(** [while (p > ps && *p != DIRSEP) p--] *)
Definition up_to_slash (lp : list Z) (ps q : Z) : outcome Z :=
  loop (S (Z.to_nat (q - ps))) (fun q =>
    if q >? ps then c ← rd lp q; if c =? DIRSEP then mret (inr q) else mret (inl (q - 1)) else mret (inr q)) q.

(** "No NULs and DIRSEPs in the component": where the scan ends, and whether it found none. *)
Definition scan_component (lp : list Z) (q n : Z) : outcome (Z * bool) :=
  loop (S (Z.to_nat n)) (fun '(i, q) =>
    if i <? n then
      c ← rd lp q;
      if (c =? 0) || (c =? DIRSEP) then mret (inr (q, false)) else mret (inl (i + 1, q + 1))
    else mret (inr (q, true))) (0, q).

Record path_state := mk_path { lp : list Z; u : Z; pp : Z; ok : bool; exists_ : bool }.

(** A component of the URI is appended to the path at [pp]; [None] is the
    [break] out of the loop with [ok = 0]. *)
Definition add_component (b : list Z) (ps : Z) (s : path_state) (component : mg_str) : outcome (option path_state) :=
  let q := pp s in
  deref (p component) (fun cp =>
    m ← memcpy (lp s) (q + 1) b cp (Strs.len component);
    '(m, len) ← decode_in_place (q + 1) m (Strs.len component) (size m - q - 1) false;
    if len <=? 0 then mret None else
    dot ← mg_vcmp m (mk_str (Some (q + 1)) len) (lit ".");
    if dot =? 0 then mret (Some (mk_path m (u s) q (ok s) (exists_ s))) else
    dots ← mg_vcmp m (mk_str (Some (q + 1)) len) (lit "..");
    if dots =? 0 then
      q ← up_to_slash m ps q;
      m ← wr m q 0;
      mret (Some (mk_path m (u s) q (ok s) (exists_ s)))
    else
      m ← wr m q DIRSEP;
      '(q, clean) ← scan_component m (q + 1) len;
      mret (Some (mk_path m (u s) q (ok s && clean) (exists_ s)))).

(** One turn of the loop over the components. *)
Definition path_step (b : list Z) (cp_end ps : Z) (s : path_state) : outcome (path_state + path_state) :=
  if u s <=? cp_end then
    st ← (if exists_ s then path ← c_string (lp s) 0; mret (mg_stat path) else mret None);
    let regular := match st with Some st => bool_decide (st_mode st = S_REG) | None => false end in
    if regular then
      c ← rd b (u s - 1);
      mret (inr (mk_path (lp s) (if c =? 47 then u s - 1 else u s) (pp s) (ok s) true))
    else
      let s := mk_path (lp s) (u s) (pp s) (ok s) (bool_decide (is_Some st)) in
      if u s >=? cp_end then mret (inr s) else
      '(component, next) ← parse_uri_component b (u s) cp_end 47;
      if Strs.len component >? 0 then
        s' ← add_component b ps s component;
        match s' with
        | None => mret (inr (mk_path (lp s) (u s) (pp s) false (exists_ s)))
        | Some s => mret (inl (mk_path (lp s) next (pp s) (ok s) (exists_ s)))
        end
      else mret (inl (mk_path (lp s) next (pp s) (ok s) (exists_ s)))
  else mret (inr s).

(** The path and what is left of the URI, or nothing. *)
Definition mg_uri_to_local_path (b : list Z) (hm : http_message) (opts : mg_serve_http_opts) : outcome (option (list Z * mg_str)) :=
  deref (p (huri hm)) (fun cp =>
    let cp_end := cp + Strs.len (huri hm) in
    '(root, start) ← choose_root b hm cp opts;
    match malloc (size root + Strs.len (huri hm) + 1) with
    | None => mret None
    | Some m =>
        m ← memcpy m 0 root 0 (size root);
        c ← rd m (size root - 1);
        let ps := if c =? DIRSEP then size root - 1 else size root in
        m ← wr m ps 0;
        s ← loop (2 + Z.to_nat (Strs.len (huri hm))) (path_step b cp_end ps) (mk_path m (start + 1) ps true true);
        if ok s then
          path ← c_string (lp s) 0;
          let u := if u s >? cp_end then cp_end else u s in
          mret (Some (path, mk_str (Some u) (cp_end - u)))
        else mret None
    end).

End path.

Definition no_opts : mg_serve_http_opts := mk_opts None None None None None None None None None None None None None None.
Definition with_root (r : string) : mg_serve_http_opts :=
  mk_opts (Some (lit r)) None None None None None None None None None None None None None.
Definition with_rewrites (r rw : string) : mg_serve_http_opts :=
  mk_opts (Some (lit r)) None None None None None None None (Some (lit rw)) None None None None None.
Definition fresh_block (n : Z) : option (list Z) := Some (replicate (Z.to_nat n) 1).
Definition folder (path : list Z) : option cs_stat_t := Some (mk_stat S_DIR 0 0).
Definition only_file (f : string) (path : list Z) : option cs_stat_t :=
  Some (mk_stat (if bool_decide (path = lit f) then S_REG else S_DIR) 0 0).

(** The path of the file and what is left of the URI. *)
Definition local_path (stat : list Z -> option cs_stat_t) (opts : mg_serve_http_opts) (uri : string) : outcome (option (list Z * list Z)) :=
  let b := lit "GET " ++ lit uri ++ lit " HTTP/1.1" in
  r ← mg_uri_to_local_path stat fresh_block b (set_uri http0 (mk_str (Some 4) (size (lit uri)))) opts;
  mret (match r with Some (path, rest) => Some (path, str_bytes b rest) | None => None end).

Example local_picture : local_path folder (with_root "/img/") "/profile/ana%20b.png" = Ret (Some (lit "/img/profile/ana b.png", [])).
Proof. vm_compute. reflexivity. Qed.
Example local_dots : local_path folder (with_root "/img") "/a/%2e%2e/..//%2E/%2e./etc/passwd" = Ret (Some (lit "/img/etc/passwd", [])).
Proof. vm_compute. reflexivity. Qed.
Example local_slash : local_path folder (with_root "/img") "/..%2fetc" = Ret None.
Proof. vm_compute. reflexivity. Qed.
Example local_path_info : local_path (only_file "/img/a.cgi") (with_root "/img") "/a.cgi/x/y" = Ret (Some (lit "/img/a.cgi", lit "/x/y")).
Proof. vm_compute. reflexivity. Qed.
(** An entry of the rewrites that does not match at the end of a component
    still moves the start of the path. *)
Example rewrite_moves : local_path folder (with_rewrites "/img" "/prof=/other") "/profile/a.png" = Ret (Some (lit "/img/le/a.png", [])).
Proof. vm_compute. reflexivity. Qed.

(** ** What the path is *)

(** A component on the stack of the components kept so far, the last one first.
    Two dots remove one, but nothing above the root; [None] where the component
    decodes to a name with a slash or a terminator. *)
Definition is_name_char (c : Z) : bool := negb ((c =? 0) || (c =? DIRSEP)).
Definition enter (stack : list (list Z)) (d : list Z) : option (list (list Z)) :=
  if bool_decide (d = lit ".") then Some stack
  else if bool_decide (d = lit "..") then Some (tail stack)
  else if forallb is_name_char d then Some (d :: stack) else None.

Definition push (acc : option (list (list Z))) (seg : list Z) : option (list (list Z)) :=
  stack ← acc;
  if bool_decide (name seg = []) then Some stack else d ← decoded false (name seg); enter stack d.

Definition resolve (l : list Z) : option (list (list Z)) := foldl push (Some []) (segs l).

(** The path below [root] that a stack stands for. *)
Definition join (root : list Z) (stack : list (list Z)) : list Z := root ++ concat (map (cons DIRSEP) (rev stack)).

(** A component that stays inside its folder. *)
Definition safe_name (d : list Z) : Prop := d <> [] /\ Forall (fun c => is_name_char c = true) d /\ is_dots d = false.

Lemma forallb_all {A} (f : A -> bool) l : forallb f l = true -> Forall (fun x => f x = true) l.
Proof. induction l as [|x l IH]; simpl; [by intros _; apply Forall_nil_2|]. intros [H1 H2]%andb_true_iff. apply Forall_cons_2; [done|by apply IH]. Qed.

Lemma enter_safe stack d stack' : d <> [] -> Forall safe_name stack -> enter stack d = Some stack' -> Forall safe_name stack'.
Proof.
  unfold enter. intros Hd Hs. case_bool_decide as H1; [by intros [= <-]|]. case_bool_decide as H2.
  - intros [= <-]. destruct Hs; [apply Forall_nil_2|done].
  - destruct (forallb is_name_char d) eqn:E; [|done]. intros [= <-]. apply Forall_cons_2; [|done]. split_and!; [done| |].
    + by apply forallb_all.
    + unfold is_dots. by rewrite !bool_decide_eq_false_2.
Qed.

Lemma join_snoc root d stack : join root (d :: stack) = join root stack ++ DIRSEP :: d.
Proof. unfold join. simpl. rewrite map_app, concat_app. simpl. by rewrite app_nil_r, app_assoc. Qed.

Lemma decoded_size form : forall n l d, (length l <= n)%nat -> decoded form l = Some d -> size d <= size l /\ (l <> [] -> d <> []).
Proof.
  induction n as [|n IH]; intros [|c l] d Hn E; simpl in *; try lia; try (injection E as <-; by split).
  rewrite size_cons. destruct (c =? 37).
  - destruct l as [|a [|b l]]; [done..|]. destruct (_ && _); [|done]. destruct (decoded form l) as [d'|] eqn:E'; [|done].
    injection E as <-. destruct (IH l d') as [H _]; [simpl in *; lia|done|]. rewrite !size_cons. pose proof (size_nonneg l). split; [lia|done].
  - destruct (decoded form l) as [d'|] eqn:E'; [|done]. injection E as <-. destruct (IH l d') as [H _]; [lia|done|]. rewrite !size_cons. split; [lia|done].
Qed.

Lemma decoded_bytes form : forall n l d, (length l <= n)%nat -> bytes l -> decoded form l = Some d -> bytes d.
Proof.
  induction n as [|n IH]; intros [|c l] d Hn Hb E; simpl in *; try lia; try (injection E as <-; apply Forall_nil_2).
  apply Forall_cons_1 in Hb as [Hc Hb]. destruct (c =? 37).
  - destruct l as [|a [|b l]]; [done..|]. apply Forall_cons_1 in Hb as [Ha Hb]. apply Forall_cons_1 in Hb as [Hb1 Hb].
    destruct (isxdigit a) eqn:Xa, (isxdigit b) eqn:Xb; simpl in E; try done. destruct (decoded form l) as [d'|] eqn:E'; [|done].
    injection E as <-. apply Forall_cons_2; [|eapply (IH l); [simpl in *; lia|done|done]].
    destruct (HEXTOI_value a Ha Xa), (HEXTOI_value b Hb1 Xb). unfold hex_value, is_byte. lia.
  - destruct (decoded form l) as [d'|] eqn:E'; [|done]. injection E as <-. apply Forall_cons_2; [|by eapply (IH l); [lia|..]].
    case_match; [by split|done].
Qed.

(** *** The scans *)

Lemma scan_component_spec m pre d post : m = pre ++ d ++ post ->
  wp (scan_component m (size pre) (size d)) (fun r => size pre <= r.1 <= size pre + size d /\ r.2 = forallb is_name_char d /\ (r.2 = true -> r.1 = size pre + size d)).
Proof.
  intros ->. unfold scan_component.
  apply wp_loop with (m := fun '(i, _) => Z.to_nat (size d - i))
    (I := fun '(i, q) => exists d1 d2, d = d1 ++ d2 /\ i = size d1 /\ q = size pre + i /\ forallb is_name_char d1 = true).
  - intros [i q] (d1 & d2 & -> & -> & -> & H1). rewrite forallb_app, H1. destruct d2 as [|c d2].
    + rewrite app_nil_r, Z.ltb_irrefl. apply wp_mret. simpl. pose proof (size_nonneg d1). split_and!; (done || lia).
    + pose proof (size_nonneg d1). pose proof (size_nonneg d2). replace (size d1 <? size (d1 ++ c :: d2)) with true by size_lia.
      rewrite <- (app_assoc d1), (app_assoc pre). apply wp_bind. eapply wp_of_eq.
      { replace (size pre + size d1) with (size (pre ++ d1)) by size_lia. apply rd_at0. }
      cbv beta. replace ((c =? 0) || (c =? DIRSEP)) with (negb (is_name_char c)) by (unfold is_name_char; by rewrite negb_involutive). simpl forallb.
      destruct (is_name_char c) eqn:Ec; simpl.
      * apply wp_mret. split; [|size_lia]. exists (d1 ++ [c]), d2. rewrite <- app_assoc, forallb_app, H1. simpl. rewrite Ec. size_simpl. split_and!; (done || lia).
      * apply wp_mret. simpl. size_simpl. split_and!; (done || lia).
  - exists [], d. split_and!; (done || size_lia).
  - pose proof (size_nonneg d). lia.
Qed.

Lemma up_to_slash_safe m ps q : 0 <= ps <= q -> q < size m -> wp (up_to_slash m ps q) (fun q' => ps <= q' <= q).
Proof.
  intros Hp Hq. unfold up_to_slash. apply wp_loop with (m := fun x => Z.to_nat (x - ps)) (I := fun x => ps <= x <= q); [|lia|lia].
  intros x Hx. wp_step; [|apply wp_mret; lia]. destruct (rd_total m x) as (v & _ & ->); [lia|]. rewrite bind_Ret.
  wp_step; apply wp_mret; lia.
Qed.

(** From the end of the path back to the slash before its last component. *)
Lemma up_to_slash_spec m pre c post ps : m = pre ++ DIRSEP :: c ++ 0 :: post -> DIRSEP ∉ c -> 0 <= ps <= size pre ->
  up_to_slash m ps (size pre + 1 + size c) = Ret (size pre).
Proof.
  intros -> Hc Hps. apply wp_eq. unfold up_to_slash. pose proof (size_nonneg c).
  apply wp_loop with (m := fun x => Z.to_nat (x - ps))
    (I := fun x => x = size pre \/ exists c1 c2, c = c1 ++ c2 /\ x = size pre + 1 + size c1); [|right; exists c, []; by rewrite app_nil_r|lia].
  intros x Hx. destruct (Z.gtb_spec x ps) as [Hlt|]; cycle 1.
  { apply wp_mret. destruct Hx as [->|(c1 & c2 & -> & ->)]; [lia|]. pose proof (size_nonneg c1). lia. }
  destruct Hx as [->|(c1 & c2 & -> & ->)].
  { rewrite rd_at0, bind_Ret. by apply wp_mret. }
  rewrite <- (app_assoc c1). change (DIRSEP :: c1 ++ c2 ++ 0 :: post) with ((DIRSEP :: c1) ++ c2 ++ 0 :: post).
  rewrite (app_assoc pre). replace (size pre + 1 + size c1) with (size (pre ++ DIRSEP :: c1)) by size_lia.
  assert (wp (rd ((pre ++ DIRSEP :: c1) ++ c2 ++ 0 :: post) (size (pre ++ DIRSEP :: c1))) (fun x => x <> DIRSEP)) as (v & -> & Hv).
  { destruct c2 as [|y c2]; eapply wp_of_eq; [apply rd_at0|done|apply rd_at0|]. intros ->. apply Hc. apply elem_of_app. right. by left. }
  rewrite bind_Ret. destruct (Z.eqb_spec v DIRSEP); [done|]. apply wp_mret. split; [|size_lia].
  destruct c1 as [|y c1 _] using rev_ind; [left; size_lia|]. right. exists c1, ([y] ++ c2). rewrite <- app_assoc. split; [done|size_lia].
Qed.

(** *** One component *)

Section component.
Context (b : list Z) (Hb : bytes b).

(** The component is copied behind the byte at [pp], and decoded there. *)
Lemma add_decode base y junk cp raw : bytes (base ++ y :: junk) -> 0 <= cp -> cp + size raw <= size b -> slice b cp (size raw) = raw ->
  size raw < size junk -> size (base ++ y :: junk) < 2 ^ 31 ->
  exists m, memcpy (base ++ y :: junk) (size base + 1) b cp (size raw) = Ret m /\
  wp (decode_in_place (size base + 1) m (size raw) (size m - size base - 1) false) (fun r =>
    match decoded false raw with
    | Some d => exists junk', r.1 = base ++ y :: d ++ 0 :: junk' /\ size d + 1 + size junk' = size junk /\ r.2 = size d /\ bytes r.1
    | None => r.2 = -1
    end).
Proof.
  intros Hm H0 Hcp Hraw Hs H31. pose proof (size_nonneg raw). pose proof (size_nonneg base).
  destruct (split_at junk (size raw)) as (j1 & j2 & -> & Hj1); [lia|]. destruct j2 as [|x post]; [size_lia|].
  change (base ++ y :: j1 ++ x :: post) with (base ++ [y] ++ j1 ++ x :: post) in *. rewrite (app_assoc base) in *.
  assert (Hcopy : memcpy ((base ++ [y]) ++ j1 ++ x :: post) (size base + 1) b cp (size raw) = Ret ((base ++ [y]) ++ raw ++ x :: post)).
  { rewrite memcpy_mid by (done || size_lia). by rewrite Hraw. }
  eexists. split; [exact Hcopy|]. size_simpl. pose proof (size_nonneg post).
  replace (size base + 1) with (size (base ++ [y])) by size_lia.
  eapply wp_mono; [apply decode_in_place_spec; [|size_lia]|].
  - eapply bytes_memcpy; [exact Hcopy|done|done].
  - intros r. destruct (decoded false raw) as [d|]; [|done]. intros (junk' & E & Hj & Hr & Hbr).
    exists (junk' ++ post). rewrite E, <- !app_assoc in *. split; [done|]. split; [size_lia|]. by split.
Qed.

(** Two dots: back to the slash before the last component. *)
Lemma enter_dots ps base y r : 0 <= ps <= size base -> bytes (base ++ y :: r) ->
  exists q m, up_to_slash (base ++ y :: r) ps (size base) = Ret q /\ wr (base ++ y :: r) q 0 = Ret m /\
    size m = size (base ++ y :: r) /\ bytes m /\ 0 ∈ m /\ ps <= q <= size base /\
    forall root stack, base = join root stack -> y = 0 -> ps = size root -> Forall safe_name stack ->
      exists junk, m = join root (tail stack) ++ 0 :: junk /\ q = size (join root (tail stack)).
Proof.
  intros Hps Hm. pose proof (size_nonneg r).
  destruct (up_to_slash_safe (base ++ y :: r) ps (size base)) as (q & Eq & Hq); [done|size_lia|].
  exists q. rewrite wr_ib by size_lia. eexists. split; [exact Eq|]. split; [done|].
  split; [unfold size; by rewrite length_insert|]. split; [apply Forall_insert; [done|by split]|].
  split; [apply list_elem_of_insert; rewrite length_app; simpl; unfold size in *; lia|].
  split; [done|]. intros root stack -> -> -> Hs. destruct stack as [|c stack].
  - exists r. assert (q = size (join root [])) as ->; [|simpl; rewrite size_to_nat, insert_app_r_alt, Nat.sub_diag by done; by split].
    unfold join in *. simpl in *. rewrite app_nil_r in *. lia.
  - apply Forall_cons_1 in Hs as [(_ & Hc & _) _]. exists (c ++ 0 :: r). cbn [tail].
    assert (DIRSEP ∉ c) as Hn by (intros [i Hi]%list_elem_of_lookup; by eapply Forall_lookup_1 in Hc; [|exact Hi]).
    rewrite join_snoc in Eq |- *. assert (0 <= size root <= size (join root stack)) by (unfold join; size_simpl; pose proof (size_nonneg root); pose proof (size_nonneg (concat (map (cons DIRSEP) (rev stack)))); lia).
    rewrite <- app_assoc in Eq |- *. rewrite size_app, size_cons, Z.add_assoc in Eq. simpl in Eq.
    erewrite up_to_slash_spec in Eq; [|done..]. injection Eq as <-.
    split; [|done]. simpl. by rewrite size_to_nat, insert_app_r_alt, Nat.sub_diag by done.
Qed.

(** A name is appended with a slash, and read again up to a character that it must not have. *)
Lemma enter_name base y d r : bytes (base ++ y :: d ++ 0 :: r) ->
  let m := base ++ DIRSEP :: d ++ 0 :: r in
  wr (base ++ y :: d ++ 0 :: r) (size base) DIRSEP = Ret m /\ bytes m /\
  exists q, scan_component m (size base + 1) (size d) = Ret (q, forallb is_name_char d) /\ size base + 1 <= q <= size base + 1 + size d /\
    (forallb is_name_char d = true -> q = size (base ++ DIRSEP :: d)).
Proof.
  intros Hm m. assert (E : wr (base ++ y :: d ++ 0 :: r) (size base) DIRSEP = Ret m) by by apply wr_after.
  split; [done|]. split; [by eapply bytes_wr|].
  destruct (scan_component_spec m (base ++ [DIRSEP]) d (0 :: r)) as ([q clean] & Es & Hq & Hc & Hq'); [unfold m; by rewrite <- app_assoc|].
  cbn [fst snd] in *. subst clean. exists q. rewrite size_app in Es. change (size [DIRSEP]) with 1 in Es. split; [done|].
  size_simpl. split; [lia|]. intros Ht. rewrite Hq' by done. lia.
Qed.

(** What a component does to the path at [base]: always within the block, and
    what [enter] says when the path is that of a stack. *)
Definition entered (ps : Z) (base : list Z) (y : Z) (s : path_state) (raw d : list Z) (s' : path_state) : Prop :=
  exists m q clean, s' = mk_path m (u s) q (ok s && clean) (exists_ s) /\ size m = size (lp s) /\ bytes m /\ 0 ∈ m /\
    ps <= q <= size base + 1 + size raw /\
    forall root stack, base = join root stack -> y = 0 -> ps = size root -> Forall safe_name stack ->
      match enter stack d with
      | Some st => clean = true /\ exists junk, m = join root st ++ 0 :: junk /\ q = size (join root st)
      | None => clean = false
      end.

Lemma add_component_spec ps s component cp raw base y junk : lp s = base ++ y :: junk -> pp s = size base -> 0 <= ps <= size base ->
  p component = Some cp -> Strs.len component = size raw -> raw <> [] -> bytes (lp s) -> 0 <= cp -> cp + size raw <= size b ->
  slice b cp (size raw) = raw -> size raw < size junk -> size (lp s) < 2 ^ 31 ->
  wp (add_component b ps s component) (fun r =>
    match decoded false raw with None => r = None | Some d => exists s', r = Some s' /\ entered ps base y s raw d s' end).
Proof.
  intros El Eq Hps Ecp Elen Hne Hm H0 Hcp Hraw Hs H31. unfold add_component. rewrite Ecp, Elen, El, Eq. cbn [deref].
  rewrite El in Hm, H31. destruct (add_decode base y junk cp raw Hm H0 Hcp Hraw Hs H31) as (m1 & -> & [m n] & E & HQ).
  rewrite bind_Ret, E, bind_Ret. cbn [fst snd] in HQ. clear E m1.
  destruct (decoded false raw) as [d|] eqn:Ed; [|subst n; by apply wp_mret]. destruct HQ as (junk' & -> & Hj & -> & Hbm).
  destruct (decoded_size _ _ _ d (le_n _) Ed) as [Hd Hdn]. specialize (Hdn Hne).
  pose proof (size_nonneg base). pose proof (size_nonneg junk'). assert (0 < size d) by (destruct d; [done|pose proof (size_nonneg d); size_lia]).
  assert (Hin : 0 ∈ base ++ y :: d ++ 0 :: junk') by (apply elem_of_app; right; right; apply elem_of_app; right; by left).
  replace (size d <=? 0) with false by lia.
  assert (Hsb : str_bytes (base ++ y :: d ++ 0 :: junk') (mk_str (Some (size base + 1)) (size d)) = d).
  { unfold str_bytes. cbn [p Strs.len]. rewrite (cons_middle y), (app_assoc base). apply slice_mid; [size_lia|done]. }
  assert (str_in (base ++ y :: d ++ 0 :: junk') (mk_str (Some (size base + 1)) (size d))) as Hsi by (unfold str_in; cbn [p Strs.len]; size_lia).
  destruct (mg_vcmp_spec _ _ (lit ".") Hbm ltac:(repeat constructor; lia) Hsi ltac:(cbn [Strs.len]; size_lia) ltac:(done)) as (v1 & -> & V1).
  destruct (mg_vcmp_spec _ _ (lit "..") Hbm ltac:(repeat constructor; lia) Hsi ltac:(cbn [Strs.len]; size_lia) ltac:(done)) as (v2 & E2 & V2).
  rewrite Hsb in V1, V2. rewrite bind_Ret. unfold entered, enter. rewrite El.
  assert (Hsize : size (base ++ y :: d ++ 0 :: junk') = size (base ++ y :: junk)) by size_lia.
  destruct (Z.eqb_spec v1 0) as [Hv1|Hv1]; [|rewrite E2, bind_Ret; destruct (Z.eqb_spec v2 0) as [Hv2|Hv2]].
  - apply wp_mret. eexists. split; [done|]. eexists _, _, true. rewrite andb_true_r. split_and!; try done; try lia.
    intros root stack -> -> -> _. rewrite bool_decide_eq_true_2 by by apply V1. split; [done|]. by eexists.
  - destruct (enter_dots ps base y (d ++ 0 :: junk') Hps Hbm) as (q & m & -> & E & Hsm & Hm' & Hin' & Hq & Hj').
    rewrite bind_Ret, E, bind_Ret. apply wp_mret. eexists. split; [done|]. exists m, q, true. rewrite andb_true_r. split_and!; try done; try lia.
    intros root stack -> -> -> Hst. rewrite bool_decide_eq_false_2, bool_decide_eq_true_2 by (rewrite <- ?V1, <- ?V2; done). split; [done|]. by apply Hj'.
  - destruct (enter_name base y d junk' Hbm) as (E & Hm' & q & Es & Hq & Hc).
    rewrite E, bind_Ret, Es, bind_Ret. apply wp_mret. eexists. split; [done|]. eexists _, q, _. split; [done|]. split_and!; try done; try size_lia.
    { apply elem_of_app; right; right; apply elem_of_app; right; by left. }
    intros root stack -> -> -> _. rewrite !bool_decide_eq_false_2 by (rewrite <- ?V1, <- ?V2; done).
    destruct (forallb is_name_char d); [|done]. split; [done|]. exists junk'. rewrite join_snoc, <- app_assoc. split; [done|by apply Hc].
Qed.

End component.

(** *** The loop over the components *)

Lemma push_empty acc seg : name seg = [] -> push acc seg = acc.
Proof. intros E. unfold push. rewrite E. by destruct acc. Qed.

Lemma push_name acc seg : name seg <> [] -> push acc seg = stack ← acc; d ← decoded false (name seg); enter stack d.
Proof. intros E. unfold push. by rewrite bool_decide_eq_false_2. Qed.

Lemma push_none D : foldl push None D = None.
Proof. by induction D. Qed.

Lemma c_string_prefix x junk : 0 ∉ x -> c_string (x ++ 0 :: junk) 0 = Ret x.
Proof.
  intros Hx. unfold c_string. pose proof (size_nonneg x). pose proof (size_nonneg junk).
  rewrite (strlen_spec _ 0 (size x)).
  - rewrite bind_Ret. by rewrite slice_prefix.
  - split_and!; [lia..|size_lia|by rewrite slice_prefix|]. rewrite Z.add_0_l, size_to_nat. by apply list_lookup_middle.
Qed.

Lemma c_string_total x : 0 ∈ x -> wp (c_string x 0) (fun _ => True).
Proof.
  intros Hx. destruct (list_elem_of_split_l x 0 Hx) as (l1 & l2 & -> & H1). rewrite c_string_prefix by done. by apply wp_ret.
Qed.

Lemma joined_no_nul root stack : 0 ∉ root -> Forall safe_name stack -> 0 ∉ join root stack.
Proof.
  intros Hroot. induction 1 as [|d stack (_ & Hd & _) _ IH]; [unfold join; simpl; by rewrite app_nil_r|].
  rewrite join_snoc. intros [?|[?|[i Hi]%list_elem_of_lookup]%elem_of_cons]%elem_of_app; [done..|]. by eapply Forall_lookup_1 in Hd; [|exact Hi].
Qed.

Lemma size_none {A} (x : list A) : size x <= 0 -> x = [].
Proof. destruct x as [|v x]; [done|]. pose proof (size_nonneg x). rewrite size_cons. lia. Qed.

Section walk.
Context (mg_stat : list Z -> option cs_stat_t) (root pre l post : list Z) (N cp_end : Z).
Abbreviation b := (pre ++ l ++ post).
Abbreviation ps := (size root).
Context (Hb : bytes b) (Hroot : 0 ∉ root) (Hpre : pre <> []) (HN : N < 2 ^ 31).
Context (Hend : cp_end = size pre + size l \/ (l = [] /\ cp_end = size pre - 1)).

Definition regular (path : list Z) : Prop := exists st, mg_stat path = Some st /\ st_mode st = S_REG.

(** [D] has been read and [rest] has not; [y] is the byte at [pp]. *)
Record walk_at (D : list (list Z)) (rest : list Z) (s : path_state) : Prop := {
  wa_text : l = concat D ++ rest;
  wa_segs : segs l = D ++ segs rest;
  wa_u : u s = size pre + size (concat D);
  wa_size : size (lp s) = N;
  wa_bytes : bytes (lp s);
  wa_end : 0 ∈ lp s;
  wa_pp : ps <= pp s < N;
  wa_room : rest = [] \/ pp s + 1 + size rest < N;
  wa_path : match foldl push (Some []) D with
    | Some stack => ok s = true /\ Forall safe_name stack /\ exists junk, lp s = join root stack ++ 0 :: junk /\ pp s = size (join root stack)
    | None => ok s = false
    end
}.

(** The end of the loop: the path of what was read, up to the end or to a file. *)
Definition walked (s : path_state) : Prop :=
  if ok s then exists D rest stack junk, l = concat D ++ rest /\ segs l = D ++ segs rest /\
    foldl push (Some []) D = Some stack /\ Forall safe_name stack /\ lp s = join root stack ++ 0 :: junk /\ size (lp s) = N /\
    (rest = [] \/ regular (join root stack)) /\
    (u s = size pre + size (concat D) \/ (u s = size pre + size (concat D) - 1 /\ u s < cp_end /\ rd b (u s) = Ret 47))
  else resolve l = None.

Lemma walk_none D rest s : walk_at D rest s -> ok s = false -> resolve l = None.
Proof.
  intros H Hok. unfold resolve. rewrite (wa_segs _ _ _ H), foldl_app. pose proof (wa_path _ _ _ H) as Hp.
  destruct (foldl push (Some []) D); [destruct Hp; congruence|]. apply push_none.
Qed.

(** The last turn: what is found is the path of what was read. *)
Lemma walk_stop D rest s e u' : walk_at D rest s ->
  (rest = [] \/ exists st path, c_string (lp s) 0 = Ret path /\ mg_stat path = Some st /\ st_mode st = S_REG) ->
  (u' = u s \/ (u' = u s - 1 /\ u' < cp_end /\ rd b u' = Ret 47)) ->
  walked (mk_path (lp s) u' (pp s) (ok s) e).
Proof.
  intros H Hr Hu. unfold walked. cbn [ok lp u]. destruct (ok s) eqn:Hok; [|by eapply walk_none].
  pose proof (wa_path _ _ _ H) as Hp. destruct (foldl push (Some []) D) as [stack|] eqn:ED; [|congruence].
  destruct Hp as (_ & Hst & junk & El & _). exists D, rest, stack, junk. rewrite (wa_u _ _ _ H) in Hu.
  split_and!; try done; [apply H|apply H|apply H|].
  destruct Hr as [->|(st & path & Ec & E1 & E2)]; [by left|right]. exists st.
  rewrite El, c_string_prefix in Ec by by apply joined_no_nul. injection Ec as <-. done.
Qed.

(** The next component of the text: its name, and what is behind it. *)
Lemma next_component D rest s : walk_at D rest s -> rest <> [] -> exists seg rest' m,
  rest = seg ++ rest' /\ seg <> [] /\ segs rest = seg :: segs rest' /\ b = (pre ++ concat D) ++ name seg ++ m ++ post /\ rest = name seg ++ m /\
  parse_uri_component b (u s) (size pre + size l) 47 = Ret (mk_str (Some (u s)) (size (name seg)), u s + size seg) /\
  (rest' = [] \/ size seg = size (name seg) + 1) /\ size (name seg) <= size seg.
Proof.
  intros H Hne. pose proof (wa_text _ _ _ H) as El. destruct (segs_split rest Hne) as (nm & r & Hn & [[E Es]|(E & -> & Es)]).
  - exists (nm ++ [SLASH]), r, (SLASH :: r). rewrite name_full by done. split; [by rewrite <- app_assoc|]. split; [by destruct nm|].
    split; [done|]. rewrite (wa_u _ _ _ H), El, E. split_and!; [by rewrite <- !app_assoc|done| |right; size_lia|size_lia].
    change 47 with SLASH. rewrite (scan_slash _ _ _ nm (SLASH :: r) (pre ++ concat D) post);
      [rewrite decide_False by done; size_simpl; do 2 f_equal; lia|by rewrite <- !app_assoc|size_lia|size_lia|done|right; by eexists].
  - exists nm, [], []. rewrite name_last by done. rewrite app_nil_r. split; [done|]. split; [by destruct E|].
    split; [done|]. rewrite (wa_u _ _ _ H), El, E. split_and!; [by rewrite ?app_nil_l, <- !app_assoc|by rewrite ?app_nil_r| |by left|lia].
    change 47 with SLASH. rewrite (scan_slash _ _ _ nm [] (pre ++ concat D) post);
      [rewrite decide_True by done; do 2 f_equal; size_lia|by rewrite <- !app_assoc|size_lia|change (size (@nil Z)) with 0; size_lia|done|by left].
Qed.

Lemma text_end D rest s : walk_at D rest s -> rest <> [] -> cp_end = size pre + size l.
Proof. intros H Hne. destruct Hend as [->|[El _]]; [done|]. rewrite (wa_text _ _ _ H) in El. by apply app_nil in El as [_ ?]. Qed.

(** What comes after a component that was entered. *)
Lemma walk_next D rest s s' seg rest' : walk_at D rest s -> rest = seg ++ rest' -> segs rest = seg :: segs rest' ->
  size (lp s') = N -> bytes (lp s') -> 0 ∈ lp s' -> ps <= pp s' < N -> (rest' = [] \/ pp s' + 1 + size rest' < N) -> u s' = u s + size seg ->
  match push (foldl push (Some []) D) seg with
  | Some stack => ok s' = true /\ Forall safe_name stack /\ exists junk, lp s' = join root stack ++ 0 :: junk /\ pp s' = size (join root stack)
  | None => ok s' = false
  end -> walk_at (D ++ [seg]) rest' s'.
Proof.
  intros H E Es H1 H2 H3 H4 H5 H6 H7. split; try done.
  - rewrite (wa_text _ _ _ H), E, concat_app. cbn [concat]. by rewrite app_nil_r, <- app_assoc.
  - by rewrite (wa_segs _ _ _ H), Es, <- app_assoc.
  - rewrite H6, (wa_u _ _ _ H), concat_app. cbn [concat]. rewrite app_nil_r, size_app. lia.
  - by rewrite foldl_app.
Qed.

Lemma component_turn D rest s : walk_at D rest s -> rest <> [] ->
  wp ('(component, next) ← parse_uri_component b (u s) cp_end 47;
      if Strs.len component >? 0 then
        s' ← add_component b ps s component;
        match s' with
        | None => mret (inr (mk_path (lp s) (u s) (pp s) false (exists_ s)))
        | Some s => mret (inl (mk_path (lp s) next (pp s) (ok s) (exists_ s)))
        end
      else mret (inl (mk_path (lp s) next (pp s) (ok s) (exists_ s)))) (fun v =>
    match v with
    | inl s' => (exists D' rest', walk_at D' rest' s') /\ u s < u s' <= cp_end
    | inr s' => walked s'
    end).
Proof.
  intros H Hne. pose proof (text_end D rest s H Hne) as ->. destruct (next_component D rest s H Hne) as (seg & rest' & m & E & Hseg & Es & Eb & Em & -> & Hm & Hsz).
  rewrite bind_Ret. cbn [Strs.len]. pose proof (f_equal size (wa_text _ _ _ H)) as Hl. rewrite size_app in Hl. pose proof (f_equal size E) as He. rewrite size_app in He.
  pose proof (wa_u _ _ _ H) as Hu. pose proof (size_nonneg rest'). assert (0 < size seg) by (destruct seg; [done|pose proof (size_nonneg seg); size_lia]).
  pose proof (wa_room _ _ _ H) as [->|Hroom]; [done|]. pose proof (wa_pp _ _ _ H) as Hpp. pose proof (size_nonneg (name seg)). pose proof (size_nonneg root).
  destruct (Z.gtb_spec (size (name seg)) 0) as [Hn|Hn].
  - assert (Hnn : name seg <> []) by by intros E0; rewrite E0 in Hn.
    destruct (split_at (lp s) (pp s)) as (base & r & El & Hbase); [rewrite (wa_size _ _ _ H); lia|].
    pose proof (f_equal size El) as Hsl. rewrite size_app, (wa_size _ _ _ H) in Hsl. destruct r as [|y junk]; [size_lia|]. rewrite size_cons in Hsl.
    assert (Hu' : u s = size (pre ++ concat D)) by size_lia.
    pose proof (size_nonneg post). pose proof (size_nonneg m). pose proof (size_nonneg pre). pose proof (size_nonneg (concat D)).
    destruct (add_component_spec b Hb ps s (mk_str (Some (u s)) (size (name seg))) (u s) (name seg) base y junk) as (r & -> & Hr);
      [done|done|lia|done|done|by intros E0; rewrite E0 in Hn|apply H|size_lia|rewrite Eb, Hu'; size_lia| |lia|rewrite (wa_size _ _ _ H); lia|].
    { rewrite Eb, Hu'. by apply slice_mid. }
    rewrite bind_Ret. destruct (decoded false (name seg)) as [d|] eqn:Ed.
    + destruct Hr as (s' & -> & q & pp' & clean & -> & Hsq & Hq & Hin & Hpp' & Hpush). rewrite (wa_size _ _ _ H) in Hsq.
      apply wp_mret. cbn [u lp pp ok exists_]. split; [|lia]. exists (D ++ [seg]), rest'.
      assert (pp' < N) by (pose proof (size_nonneg junk); lia).
      apply (walk_next D rest s _ seg rest'); cbn [lp pp ok u]; try done; [lia|destruct Hm as [->|Hm]; [by left|right; lia]|].
      rewrite push_name by done. pose proof (wa_path _ _ _ H) as Hp. destruct (foldl push (Some []) D) as [stack|]; [|by rewrite Hp].
      destruct Hp as (Hok & Hst & junk' & El' & Hpp0). rewrite Ed. cbn [mbind option_bind]. rewrite Hok. cbn [andb].
      rewrite El in El'. apply app_inj_1 in El' as [-> [= -> _]]; [|unfold size in *; lia].
      specialize (Hpush root stack eq_refl eq_refl eq_refl Hst).
      destruct (enter stack d) as [st|] eqn:Een; [|done]. destruct Hpush as [-> Hj]. split_and!; [done| |done].
      by eapply (enter_safe stack d); [eapply decoded_size|..].
    + subst r. apply wp_mret. unfold walked. cbn [ok]. unfold resolve. rewrite (wa_segs _ _ _ H), foldl_app, Es. cbn [foldl].
      rewrite push_name by done. destruct (foldl push (Some []) D); [rewrite Ed|]; apply push_none.
  - apply wp_mret. cbn [u]. split; [|lia]. exists (D ++ [seg]), rest'. apply (walk_next D rest s _ seg rest'); cbn [lp pp ok u]; try done; try apply H.
    + destruct Hm as [->|Hm]; [by left|right; lia].
    + rewrite push_empty by by apply size_none. apply H.
Qed.

(** Whether there is a file at the path does not change what was read. *)
Lemma walk_exists D rest s e : walk_at D rest s -> walk_at D rest (mk_path (lp s) (u s) (pp s) (ok s) e).
Proof. intros H. split; cbn [lp u pp ok]; apply H. Qed.

Lemma walk_turn D rest s : walk_at D rest s ->
  wp (path_step mg_stat b cp_end ps s) (fun v =>
    match v with
    | inl s' => (exists D' rest', walk_at D' rest' s') /\ u s < u s' <= cp_end
    | inr s' => walked s'
    end).
Proof.
  intros H. unfold path_step. pose proof (wa_u _ _ _ H) as Hu. pose proof (f_equal size (wa_text _ _ _ H)) as Hl. rewrite size_app in Hl.
  pose proof (size_nonneg rest). pose proof (size_nonneg (concat D)). pose proof (size_nonneg post).
  assert (0 < size pre) by (destruct pre; [done|pose proof (size_nonneg l0); size_lia]).
  destruct (Z.leb_spec (u s) cp_end) as [Hle|Hlt]; cycle 1.
  { apply wp_mret. destruct s as [lp0 u0 pp0 ok0 e0]. apply (walk_stop D rest (mk_path lp0 u0 pp0 ok0 e0) e0 u0 H); [left|by left].
    apply size_none. cbn [u] in *. destruct Hend as [->|[-> ->]]; [lia|]. rewrite size_nil in Hl. lia. }
  apply wp_bind. apply wp_mono with (P := fun st => match st with
    | Some st => exists path, c_string (lp s) 0 = Ret path /\ mg_stat path = Some st | None => True end).
  { destruct (exists_ s); [|by apply wp_mret]. destruct (c_string_total (lp s) (wa_end _ _ _ H)) as (path & E & _).
    rewrite E, bind_Ret. apply wp_mret. destruct (mg_stat path) eqn:Es; [by exists path|done]. }
  intros st Hst. destruct st as [st|]; [case_bool_decide as Hreg|].
  - destruct (rd_total b (u s - 1)) as (c & Ec & Erd); [size_lia|]. rewrite Erd, bind_Ret. apply wp_mret.
    apply (walk_stop D rest s true _ H); [right|]; [destruct Hst as (path & ? & ?); by exists st, path|].
    destruct (Z.eqb_spec c 47) as [->|]; [right; split_and!; (done || lia)|by left].
  - cbn [u lp pp ok exists_]. destruct (Z.geb_spec (u s) cp_end) as [Hge|Hge].
    + apply wp_mret. apply (walk_stop D rest s _ _ H); [left; apply size_none; destruct Hend as [->|[-> ->]]; lia|by left].
    + eapply (component_turn D rest (mk_path (lp s) (u s) (pp s) (ok s) _)); [by apply walk_exists|].
      intros ->. destruct Hend as [->|[-> ->]]; rewrite size_nil in *; lia.
  - cbn [u lp pp ok exists_]. destruct (Z.geb_spec (u s) cp_end) as [Hge|Hge].
    + apply wp_mret. apply (walk_stop D rest s _ _ H); [left; apply size_none; destruct Hend as [->|[-> ->]]; lia|by left].
    + eapply (component_turn D rest (mk_path (lp s) (u s) (pp s) (ok s) _)); [by apply walk_exists|].
      intros ->. destruct Hend as [->|[-> ->]]; rewrite size_nil in *; lia.
Qed.

Lemma walk_loop D rest s n : walk_at D rest s -> cp_end - u s <= Z.of_nat n -> wp (loop (2 + n) (path_step mg_stat b cp_end ps) s) walked.
Proof.
  intros H Hn. apply (wp_loop (fun s => exists D rest, walk_at D rest s) (fun s => Z.to_nat (cp_end + 1 - u s))); [|by exists D, rest|lia].
  intros s' (D' & rest' & H'). eapply wp_mono; [by eapply walk_turn|]. intros [s''|r]; [|done]. intros [? ?]. split; [done|lia].
Qed.
End walk.

(** *** The whole function *)

(** The root without a slash at its end. *)
Definition trim (root : list Z) : list Z := if last root 0 =? DIRSEP then removelast root else root.

Lemma trim_spec root : root <> [] -> exists t, root = trim root ++ t /\ size t <= 1 /\
  (c ← rd root (size root - 1); mret (if c =? DIRSEP then size root - 1 else size root)) = Ret (size (trim root)).
Proof.
  intros Hne. destruct root as [|c root _] using rev_ind; [done|]. unfold trim. rewrite last_last, removelast_last.
  replace (size (root ++ [c]) - 1) with (size root) by size_lia. rewrite rd_at0, bind_Ret.
  destruct (Z.eqb_spec c DIRSEP) as [->|Hc].
  - by exists [DIRSEP].
  - exists []. by rewrite app_nil_r.
Qed.

(** The answer for the text [l] of a URI below [root]. *)
Definition path_of (mg_stat : list Z -> option cs_stat_t) (b l root : list Z) (r : option (list Z * mg_str)) : Prop :=
  match r with
  | None => resolve l = None
  | Some (path, remainder) => exists read rest stack,
      segs l = read ++ segs rest /\ l = concat read ++ rest /\ foldl push (Some []) read = Some stack /\
      path = join (trim root) stack /\ Forall safe_name stack /\
      (rest = [] \/ regular mg_stat path) /\ (str_bytes b remainder = rest \/ str_bytes b remainder = SLASH :: rest)
  end.

(** What is left of the URI at the end of the loop. *)
Lemma remainder_spec pre l post cp_end read rest us : cp_end = size pre + size l \/ (l = [] /\ cp_end = size pre - 1) -> l = concat read ++ rest ->
  us = size pre + size (concat read) \/ (us = size pre + size (concat read) - 1 /\ us < cp_end /\ rd (pre ++ l ++ post) us = Ret 47) ->
  let u' := if us >? cp_end then cp_end else us in
  let r := str_bytes (pre ++ l ++ post) (mk_str (Some u') (cp_end - u')) in r = rest \/ r = SLASH :: rest.
Proof.
  intros Hend Hl Hu u' r. pose proof (size_nonneg (concat read)). pose proof (size_nonneg rest). pose proof (size_nonneg pre).
  assert (Hd : l = [] -> concat read = [] /\ rest = []) by (intros E; rewrite E in Hl; symmetry in Hl; by apply app_nil in Hl).
  assert (Hs : size l = size (concat read) + size rest) by (rewrite Hl at 1; by rewrite size_app).
  assert (Hrest : slice (pre ++ l ++ post) (size pre + size (concat read)) (size rest) = rest)
    by (rewrite Hl, <- (app_assoc (concat read)), app_assoc; apply slice_mid; [by rewrite size_app|done]).
  unfold r, u', str_bytes. cbn [p Strs.len]. destruct Hend as [He|[El He]].
  - replace (us >? cp_end) with false by lia. destruct Hu as [->|(Hus & Hlt & Hr)].
    + left. etransitivity; [|exact Hrest]. f_equal. lia.
    + right. assert (0 <= us < size (pre ++ l ++ post)) as Hin by (destruct (decide (0 <= us < size (pre ++ l ++ post))); [done|by rewrite rd_oob in Hr]).
      destruct (rd_total (pre ++ l ++ post) us Hin) as (v & Hv & E).
      assert (v = 47) as -> by congruence. rewrite (slice_cons _ us _ 47) by (done || lia). f_equal. etransitivity; [|exact Hrest]. f_equal; lia.
  - destruct (Hd El) as [Hc ->]. rewrite Hc, size_nil in Hu. left. destruct Hu as [->|(? & ? & _)]; [|lia].
    replace (size pre + 0 >? cp_end) with true by lia. by rewrite Z.sub_diag, slice_nil.
Qed.

(** The text between [start] and the end of the URI, and the bytes around it. *)
Lemma cut_uri (b : list Z) start cp_end : 0 <= start <= cp_end -> cp_end <= size b -> start < size b -> exists (pre l post : list Z),
  b = pre ++ l ++ post /\ size pre = start + 1 /\ slice b (start + 1) (cp_end - (start + 1)) = l /\
  (cp_end = size pre + size l \/ (l = [] /\ cp_end = size pre - 1)).
Proof.
  intros H1 H2 H3. destruct (split_at b (start + 1)) as (pre & r & -> & Hp); [lia|]. pose proof (size_nonneg r).
  destruct (decide (start = cp_end)) as [->|Hne].
  - exists pre, [], r. split_and!; [done|done| |right; split; [done|lia]]. unfold slice. by replace (Z.to_nat (cp_end - (cp_end + 1))) with 0%nat by lia.
  - rewrite size_app in H2. destruct (split_at r (cp_end - (start + 1))) as (l & post & -> & Hl); [lia|].
    exists pre, l, post. split_and!; [done|done|by apply slice_mid|left; lia].
Qed.

Section local.
Context (mg_stat : list Z -> option cs_stat_t) (malloc : Z -> option (list Z)).
Context (Hmalloc : forall n m, malloc n = Some m -> size m = n /\ bytes m).

Lemma uri_to_local_path b hm opts cp n root start : huri hm = mk_str (Some cp) n -> bytes b -> 0 <= cp -> cp + n <= size b ->
  choose_root b hm cp opts = Ret (root, start) -> cp <= start <= cp + n -> start < size b -> root <> [] -> bytes root -> 0 ∉ root ->
  size root + n + 1 < 2 ^ 31 ->
  wp (mg_uri_to_local_path mg_stat malloc b hm opts) (fun r =>
    (r = None /\ malloc (size root + n + 1) = None) \/
    (path_of mg_stat b (slice b (start + 1) (cp + n - (start + 1))) root r /\
     match r with Some (path, remainder) => size path <= size root + n /\ str_in b remainder /\ p remainder <> None | None => True end)).
Proof.
  intros Eu Hb H0 Hn Ec Hs Hsb Hne Hbr Hr H31. unfold mg_uri_to_local_path. rewrite Eu. cbn [p deref Strs.len]. rewrite Ec, bind_Ret.
  destruct (malloc _) as [m|] eqn:Em; [|apply wp_mret; by left]. apply Hmalloc in Em as [Hm Hbm].
  destruct (trim_spec root Hne) as (t & Et & Ht & Etrim). pose proof (size_nonneg root). pose proof (size_nonneg t). pose proof (size_nonneg (trim root)).
  pose proof (f_equal size Et) as Hst. rewrite size_app in Hst. rewrite memcpy_start, bind_Ret by lia. unfold fill. set (tl := drop (length root) m).
  assert (Htl : size tl = n + 1) by (unfold tl, size in *; rewrite length_drop; lia).
  assert (Hsr : 0 < size root) by (destruct root; [done|pose proof (size_nonneg root); size_lia]).
  rewrite rd_app_l by lia. destruct (rd_total root (size root - 1)) as (c & _ & Erd); [lia|]. rewrite Erd in Etrim. injection Etrim as Etrim. rewrite Erd, bind_Ret, Etrim.
  assert (root ++ tl = trim root ++ t ++ tl) as -> by (rewrite Et at 1; by rewrite <- app_assoc). destruct (write_next (trim root) (t ++ tl) [] (size (trim root)) 0) as (j & E & Hj & Hbj); [done| |by split| |].
  { intros E. apply (f_equal size) in E. rewrite size_app, size_nil in E. lia. }
  { rewrite app_nil_r, app_assoc, <- Et. apply Forall_app_2; [done|]. unfold tl. by apply Forall_drop. }
  rewrite (app_nil_r (t ++ tl)), (app_nil_r j) in E. rewrite (app_nil_r j) in Hbj. rewrite E, bind_Ret.
  destruct (cut_uri b start (cp + n)) as (pre & l & post & -> & Hp & Hl & Hend); [lia|lia|lia|]. rewrite Hl.
  assert (Hwalk : walk_at (trim root) pre l (size root + n + 1) [] l (mk_path (trim root ++ 0 :: j) (start + 1) (size (trim root)) true true)).
  { split; cbn [lp u pp ok]; try done; [change (size (concat [])) with 0; lia|rewrite size_app, size_cons; rewrite size_app in Hj; lia| |lia| |].
    - apply elem_of_app. right. by left.
    - destruct (decide (l = [])); [by left|right]. destruct Hend as [?|[? _]]; [lia|done].
    - simpl. split; [done|]. split; [apply Forall_nil_2|]. exists j. unfold join. simpl. by rewrite app_nil_r. }
  assert (Hrt : 0 ∉ trim root) by (rewrite Et in Hr; intros Hin; apply Hr, elem_of_app; by left).
  destruct (walk_loop mg_stat (trim root) pre l post (size root + n + 1) (cp + n) Hb Hrt) with (D := @nil (list Z)) (rest := l)
    (s := mk_path (trim root ++ 0 :: j) (start + 1) (size (trim root)) true true) (n := Z.to_nat n) as (s & Es & Hw); [|lia|done|done|cbn [u]; lia|].
  { intros ->. rewrite size_nil in Hp. lia. }
  rewrite Es, bind_Ret. unfold walked in Hw. destruct (ok s); [|apply wp_mret; right; by split].
  destruct Hw as (read & rest & stack & junk & El & Esg & Efold & Hsafe & Elp & HsN & Hreg & Hu).
  rewrite Elp, c_string_prefix, bind_Ret by by apply joined_no_nul. apply wp_mret. right. split; cycle 1.
  { rewrite Elp, size_app, size_cons in HsN. pose proof (size_nonneg junk). split; [lia|]. split; [|done].
    assert (0 <= u s) by (pose proof (size_nonneg (concat read)); destruct Hu as [->|[-> _]]; lia).
    unfold str_in. cbn [p Strs.len]. destruct (Z.gtb_spec (u s) (cp + n)); split_and!; lia. }
  exists read, rest, stack. split_and!; try done.
  by apply (remainder_spec pre l post (cp + n) read rest (u s)).
Qed.
End local.
