(* ===== verification/Digest.v ===== *)
(** * Authentication by digest (mongoose.c, http.c)

    The variables of an Authorization header, the digest of RFC 2617 over MD5,
    and the passwords file.  The clock, the files and what the arrays of the
    stack hold are arguments. *)

From Stdlib Require Import ZArith Lia String.
From stdpp Require Import base list numbers option.
From S2P Require Import Prelude Strs Md5 Addr Http HttpServer Files.

Local Open Scope Z_scope.

(** ** The code *)

(** *** Variables of a header *)

(** Where the variable starts: after a blank or a comma, before an equals sign. *)
Definition find_variable (b : list Z) (hp e : Z) (var_name : list Z) : outcome Z :=
  let n := size var_name in
  loop (S (Z.to_nat (e - hp))) (fun s =>
    if s + n <? e then
      first ← (if s =? hp then mret true else c ← rd b (s - 1); mret ((c =? 32) || (c =? 44)));
      eq ← (if first : bool then c ← rd b (s + n); mret (c =? 61) else mret false);
      d ← (if eq : bool then memcmp b s var_name 0 n else mret 1);
      if d =? 0 then mret (inr s) else mret (inl (s + 1))
    else mret (inr s)) hp.

(** The value is copied until [ch] or [ch1]; a backslash quotes the quote. *)
Definition copy_value (b : list Z) (e ch ch1 buf_size : Z) (st : Z * list Z * Z) : outcome (Z * list Z * Z + Z * list Z * Z) :=
  let '(q, buf, len) := st in
  go ← (if q <? e then c ← rd b q; mret (negb (c =? ch) && negb (c =? ch1) && (len <? s32 buf_size)) else mret false);
  if go : bool then
    c ← rd b q;
    q ← (if negb (ch =? 32) && (c =? 92) then c' ← rd b (q + 1); mret (if c' =? ch then q + 1 else q) else mret q);
    c ← rd b q;
    buf ← wr buf len c;
    mret (inl (q + 1, buf, len + 1))
  else mret (inr (q, buf, len)).

(** A comma or a semicolon at the end of the source is not part of the value. *)
Definition strip_last (b : list Z) (s len c : Z) : outcome Z :=
  if len >? 0 then x ← rd b (s + len - 1); mret (if x =? c then len - 1 else len) else mret len.

(** The length of the value, which is written to [buf] with a terminator, or 0. *)
Definition mg_http_parse_header (b : list Z) (hdr : mg_str) (var_name : list Z) (buf : list Z) : outcome (list Z * Z) :=
  let n := size var_name in let buf_size := size buf in
  buf ← (if buf_size >? 0 then wr buf 0 0 else mret buf);
  match p hdr with
  | None => mret (buf, 0)
  | Some hp =>
      let e := hp + Strs.len hdr in
      s ← find_variable b hp e var_name;
      if s + n + 1 <? e then
        let s := s + n + 1 in
        c ← rd b s;
        let '(s, ch, ch1) := if (c =? 34) || (c =? 39) then (s + 1, c, c) else (s, 32, 44) in
        '(q, buf, len) ← loop (S (Z.to_nat (e - s))) (copy_value b e ch ch1 buf_size) (s, buf, 0);
        bad ← (if len >=? s32 buf_size then mret true else
          if negb (ch =? 32) then c ← rd b q; mret (negb (c =? ch)) else mret false);
        if bad : bool then mret (buf, 0) else
        len ← strip_last b s len 44;
        len ← strip_last b s len 59;
        buf ← wr buf len 0;
        mret (buf, len)
      else mret (buf, 0)
  end.

(** *** The digest *)

(** [ha2] and [resp] are the arrays; each digest is 32 characters. *)
Definition mg_mkmd5resp (junk ha2 resp method uri ha1 nonce nc cnonce qop : list Z) : outcome (list Z) :=
  let arg (s : list Z) := (s, size s) in
  let colon := arg (lit ":") in
  ha2 ← cs_md5 junk ha2 [arg method; colon; arg uri];
  cs_md5 junk resp [arg ha1; colon; arg nonce; colon; arg nc; colon; arg cnonce; colon; arg qop; colon; (ha2, 32)].

(** [strtoul(nonce, NULL, 16)], which saturates. *)
Definition strtoul16 (t : list Z) : Z :=
  let t := drop_while isspace t in
  let '(neg, t) := match t with 45 :: t => (true, t) | 43 :: t => (false, t) | _ => (false, t) end in
  let t := match t with 48 :: x :: h :: r => if ((x =? 120) || (x =? 88)) && isxdigit h then h :: r else t | _ => t end in
  let v := fold_left (fun v c => v * 16 + xdigit_value c) (take_while isxdigit t) 0 in
  if v >? 2 ^ 64 - 1 then 2 ^ 64 - 1 else if neg then u64 (- v) else v.

Definition mg_check_nonce (now : Z) (nonce : list Z) : bool :=
  let val := strtoul16 nonce in (now <? val) || (u64 (now - val) <? 3600).

(** [sscanf(buf, "%[^:]:%[^:]:%s", ...)] *)
Definition password_line : list directive :=
  let field := Scanset (fun c => negb (c =? 58)) None in [field; Lit 58; field; Lit 58; Word].

(** The fields of the header, in the arrays of these sizes. *)
Definition digest_fields : list (list Z * nat) :=
  [(lit "username", 50%nat); (lit "cnonce", 33%nat); (lit "response", 40%nat); (lit "uri", 200%nat);
   (lit "qop", 20%nat); (lit "nc", 20%nat); (lit "nonce", 30%nat)].

(** The values as C strings, [None] at the first variable that is missing. *)
Fixpoint read_fields (b : list Z) (hdr : mg_str) (stack : nat -> list Z) (fields : list (list Z * nat)) : outcome (option (list (list Z))) :=
  match fields with
  | [] => mret (Some [])
  | (name, n) :: fields =>
      '(buf, len) ← mg_http_parse_header b hdr name (stack n);
      if len =? 0 then mret None else
      v ← cstr buf 0;
      r ← read_fields b hdr stack fields;
      mret (option_map (cons v) r)
  end.

Section auth.
(** What an array of so many bytes holds before it is written. *)
Context (now : Z) (stack : nat -> list Z).

(** One line of the passwords file: an answer, or the rest of the file. *)
Definition password_step (method uri user cnonce response qop nc nonce auth_domain : list Z) (st : list Z * list Z) :
    outcome (list Z * list Z + bool) :=
  let '(buf, fp) := st in
  g ← fgets buf 128 fp;
  match g with
  | None => mret (inr false)
  | Some (fp, buf) =>
      line ← cstr buf 0;
      '(r, l) ← sscanf password_line line;
      if (r =? 3) && bool_decide (user = word l 0) && bool_decide (auth_domain = word l 1) then
        expected_response ← mg_mkmd5resp (stack 64%nat) (stack 33%nat) (stack 33%nat) method uri (word l 2) nonce nc cnonce qop;
        d ← mg_casecmp (response ++ [0]) 0 expected_response 0;
        mret (inr (d =? 0))
      else mret (inl (buf, fp))
  end.

Definition mg_http_check_digest_auth (b : list Z) (hm : http_message) (auth_domain : list Z) (fp : option (list Z)) : outcome bool :=
  match fp with
  | None => mret false
  | Some fp =>
      hdr ← mg_get_http_header b hm (lit "Authorization");
      match hdr with
      | None => mret false
      | Some hdr =>
          fields ← read_fields b hdr stack digest_fields;
          match fields with
          | Some [user; cnonce; response; uri; qop; nc; nonce] =>
              if negb (mg_check_nonce now nonce) then mret false else
              m ← str_at b (method hm);
              u ← str_at b (mk_str (p (huri hm))
                    (Strs.len (huri hm) + (if Strs.len (query_string hm) =? 0 then 0 else Strs.len (query_string hm) + 1)));
              loop (S (length fp)) (password_step m u user cnonce response qop nc nonce auth_domain) (stack 128, fp)
          | _ => mret false
          end
      end
  end.

(** [fopen] for reading gives the contents of the file. *)
Context (fopen : list Z -> option (list Z)).
Definition MG_MAX_PATH : Z := 4096.

(** What [snprintf] leaves in an array of [MG_MAX_PATH] bytes. *)
Definition printed (t : list Z) : list Z := take (Z.to_nat (MG_MAX_PATH - 1)) t.

(** The folder of a path: up to its last slash. *)
Definition folder_of (path : list Z) : list Z :=
  rev (drop 1 (drop_while (fun c => negb (c =? DIRSEP)) (rev path))).

Definition mg_is_authorized (b : list Z) (hm : http_message) (path : list Z) (is_directory : bool) (domain passwords_file : option (list Z))
    (is_global_pass_file : bool) : outcome bool :=
  match domain, passwords_file with
  | Some domain, Some file =>
      let name := if is_global_pass_file then file
        else if is_directory then printed (path ++ [DIRSEP] ++ file)
        else printed (folder_of path ++ [DIRSEP] ++ file) in
      match fopen name with
      | Some fp => mg_http_check_digest_auth b hm domain (Some fp)
      | None => mret true
      end
  | _, _ => mret true
  end.

End auth.

Definition quoted (s : list Z) : list Z := [34] ++ s ++ [34].

(** The request for a password: the clock is the nonce, in decimal. *)
Definition mg_http_send_digest_auth_request (now : Z) (malloc udp : bool) (c : Conn.conn) (domain : list Z) : outcome Conn.conn :=
  mg_printf malloc udp c (lit "HTTP/1.1 401 Unauthorized" ++ CRLF ++ lit "WWW-Authenticate: Digest qop=" ++ quoted (lit "auth") ++
    lit ", realm=" ++ quoted domain ++ lit ", nonce=" ++ quoted (digits_in 10 20 (u64 now) []) ++ CRLF ++
    lit "Content-Length: 0" ++ CRLF ++ CRLF).

(** [snprintf(buf, sizeof(buf), ...)] of this text. *)
Definition snprintf_text (buf text : list Z) : outcome (list Z * Z) :=
  if size buf =? 0 then mret (buf, size text) else
  let t := take (Z.to_nat (size buf - 1)) text ++ [0] in
  buf ← memcpy buf 0 t 0 (size t);
  mret (buf, size text).

(** The header that answers such a request, whose nonce is the clock in hexadecimal. *)
Definition mg_http_create_digest_auth_header (now : Z) (stack : nat -> list Z) (buf method uri auth_domain user passwd : list Z) : outcome (list Z * Z) :=
  let arg (s : list Z) := (s, size s) in
  let colon := arg (lit ":") in
  let qop := lit "auth" in
  '(cnonce, _) ← snprintf_text (stack 40%nat) (map tolower (digits_in 16 8 (u32 now) []));
  cnonce ← cstr cnonce 0;
  ha1 ← cs_md5 (stack 64%nat) (stack 33%nat) [arg user; colon; arg auth_domain; colon; arg passwd];
  resp ← mg_mkmd5resp (stack 64%nat) (stack 33%nat) (stack 33%nat) method uri (take 32 ha1) cnonce (lit "1") cnonce qop;
  resp ← cstr resp 0;
  snprintf_text buf (lit "Authorization: Digest username=" ++ quoted user ++ lit ",realm=" ++ quoted auth_domain ++ lit ",uri=" ++ quoted uri ++
    lit ",qop=" ++ qop ++ lit ",nc=1,cnonce=" ++ cnonce ++ lit ",nonce=" ++ cnonce ++ lit ",response=" ++ resp ++ CRLF).

(** ** Examples *)

Definition stack_ones (n : nat) : list Z := replicate n 1.

(** The header is made for a request and put into it, and the server checks it
    [later] seconds later. *)
Definition auth_request (now : Z) (uri user passwd : string) : outcome (list Z) :=
  '(buf, n) ← mg_http_create_digest_auth_header now stack_ones (replicate 400 1) (lit "GET") (lit uri) (lit "jobify") (lit user) (lit passwd);
  h ← cstr buf 0;
  mret (lit "GET " ++ lit uri ++ lit " HTTP/1.1" ++ CRLF ++ h ++ CRLF).

Definition checked (later now : Z) (rq fp : list Z) : outcome bool :=
  '(n, hm) ← mg_parse_http rq 0 (size rq) http0 true;
  mg_http_check_digest_auth (now + later) stack_ones rq hm (lit "jobify") (Some fp).

(** The entry of a user in the passwords file. *)
Definition htdigest (user passwd : string) : outcome (list Z) :=
  ha1 ← cs_md5 (stack_ones 64%nat) (stack_ones 33%nat) (map (fun s => (s, size s)) [lit user; lit ":"; lit "jobify"; lit ":"; lit passwd]);
  mret (lit user ++ lit ":jobify:" ++ take 32 ha1 ++ [10]).

Example auth_ok : (f1 ← htdigest "leo" "x"; f2 ← htdigest "ana" "pw"; rq ← auth_request 1479000000 "/a" "ana" "pw"; checked 5 1479000000 rq (f1 ++ f2)) = Ret true.
Proof. vm_compute. reflexivity. Qed.
Example auth_wrong : (f ← htdigest "ana" "pw"; rq ← auth_request 1479000000 "/a" "ana" "PW"; checked 5 1479000000 rq f) = Ret false.
Proof. vm_compute. reflexivity. Qed.
Example auth_expired : (f ← htdigest "ana" "pw"; rq ← auth_request 1479000000 "/a" "ana" "pw"; checked 3600 1479000000 rq f) = Ret false.
Proof. vm_compute. reflexivity. Qed.

(** ** A nonce of the server does not expire *)

Lemma decimal_digits : forall fuel v acc, 0 <= v < 10 ^ Z.of_nat fuel -> (0 < fuel)%nat -> exists ds, digits_in 10 fuel v acc = ds ++ acc /\ ds <> [] /\
  Forall (fun x => isdigit x = true) ds /\ forall k, 0 <= k -> 10 ^ k <= v -> 16 ^ k <= xval ds.
Proof.
  induction fuel as [|fuel IH]; intros v acc Hv Hf; [lia|]. cbn [digits_in].
  assert (Hm : 0 <= v mod 10 < 10) by (apply Z.mod_pos_bound; lia).
  assert (Hd : isdigit (hex_digit (v mod 10)) = true /\ xdigit_value (hex_digit (v mod 10)) = v mod 10).
  { unfold hex_digit, xdigit_value. replace (v mod 10 <? 10) with true by lia. assert (isdigit (48 + v mod 10) = true) as E by (unfold isdigit; lia). rewrite E. split; [done|lia]. }
  destruct Hd as [Hd Hx]. destruct (Z.eqb_spec (v / 10) 0) as [E|E].
  - exists [hex_digit (v mod 10)]. split_and!; [done|done|by constructor|]. intros k Hk Hp. unfold xval. cbn [fold_left]. rewrite Hx.
    assert (k = 0) as -> by (destruct (decide (k = 0)); [done|]; pose proof (Z.pow_le_mono_r 10 1 k); euclid). simpl in *. euclid.
  - rewrite Nat2Z.inj_succ, Z.pow_succ_r in Hv by lia. destruct fuel as [|fuel]; [cbn in Hv; euclid|].
    destruct (IH (v / 10) (hex_digit (v mod 10) :: acc)) as (ds & E1 & Hne & Hds & Hk); [euclid|lia|]. exists (ds ++ [hex_digit (v mod 10)]). split_and!.
    + by rewrite E1, <- app_assoc.
    + by destruct ds.
    + by apply Forall_app_2; [|constructor].
    + intros k Hk0 Hp. unfold xval in *. rewrite fold_left_app. cbn [fold_left]. rewrite Hx. destruct (decide (k = 0)) as [->|].
      * specialize (Hk 0 ltac:(lia) ltac:(simpl; euclid)). simpl in *. lia.
      * specialize (Hk (k - 1) ltac:(lia)). replace k with (Z.succ (k - 1)) in Hp |- * by lia. rewrite Z.pow_succ_r in Hp |- * by lia.
        assert (10 ^ (k - 1) <= v / 10) by euclid. specialize (Hk ltac:(done)). lia.
Qed.

Lemma digit_cases d : isdigit d = true -> d ∈ [48; 49; 50; 51; 52; 53; 54; 55; 56; 57].
Proof. unfold isdigit. intros H. rewrite !elem_of_cons. lia. Qed.

Lemma strtoul16_digits ds : ds <> [] -> Forall (fun x => isdigit x = true) ds -> strtoul16 ds = Z.min (xval ds) (2 ^ 64 - 1).
Proof.
  intros Hne Hds. assert (Hx : take_while isxdigit ds = ds).
  { apply take_while_id. eapply Forall_impl; [|exact Hds]. intros x Hx. unfold isxdigit. by rewrite Hx. }
  assert (Hv : forall v, (if v >? 2 ^ 64 - 1 then 2 ^ 64 - 1 else v) = Z.min v (2 ^ 64 - 1)) by (intros v; case_match; lia).
  transitivity (let v := fold_left (fun v c => v * 16 + xdigit_value c) (take_while isxdigit ds) 0 in if v >? 2 ^ 64 - 1 then 2 ^ 64 - 1 else v);
    [clear Hx Hv|rewrite Hx; apply Hv].
  unfold strtoul16. destruct ds as [|d ds]; [done|]. apply Forall_cons_1 in Hds as [Hd Hds].
  apply digit_cases in Hd. repeat (apply elem_of_cons in Hd as [->|Hd]; [|]); [..|by apply elem_of_nil in Hd]; try reflexivity.
  destruct ds as [|x [|h r]]; [reflexivity..|]. apply Forall_cons_1 in Hds as [Hd _]. unfold isdigit in Hd.
  cbn [drop_while]. change (isspace 48) with false. cbn iota. replace ((x =? 120) || (x =? 88)) with false by lia. reflexivity.
Qed.

(** [mg_check_nonce] reads in base 16 what [mg_http_send_digest_auth_request]
    wrote in base 10: a nonce of any time after the year 2001 is good until the
    year 4147, however old it is. *)
Lemma nonce_never_expires issued now : 10 ^ 9 <= issued < 10 ^ 19 -> 0 <= now < 2 ^ 36 -> mg_check_nonce now (digits_in 10 20 (u64 issued) []) = true.
Proof.
  intros Hi Hn. rewrite u64_small by lia. destruct (decimal_digits 20 issued []) as (ds & -> & Hne & Hds & Hk); [lia|lia|].
  specialize (Hk 9 ltac:(lia) ltac:(lia)). rewrite app_nil_r. unfold mg_check_nonce. apply orb_true_intro. left. apply Z.ltb_lt.
  rewrite strtoul16_digits by done. change (16 ^ 9) with (2 ^ 36) in Hk. lia.
Qed.
