(* ===== verification/Serve.v ===== *)
(** * Serving files (mongoose.c, http.c)

    [mg_serve_http] and [mg_send_http_file] over Files and Digest: which answer a
    request gets.  The answer is a value of [file_action]; CGI, SSI and WebDAV
    are only named; Transfer and Listing send the others. *)

From Stdlib Require Import ZArith Lia String.
From stdpp Require Import base list numbers option.
From S2P Require Import Prelude Strs Uri Cpp Addr Http HttpServer Forms Files Digest.

Local Open Scope Z_scope.

(** ** The code *)

(** *** Addresses and dates *)

Definition MG_SOCK_STRINGIFY_IP : Z := 1.
Definition MG_SOCK_STRINGIFY_PORT : Z := 2.

(** What is written into a buffer of [len] bytes, without IPv6; the octets of
    the address are in the order of the network. *)
Definition mg_sock_addr_to_str (octets : list Z) (port len flags : Z) : list Z :=
  if len <=? 0 then [] else
  let ip := if Z.testbit flags 0 then
      let t := concat (map (fun a => to_string a ++ [46]) (take 3 octets)) ++ concat (map to_string (drop 3 octets)) in
      if size t <? len then t else []
    else [] in
  if Z.testbit flags 1 then
    if Z.testbit flags 0 then ip ++ take (Z.to_nat (len - size ip - 2)) (lit ":" ++ to_string port)
    else take (Z.to_nat (len - 1)) (to_string port)
  else ip.

Definition month_names : list (list Z) :=
  [lit "Jan"; lit "Feb"; lit "Mar"; lit "Apr"; lit "May"; lit "Jun"; lit "Jul"; lit "Aug"; lit "Sep"; lit "Oct"; lit "Nov"; lit "Dec"].

Fixpoint month_index (s : list Z) (i : Z) (names : list (list Z)) : Z :=
  match names with [] => -1 | m :: names => if bool_decide (s = m) then i else month_index s (i + 1) names end.
Definition mg_get_month_index (s : list Z) : Z := month_index s 0 month_names.

Definition mg_num_leap_years (year : Z) : Z := Z.quot year 4 - Z.quot year 100 + Z.quot year 400.

Definition days_before_month : list Z := [0; 31; 59; 90; 120; 151; 181; 212; 243; 273; 304; 334].

(** The seconds since 1970, in [int]. *)
Definition date_value (day month year hour minute second : Z) : outcome Z :=
  let leap_days := mg_num_leap_years year - mg_num_leap_years 1970 in
  let year := year - 1970 in
  before ← rd days_before_month month;
  y ← int (year * 365);
  d ← int (y + before);
  d1 ← int (day - 1);
  d ← int (d + d1);
  days ← int (d + leap_days);
  h24 ← int (days * 24);
  s ← int (h24 * 3600);
  h ← int (hour * 3600);
  s ← int (s + h);
  m ← int (minute * 60);
  s ← int (s + m);
  int (s + second).

(** The formats, with ["%3s"] as a word of at most three characters; the word of
    ["%*3s"] is read and not kept. *)
Definition word3 : list directive := [Blank; Scanset (fun c => negb (isspace c)) (Some 3%nat)].
Definition clock : list directive := [Blank] ++ format (lit "%d:%d:%d").
Definition date_formats : list (list directive * nat) :=
  [(format (lit "%d/") ++ word3 ++ format (lit "/%d") ++ clock, 0%nat);
   (format (lit "%d ") ++ word3 ++ format (lit " %d") ++ clock, 0%nat);
   (word3 ++ format (lit ", %d ") ++ word3 ++ format (lit " %d") ++ clock, 1%nat);
   (format (lit "%d-") ++ word3 ++ format (lit "-%d") ++ clock, 0%nat)].

(** The six values of the first format that reads all of them. *)
Fixpoint scan_date (t : list Z) (formats : list (list directive * nat)) : outcome (option (list scanned)) :=
  match formats with
  | [] => mret None
  | (f, skipped) :: formats =>
      '(r, l) ← sscanf f t;
      if r =? 6 + Z.of_nat skipped then mret (Some (drop skipped l)) else scan_date t formats
  end.

Definition mg_parse_date_string (datetime : list Z) : outcome Z :=
  l ← scan_date datetime date_formats;
  match l with
  | Some l =>
      let month := mg_get_month_index (word l 1) in
      if (num l 2 >? 1970) && negb (month =? -1) then
        date_value (num l 0) month (num l 2) (num l 3) (num l 4) (num l 5)
      else mret 0
  | None => mret 0
  end.

(** The time of the last change in hexadecimal and the size, between quotes. *)
Definition mg_http_construct_etag (st : cs_stat_t) : list Z :=
  quoted (map tolower (digits_in 16 16 (u64 (st_mtime st)) []) ++ lit "." ++ to_string (st_size st)).

Definition mg_is_not_modified (b : list Z) (hm : http_message) (st : cs_stat_t) : outcome bool :=
  hdr ← mg_get_http_header b hm (lit "If-None-Match");
  match hdr with
  | Some hdr => d ← mg_vcasecmp b hdr (mg_http_construct_etag st); mret (d =? 0)
  | None =>
      hdr ← mg_get_http_header b hm (lit "If-Modified-Since");
      match hdr with
      | Some hdr => deref (p hdr) (fun q => t ← cstr b q; d ← mg_parse_date_string t; mret (st_mtime st <=? d))
      | None => mret false
      end
  end.

(** *** The type of a file *)

Definition mg_static_builtin_mime_types : list (string * string) :=
  [("html", "text/html"); ("html", "text/html"); ("htm", "text/html"); ("shtm", "text/html"); ("shtml", "text/html");
   ("css", "text/css"); ("js", "application/x-javascript"); ("ico", "image/x-icon"); ("gif", "image/gif"); ("jpg", "image/jpeg");
   ("jpeg", "image/jpeg"); ("png", "image/png"); ("svg", "image/svg+xml"); ("txt", "text/plain"); ("torrent", "application/x-bittorrent");
   ("wav", "audio/x-wav"); ("mp3", "audio/x-mp3"); ("mid", "audio/mid"); ("m3u", "audio/x-mpegurl"); ("ogg", "application/ogg");
   ("ram", "audio/x-pn-realaudio"); ("xml", "text/xml"); ("ttf", "application/x-font-ttf"); ("json", "application/json");
   ("xslt", "application/xml"); ("xsl", "application/xml"); ("ra", "audio/x-pn-realaudio"); ("doc", "application/msword");
   ("exe", "application/octet-stream"); ("zip", "application/x-zip-compressed"); ("xls", "application/excel");
   ("tgz", "application/x-tar-gz"); ("tar", "application/x-tar"); ("gz", "application/x-gunzip"); ("arj", "application/x-arj-compressed");
   ("rar", "application/x-rar-compressed"); ("rtf", "application/rtf"); ("pdf", "application/pdf"); ("swf", "application/x-shockwave-flash");
   ("mpg", "video/mpeg"); ("webm", "video/webm"); ("mpeg", "video/mpeg"); ("mov", "video/quicktime"); ("mp4", "video/mp4");
   ("m4v", "video/x-m4v"); ("asf", "video/x-ms-asf"); ("avi", "video/x-msvideo"); ("bmp", "image/bmp")]%string.

Fixpoint builtin_type (path : list Z) (types : list (string * string)) : outcome (option (list Z)) :=
  match types with
  | [] => mret None
  | (extension, mime_type) :: types =>
      let path_len := size path in let ext_len := size (lit extension) in
      dot ← (if path_len >? ext_len then c ← rd path (path_len - ext_len - 1); mret (c =? 46) else mret false);
      d ← (if dot : bool then mg_casecmp (path ++ [0]) (path_len - ext_len) (lit extension ++ [0]) 0 else mret 1);
      if d =? 0 then mret (Some (lit mime_type)) else builtin_type path types
  end.

(** An entry of the types of the user whose key ends the path. *)
Definition custom_type (path overrides : list Z) : outcome (option (list Z)) :=
  loop (S (length overrides)) (fun l =>
    ent ← mg_next_comma_list_entry (overrides ++ [0]) (Some l) true;
    match ent with
    | Some (l, k, Some v) =>
        let path_len := size path in
        d ← (if path_len >? Strs.len k then mg_vcasecmp (overrides ++ [0]) k (drop (Z.to_nat (path_len - Strs.len k)) path) else mret 1);
        if d =? 0 then mret (inr (Some (str_bytes (overrides ++ [0]) v))) else mret (inl l)
    | _ => mret (inr None)
    end) 0.

Definition mg_get_mime_type (path dflt : list Z) (opts : mg_serve_http_opts) : outcome (list Z) :=
  custom ← match custom_mime_types opts with Some o => custom_type path o | None => mret None end;
  match custom with
  | Some v => mret v
  | None => r ← builtin_type path mg_static_builtin_mime_types; mret (default dflt r)
  end.

(** *** Which answer *)

Definition last_name (path : list Z) : Z * list Z :=
  let nm := rev (take_while (fun c => negb (c =? DIRSEP)) (rev path)) in (size path - size nm, nm).

Definition mg_is_file_hidden (path : list Z) (opts : mg_serve_http_opts) (exclude_specials : bool) : outcome bool :=
  let '(q, nm) := last_name path in
  if exclude_specials && is_dots nm then mret true else
  h1 ← match per_directory_auth_file opts with
    | Some p1 => r ← mg_match_prefix p1 (size p1) (path ++ [0]) q; mret (r =? s32 (size p1))
    | None => mret false
    end;
  if h1 : bool then mret true else
  match hidden_file_pattern opts with
  | Some p2 => r ← mg_match_prefix p2 (size p2) (path ++ [0]) q; mret (r >? 0)
  | None => mret false
  end.

Inductive file_action :=
| SendError (code : Z) (reason : list Z)
| Moved (uri : list Z)           (* 301, from a folder to its name with a slash *)
| Redirected (location : list Z) (* 301, by the rewrites *)
| AskPassword (domain : option (list Z))
| RunCgi (path path_info : list Z)
| Dav (method : list Z) (path : list Z)
| SendOptions
| SendListing (path : list Z)
| RunSsi (path : list Z)
| SendFile (path mime_type : list Z).

Section serve.
Context (mg_stat : list Z -> option cs_stat_t) (malloc : Z -> option (list Z)) (fopen : list Z -> option (list Z)).
Context (now : Z) (stack : nat -> list Z) (local_port remote_ip : Z).

(** The index file with what [stat] says of it. *)
Definition mg_find_index_file (path lst : list Z) : outcome (option (list Z * cs_stat_t)) :=
  loop (S (length lst)) (fun l =>
    ent ← mg_next_comma_list_entry (lst ++ [0]) (Some l) false;
    match ent with
    | Some (l, vec, _) =>
        let index_file := path ++ [DIRSEP] ++ str_bytes (lst ++ [0]) vec in
        match malloc (size index_file + 1) with
        | None => mret (inr None)
        | Some _ =>
            match mg_stat index_file with
            | Some st => if bool_decide (st_mode st = S_REG) then mret (inr (Some (index_file, st))) else mret (inl l)
            | None => mret (inl l)
            end
        end
    | None => mret (inr None)
    end) 0.

Definition is_method (b : list Z) (hm : http_message) (m : string) : outcome bool :=
  d ← mg_vcmp b (method hm) (lit m); mret (d =? 0).

(** The first of the methods of WebDAV that is the method of the request. *)
Fixpoint dav_method (b : list Z) (hm : http_message) (l : list string) : outcome (option (list Z)) :=
  match l with
  | [] => mret None
  | m :: l => y ← is_method b hm m; if y : bool then mret (Some (lit m)) else dav_method b hm l
  end.

Definition mg_send_http_file (b : list Z) (hm : http_message) (opts : mg_serve_http_opts) (path : list Z) (path_info : mg_str) : outcome file_action :=
  is_dav ← mg_is_dav_request b (method hm);
  let st := mg_stat path in
  let exists_ := bool_decide (is_Some st) in
  let is_directory := match st with Some st => bool_decide (st_mode st = S_DIR) | None => false end in
  index ← (if is_directory then match index_files opts with Some l => mg_find_index_file path l | None => mret None end else mret None);
  let file := match index with Some (f, _) => f | None => path end in
  let st := match index with Some (_, st) => Some st | None => st end in
  cgi ← match cgi_file_pattern opts with Some pat => mg_match_prefix pat (size pat) (file ++ [0]) 0 | None => Fault NullPointer end;
  let is_cgi := cgi >? 0 in
  slash ← (if is_directory then deref (p (huri hm)) (fun q => c ← rd b (q + Strs.len (huri hm) - 1); mret (c =? 47)) else mret true);
  if negb slash && negb is_dav then uri ← str_at b (huri hm); mret (Moved uri) else
  if (Strs.len path_info >? 0) && negb is_cgi then mret (SendError 501 []) else
  if is_dav && bool_decide (dav_document_root opts = None) then mret (SendError 501 []) else
  ok1 ← mg_is_authorized now stack fopen b hm path is_directory (auth_domain opts) (global_auth_file opts) true;
  ok2 ← (if ok1 : bool then mg_is_authorized now stack fopen b hm path is_directory (auth_domain opts) (per_directory_auth_file opts) false else mret true);
  if negb (ok1 && ok2) then mret (AskPassword (auth_domain opts)) else
  if is_cgi then info ← str_at b path_info; mret (RunCgi file info) else
  missing ← (if exists_ then mg_is_file_hidden path opts false else mret true);
  creation ← (if missing : bool then mg_is_creation_request b hm else mret true);
  if missing && negb creation then mret (SendError 404 []) else
  propfind ← is_method b hm "PROPFIND";
  if propfind : bool then mret (Dav (lit "PROPFIND") path) else
  allowed ← (if is_dav then
      match dav_auth_file opts with
      | None => mret false
      | Some f => if bool_decide (f = lit "-") then mret true
          else mg_is_authorized now stack fopen b hm path is_directory (auth_domain opts) (Some f) true
      end
    else mret true);
  if negb allowed then mret (AskPassword (auth_domain opts)) else
  dav ← dav_method b hm ["MKCOL"; "DELETE"; "PUT"; "MOVE"]%string;
  match dav with
  | Some m => mret (Dav m path)
  | None =>
      options ← is_method b hm "OPTIONS";
      if options : bool then mret SendOptions else
      if is_directory && bool_decide (index = None) then
        match enable_directory_listing opts with
        | Some yes => if bool_decide (yes = lit "yes") then mret (SendListing path) else mret (SendError 403 [])
        | None => Fault NullPointer
        end
      else
        match st with
        | None => Fault Uninitialised
        | Some st =>
            same ← mg_is_not_modified b hm st;
            if same : bool then mret (SendError 304 (lit "Not Modified")) else
            ssi ← match ssi_pattern opts with Some pat => mg_match_prefix pat (size pat) (file ++ [0]) 0 | None => Fault NullPointer end;
            if ssi >? 0 then mret (RunSsi file) else
            mime ← mg_get_mime_type file (lit "text/plain") opts;
            mret (SendFile file mime)
        end
  end.

(** The location to which the rewrites send a request to this port. *)
Definition mg_http_send_port_based_redirect (b : list Z) (hm : http_message) (opts : mg_serve_http_opts) : outcome (option file_action) :=
  match url_rewrites opts with
  | None => mret None
  | Some rw =>
      let local_port := lit "%" ++ mg_sock_addr_to_str [] local_port 19 MG_SOCK_STRINGIFY_PORT in
      loop (S (length rw)) (fun l =>
        ent ← mg_next_comma_list_entry (rw ++ [0]) (Some l) true;
        match ent with
        | Some (l, a, Some v) =>
            d ← mg_vcmp (rw ++ [0]) a local_port;
            if d =? 0 then
              deref (p (huri hm)) (fun u => deref (p (proto hm)) (fun q =>
                uri ← str_at b (mk_str (Some u) (q - u - 1));
                mret (inr (Some (Redirected (str_bytes (rw ++ [0]) v ++ uri))))))
            else mret (inl l)
        | _ => mret (inr None)
        end) 0
  end.

Definition or_default (o : option (list Z)) (d : string) : option (list Z) := Some (default (lit d) o).
Definition with_defaults (o : mg_serve_http_opts) : mg_serve_http_opts :=
  mk_opts (or_default (document_root o) ".") (or_default (index_files o) "index.html,index.htm,index.shtml,index.cgi,index.php")
    (or_default (per_directory_auth_file o) ".htpasswd") (auth_domain o) (global_auth_file o) (or_default (enable_directory_listing o) "yes")
    (or_default (ssi_pattern o) "**.shtml$|**.shtm$") (ip_acl o) (url_rewrites o) (dav_document_root o) (dav_auth_file o)
    (hidden_file_pattern o) (or_default (cgi_file_pattern o) "**.cgi$|**.php$") (custom_mime_types o).

(** The path of the request is normalised in the buffer, which is returned. *)
Definition mg_serve_http (b : list Z) (hm : http_message) (opts : mg_serve_http_opts) : outcome (list Z * file_action) :=
  acl ← match ip_acl opts with None => mg_check_ip_acl [] None remote_ip | Some a => mg_check_ip_acl (a ++ [0]) (Some 0) remote_ip end;
  if negb (acl =? 1) then mret (b, SendError 403 []) else
  redirect ← mg_http_send_port_based_redirect b hm opts;
  match redirect with
  | Some a => mret (b, a)
  | None =>
      let opts := with_defaults opts in
      '(b, n, good) ← match p (huri hm) with
        | Some u => mg_normalize_uri_path b u (Strs.len (huri hm)) u
        | None => mret (b, 0, 0)
        end;
      if good =? 0 then mret (b, SendError 400 []) else
      let hm := set_uri hm (mk_str (p (huri hm)) n) in
      r ← mg_uri_to_local_path mg_stat malloc b hm opts;
      match r with
      | None => mret (b, SendError 404 [])
      | Some (path, path_info) => a ← mg_send_http_file b hm opts path path_info; mret (b, a)
      end
  end.

End serve.

(** ** Examples *)

(** The request is parsed and served from a folder with two pictures and a page. *)
Definition pictures (path : list Z) : option cs_stat_t :=
  if bool_decide (path = lit "/img") || bool_decide (path = lit "/img/profile") then Some (mk_stat S_DIR 0 0)
  else if bool_decide (path = lit "/img/profile/7.png") then Some (mk_stat S_REG 2048 1479000000)
  else if bool_decide (path = lit "/img/index.html") || bool_decide (path = lit "/img/a.cgi") then Some (mk_stat S_REG 10 5) else None.

Definition served (head : string) (fields : list Z) : outcome file_action :=
  let rq := lit head ++ CRLF ++ fields ++ CRLF in
  '(n, hm) ← mg_parse_http (rq ++ [0]) 0 (size rq) http0 true;
  '(b, a) ← mg_serve_http pictures fresh_block (fun _ => None) 1479000000 stack_ones 8000 0 (rq ++ [0]) hm (with_root "/img");
  mret a.

Example serve_picture : served "GET /profile/7.png HTTP/1.1" [] = Ret (SendFile (lit "/img/profile/7.png") (lit "image/png")).
Proof. vm_compute. reflexivity. Qed.
Example serve_dots : served "GET /x/%2e%2e/profile/%37.png HTTP/1.1" [] = Ret (SendFile (lit "/img/profile/7.png") (lit "image/png")).
Proof. vm_compute. reflexivity. Qed.
Example serve_outside : served "GET /../../etc/passwd HTTP/1.1" [] = Ret (SendError 404 []).
Proof. vm_compute. reflexivity. Qed.
Example serve_index : served "GET / HTTP/1.1" [] = Ret (SendFile (lit "/img/index.html") (lit "text/html")).
Proof. vm_compute. reflexivity. Qed.
Example serve_folder : served "GET /profile HTTP/1.1" [] = Ret (Moved (lit "/profile")).
Proof. vm_compute. reflexivity. Qed.
Example serve_listing : served "GET /profile/ HTTP/1.1" [] = Ret (SendListing (lit "/img/profile")).
Proof. vm_compute. reflexivity. Qed.
Example serve_put : served "PUT /profile/7.png HTTP/1.1" [] = Ret (SendError 501 []).
Proof. vm_compute. reflexivity. Qed.
Example serve_cgi : served "GET /a.cgi/x HTTP/1.1" [] = Ret (RunCgi (lit "/img/a.cgi") (lit "/x")).
Proof. vm_compute. reflexivity. Qed.
Example serve_same : served "GET /profile/7.png HTTP/1.1" (lit "If-Modified-Since: Sun, 13 Nov 2016 01:20:00 GMT" ++ CRLF) = Ret (SendError 304 (lit "Not Modified")).
Proof. vm_compute. reflexivity. Qed.
Example serve_changed : served "GET /profile/7.png HTTP/1.1" (lit "If-Modified-Since: Sun, 13 Nov 2016 01:19:59 GMT" ++ CRLF) = Ret (SendFile (lit "/img/profile/7.png") (lit "image/png")).
Proof. vm_compute. reflexivity. Qed.
(** A date after the year 2037 does not fit an [int]. *)
Example serve_2038 : served "GET /profile/7.png HTTP/1.1" (lit "If-Modified-Since: Fri, 01 Jan 2038 00:00:00 GMT" ++ CRLF) = Ret (SendError 304 (lit "Not Modified"))
  /\ served "GET /profile/7.png HTTP/1.1" (lit "If-Modified-Since: Fri, 01 Jan 2039 00:00:00 GMT" ++ CRLF) = Fault SignedOverflow.
Proof. split; vm_compute; reflexivity. Qed.
(** The leap day of a year counts from its first of January. *)
Example january_2016 : mg_parse_date_string (lit "01/Jan/2016 00:00:00") = Ret (1451606400 + 86400).
Proof. vm_compute. reflexivity. Qed.

(** ** Every request for a file is answered *)

(** A C string of moderate size. *)
Definition text (s : list Z) : Prop := (0 ∉ s) /\ size s < 2 ^ 30.

Lemma text_cstring s q : text s -> 0 <= q <= size s -> cstring (s ++ [0]) q (size s - q).
Proof.
  intros (H0 & _) Hq. replace q with (0 + q) by lia. apply cstring_suffix; [|lia]. pose proof (size_nonneg s).
  split_and!; [lia..|size_lia| |].
  - by rewrite slice_prefix.
  - rewrite Z.add_0_l, size_to_nat. by apply list_lookup_middle.
Qed.

Lemma text_pattern s : text s -> pattern_at (s ++ [0]) 0 (size s).
Proof.
  intros Hs. pose proof (text_cstring s 0 Hs) as (_ & _ & H2 & H3 & H4); [pose proof (size_nonneg s); lia|]. rewrite Z.sub_0_r in *.
  destruct Hs as (_ & ?). pose proof (size_nonneg s). split_and!; [lia|lia|lia|done|done|]. by rewrite H4.
Qed.

Lemma wp_match pat s q : text pat -> text s -> 0 <= q <= size s -> wp (mg_match_prefix pat (size pat) (s ++ [0]) q) (fun _ => True).
Proof.
  intros Hp Hs Hq. unfold mg_match_prefix, mg_mk_str. rewrite (strlen_spec _ _ _ (text_cstring s q Hs Hq)), !bind_Ret.
  pose proof (size_nonneg pat). assert (size pat < 2 ^ 30) by apply Hp. rewrite u64_small by lia.
  unfold mg_match_prefix_n. cbn [p deref Strs.len]. assert (size s < 2 ^ 30) by apply Hs.
  eapply wp_mono; [apply match_prefix_spec; [by apply text_pattern|by apply text_cstring|lia|lia]|done].
Qed.

(** Two C strings are compared within their ends. *)
Lemma wp_casecmp b1 i1 n1 b2 i2 n2 : cstring b1 i1 n1 -> cstring b2 i2 n2 -> n1 < 2 ^ 31 -> wp (mg_casecmp b1 i1 b2 i2) (fun _ => True).
Proof.
  intros H1 H2 Hn. pose proof H1 as (? & ? & ? & _ & E1). pose proof H2 as (? & ? & ? & _ & E2).
  unfold mg_casecmp, mg_ncasecmp. apply (wp_loop (fun '(s1, s2, n) => exists k, s1 = i1 + k /\ s2 = i2 + k /\ n = SIZE_MAX - k /\ 0 <= k <= n1 /\ k <= n2)
    (fun '(s1, _, _) => Z.to_nat (i1 + n1 - s1))); [|exists 0; rewrite !Z.add_0_r; split_and!; (done || lia)|unfold size in *; lia].
  intros [[s1 s2] n] (k & -> & -> & -> & Hk1 & Hk2).
  destruct (rd_total b1 (i1 + k)) as (x & Ex & Rx); [lia|]. destruct (rd_total b2 (i2 + k)) as (y & Ey & Ry); [lia|].
  unfold lowercase. rewrite Rx, Ry. cbn [mbind outcome_bind mret outcome_ret].
  destruct (Z.eqb_spec (tolower x - tolower y) 0) as [Hd|]; [|by apply wp_mret]. destruct (Z.eqb_spec x 0) as [|Hx]; [by apply wp_mret|].
  assert (k < n1) by (destruct (decide (k = n1)); [subst; congruence|lia]).
  assert (k < n2).
  { destruct (decide (k = n2)) as [->|]; [|lia]. rewrite E2 in Ey. injection Ey as <-. destruct Hx. apply tolower_nul. lia. }
  replace (SIZE_MAX - k - 1 >? 0) with true by (unfold SIZE_MAX; lia). apply wp_mret. split; [|lia].
  exists (k + 1). split_and!; lia.
Qed.

Lemma etag_text st : exists t, mg_http_construct_etag st = t /\ (0 ∉ t) /\ size t < 2 ^ 31.
Proof.
  assert (Hd : forall fuel v acc, Forall (fun c => 48 <= c) acc -> Forall (fun c => 48 <= c) (digits_in 16 fuel v acc) /\ size (digits_in 16 fuel v acc) <= Z.of_nat fuel + size acc).
  { induction fuel as [|fuel IH]; intros v acc Ha; [split; [done|cbn; lia]|]. cbn [digits_in].
    assert (Hc : Forall (fun c => 48 <= c) (hex_digit (v mod 16) :: acc)).
    { apply Forall_cons_2; [|done]. unfold hex_digit. pose proof (Z.mod_pos_bound v 16). case_match; lia. }
    case_match; [split; [done|rewrite size_cons; lia]|]. destruct (IH (v / 16) _ Hc) as [? Hs]. split; [done|]. rewrite size_cons in Hs. lia. }
  destruct (Hd 16%nat (u64 (st_mtime st)) [] (List.Forall_nil _)) as [H1 S1]. rewrite size_nil in S1.
  assert (H2 : Forall (fun c => 45 <= c) (to_string (st_size st))) by (apply to_string_forall; [lia|intros; lia]). pose proof (size_to_string (st_size st)) as S2.
  eexists. split; [done|]. unfold mg_http_construct_etag, quoted. split; [|rewrite !size_app; change (size [34]) with 1; change (size (lit ".")) with 1; replace (size (map tolower (hex_digits 16 (u64 (st_mtime st)) []))) with (size (hex_digits 16 (u64 (st_mtime st)) [])) by (unfold size; by rewrite length_map); lia].
  assert (Forall (fun c => 34 <= c) (map tolower (digits_in 16 16 (u64 (st_mtime st)) []))) as H1'.
  { apply Forall_map. eapply Forall_impl; [|exact H1]. intros x Hx. cbv beta in Hx. unfold compose, tolower. case_match; lia. }
  intros Hin. assert (Forall (fun c => 34 <= c) ([34] ++ (map tolower (digits_in 16 16 (u64 (st_mtime st)) []) ++ lit "." ++ to_string (st_size st)) ++ [34])) as Hall.
  { apply Forall_app_2; [by repeat constructor|]. apply Forall_app_2; [|by repeat constructor]. apply Forall_app_2; [done|]. apply Forall_app_2; [by repeat constructor|].
    eapply Forall_impl; [|exact H2]. intros x Hx. cbv beta in Hx. lia. }
  apply list_elem_of_lookup in Hin as [i Hi]. eapply Forall_lookup_1 in Hall; [|exact Hi]. cbv beta in Hall. lia.
Qed.

(** A path or a file name: the types of the files are found within its end. *)
Lemma wp_builtin_type path types : text path -> Forall (fun x => text (lit x.1)) types -> wp (builtin_type path types) (fun _ => True).
Proof.
  intros Hp. induction 1 as [|[e m] types Ht _ IH]; [by apply wp_mret|]. cbn [builtin_type]. cbn [fst] in Ht. pose proof (size_nonneg (lit e)).
  apply wp_bind. apply wp_mono with (P := fun dot => dot = true -> size (lit e) < size path).
  { destruct (Z.gtb_spec (size path) (size (lit e))); [|by apply wp_mret]. destruct (rd_total path (size path - size (lit e) - 1)) as (c & _ & ->); [lia|]. rewrite bind_Ret. by apply wp_mret. }
  intros dot Hdot. apply wp_bind. apply wp_mono with (P := fun _ => True).
  { destruct dot; [|by apply wp_mret]. specialize (Hdot eq_refl). eapply wp_casecmp; [apply (text_cstring path); [done|lia]|apply (text_cstring (lit e) 0 Ht); lia|]. assert (size path < 2 ^ 30) by apply Hp. lia. }
  intros d _. case_match; [by apply wp_mret|apply IH].
Qed.

(** The index files of the default list are tried in their order. *)
Definition default_index : list Z := lit "index.html,index.htm,index.shtml,index.cgi,index.php".
Definition index_names : list (list Z) := [lit "index.html"; lit "index.htm"; lit "index.shtml"; lit "index.cgi"; lit "index.php"].

(** Where the entries of the list start, and the names. *)
Lemma default_entries l : l ∈ [0; 11; 21; 33; 43; 52] ->
  mg_next_comma_list_entry (default_index ++ [0]) (Some l) false = Ret None \/
  exists l' v, mg_next_comma_list_entry (default_index ++ [0]) (Some l) false = Ret (Some (l', v, None)) /\
    l' ∈ [0; 11; 21; 33; 43; 52] /\ l < l' <= 52 /\ str_bytes (default_index ++ [0]) v ∈ index_names.
Proof.
  intros Hl. repeat (apply elem_of_cons in Hl as [->|Hl]); [..|by apply elem_of_nil in Hl];
    try (left; vm_compute; reflexivity); right; eexists _, _; (split; [vm_compute; reflexivity|]);
    (split; [apply list_elem_of_In; simpl; tauto|]); (split; [lia|]); apply list_elem_of_In; vm_compute; tauto.
Qed.

Lemma wp_find_index mg_stat malloc path : wp (mg_find_index_file mg_stat malloc path default_index) (fun r =>
  match r with Some (f, st) => exists e, e ∈ index_names /\ f = path ++ [DIRSEP] ++ e /\ mg_stat f = Some st | None => True end).
Proof.
  unfold mg_find_index_file.
  apply (wp_loop (fun l => l ∈ [0; 11; 21; 33; 43; 52]) (fun l => Z.to_nat (52 - l))); [|by left|vm_compute; lia].
  intros l Hl. destruct (default_entries l Hl) as [->|(l' & v & -> & Hl' & Hlt & Hv)]; rewrite bind_Ret; [by apply wp_mret|].
  case_match; [|by apply wp_mret]. destruct (mg_stat _) as [st|] eqn:Es; [|apply wp_mret; split; [done|lia]].
  case_bool_decide; apply wp_mret; [|split; [done|lia]]. by eexists.
Qed.

(** *** A request in the buffer *)

Section request.
Context (b : list Z) (hm : http_message) (hi : Z) (Hb : bytes b) (Hsize : size b < 2 ^ 30) (Hhi : hi <= size b) (Hok : request_ok 0 hi hm).

Lemma inside_in x : inside 0 hi x -> str_in b x /\ Strs.len x < 2 ^ 30.
Proof. unfold inside, str_in. destruct (p x); intros; lia. Qed.

Lemma is_method_spec m : bytes (lit m) -> size (lit m) < 2 ^ 31 -> is_method b hm m = Ret (bool_decide (str_bytes b (method hm) = lit m)).
Proof. intros Hm Hs. destruct (inside_in _ (rq_method _ _ _ Hok)). unfold is_method. apply mg_vcmp_eq; (done || lia). Qed.

Lemma is_one_of_spec l : Forall (fun m => bytes m /\ size m < 2 ^ 31) l -> is_one_of b (method hm) l = Ret (bool_decide (str_bytes b (method hm) ∈ l)).
Proof.
  destruct (inside_in _ (rq_method _ _ _ Hok)) as [Hin Hl]. induction 1 as [|m l [Hm Hs] _ IH]; [done|]. cbn [is_one_of].
  pose proof (mg_vcmp_eq b (method hm) m Hb Hm Hin ltac:(lia) Hs) as E.
  destruct (mg_vcmp b (method hm) m) as [d|]; [|done]. rewrite bind_Ret in E |- *. injection E as E. rewrite E, IH.
  case_bool_decide as H1.
  - rewrite bool_decide_eq_true_2; [done|]. rewrite H1. by left.
  - apply f_equal, bool_decide_ext. rewrite elem_of_cons. tauto.
Qed.

Lemma header_value_spec name : 0 ∉ name -> wp (mg_get_http_header b hm name) (fun v =>
  match v with Some v => str_in b v /\ Strs.len v < 2 ^ 30 /\ exists n, n ∈ header_names hm /\ Strs.len n = size name | None => True end).
Proof.
  intros Hn. eapply wp_of_eq; [apply (mg_get_http_header_first b 0 hi); [lia|done|apply Hok|done]|].
  destruct (ho_in _ _ _ (rq_headers _ _ _ Hok)) as [Hns Hvs]. revert Hns Hvs. generalize (header_names hm), (header_values hm).
  induction l as [|n ns IH]; intros [|v vs] Hns Hvs; [done..|]. cbn [find_header].
  apply Forall_cons_1 in Hns as [Hn1 Hns]. apply Forall_cons_1 in Hvs as [Hv1 Hvs]. specialize (IH vs Hns Hvs).
  destruct (len n =? 0); [done|]. case_bool_decide as E; [|destruct (find_header b ns vs name); [|done]; destruct IH as (? & ? & k & ? & ?); split_and!; [done..|exists k; split; [by right|done]]].
  destruct (inside_in v Hv1), (inside_in n Hn1) as [Hin _]. split_and!; [done..|]. exists n. split; [by left|].
  rewrite <- (size_str_bytes b n Hin). apply (f_equal length) in E. rewrite !length_map in E. unfold size. lia.
Qed.

(** A header whose name is as long as If-Modified-Since, which may fault. *)
Definition dated (f : fault) : Prop := exists n, n ∈ header_names hm /\ Strs.len n = 17.

Lemma wp_not_modified st : wp_or dated (mg_is_not_modified b hm st) (fun _ => True).
Proof.
  unfold mg_is_not_modified. eapply wp_or_use; [apply (header_value_spec (lit "If-None-Match")); by apply (bool_decide_unpack _)|].
  intros [v|] Hv.
  - destruct Hv as (Hin & Hl & _). destruct (etag_text st) as (t & -> & H0 & Ht). eapply wp_or_use; [apply mg_vcasecmp_spec; [done|lia|lia|done]|].
    intros d _. by apply wp_or_mret.
  - eapply wp_or_use; [apply (header_value_spec (lit "If-Modified-Since")); by apply (bool_decide_unpack _)|].
    intros [v'|] Hv'; [|by apply wp_or_mret]. destruct Hv' as (_ & _ & n & Hn & El). unfold wp_or. case_match; [done|]. by exists n.
Qed.

(** *** The answer for a path *)

(** The files an answer reads or runs. *)
Definition named (a : file_action) : list (list Z) :=
  match a with RunCgi f _ | SendListing f | RunSsi f | SendFile f _ | Dav _ f => [f] | _ => [] end.

(** An answer of a server without WebDAV and passwords, for this path. *)
Definition leads_to (path : list Z) (a : file_action) : Prop :=
  match a with Dav _ _ | AskPassword _ => False | _ => True end /\
  Forall (fun f => f = path \/ exists e, e ∈ index_names /\ f = path ++ [DIRSEP] ++ e) (named a).

(** The options of main.cpp: a root, and nothing else. *)
Definition only_root (root : list Z) : mg_serve_http_opts :=
  mk_opts (Some root) None None None None None None None None None None None None None.

Lemma text_app s t : text s -> text t -> size s + size t < 2 ^ 30 -> text (s ++ t).
Proof. intros (N1 & _) (N2 & _) Hs. split; [by intros [?|?]%elem_of_app|size_lia]. Qed.

Lemma text_lit s : bool_decide (0 ∉ lit s) = true -> size (lit s) < 2 ^ 30 -> text (lit s).
Proof. by intros H%bool_decide_eq_true. Qed.

Lemma index_text e : e ∈ index_names -> text e /\ size e <= 11.
Proof.
  intros He. assert (H : Forall (fun e => text e /\ size e <= 11) index_names).
  { repeat (apply Forall_cons_2; [split; [by apply text_lit|by vm_compute]|]). apply Forall_nil_2. }
  apply list_elem_of_lookup in He as [i Hi]. by eapply Forall_lookup_1 in H; [|exact Hi].
Qed.

Lemma wp_hidden path opts specials : text path -> per_directory_auth_file opts = Some (lit ".htpasswd") -> hidden_file_pattern opts = None ->
  wp (mg_is_file_hidden path opts specials) (fun _ => True).
Proof.
  intros Hp H1 H2. unfold mg_is_file_hidden. rewrite H1, H2. unfold last_name. destruct (specials && _); [by apply wp_mret|].
  apply wp_bind. eapply wp_mono with (P := fun _ => True).
  - apply wp_bind. eapply wp_mono; [apply wp_match; [by apply text_lit|done|]|intros; by apply wp_mret].
    pose proof (size_take_while (fun c => negb (c =? DIRSEP)) (rev path)) as Hs. unfold size in *. rewrite !length_rev in *. lia.
  - intros h _. destruct h; by apply wp_mret.
Qed.

Lemma wp_mime path opts : text path -> custom_mime_types opts = None -> wp (mg_get_mime_type path (lit "text/plain") opts) (fun _ => True).
Proof.
  intros Hp Ho. unfold mg_get_mime_type. rewrite Ho. rewrite bind_Ret. apply wp_bind. eapply wp_mono; [apply (wp_builtin_type path); [done|]|intros; by apply wp_mret].
  repeat (apply Forall_cons_2; [by apply text_lit|]). apply Forall_nil_2.
Qed.

Lemma str_at_ok x : str_in b x -> p x <> None -> str_at b x = Ret (str_bytes b x).
Proof. unfold str_in, str_at, str_bytes. destruct (p x); [|done]. intros H _. by rewrite decide_True. Qed.

Section answer.
Context (mg_stat : list Z -> option cs_stat_t) (malloc : Z -> option (list Z)) (fopen : list Z -> option (list Z)) (now : Z) (stack : nat -> list Z).
Context (root path : list Z) (u : Z) (Hpath : text path) (Hlen : size path < 2 ^ 29) (Huri : p (huri hm) = Some u) (Hpos : 0 < Strs.len (huri hm)).
Abbreviation opts := (with_defaults (only_root root)).

(** What is left when the file is there and may be seen. *)
Lemma wp_send_found st file : text file -> (file = path \/ exists e, e ∈ index_names /\ file = path ++ [DIRSEP] ++ e) ->
  wp_or dated (same ← mg_is_not_modified b hm st;
      if same : bool then mret (SendError 304 (lit "Not Modified")) else
      ssi ← match ssi_pattern opts with Some pat => mg_match_prefix pat (size pat) (file ++ [0]) 0 | None => Fault NullPointer end;
      if ssi >? 0 then mret (RunSsi file) else
      mime ← mg_get_mime_type file (lit "text/plain") opts;
      mret (SendFile file mime)) (leads_to path).
Proof.
  intros Hf Hfile. apply wp_or_bind. eapply wp_or_mono; [apply wp_not_modified|]. intros same _. destruct same.
  { apply wp_or_mret. split; [done|apply Forall_nil_2]. }
  apply wp_or_wp, wp_bind. eapply wp_mono; [apply wp_match; [by apply text_lit|done|pose proof (size_nonneg file); lia]|]. intros ssi _.
  destruct (ssi >? 0); [apply wp_mret; split; [done|by apply Forall_singleton]|].
  apply wp_bind. eapply wp_mono; [by apply wp_mime|]. intros mime _. apply wp_mret. split; [done|by apply Forall_singleton].
Qed.

Lemma wp_send_http_file path_info : str_in b path_info -> p path_info <> None ->
  wp_or dated (mg_send_http_file mg_stat malloc fopen now stack b hm opts path path_info) (leads_to path).
Proof.
  intros Hpi Hpn. unfold mg_send_http_file, mg_is_dav_request.
  rewrite is_one_of_spec, bind_Ret by (repeat constructor; lia). set (M := str_bytes b (method hm)).
  assert (Hplain : forall a, named a = [] -> match a with Dav _ _ | AskPassword _ => False | _ => True end -> wp_or dated (mret a) (leads_to path))
    by (intros a Ha Hd; apply wp_or_mret; split; [done|rewrite Ha; apply Forall_nil_2]).
  set (st := mg_stat path). set (dir := match st with Some st => bool_decide (st_mode st = S_DIR) | None => false end).
  apply wp_or_use with (P := fun r => match r with Some (f, st) => exists e, e ∈ index_names /\ f = path ++ [DIRSEP] ++ e /\ mg_stat f = Some st | None => True end).
  { destruct dir; [apply wp_find_index|by apply wp_mret]. }
  intros index Hindex. set (file := match index with Some (f, _) => f | None => path end).
  assert (Hfile : text file /\ (file = path \/ exists e, e ∈ index_names /\ file = path ++ [DIRSEP] ++ e)).
  { destruct index as [[f st']|]; [|split; [done|by left]]. destruct Hindex as (e & He & -> & _). destruct (index_text e He).
    split; [|right; by exists e]. apply text_app; [done|apply (text_app [DIRSEP]); [by apply (text_lit "/")|done|]|]; size_simpl; rewrite ?size_nil; lia. }
  destruct Hfile as [Hf Hform]. eapply wp_or_use; [apply wp_match; [by apply text_lit|done|pose proof (size_nonneg file); lia]|]. intros cgi _.
  destruct (inside_in _ (rq_uri _ _ _ Hok)) as [Huin Hul]. pose proof Huin as Hu'. unfold str_in in Hu'. rewrite Huri in Hu'.
  apply wp_or_use with (P := fun _ => True).
  { destruct dir; [|by apply wp_mret]. rewrite Huri. cbn [deref]. destruct (rd_total b (u + Strs.len (huri hm) - 1)) as (c & _ & ->); [lia|]. rewrite bind_Ret. by apply wp_mret. }
  intros slash _. destruct (negb slash && _).
  { rewrite (str_at_ok (huri hm)) by (done || congruence). rewrite bind_Ret. by apply Hplain. }
  destruct (_ && _); [by apply Hplain|]. destruct (bool_decide (M ∈ methods)) eqn:HM; [by apply Hplain|]. apply bool_decide_eq_false in HM. cbn [andb negb].
  change (mg_is_authorized now stack fopen b hm path dir (auth_domain opts) _ _) with (Ret true). rewrite !bind_Ret. cbn [negb andb].
  destruct (cgi >? 0); [rewrite str_at_ok, bind_Ret by done; apply wp_or_mret; split; [done|by apply Forall_singleton]|].
  apply wp_or_use with (P := fun missing => missing = false -> is_Some st).
  { case_bool_decide as Hst; [|by apply wp_mret]. eapply wp_mono; [by apply wp_hidden|done]. }
  assert (HM1 : forall m, m ∈ methods -> bool_decide (M = m) = false) by (intros m Hm; apply bool_decide_eq_false; by intros <-).
  intros missing Hst. unfold mg_is_creation_request. rewrite is_one_of_spec by (repeat constructor; lia). fold M.
  replace (bool_decide (M ∈ [lit "MKCOL"; lit "PUT"])) with false
    by (symmetry; apply bool_decide_eq_false; rewrite !elem_of_cons, elem_of_nil; intros [E|[E|[]]]; apply HM; rewrite E; unfold methods; rewrite !elem_of_cons; auto 10).
  destruct missing; rewrite bind_Ret; cbn [negb andb]; [by apply Hplain|]. destruct (Hst eq_refl) as [st' Est].
  cbn [dav_method]. rewrite !is_method_spec by (done || (repeat constructor; lia)). fold M.
  rewrite (HM1 (lit "PROPFIND")), (HM1 (lit "MKCOL")), (HM1 (lit "DELETE")), (HM1 (lit "PUT")), (HM1 (lit "MOVE")) by (unfold methods; rewrite !elem_of_cons; auto 10).
  rewrite !bind_Ret. cbn iota. rewrite ?bind_Ret. cbn iota. rewrite ?bind_Ret.
  destruct (bool_decide (M = lit "OPTIONS")); [by apply Hplain|].
  destruct (dir && _); [cbn [enable_directory_listing]; apply wp_or_mret; split; [done|by apply Forall_singleton; left]|].
  destruct index as [[f st1]|]; [by apply wp_send_found|rewrite Est; by apply wp_send_found].
Qed.
End answer.
End request.

(** ** The whole of a request *)

Lemma request_ok_uri lo hi hm x : request_ok lo hi hm -> inside lo hi x -> request_ok lo hi (set_uri hm x).
Proof. intros [[] ? ? ? ? ? ?] Hx. by split. Qed.

(** The file of an answer lies below the root: it is found with [path_of] in the
    normal form of the path of the request. *)
Definition below mg_stat (b l root : list Z) (f : list Z) : Prop :=
  exists path remainder, path_of mg_stat b (tail (norm_path l)) root (Some (path, remainder)) /\
    (f = path \/ exists e, e ∈ index_names /\ f = path ++ [DIRSEP] ++ e).

Section confined.
Context (mg_stat : list Z -> option cs_stat_t) (malloc : Z -> option (list Z)) (fopen : list Z -> option (list Z)) (now : Z) (stack : nat -> list Z).
Context (local_port remote_ip : Z) (root : list Z).
Context (Hmalloc : forall n m, malloc n = Some m -> size m = n /\ bytes m).
Context (Hroot : bytes root) (Hne : root <> []) (H0 : 0 ∉ root) (Hrs : size root < 2 ^ 27).
Abbreviation opts := (with_defaults (only_root root)).

Lemma choose_only_root b hm hi cp : bytes b -> hi <= size b -> request_ok 0 hi hm -> choose_root b hm cp opts = Ret (root, cp).
Proof.
  intros Hb Hhi Hok. unfold choose_root.
  rewrite (mg_get_http_header_first b 0 hi) by (try apply Hok; try done; by apply (bool_decide_unpack _)). rewrite bind_Ret.
  cbn. assert (0 < size root) by (destruct root as [|c r]; [done|pose proof (size_nonneg r); size_lia]). by replace (size root >? 0) with true by lia.
Qed.

(** After the path was normalised. *)
Lemma serve_path b hm hi u : bytes b -> size b < 2 ^ 27 -> hi <= size b -> request_ok 0 hi hm -> p (huri hm) = Some u ->
  0 < Strs.len (huri hm) ->
  wp_or (dated hm) (r ← mg_uri_to_local_path mg_stat malloc b hm opts;
      match r with
      | None => mret (b, SendError 404 [])
      | Some (path, path_info) => a ← mg_send_http_file mg_stat malloc fopen now stack b hm opts path path_info; mret (b, a)
      end) (fun r => r.1 = b /\ match r.2 with Dav _ _ | AskPassword _ => False | _ => True end /\
    Forall (fun f => exists path remainder, path_of mg_stat b (slice b (u + 1) (Strs.len (huri hm) - 1)) root (Some (path, remainder)) /\
      (f = path \/ exists e, e ∈ index_names /\ f = path ++ [DIRSEP] ++ e)) (named r.2)).
Proof.
  intros Hb Hs Hhi Hok Hu Hpos. pose proof (rq_uri _ _ _ Hok) as Hin. unfold inside in Hin. rewrite Hu in Hin.
  destruct (uri_to_local_path mg_stat malloc Hmalloc b hm opts u (Strs.len (huri hm)) root u) as (r & -> & Hr);
    [destruct (huri hm); cbn in *; congruence|done|lia|lia|by apply (choose_only_root b hm hi)|lia|lia|done|done|done|lia|].
  rewrite bind_Ret. destruct r as [[path rem]|]; [|apply wp_or_mret; split_and!; [done|done|apply Forall_nil_2]].
  destruct Hr as [[? _]|(Hpath & Hsize & Hrem & Hrp)]; [done|].
  assert (text path) as Htext.
  { split; [|lia]. destruct Hpath as (? & ? & st & _ & _ & _ & -> & Hsafe & _). apply joined_no_nul; [|done].
    unfold trim. case_match; [|done]. intros Hx. apply H0. destruct root as [|c r _] using rev_ind; [done|]. rewrite removelast_last in Hx. apply elem_of_app. by left. }
  apply wp_or_bind. eapply wp_or_mono; [eapply (wp_send_http_file b hm hi); (done || lia)|]. intros a [Ha1 Ha2]. apply wp_or_mret. split_and!; [done|done|].
  eapply Forall_impl; [|exact Ha2]. intros f Hf. exists path, rem. split; [|done].
  by replace (Strs.len (huri hm) - 1) with (u + Strs.len (huri hm) - (u + 1)) by lia.
Qed.
End confined.

Lemma acl_none remote_ip : mg_check_ip_acl [] None remote_ip = Ret 1.
Proof. reflexivity. Qed.

(** The bytes of the URI in the buffer. *)
Lemma uri_in_buffer (b : list Z) u n : 0 <= u -> 0 <= n -> u + n <= size b -> exists pre post : list Z, b = pre ++ slice b u n ++ post /\ size pre = u.
Proof.
  intros. destruct (split_at b u) as (pre & r & -> & Hp); [lia|]. rewrite size_app in *.
  destruct (split_at r n) as (l & post & -> & Hl); [lia|]. exists pre, post. by rewrite (slice_mid pre l post u n) by done.
Qed.

(** C3: With the options of main.cpp, the root and nothing else, every parsed
    request for a file gets an answer, whatever the file system and [malloc] say; it
    can only fault when the request has a header with a name as long as
    If-Modified-Since, whose date is read badly.  A file that the answer reads, runs or lists has a path made of the root and names of the
    normalised and decoded path of the request, none of them empty, a dot, two dots
    or with a slash in it: nothing outside the root can be reached.  The answer is
    never one of WebDAV, which changes files. *)
Theorem mg_serve_http_confined mg_stat malloc fopen now stack local_port remote_ip root b hm hi u :
  (forall n m, malloc n = Some m -> size m = n /\ bytes m) -> bytes root -> root <> [] -> 0 ∉ root -> size root < 2 ^ 27 ->
  bytes b -> size b < 2 ^ 27 -> hi <= size b -> request_ok 0 hi hm -> p (huri hm) = Some u ->
  match mg_serve_http mg_stat malloc fopen now stack local_port remote_ip b hm (only_root root) with
  | Ret (b', a) => match a with Dav _ _ | AskPassword _ => False | _ => True end /\ Forall (below mg_stat b' (str_bytes b (huri hm)) root) (named a)
  | Fault _ => exists n, n ∈ header_names hm /\ Strs.len n = 17
  end.
Proof.
  intros Hm Hroot Hne H0 Hrs Hb Hs Hhi Hok Hu.
  pose proof (rq_uri _ _ _ Hok) as Hin. unfold inside in Hin. rewrite Hu in Hin. destruct (huri hm) as [q0 n] eqn:Euri. cbn [p Strs.len] in *. subst q0.
  unfold mg_serve_http. cbn [ip_acl only_root]. rewrite acl_none, bind_Ret. cbn [Z.eqb Pos.eqb negb]. unfold mg_http_send_port_based_redirect. cbn [url_rewrites only_root]. rewrite bind_Ret. cbn iota.
  rewrite Euri. cbn [p Strs.len]. unfold str_bytes. cbn [p Strs.len].
  destruct (uri_in_buffer b u n) as (pre & post & Eb & Hpre); [lia..|]. set (l := slice b u n) in *.
  assert (Hl : size l = n) by (apply size_slice; lia).
  assert ((exists r, l = SLASH :: r) \/ ~ (exists r, l = SLASH :: r)) as [Hslash|Hslash]
    by (destruct l as [|c r]; [right; by intros [? ?]|destruct (decide (c = SLASH)) as [->|Hc]; [left; by exists r|right; intros [? [= ? _]]; done]]).
  - destruct (normalize_uri_path pre l post) as (q & En & Hle & (o & Ho) & _ & _ & Hq & Hb'); [by rewrite <- Eb|lia|done|].
    rewrite <- Eb, Hpre, Hl in En. rewrite En, bind_Ret. cbn [Z.eqb].
    set (b' := pre ++ norm_path l ++ q ++ post) in *.
    assert (Hsize : size b' = size b) by (rewrite Eb; unfold b'; size_lia).
    assert (Ho1 : 1 <= size (norm_path l)) by (rewrite Ho; pose proof (size_nonneg o); size_lia).
    unshelve epose proof (serve_path mg_stat malloc fopen now stack root Hm Hroot Hne H0 Hrs b' (set_uri hm (mk_str (Some u) (size (norm_path l)))) hi u _ _ _ _ _ _) as Hserve;
      [done|lia|lia|apply request_ok_uri; [done|unfold inside; cbn [p Strs.len]; lia]|done|cbn [huri set_uri Strs.len]; lia|].
    match type of Hserve with wp_or _ ?c _ => lazymatch goal with |- context [match ?x with _ => _ end] => change x with c; destruct c as [[b2 a]|f]; [|exact Hserve] end end.
    destruct Hserve as (Eb2 & Hact & Hfiles). cbn [fst snd] in Eb2, Hact, Hfiles. subst b2. split; [done|]. eapply Forall_impl; [|exact Hfiles]. cbn [huri set_uri Strs.len fst snd].
    intros f (path & rem & Hp & Hf). exists path, rem. split; [|done]. rewrite Ho. cbn [tail].
    assert (slice b' (u + 1) (size (norm_path l) - 1) = o) as <-; [|done].
    unfold b'. rewrite Ho. change ((SLASH :: o) ++ q ++ post) with ([SLASH] ++ o ++ q ++ post). rewrite app_assoc. apply slice_mid; size_lia.
  - enough (mg_normalize_uri_path b u n u = Ret (b, 0, 0)) as -> by (split; [done|apply Forall_nil_2]).
    unfold mg_normalize_uri_path. destruct (Z.eqb_spec n 0); [done|]. destruct l as [|c r] eqn:El; [unfold size in Hl; simpl in Hl; lia|].
    rewrite Eb, <- Hpre. simpl app. rewrite rd_at0, !bind_Ret. destruct (Z.eqb_spec c 47) as [->|]; [destruct Hslash; by exists r|]. done.
Qed.

Definition picture_request : list Z := lit "GET /x/%2e%2e/profile/7.png HTTP/1.1" ++ CRLF ++ CRLF.
Definition picture_message : http_message :=
  mk_http (mk_str (Some 0) 40) (mk_str (Some 0) 3) (mk_str (Some 4) 23) (mk_str (Some 28) 8) 0 null_str null_str
    (header_names http0) (header_values http0) (mk_str (Some 40) 0).
Definition block_of (n : Z) : option (list Z) := if n >=? 0 then Some (replicate (Z.to_nat n) 7) else None.

Lemma picture_message_ok : request_ok 0 40 picture_message.
Proof. split; try done; try (unfold inside; cbn; lia). split; try done. split; apply Forall_replicate, inside_null. Qed.

Lemma block_of_ok n m : block_of n = Some m -> size m = n /\ bytes m.
Proof. unfold block_of. destruct (Z.geb_spec n 0); [|done]. intros [= <-]. split; [rewrite size_replicate; lia|by apply Forall_replicate]. Qed.

Lemma mg_serve_http_confined_witness : exists b' a,
  mg_serve_http pictures block_of (fun _ => None) 0 stack_ones 8000 0 picture_request picture_message (only_root (lit "/img")) = Ret (b', a) /\
  match a with Dav _ _ | AskPassword _ => False | _ => True end /\
  Forall (below pictures b' (str_bytes picture_request (huri picture_message)) (lit "/img")) (named a).
Proof.
  pose proof (mg_serve_http_confined pictures block_of (fun _ => None) 0 stack_ones 8000 0 (lit "/img") picture_request picture_message 40 4 block_of_ok ltac:(repeat constructor; lia) ltac:(done)
    ltac:(by apply (bool_decide_unpack _)) ltac:(done) ltac:(repeat constructor; lia) ltac:(done) ltac:(done) picture_message_ok eq_refl) as H.
  destruct (mg_serve_http _ _ _ _ _ _ _ _ _ _) as [[b' a]|f]; [exact (ex_intro _ b' (ex_intro _ a (conj eq_refl H)))|].
  destruct H as (n & [-> _]%elem_of_replicate & [=]).
Defined.
