(* ===== verification/Transfer.v ===== *)
(** * Sending a file (mongoose.c, http.c)

    The head of an answer, and the transfer of the file behind it, which goes on
    at every event of the connection while the send buffer has room. *)

From Stdlib Require Import ZArith Lia String.
From stdpp Require Import base list numbers option.
From S2P Require Import Prelude Strs Cpp Addr Mbuf Http Conn Net HttpServer Files Digest Serve.

Local Open Scope Z_scope.

(** ** The code *)

Definition MG_MAX_HTTP_SEND_MBUF : Z := 4096.

(** What the connection keeps of the file, whose type is [DATA_FILE]: the
    bytes of the file and the position in it while it is open. *)
Record mg_http_proto_data_file := mk_file { fp : option (list Z * Z); cl : Z; sent_bytes : Z; keepalive : bool }.
Definition no_file : mg_http_proto_data_file := mk_file None 0 0 false.

(** [fread(buf, 1, n, fp)] *)
Definition fread (f : list Z * Z) (n : Z) : list Z * (list Z * Z) :=
  let '(data, pos) := f in
  let got := take (Z.to_nat n) (drop (Z.to_nat pos) data) in (got, (data, pos + size got)).

Definition mg_http_transfer_file_data (udp : bool) (c : conn) (f : mg_http_proto_data_file) : outcome (conn * mg_http_proto_data_file * bool) :=
  let left := cl f - sent_bytes f in
  let io_len := mb_len (send_mbuf c) in
  let to_read := if io_len <? MG_MAX_HTTP_SEND_MBUF then MG_MAX_HTTP_SEND_MBUF - io_len else 0 in
  let to_read := if (left >? 0) && (to_read >? left) then left else to_read in
  if to_read =? 0 then mret (c, f, false) else
  match fp f with
  | None => Fault NullPointer
  | Some file =>
      let '(buf, file) := fread file to_read in
      if (sent_bytes f <? cl f) && (size buf >? 0) then
        c ← mg_send udp c buf (size buf);
        mret (c, mk_file (Some file) (cl f) (sent_bytes f + size buf) (keepalive f), false)
      else mret (c, no_file, negb (keepalive f))
  end.

(** *** The head *)

Definition mg_version_header : list Z := lit "Mongoose/6.5".

Definition status_message (status_code : Z) : list Z :=
  if status_code =? 206 then lit "Partial Content" else if status_code =? 301 then lit "Moved" else if status_code =? 302 then lit "Found"
  else if status_code =? 401 then lit "Unauthorized" else if status_code =? 403 then lit "Forbidden" else if status_code =? 404 then lit "Not Found"
  else if status_code =? 416 then lit "Requested range not satisfiable" else if status_code =? 418 then lit "I'm a teapot"
  else if status_code =? 500 then lit "Internal Server Error" else lit "OK".

Section sending.
Context (malloc udp : bool).

Definition mg_send_response_line_s (c : conn) (status_code : Z) (extra_headers : list Z) : outcome conn :=
  c ← mg_printf malloc udp c (lit "HTTP/1.1 " ++ to_string status_code ++ lit " " ++ status_message status_code ++ CRLF ++
        lit "Server: " ++ mg_version_header ++ CRLF);
  if size extra_headers >? 0 then mg_printf malloc udp c (extra_headers ++ CRLF) else mret c.
Definition mg_send_response_line := mg_send_response_line_s.

Definition mg_send_head (c : conn) (status_code content_length : Z) (extra_headers : list Z) : outcome conn :=
  c ← mg_send_response_line c status_code extra_headers;
  c ← (if content_length <? 0 then mg_printf malloc udp c (lit "Transfer-Encoding: chunked" ++ CRLF)
       else mg_printf malloc udp c (lit "Content-Length: " ++ to_string content_length ++ CRLF));
  mg_send udp c CRLF 2.

(** The connection is closed when everything is sent. *)
Definition mg_http_send_error (c : conn) (code : Z) (reason : list Z) : outcome conn :=
  c ← mg_send_head c code (size reason) (lit "Content-Type: text/plain" ++ CRLF ++ lit "Connection: close");
  mg_send udp c reason (size reason).

(** [sscanf] of a header with two numbers of 64 bits behind "bytes=": how many it
    found, and the numbers. *)
Definition scan_int64 (t : list Z) : outcome (option (Z * list Z)) :=
  let t := drop_while isspace t in
  let '(neg, t) := match t with 45 :: t => (true, t) | 43 :: t => (false, t) | _ => (false, t) end in
  let ds := take_while isdigit t in
  if bool_decide (ds = []) then mret None else
  let v := if neg then - dec_val 0 ds else dec_val 0 ds in
  if decide (- 2 ^ 63 <= v < 2 ^ 63) then mret (Some (v, drop_while isdigit t)) else Fault BadConversion.

Definition mg_http_parse_range_header (header : list Z) : outcome (Z * Z * Z) :=
  if negb malloc then mret (0, 0, 0) else
  let n := size (lit "bytes=") in
  if bool_decide (take (Z.to_nat n) header = lit "bytes=") then
    a ← scan_int64 (drop (Z.to_nat n) header);
    match a with
    | None => mret (0, 0, 0)
    | Some (r1, 45 :: t) =>
        b ← scan_int64 t;
        mret (match b with Some (r2, _) => (2, r1, r2) | None => (1, r1, 0) end)
    | Some (r1, _) => mret (1, r1, 0)
    end
  else mret (0, 0, 0).

(** What [snprintf] leaves in an array of 70 bytes. *)
Definition range_text (t : list Z) : list Z := take 69 t.

(** What the header asks for: the status, the length of the answer, the header of
    the range and the position in the file. *)
Definition range_of (header : option (list Z)) (st_size : Z) : outcome (Z * Z * list Z * Z) :=
  '(n, r1, r2) ← match header with Some h => mg_http_parse_range_header h | None => mret (0, 0, 0) end;
  if (n >? 0) && (r1 >=? 0) && (r2 >=? 0) then
    let r2 := if n =? 1 then st_size - 1 else r2 in
    if (r1 >? r2) || (r2 >=? st_size) then
      mret (416, 0, range_text (lit "Content-Range: bytes */" ++ to_string st_size ++ CRLF), 0)
    else
      mret (206, r2 - r1 + 1, range_text (lit "Content-Range: bytes " ++ to_string r1 ++ lit "-" ++ to_string r2 ++ lit "/" ++ to_string st_size ++ CRLF), r1)
  else mret (200, st_size, [], 0).

(** [strftime] writes a time as a date of HTTP. *)
Context (mg_gmt_time_string : Z -> list Z) (now : Z) (mg_stat : list Z -> option cs_stat_t) (fopen : list Z -> option (list Z)) (errno : Z).
Definition EACCES : Z := 13.
Definition ENOENT : Z := 2.

Definition file_head (st : cs_stat_t) (status_code cl : Z) (keepalive : bool) (range mime_type : list Z) : list Z :=
  lit "Date: " ++ mg_gmt_time_string now ++ CRLF ++ lit "Last-Modified: " ++ mg_gmt_time_string (st_mtime st) ++ CRLF ++
  lit "Accept-Ranges: bytes" ++ CRLF ++ lit "Content-Type: " ++ mime_type ++ CRLF ++
  lit "Connection: " ++ (if keepalive then lit "keep-alive" else lit "close") ++ CRLF ++
  lit "Content-Length: " ++ to_string cl ++ CRLF ++ range ++ lit "Etag: " ++ mg_http_construct_etag st ++ CRLF ++ CRLF.

(** The last answer says whether to close when everything is sent. *)
Definition mg_http_serve_file (b : list Z) (hm : http_message) (c : conn) (path mime_type extra_headers : list Z) : outcome (conn * mg_http_proto_data_file * bool) :=
  match mg_stat path, fopen path with
  | Some st, Some data =>
      hdr ← mg_get_http_header b hm (lit "Range");
      range_hdr ← match hdr with Some h => t ← str_at b h; mret (Some (take_while (fun c => negb (c =? 0)) t)) | None => mret None end;
      '(status_code, cl, range, pos) ← range_of range_hdr (st_size st);
      conn_hdr ← mg_get_http_header b hm (lit "Connection");
      keepalive ← match conn_hdr with
        | Some h => d ← mg_vcasecmp b h (lit "keep-alive"); mret (d =? 0)
        | None => d ← mg_vcmp b (proto hm) (lit "HTTP/1.1"); mret (d =? 0)
        end;
      c ← mg_send_response_line_s c status_code extra_headers;
      c ← mg_printf malloc udp c (file_head st status_code cl keepalive range mime_type);
      mg_http_transfer_file_data udp c (mk_file (Some (data, pos)) cl 0 keepalive)
  | _, _ =>
      c ← mg_http_send_error c (if errno =? EACCES then 403 else if errno =? ENOENT then 404 else 500) (lit "Open failed");
      mret (c, no_file, true)
  end.

Definition mg_http_send_options (c : conn) : outcome conn :=
  mg_printf malloc udp c (lit "HTTP/1.1 200 OK" ++ CRLF ++ lit "Allow: GET, POST, HEAD, CONNECT, OPTIONS" ++
    lit ", MKCOL, PUT, DELETE, PROPFIND, MOVE" ++ CRLF ++ lit "DAV: 1,2" ++ CRLF ++ CRLF).

(** The answers that [mg_serve_http] sends itself; the other ones are not modelled. *)
Definition send_action (b : list Z) (hm : http_message) (c : conn) (a : file_action) (extra_headers : list Z) : option (outcome (conn * mg_http_proto_data_file * bool)) :=
  let close (close : bool) (r : outcome conn) := Some (c ← r; mret (c, no_file, close)) in
  match a with
  | SendError code reason => close true (mg_http_send_error c code reason)
  | Moved uri => close false (mg_printf malloc udp c (lit "HTTP/1.1 301 Moved" ++ CRLF ++ lit "Location: " ++ uri ++ lit "/" ++ CRLF ++
      lit "Content-Length: 0" ++ CRLF ++ CRLF))
  | Redirected location => close false (c ← mg_send_response_line c 301 [];
      mg_printf malloc udp c (lit "Content-Length: 0" ++ CRLF ++ lit "Location: " ++ location ++ CRLF ++ CRLF))
  | AskPassword domain => close false (match domain with
      | Some d => mg_http_send_digest_auth_request now malloc udp c d
      | None => Fault NullPointer
      end)
  | SendOptions => close true (mg_http_send_options c)
  | SendFile path mime_type => Some (mg_http_serve_file b hm c path mime_type extra_headers)
  | RunCgi _ _ | Dav _ _ | SendListing _ | RunSsi _ => None
  end.

End sending.

(** ** The transfer *)

(** What leaves the connection at the events: the network takes bytes from the
    send buffer, and a file that is open goes on. *)
Record delivery := mk_delivery { on : conn; file : mg_http_proto_data_file; delivered : list Z; closing : bool }.

Definition deliver_event (udp : bool) (s : delivery) (k : Z) : outcome delivery :=
  let n := Z.min k (mb_len (send_mbuf (on s))) in
  m ← mbuf_remove (send_mbuf (on s)) n;
  let s := mk_delivery (mk_conn m (answers (on s))) (file s) (delivered s ++ slice (sent (on s)) 0 n) (closing s) in
  match fp (file s) with
  | Some _ => '(c, f, close) ← mg_http_transfer_file_data udp (on s) (file s); mret (mk_delivery c f (delivered s) (closing s || close))
  | None => mret s
  end.

Fixpoint deliver_events (udp : bool) (s : delivery) (ks : list Z) : outcome delivery :=
  match ks with [] => mret s | k :: ks => s ← deliver_event udp s k; deliver_events udp s ks end.

Lemma drained c n k : can_send k c -> 0 <= n ->
  let n := Z.min n (mb_len (send_mbuf c)) in
  exists m, mbuf_remove (send_mbuf c) n = Ret m /\ can_send (n + k) (mk_conn m (answers c)) /\
    sent c = slice (sent c) 0 n ++ content m /\ size (sent c) = n + size (content m).
Proof.
  intros [Hw Ha Hr Hk] Hn n'. pose proof (wf_len _ Hw) as Hl. pose proof (size_content _ Hw) as Hs.
  destruct (split_at (sent c) n') as (h & t & E & Eh); [unfold sent; lia|].
  destruct (mbuf_remove_front _ h t Hw E) as (m & Em & Hm & Hlm & Cm). rewrite Eh in Em. exists m. split; [done|].
  destruct (mbuf_remove_same _ _ _ Em) as [Ea Ez].
  assert (size (sent c) = n' + size t) as Hsz by (rewrite E, size_app; lia). rewrite Cm. split; [|split; [|done]].
  - split; cbn [send_mbuf answers]; [done| |done|unfold sent in *; cbn [send_mbuf]; rewrite Cm; lia]. by unfold addr_ok in *; rewrite Ea, Ez.
  - rewrite E at 2. by rewrite <- Eh, slice_prefix.
Qed.

Section delivery.
Context (udp : bool) (data : list Z) (pos len : Z) (ka : bool).
Hypothesis Hpos : 0 <= pos /\ 0 <= len /\ pos + len <= size data.

Definition half_sent (n : Z) : mg_http_proto_data_file := mk_file (Some (data, pos + n)) len n ka.

Lemma transfer_step c n : 0 <= n <= len -> can_send (len - n) c ->
  (exists c' j, mg_http_transfer_file_data udp c (half_sent n) = Ret (c', half_sent (n + j), false) /\ 0 <= j <= len - n /\
     sent c' = sent c ++ slice data (pos + n) j /\ can_send (len - (n + j)) c' /\ (j = 0 -> MG_MAX_HTTP_SEND_MBUF <= size (sent c))) \/
  n = len /\ mg_http_transfer_file_data udp c (half_sent n) = Ret (c, no_file, negb ka).
Proof.
  intros Hn Hc. pose proof (size_content _ (cs_wf _ _ Hc)) as Hl. fold (sent c) in Hl. unfold mg_http_transfer_file_data, half_sent. cbn [cl fp sent_bytes keepalive fread].
  rewrite <- Hl. unfold MG_MAX_HTTP_SEND_MBUF. set (r := if (len - n >? 0) && _ then _ else _).
  assert (r = 0 /\ 4096 <= size (sent c) \/ n = len /\ 0 < r \/ n < len /\ 0 < r <= 4096 /\ r <= len - n) as [[E Hr]|[[-> Hr]|(Hn' & Hr & Hr')]].
  { subst r. pose proof (size_nonneg (sent c)). destruct (Z.ltb_spec (size (sent c)) 4096), (Z.gtb_spec (len - n) 0); cbn [andb];
      try destruct (Z.gtb_spec (4096 - size (sent c)) (len - n)); try destruct (Z.gtb_spec 0 (len - n)); lia. }
  - left. rewrite E. exists c, 0. rewrite slice_nil, app_nil_r, !Z.add_0_r. split_and!; (done || lia).
  - right. split; [done|]. rewrite (proj2 (Z.eqb_neq _ _)) by lia. by rewrite Z.ltb_irrefl.
  - left. rewrite (proj2 (Z.eqb_neq _ _)), (proj2 (Z.ltb_lt _ _)) by lia. fold (slice data (pos + n) r).
    assert (size (slice data (pos + n) r) = r) as Hs by (apply size_slice; lia).
    rewrite Hs, (proj2 (Z.gtb_lt _ _)) by lia. cbn [andb].
    destruct (mg_send_sends udp (slice data (pos + n) r) ltac:(lia) c (len - (n + r))) as (c' & E & Es & Hc'); [rewrite Hs; by replace (r + (len - (n + r))) with (len - n) by lia|lia|].
    rewrite Hs in E. exists c', r. rewrite E, bind_Ret. replace (pos + (n + r)) with (pos + n + r) by lia. split_and!; (done || lia).
Qed.

(** [start] is what was sent before the file. *)
Definition delivering (start : list Z) (s : delivery) : Prop :=
  (exists n, 0 <= n <= len /\ file s = half_sent n /\ closing s = false /\ can_send (len - n) (on s) /\ delivered s ++ sent (on s) = start ++ slice data pos n) \/
  file s = no_file /\ closing s = negb ka /\ can_send 0 (on s) /\ delivered s ++ sent (on s) = start ++ slice data pos len.

Definition to_do (s : delivery) : Z := match fp (file s) with Some _ => 1 + 2 * (len - sent_bytes (file s)) + size (sent (on s)) | None => 0 end.

Lemma to_do_pos start s : delivering start s -> 0 <= to_do s.
Proof. unfold to_do. intros [(n & Hn & -> & _)|(-> & _)]; cbn [fp no_file half_sent sent_bytes]; [pose proof (size_nonneg (sent (on s))); lia|done]. Qed.

Lemma event_step start s k : delivering start s -> 0 <= k ->
  exists s', deliver_event udp s k = Ret s' /\ delivering start s' /\ (1 <= k -> to_do s' < to_do s \/ to_do s' = 0).
Proof.
  intros [(n & Hn & Ef & Ec & Hc & Eo)|(Ef & Ec & Hc & Eo)] Hk; unfold deliver_event, to_do; destruct s as [c f out cls]; cbn [on file delivered closing] in *; subst f cls.
  - destruct (drained c k _ Hc Hk) as (m & Em & Hm & Es & Ez). set (kk := Z.min k (mb_len (send_mbuf c))) in *. rewrite Em, bind_Ret. cbn [on file delivered closing].
    pose proof (size_content _ (cs_wf _ _ Hc)) as Hl. fold (sent c) in Hl. pose proof (size_nonneg (sent c)). pose proof (size_nonneg (content m)).
    set (c1 := mk_conn m (answers c)) in *. apply (sends_weaken _ (len - n)) in Hm; [|lia]. change (fp (half_sent n)) with (Some (data, pos + n)). cbv iota.
    assert (sent c1 = content m) as E1 by done.
    destruct (transfer_step c1 n Hn Hm) as [(c' & j & -> & Hj & Es' & Hc' & Hj0)|[-> ->]]; rewrite bind_Ret; (eexists; split; [done|]); cbn [on file delivered closing fp no_file half_sent sent_bytes].
    + split; [|].
      * left. exists (n + j). split_and!; try (done || lia). cbn [on delivered]. rewrite Es', E1, (slice_app data pos n j), !app_assoc by lia. f_equal. by rewrite <- (app_assoc out), <- Es.
      * intros Hk1. left. rewrite Es', size_app, E1, size_slice by lia. unfold MG_MAX_HTTP_SEND_MBUF in *. rewrite E1 in Hj0.
        destruct (decide (j = 0)) as [->|]; [specialize (Hj0 eq_refl)|]; lia.
    + split; [|by right]. right. split_and!; [done|done|by rewrite Z.sub_diag in Hm|]. cbn [on delivered]. by rewrite E1, <- app_assoc, <- Es.
  - destruct (drained c k _ Hc Hk) as (m & Em & Hm & Es & Ez). rewrite Em, bind_Ret. cbn [on file delivered closing fp no_file].
    eexists; split; [done|]. split; [|by right]. right. cbn [on file delivered closing]. split_and!; [done|done|apply (sends_weaken _ _ _ Hm); pose proof (wf_len _ (cs_wf _ _ Hc)); lia|].
    change (sent (mk_conn m (answers c))) with (content m). by rewrite <- app_assoc, <- Es.
Qed.

Lemma events_step start ks s : delivering start s -> Forall (Z.le 0) ks ->
  exists s', deliver_events udp s ks = Ret s' /\ delivering start s' /\ (Forall (Z.le 1) ks -> to_do s' = 0 \/ to_do s' + size ks <= to_do s).
Proof.
  revert s. induction ks as [|k ks IH]; intros s Hs Hks; [exists s; split_and!; [done|done|intros _; right; change (size (@nil Z)) with 0; lia]|].
  apply Forall_cons_1 in Hks as [Hk Hks]. destruct (event_step start s k Hs Hk) as (s1 & E1 & H1 & T1).
  destruct (IH s1 H1 Hks) as (s2 & E2 & H2 & T2). exists s2. cbn [deliver_events]. rewrite E1, bind_Ret. split_and!; [done|done|].
  intros [F1 F2]%Forall_cons_1. specialize (T1 F1). specialize (T2 F2). rewrite size_cons. pose proof (to_do_pos _ _ H2). pose proof (size_nonneg ks). lia.
Qed.
End delivery.

(** Whatever the header asks for, the answer is a part of the file. *)
Lemma range_within malloc header n status len range pos :
  0 <= n -> range_of malloc header n = Ret (status, len, range, pos) -> 0 <= pos /\ 0 <= len /\ pos + len <= n.
Proof.
  intros Hn. unfold range_of.
  destruct (match header with Some h => mg_http_parse_range_header malloc h | None => mret (0, 0, 0) end) as [[[k r1] r2]|]; [|done].
  rewrite bind_Ret. destruct (Z.gtb_spec k 0), (Z.geb_spec r1 0), (Z.geb_spec r2 0); cbn [andb]; try (intros [= <- <- <- <-]; lia).
  set (e := if k =? 1 then n - 1 else r2). destruct (Z.gtb_spec r1 e), (Z.geb_spec e n); cbn [orb]; intros [= <- <- <- <-]; lia.
Qed.

(** C11: A file that is being sent is never damaged.  Whatever range the request
    asks for, and whatever the network takes at each event, at every moment what has
    left the connection and what waits in its buffer are what was there before and
    the first bytes of that part of the file.  And it arrives: when every event
    takes at least a byte, after twice as many events as there are bytes the file
    is closed, which happens only when the whole part was sent, and the connection
    is to be closed exactly when it is not kept alive. *)
Theorem file_delivered (udp malloc : bool) (data : list Z) (header : option (list Z)) (status len pos : Z) (range : list Z) (ka : bool) (c : conn) (ks : list Z) :
  range_of malloc header (size data) = Ret (status, len, range, pos) -> can_send len c -> Forall (Z.le 0) ks ->
  exists s, deliver_events udp (mk_delivery c (mk_file (Some (data, pos)) len 0 ka) [] false) ks = Ret s /\
    (exists n, 0 <= n <= len /\ delivered s ++ sent (on s) = sent c ++ slice data pos n /\ (fp (file s) = None -> n = len /\ closing s = negb ka)) /\
    (Forall (Z.le 1) ks -> 2 * len + size (sent c) < size ks -> fp (file s) = None).
Proof.
  intros Hp%range_within Hc Hks; [|apply size_nonneg]. set (s0 := mk_delivery _ _ _ _).
  assert (file s0 = half_sent data pos len ka 0) as E0 by (unfold half_sent; cbn [file]; by rewrite Z.add_0_r).
  assert (delivering data pos len ka (sent c) s0) as H0.
  { left. exists 0. split_and!; try (done || lia); [by rewrite Z.sub_0_r|]. by rewrite slice_nil, app_nil_r. }
  destruct (events_step udp data pos len ka Hp (sent c) ks s0 H0 Hks) as (s & E & Hs & T). exists s. split; [done|]. split.
  - destruct Hs as [(n & Hn & Ef & Ec & _ & Eo)|(Ef & Ec & _ & Eo)]; [exists n|exists len]; rewrite Ef; split_and!; (done || lia).
  - intros F Hk. specialize (T F). pose proof (to_do_pos data pos len ka _ _ Hs). unfold to_do in T at 3. rewrite E0 in T. cbn [half_sent fp sent_bytes on s0] in T.
    unfold to_do in *. destruct Hs as [(n & Hn & Ef & _)|(Ef & _)]; rewrite Ef in *; [|done]. cbn [half_sent fp sent_bytes] in *. pose proof (size_nonneg (sent (on s))). lia.
Qed.

Lemma file_delivered_witness : exists s,
  deliver_events false (mk_delivery fresh_conn (mk_file (Some (lit "some picture", 5)) 7 0 false) [] false) (replicate 15 1) = Ret s /\ fp (file s) = None /\ closing s = true.
Proof.
  destruct (file_delivered false true (lit "some picture") (Some (lit "bytes=5-")) 206 7 5 (lit "Content-Range: bytes 5-11/12" ++ CRLF) false fresh_conn (replicate 15 1))
    as (s & E & (n & _ & _ & Hn) & Hf); [by vm_compute|apply fresh_can_send; by split|apply Forall_replicate; lia|].
  assert (fp (file s) = None) as F by (apply Hf; [apply Forall_replicate; lia|done]). exists s. split_and!; [done|done|by apply Hn].
Defined.

(** ** Examples *)

Definition some_data : list Z := map (fun i => i mod 251) (seqZ 0 6000).
Definition sent_file (range : list Z) : outcome (list Z * mg_http_proto_data_file * bool) :=
  let rq := lit "GET /a.png HTTP/1.1" ++ CRLF ++ range ++ CRLF in
  '(n, hm) ← mg_parse_http (rq ++ [0]) 0 (size rq) http0 true;
  '(c, f, close) ← mg_http_serve_file true false (fun _ => lit "(date)") 0 (fun _ => Some (mk_stat S_REG 6000 255)) (fun _ => Some some_data) 0
      (rq ++ [0]) hm fresh_conn (lit "/a.png") (lit "image/png") [];
  mret (sent c, f, close).

Example range_part : (r ← sent_file (lit "Range: bytes=10-19" ++ CRLF); mret (r.1.1)) = Ret (
  lit "HTTP/1.1 206 Partial Content" ++ CRLF ++ lit "Server: Mongoose/6.5" ++ CRLF ++ lit "Date: (date)" ++ CRLF ++ lit "Last-Modified: (date)" ++ CRLF ++
  lit "Accept-Ranges: bytes" ++ CRLF ++ lit "Content-Type: image/png" ++ CRLF ++ lit "Connection: keep-alive" ++ CRLF ++ lit "Content-Length: 10" ++ CRLF ++
  lit "Content-Range: bytes 10-19/6000" ++ CRLF ++ lit "Etag: " ++ quoted (lit "ff.6000") ++ CRLF ++ CRLF ++ [10; 11; 12; 13; 14; 15; 16; 17; 18; 19]).
Proof. vm_compute. reflexivity. Qed.
Example range_open : range_of true (Some (lit "bytes=5990-")) 6000 = Ret (206, 10, lit "Content-Range: bytes 5990-5999/6000" ++ CRLF, 5990).
Proof. vm_compute. reflexivity. Qed.
(** A range that ends behind the file is refused, and one of the last bytes is not
    understood. *)
Example range_long : range_of true (Some (lit "bytes=0-9999")) 6000 = Ret (416, 0, lit "Content-Range: bytes */6000" ++ CRLF, 0).
Proof. vm_compute. reflexivity. Qed.
Example range_suffix : range_of true (Some (lit "bytes=-500")) 6000 = Ret (200, 6000, [], 0).
Proof. vm_compute. reflexivity. Qed.
