(* ===== verification/Listing.v ===== *)
(** * The listing of a directory (mongoose.c, http.c)

    The page that [mg_serve_http] sends for a folder without an index file: its
    rows are made of the names that [readdir] gives.  The contents of the folder,
    the answers of [stat] and the texts of [strftime] are arguments. *)

From Stdlib Require Import ZArith Lia String.
From stdpp Require Import base list numbers option.
From S2P Require Import Prelude Strs Cpp Double Addr Mbuf Http Conn HttpServer Forms Files Digest Serve Transfer.

Local Open Scope Z_scope.

(** ** The code *)

Definition MAX_PATH_SIZE : Z := 500.

(** [src] is followed by its terminator. *)
Definition mg_escape (src dst : list Z) (dst_len : Z) : outcome (list Z) :=
  '(dst, n) ← loop (S (length src)) (fun '(i, dst, n) =>
    c ← rd src i;
    if negb (c =? 0) && (n + 5 <? dst_len) then
      if c =? 60 then
        let t := take (Z.to_nat (dst_len - n - 1)) (lit "&lt;") ++ [0] in
        dst ← memcpy dst n t 0 (size t); mret (inl (i + 1, dst, n + 4))
      else dst ← wr dst n c; mret (inl (i + 1, dst, n + 1))
    else mret (inr (dst, n))) (0, dst, 0);
  wr dst n 0.

(** ["%.1f"] of [n / d] for a number of type [double]: the nearest tenth. *)
Definition one_decimal (n d : Z) : list Z :=
  let t := round_div (n * 10) d in to_string (t / 10) ++ lit "." ++ to_string (t mod 10).

Definition size_text (is_dir : bool) (fsize : Z) : list Z :=
  if is_dir then lit "[DIRECTORY]" else
  if fsize <? 1024 then to_string fsize else
  if fsize <? 1048576 then one_decimal fsize 1024 ++ lit "k" else
  if fsize <? 1073741824 then one_decimal fsize 1048576 ++ lit "M" else
  one_decimal (default fsize (to_Z (of_Z fsize))) 1073741824 ++ lit "G".

(** The row of a file with the encoded and the escaped name. *)
Definition row (href path mod_ : list Z) (st : cs_stat_t) : list Z :=
  let is_dir := bool_decide (st_mode st = S_DIR) in
  let slash := if is_dir then lit "/" else [] in
  lit "<tr><td><a href=" ++ quoted (href ++ slash) ++ lit ">" ++ path ++ slash ++ lit "</a></td>" ++
  lit "<td>" ++ mod_ ++ lit "</td><td name=" ++ to_string (if is_dir then -1 else st_size st) ++ lit ">" ++ size_text is_dir (st_size st) ++ lit "</td></tr>" ++ [10].

Definition sort_js_code : list Z :=
  lit "<script>function srt(tb, sc, so, d) {" ++
  lit "var tr = Array.prototype.slice.call(tb.rows, 0)," ++
  lit "tr = tr.sort(function (a, b) { var c1 = a.cells[sc], c2 = b.cells[sc]," ++
  lit "n1 = c1.getAttribute('name'), n2 = c2.getAttribute('name'), " ++
  lit "t1 = a.cells[2].getAttribute('name'), " ++
  lit "t2 = b.cells[2].getAttribute('name'); " ++
  lit "return so * (t1 < 0 && t2 >= 0 ? -1 : t2 < 0 && t1 >= 0 ? 1 : " ++
  lit "n1 ? parseInt(n2) - parseInt(n1) : " ++
  lit "c1.textContent.trim().localeCompare(c2.textContent.trim())); });".
Definition sort_js_code2 : list Z :=
  lit "for (var i = 0; i < tr.length; i++) tb.appendChild(tr[i]); " ++
  lit "if (!d) window.location.hash = ('sc=' + sc + '&so=' + so); " ++
  lit "};" ++
  lit "window.onload = function() {" ++
  lit "var tb = document.getElementById('tb');" ++
  lit "var m = /sc=([012]).so=(1|-1)/.exec(window.location.hash) || [0, 2, 1];" ++
  lit "var sc = m[1], so = m[2]; document.onclick = function(ev) { " ++
  lit "var c = ev.target.rel; if (c) {if (c == sc) so *= -1; srt(tb, c, so); " ++
  lit "sc = c; ev.preventDefault();}};" ++
  lit "srt(tb, sc, so, true);" ++
  lit "}" ++
  lit "</script>".

Definition page_head (uri : list Z) : list Z :=
  lit "<html><head><title>Index of " ++ uri ++ lit "</title>" ++ sort_js_code ++ sort_js_code2 ++
  lit "<style>th,td {text-align: left; padding-right: 1em; " ++ lit "font-family: monospace; }</style></head>" ++ [10] ++
  lit "<body><h1>Index of " ++ uri ++ lit "</h1>" ++ [10] ++ lit "<table cellpadding=0><thead>" ++
  lit "<tr><th><a href=# rel=0>Name</a></th><th>" ++ lit "<a href=# rel=1>Modified</a</th>" ++
  lit "<th><a href=# rel=2>Size</a></th></tr>" ++ lit "<tr><td colspan=3><hr></td></tr>" ++ [10] ++ lit "</thead>" ++ [10] ++ lit "<tbody id=tb>".

Definition page_end : list Z :=
  lit "</tbody><tr><td colspan=3><hr></td></tr>" ++ [10] ++ lit "</table>" ++ [10] ++
  lit "<address>" ++ mg_version_header ++ lit "</address>" ++ [10] ++ lit "</body></html>".

Definition listing_head : list Z :=
  lit "Transfer-Encoding: chunked" ++ CRLF ++ lit "Content-Type: text/html; charset=utf-8" ++ CRLF ++ CRLF.

Section listing.
Context (malloc udp : bool) (local_time : Z -> list Z) (stack : nat -> list Z).
Context (opendir : list Z -> option (list (list Z))) (mg_stat : list Z -> option cs_stat_t).

(** [mg_printf_http_chunk] of a format whose output is this text. *)
Definition printf_chunk (c : conn) (text : list Z) : outcome conn :=
  let len := mg_avprintf malloc text in
  if len >=? 0 then mg_send_http_chunk udp c text len else mret c.

Definition mg_print_dir_entry (c : conn) (file_name : list Z) (stp : cs_stat_t) : outcome conn :=
  path ← mg_escape (file_name ++ [0]) (stack 500) MAX_PATH_SIZE;
  '(href, _) ← mg_url_encode (file_name ++ [0]) 0 (size file_name) (stack 1500) (MAX_PATH_SIZE * 3);
  path ← cstr path 0;
  href ← cstr href 0;
  printf_chunk c (row href path (local_time (st_mtime stp)) stp).

(** The loop over what [readdir] gives. *)
Fixpoint scan_entries (dir : list Z) (opts : mg_serve_http_opts) (func : conn -> list Z -> cs_stat_t -> outcome conn) (c : conn) (names : list (list Z)) : outcome conn :=
  match names with
  | [] => mret c
  | d_name :: names =>
      hidden ← mg_is_file_hidden d_name opts true;
      c ← (if hidden : bool then mret c else
        match mg_stat (take (Z.to_nat (MAX_PATH_SIZE - 1)) (dir ++ lit "/" ++ d_name)) with
        | Some st => func c d_name st
        | None => mret c
        end);
      scan_entries dir opts func c names
  end.

Definition mg_scan_directory (c : conn) (dir : list Z) (opts : mg_serve_http_opts) (func : conn -> list Z -> cs_stat_t -> outcome conn) : outcome conn :=
  match opendir dir with Some names => scan_entries dir opts func c names | None => mret c end.

(** The connection is closed when everything is sent. *)
Definition mg_send_directory_listing (b : list Z) (c : conn) (dir : list Z) (hm : http_message) (extra_headers : list Z) (opts : mg_serve_http_opts) : outcome conn :=
  c ← mg_send_response_line malloc udp c 200 extra_headers;
  c ← mg_printf malloc udp c listing_head;
  uri ← str_at b (huri hm);
  let uri := take_while (fun x => negb (x =? 0)) uri in
  c ← printf_chunk c (page_head uri);
  c ← mg_scan_directory c dir opts mg_print_dir_entry;
  c ← printf_chunk c page_end;
  mg_send_http_chunk udp c [] 0.

End listing.

(** ** What the page is *)

(** A name with its opening brackets written out, cut where the array is full. *)
Fixpoint html_from (room : Z) (n : Z) (s : list Z) : list Z :=
  match s with
  | [] => []
  | c :: s => if n + 5 <? room then if c =? 60 then lit "&lt;" ++ html_from room (n + 4) s else c :: html_from room (n + 1) s else []
  end.
Definition html (s : list Z) : list Z := html_from MAX_PATH_SIZE 0 s.

Lemma html_inert room : forall s n, (60 ∉ html_from room n s) /\ (0 ∉ s -> 0 ∉ html_from room n s) /\ size (html_from room n s) <= Z.max 0 (room - n).
Proof.
  induction s as [|c s IH]; intros n; cbn [html_from]; [split_and!; [apply not_elem_of_nil|intros _; apply not_elem_of_nil|size_lia]|].
  destruct (Z.ltb_spec (n + 5) room); [|split_and!; [apply not_elem_of_nil|intros _; apply not_elem_of_nil|size_lia]].
  destruct (Z.eqb_spec c 60); [destruct (IH (n + 4)) as (H1 & H2 & H3)|destruct (IH (n + 1)) as (H1 & H2 & H3)].
  - rewrite size_app. change (size (lit "&lt;")) with 4. rewrite !not_elem_of_app. split_and!; [by apply (bool_decide_unpack _)|done| |lia].
    rewrite not_elem_of_cons. intros [_ H0]. split; [by apply (bool_decide_unpack _)|by apply H2].
  - rewrite size_cons, !not_elem_of_cons. split_and!; [done|done|intros [? ?]; by split; [|apply H2]|lia].
Qed.

Lemma mg_escape_spec s dst : 0 ∉ s -> size dst = MAX_PATH_SIZE ->
  exists rest, mg_escape (s ++ [0]) dst MAX_PATH_SIZE = Ret (html s ++ 0 :: rest).
Proof.
  intros H0 Hd. cut (wp (mg_escape (s ++ [0]) dst MAX_PATH_SIZE) (fun d => exists rest, d = html s ++ 0 :: rest)); [by intros (d & E & rest & ->); exists rest|]. unfold mg_escape. apply wp_bind.
  eapply wp_mono; [apply (wp_loop
    (fun '(i, d, n) => exists s1 s2 o q, s = s1 ++ s2 /\ i = size s1 /\ d = o ++ q /\ n = size o /\ size d = MAX_PATH_SIZE /\ n < MAX_PATH_SIZE /\ html s = o ++ html_from MAX_PATH_SIZE n s2)
    (fun '(i, _, _) => Z.to_nat (size s - i)) (fun '(d, n) => exists q, d = html s ++ q /\ n = size (html s) /\ size d = MAX_PATH_SIZE /\ n < MAX_PATH_SIZE))|].
  - intros [[i d] n] (s1 & s2 & o & q & -> & -> & -> & -> & Hs & Hn & Hh). unfold MAX_PATH_SIZE in *. rewrite size_app in Hs. pose proof (size_nonneg s1). pose proof (size_nonneg s2).
    rewrite <- app_assoc. destruct s2 as [|c s2].
    { cbn [app]. apply wp_bind. eapply wp_of_eq; [apply rd_at0|]. cbn [Z.eqb negb andb]. apply wp_mret. cbn [html_from] in Hh. rewrite (app_nil_r o) in Hh. exists q. rewrite Hh, size_app. split_and!; (done || lia). }
    cbn [app]. apply wp_bind. eapply wp_of_eq; [apply rd_at0|]. cbn beta.
    apply not_elem_of_app in H0 as [_ [Hc _]%not_elem_of_cons]. rewrite (proj2 (Z.eqb_neq c 0)) by done. cbn [negb andb]. cbn [html_from] in Hh.
    destruct (Z.ltb_spec (size o + 5) 500).
    + destruct (Z.eqb_spec c 60).
      * assert (take (Z.to_nat (500 - size o - 1)) (lit "&lt;") = lit "&lt;") as -> by (apply take_ge; change (length (lit "&lt;")) with 4%nat; lia).
        apply wp_bind. eapply wp_of_eq; [apply memcpy_after; [done|done|change (size (lit "&lt;" ++ [0])) with 5; lia]|]. cbn beta. apply wp_mret. split; [|size_lia].
        assert (size (drop (length (lit "&lt;" ++ [0])) q) = size q - 5) as Hq by (unfold size in *; rewrite length_drop; simpl length; lia).
        exists (s1 ++ [c]), s2, (o ++ lit "&lt;"), ([0] ++ drop (length (lit "&lt;" ++ [0])) q). change (lit "&lt;" ++ [0]) with (38 :: 108 :: 116 :: 59 :: [0]) in *.
        rewrite <- !app_assoc. split_and!; try done; rewrite ?size_app, ?Hq; change (size (lit "&lt;")) with 4; change (size [38; 108; 116; 59; 0]) with 5; size_lia.
      * apply wp_bind. destruct q as [|x q]; [size_lia|]. eapply wp_of_eq; [apply wr_after; done|]. cbn beta. apply wp_mret. split; [|size_lia].
        exists (s1 ++ [c]), s2, (o ++ [c]), q. rewrite <- !app_assoc. split_and!; try (done || size_lia).
    + apply wp_mret. rewrite (app_nil_r o) in Hh. exists q. rewrite Hh, size_app. split_and!; (done || lia).
  - exists [], s, [], dst. split_and!; (done || by unfold MAX_PATH_SIZE).
  - pose proof (size_nonneg s). unfold size in *. rewrite length_app. lia.
  - intros [d n] (q & -> & -> & Hs & Hn). destruct q as [|x q]; [rewrite app_nil_r in Hs; lia|]. eapply wp_of_eq; [apply wr_after; done|]. by exists q.
Qed.

Lemma html_no_nul s : 0 ∉ s -> 0 ∉ html s.
Proof. apply html_inert. Qed.

(** An encoded name stays between the quotes of its attribute. *)
Lemma escaped_inert s : bytes s -> Forall (fun c => c <> 34 /\ c <> 60 /\ c <> 62) (escaped s) /\ (0 ∉ s -> 0 ∉ escaped s).
Proof.
  assert (Hx : forall v, 48 <= hex_of v <= 57 \/ 97 <= hex_of v \/ hex_of v = 0).
  { intros v. unfold hex_of. destruct (hex !! Z.to_nat v) as [x|] eqn:E; [|by right; right].
    eapply (Forall_lookup_1 (fun x => 48 <= x <= 57 \/ 97 <= x \/ x = 0) hex); [|exact E].
    let l := eval vm_compute in hex in change hex with l. repeat (apply Forall_cons_2; [lia|]). apply Forall_nil_2. }
  assert (Hn : forall v, 0 <= v < 16 -> hex_of v <> 0).
  { intros v Hv E. destruct (hex_ok v Hv) as (_ & X & _). by rewrite E in X. }
  intros Hb. induction Hb as [|c s Hc Hb [IH1 IH2]]; [split; [apply Forall_nil_2|done]|]. unfold escaped in *. cbn [map concat].
  assert (K : kept c = true -> c <> 34 /\ c <> 60 /\ c <> 62) by (intros K; split_and!; intros ->; by vm_compute in K).
  destruct (nibbles c Hc) as (H1 & H2 & _). split.
  - apply Forall_app_2; [|done]. unfold escaped_byte. destruct (kept c); [apply Forall_cons_2; [by apply K|apply Forall_nil_2]|].
    pose proof (Hx (Z.shiftr c 4)). pose proof (Hx (Z.land c 15)). repeat apply Forall_cons_2; try apply Forall_nil_2; lia.
  - intros [H0 Hs]%not_elem_of_cons. rewrite not_elem_of_app. split; [|by apply IH2]. unfold escaped_byte.
    destruct (kept c); rewrite !not_elem_of_cons; split_and?; try apply not_elem_of_nil; try done; intros E; [by apply (Hn _ H1)|by apply (Hn _ H2)].
Qed.

Ltac lit_sizes := repeat match goal with |- context [size (lit ?s)] => let n := eval vm_compute in (size (lit s)) in change (size (lit s)) with n end.

Lemma size_row href path m st : size href <= 1500 -> size path <= 500 -> size m < 64 -> size (row href path m st) < 2 ^ 12.
Proof.
  intros Hh Hp Hm. assert (size (size_text (bool_decide (st_mode st = S_DIR)) (st_size st)) <= 50) as Ht.
  { assert (forall n d, size (one_decimal n d) <= 43) as H1.
    { intros n d. unfold one_decimal. rewrite !size_app. lit_sizes. pose proof (size_to_string (round_div (n * 10) d / 10)). pose proof (size_to_string (round_div (n * 10) d mod 10)). lia. }
    unfold size_text. repeat (case_match; [first [rewrite size_app; lit_sizes; pose proof (H1 (st_size st) 1024); pose proof (H1 (st_size st) 1048576); lia|pose proof (size_to_string (st_size st)); lit_sizes; lia]|]).
    rewrite size_app. lit_sizes. pose proof (H1 (default (st_size st) (to_Z (of_Z (st_size st)))) 1073741824). lia. }
  unfold row, quoted. rewrite !size_app. lit_sizes. pose proof (size_to_string (if bool_decide (st_mode st = S_DIR) then -1 else st_size st)).
  assert (size (if bool_decide (st_mode st = S_DIR) then lit "/" else []) <= 1) by (case_match; [by vm_compute|by vm_compute]).
  change (size [34]) with 1. change (size [10]) with 1. lia.
Qed.

Lemma size_take_le {A} n (l : list A) : size (take n l) <= size l.
Proof. unfold size. rewrite length_take. lia. Qed.

Section page.
Context (udp : bool) (local_time : Z -> list Z) (stack : nat -> list Z).
Context (opendir : list Z -> option (list (list Z))) (mg_stat : list Z -> option cs_stat_t) (root : list Z).
Context (Hstack : forall n, size (stack n) = Z.of_nat n) (Htime : forall t, size (local_time t) < 64).
Abbreviation opts := (with_defaults (only_root root)).

(** A name in a folder. *)
Definition file_name (s : list Z) : Prop := bytes s /\ (0 ∉ s) /\ size s <= 255.

Definition row_of (x : list Z * cs_stat_t) : list Z := row (escaped x.1) (html x.1) (local_time (st_mtime x.2)) x.2.

(** The entries that are shown, with what [stat] says. *)
Definition shown (dir : list Z) (name : list Z) : option (list Z * cs_stat_t) :=
  match mg_is_file_hidden name opts true with
  | Ret false => option_map (pair name) (mg_stat (take (Z.to_nat (MAX_PATH_SIZE - 1)) (dir ++ lit "/" ++ name)))
  | _ => None
  end.

Lemma printf_chunk_sends t : size t < 2 ^ 31 -> sends (fun c => printf_chunk true udp c t) (wire_chunk t).
Proof.
  intros Ht. unfold printf_chunk, mg_avprintf. rewrite andb_false_r, orb_false_r. rewrite (Z.gtb_ltb (size t) INT_MAX), (proj2 (Z.ltb_ge INT_MAX _)) by (unfold INT_MAX; lia).
  rewrite Z.geb_leb, (proj2 (Z.leb_le 0 _)) by apply size_nonneg. by apply send_chunk.
Qed.

Lemma cstr_front s rest : 0 ∉ s -> cstr (s ++ 0 :: rest) 0 = Ret s.
Proof.
  intros H0. rewrite (cstr_cstring _ 0 (size s)); [by rewrite slice_prefix|]. pose proof (size_nonneg s). pose proof (size_nonneg rest).
  split_and!; [done|lia|size_lia|by rewrite slice_prefix|]. rewrite Z.add_0_l, size_to_nat. by apply list_lookup_middle.
Qed.

Lemma print_entry_sends name st : file_name name -> sends (fun c => mg_print_dir_entry true udp local_time stack c name st) (wire_chunk (row_of (name, st))).
Proof.
  intros (Hb & H0 & Hs). pose proof (size_nonneg name). pose proof (size_escaped name) as He. destruct (escaped_inert name Hb) as [_ Hz]. destruct (html_inert MAX_PATH_SIZE name 0) as (_ & Hh & Hl).
  intros c k Hc Hk. unfold mg_print_dir_entry. destruct (mg_escape_spec name (stack 500) H0 (Hstack 500)) as (rest & ->). rewrite bind_Ret.
  rewrite (mg_url_encode_spec (name ++ [0]) 0 name) by (first [done|rewrite Hstack; unfold MAX_PATH_SIZE; lia|size_lia|by rewrite slice_prefix]). rewrite bind_Ret.
  rewrite cstr_front by by apply Hh. rewrite bind_Ret.
  unfold fill. rewrite <- app_assoc. cbn [app]. rewrite cstr_front by by apply Hz. rewrite bind_Ret.
  apply (printf_chunk_sends (row_of (name, st))); [|done..]. eapply Z.lt_trans; [apply size_row; [cbn [fst]; lia| |apply Htime]|done].
  unfold MAX_PATH_SIZE in Hl. unfold html, MAX_PATH_SIZE. cbn [fst]. lia.
Qed.

Lemma scan_sends dir names : Forall file_name names ->
  sends (fun c => scan_entries mg_stat dir opts (mg_print_dir_entry true udp local_time stack) c names) (concat (map (fun x => wire_chunk (row_of x)) (omap (shown dir) names))).
Proof.
  induction names as [|n names IH]; intros H c k Hc Hk; [by apply sends_nil|]. apply Forall_cons_1 in H as [Hn H]. cbn [scan_entries omap list_omap] in *.
  assert (text n) as Ht by (destruct Hn as (_ & ? & ?); split; [done|lia]).
  destruct (wp_hidden [] n opts true Ht eq_refl eq_refl) as (h & Eh & _). unfold shown at 1 in Hc. unfold shown at 1. rewrite Eh in *. rewrite bind_Ret.
  destruct h; [by apply IH|]. destruct (mg_stat _) as [st|]; cbn [option_map] in *; [|by apply IH].
  apply (sends_bind (fun c => mg_print_dir_entry true udp local_time stack c n st) (fun c => scan_entries mg_stat dir opts (mg_print_dir_entry true udp local_time stack) c names)); [by apply print_entry_sends|by apply IH|done..].
Qed.
End page.

(** The head of the answer. *)
Definition response_head (extra_headers : list Z) : list Z :=
  lit "HTTP/1.1 200 OK" ++ CRLF ++ lit "Server: Mongoose/6.5" ++ CRLF ++ (if size extra_headers >? 0 then extra_headers ++ CRLF else []) ++ listing_head.

Definition listing_answer local_time mg_stat root dir names (uri extra_headers : list Z) : list Z :=
  response_head extra_headers ++ wire_chunk (page_head uri) ++
  concat (map (fun x => wire_chunk (row_of local_time x)) (omap (shown mg_stat root dir) names)) ++ wire_chunk page_end ++ wire_chunk [].

Lemma response_head_sends udp extra : size extra < 2 ^ 30 ->
  sends (fun c => c ← mg_send_response_line true udp c 200 extra; mg_printf true udp c listing_head) (response_head extra).
Proof.
  intros He. pose proof (size_nonneg extra). unfold response_head.
  assert (sends (fun c => mg_send_response_line true udp c 200 extra) (lit "HTTP/1.1 200 OK" ++ CRLF ++ lit "Server: Mongoose/6.5" ++ CRLF ++ (if size extra >? 0 then extra ++ CRLF else []))) as H1.
  { unfold mg_send_response_line, mg_send_response_line_s.
    assert (lit "HTTP/1.1 200 OK" ++ CRLF ++ lit "Server: Mongoose/6.5" ++ CRLF ++ (if size extra >? 0 then extra ++ CRLF else []) =
      (lit "HTTP/1.1 " ++ to_string 200 ++ lit " " ++ status_message 200 ++ CRLF ++ lit "Server: " ++ mg_version_header ++ CRLF) ++ (if size extra >? 0 then extra ++ CRLF else [])) as -> by done.
    apply (sends_bind (fun c => mg_printf true udp c (lit "HTTP/1.1 " ++ to_string 200 ++ lit " " ++ status_message 200 ++ CRLF ++ lit "Server: " ++ mg_version_header ++ CRLF))
      (fun c => if size extra >? 0 then mg_printf true udp c (extra ++ CRLF) else mret c)); [by apply mg_printf_sends|].
    destruct (Z.gtb_spec (size extra) 0); [|apply sends_nil]. apply mg_printf_sends; [by destruct extra|]. rewrite size_app. change (size CRLF) with 2. lia. }
  assert (forall y, lit "HTTP/1.1 200 OK" ++ CRLF ++ lit "Server: Mongoose/6.5" ++ CRLF ++ (if size extra >? 0 then extra ++ CRLF else []) ++ y =
    (lit "HTTP/1.1 200 OK" ++ CRLF ++ lit "Server: Mongoose/6.5" ++ CRLF ++ (if size extra >? 0 then extra ++ CRLF else [])) ++ y) as -> by (intros; by rewrite <- !app_assoc).
  apply (sends_bind (fun c => mg_send_response_line true udp c 200 extra) (fun c => mg_printf true udp c listing_head)); [done|by apply mg_printf_sends].
Qed.

Lemma size_page_head uri : size uri < 2 ^ 28 -> size (page_head uri) < 2 ^ 31.
Proof.
  intros Hu. unfold page_head. rewrite !size_app. assert (size sort_js_code < 1000) by (by vm_compute). assert (size sort_js_code2 < 1000) by (by vm_compute).
  lit_sizes. change (size [10]) with 1. lia.
Qed.

Lemma listing_body_sends udp local_time stack opendir mg_stat root dir uri names :
  (forall n, size (stack n) = Z.of_nat n) -> (forall t, size (local_time t) < 64) -> opendir dir = Some names -> Forall file_name names -> size uri < 2 ^ 28 ->
  sends (fun c => c ← printf_chunk true udp c (page_head uri);
      c ← mg_scan_directory opendir mg_stat c dir (with_defaults (only_root root)) (mg_print_dir_entry true udp local_time stack);
      c ← printf_chunk true udp c page_end; mg_send_http_chunk udp c [] 0)
    (wire_chunk (page_head uri) ++ concat (map (fun x => wire_chunk (row_of local_time x)) (omap (shown mg_stat root dir) names)) ++ wire_chunk page_end ++ wire_chunk []).
Proof.
  intros Hst Ht Hd Hn Hu. unfold mg_scan_directory. rewrite Hd.
  apply (sends_bind (fun c => printf_chunk true udp c (page_head uri)) (fun c => c ← scan_entries mg_stat dir (with_defaults (only_root root)) (mg_print_dir_entry true udp local_time stack) c names;
      c ← printf_chunk true udp c page_end; mg_send_http_chunk udp c [] 0)); [by apply printf_chunk_sends, size_page_head|].
  apply (sends_bind (fun c => scan_entries mg_stat dir (with_defaults (only_root root)) (mg_print_dir_entry true udp local_time stack) c names)
    (fun c => c ← printf_chunk true udp c page_end; mg_send_http_chunk udp c [] 0)); [by apply scan_sends|].
  apply (sends_bind (fun c => printf_chunk true udp c page_end) (fun c => mg_send_http_chunk udp c [] 0)); [by apply printf_chunk_sends|by apply (send_chunk udp [])].
Qed.

(** C27: The page for a folder is what is sent, chunk by chunk: its head with the
    path, a row for every entry of the folder that is not hidden, in the order of
    [readdir], and its end.  Whatever the names of the files are, they stay data:
    the name in the link has no quote and no bracket, and the name that is shown
    opens no tag. *)
Theorem listing_page udp local_time stack opendir mg_stat root b c dir hm extra names k :
  (forall n, size (stack n) = Z.of_nat n) -> (forall t, size (local_time t) < 64) -> opendir dir = Some names -> Forall file_name names ->
  p (huri hm) <> None -> str_in b (huri hm) -> 0 ∉ str_bytes b (huri hm) -> size (str_bytes b (huri hm)) < 2 ^ 28 -> size extra < 2 ^ 30 ->
  can_send (size (listing_answer local_time mg_stat root dir names (str_bytes b (huri hm)) extra) + k) c -> 0 <= k ->
  (exists c', mg_send_directory_listing true udp local_time stack opendir mg_stat b c dir hm extra (with_defaults (only_root root)) = Ret c' /\
    sent c' = sent c ++ listing_answer local_time mg_stat root dir names (str_bytes b (huri hm)) extra /\ can_send k c') /\
  Forall (fun name => Forall (fun c => c <> 34 /\ c <> 60 /\ c <> 62) (escaped name) /\ 60 ∉ html name) names.
Proof.
  intros Hst Ht Hd Hn Hp Hin H0 Hu He Hc Hk. split.
  - set (uri := str_bytes b (huri hm)) in *.
    destruct (sends_bind (fun c => c ← mg_send_response_line true udp c 200 extra; mg_printf true udp c listing_head) _ _ _ (response_head_sends udp extra He)
      (listing_body_sends udp local_time stack opendir mg_stat root dir uri names Hst Ht Hd Hn Hu) c k Hc Hk) as (c' & E & Hs & Hc').
    exists c'. split; [|done]. rewrite <- E. unfold mg_send_directory_listing. destruct (mg_send_response_line _ _ _ _ _) as [c1|]; [|done]. rewrite !bind_Ret.
    destruct (mg_printf _ _ _ _) as [c2|]; [|done]. rewrite !bind_Ret, (str_at_ok b) by done. rewrite bind_Ret. cbv zeta.
    rewrite take_while_id; [done|]. fold uri. apply Forall_forall. intros x Hx%list_elem_of_In. destruct (Z.eqb_spec x 0) as [->|]; [done|done].
  - eapply Forall_impl; [|exact Hn]. intros name (Hb & _). split; [by apply escaped_inert|by apply html_inert].
Qed.

Lemma listing_page_witness : exists c', mg_send_directory_listing true false (fun _ => lit "(date)") stack_ones (fun _ => Some [lit "a <b>.txt"; lit "sub"]) (fun _ => Some (mk_stat S_REG 1536 7))
    (lit "GET / HTTP/1.1") fresh_conn (lit "/img") (set_uri http0 (mk_str (Some 4) 1)) [] (with_defaults (only_root (lit "/img"))) = Ret c' /\
    sent c' = sent fresh_conn ++ listing_answer (fun _ => lit "(date)") (fun _ => Some (mk_stat S_REG 1536 7)) (lit "/img") (lit "/img") [lit "a <b>.txt"; lit "sub"] (lit "/") [] /\
    can_send 0 c'.
Proof.
  apply (listing_page false (fun _ => lit "(date)") stack_ones (fun _ => Some [lit "a <b>.txt"; lit "sub"]) (fun _ => Some (mk_stat S_REG 1536 7)) (lit "/img")
    (lit "GET / HTTP/1.1") fresh_conn (lit "/img") (set_uri http0 (mk_str (Some 4) 1)) [] [lit "a <b>.txt"; lit "sub"] 0); try done.
  - intros n. unfold stack_ones, size. by rewrite length_replicate.
  - repeat constructor; try lia; try (by vm_compute); by apply (bool_decide_unpack _).
  - by apply (bool_decide_unpack _).
Defined.

(** ** Examples *)

(** The page for a folder with these names, as what was sent. *)
Definition some_files : list (list Z) := [lit "."; lit ".."; lit ".htpasswd"; lit "a <b>.txt"; lit "sub"].
Definition listing_of (uri : list Z) : outcome (list Z) :=
  c ← mg_send_directory_listing true false (fun _ => lit "(date)") stack_ones (fun _ => Some some_files)
    (fun path => Some (if bool_decide (path = lit "/img/sub") then mk_stat S_DIR 4096 7 else mk_stat S_REG 1536 7))
    uri fresh_conn (lit "/img") (set_uri http0 (mk_str (Some 0) (size uri))) [] (with_defaults (only_root (lit "/img")));
  mret (sent c).

Definition listing_example (uri : list Z) : list Z :=
  lit "HTTP/1.1 200 OK" ++ CRLF ++ lit "Server: Mongoose/6.5" ++ CRLF ++ listing_head ++ wire_chunk (page_head uri) ++
  wire_chunk (row (lit "a%20%3cb%3e.txt") (lit "a &lt;b>.txt") (lit "(date)") (mk_stat S_REG 1536 7)) ++
  wire_chunk (row (lit "sub") (lit "sub") (lit "(date)") (mk_stat S_DIR 4096 7)) ++ wire_chunk page_end ++ wire_chunk [].
Example listing_page_ok : listing_of (lit "/") = Ret (listing_example (lit "/")).
Proof. vm_compute. reflexivity. Qed.
Example row_text : row (lit "a%20%3cb%3e.txt") (lit "a &lt;b>.txt") (lit "(date)") (mk_stat S_REG 1536 7) =
  lit "<tr><td><a href=" ++ [34] ++ lit "a%20%3cb%3e.txt" ++ [34] ++ lit ">a &lt;b>.txt</a></td><td>(date)</td><td name=1536>1.5k</td></tr>" ++ [10].
Proof. vm_compute. reflexivity. Qed.
(** The names of files are escaped, the URI is not: a path that leads back to the
    root puts a script into the page. *)
Definition script_uri : list Z := lit "/<script>alert(1)</script>/%2e%2e/%2e%2e/".
Example listing_script : (let rq := lit "GET " ++ script_uri ++ lit " HTTP/1.1" ++ CRLF ++ CRLF in
  '(n, hm) ← mg_parse_http (rq ++ [0]) 0 (size rq) http0 true;
  '(b, a) ← mg_serve_http (fun p => if bool_decide (p = lit "/img") then Some (mk_stat S_DIR 0 0) else None) fresh_block (fun _ => None)
    1479000000 stack_ones 8000 0 (rq ++ [0]) hm (with_root "/img");
  mret a) = Ret (SendListing (lit "/img")) /\ listing_of script_uri = Ret (listing_example script_uri).
Proof. vm_compute. split; reflexivity. Qed.
