(* ===== verification/Multipart.v ===== *)
(** * Bodies in several parts and URLs of clients (mongoose.c, http.c)

    [mg_parse_multipart], which reads the first part of a body that was sent by a
    form, and the splitting of the URLs that clients connect to. *)

From Stdlib Require Import ZArith Lia String.
From stdpp Require Import base list numbers option.
From S2P Require Import Prelude Strs Http Digest.

Local Open Scope Z_scope.

(** ** The code *)

(** The length of the line at [q], with its end, or 0. *)
Definition mg_get_line_len (b : list Z) (q buf_len : Z) : outcome Z :=
  len ← loop (S (length b)) (fun len =>
    if len <? buf_len then c ← rd b (q + len); if negb (c =? 10) then mret (inl (len + 1)) else mret (inr len) else mret (inr len)) 0;
  mret (if len =? buf_len then 0 else len + 1).

Definition cd : list Z := lit "Content-Disposition: ".

(** What is written to the arrays, and where the data are. *)
Record part := mk_part { var_name : list Z; file_name : list Z; data : Z; data_len : Z; next_part : Z }.

(** The headers of the part, whose end is [hl]. *)
Definition part_header (b : list Z) (hl : Z) (st : Z * list Z * list Z) : outcome (Z * list Z * list Z + list Z * list Z) :=
  let '(n, var_name, file_name) := st in
  let cdl := size cd in
  ll ← mg_get_line_len b n (u64 (hl - n));
  if ll >? 0 then
    d ← mg_ncasecmp (cd ++ [0]) 0 b n cdl;
    if d =? 0 then
      let header := mk_str (Some (n + cdl)) (u64 (ll - (cdl + 2))) in
      '(var_name, _) ← mg_http_parse_header b header (lit "name") var_name;
      '(file_name, _) ← mg_http_parse_header b header (lit "filename") file_name;
      mret (inl (n + ll, var_name, file_name))
    else mret (inl (n + ll, var_name, file_name))
  else mret (inr (var_name, file_name)).

(** The bytes of the body are those of [b]; the result is [None] for 0. *)
Definition mg_parse_multipart (b : option (list Z)) (buf_len : Z) (var_name file_name : list Z) : outcome (list Z * list Z * option part) :=
  match b with
  | None => mret (var_name, file_name, None)
  | Some b =>
      if buf_len =? 0 then mret (var_name, file_name, None) else
      hl ← mg_http_get_request_len b 0 (s32 buf_len);
      let hl := u64 hl in
      if hl =? 0 then mret (var_name, file_name, None) else
      c0 ← rd b 0;
      dashes ← (if c0 =? 45 then c1 ← rd b 1; if c1 =? 45 then c2 ← rd b 2; mret (negb (c2 =? 10)) else mret false else mret false);
      if negb dashes then mret (var_name, file_name, None) else
      bl ← mg_get_line_len b 0 buf_len;
      var_name ← wr var_name 0 0;
      file_name ← wr file_name 0 0;
      '(var_name, file_name) ← loop (S (length b)) (part_header b hl) (bl, var_name, file_name);
      pos ← loop (S (Z.to_nat buf_len)) (fun pos =>
        if u64 (pos + u64 (bl - 2)) <? buf_len then
          c ← rd b pos;
          d ← (if c =? 45 then memcmp b 0 b pos (u64 (bl - 2)) else mret 1);
          if d =? 0 then mret (inr (Some pos)) else mret (inl (u64 (pos + 1)))
        else mret (inr None)) hl;
      mret (var_name, file_name, match pos with Some pos => Some (mk_part var_name file_name hl (u64 (pos - 2 - hl)) pos) | None => None end)
  end.

(** *** The URLs of clients *)

(** The host with its port, whether the port is the one of the scheme, and the
    path; [None] for an error.  [url] is followed by its terminator. *)
Definition mg_http_common_url_parse (url schema schema_tls : list Z) : outcome (option (list Z * Z * list Z)) :=
  m ← memcmp (url ++ [0]) 0 schema 0 (size schema);
  t ← (if m =? 0 then mret 1 else memcmp (url ++ [0]) 0 schema_tls 0 (size schema_tls));
  if negb (m =? 0) && (t =? 0) then mret None else
  let rest := if m =? 0 then drop (length schema) url else url in
  let addr := take_while (fun c => negb (c =? 47)) rest in
  let path := drop (length addr) rest in
  if bool_decide (addr = []) then mret None else
  let port_i := fold_left (fun '(i, at_) c => (i + 1, if c =? 58 then i else at_)) addr (0, -1) in
  let path := if bool_decide (path = []) then lit "/" else path in
  if port_i.2 <? 0 then mret (Some (addr ++ lit ":80", size addr, path)) else mret (Some (addr, -1, path)).

(** ** Examples *)

Definition first_part : list Z :=
  lit "--xyz" ++ CRLF ++ lit "Content-Disposition: form-data; name=" ++ quoted (lit "pic") ++ lit "; filename=" ++ quoted (lit "me.png") ++ CRLF ++
  lit "Content-Type: image/png" ++ CRLF ++ CRLF ++ lit "-data-" ++ CRLF ++ lit "--xyz--" ++ CRLF.

Example multipart_ok : ('(v, f, r) ← mg_parse_multipart (Some first_part) (size first_part) (replicate 10 1) (replicate 20 1);
  mret (take 4 v, take 7 f, match r with Some r => Some (slice first_part (data r) (data_len r), slice first_part (next_part r) 7) | None => None end)) =
  Ret (lit "pic" ++ [0], lit "me.png" ++ [0], Some (lit "-data-", lit "--xyz--")).
Proof. vm_compute. reflexivity. Qed.
(** The length of the head is an [int] whose -1, for a control character, becomes
    the largest [size_t]. *)
Example multipart_control : mg_parse_multipart (Some (lit "--x" ++ [10; 1] ++ lit "a")) 6 (replicate 10 1) (replicate 20 1) = Fault OutOfBounds.
Proof. vm_compute. reflexivity. Qed.
Example url_ok : mg_http_common_url_parse (lit "http://a.com:8000/x/y") (lit "http://") (lit "https://") = Ret (Some (lit "a.com:8000", -1, lit "/x/y")).
Proof. vm_compute. reflexivity. Qed.
Example url_default : mg_http_common_url_parse (lit "http://a.com") (lit "http://") (lit "https://") = Ret (Some (lit "a.com:80", 5, lit "/")).
Proof. vm_compute. reflexivity. Qed.
Example url_tls : mg_http_common_url_parse (lit "https://a.com") (lit "http://") (lit "https://") = Ret None.
Proof. vm_compute. reflexivity. Qed.
