(* ===== verification/Dll.v ===== *)
(** * Doubly linked lists (mongoose.c, the lists of connections and sessions)

    The event manager links its connections and the MQTT broker its sessions in
    the same way: a head pointer, and [next] and [prev] fields in the nodes.  The
    store maps the address of a node to these fields; 0 is the null pointer.  A
    representation predicate relates the store to a list of addresses, and the
    two operations are the list operations. *)

From Stdlib Require Import ZArith Lia.
From stdpp Require Import base list numbers option gmap fin_maps.
From S2P Require Import Prelude.

Local Open Scope Z_scope.

(** ** The code *)

Record links := mk_links { next : Z; prev : Z }.
Record dll := mk_dll { head : Z; nodes : gmap Z links }.

(** Access through the pointer [x]. *)
Definition node (s : dll) (x : Z) : outcome links :=
  match nodes s !! x with Some l => Ret l | None => Fault (if x =? 0 then NullPointer else OutOfBounds) end.
Definition set_next (s : dll) (x v : Z) : outcome dll :=
  l ← node s x; mret (mk_dll (head s) (<[x := mk_links v (prev l)]> (nodes s))).
Definition set_prev (s : dll) (x v : Z) : outcome dll :=
  l ← node s x; mret (mk_dll (head s) (<[x := mk_links (next l) v]> (nodes s))).
Definition set_head (s : dll) (v : Z) : dll := mk_dll v (nodes s).

(** The list operations of [mg_add_conn] and [mg_mqtt_add_session]. *)
Definition dll_add (s : dll) (c : Z) : outcome dll :=
  s ← set_next s c (head s);
  let s := set_head s c in
  s ← set_prev s c 0;
  l ← node s c;
  if negb (next l =? 0) then set_prev s (next l) c else mret s.

(** Those of [mg_remove_conn] and [mg_mqtt_remove_session]. *)
Definition dll_remove (s : dll) (c : Z) : outcome dll :=
  l ← node s c;
  let s := if prev l =? 0 then set_head s (next l) else s in
  s ← (if negb (prev l =? 0) then set_next s (prev l) (next l) else mret s);
  l ← node s c;
  if negb (next l =? 0) then set_prev s (next l) (prev l) else mret s.

(** [mg_next] and [mg_mqtt_next]. *)
Definition dll_next (s : dll) (c : Z) : outcome Z :=
  if c =? 0 then mret (head s) else l ← node s c; mret (next l).

(** The addresses in order, by iterating [dll_next]. *)
Fixpoint dll_walk (fuel : nat) (s : dll) (c : Z) : outcome (list Z) :=
  match fuel with
  | O => Fault OutOfFuel
  | S fuel => n ← dll_next s c; if n =? 0 then mret [] else l ← dll_walk fuel s n; mret (n :: l)
  end.

(** ** The abstraction *)

(** The nodes [l] are linked in this order, between [p] and [e]. *)
Fixpoint linked (ns : gmap Z links) (p : Z) (l : list Z) (e : Z) : Prop :=
  match l with
  | [] => True
  | x :: r => ns !! x = Some (mk_links (hd e r) p) /\ linked ns x r e
  end.

Record dll_rep (s : dll) (l : list Z) : Prop := {
  rep_head : head s = hd 0 l;
  rep_nodup : NoDup l;
  rep_nonzero : 0 ∉ l;
  rep_linked : linked (nodes s) 0 l 0
}.

Lemma linked_insert ns p l e x v : x ∉ l -> linked ns p l e -> linked (<[x := v]> ns) p l e.
Proof.
  revert p. induction l as [|y l IH]; intros p Hx; [done|]. apply not_elem_of_cons in Hx as [Hne Hx]. simpl.
  intros [H1 H2]. split; [by rewrite lookup_insert_ne|by apply IH].
Qed.

Lemma linked_app ns p l1 l2 e : linked ns p (l1 ++ l2) e <-> linked ns p l1 (hd e l2) /\ linked ns (default p (last l1)) l2 e.
Proof.
  revert p. induction l1 as [|x l1 IH]; intros p; simpl; [tauto|]. rewrite IH.
  assert (hd e (l1 ++ l2) = hd (hd e l2) l1) as -> by (by destruct l1).
  assert (default x (last l1) = default p (last (x :: l1))) as -> by (destruct l1; [done|]; simpl; by destruct (last _) eqn:E; [|apply last_None in E]).
  tauto.
Qed.

(** The back link of the first node changes. *)
Lemma linked_prev ns p q x l e : linked ns p (x :: l) e -> x ∉ l -> linked (<[x := mk_links (hd e l) q]> ns) q (x :: l) e.
Proof. simpl. intros [H1 H2] Hx. split; [by rewrite lookup_insert_eq|by apply linked_insert]. Qed.

(** The forward link of the last node changes. *)
Lemma linked_last ns p l x e e' : linked ns p (l ++ [x]) e -> x ∉ l ->
  ns !! x = Some (mk_links e (default p (last l))) /\ linked (<[x := mk_links e' (default p (last l))]> ns) p (l ++ [x]) e'.
Proof.
  rewrite !linked_app. simpl. intros [H1 [H2 _]] Hx. split_and!; [done|by apply linked_insert|by rewrite lookup_insert_eq|done].
Qed.

Lemma add_spec s l c : dll_rep s l -> c ∉ l -> c <> 0 -> is_Some (nodes s !! c) ->
  exists s', dll_add s c = Ret s' /\ dll_rep s' (c :: l) /\ (forall x, x ∉ c :: l -> nodes s' !! x = nodes s !! x).
Proof.
  intros [Hh Hnd Hnz Hl] Hc Hc0 [k Hk]. unfold dll_add, set_next, node. rewrite Hk. cbn [mbind outcome_bind mret outcome_ret].
  unfold set_head, set_prev, node. cbn [nodes head]. rewrite lookup_insert_eq. cbn [mbind outcome_bind mret outcome_ret next nodes head].
  rewrite !lookup_insert_eq. cbn [mbind outcome_bind mret outcome_ret next]. rewrite insert_insert_eq.
  assert (linked (<[c := mk_links (head s) 0]> (nodes s)) 0 l 0) as Hl1 by (by apply linked_insert).
  assert (forall ns, linked ns c l 0 -> ns !! c = Some (mk_links (head s) 0) -> dll_rep (mk_dll c ns) (c :: l)) as Hrep.
  { intros ns H1 H2. split; [done|by constructor|by apply not_elem_of_cons|]. simpl. by rewrite H2, Hh. }
  destruct l as [|x l]; simpl in Hh; rewrite Hh.
  - cbn [Z.eqb negb]. eexists. split; [reflexivity|]. split; [apply Hrep; [done|rewrite lookup_insert_eq, Hh; done]|].
    intros x Hx. apply not_elem_of_cons in Hx as [? _]. simpl. by rewrite lookup_insert_ne.
  - apply not_elem_of_cons in Hnz as [Hx0 _]. apply not_elem_of_cons in Hc as [Hcx Hc]. rewrite (proj2 (Z.eqb_neq x 0)) by done. cbn [negb].
    rewrite Hh in *. apply NoDup_cons in Hnd as [Hxl _]. pose proof (linked_prev _ _ c _ _ _ Hl1 Hxl) as Hl2. destruct Hl1 as [E1 _]. rewrite E1.
    cbn [mbind outcome_bind next mret outcome_ret].
    eexists. split; [reflexivity|]. split; [apply Hrep; [exact Hl2|by rewrite lookup_insert_ne, lookup_insert_eq]|].
    intros y Hy. apply not_elem_of_cons in Hy as [? Hy]. apply not_elem_of_cons in Hy as [? ?]. simpl. by rewrite !lookup_insert_ne by done.
Qed.

Lemma remove_spec s l1 c l2 : dll_rep s (l1 ++ c :: l2) ->
  exists s', dll_remove s c = Ret s' /\ dll_rep s' (l1 ++ l2) /\ (forall x, x ∉ l1 ++ l2 -> nodes s' !! x = nodes s !! x).
Proof.
  intros [Hh Hnd Hnz Hl]. apply linked_app in Hl as [Hl1 Hl2]. destruct Hl2 as [Ec Hl2]. simpl in Hl1.
  apply NoDup_app in Hnd as (Hnd1 & Hdis & Hnd2). apply NoDup_cons in Hnd2 as [Hc2 Hnd2]. rewrite not_elem_of_app, not_elem_of_cons in Hnz. destruct Hnz as (Hz1 & Hc0 & Hz2).
  assert (c ∉ l1) as Hc1 by (intros H; apply (Hdis c H); by left).
  assert (NoDup (l1 ++ l2)) as Hnd by (apply NoDup_app; split_and!; [done|intros x H1 H2; apply (Hdis x H1); by right|done]).
  assert (0 ∉ l1 ++ l2) as Hz by (by apply not_elem_of_app).
  unfold dll_remove, node. rewrite Ec. cbn [mbind outcome_bind prev next]. set (n := hd 0 l2) in *. set (p := default 0 (last l1)) in *.
  (* the forward link of the previous node, or the head *)
  assert (exists s1, (if negb (p =? 0) then set_next (if p =? 0 then set_head s n else s) p n else mret (if p =? 0 then set_head s n else s)) = Ret s1 /\
    head s1 = hd n l1 /\ linked (nodes s1) 0 l1 n /\ (forall x, x ∉ l1 -> nodes s1 !! x = nodes s !! x)) as (s1 & -> & Hh1 & Hl1' & Hf1).
  { destruct l1 as [|q l1' _] using rev_ind.
    - subst p. cbn [last default from_option Z.eqb negb mret outcome_ret]. eexists. split; [reflexivity|]. done.
    - assert (p = q) as Ep by (subst p; by rewrite last_snoc). rewrite Ep. apply not_elem_of_app in Hz1 as [Hz1 Hq]. rewrite list_elem_of_singleton in Hq.
      rewrite (proj2 (Z.eqb_neq q 0)) by done. cbn [negb]. apply NoDup_app in Hnd1 as (_ & Hd1 & _).
      assert (q ∉ l1') as Hq1 by (intros H; apply (Hd1 q H); by left).
      destruct (linked_last _ _ _ _ _ n Hl1 Hq1) as [Eq Hl']. unfold set_next, node. rewrite Eq. cbn [mbind outcome_bind mret outcome_ret prev].
      eexists. split; [reflexivity|]. cbn [head nodes]. split_and!; [rewrite Hh; by destruct l1'|done|].
      intros x Hx. apply not_elem_of_app in Hx as [_ Hx]. rewrite list_elem_of_singleton in Hx. by rewrite lookup_insert_ne. }
  cbn [mbind outcome_bind]. rewrite Hf1, Ec by done. cbn [mbind outcome_bind next prev].
  assert (forall x, x ∈ l2 -> x ∉ l1) as Hd' by (intros x H1 H2; apply (Hdis x H2); by right).
  assert (linked (nodes s1) c l2 0) as Hl2'.
  { clear - Hl2 Hf1 Hd'. revert Hl2. generalize c. induction l2 as [|x l2 IH]; intros c'; [done|]. simpl. intros [H1 H2].
    split; [rewrite Hf1; [done|apply Hd'; by left]|]. apply IH; [|done]. intros y Hy. apply Hd'. by right. }
  destruct l2 as [|x l2].
  - subst n. cbn [hd Z.eqb negb]. exists s1. rewrite app_nil_r in *. split; [done|]. split; [split; [by rewrite Hh1; destruct l1|done..]|]. done.
  - subst n. cbn [hd] in *. apply not_elem_of_cons in Hz2 as [Hx0 _]. rewrite (proj2 (Z.eqb_neq x 0)) by done. cbn [negb].
    apply NoDup_cons in Hnd2 as [Hx2 _]. pose proof (linked_prev _ _ p _ _ _ Hl2' Hx2) as Hl3. destruct Hl2' as [Ex _].
    unfold set_prev, node. rewrite Ex. cbn [mbind outcome_bind mret outcome_ret next]. eexists. split; [reflexivity|]. split.
    + split; cbn [head nodes]; [rewrite Hh1; by destruct l1|done|done|]. apply linked_app. split; [|done].
      apply linked_insert; [|done]. apply Hd'. by left.
    + intros y Hy. apply not_elem_of_app in Hy as [Hy1 Hy2]. apply not_elem_of_cons in Hy2 as [Hyx _]. cbn [nodes]. rewrite lookup_insert_ne by done. by apply Hf1.
Qed.

Lemma next_spec s l1 l2 : dll_rep s (l1 ++ l2) -> dll_next s (default 0 (last l1)) = Ret (hd 0 l2).
Proof.
  intros [Hh _ Hnz Hl]. unfold dll_next. destruct l1 as [|q l1 _] using rev_ind; [by rewrite Hh|].
  rewrite last_snoc. cbn [default from_option id]. rewrite <- app_assoc in *. apply not_elem_of_app in Hnz as [_ Hq]. apply not_elem_of_cons in Hq as [Hq _].
  rewrite (proj2 (Z.eqb_neq q 0)) by done. apply linked_app in Hl as [_ Hl]. destruct Hl as [E _]. unfold node. by rewrite E.
Qed.

Lemma walk_spec s l1 l2 : dll_rep s (l1 ++ l2) -> dll_walk (S (length l2)) s (default 0 (last l1)) = Ret l2.
Proof.
  revert l1. induction l2 as [|x l2 IH]; intros l1 Hr; pose proof (next_spec _ _ _ Hr) as E; cbn [length dll_walk]; rewrite E; cbn [mbind outcome_bind hd]; [done|].
  pose proof (rep_nonzero _ _ Hr) as Hnz. rewrite not_elem_of_app, not_elem_of_cons in Hnz. destruct Hnz as (_ & Hx & _).
  rewrite (proj2 (Z.eqb_neq x 0)) by done. specialize (IH (l1 ++ [x])). rewrite <- app_assoc, last_snoc in IH. cbn [default from_option id app] in IH.
  cbn [length dll_walk] in IH. rewrite (IH Hr). done.
Qed.

Inductive dll_op := Add (c : Z) | Remove (c : Z).
Definition dll_run (s : dll) (op : dll_op) : outcome dll :=
  match op with Add c => dll_add s c | Remove c => dll_remove s c end.
Definition dll_spec (l : list Z) (op : dll_op) : list Z :=
  match op with Add c => c :: l | Remove c => filter (fun x => x <> c) l end.

(** A node that is added is allocated and not in the list yet; one that is
    removed is in it. *)
Definition dll_op_ok (s : dll) (l : list Z) (op : dll_op) : Prop :=
  match op with Add c => (c ∉ l) /\ c <> 0 /\ is_Some (nodes s !! c) | Remove c => c ∈ l end.

Lemma filter_not_in (c : Z) (l : list Z) : c ∉ l -> filter (fun x => x <> c) l = l.
Proof.
  induction l as [|x l IH]; [done|]. intros [Hne Hl]%not_elem_of_cons. rewrite filter_cons_True by done. by rewrite IH.
Qed.

Lemma filter_out (c : Z) (l1 l2 : list Z) : c ∉ l1 -> c ∉ l2 -> filter (fun x => x <> c) (l1 ++ c :: l2) = l1 ++ l2.
Proof.
  intros H1 H2. rewrite filter_app. rewrite filter_cons_False by (intros Hn; by apply Hn).
  by rewrite !filter_not_in.
Qed.

(** C31: the lists of connections and of sessions behave as lists.  On a store
    that represents the list [l], adding a new node puts it first, removing one
    takes it out and leaves the order of the others, and iterating with [next]
    from the null pointer gives exactly the nodes of the list in order; no node
    outside the list changes. *)
Theorem dll_refines_list s l op : dll_rep s l -> dll_op_ok s l op ->
  exists s', dll_run s op = Ret s' /\ dll_rep s' (dll_spec l op) /\
    dll_walk (S (length (dll_spec l op))) s' 0 = Ret (dll_spec l op) /\
    (forall x, x ∉ l -> x ∉ dll_spec l op -> nodes s' !! x = nodes s !! x).
Proof.
  intros Hr Hok. destruct op as [c|c]; simpl in *.
  - destruct Hok as (H1 & H2 & H3). destruct (add_spec s l c Hr H1 H2 H3) as (s' & E & Hr' & Hf). exists s'.
    split_and!; [done|done|by apply (walk_spec s' [] (c :: l))|]. intros x _ Hx. by apply Hf.
  - apply list_elem_of_split in Hok as (l1 & l2 & ->). pose proof (rep_nodup _ _ Hr) as Hnd. apply NoDup_app in Hnd as (_ & Hd & Hnd).
    apply NoDup_cons in Hnd as [Hc2 _]. assert (c ∉ l1) as Hc1 by (intros H; apply (Hd c H); by left).
    rewrite filter_out by done. destruct (remove_spec s l1 c l2 Hr) as (s' & E & Hr' & Hf). exists s'.
    split_and!; [done|done|by apply (walk_spec s' [] (l1 ++ l2))|]. intros x _ Hx. by apply Hf.
Qed.

(** Three nodes; the middle one is removed. *)
Definition three : dll := mk_dll 10 (<[10 := mk_links 20 0]> (<[20 := mk_links 30 10]> (<[30 := mk_links 0 20]> ∅))).

Lemma three_rep : dll_rep three [10; 20; 30].
Proof. split; [done|apply (bool_decide_eq_true_1 _); reflexivity|apply (bool_decide_eq_true_1 _); reflexivity|repeat split]. Qed.

Lemma dll_refines_list_witness :
  exists s', dll_run three (Remove 20) = Ret s' /\ dll_rep s' [10; 30] /\ dll_walk 3 s' 0 = Ret [10; 30] /\
    (forall x, x ∉ [10; 20; 30] -> x ∉ [10; 30] -> nodes s' !! x = nodes three !! x).
Proof. apply (dll_refines_list three [10; 20; 30] (Remove 20)); [apply three_rep|right; left]. Defined.
