(* ===== verification/Broker.v ===== *)
(** * The MQTT broker (mongoose.c, mqtt-broker.c)

    Sessions are linked from the broker ([Dll]), subscriptions are an array in
    the session, and packets go to the send buffers of the connections ([Conn],
    [Mqtt]).  Connections and sessions are known by their addresses.  [malloc]
    and [realloc] succeed, but for the session itself, whose address is an
    argument. *)

From Stdlib Require Import ZArith Lia String.
From stdpp Require Import base list numbers option gmap fin_maps.
From S2P Require Import Prelude Strs Mbuf Conn Mqtt Dll.

Local Open Scope Z_scope.

(** ** The code *)

(** The array [subscriptions]: an entry that realloc has not initialised is
    [None].  The topic of an entry is the allocated memory. *)
Record mg_mqtt_session := mk_session {
  s_nc : Z; num_subscriptions : Z; subscriptions : list (option mg_mqtt_topic_expression); s_user_data : Z
}.

Record mg_mqtt_broker_t := mk_broker {
  brk_sessions : dll;
  sessions : gmap Z mg_mqtt_session;
  nc_user_data : gmap Z Z;
  conns : gmap Z conn;
  mqtt_handled : gset Z   (* connections whose [proto_handler] is [mqtt_handler] *)
}.

Definition get {A} (m : gmap Z A) (x : Z) : outcome A :=
  match m !! x with Some v => Ret v | None => Fault (if x =? 0 then NullPointer else OutOfBounds) end.

Definition set_sessions (brk : mg_mqtt_broker_t) (m : gmap Z mg_mqtt_session) : mg_mqtt_broker_t :=
  mk_broker (brk_sessions brk) m (nc_user_data brk) (conns brk) (mqtt_handled brk).
Definition set_conns (brk : mg_mqtt_broker_t) (m : gmap Z conn) : mg_mqtt_broker_t :=
  mk_broker (brk_sessions brk) (sessions brk) (nc_user_data brk) m (mqtt_handled brk).

(** Sends on connection [nc]. *)
Definition on_conn (brk : mg_mqtt_broker_t) (nc : Z) (f : conn -> outcome conn) : outcome mg_mqtt_broker_t :=
  c ← get (conns brk) nc; c ← f c; mret (set_conns brk (<[nc := c]> (conns brk))).

Definition mg_mqtt_session_init (nc : Z) : mg_mqtt_session := mk_session nc 0 [] 0.

Definition mg_mqtt_add_session (brk : mg_mqtt_broker_t) (s : Z) : outcome mg_mqtt_broker_t :=
  l ← dll_add (brk_sessions brk) s; mret (mk_broker l (sessions brk) (nc_user_data brk) (conns brk) (mqtt_handled brk)).
Definition mg_mqtt_remove_session (brk : mg_mqtt_broker_t) (s : Z) : outcome mg_mqtt_broker_t :=
  l ← dll_remove (brk_sessions brk) s; mret (mk_broker l (sessions brk) (nc_user_data brk) (conns brk) (mqtt_handled brk)).

(** The memory of the session is released: its fields and its links. *)
Definition mg_mqtt_destroy_session (brk : mg_mqtt_broker_t) (s : Z) : mg_mqtt_broker_t :=
  mk_broker (mk_dll (head (brk_sessions brk)) (delete s (nodes (brk_sessions brk)))) (delete s (sessions brk)) (nc_user_data brk) (conns brk) (mqtt_handled brk).
Definition mg_mqtt_close_session (brk : mg_mqtt_broker_t) (s : Z) : outcome mg_mqtt_broker_t :=
  brk ← mg_mqtt_remove_session brk s; mret (mg_mqtt_destroy_session brk s).

(** [new] is the answer of [malloc]: null, or a fresh address. *)
Definition mg_mqtt_broker_handle_connect (brk : mg_mqtt_broker_t) (nc : Z) (new : option Z) : outcome mg_mqtt_broker_t :=
  match new with
  | None => on_conn brk nc (fun c => mg_mqtt_connack c 3)
  | Some s =>
      ud ← get (nc_user_data brk) nc;
      let ss := mg_mqtt_session_init nc in
      let ss := mk_session (s_nc ss) (num_subscriptions ss) (subscriptions ss) ud in
      let brk := mk_broker (mk_dll (head (brk_sessions brk)) (<[s := mk_links 0 0]> (nodes (brk_sessions brk))))
        (<[s := ss]> (sessions brk)) (<[nc := s]> (nc_user_data brk)) (conns brk) (mqtt_handled brk) in
      brk ← mg_mqtt_add_session brk s;
      on_conn brk nc (fun c => mg_mqtt_connack c 0)
  end.

(** The first loop: the requested qualities of service, in an array of 512. *)
Definition qos_step (b : list Z) (msg : mg_mqtt_message) (st : Z * list Z * Z) : outcome (Z * list Z * Z + list Z * Z) :=
  let '(pos, qoss, qoss_len) := st in
  '(pos, t) ← mg_mqtt_next_subscribe_topic b msg pos;
  match t with
  | Some (_, qos) => if pos =? -1 then mret (inr (qoss, qoss_len)) else qoss ← wr qoss qoss_len qos; mret (inl (pos, qoss, qoss_len + 1))
  | None => mret (inr (qoss, qoss_len))
  end.

(** The second: the topics are copied, with [strncpy] of one byte more. *)
Definition topic_step (b : list Z) (msg : mg_mqtt_message) (st : Z * mg_mqtt_session) : outcome (Z * mg_mqtt_session + mg_mqtt_session) :=
  let '(pos, ss) := st in
  '(pos, t) ← mg_mqtt_next_subscribe_topic b msg pos;
  match t with
  | Some (topic, qos) =>
      if pos =? -1 then mret (inr ss) else
      t ← deref (p topic) (fun q => strncpy b q (Z.to_nat (Strs.len topic + 1)));
      subs ← wr (subscriptions ss) (num_subscriptions ss) (Some (mk_te t qos));
      mret (inl (pos, mk_session (s_nc ss) (num_subscriptions ss + 1) subs (s_user_data ss)))
  | None => mret (inr ss)
  end.

Definition mg_mqtt_broker_handle_subscribe (brk : mg_mqtt_broker_t) (nc : Z) (b : list Z) (msg : mg_mqtt_message) : outcome mg_mqtt_broker_t :=
  s ← get (nc_user_data brk) nc;
  ss ← get (sessions brk) s;
  '(qoss, qoss_len) ← loop (S (length b)) (qos_step b msg) (0, replicate 512 0, 0);
  let old := subscriptions ss in
  let subs := take (Z.to_nat qoss_len) old ++ replicate (Z.to_nat qoss_len - length old) None in
  let ss := mk_session (s_nc ss) (num_subscriptions ss) subs (s_user_data ss) in
  ss ← loop (S (length b)) (topic_step b msg) (0, ss);
  let brk := set_sessions brk (<[s := ss]> (sessions brk)) in
  on_conn brk nc (fun c => mg_mqtt_suback c qoss qoss_len (message_id msg)).

(** [strncmp(a, b, n) == 0]; the count may be larger than the objects. *)
Definition strncmp_zero (a b : list Z) (n : Z) : outcome bool :=
  loop (S (length a)) (fun k =>
    if k <? n then
      x ← rd a k; y ← rd b k;
      if x =? y then if x =? 0 then mret (inr true) else mret (inl (k + 1)) else mret (inr false)
    else mret (inr true)) 0.

Definition mg_mqtt_match_topic_expression (exp topic : list Z) : outcome bool :=
  len ← strlen exp 0;
  hash ← strchr exp 0 35;
  let len := match hash with Some _ => len - 2 | None => len end in
  strncmp_zero exp topic (u64 (s32 len)).

(** The loop over the subscriptions of a session, with its [break]. *)
Definition publish_to (brk : mg_mqtt_broker_t) (ss : mg_mqtt_session) (topic : list Z) (tlen : Z) (data : list Z) : outcome mg_mqtt_broker_t :=
  loop (S (length (subscriptions ss))) (fun i =>
    if negb (i <? num_subscriptions ss) then mret (inr brk) else
    te ← rd (subscriptions ss) i;
    match te with
    | None => Fault NullPointer
    | Some te =>
        m ← mg_mqtt_match_topic_expression (te_topic te) topic;
        if m : bool then
          brk ← on_conn brk (s_nc ss) (fun c => mg_mqtt_publish c (take (Z.to_nat tlen) topic) 0 0 data (size data));
          mret (inr brk)
        else mret (inl (i + 1))
    end) 0.

(** [data] are the bytes of the payload. *)
Definition mg_mqtt_broker_handle_publish (brk : mg_mqtt_broker_t) (topic data : list Z) : outcome mg_mqtt_broker_t :=
  tlen ← strlen topic 0;
  s ← dll_next (brk_sessions brk) 0;
  loop (S (map_size (nodes (brk_sessions brk)))) (fun '(s, brk) =>
    if s =? 0 then mret (inr brk) else
    ss ← get (sessions brk) s;
    brk ← publish_to brk ss topic tlen data;
    s ← dll_next (brk_sessions brk) s;
    mret (inl (s, brk))) (s, brk).

(** The events the broker handles. *)
Inductive broker_event :=
| EvAccept
| EvConnect (new : option Z)
| EvSubscribe (b : list Z) (msg : mg_mqtt_message)
| EvPublish (topic data : list Z)
| EvClose.

(** [listener]: whether the connection was accepted by a listening one. *)
Definition mg_mqtt_broker (brk : mg_mqtt_broker_t) (listener : bool) (nc : Z) (ev : broker_event) : outcome mg_mqtt_broker_t :=
  match ev with
  | EvAccept => mret (mk_broker (brk_sessions brk) (sessions brk) (nc_user_data brk) (conns brk) ({[nc]} ∪ mqtt_handled brk))
  | EvConnect new => mg_mqtt_broker_handle_connect brk nc new
  | EvSubscribe b msg => mg_mqtt_broker_handle_subscribe brk nc b msg
  | EvPublish topic data => mg_mqtt_broker_handle_publish brk topic data
  | EvClose => if listener then s ← get (nc_user_data brk) nc; mg_mqtt_close_session brk s else mret brk
  end.

(** One client that subscribes, and one that publishes. *)
Definition broker0 : mg_mqtt_broker_t := mk_broker (mk_dll 0 ∅) ∅ (<[1 := 0]> (<[2 := 0]> ∅)) (<[1 := fresh_conn]> (<[2 := fresh_conn]> ∅)) ∅.
Definition sub_payload (qos : Z) : list Z := [0; 3] ++ lit "a/#" ++ [qos].
Definition sub_msg : mg_mqtt_message := mk_mqtt 8 (mk_str (Some 0) 6) 1 0 9 None.

Definition sent_on (r : outcome mg_mqtt_broker_t) (nc : Z) : option (list Z) :=
  match r with Ret brk => option_map sent (conns brk !! nc) | Fault _ => None end.

Example broker_delivers :
  let r := (b ← mg_mqtt_broker broker0 true 1 (EvConnect (Some 100)); b ← mg_mqtt_broker b true 2 (EvConnect (Some 200));
            b ← mg_mqtt_broker b true 1 (EvSubscribe (sub_payload 0) sub_msg); mg_mqtt_broker b true 2 (EvPublish (lit "a/x" ++ [0]) (lit "hi"))) in
  sent_on r 1 = Some ([32; 2; 0; 0] ++ [146; 3; 0; 9; 0] ++ [48; 7; 0; 3] ++ lit "a/xhi") /\ sent_on r 2 = Some [32; 2; 0; 0].
Proof. vm_compute. done. Qed.

(** A subscription with a quality of service other than 0 has no terminator:
    matching it reads past the allocated topic. *)
Example unterminated_topic :
  (b ← mg_mqtt_broker broker0 true 1 (EvConnect (Some 100)); b ← mg_mqtt_broker b true 1 (EvSubscribe (sub_payload 1) sub_msg);
   mg_mqtt_broker b true 1 (EvPublish (lit "a/x" ++ [0]) (lit "hi"))) = Fault OutOfBounds.
Proof. vm_compute. reflexivity. Qed.

(** A second SUBSCRIBE writes past the array of subscriptions. *)
Example second_subscribe :
  (b ← mg_mqtt_broker broker0 true 1 (EvConnect (Some 100)); b ← mg_mqtt_broker b true 1 (EvSubscribe (sub_payload 0) sub_msg);
   mg_mqtt_broker b true 1 (EvSubscribe (sub_payload 0) sub_msg)) = Fault OutOfBounds.
Proof. vm_compute. reflexivity. Qed.

(** The expression of one sign matches no topic, and one without the sign
    matches every topic it is a prefix of. *)
Example hash_alone : mg_mqtt_match_topic_expression (lit "#" ++ [0]) (lit "a" ++ [0]) = Ret false.
Proof. vm_compute. reflexivity. Qed.
Example prefix_matches : mg_mqtt_match_topic_expression (lit "a/b" ++ [0]) (lit "a/bc" ++ [0]) = Ret true.
Proof. vm_compute. reflexivity. Qed.

(** ** Matching *)

(** A C string in memory. *)
Definition is_cstr (m s : list Z) : Prop := exists r, m = s ++ 0 :: r /\ (0 ∉ s) /\ size s < 2 ^ 31.

(** A topic matches an expression without the sign that is a prefix of it; an
    expression with the sign is compared without its last two characters, and
    alone as a literal. *)
Definition topic_matches (e t : list Z) : Prop :=
  if decide (35 ∈ e) then if decide (size e = 1) then t = e else take (length e - 2) e `prefix_of` t
  else e `prefix_of` t.

#[export] Instance topic_matches_dec e t : Decision (topic_matches e t).
Proof. unfold topic_matches. repeat case_decide; apply _. Defined.

Lemma is_cstr_cstring m s : is_cstr m s -> cstring m 0 (size s).
Proof.
  intros (r & -> & Hn & _). pose proof (size_nonneg s). pose proof (size_nonneg r). split_and!; [lia|lia|rewrite size_app, size_cons; lia| |].
  - by rewrite slice_prefix.
  - rewrite Z.add_0_l, size_to_nat. by rewrite lookup_app_r, Nat.sub_diag by lia.
Qed.

Lemma cstr_at m s k : is_cstr m s -> 0 <= k <= size s -> exists x, rd m k = Ret x /\ (s ++ [0]) !! Z.to_nat k = Some x /\ (x = 0 <-> k = size s).
Proof.
  intros (r & -> & Hn & _) Hk. pose proof (size_nonneg r). destruct (rd_total (s ++ 0 :: r) k) as (x & Hx & E); [rewrite size_app, size_cons; lia|].
  exists x. split; [done|]. destruct (decide (k = size s)) as [->|].
  - rewrite size_to_nat in *. rewrite lookup_app_r, Nat.sub_diag in Hx by lia. injection Hx as <-. by rewrite lookup_app_r, Nat.sub_diag by lia.
  - rewrite lookup_app_l in Hx by (unfold size in *; lia). rewrite lookup_app_l by (unfold size in *; lia). split; [done|].
    split; [|done]. intros ->. exfalso. apply Hn. by apply list_elem_of_lookup_2 in Hx.
Qed.

Lemma strncmp_spec ma a mb b n : is_cstr ma a -> is_cstr mb b -> 0 <= n ->
  strncmp_zero ma mb n = Ret (bool_decide (take (Z.to_nat n) (a ++ [0]) = take (Z.to_nat n) (b ++ [0]))).
Proof.
  intros Ha Hb Hn. apply wp_eq. unfold strncmp_zero. pose proof (size_nonneg a).
  apply wp_loop with (m := fun k => Z.to_nat (size a + 1 - k))
    (I := fun k => 0 <= k <= size a /\ k <= size b /\ k <= n /\ take (Z.to_nat k) (a ++ [0]) = take (Z.to_nat k) (b ++ [0]));
    [|split_and!; [lia|lia|apply size_nonneg|lia|done]|destruct Ha as (r & -> & _); rewrite length_app; simpl; unfold size in *; lia].
  intros k (Hk & Hkb & Hkn & E). wp_step; [|apply wp_mret; replace k with n in E by lia; by rewrite bool_decide_eq_true_2].
  destruct (cstr_at ma a k Ha Hk) as (x & -> & Hx & Hx0). destruct (cstr_at mb b k Hb) as (y & -> & Hy & Hy0); [lia|]. cbn [mbind outcome_bind].
  wp_step; [wp_step|].
  - apply wp_mret. assert (k = size a /\ k = size b) as [-> Eb] by (subst; tauto). rewrite bool_decide_eq_true_2; [done|].
    assert (a ++ [0] = b ++ [0]) as ->; [|done]. rewrite size_to_nat in E. rewrite take_app_length in E. unfold size in Eb.
    assert (length a = length b) as El by lia. rewrite El, take_app_length in E. by rewrite E.
  - apply wp_mret. assert (x <> 0) by congruence. assert (k <> size a) by tauto. assert (k <> size b) by (subst y; tauto).
    split; [|lia]. split_and!; [lia|lia|lia|lia|]. replace (Z.to_nat (k + 1)) with (S (Z.to_nat k)) by lia.
    subst y. by rewrite (take_S_r _ _ _ Hx), (take_S_r _ _ _ Hy), E.
  - apply wp_mret. rewrite bool_decide_eq_false_2; [done|]. intros En.
    assert (forall l z, (l ++ [0]) !! Z.to_nat k = Some z -> take (Z.to_nat n) (l ++ [0]) !! Z.to_nat k = Some z) as Ht
      by (intros l z Hz; by rewrite lookup_take_lt by lia).
    pose proof (Ht _ _ Hx) as Hx'. rewrite En, (Ht _ _ Hy) in Hx'. congruence.
Qed.

Lemma prefix_take (e t : list Z) : e `prefix_of` t <-> take (length e) (t ++ [0]) = e /\ (length e <= length t)%nat.
Proof.
  split.
  - intros [r ->]. rewrite <- app_assoc, take_app_length, length_app. split; [done|lia].
  - intros [E Hl]. rewrite take_app_le in E by done. exists (drop (length e) t). rewrite <- E at 1. by rewrite take_drop.
Qed.

Lemma take_nul_prefix (e t : list Z) k : (k <= length e)%nat -> 0 ∉ e ->
  (take k (e ++ [0]) = take k (t ++ [0]) <-> take k e `prefix_of` t).
Proof.
  intros Hk He. rewrite take_app_le by done. rewrite prefix_take, length_take, Nat.min_l by done. split.
  - intros E. split; [done|]. destruct (decide (k <= length t)%nat) as [|Hgt]; [done|]. exfalso.
    assert (take k (t ++ [0]) !! length t = Some 0) as Hz by (rewrite lookup_take_lt by lia; by rewrite lookup_app_r, Nat.sub_diag by lia).
    rewrite <- E in Hz. apply He. apply list_elem_of_lookup_2 in Hz. by apply elem_of_take in Hz as (i & Hi & _); apply list_elem_of_lookup_2 in Hi.
  - by intros [E _].
Qed.

Lemma match_spec me e mt t : is_cstr me e -> is_cstr mt t ->
  mg_mqtt_match_topic_expression me mt = Ret (bool_decide (topic_matches e t)).
Proof.
  intros He Ht. pose proof (is_cstr_cstring _ _ He) as Hc. pose proof He as (re & Eme & He0 & Hel). pose proof (size_nonneg e).
  apply wp_eq. unfold mg_mqtt_match_topic_expression. rewrite (strlen_spec me 0 (size e) Hc). cbn [mbind outcome_bind].
  assert (slice me 0 (size e) = e) as Esl by (rewrite Eme; apply slice_prefix).
  assert (forall n, 0 <= n <= size e -> bool_decide (take (Z.to_nat n) (e ++ [0]) = take (Z.to_nat n) (t ++ [0])) = bool_decide (take (Z.to_nat n) e `prefix_of` t)) as Hpre
    by (intros n Hn; apply bool_decide_ext, take_nul_prefix; [unfold size in *; lia|done]).
  apply wp_bind, (wp_strchr me 0 (size e)); [done|done| |].
  - intros k Hk Hx _. assert (35 ∈ e) as Hin.
    { rewrite Z.add_0_l, Eme, lookup_app_l in Hx by (unfold size in *; lia). by apply list_elem_of_lookup_2 in Hx. }
    destruct (decide (size e = 1)) as [E1|E1].
    + assert (topic_matches e t <-> t = e) as Em by (unfold topic_matches; repeat case_decide; done).
      rewrite (bool_decide_ext _ _ Em). rewrite E1. change (u64 (s32 (1 - 2))) with (2 ^ 64 - 1). rewrite (strncmp_spec me e mt t) by (done || lia). apply wp_ret.
      apply bool_decide_ext. destruct Ht as (rt & _ & _ & Htl).
      rewrite !take_ge by (rewrite length_app; simpl; unfold size in *; lia). rewrite app_inj_tail_iff. naive_solver.
    + assert (topic_matches e t <-> take (length e - 2) e `prefix_of` t) as Em
        by (unfold topic_matches; repeat case_decide; done).
      rewrite (bool_decide_ext _ _ Em). rewrite s32_small, u64_small by lia. rewrite (strncmp_spec me e mt t) by (done || lia). apply wp_ret. rewrite Hpre by lia.
      replace (Z.to_nat (size e - 2)) with (length e - 2)%nat by (unfold size in *; lia). done.
  - intros Hno. rewrite Esl in Hno.
    assert (topic_matches e t <-> e `prefix_of` t) as Em by (unfold topic_matches; by case_decide). rewrite (bool_decide_ext _ _ Em).
    rewrite s32_small, u64_small by lia. rewrite (strncmp_spec me e mt t) by (done || lia). apply wp_ret. rewrite Hpre by lia.
    rewrite size_to_nat, firstn_all. done.
Qed.

(** ** Publishing delivers to the sessions that subscribed *)

(** The expressions a session has subscribed to. *)
Definition subscribed (ss : mg_mqtt_session) (es : list (list Z)) : Prop :=
  num_subscriptions ss = size es /\ num_subscriptions ss <= size (subscriptions ss) /\
  forall i e, es !! i = Some e -> exists te, subscriptions ss !! i = Some (Some te) /\ is_cstr (te_topic te) e.

Definition wants (t : list Z) (es : list (list Z)) : bool := existsb (fun e => bool_decide (topic_matches e t)) es.

(** The other parts of the broker, and the other connections, do not change. *)
Definition same_but_conns (brk brk' : mg_mqtt_broker_t) : Prop :=
  brk_sessions brk' = brk_sessions brk /\ sessions brk' = sessions brk /\ nc_user_data brk' = nc_user_data brk /\ mqtt_handled brk' = mqtt_handled brk.

Section publish.
Context (t : list Z) (mt : list Z) (data : list Z) (Ht : is_cstr mt t).
Context (Hdata : mqtt_op_ok (Publish t 0 0 data)).
Let pkt := mqtt_op_packet (Publish t 0 0 data).

(** What [nc] gets from session [ss]. *)
Definition delivery (nc : Z) (ss : mg_mqtt_session) (es : list (list Z)) : list Z :=
  if (s_nc ss =? nc) && wants t es then mqtt_op_packet (Publish t 0 0 data) else [].

Lemma on_conn_spec brk nc c n : conns brk !! nc = Some c -> can_send (size pkt + n) c -> 0 <= n ->
  exists c', on_conn brk nc (fun c => mg_mqtt_publish c (take (Z.to_nat (size t)) mt) 0 0 data (size data)) = Ret (set_conns brk (<[nc := c']> (conns brk))) /\
    sent c' = sent c ++ pkt /\ can_send n c'.
Proof using Ht Hdata.
  intros Hc Hs Hn. destruct Ht as (r & Em & _). destruct (publish_sends t 0 0 data Hdata c n Hs Hn) as (c' & E & H1 & H2).
  exists c'. split; [|done]. unfold on_conn, get. rewrite Hc. cbn [mbind outcome_bind]. rewrite Em, size_to_nat, take_app_length, E. done.
Qed.

Lemma publish_to_spec brk ss es c n : subscribed ss es -> conns brk !! s_nc ss = Some c -> can_send (size pkt + n) c -> 0 <= n ->
  exists brk', publish_to brk ss mt (size t) data = Ret brk' /\ same_but_conns brk brk' /\
    exists c', conns brk' = <[s_nc ss := c']> (conns brk) /\ sent c' = sent c ++ (if wants t es then pkt else []) /\ can_send n c'.
Proof using Ht Hdata.
  intros (Hnum & Hcap & Hsub) Hc Hs Hn. pose proof (size_nonneg pkt).
  destruct (wp_loop (fun i => 0 <= i <= size es /\ wants t es = wants t (drop (Z.to_nat i) es)) (fun i => Z.to_nat (size es - i))
    (fun brk' => same_but_conns brk brk' /\ exists c', conns brk' = <[s_nc ss := c']> (conns brk) /\ sent c' = sent c ++ (if wants t es then pkt else []) /\ can_send n c')
    (fun i => if negb (i <? num_subscriptions ss) then mret (inr brk) else
      te ← rd (subscriptions ss) i;
      match te with
      | None => Fault NullPointer
      | Some te =>
          m ← mg_mqtt_match_topic_expression (te_topic te) mt;
          if m : bool then
            brk ← on_conn brk (s_nc ss) (fun c => mg_mqtt_publish c (take (Z.to_nat (size t)) mt) 0 0 data (size data));
            mret (inr brk)
          else mret (inl (i + 1))
      end) (S (length (subscriptions ss))) 0) as (brk' & E & H'); [|split; [pose proof (size_nonneg es); lia|done]|unfold size in *; lia|by exists brk'].
  intros i [Hi Ew]. destruct (Z.ltb_spec i (num_subscriptions ss)) as [Hlt|Hge]; cbn [negb].
  - destruct (lookup_lt_is_Some_2 es (Z.to_nat i)) as [e He]; [unfold size in *; lia|].
    destruct (Hsub _ _ He) as (te & Hte & Hcs). rewrite (rd_ib _ i (Some te)) by (done || lia). cbn [mbind outcome_bind].
    rewrite (match_spec _ e mt t Hcs Ht). cbn [mbind outcome_bind].
    rewrite (drop_S es e _ He) in Ew. cbn [wants existsb] in Ew.
    case_bool_decide as Hm; cbn [orb] in Ew.
    + destruct (on_conn_spec brk (s_nc ss) c n Hc Hs Hn) as (c' & -> & H1 & H2). cbn [mbind outcome_bind]. apply wp_mret.
      split; [done|]. exists c'. by rewrite Ew.
    + apply wp_mret. replace (Z.to_nat (i + 1)) with (S (Z.to_nat i)) by lia. split; [split; [lia|done]|lia].
  - apply wp_mret. split; [done|]. assert (i = size es) as -> by lia. exists c.
    rewrite size_to_nat, drop_ge in Ew by lia. rewrite Ew. cbn [wants existsb]. rewrite app_nil_r, insert_id by done.
    split_and!; [done|done|]. eapply sends_weaken; [done|lia].
Qed.

(** The sessions in order, with what they subscribed to. *)
Definition session_list (brk : mg_mqtt_broker_t) (l : list Z) (sess : list (mg_mqtt_session * list (list Z))) : Prop :=
  Forall2 (fun s x => sessions brk !! s = Some x.1 /\ subscribed x.1 x.2 /\ is_Some (conns brk !! s_nc x.1)) l sess.

Definition deliveries (nc : Z) (sess : list (mg_mqtt_session * list (list Z))) : list Z :=
  concat (map (fun x => delivery nc x.1 x.2) sess).

Definition all_can_send (brk : mg_mqtt_broker_t) (n : Z) : Prop := map_Forall (fun _ c => can_send n c) (conns brk).

Lemma publish_loop l2 : forall l1 sess brk fuel, dll_rep (brk_sessions brk) (l1 ++ l2) -> session_list brk l2 sess ->
  all_can_send brk (size pkt * size l2) -> (length l2 < fuel)%nat ->
  exists brk', loop fuel (fun '(s, brk) =>
      if s =? 0 then mret (inr brk) else
      ss ← get (sessions brk) s;
      brk ← publish_to brk ss mt (size t) data;
      s ← dll_next (brk_sessions brk) s;
      mret (inl (s, brk))) (hd 0 l2, brk) = Ret brk' /\ same_but_conns brk brk' /\
    (forall nc c, conns brk !! nc = Some c -> exists c', conns brk' !! nc = Some c' /\ sent c' = sent c ++ deliveries nc sess).
Proof using Ht Hdata.
  induction l2 as [|s l2 IH]; intros l1 sess brk fuel Hr Hsl Hall Hf; (destruct fuel as [|fuel]; [simpl in Hf; lia|]); rewrite loop_S.
  - inversion Hsl; subst. cbn [hd Z.eqb mret outcome_ret]. exists brk. split_and!; [done|done|].
    intros nc c Hc. exists c. unfold deliveries. simpl. by rewrite app_nil_r.
  - inversion Hsl as [|? [ss es] ? sess' (Hss & Hsub & [c Hc]) Hsl']; subst. cbn [fst snd] in *.
    assert (s <> 0) as Hs0 by (pose proof (rep_nonzero _ _ Hr) as Hz; intros ->; apply Hz, elem_of_app; right; left).
    cbn [hd]. rewrite (proj2 (Z.eqb_neq s 0)) by done. unfold get at 1. rewrite Hss. cbn [mbind outcome_bind].
    rewrite size_cons in Hall. pose proof (size_nonneg l2). pose proof (size_nonneg pkt).
    destruct (publish_to_spec brk ss es c (size pkt * size l2) Hsub Hc) as (brk1 & E1 & (Es1 & Es2 & Es3 & Es4) & c1 & Ec1 & Hsent1 & Hcan1); [|nia|].
    { specialize (Hall _ _ Hc). cbn beta in Hall. by replace (size pkt + size pkt * size l2) with (size pkt * (1 + size l2)) by ring. }
    rewrite E1. cbn [mbind outcome_bind]. rewrite Es1.
    pose proof (next_spec (brk_sessions brk) (l1 ++ [s]) l2) as Hn. rewrite last_snoc, <- app_assoc in Hn. cbn [default from_option id app] in Hn.
    rewrite Hn by done. cbn [mbind outcome_bind mret outcome_ret].
    destruct (IH (l1 ++ [s]) sess' brk1 fuel) as (brk2 & E2 & (Ft1 & Ft2 & Ft3 & Ft4) & Hconn).
    + rewrite Es1, <- app_assoc. done.
    + eapply Forall2_impl; [exact Hsl'|]. intros s' [ss' es'] (H1 & H2 & H3). rewrite Es2. split_and!; [done|done|]. rewrite Ec1. cbn [fst].
      destruct (decide (s_nc ss = s_nc ss')) as [->|]; [rewrite lookup_insert_eq; eauto|by rewrite lookup_insert_ne].
    + intros nc c0. rewrite Ec1. destruct (decide (s_nc ss = nc)) as [->|]; [rewrite lookup_insert_eq; by intros [= <-]|rewrite lookup_insert_ne by done].
      intros Hc0. eapply sends_weaken; [by apply (Hall _ _ Hc0)|nia].
    + simpl in Hf. lia.
    + exists brk2. split; [done|]. split; [split_and!; congruence|]. intros nc c0 Hc0. unfold deliveries. cbn [map concat]. unfold delivery at 1. cbn [fst snd].
      destruct (Z.eqb_spec (s_nc ss) nc) as [En|En]; cbn [andb].
      * subst nc. assert (c0 = c) as -> by congruence. destruct (Hconn (s_nc ss) c1) as (c' & H1 & H2); [by rewrite Ec1, lookup_insert_eq|].
        exists c'. split; [done|]. rewrite H2, Hsent1, <- app_assoc. done.
      * destruct (Hconn nc c0) as (c' & H1 & H2); [by rewrite Ec1, lookup_insert_ne|]. by exists c'.
Qed.
End publish.

Lemma linked_allocated ns p l e x : linked ns p l e -> x ∈ l -> is_Some (ns !! x).
Proof.
  revert p. induction l as [|y l IH]; intros p; [by intros _ ?%not_elem_of_nil|]. simpl. intros [H1 H2].
  intros [->|Hx]%elem_of_cons; [by rewrite H1|by eapply IH].
Qed.

Lemma length_nodes {A} (m : gmap Z A) l : NoDup l -> (forall x, x ∈ l -> is_Some (m !! x)) -> (length l <= map_size m)%nat.
Proof.
  intros Hnd Hin. change (map_size m) with (base.size m). rewrite <- (size_list_to_set (C := gset Z) l Hnd). rewrite <- (size_dom m).
  apply subseteq_size. intros x Hx. apply elem_of_dom, Hin. by apply elem_of_list_to_set in Hx.
Qed.

(** C30: a published message is delivered to exactly the sessions with a
    subscription that matches as the code understands it, once each and in the
    order of the list: every connection receives one PUBLISH packet of quality of
    service 0 for each of its sessions that wants the topic, and nothing else; the
    sessions and their subscriptions do not change.  The subscriptions are strings
    with a terminator, which those that arrive with a quality of service above 0
    are not, see [unterminated_topic]; an expression matches the topics it is a prefix of, up to
    two characters before a "#" in it, and "+" stands for itself. *)
Theorem broker_publish_delivers brk l sess t mt data :
  dll_rep (brk_sessions brk) l -> session_list brk l sess -> is_cstr mt t -> mqtt_op_ok (Publish t 0 0 data) ->
  all_can_send brk (size (mqtt_op_packet (Publish t 0 0 data)) * size l) ->
  exists brk', mg_mqtt_broker_handle_publish brk mt data = Ret brk' /\ same_but_conns brk brk' /\
    (forall nc c, conns brk !! nc = Some c -> exists c', conns brk' !! nc = Some c' /\
       sent c' = sent c ++ concat (map (fun x => delivery t data nc x.1 x.2) sess)).
Proof.
  intros Hr Hsl Ht Hok Hall. unfold mg_mqtt_broker_handle_publish. rewrite (strlen_spec mt 0 (size t)) by (by apply is_cstr_cstring). cbn [mbind outcome_bind].
  pose proof (next_spec (brk_sessions brk) [] l Hr) as Hn. cbn [last default from_option] in Hn. rewrite Hn. cbn [mbind outcome_bind].
  apply (publish_loop t mt data Ht Hok l [] sess brk); [done|done|done|].
  pose proof (length_nodes (nodes (brk_sessions brk)) l (rep_nodup _ _ Hr) (fun x => linked_allocated _ _ _ _ x (rep_linked _ _ Hr))). lia.
Qed.

Definition two_sessions : mg_mqtt_broker_t := mk_broker
  (mk_dll 100 (<[100 := mk_links 200 0]> (<[200 := mk_links 0 100]> ∅)))
  (<[100 := mk_session 1 1 [Some (mk_te (lit "a/#" ++ [0]) 0)] 0]> (<[200 := mk_session 2 1 [Some (mk_te (lit "b" ++ [0]) 0)] 0]> ∅))
  (<[1 := 100]> (<[2 := 200]> ∅)) (<[1 := fresh_conn]> (<[2 := fresh_conn]> ∅)) ∅.
Definition two_list : list (mg_mqtt_session * list (list Z)) :=
  [(mk_session 1 1 [Some (mk_te (lit "a/#" ++ [0]) 0)] 0, [lit "a/#"]); (mk_session 2 1 [Some (mk_te (lit "b" ++ [0]) 0)] 0, [lit "b"])].

Lemma one_subscription nc m e : is_cstr m e -> subscribed (mk_session nc 1 [Some (mk_te m 0)] 0) [e].
Proof.
  intros He. split_and!; [done|done|]. intros [|[|i]] e'; simpl; try done. intros [= <-]. by eexists.
Qed.

Lemma broker_publish_delivers_witness :
  exists brk', mg_mqtt_broker_handle_publish two_sessions (lit "a/x" ++ [0]) (lit "hi") = Ret brk' /\ same_but_conns two_sessions brk' /\
    (forall nc c, conns two_sessions !! nc = Some c -> exists c', conns brk' !! nc = Some c' /\
       sent c' = sent c ++ concat (map (fun x => delivery (lit "a/x") (lit "hi") nc x.1 x.2) two_list)).
Proof.
  apply (broker_publish_delivers two_sessions [100; 200]).
  - split; [done|apply (bool_decide_eq_true_1 _); reflexivity|apply (bool_decide_eq_true_1 _); reflexivity|repeat split].
  - constructor; [|constructor; [|constructor]]; (split; [reflexivity|split; [|by eexists]]); apply one_subscription;
      (exists []; split_and!; [done|apply (bool_decide_eq_true_1 _); reflexivity|done]).
  - exists []. split_and!; [done|apply (bool_decide_eq_true_1 _); reflexivity|done].
  - split; [reflexivity|]. split; [reflexivity|]. split; [split; [discriminate|reflexivity]|lia].
  - apply map_Forall_insert_2; [apply fresh_can_send; split; vm_compute; discriminate|].
    apply map_Forall_insert_2; [apply fresh_can_send; split; vm_compute; discriminate|apply map_Forall_empty].
Defined.
