(* ===== verification/Json.v ===== *)
(** * Json values (jsoncpp.cpp)

    The values of jsoncpp, with the operations the application server uses,
    the [FastWriter] and the [Reader].  A document is read in place: [doc] is the
    text from [begin_] to [end_], which a terminator follows in memory.  The
    positions and the comments that a value remembers are left out; no
    writer of the program prints them. *)

From Stdlib Require Import ZArith Lia String SpecFloat.
From stdpp Require Import base list numbers option.
From S2P Require Import Prelude Strs Cpp Double.

Local Open Scope Z_scope.

(** ** Values *)

(** The members of an object are those of a [std::map], in the order of their
    names; the elements of an array those from 0 on. *)
Unset Elimination Schemes.
Inductive json :=
  | JNull
  | JInt (value_ : Z)
  | JUInt (value_ : Z)
  | JReal (value_ : double)
  | JString (value_ : list Z)
  | JBool (value_ : bool)
  | JArray (value_ : list json)
  | JObject (value_ : list (list Z * json)).
Set Elimination Schemes.

Definition maxInt : Z := 2 ^ 31 - 1.
Definition minInt : Z := - 2 ^ 31.
Definition maxLargestInt : Z := 2 ^ 63 - 1.
Definition minLargestInt : Z := - 2 ^ 63.
Definition maxLargestUInt : Z := 2 ^ 64 - 1.

(** [CZString::operator<]: the bytes, then the length. *)
Fixpoint key_compare (a b : list Z) : comparison :=
  match a, b with
  | [], [] => Eq
  | [], _ => Lt
  | _, [] => Gt
  | x :: a, y :: b => match x ?= y with Eq => key_compare a b | c => c end
  end.

Fixpoint find_member (key : list Z) (m : list (list Z * json)) : option json :=
  match m with
  | [] => None
  | (k, v) :: m => match key_compare k key with Eq => Some v | _ => find_member key m end
  end.

(** [lower_bound], then the member found or a new one. *)
Fixpoint set_member (key : list Z) (v : json) (m : list (list Z * json)) : list (list Z * json) :=
  match m with
  | [] => [(key, v)]
  | (k, v') :: m =>
      match key_compare k key with
      | Lt => (k, v') :: set_member key v m
      | Eq => (k, v) :: m
      | Gt => (key, v) :: (k, v') :: m
      end
  end.

(** *** Printing numbers *)

Definition valueToString_int (value : Z) : list Z := if value <? 0 then 45 :: udigits 20 (- value) [] else udigits 20 value [].
Definition valueToString_uint (value : Z) : list Z := udigits 20 value [].
Definition fixNumericLocale (b : list Z) : list Z := map (fun c => if c =? 44 then 46 else c) b.
Definition valueToString_double (value : double) : list Z :=
  fixNumericLocale
    (if is_finite value then format_g17 value
     else match value with
       | S754_nan => lit "null"
       | _ => if dltb value (of_Z 0) then lit "-1e+9999" else lit "1e+9999"
       end).
Definition valueToString_bool (value : bool) : list Z := if value then lit "true" else lit "false".

(** *** Access *)

Section access.
Context {S : Type}.

Definition asString (v : json) : cpp S (list Z) :=
  match v with
  | JNull => mret []
  | JString s => mret s
  | JBool b => mret (valueToString_bool b)
  | JInt z => mret (valueToString_int z)
  | JUInt z => mret (valueToString_uint z)
  | JReal d => mret (valueToString_double d)
  | _ => throw JsonLogicError
  end.

Definition asInt (v : json) : cpp S Z :=
  match v with
  | JInt z | JUInt z => if (minInt <=? z) && (z <=? maxInt) then mret z else throw JsonLogicError
  | JReal d =>
      if dleb (of_Z minInt) d && dleb d (of_Z maxInt) then
        match to_Z d with Some z => mret z | None => pure (Fault BadConversion) end
      else throw JsonLogicError
  | JNull => mret 0
  | JBool b => mret (if b then 1 else 0)
  | _ => throw JsonLogicError
  end.

Definition asLargestInt (v : json) : cpp S Z :=
  match v with
  | JInt z => mret z
  | JUInt z => if z <=? maxLargestInt then mret z else throw JsonLogicError
  | JReal d =>
      if dleb (of_Z minLargestInt) d && dleb d (of_Z maxLargestInt) then
        match to_Z d with
        | Some z => if z <=? maxLargestInt then mret z else pure (Fault BadConversion)
        | None => pure (Fault BadConversion)
        end
      else throw JsonLogicError
  | JNull => mret 0
  | JBool b => mret (if b then 1 else 0)
  | _ => throw JsonLogicError
  end.

Definition asDouble (v : json) : cpp S double :=
  match v with
  | JInt z | JUInt z => mret (of_Z z)
  | JReal d => mret d
  | JNull => mret (of_Z 0)
  | JBool b => mret (if b then of_Z 1 else of_Z 0)
  | _ => throw JsonLogicError
  end.

Definition jsize (v : json) : Z :=
  match v with JArray l => size l | JObject m => size m | _ => 0 end.

(** Reading [value["key"]]; [operator[]] on a value that is not constant also
    inserts the missing member, which only a later writing could show. *)
Definition member (v : json) (key : list Z) : cpp S json :=
  match v with
  | JNull => mret JNull
  | JObject m => mret (default JNull (find_member key m))
  | _ => throw JsonLogicError
  end.

Definition isMember (v : json) (key : list Z) : cpp S bool :=
  match v with
  | JNull => mret false
  | JObject m => mret (bool_decide (is_Some (find_member key m)))
  | _ => throw JsonLogicError
  end.

Definition element (v : json) (index : Z) : cpp S json :=
  if index <? 0 then throw JsonLogicError else
  match v with
  | JNull => mret JNull
  | JArray l => mret (default JNull (l !! Z.to_nat index))
  | _ => throw JsonLogicError
  end.

(** [value["key"] = x]. *)
Definition assign (v : json) (key : list Z) (x : json) : cpp S json :=
  match v with
  | JNull => mret (JObject [(key, x)])
  | JObject m => mret (JObject (set_member key x m))
  | _ => throw JsonLogicError
  end.

(** [append]; on an object it asks for an element by index, which throws. *)
Definition append (v : json) (x : json) : cpp S json :=
  match v with
  | JNull => mret (JArray [x])
  | JArray l => mret (JArray (l ++ [x]))
  | _ => throw JsonLogicError
  end.
End access.

(** ** [FastWriter] *)

Definition isControlCharacter (c : Z) : bool := (0 <? c) && (c <=? 31).

Definition hex_upper (d : Z) : Z := if d <? 10 then 48 + d else 55 + d.

(** The characters written for one of the value. *)
Definition quote_char (c : Z) : list Z :=
  if c =? 34 then [92; 34] else
  if c =? 92 then [92; 92] else
  if c =? 8 then [92; 98] else
  if c =? 12 then [92; 102] else
  if c =? 10 then [92; 110] else
  if c =? 13 then [92; 114] else
  if c =? 9 then [92; 116] else
  if isControlCharacter c || (c =? 0) then [92; 117; 48; 48; hex_upper (c / 16); hex_upper (c mod 16)]
  else [c].

Definition valueToQuotedStringN (value : list Z) : list Z :=
  if negb (existsb (fun c => existsb (Z.eqb c) [34; 92; 8; 12; 10; 13; 9]) value)
     && negb (existsb (fun c => isControlCharacter c || (c =? 0)) value)
  then 34 :: take_while (fun c => negb (c =? 0)) value ++ [34]
  else 34 :: concat (map quote_char value) ++ [34].

(** Pieces with commas between them. *)
Fixpoint commas (l : list (list Z)) : list Z :=
  match l with [] => [] | [x] => x | x :: r => x ++ 44 :: commas r end.

Fixpoint writeValue (v : json) : list Z :=
  match v with
  | JNull => lit "null"
  | JInt z => valueToString_int z
  | JUInt z => valueToString_uint z
  | JReal d => valueToString_double d
  | JString s => valueToQuotedStringN s
  | JBool b => valueToString_bool b
  | JArray l => 91 :: commas (map writeValue l) ++ [93]
  | JObject m => 123 :: commas (map (fun '(name, v) => valueToQuotedStringN name ++ 58 :: writeValue v) m) ++ [125]
  end.

Definition FastWriter_write (root : json) : list Z := writeValue root ++ [10].
