(* ===== verification/JsonReader.v ===== *)
(** * The reader of Json documents (jsoncpp.cpp, class Reader)

    [doc] holds the characters from [begin_] to [end_]; positions are offsets in
    it.  [document_] is an [std::string], so a terminator follows.  The options
    are those of [Features::all], the comments are skipped.  [readValue] gets the
    value that is already in its place, because an error leaves it there, and
    the depth of the recursion; it can throw when that reaches [stackLimit_g]. *)

From Stdlib Require Import ZArith Lia String.
From stdpp Require Import base list numbers option.
From S2P Require Import Prelude Strs Cpp Double Json.

Local Open Scope Z_scope.

(** ** The code *)

Definition stackLimit_g : Z := 1000.

Inductive token_type :=
  | tokenEndOfStream | tokenObjectBegin | tokenObjectEnd | tokenArrayBegin | tokenArrayEnd | tokenString | tokenNumber
  | tokenTrue | tokenFalse | tokenNull | tokenArraySeparator | tokenMemberSeparator | tokenComment | tokenError.

#[export] Instance token_type_eq_dec : EqDecision token_type.
Proof. solve_decision. Defined.

Record Token := mk_token { type_ : token_type; start_ : Z; end_ : Z }.

(** The UTF-8 bytes of a code point. *)
Definition codePointToUTF8 (cp : Z) : list Z :=
  if cp <=? 0x7f then [cp] else
  if cp <=? 0x7FF then [Z.lor 0xC0 (Z.land 0x1f (Z.shiftr cp 6)); Z.lor 0x80 (Z.land 0x3f cp)] else
  if cp <=? 0xFFFF then [Z.lor 0xE0 (Z.land 0xf (Z.shiftr cp 12)); Z.lor 0x80 (Z.land 0x3f (Z.shiftr cp 6)); Z.lor 0x80 (Z.land 0x3f cp)] else
  if cp <=? 0x10FFFF then
    [Z.lor 0xF0 (Z.land 0x7 (Z.shiftr cp 18)); Z.lor 0x80 (Z.land 0x3f (Z.shiftr cp 12)); Z.lor 0x80 (Z.land 0x3f (Z.shiftr cp 6)); Z.lor 0x80 (Z.land 0x3f cp)]
  else [].

Section reader.
Context (doc : list Z).

Definition doc_end : Z := size doc.
Definition fuel0 : nat := S (length doc).

(** [*current_], also at the end. *)
Definition peek (i : Z) : outcome Z := rd (doc ++ [0]) i.

Definition getNextChar (cur : Z) : outcome (Z * Z) :=
  if cur =? doc_end then mret (0, cur) else c ← rd doc cur; mret (c, cur + 1).

Definition skipSpaces (cur : Z) : outcome Z :=
  loop fuel0 (fun cur =>
    if cur =? doc_end then mret (inr cur) else
    c ← rd doc cur;
    if (c =? 32) || (c =? 9) || (c =? 13) || (c =? 10) then mret (inl (cur + 1)) else mret (inr cur)) cur.

(** The comparison goes from the last character to the first. *)
Definition match_pattern (pattern : list Z) (cur : Z) : outcome (bool * Z) :=
  if doc_end - cur <? size pattern then mret (false, cur) else
  same ← loop (S (length pattern)) (fun index =>
    if index =? 0 then mret (inr true) else
    c ← rd doc (cur + index - 1); d ← rd pattern (index - 1);
    if c =? d then mret (inl (index - 1)) else mret (inr false)) (size pattern);
  mret (same, if (same : bool) then cur + size pattern else cur).

Definition readCStyleComment (cur : Z) : outcome (bool * Z) :=
  cur ← loop fuel0 (fun cur =>
    if cur =? doc_end then mret (inr cur) else
    '(c, cur) ← getNextChar cur;
    c2 ← peek cur;
    if (c =? 42) && (c2 =? 47) then mret (inr cur) else mret (inl cur)) cur;
  '(c, cur) ← getNextChar cur;
  mret (c =? 47, cur).

Definition readCppStyleComment (cur : Z) : outcome (bool * Z) :=
  cur ← loop fuel0 (fun cur =>
    if cur =? doc_end then mret (inr cur) else
    '(c, cur) ← getNextChar cur;
    if c =? 10 then mret (inr cur) else
    if c =? 13 then
      if cur =? doc_end then mret (inr cur) else
      c2 ← rd doc cur;
      if c2 =? 10 then '(_, cur) ← getNextChar cur; mret (inr cur) else mret (inr cur)
    else mret (inl cur)) cur;
  mret (true, cur).

Definition readComment (cur : Z) : outcome (bool * Z) :=
  '(c, cur) ← getNextChar cur;
  if c =? 42 then readCStyleComment cur else
  if c =? 47 then readCppStyleComment cur else mret (false, cur).

(** The character at [i] or zero at the end: "c = (current_ = p) < end_ ? *p++ : 0". *)
Definition char_at (i : Z) : outcome Z := if i <? doc_end then rd doc i else mret 0.

Definition readNumber (cur : Z) : outcome Z :=
  cur ← scan_while isdigit doc doc_end cur;
  c ← char_at cur;
  '(cur, c) ← (if c =? 46 then cur ← scan_while isdigit doc doc_end (cur + 1); c ← char_at cur; mret (cur, c) else mret (cur, c));
  if (c =? 101) || (c =? 69) then
    c ← char_at (cur + 1);
    scan_while isdigit doc doc_end (if (c =? 43) || (c =? 45) then cur + 2 else cur + 1)
  else mret cur.

Definition readString (cur : Z) : outcome (bool * Z) :=
  loop fuel0 (fun cur =>
    if cur =? doc_end then mret (inr (false, cur)) else
    '(c, cur) ← getNextChar cur;
    if c =? 92 then '(_, cur) ← getNextChar cur; mret (inl cur) else
    if c =? 34 then mret (inr (true, cur)) else mret (inl cur)) cur.

(** The token and the new position; the result of the C++ function is always
    true. *)
Definition readToken (cur : Z) : outcome (Token * Z) :=
  cur ← skipSpaces cur;
  let start := cur in
  '(c, cur) ← getNextChar cur;
  '(t, ok, cur) ← (
    if c =? 123 then mret (tokenObjectBegin, true, cur) else
    if c =? 125 then mret (tokenObjectEnd, true, cur) else
    if c =? 91 then mret (tokenArrayBegin, true, cur) else
    if c =? 93 then mret (tokenArrayEnd, true, cur) else
    if c =? 34 then '(ok, cur) ← readString cur; mret (tokenString, ok, cur) else
    if c =? 47 then '(ok, cur) ← readComment cur; mret (tokenComment, ok, cur) else
    if isdigit c || (c =? 45) then cur ← readNumber cur; mret (tokenNumber, true, cur) else
    if c =? 116 then '(ok, cur) ← match_pattern (lit "rue") cur; mret (tokenTrue, ok, cur) else
    if c =? 102 then '(ok, cur) ← match_pattern (lit "alse") cur; mret (tokenFalse, ok, cur) else
    if c =? 110 then '(ok, cur) ← match_pattern (lit "ull") cur; mret (tokenNull, ok, cur) else
    if c =? 44 then mret (tokenArraySeparator, true, cur) else
    if c =? 58 then mret (tokenMemberSeparator, true, cur) else
    if c =? 0 then mret (tokenEndOfStream, true, cur) else
    mret (tokenError, false, cur));
  mret (mk_token (if (ok : bool) then t else tokenError) start cur, cur).

(** Tokens until one that is not a comment. *)
Definition skipCommentTokens (cur : Z) : outcome (Token * Z) :=
  loop fuel0 (fun cur =>
    '(token, cur) ← readToken cur;
    if decide (type_ token = tokenComment) then mret (inl cur) else mret (inr (token, cur))) cur.

(** Tokens until the one sought or the end of the document. *)
Definition recoverFromError (skipUntilToken : token_type) (cur : Z) : outcome Z :=
  loop (S fuel0) (fun cur =>
    '(skip, cur) ← readToken cur;
    if decide (type_ skip = skipUntilToken) then mret (inr cur) else
    if decide (type_ skip = tokenEndOfStream) then mret (inr cur) else mret (inl cur)) cur.

(** *** Numbers and strings *)

Definition decodeDouble (token : Token) : option json :=
  match read_double (slice doc (start_ token) (end_ token - start_ token)) with
  | Some value => Some (JReal value)
  | None => None
  end.

(** None: the text has to be read as a [double]. *)
Definition decode_digits (token : Token) (maxIntegerValue : Z) (current : Z) : outcome (option Z) :=
  let threshold := maxIntegerValue / 10 in
  loop fuel0 (fun '(current, value) =>
    if current <? end_ token then
      c ← rd doc current;
      let current := current + 1 in
      if (c <? 48) || (57 <? c) then mret (inr None) else
      let digit := c - 48 in
      if (threshold <=? value) && ((threshold <? value) || negb (current =? end_ token) || (maxIntegerValue mod 10 <? digit))
      then mret (inr None)
      else mret (inl (current, u64 (value * 10 + digit)))
    else mret (inr (Some value))) (current, 0).

Definition decodeNumber (token : Token) : outcome (option json) :=
  c ← peek (start_ token);
  let isNegative := c =? 45 in
  let current := if isNegative then start_ token + 1 else start_ token in
  let maxIntegerValue := if isNegative then maxLargestInt + 1 else maxLargestUInt in
  r ← decode_digits token maxIntegerValue current;
  mret (match r with
    | None => decodeDouble token
    | Some value =>
        Some (if isNegative && (value =? maxIntegerValue) then JInt minLargestInt else
              if isNegative then JInt (- value) else
              if value <=? maxInt then JInt value else JUInt value)
    end).

Definition hex_digit (c : Z) : option Z :=
  if (48 <=? c) && (c <=? 57) then Some (c - 48) else
  if (97 <=? c) && (c <=? 102) then Some (c - 97 + 10) else
  if (65 <=? c) && (c <=? 70) then Some (c - 65 + 10) else None.

(** One of the four digits; the state is the index, the position and the number. *)
Definition hex_step (st : Z * Z * Z) : outcome (Z * Z * Z + option Z * Z) :=
  let '(index, current, unicode) := st in
  if 4 <=? index then mret (inr (Some unicode, current)) else
  c ← rd doc current;
  match hex_digit c with
  | Some d => mret (inl (index + 1, current + 1, unicode * 16 + d))
  | None => mret (inr (None, current + 1))
  end.

Definition decodeUnicodeEscapeSequence (current e : Z) : outcome (option Z * Z) :=
  if e - current <? 4 then mret (None, current) else loop 5 hex_step (0, current, 0).

Definition decodeUnicodeCodePoint (current e : Z) : outcome (option Z * Z) :=
  '(u, current) ← decodeUnicodeEscapeSequence current e;
  match u with
  | None => mret (None, current)
  | Some unicode =>
      if (0xD800 <=? unicode) && (unicode <=? 0xDBFF) then
        if e - current <? 6 then mret (None, current) else
        c1 ← rd doc current;
        if negb (c1 =? 92) then mret (None, current + 1) else
        c2 ← rd doc (current + 1);
        if negb (c2 =? 117) then mret (None, current + 2) else
        '(v, current) ← decodeUnicodeEscapeSequence (current + 2) e;
        match v with
        | None => mret (None, current)
        | Some surrogatePair => mret (Some (0x10000 + Z.shiftl (Z.land unicode 0x3FF) 10 + Z.land surrogatePair 0x3FF), current)
        end
      else mret (Some unicode, current)
  end.

(** One character of a string; the state is the position and what is decoded. *)
Definition decode_char (e : Z) (st : Z * list Z) : outcome (Z * list Z + option (list Z)) :=
  let '(current, decoded) := st in
  if current =? e then mret (inr (Some decoded)) else
  c ← rd doc current;
  let current := current + 1 in
  if c =? 34 then mret (inr (Some decoded)) else
  if c =? 92 then
    if current =? e then mret (inr None) else
    escape ← rd doc current;
    let current := current + 1 in
    if escape =? 34 then mret (inl (current, decoded ++ [34])) else
    if escape =? 47 then mret (inl (current, decoded ++ [47])) else
    if escape =? 92 then mret (inl (current, decoded ++ [92])) else
    if escape =? 98 then mret (inl (current, decoded ++ [8])) else
    if escape =? 102 then mret (inl (current, decoded ++ [12])) else
    if escape =? 110 then mret (inl (current, decoded ++ [10])) else
    if escape =? 114 then mret (inl (current, decoded ++ [13])) else
    if escape =? 116 then mret (inl (current, decoded ++ [9])) else
    if escape =? 117 then
      '(u, current) ← decodeUnicodeCodePoint current e;
      match u with None => mret (inr None) | Some unicode => mret (inl (current, decoded ++ codePointToUTF8 unicode)) end
    else mret (inr None)
  else mret (inl (current, decoded ++ [c])).

Definition decodeString (token : Token) : outcome (option (list Z)) :=
  loop fuel0 (decode_char (end_ token - 1)) (start_ token + 1, []).

(** *** Values *)

(** The result of a reading function: throws, or a boolean, the value left in
    its place and the position. *)
Definition read_result : Type := outcome (option (bool * json * Z)).

Fixpoint readValue (fuel : nat) (depth : Z) (v0 : json) (cur : Z) : read_result :=
  match fuel with
  | O => Fault OutOfFuel
  | S fuel =>
      if stackLimit_g <=? depth then mret None else
      '(token, cur) ← skipCommentTokens cur;
      match type_ token with
      | tokenObjectBegin => readObject fuel (depth + 1) [] true cur
      | tokenArrayBegin =>
          cur ← skipSpaces cur;
          c ← peek cur;
          if c =? 93 then '(_, cur) ← readToken cur; mret (Some (true, JArray [], cur))
          else readArray fuel (depth + 1) [] cur
      | tokenNumber =>
          r ← decodeNumber token;
          mret (Some (match r with Some v => (true, v, cur) | None => (false, v0, cur) end))
      | tokenString =>
          r ← decodeString token;
          mret (Some (match r with Some s => (true, JString s, cur) | None => (false, v0, cur) end))
      | tokenTrue => mret (Some (true, JBool true, cur))
      | tokenFalse => mret (Some (true, JBool false, cur))
      | tokenNull => mret (Some (true, JNull, cur))
      | _ => mret (Some (false, v0, cur))
      end
  end
(** One member; [m] holds those before, [first] says that [name] is empty. *)
with readObject (fuel : nat) (depth : Z) (m : list (list Z * json)) (first : bool) (cur : Z) : read_result :=
  match fuel with
  | O => Fault OutOfFuel
  | S fuel =>
      '(tokenName, cur) ← skipCommentTokens cur;
      if decide (type_ tokenName = tokenObjectEnd /\ first = true) then mret (Some (true, JObject m, cur)) else
      if decide (type_ tokenName = tokenString) then
        r ← decodeString tokenName;
        match r with
        | None => cur ← recoverFromError tokenObjectEnd cur; mret (Some (false, JObject m, cur))
        | Some name =>
            '(colon, cur) ← readToken cur;
            if decide (type_ colon <> tokenMemberSeparator) then cur ← recoverFromError tokenObjectEnd cur; mret (Some (false, JObject m, cur)) else
            v ← readValue fuel depth (default JNull (find_member name m)) cur;
            match v with
            | None => mret None
            | Some (ok, v, cur) =>
                let m := set_member name v m in
                if negb ok then cur ← recoverFromError tokenObjectEnd cur; mret (Some (false, JObject m, cur)) else
                '(comma, cur) ← readToken cur;
                if decide (type_ comma <> tokenObjectEnd /\ type_ comma <> tokenArraySeparator /\ type_ comma <> tokenComment)
                then cur ← recoverFromError tokenObjectEnd cur; mret (Some (false, JObject m, cur)) else
                '(comma, cur) ← (if decide (type_ comma = tokenComment) then skipCommentTokens cur else mret (comma, cur));
                if decide (type_ comma = tokenObjectEnd) then mret (Some (true, JObject m, cur)) else
                readObject fuel depth m (bool_decide (name = [])) cur
            end
        end
      else cur ← recoverFromError tokenObjectEnd cur; mret (Some (false, JObject m, cur))
  end
(** One element; [l] holds those before. *)
with readArray (fuel : nat) (depth : Z) (l : list json) (cur : Z) : read_result :=
  match fuel with
  | O => Fault OutOfFuel
  | S fuel =>
      v ← readValue fuel depth JNull cur;
      match v with
      | None => mret None
      | Some (ok, v, cur) =>
          let l := l ++ [v] in
          if negb ok then cur ← recoverFromError tokenArrayEnd cur; mret (Some (false, JArray l, cur)) else
          '(token, cur) ← skipCommentTokens cur;
          if decide (type_ token = tokenArrayEnd) then mret (Some (true, JArray l, cur)) else
          if decide (type_ token = tokenArraySeparator) then readArray fuel depth l cur else
          cur ← recoverFromError tokenArrayEnd cur; mret (Some (false, JArray l, cur))
      end
  end.

(** [Reader::parse]: the result and the root; None when it throws.  The fuel is
    more than the characters of the document allow to use. *)
Definition parse_fuel : nat := S (3 * S (length doc)).

Definition Reader_parse (root : json) : outcome (option (bool * json)) :=
  r ← readValue parse_fuel 0 root 0;
  match r with
  | None => mret None
  | Some (successful, root, cur) => skipCommentTokens cur;; mret (Some (successful, root))
  end.
End reader.

(** ** Examples *)

Definition sample_json : json :=
  JObject [(lit "id", JInt (-7)); (lit "list", JArray [JBool true; JNull; JString (lit "a/b" ++ [34; 92; 10; 1])]); (lit "x", JReal tenth)].
Example write_sample : FastWriter_write sample_json =
  lit "{" ++ [34] ++ lit "id" ++ [34] ++ lit ":-7," ++ [34] ++ lit "list" ++ [34] ++ lit ":[true,null," ++
  [34] ++ lit "a/b" ++ [92; 34; 92; 92; 92; 110; 92; 117] ++ lit "0001" ++ [34] ++ lit "]," ++ [34] ++ lit "x" ++ [34] ++ lit ":0.10000000000000001}" ++ [10].
Proof. vm_compute. reflexivity. Qed.
Example parse_sample : Reader_parse (FastWriter_write sample_json ++ lit "junk [") JNull = Ret (Some (true, sample_json)).
Proof. vm_compute. reflexivity. Qed.
Example parse_partial : Reader_parse (lit "[1, {}, [2,,3]") JNull = Ret (Some (false, JArray [JInt 1; JObject []; JArray [JInt 2; JNull]])).
Proof. vm_compute. reflexivity. Qed.
