(* ===== verification/JsonSafe.v ===== *)
(** * The reader of Json always returns

    Every function of the reader stays inside the document and its terminator
    and comes to an end: positions only grow, and every turn of a loop and
    every level of the recursion consumes a character. *)

From Stdlib Require Import ZArith Lia String.
From stdpp Require Import base list numbers option.
From S2P Require Import Prelude Strs Cpp Double Json JsonReader.

Local Open Scope Z_scope.

Section safe.
Context (doc : list Z).
Abbreviation e := (size doc).

(** A position of the document, the end included. *)
Definition in_doc (i : Z) : Prop := 0 <= i <= e.

Lemma wp_getNextChar i (Q : Z * Z -> Prop) : in_doc i ->
  (i = e -> Q (0, i)) -> (forall c, i < e -> doc !! Z.to_nat i = Some c -> Q (c, i + 1)) -> wp (getNextChar doc i) Q.
Proof.
  intros Hi H0 H1. unfold getNextChar, doc_end. wp_step; [apply wp_mret; auto|].
  apply wp_bind, wp_rd; [unfold in_doc in *; lia|]. intros c Hc. apply wp_mret, H1; [unfold in_doc in *; lia|done].
Qed.

Lemma wp_peek i (Q : Z -> Prop) : in_doc i -> (forall c, (i = e -> c = 0) -> Q c) -> wp (peek doc i) Q.
Proof.
  intros Hi HQ. unfold peek. apply wp_rd; [unfold in_doc in *; rewrite size_app; change (size [0]) with 1; lia|]. intros c Hc. apply HQ. intros ->.
  rewrite size_to_nat, lookup_app_r, Nat.sub_diag in Hc by lia. by injection Hc.
Qed.

Lemma wp_skipSpaces i (Q : Z -> Prop) : in_doc i -> (forall j, i <= j -> in_doc j -> Q j) -> wp (skipSpaces doc i) Q.
Proof.
  intros Hi HQ. unfold skipSpaces, fuel0, doc_end.
  apply wp_loop with (m := fun j => Z.to_nat (e - j)) (I := fun j => i <= j /\ in_doc j); [|split; [lia|done]|unfold in_doc, size in *; lia].
  intros j [Hj Hin]. unfold in_doc in *. wp_step; [apply wp_mret; by apply HQ|]. apply wp_bind, wp_rd; [lia|]. intros c Hc.
  wp_step; apply wp_mret; [lia|by apply HQ].
Qed.

(** What a function that returns a boolean and a position does to it. *)
Definition goes_on (i : Z) (r : bool * Z) : Prop := i <= r.2 /\ in_doc r.2.

Lemma wp_match_pattern p i (Q : bool * Z -> Prop) : in_doc i -> (forall r, goes_on i r -> Q r) -> wp (match_pattern doc p i) Q.
Proof.
  intros Hi HQ. unfold match_pattern, doc_end, in_doc in *. pose proof (size_nonneg p). wp_step; [apply wp_mret, HQ; by split|]. apply wp_bind.
  apply wp_loop with (m := fun k => Z.to_nat k) (I := fun k => 0 <= k <= size p); [|lia|unfold size; lia].
  intros k Hk. wp_step; [apply wp_mret, wp_mret, HQ; split; [simpl; lia|unfold in_doc; simpl; lia]|].
  apply wp_bind, wp_rd; [lia|]. intros c _. apply wp_bind, wp_rd; [lia|]. intros d _.
  wp_step; apply wp_mret; [lia|]. apply wp_mret, HQ. by split.
Qed.

Lemma wp_readCStyleComment i (Q : bool * Z -> Prop) : in_doc i -> (forall r, goes_on i r -> Q r) -> wp (readCStyleComment doc i) Q.
Proof.
  intros Hi HQ. unfold readCStyleComment, fuel0. apply wp_bind.
  apply wp_loop with (m := fun j => Z.to_nat (e - j)) (I := fun j => i <= j /\ in_doc j); [|split; [lia|done]|unfold in_doc, size in *; lia].
  assert (forall j, i <= j -> in_doc j -> wp ('(c, cur) ← getNextChar doc j; mret (c =? 47, cur)) Q) as Hend.
  { intros j Hj Hin. apply wp_bind, wp_getNextChar; [done|intros _; apply wp_mret, HQ; by split|].
    intros c Hc _. apply wp_mret, HQ. split; [simpl; lia|unfold in_doc in *; simpl; lia]. }
  intros j [Hj Hin]. unfold doc_end. wp_step; [apply wp_mret; by apply Hend|].
  apply wp_bind, wp_getNextChar; [done|done|]. intros c Hc _. apply wp_bind, wp_peek; [unfold in_doc in *; lia|]. intros c2 _.
  wp_step; apply wp_mret; [apply Hend|]; unfold in_doc in *; lia.
Qed.

Lemma wp_readCppStyleComment i (Q : bool * Z -> Prop) : in_doc i -> (forall r, goes_on i r -> Q r) -> wp (readCppStyleComment doc i) Q.
Proof.
  intros Hi HQ. unfold readCppStyleComment, fuel0. apply wp_bind.
  apply wp_loop with (m := fun j => Z.to_nat (e - j)) (I := fun j => i <= j /\ in_doc j); [|split; [lia|done]|unfold in_doc, size in *; lia].
  assert (forall j, i <= j -> in_doc j -> wp (mret (true, j)) Q) as Hend by (intros j Hj Hin; apply wp_mret, HQ; by split).
  intros j [Hj Hin]. unfold doc_end. wp_step; [apply wp_mret; by apply Hend|].
  apply wp_bind, wp_getNextChar; [done|done|]. intros c Hc _. assert (in_doc (j + 1)) by (unfold in_doc in *; lia).
  wp_step; [apply wp_mret; apply Hend; [lia|done]|]. wp_step.
  - wp_step; [apply wp_mret; apply Hend; [lia|done]|]. apply wp_bind, wp_rd; [unfold in_doc in *; lia|]. intros c2 _.
    wp_step; [|apply wp_mret; apply Hend; [lia|done]]. apply wp_bind, wp_getNextChar; [done|done|]. intros c3 Hc3 _. apply wp_mret; apply Hend; unfold in_doc in *; lia.
  - apply wp_mret. unfold in_doc in *. lia.
Qed.

Lemma wp_readComment i (Q : bool * Z -> Prop) : in_doc i -> (forall r, goes_on i r -> Q r) -> wp (readComment doc i) Q.
Proof.
  intros Hi HQ. unfold readComment.
  assert (forall c j, i <= j -> in_doc j -> wp (if c =? 42 then readCStyleComment doc j else if c =? 47 then readCppStyleComment doc j else mret (false, j)) Q) as Hend.
  { intros c j Hj Hin. assert (forall r, goes_on j r -> Q r) by (intros r [H1 H2]; apply HQ; split; [lia|done]).
    wp_step; [by apply wp_readCStyleComment|]. wp_step; [by apply wp_readCppStyleComment|]. apply wp_mret, HQ. by split. }
  apply wp_bind, wp_getNextChar; [done|intros _; by apply (Hend 0)|]. intros c Hc _. apply Hend; unfold in_doc in *; lia.
Qed.

Lemma wp_digits i (Q : Z -> Prop) : in_doc i -> (forall j, i <= j -> in_doc j -> Q j) -> wp (scan_while isdigit doc (doc_end doc) i) Q.
Proof.
  intros Hi HQ. unfold doc_end, in_doc in *. apply wp_scan_while; [lia|lia|]. intros j Hj _ _. apply HQ; lia.
Qed.

Lemma wp_char_at i (Q : Z -> Prop) : 0 <= i -> (forall c, (c <> 0 -> i < e) -> Q c) -> wp (char_at doc i) Q.
Proof.
  intros Hi HQ. unfold char_at, doc_end. wp_step; [|apply wp_mret, HQ; lia]. apply wp_rd; [lia|]. intros c _. by apply HQ.
Qed.

Lemma wp_readNumber i (Q : Z -> Prop) : in_doc i -> (forall j, i <= j -> in_doc j -> Q j) -> wp (readNumber doc i) Q.
Proof.
  intros Hi HQ. unfold readNumber. apply wp_bind, wp_digits; [done|]. intros j Hj Hin. apply wp_bind, wp_char_at; [unfold in_doc in *; lia|]. intros c Hc.
  assert (forall c k, i <= k -> in_doc k -> (c <> 0 -> k < e) ->
    wp (if (c =? 101) || (c =? 69) then
      c ← char_at doc (k + 1); scan_while isdigit doc (doc_end doc) (if (c =? 43) || (c =? 45) then k + 2 else k + 1) else mret k) Q) as Hexp.
  { intros c' k Hk Hink Hc'. wp_step; [|apply wp_mret; by apply HQ]. apply wp_bind, wp_char_at; [unfold in_doc in *; lia|]. intros d Hd. unfold in_doc in *.
    apply wp_digits; [unfold in_doc; destruct ((d =? 43) || (d =? 45)) eqn:E; lia|]. intros k' Hk' Hink'. apply HQ; [|done]. destruct ((d =? 43) || (d =? 45)); lia. }
  apply wp_bind. wp_step.
  - apply wp_bind, wp_digits; [unfold in_doc in *; lia|]. intros k Hk Hink. apply wp_bind, wp_char_at; [unfold in_doc in *; lia|]. intros c2 Hc2.
    apply wp_mret, Hexp; [lia|done|done].
  - apply wp_mret. by apply Hexp.
Qed.

Lemma wp_readString i (Q : bool * Z -> Prop) : in_doc i -> (forall ok j, i <= j -> in_doc j -> (ok = true -> i < j) -> Q (ok, j)) -> wp (readString doc i) Q.
Proof.
  intros Hi HQ. unfold readString, fuel0.
  apply wp_loop with (m := fun j => Z.to_nat (e - j)) (I := fun j => i <= j /\ in_doc j); [|split; [lia|done]|unfold in_doc, size in *; lia].
  intros j [Hj Hin]. unfold doc_end. wp_step; [apply wp_mret; by apply HQ|].
  apply wp_bind, wp_getNextChar; [done|done|]. intros c Hc _. assert (in_doc (j + 1)) by (unfold in_doc in *; lia). wp_step.
  - apply wp_bind, wp_getNextChar; [done|intros _|intros d Hd _]; apply wp_mret; unfold in_doc in *; lia.
  - wp_step; apply wp_mret; [apply HQ; [lia|done|lia]|unfold in_doc in *; lia].
Qed.

(** Where a token lies; only the end of the stream takes no character. *)
Record token_at (i : Z) (t : Token) (j : Z) : Prop := {
  ta_pos : i <= start_ t < end_ t \/ (type_ t = tokenEndOfStream /\ i <= start_ t <= end_ t);
  ta_end : end_ t = j;
  ta_doc : 0 <= start_ t /\ in_doc j;
  ta_string : type_ t = tokenString -> start_ t + 2 <= end_ t
}.

Lemma wp_readToken i (Q : Token * Z -> Prop) : in_doc i -> (forall t j, token_at i t j -> Q (t, j)) -> wp (readToken doc i) Q.
Proof.
  intros Hi HQ. unfold readToken. apply wp_bind, wp_skipSpaces; [done|]. intros s Hs Hin. cbv zeta.
  apply wp_bind, wp_getNextChar; [done|intros _; apply wp_bind; apply wp_mret; apply wp_mret; apply HQ; split; cbn; [right; split; [done|lia]|done|split; [unfold in_doc in *; lia|done]|done]|].
  intros c Hc _. assert (in_doc (s + 1)) as Hin' by (unfold in_doc in *; lia).
  match goal with |- wp (mbind ?f _) _ => set (K := f) end.
  assert (forall t (ok : bool) k, s + 1 <= k -> in_doc k -> (ok = true -> t = tokenString -> s + 2 <= k) -> wp (K (t, ok, k)) Q) as Hend.
  { intros t ok k Hk Hink Hstr. apply wp_mret, HQ. split; cbn; [left; lia|done|split; [unfold in_doc in *; lia|done]|].
    destruct ok; [|done]. intros ->. by apply Hstr. }
  apply wp_bind. repeat (wp_step; [first [
      apply wp_mret, Hend; [lia|done|done]
    | apply wp_bind, wp_readString; [done|]; intros ok j Hj Hinj Hok; apply wp_mret, Hend; [lia|done|]; intros E _; specialize (Hok E); lia
    | apply wp_bind, wp_readComment; [done|]; intros [ok j] [Hj Hinj]; apply wp_mret, Hend; [simpl in *; lia|done|done]
    | apply wp_bind, wp_readNumber; [done|]; intros j Hj Hinj; apply wp_mret, Hend; [lia|done|done]
    | apply wp_bind, wp_match_pattern; [done|]; intros [ok j] [Hj Hinj]; apply wp_mret, Hend; [simpl in *; lia|done|done] ]|]).
  apply wp_mret, Hend; [lia|done|done].
Qed.

Lemma token_at_from i j t k : i <= j -> token_at j t k -> token_at i t k.
Proof. intros Hij [H1 H2 H3 H4]. split; [|done..]. destruct H1 as [?|[??]]; [left; lia|right; split; [done|lia]]. Qed.

Lemma wp_skipCommentTokens i (Q : Token * Z -> Prop) : in_doc i -> (forall t j, token_at i t j -> Q (t, j)) -> wp (skipCommentTokens doc i) Q.
Proof.
  intros Hi HQ. unfold skipCommentTokens, fuel0.
  apply wp_loop with (m := fun j => Z.to_nat (e - j)) (I := fun j => i <= j /\ in_doc j); [|split; [lia|done]|unfold in_doc, size in *; lia].
  intros j [Hj Hin]. apply wp_bind, wp_readToken; [done|]. intros t k Ht. pose proof Ht as [Hpos Hend Hd _]. wp_step; apply wp_mret.
  - destruct Hpos as [?|[E _]]; [|congruence]. unfold in_doc in *. lia.
  - apply HQ. by apply (token_at_from i j).
Qed.

Lemma wp_recoverFromError u i (Q : Z -> Prop) : in_doc i -> (forall j, i <= j -> in_doc j -> Q j) -> wp (recoverFromError doc u i) Q.
Proof.
  intros Hi HQ. unfold recoverFromError, fuel0.
  apply wp_loop with (m := fun j => Z.to_nat (e - j)) (I := fun j => i <= j /\ in_doc j); [|split; [lia|done]|unfold in_doc, size in *; lia].
  intros j [Hj Hin]. apply wp_bind, wp_readToken; [done|]. intros t k [Hpos Hend Hd _].
  assert (j <= k) by (destruct Hpos as [?|[_ ?]]; lia). destruct Hd as [Hd1 Hd2].
  wp_step; [apply wp_mret, HQ; [lia|done]|]. wp_step; apply wp_mret; [apply HQ; [lia|done]|].
  destruct Hpos as [?|[E _]]; [|congruence]. unfold in_doc in *. lia.
Qed.

Lemma wp_decode_digits t m i (Q : option Z -> Prop) : 0 <= i -> in_doc (end_ t) -> (forall r, Q r) -> wp (decode_digits doc t m i) Q.
Proof.
  intros Hi Ht HQ. unfold decode_digits, fuel0, in_doc in *.
  apply wp_loop with (m := fun st => Z.to_nat (end_ t - st.1)) (I := fun st => 0 <= st.1); [|done|unfold size in *; cbn [fst]; lia].
  intros [j v] Hj. cbn [fst] in *. wp_step; [|apply wp_mret, HQ]. apply wp_bind, wp_rd; [lia|]. intros c _. cbv zeta.
  wp_step; [apply wp_mret, HQ|]. wp_step; apply wp_mret; [apply HQ|]. cbn [fst]. lia.
Qed.

Lemma wp_decodeNumber t (Q : option json -> Prop) : 0 <= start_ t -> start_ t <= end_ t -> in_doc (end_ t) -> (forall r, Q r) -> wp (decodeNumber doc t) Q.
Proof.
  intros H0 Hle Ht HQ. unfold decodeNumber. apply wp_bind, wp_peek; [unfold in_doc in *; lia|]. intros c _. cbv zeta.
  apply wp_bind, wp_decode_digits; [destruct (c =? 45); lia|done|]. intros r. apply wp_mret, HQ.
Qed.

Lemma wp_unicode_sequence i n (Q : option Z * Z -> Prop) : 0 <= i -> n <= e -> (forall r j, i <= j -> (r <> None -> j <= n) -> Q (r, j)) -> wp (decodeUnicodeEscapeSequence doc i n) Q.
Proof.
  intros Hi Hn HQ. unfold decodeUnicodeEscapeSequence. wp_step; [apply wp_mret, HQ; [lia|done]|].
  apply wp_loop with (m := fun st => Z.to_nat (4 - st.1.1)) (I := fun '(k, j, _) => 0 <= k <= 4 /\ j = i + k); [|lia|cbn; lia].
  intros [[k j] u] [Hk ->]. unfold hex_step. cbn [fst]. wp_step; [apply wp_mret, HQ; lia|]. apply wp_bind, wp_rd; [lia|]. intros c _.
  destruct (hex_digit c); apply wp_mret; [cbn [fst]; lia|apply HQ; [lia|done]].
Qed.

Lemma wp_unicode_point i n (Q : option Z * Z -> Prop) : 0 <= i -> n <= e -> (forall r j, i <= j -> (r <> None -> j <= n) -> Q (r, j)) -> wp (decodeUnicodeCodePoint doc i n) Q.
Proof.
  intros Hi Hn HQ. unfold decodeUnicodeCodePoint. apply wp_bind, wp_unicode_sequence; [done|done|]. intros [u|] j Hj Hjn; [|by apply wp_mret, HQ].
  specialize (Hjn ltac:(done)). wp_step; [|by apply wp_mret, HQ]. wp_step; [by apply wp_mret, HQ|].
  apply wp_bind, wp_rd; [lia|]. intros c1 _. wp_step; [apply wp_mret, HQ; [lia|done]|].
  apply wp_bind, wp_rd; [lia|]. intros c2 _. wp_step; [apply wp_mret, HQ; [lia|done]|].
  apply wp_bind, wp_unicode_sequence; [lia|done|]. intros [v|] k Hk Hkn; apply wp_mret, HQ; [lia|auto|lia|done].
Qed.

Lemma wp_decodeString t (Q : option (list Z) -> Prop) : 0 <= start_ t -> start_ t + 2 <= end_ t -> in_doc (end_ t) -> (forall r, Q r) -> wp (decodeString doc t) Q.
Proof.
  intros H0 Hle Ht HQ. unfold decodeString, fuel0, in_doc in *. set (n := end_ t - 1).
  apply wp_loop with (m := fun st => Z.to_nat (n - st.1)) (I := fun st => 0 <= st.1 <= n); [|cbn [fst]; lia|unfold size in *; cbn [fst]; lia].
  intros [j d] Hj. cbn [fst] in *. unfold decode_char. wp_step; [apply wp_mret, HQ|]. apply wp_bind, wp_rd; [lia|]. intros c _. cbv zeta.
  wp_step; [apply wp_mret, HQ|]. wp_step; [|apply wp_mret; cbn [fst]; lia]. wp_step; [apply wp_mret, HQ|].
  apply wp_bind, wp_rd; [lia|]. intros c2 _. do 8 (wp_step; [apply wp_mret; cbn [fst]; lia|]). wp_step; [|apply wp_mret, HQ].
  apply wp_bind, wp_unicode_point; [lia|lia|]. intros [u|] k Hk Hkn; apply wp_mret; [|apply HQ]. specialize (Hkn ltac:(done)). cbn [fst]. lia.
Qed.

(** The recursion: [2 * n + 1] levels for a value when [n] characters are left. *)
Definition left (i : Z) : nat := Z.to_nat (e - i).

Definition read_ok (i : Z) (r : option (bool * json * Z)) : Prop := match r with None => True | Some (_, _, j) => i <= j /\ in_doc j end.

Lemma read_ok_from i j r : i <= j -> read_ok j r -> read_ok i r.
Proof. intros Hij. destruct r as [[[ok v] k]|]; [|done]. intros [? ?]. split; [lia|done]. Qed.

Lemma recover_ok u i j v : in_doc j -> i <= j -> wp (cur ← recoverFromError doc u j; mret (Some (false, v, cur))) (read_ok i).
Proof. intros Hj Hij. apply wp_bind, wp_recoverFromError; [done|]. intros k Hk Hin. apply wp_mret. split; [lia|done]. Qed.

Lemma read_total fuel :
  (forall depth v0 i, in_doc i -> (2 * left i + 1 <= fuel)%nat -> wp (readValue doc fuel depth v0 i) (read_ok i)) /\
  (forall depth m first i, in_doc i -> (2 * left i + 2 <= fuel)%nat -> wp (readObject doc fuel depth m first i) (read_ok i)) /\
  (forall depth l i, in_doc i -> (2 * left i + 2 <= fuel)%nat -> wp (readArray doc fuel depth l i) (read_ok i)).
Proof.
  induction fuel as [|fuel (IHv & IHo & IHa)]; [split_and!; intros; lia|]. unfold left in *.
  split_and!; [intros depth v0 i Hi Hf|intros depth m first i Hi Hf|intros depth l i Hi Hf].
  - cbn [readValue]. wp_step; [by apply wp_mret|]. apply wp_bind, wp_skipCommentTokens; [done|]. intros t j [Hpos <- [H0 Hj] Hstr].
    assert (i <= start_ t) by (destruct Hpos as [?|[_ ?]]; lia). assert (start_ t <= end_ t) by (destruct Hpos as [?|[_ ?]]; lia).
    destruct (type_ t) eqn:Et; try (apply wp_mret; split; [lia|done]).
    + destruct Hpos as [Hpos|[? _]]; [|done]. eapply wp_mono; [apply IHo; [done|unfold in_doc in *; lia]|]. intros r. apply read_ok_from. lia.
    + destruct Hpos as [Hpos|[? _]]; [|done]. apply wp_bind, wp_skipSpaces; [done|]. intros k Hk Hink. apply wp_bind, wp_peek; [done|]. intros c _. wp_step.
      * apply wp_bind, wp_readToken; [done|]. intros t2 k2 [Hpos2 <- [_ ?] _]. apply wp_mret. split; [destruct Hpos2 as [?|[_ ?]]; lia|done].
      * eapply wp_mono; [apply IHa; [done|unfold in_doc in *; lia]|]. intros r. apply read_ok_from. lia.
    + apply wp_bind, wp_decodeString; [done|auto|done|]. intros [r|]; apply wp_mret; split; (lia || done).
    + apply wp_bind, wp_decodeNumber; [done|lia|done|]. intros [r|]; apply wp_mret; split; (lia || done).
  - cbn [readObject]. apply wp_bind, wp_skipCommentTokens; [done|]. intros t j [Hpos <- [H0 Hj] Hstr].
    assert (i <= start_ t <= end_ t) by (destruct Hpos as [?|[_ ?]]; lia).
    wp_step; [apply wp_mret; split; [lia|done]|]. wp_step; [|apply recover_ok; [done|lia]].
    assert (type_ t = tokenString) as Et by done. specialize (Hstr Et).
    apply wp_bind, wp_decodeString; [done|done|done|]. intros [name|]; [|apply recover_ok; [done|lia]].
    apply wp_bind, wp_readToken; [done|]. intros t2 j2 [Hpos2 <- [_ Hj2] _]. assert (end_ t <= end_ t2) by (destruct Hpos2 as [?|[_ ?]]; lia).
    wp_step; [apply recover_ok; [done|lia]|]. apply wp_bind. eapply wp_mono; [apply IHv; [done|unfold in_doc in *; lia]|].
    intros [[[ok v] k]|] Hr; [|by apply wp_mret]. destruct Hr as [Hk Hink]. cbv zeta. wp_step; [apply recover_ok; [done|lia]|].
    apply wp_bind, wp_readToken; [done|]. intros t3 j3 [Hpos3 <- [_ Hj3] _]. assert (k <= end_ t3) by (destruct Hpos3 as [?|[_ ?]]; lia).
    wp_step; [apply recover_ok; [done|lia]|]. apply wp_bind.
    assert (forall t4 j4, end_ t3 <= j4 -> in_doc j4 ->
      wp (if decide (type_ t4 = tokenObjectEnd) then mret (Some (true, JObject (set_member name v m), j4))
          else readObject doc fuel depth (set_member name v m) (bool_decide (name = [])) j4) (read_ok i)) as Hend.
    { intros t4 j4 Hj4 Hin4. wp_step; [apply wp_mret; split; [lia|done]|]. eapply wp_mono; [apply IHo; [done|unfold in_doc in *; lia]|]. intros r. apply read_ok_from. lia. }
    wp_step; [|apply wp_mret, Hend; [lia|done]]. apply wp_skipCommentTokens; [done|]. intros t4 j4 [Hpos4 <- [_ Hj4] _]. apply Hend; [destruct Hpos4 as [?|[_ ?]]; lia|done].
  - cbn [readArray]. apply wp_bind. eapply wp_mono; [apply IHv; [done|lia]|]. intros [[[ok v] k]|] Hr; [|by apply wp_mret]. destruct Hr as [Hk Hink]. cbv zeta.
    wp_step; [apply recover_ok; [done|lia]|]. apply wp_bind, wp_skipCommentTokens; [done|]. intros t j [Hpos <- [H0 Hj] _].
    assert (k <= end_ t) by (destruct Hpos as [?|[_ ?]]; lia). wp_step; [apply wp_mret; split; [lia|done]|].
    wp_step; [|apply recover_ok; [done|lia]]. destruct Hpos as [Hpos|[Hpos _]]; [|congruence].
    eapply wp_mono; [apply IHa; [done|unfold in_doc in *; lia]|]. intros r. apply read_ok_from. lia.
Qed.
End safe.

Lemma Reader_total doc root : exists r, Reader_parse doc root = Ret r.
Proof.
  enough (wp (Reader_parse doc root) (fun _ => True)) as (r & E & _) by (by exists r). unfold Reader_parse, parse_fuel.
  apply wp_bind. destruct (read_total doc (S (3 * S (length doc)))) as (Hv & _). pose proof (size_nonneg doc).
  eapply wp_mono; [apply Hv; [unfold in_doc; lia|unfold left, size; lia]|]. intros [[[ok v] k]|] Hr; [|by apply wp_mret].
  apply wp_bind, wp_skipCommentTokens; [apply Hr|]. intros t j _. by apply wp_mret.
Qed.

(** C12: [Reader::parse] returns for every document, whatever it holds: every loop
    and the recursion come to an end and nothing outside the document and its
    terminator is read.  Only the limit on the depth can make it throw. *)
Theorem Reader_parse_total doc root : exists r, Reader_parse doc root = Ret r.
Proof. apply Reader_total. Qed.
