(* ===== verification/JsonRoundtrip.v ===== *)
(** * What [FastWriter] writes, [Reader] reads back

    The text of a value, followed by anything, is parsed as the value, with its
    numbers as the reader represents them. *)

From Stdlib Require Import ZArith Lia String SpecFloat.
From stdpp Require Import base list numbers option.
From S2P Require Import Prelude Strs Cpp Double Json JsonReader JsonSafe.

Local Open Scope Z_scope.

(** ** Values and their texts *)

(** Induction with the hypothesis for the elements and the members. *)
Lemma json_ind (P : json -> Prop) :
  P JNull -> (forall z, P (JInt z)) -> (forall z, P (JUInt z)) -> (forall d, P (JReal d)) -> (forall s, P (JString s)) -> (forall b, P (JBool b)) ->
  (forall l, Forall P l -> P (JArray l)) -> (forall m, Forall (fun kv => P kv.2) m -> P (JObject m)) -> forall v, P v.
Proof.
  intros Hn Hi Hu Hr Hs Hb Ha Ho. fix IH 1. intros [| | | | | |l|m]; [done|apply Hi|apply Hu|apply Hr|apply Hs|apply Hb| |].
  - apply Ha. induction l as [|v l IHl]; constructor; [apply IH|exact IHl].
  - apply Ho. induction m as [|[k v] m IHm]; constructor; [apply IH|exact IHm].
Qed.

(** How the reader decodes a number, on its text. *)
Fixpoint digits_spec (m value : Z) (ds : list Z) : option Z :=
  match ds with
  | [] => Some value
  | c :: r =>
      if (c <? 48) || (57 <? c) then None else
      if (m / 10 <=? value) && ((m / 10 <? value) || negb (bool_decide (r = [])) || (m mod 10 <? c - 48)) then None
      else digits_spec m (u64 (value * 10 + (c - 48))) r
  end.

Definition decode_text (text : list Z) : option json :=
  let isNegative := bool_decide (head text = Some 45) in
  let maxIntegerValue := if isNegative then maxLargestInt + 1 else maxLargestUInt in
  match digits_spec maxIntegerValue 0 (if isNegative then tail text else text) with
  | None => option_map JReal (read_double text)
  | Some value =>
      Some (if isNegative && (value =? maxIntegerValue) then JInt minLargestInt else
            if isNegative then JInt (- value) else
            if value <=? maxInt then JInt value else JUInt value)
  end.

(** The value that is read back. *)
Fixpoint norm (v : json) : json :=
  match v with
  | JInt z | JUInt z => if z <=? maxInt then JInt z else JUInt z
  | JReal d => default JNull (decode_text (valueToString_double d))
  | JArray l => JArray (map norm l)
  | JObject m => JObject (map (fun '(k, v) => (k, norm v)) m)
  | _ => v
  end.

(** The values of the type: numbers of their width, finite and readable, bytes
    in the strings, members in the order of their names. *)
Definition keys_sorted (m : list (list Z * json)) : Prop :=
  forall m1 k v m2, m = m1 ++ (k, v) :: m2 -> Forall (fun kv => key_compare kv.1 k = Lt) m1.

Fixpoint jwf (v : json) : Prop :=
  match v with
  | JInt z => minLargestInt <= z <= maxLargestInt
  | JUInt z => 0 <= z <= maxLargestUInt
  | JReal d => is_finite d = true /\ decode_text (valueToString_double d) <> None
  | JString s => bytes s
  | JArray l => (fix all l := match l with [] => True | v :: l => jwf v /\ all l end) l
  | JObject m => keys_sorted m /\ (fix all m := match m with [] => True | (k, v) :: m => bytes k /\ jwf v /\ all m end) m
  | _ => True
  end.

(** The levels of the recursion that reads a value. *)
Fixpoint height (v : json) : Z :=
  match v with
  | JArray l => 1 + (fix go l := match l with [] => 0 | v :: l => Z.max (height v) (go l) end) l
  | JObject m => 1 + (fix go m := match m with [] => 0 | (_, v) :: m => Z.max (height v) (go m) end) m
  | _ => 1
  end.

Lemma height_pos v : 1 <= height v.
Proof.
  destruct v as [| | | | | |l|m]; cbn [height]; try lia.
  - assert (0 <= (fix go l := match l with [] => 0 | v :: l => Z.max (height v) (go l) end) l); [|lia]. induction l; lia.
  - assert (0 <= (fix go m := match m with [] => 0 | (_, v) :: m => Z.max (height v) (go m) end) m); [|lia]. induction m as [|[k v] m IH]; lia.
Qed.

(** ** Characters at known places *)

Section text.
Context (doc : list Z).

Lemma skipSpaces_at pre c r : doc = pre ++ c :: r -> (c =? 32) || (c =? 9) || (c =? 13) || (c =? 10) = false -> skipSpaces doc (size pre) = Ret (size pre).
Proof.
  intros E Hc. unfold skipSpaces, fuel0. rewrite loop_S. pose proof (size_nonneg r). unfold doc_end.
  rewrite (proj2 (Z.eqb_neq _ (size doc))) by (rewrite E, size_app, size_cons; lia). rewrite E, rd_at0. cbn [mbind outcome_bind]. by rewrite Hc.
Qed.

Lemma getNextChar_at pre c r : doc = pre ++ c :: r -> getNextChar doc (size pre) = Ret (c, size pre + 1).
Proof.
  intros E. unfold getNextChar, doc_end. pose proof (size_nonneg r). rewrite (proj2 (Z.eqb_neq _ (size doc))) by (rewrite E, size_app, size_cons; lia).
  by rewrite E, rd_at0.
Qed.

Lemma peek_at pre c r : doc = pre ++ c :: r -> peek doc (size pre) = Ret c.
Proof. intros ->. unfold peek. rewrite <- app_assoc. apply rd_at0. Qed.

(** A token of one character. *)
Lemma readToken_char pre c r t : doc = pre ++ c :: r ->
  In (c, t) [(123, tokenObjectBegin); (125, tokenObjectEnd); (91, tokenArrayBegin); (93, tokenArrayEnd); (44, tokenArraySeparator); (58, tokenMemberSeparator)] ->
  readToken doc (size pre) = Ret (mk_token t (size pre) (size pre + 1), size pre + 1).
Proof.
  intros E Hin. unfold readToken.
  repeat (destruct Hin as [[= <- <-]|Hin]; [rewrite (skipSpaces_at pre _ r E) by done; cbn [mbind outcome_bind]; cbv zeta; by rewrite (getNextChar_at pre _ r E)|]).
  destruct Hin.
Qed.

(** *** Strings *)

(** Text that [readString] goes over. *)
Inductive scan_ok : list Z -> Prop :=
  | scan_nil : scan_ok []
  | scan_plain c l : c <> 34 -> c <> 92 -> scan_ok l -> scan_ok (c :: l)
  | scan_escape c l : scan_ok l -> scan_ok (92 :: c :: l).

Lemma scan_ok_app l r : scan_ok l -> scan_ok r -> scan_ok (l ++ r).
Proof. induction 1; intros; cbn; [done|apply scan_plain; auto|apply scan_escape; auto]. Qed.

Lemma readString_over l : scan_ok l -> forall pre r fuel, doc = pre ++ l ++ 34 :: r -> (length l < fuel)%nat ->
  loop fuel (fun cur =>
    if cur =? doc_end doc then mret (inr (false, cur)) else
    '(c, cur) ← getNextChar doc cur;
    if c =? 92 then '(_, cur) ← getNextChar doc cur; mret (inl cur) else
    if c =? 34 then mret (inr (true, cur)) else mret (inl cur)) (size pre) = Ret (true, size pre + size l + 1).
Proof.
  assert (forall pre c r, doc = pre ++ c :: r -> (size pre =? doc_end doc) = false) as Hend.
  { intros pre c r ->. unfold doc_end. pose proof (size_nonneg r). apply Z.eqb_neq. rewrite size_app, size_cons. lia. }
  induction 1 as [|c l H34 H92 _ IH|c l _ IH]; intros pre r fuel E Hf; (destruct fuel as [|fuel]; [lia|]); rewrite loop_S.
  - cbn [app] in E. rewrite (Hend pre 34 r E), (getNextChar_at pre 34 r E). cbn [mbind outcome_bind Z.eqb Pos.eqb mret outcome_ret]. do 2 f_equal. rewrite size_nil. lia.
  - cbn [app] in E. rewrite (Hend _ _ _ E), (getNextChar_at _ _ _ E). cbn [mbind outcome_bind].
    rewrite (proj2 (Z.eqb_neq c 92) H92), (proj2 (Z.eqb_neq c 34) H34). cbn [mret outcome_ret].
    replace (size pre + 1) with (size (pre ++ [c])) by (rewrite size_app; done).
    rewrite (IH (pre ++ [c]) r fuel) by (try (rewrite E, <- app_assoc; done); simpl in Hf; lia). do 2 f_equal. rewrite size_app, (size_cons c l). change (size [c]) with 1. lia.
  - cbn [app] in E. rewrite (Hend _ _ _ E), (getNextChar_at _ _ _ E). cbn [mbind outcome_bind Z.eqb Pos.eqb].
    replace (size pre + 1) with (size (pre ++ [92])) by (rewrite size_app; done).
    rewrite (getNextChar_at (pre ++ [92]) c (l ++ 34 :: r)) by (rewrite E, <- app_assoc; done). cbn [mbind outcome_bind mret outcome_ret].
    replace (size (pre ++ [92]) + 1) with (size (pre ++ [92; c])) by (rewrite !size_app; change (size [92]) with 1; change (size [92; c]) with 2; lia).
    rewrite (IH (pre ++ [92; c]) r fuel) by (try (rewrite E, <- app_assoc; done); simpl in Hf; lia). do 2 f_equal. rewrite size_app, !size_cons, size_nil. lia.
Qed.


(** The three ways a character is written. *)
Inductive quoted (c : Z) : list Z -> Prop :=
  | quoted_plain : c <> 34 -> c <> 92 -> quoted c [c]
  | quoted_short x : In (x, c) [(34, 34); (92, 92); (98, 8); (102, 12); (110, 10); (114, 13); (116, 9)] -> quoted c [92; x]
  | quoted_hex : c < 32 -> quoted c [92; 117; 48; 48; hex_upper (c / 16); hex_upper (c mod 16)].

Lemma quote_char_quoted c : is_byte c -> quoted c (quote_char c).
Proof.
  intros Hc. unfold is_byte in Hc. unfold quote_char, isControlCharacter.
  repeat (match goal with |- quoted _ (if ?x =? ?y then _ else _) => destruct (Z.eqb_spec x y); [subst; apply quoted_short; cbn; tauto|] end).
  case_match; [apply quoted_hex; lia|by apply quoted_plain].
Qed.

Lemma quote_scan c : is_byte c -> scan_ok (quote_char c).
Proof.
  intros Hc. destruct (quote_char_quoted c Hc) as [H1 H2|x _|H]; [by repeat constructor|apply scan_escape; constructor|]. unfold is_byte in Hc.
  assert (forall d, 0 <= d < 16 -> hex_upper d <> 34 /\ hex_upper d <> 92) as Hhex by (intros d Hd; unfold hex_upper; case_match; lia).
  destruct (Hhex (c / 16)); [euclid|]. destruct (Hhex (c mod 16)); [euclid|]. apply scan_escape. repeat (apply scan_plain; [done|done|]). constructor.
Qed.

Lemma quotes_scan s : bytes s -> scan_ok (concat (map quote_char s)).
Proof. induction 1 as [|c s Hc _ IH]; cbn; [constructor|]. apply scan_ok_app; [by apply quote_scan|done]. Qed.

Lemma hex_round d : 0 <= d < 16 -> hex_digit (hex_upper d) = Some d.
Proof.
  intros Hd. pose proof (range_forallb (fun d => match hex_digit (hex_upper d) with Some x => x =? d | None => false end) 16 ltac:(vm_compute; reflexivity) d Hd) as H.
  cbv beta in H. destruct (hex_digit (hex_upper d)); [|done]. f_equal. lia.
Qed.

Lemma hex_step_at i cur u d fuel : i < 4 -> 0 <= d < 16 -> rd doc cur = Ret (hex_upper d) ->
  loop (S fuel) (hex_step doc) (i, cur, u) = loop fuel (hex_step doc) (i + 1, cur + 1, u * 16 + d).
Proof. intros Hi Hd Hrd. rewrite loop_S. unfold hex_step at 1. rewrite (proj2 (Z.leb_gt 4 i)), Hrd by lia. cbn [mbind outcome_bind]. by rewrite hex_round. Qed.

(** One character, escaped or not, is decoded. *)
Lemma decode_quote pre c r n acc : doc = pre ++ quote_char c ++ r -> is_byte c -> size pre + size (quote_char c) <= n ->
  decode_char doc n (size pre, acc) = Ret (inl (size pre + size (quote_char c), acc ++ [c])).
Proof.
  intros E Hc Hn. unfold is_byte in Hc. pose proof (size_nonneg pre).
  assert (forall q k x, quote_char c = q -> 0 <= k -> q !! Z.to_nat k = Some x -> rd doc (size pre + k) = Ret x) as Hrd.
  { intros q k x Eq Hk Hx. rewrite E, Eq. apply rd_at; [done|]. by apply lookup_app_l_Some. }
  assert (forall q x, quote_char c = x :: q -> rd doc (size pre) = Ret x) as Hrd0 by (intros q x Eq; rewrite <- (Z.add_0_r (size pre)); by apply (Hrd _ _ _ Eq)).
  unfold decode_char. pose proof (quote_char_quoted c Hc) as Hq. remember (quote_char c) as q eqn:Eq. symmetry in Eq.
  destruct Hq as [H1 H2|x Hx|H1].
  - rewrite (proj2 (Z.eqb_neq (size pre) n)), (Hrd0 _ _ eq_refl) by (change (size [c]) with 1 in Hn; lia). cbn [mbind outcome_bind].
    by rewrite (proj2 (Z.eqb_neq c 34) H1), (proj2 (Z.eqb_neq c 92) H2).
  - change (size [92; x]) with 2 in *. rewrite (proj2 (Z.eqb_neq (size pre) n)), (Hrd0 _ _ eq_refl) by lia. cbn [mbind outcome_bind Z.eqb Pos.eqb].
    rewrite (proj2 (Z.eqb_neq (size pre + 1) n)), (Hrd _ 1 x eq_refl) by (done || lia). cbn [mbind outcome_bind].
    replace (size pre + 2) with (size pre + 1 + 1) by lia. cbn in Hx.
    repeat (destruct Hx as [[= <- <-]|Hx]; [done|]). destruct Hx.
  - change (size [92; 117; 48; 48; _; _]) with 6 in *. rewrite (proj2 (Z.eqb_neq (size pre) n)), (Hrd0 _ _ eq_refl) by lia. cbn [mbind outcome_bind Z.eqb Pos.eqb].
    rewrite (proj2 (Z.eqb_neq (size pre + 1) n)), (Hrd _ 1 117 eq_refl) by (done || lia). cbn [mbind outcome_bind Z.eqb Pos.eqb].
    assert (decodeUnicodeEscapeSequence doc (size pre + 1 + 1) n = Ret (Some c, size pre + 6)) as Hu.
    { unfold decodeUnicodeEscapeSequence. rewrite (proj2 (Z.ltb_ge _ 4)) by lia.
      rewrite (hex_step_at 0 _ _ 0), (hex_step_at _ _ _ 0), (hex_step_at _ _ _ (c / 16)), (hex_step_at _ _ _ (c mod 16))
        by (first [euclid | rewrite <- !Z.add_assoc; by apply (Hrd _ _ _ eq_refl)]).
      rewrite loop_S. unfold hex_step. change (4 <=? 0 + 1 + 1 + 1 + 1) with true. cbn [mret outcome_ret].
      replace ((((0 * 16 + 0) * 16 + 0) * 16 + c / 16) * 16 + c mod 16) with c by euclid. do 2 f_equal. lia. }
    unfold decodeUnicodeCodePoint. rewrite Hu. cbn [mbind outcome_bind]. rewrite (proj2 (Z.leb_gt 0xD800 c)) by lia. cbn [andb mbind outcome_bind mret outcome_ret].
    unfold codePointToUTF8. by rewrite (proj2 (Z.leb_le c 0x7f)) by lia.
Qed.

Lemma decode_quotes r n : forall s pre acc fuel, doc = pre ++ concat (map quote_char s) ++ 34 :: r -> bytes s ->
  n = size pre + size (concat (map quote_char s)) -> (length s < fuel)%nat ->
  loop fuel (decode_char doc n) (size pre, acc) = Ret (Some (acc ++ s)).
Proof.
  induction s as [|c s IH]; intros pre acc fuel E Hs Hn Hf; (destruct fuel as [|fuel]; [simpl in Hf; lia|]); rewrite loop_S.
  - cbn [map concat] in Hn. rewrite size_nil in Hn. unfold decode_char. rewrite (proj2 (Z.eqb_eq (size pre) n)) by lia. cbn. by rewrite app_nil_r.
  - apply Forall_cons_1 in Hs as [Hc Hs]. cbn [map concat] in E, Hn. rewrite size_app in Hn. pose proof (size_nonneg (concat (map quote_char s))).
    rewrite <- app_assoc in E. rewrite (decode_quote pre c (concat (map quote_char s) ++ 34 :: r) n acc E Hc) by lia.
    replace (size pre + size (quote_char c)) with (size (pre ++ quote_char c)) by (by rewrite size_app).
    rewrite (IH (pre ++ quote_char c)); [by rewrite <- app_assoc|by rewrite E, <- app_assoc|done|rewrite size_app; lia|simpl in Hf; lia].
Qed.

(** The written form is the same with and without the quick way. *)
Lemma quoted_eq s : valueToQuotedStringN s = 34 :: concat (map quote_char s) ++ [34].
Proof.
  unfold valueToQuotedStringN. destruct (negb _ && negb _) eqn:E; [|done]. apply andb_prop in E as [E1%negb_true_iff E2%negb_true_iff].
  assert (take_while (fun c => negb (c =? 0)) s = concat (map quote_char s)) as ->; [|done].
  induction s as [|c s IH]; [done|]. cbn [existsb] in E1, E2. apply orb_false_iff in E1 as [E1 E1'], E2 as [E2 E2']. cbn [take_while map concat].
  apply orb_false_iff in E2 as [E2 E3]. rewrite E3. cbn [negb]. rewrite (IH E1' E2').
  unfold quote_char. repeat (apply orb_false_iff in E1 as [?H E1]). rewrite H, H0, H1, H2, H3, H4, H5, E2, E3. done.
Qed.

(** A written string is one token and is decoded. *)
Lemma readToken_string pre s r : doc = pre ++ valueToQuotedStringN s ++ r -> bytes s ->
  let t := mk_token tokenString (size pre) (size pre + size (valueToQuotedStringN s)) in
  readToken doc (size pre) = Ret (t, end_ t) /\ decodeString doc t = Ret (Some s).
Proof.
  intros E Hs t. unfold t. rewrite quoted_eq in *. set (q := concat (map quote_char s)) in *. cbn [app] in E. rewrite <- app_assoc in E. cbn [app] in E.
  rewrite size_cons, size_app. change (size [34]) with 1.
  assert (doc = (pre ++ [34]) ++ q ++ 34 :: r) as E' by (by rewrite E, <- app_assoc).
  assert (length q < fuel0 doc)%nat as Hq by (unfold fuel0; rewrite E', !length_app; lia).
  assert (size (pre ++ [34]) = size pre + 1) as Hp by (rewrite size_app; done). split.
  - unfold readToken. rewrite (skipSpaces_at pre _ _ E) by done. cbn [mbind outcome_bind]. cbv zeta. rewrite (getNextChar_at pre _ _ E). cbn [mbind outcome_bind Z.eqb Pos.eqb].
    unfold readString. rewrite <- Hp, (readString_over q (quotes_scan s Hs) (pre ++ [34]) r _ E' Hq). cbn [mbind outcome_bind mret outcome_ret end_]. rewrite Hp.
    by replace (size pre + 1 + size q + 1) with (size pre + (1 + (size q + 1))) by lia.
  - unfold decodeString. cbn [start_ end_]. rewrite <- Hp. apply (decode_quotes r _ s (pre ++ [34]) [] _ E' Hs); [unfold q; lia|].
    assert (length s <= length q)%nat; [|lia]. unfold q. clear. induction s as [|c s IH]; [done|]. cbn [map concat length]. rewrite length_app.
    assert (1 <= length (quote_char c))%nat; [|lia]. unfold quote_char. repeat case_match; cbn; lia.
Qed.

(** *** Words *)

Lemma readToken_word pre c p t r : doc = pre ++ (c :: p) ++ r -> In (c :: p, t) [(lit "true", tokenTrue); (lit "false", tokenFalse); (lit "null", tokenNull)] ->
  readToken doc (size pre) = Ret (mk_token t (size pre) (size pre + size (c :: p)), size pre + size (c :: p)).
Proof.
  intros E Hin. cbn [app] in E.
  assert (match_pattern doc p (size pre + 1) = Ret (true, size pre + size (c :: p))) as Hm.
  { rewrite size_cons, Z.add_assoc. apply wp_eq. unfold match_pattern, doc_end. pose proof (size_nonneg p). pose proof (size_nonneg r). pose proof (size_nonneg pre).
    rewrite (proj2 (Z.ltb_ge _ (size p))) by (rewrite E, size_app, size_cons, size_app; lia). apply wp_bind.
    apply wp_loop with (m := fun k => Z.to_nat k) (I := fun k => 0 <= k <= size p); [|lia|unfold size; lia].
    intros k Hk. wp_step; [apply wp_mret; by apply wp_mret|]. destruct (rd_total p (k - 1)) as (x & Hx & Ex); [lia|].
    assert (rd doc (size pre + 1 + k - 1) = Ret x) as Ed.
    { replace (size pre + 1 + k - 1) with (size pre + k) by lia. rewrite E. apply rd_at; [lia|].
      replace (Z.to_nat k) with (S (Z.to_nat (k - 1))) by lia. cbn [lookup list_lookup]. by apply lookup_app_l_Some. }
    rewrite Ed, Ex. cbn [mbind outcome_bind]. rewrite Z.eqb_refl. apply wp_mret. lia. }
  unfold readToken. change (lit "rue") with [114; 117; 101]. change (lit "alse") with [97; 108; 115; 101]. change (lit "ull") with [117; 108; 108].
  vm_compute in Hin. repeat (destruct Hin as [[= <- <- <-]|Hin]; [rewrite (skipSpaces_at pre _ _ E) by done; cbn [mbind outcome_bind]; cbv zeta;
    rewrite (getNextChar_at pre _ _ E); cbn [mbind outcome_bind Z.eqb Pos.eqb orb andb]; rewrite Hm; reflexivity|]).
  destruct Hin.
Qed.

(** *** Numbers *)

Definition digits (l : list Z) : Prop := Forall (fun d => isdigit d = true) l.

Definition fraction_text (f : list Z) : Prop := f = [] \/ exists ds, f = 46 :: ds /\ digits ds.
Definition exponent_text (x : list Z) : Prop := x = [] \/ exists sg ds, x = 101 :: sg :: ds /\ (sg = 43 \/ sg = 45) /\ digits ds.

(** What may follow a number. *)
Definition ends_number (c : Z) : Prop := isdigit c = false /\ c <> 46 /\ c <> 101 /\ c <> 69.

Lemma scan_digits pre l c r : doc = pre ++ l ++ c :: r -> digits l -> isdigit c = false -> scan_while isdigit doc (doc_end doc) (size pre) = Ret (size pre + size l).
Proof.
  intros E Hl Hc. pose proof (size_nonneg r). apply (scan_while_at isdigit doc _ _ pre l r c); [done|done| |done|done].
  unfold doc_end. rewrite E, !size_app, size_cons. lia.
Qed.

Lemma char_at_at pre c r : doc = pre ++ c :: r -> char_at doc (size pre) = Ret c.
Proof.
  intros E. unfold char_at, doc_end. pose proof (size_nonneg r). rewrite (proj2 (Z.ltb_lt _ (size doc))) by (rewrite E, size_app, size_cons; lia).
  rewrite E. apply rd_at0.
Qed.

Lemma read_exponent pre x c r : doc = pre ++ x ++ c :: r -> exponent_text x -> ends_number c ->
  (d ← char_at doc (size pre);
   if (d =? 101) || (d =? 69) then
     d ← char_at doc (size pre + 1); scan_while isdigit doc (doc_end doc) (if (d =? 43) || (d =? 45) then size pre + 2 else size pre + 1)
   else mret (size pre)) = Ret (size pre + size x).
Proof.
  intros E Hx (Hc & _ & H1 & H2). destruct Hx as [->|(sg & ds & -> & Hsg & Hds)].
  - cbn [app] in E. rewrite (char_at_at _ _ _ E). cbn [mbind outcome_bind]. rewrite (proj2 (Z.eqb_neq c 101)), (proj2 (Z.eqb_neq c 69)) by done.
    rewrite size_nil, Z.add_0_r. done.
  - cbn [app] in E. rewrite (char_at_at _ _ _ E). cbn [mbind outcome_bind Z.eqb Pos.eqb orb].
    assert (char_at doc (size pre + 1) = Ret sg) as ->.
    { replace (size pre + 1) with (size (pre ++ [101])) by (rewrite size_app; done). apply (char_at_at _ sg (ds ++ c :: r)). by rewrite E, <- app_assoc. }
    cbn [mbind outcome_bind]. assert ((sg =? 43) || (sg =? 45) = true) as -> by (destruct Hsg as [->| ->]; done).
    replace (size pre + 2) with (size (pre ++ [101; sg])) by (rewrite size_app; done).
    rewrite (scan_digits (pre ++ [101; sg]) ds c r) by (done || by rewrite E, <- app_assoc). f_equal. rewrite size_app, !size_cons, size_nil. lia.
Qed.

Lemma readNumber_over pre w f x c r : doc = pre ++ w ++ f ++ x ++ c :: r -> digits w -> fraction_text f -> exponent_text x -> ends_number c ->
  readNumber doc (size pre) = Ret (size pre + size (w ++ f ++ x)).
Proof.
  intros E Hw Hf Hx Hc. pose proof Hc as (Hcd & Hc46 & Hce & HcE). unfold readNumber. rewrite !size_app.
  assert (exists y t, x ++ c :: r = y :: t /\ isdigit y = false /\ y <> 46) as (y & t & Ey & Hy & Hy46)
    by (destruct Hx as [->|(sg & ds & -> & _)]; [by exists c, r|by eexists _, _]).
  destruct Hf as [->|(fs & -> & Hfs)].
  - cbn [app] in E. rewrite (scan_digits pre w y t) by (done || by rewrite E, Ey). cbn [mbind outcome_bind].
    replace (size pre + size w) with (size (pre ++ w)) by by rewrite size_app.
    assert (doc = (pre ++ w) ++ x ++ c :: r) as E' by (by rewrite E, <- app_assoc).
    rewrite (char_at_at (pre ++ w) y t) by (by rewrite E', Ey). cbn [mbind outcome_bind]. rewrite (proj2 (Z.eqb_neq y 46) Hy46). cbn [mbind outcome_bind mret outcome_ret].
    pose proof (read_exponent (pre ++ w) x c r E' Hx Hc) as He. rewrite (char_at_at (pre ++ w) y t) in He by (by rewrite E', Ey). cbn [mbind outcome_bind] in He.
    etransitivity; [exact He|]. f_equal. rewrite size_app, size_nil. lia.
  - cbn [app] in E. rewrite (scan_digits pre w 46 (fs ++ x ++ c :: r)) by done. cbn [mbind outcome_bind].
    replace (size pre + size w) with (size (pre ++ w)) by by rewrite size_app.
    rewrite (char_at_at (pre ++ w) 46 (fs ++ x ++ c :: r)) by by rewrite E, <- app_assoc. cbn [mbind outcome_bind Z.eqb Pos.eqb].
    replace (size (pre ++ w) + 1) with (size (pre ++ w ++ [46])) by (rewrite !size_app; change (size [46]) with 1; lia).
    assert (doc = (pre ++ w ++ [46]) ++ fs ++ x ++ c :: r) as E2 by (by rewrite E, <- !app_assoc).
    rewrite (scan_digits (pre ++ w ++ [46]) fs y t) by (done || by rewrite E2, Ey). cbn [mbind outcome_bind].
    replace (size (pre ++ w ++ [46]) + size fs) with (size ((pre ++ w ++ [46]) ++ fs)) by by rewrite size_app.
    assert (doc = ((pre ++ w ++ [46]) ++ fs) ++ x ++ c :: r) as E' by (by rewrite E2, <- !app_assoc).
    rewrite (char_at_at _ y t) by (by rewrite E', Ey). cbn [mbind outcome_bind mret outcome_ret].
    pose proof (read_exponent _ x c r E' Hx Hc) as He. rewrite (char_at_at _ y t) in He by (by rewrite E', Ey). cbn [mbind outcome_bind] in He.
    etransitivity; [exact He|]. f_equal. rewrite !size_app, !size_cons, size_nil. lia.
Qed.

(** The texts of numbers. *)
Definition number_text (t : list Z) : Prop :=
  exists s w f x, t = s ++ w ++ f ++ x /\ (s = [] \/ s = [45]) /\ w <> [] /\ digits w /\ fraction_text f /\ exponent_text x.

Lemma readToken_number pre t c r : doc = pre ++ t ++ c :: r -> number_text t -> ends_number c ->
  readToken doc (size pre) = Ret (mk_token tokenNumber (size pre) (size pre + size t), size pre + size t).
Proof.
  intros E (s & w & f & x & -> & Hs & Hne & Hw & Hf & Hx) Hc.
  assert (exists y w', s ++ w = y :: w' /\ digits w' /\ (isdigit y = true \/ y = 45)) as (y & w' & Ey & Hw' & Hy).
  { destruct Hs as [->| ->]; [|by exists 45, w; eauto]. destruct w as [|y w']; [done|]. apply Forall_cons_1 in Hw as [Hy Hw]. exists y, w'. auto. }
  assert (doc = pre ++ y :: w' ++ f ++ x ++ c :: r) as E1 by (rewrite E, <- !app_assoc, (app_assoc s), Ey; done).
  assert (doc = (pre ++ [y]) ++ w' ++ f ++ x ++ c :: r) as E2 by (by rewrite E1, <- app_assoc).
  assert (48 <= y <= 57 \/ y = 45) as Hyr by (unfold isdigit in Hy; lia).
  unfold readToken. rewrite (skipSpaces_at pre _ _ E1) by lia. cbn [mbind outcome_bind]. cbv zeta. rewrite (getNextChar_at pre _ _ E1). cbn [mbind outcome_bind].
  repeat match goal with |- context [y =? ?k] => lazymatch k with 45 => fail | _ => rewrite (proj2 (Z.eqb_neq y k)) by lia end end.
  assert (isdigit y || (y =? 45) = true) as -> by (unfold isdigit; lia).
  replace (size pre + 1) with (size (pre ++ [y])) by (rewrite size_app; done). rewrite (readNumber_over _ w' f x c r E2) by done. cbn [mbind outcome_bind mret outcome_ret].
  assert (size (pre ++ [y]) + size (w' ++ f ++ x) = size pre + size (s ++ w ++ f ++ x)) as ->; [|done].
  rewrite (app_assoc s), Ey, !size_app, !size_cons, size_nil. lia.
Qed.

Lemma decode_digits_spec tk m r : forall ds pre v fuel, doc = pre ++ ds ++ r -> end_ tk = size pre + size ds -> (length ds < fuel)%nat ->
  loop fuel (fun '(current, value) =>
    if current <? end_ tk then
      c ← rd doc current;
      let current := current + 1 in
      if (c <? 48) || (57 <? c) then mret (inr None) else
      let digit := c - 48 in
      if (m / 10 <=? value) && ((m / 10 <? value) || negb (current =? end_ tk) || (m mod 10 <? digit))
      then mret (inr None)
      else mret (inl (current, u64 (value * 10 + digit)))
    else mret (inr (Some value))) (size pre, v) = Ret (digits_spec m v ds).
Proof.
  induction ds as [|c ds IH]; intros pre v fuel E He Hf; (destruct fuel as [|fuel]; [simpl in Hf; lia|]); rewrite loop_S.
  - rewrite size_nil in He. rewrite (proj2 (Z.ltb_ge (size pre) (end_ tk))) by lia. done.
  - rewrite size_cons in He. pose proof (size_nonneg ds). rewrite (proj2 (Z.ltb_lt (size pre) (end_ tk))) by lia.
    assert (rd doc (size pre) = Ret c) as -> by (rewrite E; apply rd_at0). cbn [mbind outcome_bind]. cbv zeta. cbn [digits_spec].
    assert ((size pre + 1 =? end_ tk) = bool_decide (ds = [])) as ->.
    { destruct ds as [|d ds]; [apply Z.eqb_eq; rewrite He, size_nil; lia|]. rewrite bool_decide_false by done. apply Z.eqb_neq. rewrite He, size_cons. pose proof (size_nonneg ds). lia. }
    destruct ((c <? 48) || (57 <? c)); [done|]. destruct ((m / 10 <=? v) && _); [done|]. cbn [mret outcome_ret].
    replace (size pre + 1) with (size (pre ++ [c])) by (rewrite size_app; done).
    apply IH; [by rewrite E, <- app_assoc|rewrite size_app; change (size [c]) with 1; lia|simpl in Hf; lia].
Qed.

Lemma decodeNumber_text pre t r k : doc = pre ++ t ++ r -> t <> [] -> decodeNumber doc (mk_token k (size pre) (size pre + size t)) = Ret (decode_text t).
Proof.
  intros E Hne. destruct t as [|y t]; [done|]. set (tk := mk_token _ _ _). unfold decodeNumber. change (start_ tk) with (size pre).
  assert (peek doc (size pre) = Ret y) as -> by (apply (peek_at pre y (t ++ r)); rewrite E; done). cbn [mbind outcome_bind]. cbv zeta.
  assert (length (y :: t) < fuel0 doc)%nat as Hf by (unfold fuel0; rewrite E, !length_app; lia).
  assert (decodeDouble doc tk = option_map JReal (read_double (y :: t))) as Hd.
  { unfold decodeDouble, tk. cbn [start_ end_]. rewrite E, slice_mid by (done || lia). by destruct (read_double (y :: t)). }
  unfold decode_text, decode_digits. cbn [head tail].
  assert (bool_decide (Some y = Some 45) = (y =? 45)) as ->.
  { destruct (Z.eqb_spec y 45) as [->|]; [done|]. apply bool_decide_false. congruence. }
  destruct (Z.eqb_spec y 45) as [->|Hy].
  - replace (size pre + 1) with (size (pre ++ [45])) by (rewrite size_app; done).
    rewrite (decode_digits_spec tk _ r t (pre ++ [45])); [|by rewrite E, <- app_assoc|unfold tk; cbn [end_]; rewrite size_app, size_cons; change (size [45]) with 1; lia|simpl in Hf; lia].
    cbn [mbind outcome_bind mret outcome_ret]. rewrite Hd. by destruct (digits_spec _ 0 t).
  - rewrite (decode_digits_spec tk _ r (y :: t) pre); [|exact E|reflexivity|exact Hf]. cbn [mbind outcome_bind mret outcome_ret]. rewrite Hd. by destruct (digits_spec _ 0 (y :: t)).
Qed.
End text.

(** ** The texts of numbers *)

Lemma dec_val_ge ds v : digits ds -> 0 <= v -> v * 10 ^ size ds <= dec_val v ds.
Proof.
  intros Hds. revert v. induction Hds as [|d ds Hd _ IH]; intros v Hv; cbn [dec_val]; [rewrite size_nil; lia|].
  apply isdigit_range in Hd. specialize (IH (v * 10 + (d - 48)) ltac:(lia)). rewrite size_cons, Z.pow_add_r by (pose proof (size_nonneg ds); lia).
  pose proof (Z.pow_pos_nonneg 10 (size ds)). pose proof (size_nonneg ds). nia.
Qed.

Lemma digits_spec_ok m ds v : digits ds -> 11 <= m < 2 ^ 64 -> 0 <= v -> dec_val v ds <= m -> digits_spec m v ds = Some (dec_val v ds).
Proof.
  intros Hds Hm. revert v. induction Hds as [|d ds Hd Hds IH]; intros v Hv Hle; [done|]. cbn [digits_spec dec_val] in *. apply isdigit_range in Hd.
  assert ((d <? 48) || (57 <? d) = false) as -> by lia. pose proof (dec_val_ge ds (v * 10 + (d - 48)) Hds ltac:(lia)) as Hge.
  assert (1 <= 10 ^ size ds) by (pose proof (Z.pow_pos_nonneg 10 (size ds)); pose proof (size_nonneg ds); lia).
  assert (v * 10 + (d - 48) <= m) by nia.
  assert ((m / 10 <=? v) && ((m / 10 <? v) || negb (bool_decide (ds = [])) || (m mod 10 <? d - 48)) = false) as ->.
  { destruct (Z.leb_spec (m / 10) v); [|done]. cbn [andb]. assert (v = m / 10) as -> by euclid. rewrite Z.ltb_irrefl. cbn [orb].
    assert ((m mod 10 <? d - 48) = false) as -> by (apply Z.ltb_ge; euclid). rewrite orb_false_r. destruct ds as [|c ds]; [done|]. exfalso.
    rewrite size_cons, Z.pow_add_r in Hge by (pose proof (size_nonneg ds); lia). pose proof (Z.pow_pos_nonneg 10 (size ds)). pose proof (size_nonneg ds).
    assert (10 <= m / 10 * 10 + (d - 48)) by euclid. assert (m < (m / 10 * 10 + (d - 48)) * 10) by euclid. nia. }
  rewrite u64_small by lia. by apply IH; [lia|].
Qed.

Lemma to_string_text z : number_text (valueToString_int z).
Proof.
  unfold valueToString_int. exists (if z <? 0 then [45] else []), (udigits 20 (Z.abs z) []), [], [].
  destruct (udigits_cons 19 (Z.abs z)) as (d & ds & E & Hd & Hds). rewrite !app_nil_r.
  split_and!; [destruct (Z.ltb_spec z 0); [rewrite Z.abs_neq by lia|rewrite Z.abs_eq by lia]; done|destruct (z <? 0); auto|by rewrite E|rewrite E; by constructor|by left|by left].
Qed.

Lemma udigits_20 v : 0 <= v <= maxLargestUInt -> digits (udigits 20 v []) /\ dec_val 0 (udigits 20 v []) = v /\ head (udigits 20 v []) <> Some 45.
Proof.
  intros Hv. destruct (udigits_cons 19 v) as (d & ds & E & Hd & Hds). split; [rewrite E; by constructor|]. split.
  - apply udigits_val. unfold maxLargestUInt in Hv. split; [lia|]. apply Z.le_lt_trans with (2 ^ 64 - 1); [lia|done].
  - rewrite E. cbn. intros [= ->]. done.
Qed.

Lemma decode_nonneg z : 0 <= z <= maxLargestUInt -> decode_text (udigits 20 z []) = Some (if z <=? maxInt then JInt z else JUInt z).
Proof.
  intros Hz. destruct (udigits_20 z Hz) as (Hd & Hv & Hh). unfold decode_text. rewrite bool_decide_false by done.
  rewrite digits_spec_ok by (rewrite ?Hv; unfold maxLargestUInt in *; (done || lia)). by rewrite Hv.
Qed.

Lemma decode_int z : minLargestInt <= z <= maxLargestInt -> decode_text (valueToString_int z) = Some (norm (JInt z)).
Proof.
  intros Hz. unfold valueToString_int, norm, minLargestInt, maxLargestInt in *. destruct (Z.ltb_spec z 0).
  - assert (0 <= - z <= maxLargestUInt) as Hz' by (unfold maxLargestUInt; lia). destruct (udigits_20 _ Hz') as (Hd & Hv & _).
    unfold decode_text. cbn [head tail]. rewrite bool_decide_true by done. rewrite digits_spec_ok by (rewrite ?Hv; unfold maxLargestInt in *; (done || lia)). rewrite Hv.
    unfold maxLargestInt, maxInt, minLargestInt. rewrite (proj2 (Z.leb_le z _)) by lia. cbn [andb]. destruct (Z.eqb_spec (- z) (2 ^ 63 - 1 + 1)); do 2 f_equal; lia.
  - apply decode_nonneg. unfold maxLargestUInt. lia.
Qed.

Lemma strip_zeros_digits ds : digits ds -> digits (strip_zeros ds).
Proof.
  induction 1 as [|d ds Hd _ IH]; [constructor|]. cbn [strip_zeros]. destruct (strip_zeros ds) as [|c r]; [|by constructor]. destruct (d =? 48); [constructor|by repeat constructor].
Qed.

Lemma with_fraction_text whole frac : digits frac -> exists f, with_fraction whole frac = whole ++ f /\ fraction_text f.
Proof.
  intros Hf. apply strip_zeros_digits in Hf. unfold with_fraction. destruct (strip_zeros frac) as [|d ds]; [exists []; rewrite app_nil_r; split; [done|by left]|].
  exists (46 :: d :: ds). split; [done|]. right. by eexists.
Qed.

Lemma format_text d : is_finite d = true -> number_text (format_g17 d).
Proof.
  intros Hd. destruct d as [s| | |s m e]; try done.
  - exists (if s then [45] else []), [48], [], []. split_and!; [by destruct s|destruct s; auto|done|by repeat constructor|by left|by left].
  - unfold format_g17. destruct (digits17 m e) as [ds x] eqn:E.
    assert (digits ds /\ ds <> []) as [Hds Hne].
    { unfold digits17 in E. cbv zeta in E. destruct (if _ =? 10 ^ 17 then _ else _) as [v x'] in E. apply (f_equal fst) in E. cbn [fst] in E. rewrite <- E.
      destruct (udigits_cons 16 v) as (c & r & Er & Hd1 & Hd2). rewrite Er. split; [by constructor|done]. }
    destruct ((-4 <=? x) && (x <? 17)) eqn:Ex.
    + destruct (Z.leb_spec 0 x).
      * destruct (with_fraction_text (take (Z.to_nat (x + 1)) ds) (drop (Z.to_nat (x + 1)) ds)) as (f & -> & Hf); [by apply Forall_drop|].
        exists (if s then [45] else []), (take (Z.to_nat (x + 1)) ds), f, []. rewrite app_nil_r.
        split_and!; [done|destruct s; auto|replace (Z.to_nat (x + 1)) with (S (Z.to_nat x)) by lia; by destruct ds|by apply Forall_take|done|by left].
      * destruct (with_fraction_text [48] (replicate (Z.to_nat (- x - 1)) 48 ++ ds)) as (f & -> & Hf); [apply Forall_app; split; [by apply Forall_replicate|done]|].
        exists (if s then [45] else []), [48], f, []. rewrite app_nil_r. split_and!; [done|destruct s; auto|done|by repeat constructor|done|by left].
    + destruct (with_fraction_text (take 1 ds) (drop 1 ds)) as (f & -> & Hf); [by apply Forall_drop|].
      eexists (if s then [45] else []), (take 1 ds), f, (101 :: (if x <? 0 then 45 else 43) :: _). rewrite <- app_assoc.
      split_and!; [reflexivity|destruct s; auto|by destruct ds|by apply Forall_take|done|]. right. eexists _, _. split; [done|]. split; [destruct (x <? 0); auto|].
      assert (digits (udigits 3 (Z.abs x) [])) by by apply udigits_digits. destruct (Z.abs x <? 10); [by constructor|done].
Qed.

Lemma number_text_chars t : number_text t -> t <> [] /\ Forall (fun c => c <> 44) t.
Proof.
  assert (forall ds, digits ds -> Forall (fun c => c <> 44) ds) as Hdig by (intros ds; apply List.Forall_impl; intros c Hc; apply isdigit_range in Hc; lia).
  intros (s & w & f & x & -> & Hs & Hne & Hw & Hf & Hx). split; [by destruct s, w|]. rewrite !Forall_app. split_and!; [|by apply Hdig| |].
  - destruct Hs as [->| ->]; by repeat constructor.
  - destruct Hf as [->|(ds & -> & Hds)]; [constructor|]. constructor; [done|by apply Hdig].
  - destruct Hx as [->|(sg & ds & -> & Hsg & Hds)]; [constructor|]. constructor; [done|]. constructor; [lia|by apply Hdig].
Qed.

Lemma double_text d : is_finite d = true -> number_text (valueToString_double d).
Proof.
  intros Hd. unfold valueToString_double. rewrite Hd. pose proof (format_text d Hd) as Ht. destruct (number_text_chars _ Ht) as [_ Hc].
  assert (fixNumericLocale (format_g17 d) = format_g17 d) as ->; [|done]. unfold fixNumericLocale. clear Ht. induction Hc as [|c l Hc _ IH]; [done|].
  cbn [map]. by rewrite IH, (proj2 (Z.eqb_neq c 44) Hc).
Qed.

(** ** Values *)

(** The characters that follow a value in a written text. *)
Definition ends_value (c : Z) : Prop := c = 44 \/ c = 93 \/ c = 125 \/ c = 10.

Lemma ends_value_number c : ends_value c -> ends_number c.
Proof. intros [->|[->|[->| ->]]]; done. Qed.

Lemma skipCommentTokens_at doc i t j : readToken doc i = Ret (t, j) -> type_ t <> tokenComment -> skipCommentTokens doc i = Ret (t, j).
Proof. intros E Ht. unfold skipCommentTokens, fuel0. rewrite loop_S, E. cbn [mbind outcome_bind]. by rewrite decide_False. Qed.

(** Reading back one value, from any place of a document. *)
Definition reads_back (v : json) : Prop := forall doc pre c r depth v0 fuel,
  doc = pre ++ writeValue v ++ c :: r -> ends_value c -> 0 <= depth -> depth + height v <= stackLimit_g -> (2 * length (writeValue v) <= fuel)%nat ->
  readValue doc fuel depth v0 (size pre) = Ret (Some (true, norm v, size pre + size (writeValue v))).

(** Scalars: one token. *)
Lemma reads_back_word w t v : In (w, t) [(lit "true", tokenTrue); (lit "false", tokenFalse); (lit "null", tokenNull)] -> writeValue v = w -> height v = 1 ->
  (forall doc fuel depth v0 i j, skipCommentTokens doc i = Ret (mk_token t i j, j) -> depth < stackLimit_g -> readValue doc (S fuel) depth v0 i = Ret (Some (true, norm v, j))) ->
  reads_back v.
Proof.
  intros Hin Hw Hh Hread doc pre c r depth v0 fuel E _ Hd Hdepth Hf. rewrite Hw in *. destruct w as [|x w]; [vm_compute in Hin; intuition congruence|].
  destruct fuel as [|fuel]; [simpl in Hf; lia|]. apply Hread; [|lia]. apply skipCommentTokens_at; [by apply (readToken_word doc pre x w t (c :: r))|].
  vm_compute in Hin. cbn [type_]. intuition congruence.
Qed.

Lemma reads_back_number v : number_text (writeValue v) -> height v = 1 -> decode_text (writeValue v) = Some (norm v) -> reads_back v.
Proof.
  intros Ht Hh Hdec doc pre c r depth v0 fuel E Hc Hd Hdepth Hf. destruct (number_text_chars _ Ht) as [Hne _].
  destruct fuel as [|fuel]; [destruct (writeValue v); simpl in Hf; (done || lia)|]. cbn [readValue]. rewrite (proj2 (Z.leb_gt stackLimit_g depth)) by lia.
  rewrite (skipCommentTokens_at doc (size pre) _ _ (readToken_number doc pre _ c r E Ht (ends_value_number c Hc))) by done. cbn [mbind outcome_bind type_].
  rewrite (decodeNumber_text doc pre _ (c :: r) tokenNumber E Hne). cbn [mbind outcome_bind mret outcome_ret]. by rewrite Hdec.
Qed.

Lemma reads_back_string s : bytes s -> reads_back (JString s).
Proof.
  intros Hs doc pre c r depth v0 fuel E Hc Hd Hdepth Hf. cbn [writeValue height norm] in *. rewrite quoted_eq in Hf.
  destruct fuel as [|fuel]; [simpl in Hf; lia|]. destruct (readToken_string doc pre s (c :: r) E Hs) as [Et Ed].
  cbn [readValue]. rewrite (proj2 (Z.leb_gt stackLimit_g depth)) by lia. rewrite (skipCommentTokens_at _ _ _ _ Et) by done. cbn [mbind outcome_bind type_].
  rewrite Ed. done.
Qed.

(** What a value starts with. *)
Lemma writeValue_first v : jwf v -> exists c t, writeValue v = c :: t /\ (c =? 32) || (c =? 9) || (c =? 13) || (c =? 10) = false /\ c <> 93.
Proof.
  assert (forall t, number_text t -> exists c t', t = c :: t' /\ (c =? 32) || (c =? 9) || (c =? 13) || (c =? 10) = false /\ c <> 93) as Hnum.
  { intros t (s & w & f & x & -> & Hs & Hne & Hw & _). destruct Hs as [->| ->]; [|by eexists 45, _]. destruct w as [|d w]; [done|].
    apply Forall_cons_1 in Hw as [Hd _]. apply isdigit_range in Hd. eexists d, _. split; [done|lia]. }
  destruct v as [|z|z|d|s|b|l|m]; intros Hv; cbn [writeValue].
  - by eexists _, _.
  - apply Hnum, to_string_text.
  - apply Hnum. pose proof (to_string_text z) as Ht. unfold valueToString_int in Ht. cbn in Hv. by rewrite (proj2 (Z.ltb_ge z 0)) in Ht by lia.
  - apply Hnum, double_text, Hv.
  - rewrite quoted_eq. by eexists _, _.
  - destruct b; by eexists _, _.
  - by eexists _, _.
  - by eexists _, _.
Qed.

Definition heights (l : list json) : Z := foldr (fun v => Z.max (height v)) 0 l.

Lemma height_array l : height (JArray l) = 1 + heights l.
Proof. reflexivity. Qed.

Lemma height_object m : height (JObject m) = 1 + heights (map snd m).
Proof. cbn [height]. f_equal. induction m as [|[k v] m IH]; cbn; [done|by rewrite IH]. Qed.

Lemma heights_cons v l n : heights (v :: l) <= n -> height v <= n /\ heights l <= n.
Proof. change (heights (v :: l)) with (Z.max (height v) (heights l)). lia. Qed.

(** The elements of an array and its end. *)
Lemma reads_back_elements doc depth : 0 <= depth -> forall l, l <> [] -> Forall reads_back l -> forall pre acc r fuel,
  doc = pre ++ commas (map writeValue l) ++ 93 :: r -> depth + heights l <= stackLimit_g -> (2 * length (commas (map writeValue l)) + 1 <= fuel)%nat ->
  readArray doc fuel depth acc (size pre) = Ret (Some (true, JArray (acc ++ map norm l), size pre + size (commas (map writeValue l)) + 1)).
Proof.
  intros Hd. induction l as [|v l IH]; [done|]. intros _ Hl pre acc r fuel E Hdepth Hf. apply Forall_cons_1 in Hl as [Hv Hl].
  destruct fuel as [|fuel]; [lia|]. destruct (heights_cons v l (stackLimit_g - depth) ltac:(lia)) as [Hh1 Hh2]. cbn [readArray]. destruct l as [|v2 l].
  - cbn [map commas] in *. rewrite (Hv doc pre 93 r depth JNull fuel E) by (try lia; unfold ends_value; auto). cbn [mbind outcome_bind negb].
    replace (size pre + size (writeValue v)) with (size (pre ++ writeValue v)) by by rewrite size_app.
    rewrite (skipCommentTokens_at doc _ _ _ (readToken_char doc (pre ++ writeValue v) 93 r tokenArrayEnd ltac:(by rewrite E, <- app_assoc) ltac:(cbn; tauto))) by done.
    cbn [mbind outcome_bind type_]. by rewrite decide_True.
  - change (commas (map writeValue (v :: v2 :: l))) with (writeValue v ++ 44 :: commas (map writeValue (v2 :: l))) in *. set (t := commas (map writeValue (v2 :: l))) in *.
    rewrite <- app_assoc in E. rewrite length_app in Hf. cbn [length] in Hf.
    rewrite (Hv doc pre 44 (t ++ 93 :: r) depth JNull fuel E) by (try lia; unfold ends_value; auto). cbn [mbind outcome_bind negb].
    replace (size pre + size (writeValue v)) with (size (pre ++ writeValue v)) by by rewrite size_app.
    rewrite (skipCommentTokens_at doc _ _ _ (readToken_char doc (pre ++ writeValue v) 44 (t ++ 93 :: r) tokenArraySeparator ltac:(by rewrite E, <- app_assoc) ltac:(cbn; tauto))) by done.
    cbn [mbind outcome_bind type_]. rewrite decide_False, decide_True by done.
    replace (size (pre ++ writeValue v) + 1) with (size (pre ++ writeValue v ++ [44])) by (rewrite !size_app; change (size [44]) with 1; lia).
    rewrite (IH ltac:(done) Hl (pre ++ writeValue v ++ [44]) (acc ++ [norm v]) r fuel); [|by rewrite E, <- !app_assoc|lia|lia].
    rewrite <- app_assoc. do 3 f_equal. fold t. rewrite !size_app, !size_cons, size_nil. lia.
Qed.

(** *** Objects *)

Lemma find_member_lt k m : Forall (fun kv => key_compare kv.1 k = Lt) m -> find_member k m = None.
Proof. induction 1 as [|[k' v] m H _ IH]; [done|]. cbn in *. by rewrite H. Qed.

Lemma set_member_lt k v m : Forall (fun kv => key_compare kv.1 k = Lt) m -> set_member k v m = m ++ [(k, v)].
Proof. induction 1 as [|[k' v'] m H _ IH]; [done|]. cbn in *. by rewrite H, IH. Qed.

Definition norm_member (kv : list Z * json) : list Z * json := (kv.1, norm kv.2).
Definition write_member (kv : list Z * json) : list Z := valueToQuotedStringN kv.1 ++ 58 :: writeValue kv.2.

Lemma norm_object m : norm (JObject m) = JObject (map norm_member m).
Proof. cbn [norm]. f_equal. apply map_ext. by intros []. Qed.

Lemma write_object m : writeValue (JObject m) = 123 :: commas (map write_member m) ++ [125].
Proof. cbn [writeValue]. do 3 f_equal. apply map_ext. by intros []. Qed.

(** One member: name, colon and value, up to what follows it. *)
Lemma reads_back_member doc depth m first k v pre c r fuel : 0 <= depth -> reads_back v -> bytes k ->
  doc = pre ++ write_member (k, v) ++ c :: r -> ends_value c -> depth + height v <= stackLimit_g -> (2 * length (writeValue v) <= fuel)%nat ->
  Forall (fun kv => key_compare kv.1 k = Lt) m ->
  let i := size pre + size (write_member (k, v)) in let m' := m ++ [(k, norm v)] in
  readObject doc (S fuel) depth m first (size pre) =
    ('(comma, cur) ← readToken doc i;
     if decide (type_ comma <> tokenObjectEnd /\ type_ comma <> tokenArraySeparator /\ type_ comma <> tokenComment)
     then cur ← recoverFromError doc tokenObjectEnd cur; mret (Some (false, JObject m', cur)) else
     '(comma, cur) ← (if decide (type_ comma = tokenComment) then skipCommentTokens doc cur else mret (comma, cur));
     if decide (type_ comma = tokenObjectEnd) then mret (Some (true, JObject m', cur)) else
     readObject doc fuel depth m' (bool_decide (k = [])) cur).
Proof.
  intros Hd Hv Hk E Hc Hdepth Hf Hm i m'. unfold write_member in E, i. cbn [fst snd] in E, i. rewrite <- app_assoc in E. set (q := valueToQuotedStringN k) in *. cbn [app] in E.
  destruct (readToken_string doc pre k (58 :: writeValue v ++ c :: r) E Hk) as [Et Ed]. fold q in Et, Ed. cbn [end_] in Et.
  cbn [readObject]. rewrite (skipCommentTokens_at _ _ _ _ Et) by done. cbn [mbind outcome_bind type_]. rewrite decide_False by intuition congruence. rewrite decide_True by done.
  rewrite Ed. cbn [mbind outcome_bind]. replace (size pre + size q) with (size (pre ++ q)) by by rewrite size_app.
  rewrite (readToken_char doc (pre ++ q) 58 (writeValue v ++ c :: r) tokenMemberSeparator) by (first [by rewrite E, <- app_assoc|cbn; tauto]).
  cbn [mbind outcome_bind type_]. rewrite decide_False by intuition congruence. rewrite find_member_lt by done. cbn [default].
  replace (size (pre ++ q) + 1) with (size (pre ++ q ++ [58])) by (rewrite !size_app; change (size [58]) with 1; lia).
  rewrite (Hv doc (pre ++ q ++ [58]) c r depth) by (first [by rewrite E, <- !app_assoc|done]). cbn [mbind outcome_bind negb]. rewrite set_member_lt by done.
  replace (size (pre ++ q ++ [58]) + size (writeValue v)) with i by (unfold i; rewrite !size_app, !size_cons, size_nil; lia). done.
Qed.

Lemma reads_back_members doc depth : 0 <= depth -> forall m2, m2 <> [] -> Forall (fun kv => reads_back kv.2 /\ bytes kv.1) m2 -> forall m1 first pre r fuel,
  doc = pre ++ commas (map write_member m2) ++ 125 :: r -> depth + heights (map snd m2) <= stackLimit_g ->
  (2 * length (commas (map write_member m2)) + 1 <= fuel)%nat -> keys_sorted (m1 ++ m2) ->
  readObject doc fuel depth (map norm_member m1) first (size pre) =
    Ret (Some (true, JObject (map norm_member (m1 ++ m2)), size pre + size (commas (map write_member m2)) + 1)).
Proof.
  intros Hd. induction m2 as [|[k v] m2 IH]; [done|]. intros _ Hm m1 first pre r fuel E Hdepth Hf Hsort. apply Forall_cons_1 in Hm as [[Hv Hk] Hm].
  destruct fuel as [|fuel]; [lia|]. cbn [map] in Hdepth. destruct (heights_cons v (map snd m2) (stackLimit_g - depth)) as [Hh1 Hh2]; [cbn [snd] in Hdepth; lia|].
  assert (Forall (fun kv => key_compare kv.1 k = Lt) (map norm_member m1)) as Hlt
    by (apply List.Forall_map; apply (Hsort m1 k v m2 eq_refl)).
  assert (map norm_member m1 ++ [(k, norm v)] = map norm_member (m1 ++ [(k, v)])) as Em by by rewrite map_app.
  destruct m2 as [|kv2 m2].
  - cbn [map commas] in E, Hf |- *. unfold write_member in Hf at 1. rewrite length_app in Hf. cbn [snd length] in Hf.
    rewrite (reads_back_member doc depth _ first k v pre 125 r fuel) by (first [done|lia|unfold ends_value; auto]).
    replace (size pre + size (write_member (k, v))) with (size (pre ++ write_member (k, v))) by by rewrite size_app.
    rewrite (readToken_char doc (pre ++ write_member (k, v)) 125 r tokenObjectEnd) by (first [by rewrite E, <- app_assoc|cbn; tauto]).
    cbn [mbind outcome_bind type_]. rewrite decide_False by intuition congruence. rewrite decide_False by done. cbn [mbind outcome_bind mret outcome_ret type_]. by rewrite decide_True, Em.
  - change (commas (map write_member ((k, v) :: kv2 :: m2))) with (write_member (k, v) ++ 44 :: commas (map write_member (kv2 :: m2))) in *.
    set (t := commas (map write_member (kv2 :: m2))) in *. rewrite <- app_assoc in E. rewrite length_app in Hf. cbn [length] in Hf.
    assert (2 * length (writeValue v) + 2 <= 2 * length (write_member (k, v)))%nat as Hlen by (unfold write_member; rewrite length_app; cbn [snd length]; lia).
    rewrite (reads_back_member doc depth _ first k v pre 44 (t ++ 125 :: r) fuel) by (first [done|lia|unfold ends_value; auto]).
    replace (size pre + size (write_member (k, v))) with (size (pre ++ write_member (k, v))) by by rewrite size_app.
    rewrite (readToken_char doc (pre ++ write_member (k, v)) 44 (t ++ 125 :: r) tokenArraySeparator) by (first [by rewrite E, <- app_assoc|cbn; tauto]).
    cbn [mbind outcome_bind type_]. rewrite decide_False by intuition congruence. rewrite decide_False by done. cbn [mbind outcome_bind mret outcome_ret type_]. rewrite decide_False, Em by done.
    replace (size (pre ++ write_member (k, v)) + 1) with (size (pre ++ write_member (k, v) ++ [44])) by (rewrite !size_app; change (size [44]) with 1; lia).
    rewrite (IH ltac:(done) Hm (m1 ++ [(k, v)]) _ (pre ++ write_member (k, v) ++ [44]) r fuel); [|by rewrite E, <- !app_assoc|lia|lia|by rewrite <- app_assoc].
    rewrite <- app_assoc. do 3 f_equal. fold t. rewrite !size_app, !size_cons, size_nil. lia.
Qed.

Lemma jwf_array l : jwf (JArray l) -> Forall jwf l.
Proof. cbn [jwf]. induction l as [|v l IH]; [constructor|]. intros [Hv Hl]. constructor; auto. Qed.

Lemma jwf_object m : jwf (JObject m) -> keys_sorted m /\ Forall (fun kv => bytes kv.1 /\ jwf kv.2) m.
Proof.
  cbn [jwf]. intros [Hs Hm]. split; [done|]. clear Hs. induction m as [|[k v] m IH]; [constructor|]. destruct Hm as (Hk & Hv & Hm). constructor; auto.
Qed.

Lemma heights_nonneg l : 0 <= heights l.
Proof. induction l as [|v l IH]; [done|]. change (heights (v :: l)) with (Z.max (height v) (heights l)). lia. Qed.

Lemma reads_back_bool b : reads_back (JBool b).
Proof.
  assert (forall w t, In (w, t) [(lit "true", tokenTrue); (lit "false", tokenFalse)] -> w = writeValue (JBool b) ->
    (forall doc fuel depth v0 i j, skipCommentTokens doc i = Ret (mk_token t i j, j) -> depth < stackLimit_g ->
       readValue doc (S fuel) depth v0 i = Ret (Some (true, norm (JBool b), j))) -> reads_back (JBool b)) as H.
  { intros w t Hin -> Hread. apply (reads_back_word (writeValue (JBool b)) t); [|done|done|exact Hread]. destruct Hin as [->|[->|[]]]; cbn; tauto. }
  destruct b; [apply (H (lit "true") tokenTrue)|apply (H (lit "false") tokenFalse)]; [cbn; tauto|done| |cbn; tauto|done|];
    intros doc fuel depth v0 i j E Hd; cbn [readValue]; by rewrite (proj2 (Z.leb_gt _ _) Hd), E.
Qed.

Lemma reads_back_null : reads_back JNull.
Proof.
  apply (reads_back_word (lit "null") tokenNull); [cbn; tauto|done|done|]. intros doc fuel depth v0 i j E Hd. cbn [readValue]. by rewrite (proj2 (Z.leb_gt _ _) Hd), E.
Qed.

Lemma reads_back_array l : jwf (JArray l) -> Forall reads_back l -> reads_back (JArray l).
Proof.
  intros Hv IH. intros doc pre c r depth v0 fuel E Hc Hd Hdepth Hf. cbn [writeValue] in *. set (t := commas (map writeValue l)) in *. cbn [app] in E. rewrite <- app_assoc in E. cbn [app] in E.
  cbn [length] in Hf. rewrite length_app in Hf. cbn [length] in Hf. rewrite height_array in Hdepth. destruct fuel as [|fuel]; [lia|].
  pose proof (heights_nonneg l) as Hh.
  cbn [readValue]. rewrite (proj2 (Z.leb_gt stackLimit_g depth)) by lia.
  rewrite (skipCommentTokens_at doc _ _ _ (readToken_char doc pre 91 (t ++ 93 :: c :: r) tokenArrayBegin E ltac:(cbn; tauto))) by done. cbn [mbind outcome_bind type_].
  replace (size pre + 1) with (size (pre ++ [91])) by (rewrite size_app; done).
  assert (doc = (pre ++ [91]) ++ t ++ 93 :: c :: r) as E' by (by rewrite E, <- app_assoc). destruct l as [|v l].
  - cbn [app] in E'. rewrite (skipSpaces_at doc (pre ++ [91]) 93 (c :: r) E') by done. cbn [mbind outcome_bind]. rewrite (peek_at doc _ _ _ E'). cbn [mbind outcome_bind Z.eqb Pos.eqb].
    rewrite (readToken_char doc (pre ++ [91]) 93 (c :: r) tokenArrayEnd E') by (cbn; tauto). cbn [mbind outcome_bind mret outcome_ret norm map]. do 3 f_equal. rewrite size_app. change (size [91]) with 1. change (size (91 :: t ++ [93])) with 2. lia.
  - assert (Forall jwf (v :: l)) as Hl by (by apply jwf_array). destruct (writeValue_first v) as (y & w & Ew & Hy & Hy93); [by apply Forall_cons_1 in Hl as [??]|].
    assert (exists w', t ++ 93 :: c :: r = y :: w') as [w' Ew'] by (unfold t; destruct l; cbn [map commas]; rewrite Ew; by eexists).
    rewrite Ew' in E'. rewrite (skipSpaces_at doc (pre ++ [91]) y w' E' Hy). cbn [mbind outcome_bind]. rewrite (peek_at doc _ _ _ E'). cbn [mbind outcome_bind].
    rewrite (proj2 (Z.eqb_neq y 93) Hy93). rewrite <- Ew' in E'.
    rewrite (reads_back_elements doc (depth + 1) ltac:(lia) (v :: l) ltac:(done)) with (r := c :: r); [|exact IH|exact E'|lia|fold t; lia].
    cbn [app norm]. do 3 f_equal. fold t. rewrite size_cons, !size_app. change (size [91]) with 1. change (size [93]) with 1. lia.
Qed.

Lemma reads_back_object m : jwf (JObject m) -> Forall (fun kv => reads_back kv.2) m -> reads_back (JObject m).
Proof.
  intros Hv IH. intros doc pre c r depth v0 fuel E Hc Hd Hdepth Hf. rewrite write_object in *. set (t := commas (map write_member m)) in *. cbn [app] in E. rewrite <- app_assoc in E. cbn [app] in E.
  cbn [length] in Hf. rewrite length_app in Hf. cbn [length] in Hf. rewrite height_object in Hdepth. destruct fuel as [|fuel]; [lia|].
  pose proof (heights_nonneg (map snd m)) as Hh.
  cbn [readValue]. rewrite (proj2 (Z.leb_gt stackLimit_g depth)) by lia.
  rewrite (skipCommentTokens_at doc _ _ _ (readToken_char doc pre 123 (t ++ 125 :: c :: r) tokenObjectBegin E ltac:(cbn; tauto))) by done. cbn [mbind outcome_bind type_].
  replace (size pre + 1) with (size (pre ++ [123])) by (rewrite size_app; done). rewrite norm_object.
  assert (doc = (pre ++ [123]) ++ t ++ 125 :: c :: r) as E' by (by rewrite E, <- app_assoc). destruct m as [|kv m].
  - cbn [app] in E'. destruct fuel as [|fuel]; [lia|]. cbn [readObject].
    rewrite (skipCommentTokens_at doc _ _ _ (readToken_char doc (pre ++ [123]) 125 (c :: r) tokenObjectEnd E' ltac:(cbn; tauto))) by done. cbn [mbind outcome_bind type_].
    rewrite decide_True by done. cbn [mret outcome_ret map]. do 3 f_equal. rewrite size_app. change (size [123]) with 1. change (size (123 :: t ++ [125])) with 2. lia.
  - destruct (jwf_object _ Hv) as [Hsort Hall].
    rewrite (reads_back_members doc (depth + 1) ltac:(lia) (kv :: m) ltac:(done)) with (m1 := []) (r := c :: r); [| |exact E'|lia|fold t; lia|done].
    * cbn [app]. do 3 f_equal. fold t. rewrite size_cons, !size_app. change (size [123]) with 1. change (size [125]) with 1. lia.
    * apply Forall_forall. intros x Hx. rewrite Forall_forall in IH, Hall. destruct (Hall x Hx) as [Hk Hj]. split; [by apply IH|done].
Qed.

Lemma reads_back_all v : jwf v -> reads_back v.
Proof.
  induction v as [|z|z|d|s|b|l IH|m IH] using json_ind; intros Hv.
  - apply reads_back_null.
  - apply reads_back_number; [apply to_string_text|done|by apply decode_int].
  - cbn [jwf] in Hv. apply reads_back_number; [|done|by apply decode_nonneg].
    pose proof (to_string_text z) as Ht. unfold valueToString_int in Ht. by rewrite (proj2 (Z.ltb_ge z 0)) in Ht by lia.
  - destruct Hv as [Hf Hdec]. apply reads_back_number; [by apply double_text|done|]. cbn [norm writeValue]. by destruct (decode_text (valueToString_double d)).
  - by apply reads_back_string.
  - apply reads_back_bool.
  - apply reads_back_array; [done|]. pose proof (jwf_array l Hv) as Hl. rewrite Forall_forall in Hl, IH |- *. auto.
  - apply reads_back_object; [done|]. destruct (jwf_object m Hv) as [_ Hm]. rewrite Forall_forall in Hm, IH |- *. intros x Hx. apply IH; [done|by apply Hm].
Qed.

(** ** No zero byte is written *)

Definition no_nul (l : list Z) : Prop := Forall (fun c => c <> 0) l.

Lemma number_text_no_nul t : number_text t -> no_nul t.
Proof.
  assert (forall ds, digits ds -> no_nul ds) as Hdig by (intros ds; apply List.Forall_impl; intros c Hc; apply isdigit_range in Hc; lia).
  intros (s & w & f & x & -> & Hs & Hne & Hw & Hf & Hx). unfold no_nul. rewrite !Forall_app. split_and!; [|by apply Hdig| |].
  - destruct Hs as [->| ->]; by repeat constructor.
  - destruct Hf as [->|(ds & -> & Hds)]; [constructor|]. constructor; [done|by apply Hdig].
  - destruct Hx as [->|(sg & ds & -> & Hsg & Hds)]; [constructor|]. constructor; [done|]. constructor; [lia|by apply Hdig].
Qed.

Lemma quoted_no_nul s : bytes s -> no_nul (valueToQuotedStringN s).
Proof.
  intros Hs. rewrite quoted_eq. constructor; [done|]. apply Forall_app. split; [|by repeat constructor].
  induction Hs as [|c s Hc _ IH]; [constructor|]. cbn [map concat]. apply Forall_app. split; [|exact IH]. clear IH. unfold is_byte in Hc.
  assert (forall d, 0 <= d < 16 -> hex_upper d <> 0) as Hhex by (intros d Hd; unfold hex_upper; case_match; lia).
  unfold quote_char. repeat (case_match; [by repeat constructor|]). destruct (isControlCharacter c || (c =? 0)) eqn:E.
  - repeat (constructor; [done|]). constructor; [apply Hhex; euclid|]. constructor; [apply Hhex; euclid|constructor].
  - apply orb_false_iff in E as [_ E%Z.eqb_neq]. by repeat constructor.
Qed.

Lemma commas_no_nul l : Forall no_nul l -> no_nul (commas l).
Proof.
  induction 1 as [|x [|y r] Hx Hr IH]; [constructor|exact Hx|]. change (commas (x :: y :: r)) with (x ++ 44 :: commas (y :: r)).
  apply Forall_app. split; [exact Hx|]. constructor; [done|exact IH].
Qed.

Lemma writeValue_no_nul v : jwf v -> no_nul (writeValue v).
Proof.
  induction v as [|z|z|d|s|b|l IH|m IH] using json_ind; intros Hv.
  - by repeat constructor.
  - apply number_text_no_nul, to_string_text.
  - apply number_text_no_nul. pose proof (to_string_text z) as Ht. unfold valueToString_int in Ht. cbn in Hv. by rewrite (proj2 (Z.ltb_ge z 0)) in Ht by lia.
  - apply number_text_no_nul, double_text, Hv.
  - by apply quoted_no_nul.
  - destruct b; by repeat constructor.
  - pose proof (jwf_array l Hv) as Hl. cbn [writeValue]. constructor; [done|]. apply Forall_app. split; [|by repeat constructor].
    apply commas_no_nul, List.Forall_map. apply Forall_forall. intros x Hx. rewrite Forall_forall in IH, Hl. auto.
  - destruct (jwf_object m Hv) as [_ Hm]. rewrite write_object. constructor; [done|]. apply Forall_app. split; [|by repeat constructor].
    apply commas_no_nul, List.Forall_map. apply Forall_forall. intros [k x] Hx. rewrite Forall_forall in IH, Hm. destruct (Hm _ Hx) as [Hk Hj].
    apply Forall_app. split; [by apply quoted_no_nul|]. constructor; [done|by apply (IH (k, x) Hx)].
Qed.

(** ** The round trip *)

Lemma Reader_parse_written v root tail : jwf v -> height v <= stackLimit_g -> Reader_parse (writeValue v ++ 10 :: tail) root = Ret (Some (true, norm v)).
Proof.
  intros Hv Hh. set (doc := writeValue v ++ 10 :: tail). assert (doc = [] ++ writeValue v ++ 10 :: tail) as E by done.
  unfold Reader_parse. change 0 with (size (@nil Z)) at 2.
  rewrite (reads_back_all v Hv doc [] 10 tail 0 root) by (first [done|lia|unfold ends_value; solve [auto]|unfold parse_fuel; rewrite E, !length_app; simpl; lia]). cbn [mbind outcome_bind].
  enough (wp (skipCommentTokens doc (size [] + size (writeValue v));; mret (Some (true, norm v))) (fun r => r = Some (true, norm v))) as (r & -> & ->) by done.
  pose proof (size_nonneg (writeValue v)). pose proof (size_nonneg tail).
  apply wp_bind, wp_skipCommentTokens; [unfold in_doc; rewrite E, !size_app, size_cons; change (size (@nil Z)) with 0; lia|]. intros t j _. by apply wp_mret.
Qed.

(** C7: whatever follows the text that [FastWriter] writes for a value and
    whatever the root held before, [Reader::parse] succeeds on it and the root
    becomes the value: strings byte for byte, members and elements in order,
    integers equal (with the type that fits them), reals as their decimal text
    is decoded.  Values nested deeper than the limit of the reader are
    excluded. *)
Theorem FastWriter_roundtrip v root tail : jwf v -> height v <= stackLimit_g ->
  Reader_parse (FastWriter_write v ++ tail) root = Ret (Some (true, norm v)).
Proof. intros Hv Hh. unfold FastWriter_write. rewrite <- app_assoc. by apply Reader_parse_written. Qed.

Lemma FastWriter_roundtrip_witness :
  jwf sample_json /\ height sample_json <= stackLimit_g /\
  Reader_parse (FastWriter_write sample_json ++ lit "left over") JNull = Ret (Some (true, norm sample_json)).
Proof.
  assert (forall s, forallb (fun c => (0 <=? c) && (c <? 256)) s = true -> bytes s) as Hb.
  { intros s. rewrite forallb_forall. intros H. apply List.Forall_forall. intros c Hc. specialize (H c Hc). unfold is_byte. lia. }
  assert (jwf sample_json) as Hv.
  { cbn [jwf sample_json]. split.
    - intros m1 k v m2 E. destruct m1 as [|? [|? [|? [|? ?]]]]; cbn in E; simplify_eq; repeat constructor.
    - split_and!; lazymatch goal with
      | |- bytes _ => apply Hb; reflexivity
      | |- decode_text _ <> None => vm_compute; congruence
      | |- _ <= _ => vm_compute; congruence
      | |- _ = true => reflexivity
      | |- True => exact I
      end. }
  split; [exact Hv|]. split; [vm_compute; congruence|]. apply FastWriter_roundtrip; [exact Hv|vm_compute; congruence].
Defined.
