(* ===== verification/Styled.v ===== *)
(** * The indented form of Json values (jsoncpp.cpp, class StyledWriter)

    [Value::toStyledString], which the handlers use for the bodies of the
    responses.  The writer keeps the document, the current indentation and, for
    an array, the texts of its elements; the values of the program carry no
    comments. *)

From Stdlib Require Import ZArith Lia String.
From stdpp Require Import base list numbers option.
From S2P Require Import Prelude Strs Cpp Double Json.

Local Open Scope Z_scope.

Definition rightMargin_ : Z := 74.
Definition indentSize_ : nat := 3.

(** The name of a member as a C string. *)
Definition valueToQuotedString (value : list Z) : list Z :=
  let value := take_while (fun c => negb (c =? 0)) value in
  if negb (existsb (fun c => existsb (Z.eqb c) [34; 92; 8; 12; 10; 13; 9]) value) && negb (existsb isControlCharacter value)
  then 34 :: value ++ [34]
  else 34 :: concat (map quote_char value) ++ [34].

Definition writeIndent (indentString document : list Z) : list Z :=
  match list.last document with
  | None => document ++ indentString
  | Some c =>
      if c =? 32 then document else
      (if c =? 10 then document else document ++ [10]) ++ indentString
  end.

Definition writeWithIndent (indentString value document : list Z) : list Z := writeIndent indentString document ++ value.

Definition has_children (v : json) : bool := match v with JArray (_ :: _) | JObject (_ :: _) => true | _ => false end.

(** A value that is written in one piece. *)
Definition single_text (v : json) : list Z :=
  match v with JArray _ => lit "[]" | JObject _ => lit "{}" | _ => writeValue v end.

(** Whether an array takes several lines, and [childValues_]. *)
Definition isMultineArray (l : list json) : bool * list (list Z) :=
  if (rightMargin_ <=? u32 (size l * 3)) || existsb has_children l then (true, []) else
  let childValues := map single_text l in
  let lineLength := foldl (fun n t => u32 (n + u32 (size t))) (u32 (4 + u32 ((size l - 1) * 2))) childValues in
  (rightMargin_ <=? lineLength, childValues).

(** The elements or members, one per line, after what opens them. *)
Fixpoint write_lines {A} (write : A -> list Z -> list Z) (l : list A) (document : list Z) : list Z :=
  match l with
  | [] => document
  | [x] => write x document
  | x :: r => write_lines write r (write x document ++ [44])
  end.

Fixpoint StyledWriter_writeValue (indentString : list Z) (v : json) (document : list Z) : list Z :=
  let indented := indentString ++ replicate indentSize_ 32 in
  match v with
  | JArray ((_ :: _) as l) =>
      let '(isArrayMultiLine, childValues) := isMultineArray l in
      if isArrayMultiLine then
        let document := writeWithIndent indentString (lit "[") document in
        let document :=
          if bool_decide (childValues <> []) then write_lines (writeWithIndent indented) childValues document
          else write_lines (fun child document => StyledWriter_writeValue indented child (writeIndent indented document)) l document in
        writeWithIndent indentString (lit "]") document
      else document ++ lit "[ " ++ concat (imap (fun i t => if bool_decide (0 < i)%nat then lit ", " ++ t else t) childValues) ++ lit " ]"
  | JObject ((_ :: _) as m) =>
      let document := writeWithIndent indentString (lit "{") document in
      let document := write_lines (fun '(name, child) document =>
        StyledWriter_writeValue indented child (writeWithIndent indented (valueToQuotedString name) document ++ lit " : ")) m document in
      writeWithIndent indentString (lit "}") document
  | _ => document ++ single_text v
  end.

Definition StyledWriter_write (root : json) : list Z := StyledWriter_writeValue [] root [] ++ [10].
Definition toStyledString (v : json) : list Z := StyledWriter_write v.

Example styled_object : toStyledString (JObject [(lit "a", JArray [JInt 1; JInt 2]); (lit "b", JObject [(lit "c", JNull)]); (lit "d", JArray [JArray [JBool true]; JInt 3])]) =
  lit "{" ++ [10] ++ lit "   " ++ [34; 97; 34] ++ lit " : [ 1, 2 ]," ++ [10] ++ lit "   " ++ [34; 98; 34] ++ lit " : {" ++ [10] ++ lit "      " ++ [34; 99; 34] ++ lit " : null" ++ [10] ++
  lit "   }," ++ [10] ++ lit "   " ++ [34; 100; 34] ++ lit " : [" ++ [10] ++ lit "      [ true ]," ++ [10] ++ lit "      3" ++ [10] ++ lit "   ]" ++ [10] ++ lit "}" ++ [10].
Proof. vm_compute. reflexivity. Qed.
