(* ===== verification/Store.v ===== *)
(** * The database of the application server (DB/DBWrapper.cpp)

    LevelDB as an interface: what the managers rely on of the library, with an
    instance on finite maps.  The wrapper of the program is a pointer to an open
    database, null when it could not be opened; reads and writes of an open
    database are taken to succeed.  Then the rules to run the methods of the
    managers, and the values that are kept as Json text. *)

From Stdlib Require Import ZArith Lia String.
From stdpp Require Import base list numbers option gmap sorting.
From S2P Require Import Prelude Strs Cpp Double Json JsonReader JsonSafe JsonRoundtrip.

Local Open Scope Z_scope.

(** ** LevelDB *)

Class Leveldb (D : Type) := {
  db_empty : D;
  db_get : D -> list Z -> option (list Z);
  db_put : D -> list Z -> list Z -> D;
  db_delete : D -> list Z -> D;
  (** what an iterator goes through *)
  db_entries : D -> list (list Z * list Z);
}.

(** The order of the keys: bytes, a prefix first. *)
Definition key_le (a b : list Z * list Z) : Prop := key_compare a.1 b.1 <> Gt.

Class LeveldbLaws (D : Type) `{Leveldb D} : Prop := {
  get_empty k : db_get db_empty k = None;
  get_put d k v k' : db_get (db_put d k v) k' = if decide (k = k') then Some v else db_get d k';
  get_delete d k k' : db_get (db_delete d k) k' = if decide (k = k') then None else db_get d k';
  entries_get d k v : (k, v) ∈ db_entries d <-> db_get d k = Some v;
  entries_sorted d : StronglySorted key_le (db_entries d);
  entries_nodup d : NoDup (db_entries d).*1;
}.

(** *** An instance *)

#[export] Instance key_le_dec : RelDecision key_le.
Proof. intros a b. unfold key_le. solve_decision. Defined.

Lemma key_compare_eq a b : key_compare a b = Eq <-> a = b.
Proof.
  revert b. induction a as [|x a IH]; intros [|y b]; try done. cbn. destruct (Z.compare_spec x y) as [E|E|E].
  - subst. rewrite IH. split; congruence.
  - split; [done|]. intros [= -> _]. lia.
  - split; [done|]. intros [= -> _]. lia.
Qed.

Lemma key_compare_antisym a b : key_compare b a = CompOpp (key_compare a b).
Proof. revert b. induction a as [|x a IH]; intros [|y b]; try done. cbn. rewrite (Z.compare_antisym x y). destruct (x ?= y); [apply IH|done|done]. Qed.

Lemma key_compare_trans a b c : key_compare a b <> Gt -> key_compare b c <> Gt -> key_compare a c <> Gt.
Proof.
  revert b c. induction a as [|x a IH]; intros [|y b] [|z c]; try done. cbn.
  destruct (Z.compare_spec x y), (Z.compare_spec y z), (Z.compare_spec x z); try done; try lia; intros; eauto.
Qed.

#[export] Instance key_le_total : Total key_le.
Proof. intros a b. unfold key_le. rewrite (key_compare_antisym a.1 b.1). destruct (key_compare a.1 b.1); auto. Qed.

#[export] Instance key_le_trans : Transitive key_le.
Proof. intros a b c. unfold key_le. apply key_compare_trans. Qed.

#[export] Instance gmap_leveldb : Leveldb (gmap (list Z) (list Z)) := {
  db_empty := ∅;
  db_get d k := d !! k;
  db_put d k v := <[k:=v]> d;
  db_delete d k := delete k d;
  db_entries d := merge_sort key_le (map_to_list d);
}.

#[export] Instance gmap_laws : LeveldbLaws (gmap (list Z) (list Z)).
Proof.
  split; cbn.
  - intros k. apply lookup_empty.
  - intros d k v k'. case_decide as E; [subst; apply lookup_insert_eq|by apply lookup_insert_ne].
  - intros d k k'. case_decide as E; [subst; apply lookup_delete_eq|by apply lookup_delete_ne].
  - intros d k v. rewrite merge_sort_Permutation. apply elem_of_map_to_list.
  - intros d. apply StronglySorted_merge_sort; [apply _|apply _].
  - intros d. rewrite merge_sort_Permutation. apply NoDup_fst_map_to_list.
Qed.

(** ** The wrapper *)

Inductive ResponseCode := OK | ERROR.

(** A response code where a condition is expected. *)
Definition truth (r : ResponseCode) : bool := match r with OK => false | ERROR => true end.

Section wrapper.
Context {D : Type} `{Leveldb D}.

(** The member [db] of the object. *)
Definition DBWrapper : Type := option D.

(** [output] is what the string holds before; it is left when the key is not found. *)
Definition getKey (key output : list Z) : cpp DBWrapper (ResponseCode * list Z) :=
  w ← get;
  match w with
  | None => throw StdException
  | Some d => match db_get d key with Some v => mret (OK, v) | None => mret (ERROR, output) end
  end.

Definition putKey (key value : list Z) : cpp DBWrapper ResponseCode :=
  w ← get;
  match w with None => throw StdException | Some d => put (Some (db_put d key value));; mret OK end.

Definition deleteKey (key : list Z) : cpp DBWrapper ResponseCode :=
  w ← get;
  match w with None => throw StdException | Some d => put (Some (db_delete d key));; mret OK end.

(** ERROR stands for a key that exists. *)
Definition existsKey (key output : list Z) : cpp DBWrapper (ResponseCode * list Z) :=
  w ← get;
  match w with
  | None => pure (Fault NullPointer)
  | Some d => match db_get d key with Some v => mret (ERROR, v) | None => mret (OK, output) end
  end.

(** The entries that an iterator meets from [start] on. *)
Definition seek (start : list Z) : cpp DBWrapper (list (list Z * list Z)) :=
  w ← get;
  match w with
  | None => pure (Fault NullPointer)
  | Some d => mret (drop_while (fun kv => match key_compare kv.1 start with Lt => true | _ => false end) (db_entries d))
  end.
End wrapper.

(** ** Json text *)

(** What the storage of a string holds after its characters: [Reader::parse]
    of an [std::string] reads up to the capacity of its argument. *)
Class Spare := spare : list Z -> list Z.

Definition c_str (s : list Z) : list Z := take_while (fun c => negb (c =? 0)) s.

Definition parse_string `{Spare} {S} (document : list Z) (root : json) : cpp S (bool * json) :=
  r ← pure (Reader_parse (document ++ spare document) root);
  match r with Some x => mret x | None => throw JsonRuntimeError end.

(** [value[k1][k2] = x], and [value[k].append(x)]. *)
Definition assign2 {S} (v : json) (k1 k2 : list Z) (x : json) : cpp S json :=
  w ← member v k1; w ← assign w k2 x; assign v k1 w.
Definition append_member {S} (v : json) (k : list Z) (x : json) : cpp S json :=
  w ← member v k; w ← append w x; assign v k w.

(** A loop "for (int i = 0; i < value.size(); i++)" that uses [value[i]]. *)
Definition json_loop {S A} (v : json) (f : Z -> json -> cpp S A) : cpp S (list A) :=
  map_each (seqZ 0 (jsize v)) (fun i => x ← element v i; f i x).

(** A loop that appends one value for each element of a vector. *)
Fixpoint append_each {S A} (v : json) (l : list A) (f : A -> cpp S json) : cpp S json :=
  match l with [] => mret v | x :: l => y ← f x; v ← append v y; append_each v l f end.

(** ** Running methods *)

(** [m] ends from [s], without a fault, in a result and a state as [Q] says. *)
Definition cwp {S A} (m : cpp S A) (s : S) (Q : exn + A -> S -> Prop) : Prop := exists r s', m s = Ret (r, s') /\ Q r s'.

Section rules.
Context {S : Type}.
Implicit Types s : S.

Lemma cwp_ret {A} (a : A) s (Q : exn + A -> S -> Prop) : Q (inr a) s -> cwp (mret a) s Q.
Proof. intros HQ. by exists (inr a), s. Qed.

Lemma cwp_throw {A} e s (Q : exn + A -> S -> Prop) : Q (inl e) s -> cwp (throw e) s Q.
Proof. intros HQ. by exists (inl e), s. Qed.

Lemma cwp_bind {A B} (m : cpp S A) (f : A -> cpp S B) s (Q : exn + B -> S -> Prop) :
  cwp m s (fun r s' => match r with inr a => cwp (f a) s' Q | inl e => Q (inl e) s' end) -> cwp (m ≫= f) s Q.
Proof. intros (r & s' & E & HQ). unfold cwp, mbind, cpp_bind. rewrite E. destruct r as [e|a]; [by exists (inl e), s'|exact HQ]. Qed.

Lemma cwp_catch {A} (m : cpp S A) h s (Q : exn + A -> S -> Prop) :
  cwp m s (fun r s' => match r with inr a => Q (inr a) s' | inl e => cwp (h e) s' Q end) -> cwp (catch m h) s Q.
Proof. intros (r & s' & E & HQ). unfold cwp, catch. rewrite E. destruct r as [e|a]; [exact HQ|by exists (inr a), s']. Qed.

Lemma cwp_mono {A} (m : cpp S A) s (P Q : exn + A -> S -> Prop) : cwp m s P -> (forall r s', P r s' -> Q r s') -> cwp m s Q.
Proof. intros (r & s' & E & HP) HPQ. exists r, s'. auto. Qed.

Lemma cwp_eq {A} (m : cpp S A) s r s' (Q : exn + A -> S -> Prop) : m s = Ret (r, s') -> Q r s' -> cwp m s Q.
Proof. intros E HQ. by exists r, s'. Qed.

Lemma cwp_iff {A} (m : cpp S A) s r s' : m s = Ret (r, s') <-> cwp m s (fun x t => x = r /\ t = s').
Proof. split; [intros E; by exists r, s'|]. by intros (x & t & E & -> & ->). Qed.

(** A method and the code that calls it. *)
Lemma cwp_call {A B} (m : cpp S A) (f : A -> cpp S B) s a s' (Q : exn + B -> S -> Prop) : m s = Ret (inr a, s') -> cwp (f a) s' Q -> cwp (m ≫= f) s Q.
Proof. intros E HQ. apply cwp_bind. by apply (cwp_eq _ _ _ _ _ E). Qed.

Lemma cwp_raise {A B} (m : cpp S A) (f : A -> cpp S B) s e s' (Q : exn + B -> S -> Prop) : m s = Ret (inl e, s') -> Q (inl e) s' -> cwp (m ≫= f) s Q.
Proof. intros E HQ. apply cwp_bind. by apply (cwp_eq _ _ _ _ _ E). Qed.

Lemma cwp_if_decide {A} P `{Decision P} (m n : cpp S A) s (Q : exn + A -> S -> Prop) :
  (P -> cwp m s Q) -> (~ P -> cwp n s Q) -> cwp (if decide P then m else n) s Q.
Proof. intros. by case_decide; auto. Qed.

Lemma cwp_if {A} (b : bool) (m n : cpp S A) s (Q : exn + A -> S -> Prop) :
  (b = true -> cwp m s Q) -> (b = false -> cwp n s Q) -> cwp (if b then m else n) s Q.
Proof. destruct b; auto. Qed.

Lemma map_each_ok {A B} (l : list A) (f : A -> cpp S B) (g : A -> B) s : Forall (fun x => f x s = Ret (inr (g x), s)) l -> map_each l f s = Ret (inr (map g l), s).
Proof.
  induction 1 as [|x l Hx _ IH]; [done|]. cbn [map_each map]. rewrite (bind_ok _ _ _ _ _ Hx), (bind_ok _ _ _ _ _ IH). done.
Qed.

Lemma json_loop_null {A} (f : Z -> json -> cpp S A) s : json_loop JNull f s = Ret (inr [], s).
Proof. done. Qed.

(** What [append_each] builds from a null value. *)
Definition array_of (l : list json) : json := match l with [] => JNull | _ => JArray l end.

Lemma append_each_array {A} (f : A -> cpp S json) (g : A -> json) s : (forall x, f x s = Ret (inr (g x), s)) ->
  forall l acc, append_each (JArray acc) l f s = Ret (inr (JArray (acc ++ map g l)), s).
Proof.
  intros Hf. induction l as [|x l IH]; intros acc; [cbn; by rewrite app_nil_r|]. cbn [append_each]. rewrite (bind_ok _ _ _ _ _ (Hf x)).
  rewrite (bind_ok (append (JArray acc) (g x)) _ _ (JArray (acc ++ [g x])) s) by done. rewrite IH, <- app_assoc. done.
Qed.

Lemma append_each_null {A} (f : A -> cpp S json) (g : A -> json) l s : (forall x, f x s = Ret (inr (g x), s)) ->
  append_each JNull l f s = Ret (inr (array_of (map g l)), s).
Proof.
  intros Hf. destruct l as [|x l]; [done|]. cbn [append_each]. rewrite (bind_ok _ _ _ _ _ (Hf x)).
  rewrite (bind_ok (append JNull (g x)) _ _ (JArray [g x]) s) by done. by rewrite (append_each_array f g s Hf).
Qed.

(** Going over what was built, as it is read back. *)
Lemma json_loop_array_of {A B} (h : A -> json) (f : Z -> json -> cpp S B) (g : A -> B) (l : list A) s :
  (forall i x, l !! Z.to_nat i = Some x -> 0 <= i -> f i (norm (h x)) s = Ret (inr (g x), s)) -> json_loop (norm (array_of (map h l))) f s = Ret (inr (map g l), s).
Proof.
  intros Hf. destruct l as [|x0 l0]; [done|]. set (l := x0 :: l0) in *. change (norm (array_of (map h l))) with (JArray (map norm (map h l))). rewrite map_map.
  unfold json_loop. cbn [jsize]. rewrite (map_each_ok _ _ (fun i => g (default x0 (l !! Z.to_nat i)))).
  - do 3 f_equal. apply list_eq. intros k. rewrite !list_lookup_fmap. destruct (l !! k) as [x|] eqn:E; cbn [fmap option_fmap option_map].
    + pose proof (lookup_lt_Some _ _ _ E). rewrite lookup_seqZ_lt by (unfold size; rewrite length_map; lia). cbn [option_map fmap option_fmap]. by rewrite Z.add_0_l, Nat2Z.id, E.
    + apply lookup_ge_None in E. by rewrite lookup_seqZ_ge by (unfold size; rewrite length_map; lia).
  - apply Forall_forall. intros i Hi%elem_of_seqZ. destruct (rd_total l i) as (x & Hx & _); [unfold size in *; rewrite length_map in Hi; lia|].
    rewrite (bind_ok _ _ s (norm (h x)) s); [rewrite Hx; by apply Hf; [|lia]|]. unfold element. rewrite (proj2 (Z.ltb_ge i 0)) by lia.
    rewrite (list_lookup_fmap (fun x => norm (h x)) l), Hx. done.
Qed.
End rules.

(** *** Database rules *)

Section db.
Context {D : Type} `{Leveldb D}.
Implicit Types d : D.

Lemma run_getKey k o d : getKey k o (Some d) = Ret (inr (match db_get d k with Some v => (OK, v) | None => (ERROR, o) end), Some d).
Proof. unfold getKey, mbind, cpp_bind. cbn. by destruct (db_get d k). Qed.

Lemma run_existsKey k o d : existsKey k o (Some d) = Ret (inr (match db_get d k with Some v => (ERROR, v) | None => (OK, o) end), Some d).
Proof. unfold existsKey, mbind, cpp_bind. cbn. by destruct (db_get d k). Qed.

Lemma run_putKey k v d : putKey k v (Some d) = Ret (inr OK, Some (db_put d k v)).
Proof. done. Qed.

Lemma run_deleteKey k d : deleteKey k (Some d) = Ret (inr OK, Some (db_delete d k)).
Proof. done. Qed.
End db.

(** *** Values kept as text *)

Definition storable (v : json) : Prop := jwf v /\ height v <= stackLimit_g.

Lemma c_str_no_nul s : no_nul s -> c_str s = s.
Proof. intros Hs. apply take_while_id. eapply List.Forall_impl; [|exact Hs]. intros c Hc. cbv beta. by rewrite (proj2 (Z.eqb_neq c 0) Hc). Qed.

Lemma c_str_written v : jwf v -> c_str (FastWriter_write v) = FastWriter_write v.
Proof. intros Hv. apply c_str_no_nul. unfold FastWriter_write. apply Forall_app. split; [by apply writeValue_no_nul|by repeat constructor]. Qed.

Lemma parse_written `{Spare} {S} v root (s : S) : storable v -> parse_string (FastWriter_write v) root s = Ret (inr (true, norm v), s).
Proof.
  intros [Hv Hh]. unfold parse_string. rewrite (bind_ok _ _ _ (Some (true, norm v)) s); [done|]. unfold pure.
  unfold FastWriter_write. rewrite <- app_assoc. cbn [app]. by rewrite Reader_parse_written.
Qed.

(** The names of a literal object are in order. *)
Fixpoint sorted_names (l : list (list Z)) : bool :=
  match l with
  | [] => true
  | k :: r => forallb (fun k' => match key_compare k k' with Lt => true | _ => false end) r && sorted_names r
  end.

Lemma sorted_names_keys m : sorted_names (map fst m) = true -> keys_sorted m.
Proof.
  intros Hs m1 k v m2 ->. induction m1 as [|[k1 v1] m1 IH]; [constructor|]. cbn [app map fst sorted_names] in Hs. apply andb_prop in Hs as [H1 H2].
  constructor; [|by apply IH]. cbn [fst]. rewrite forallb_forall in H1. specialize (H1 k). rewrite map_app, in_app_iff in H1.
  destruct (key_compare k1 k); [|done|]; by specialize (H1 (or_intror (or_introl eq_refl))).
Qed.

Definition ascii_text (s : list Z) : bool := forallb (fun c => (0 <=? c) && (c <? 256)) s.

Lemma ascii_bytes s : ascii_text s = true -> bytes s.
Proof. unfold ascii_text. rewrite forallb_forall. intros H. apply List.Forall_forall. intros c Hc. specialize (H c Hc). unfold is_byte. lia. Qed.

(** [long]. *)
Definition int64 (z : Z) : Prop := minLargestInt <= z <= maxLargestInt.

Lemma asLargestInt_norm {S} z (s : S) : int64 z -> asLargestInt (norm (JInt z)) s = Ret (inr z, s).
Proof. intros [_ Hz]. cbn [norm]. destruct (z <=? maxInt); [done|]. cbn [asLargestInt]. by rewrite (proj2 (Z.leb_le _ _) Hz). Qed.

Lemma heights_le (l : list json) n : 0 <= n -> Forall (fun v => height v <= n) l -> heights l <= n.
Proof.
  intros Hn. induction 1 as [|x r Hx _ IH]; [done|]. change (heights (x :: r)) with (Z.max (height x) (heights r)). lia.
Qed.

Lemma height_objects (l : list json) : Forall (fun v => height v <= 2) l -> height (array_of l) <= 3.
Proof.
  intros Hl. destruct l as [|v l]; [done|]. cbn [array_of]. rewrite height_array. pose proof (heights_le _ 2 ltac:(done) Hl). lia.
Qed.

Lemma jwf_array_of (l : list json) : Forall jwf l -> jwf (array_of l).
Proof.
  enough (forall l, Forall jwf l -> jwf (JArray l)) as H by (intros Hl; destruct l as [|v l]; [done|by apply H]).
  induction 1 as [|x r Hx _ IH]; [done|]. cbn [jwf] in *. by split.
Qed.

Lemma to_string_bytes z : bytes (to_string z).
Proof. apply to_string_forall; [done|]. unfold is_byte. lia. Qed.
