(* ===== verification/Relations.v ===== *)
(** * Contacts between users (person/relation/)

    [RelationsManager] keeps for every user the list of his contacts with their
    status, as Json text under "contact_<id>".  Every action writes two lists,
    and the theorem says that what the one says of the other always agrees. *)

From Stdlib Require Import ZArith Lia String Relations.
From stdpp Require Import base list numbers option relations gmap.
From S2P Require Import Prelude Strs Cpp Double Json JsonReader JsonSafe JsonRoundtrip Store.

Local Open Scope Z_scope.

(** ** The code *)

Definition CONTACT_KEY : list Z := lit "contact_".
Definition ACTIVE : list Z := lit "active".
Definition RECEIVED : list Z := lit "received".
Definition REQUESTED : list Z := lit "requested".
Definition ADD_CONTACT_ACTION : list Z := lit "add_contact".
Definition ACCEPT_CONTACT_ACTION : list Z := lit "accept_contact".
Definition REMOVE_CONTACT_ACTION : list Z := lit "remove_contact".

Record Contact := mk_contact { status : list Z; userId : Z }.

Section code.
Context {D : Type} `{Leveldb D} `{Spare}.
Abbreviation M := (cpp (DBWrapper (D := D))).

(** The constructor from Json. *)
Definition Contact_of_json (contactAsJson : json) : M Contact :=
  st ← member contactAsJson (lit "status"); st ← asString st;
  id ← member contactAsJson (lit "user_id"); id ← asLargestInt id;
  mret (mk_contact st id).

Definition contact_as_json (contact : Contact) : M json :=
  v ← assign JNull (lit "user_id") (JInt (userId contact));
  assign v (lit "status") (JString (status contact)).

Definition getContactsByUserId (userId : Z) : M (list Contact) :=
  '(found, result) ← existsKey (CONTACT_KEY ++ to_string userId) [];
  if negb (truth found) then mret [] else
  '(_, contactsAsJson) ← parse_string (c_str result) JNull;
  json_loop contactsAsJson (fun _ => Contact_of_json).

(** The end of the two methods that change a list. *)
Definition save_contacts (keyUserId : Z) (newRelationships : list Contact) : M unit :=
  allContactsAsJson ← append_each JNull newRelationships contact_as_json;
  putKey (CONTACT_KEY ++ to_string keyUserId) (FastWriter_write allContactsAsJson);;
  mret tt.

(** The loop over the current relationships: the new ones and [updated]. *)
Definition update_status (contactId : Z) (st : list Z) (current : list Contact) : list Contact * bool :=
  foldl (fun '(new, updated) contact =>
    if userId contact =? contactId then (new ++ [mk_contact st (userId contact)], true) else (new ++ [contact], updated)) ([], false) current.

Definition addOrUpdateRelation (keyUserId contactId : Z) (st : list Z) : M unit :=
  currentRelationships ← getContactsByUserId keyUserId;
  let '(newRelationships, updated) := update_status contactId st currentRelationships in
  save_contacts keyUserId (if updated then newRelationships else newRelationships ++ [mk_contact st contactId]).

Definition removeRelation (keyUserId contactId : Z) : M unit :=
  currentRelationships ← getContactsByUserId keyUserId;
  save_contacts keyUserId (List.filter (fun contact => negb (userId contact =? contactId)) currentRelationships).

Definition saveRelation (authorId contactId : Z) (action : list Z) : M unit :=
  if decide (action = ADD_CONTACT_ACTION) then
    addOrUpdateRelation authorId contactId REQUESTED;;
    addOrUpdateRelation contactId authorId RECEIVED
  else if decide (action = ACCEPT_CONTACT_ACTION) then
    addOrUpdateRelation authorId contactId ACTIVE;;
    addOrUpdateRelation contactId authorId ACTIVE
  else if decide (action = REMOVE_CONTACT_ACTION) then
    removeRelation authorId contactId;;
    removeRelation contactId authorId
  else throw (InvalidRequestException (action ++ lit " is not a valid action")).
End code.

(** ** What is stored *)

Definition contact_value (c : Contact) : json := JObject [(lit "status", JString (status c)); (lit "user_id", JInt (userId c))].
Definition contacts_text (l : list Contact) : list Z := FastWriter_write (array_of (map contact_value l)).
Definition contact_ok (c : Contact) : Prop := bytes (status c) /\ int64 (userId c).

Lemma contacts_storable l : Forall contact_ok l -> storable (array_of (map contact_value l)).
Proof.
  intros Hl. split.
  - apply jwf_array_of, List.Forall_map. eapply List.Forall_impl; [|exact Hl]. intros c [Hs Hi]. cbn [jwf contact_value].
    split; [by apply sorted_names_keys|]. split_and!; [by apply ascii_bytes|exact Hs|by apply ascii_bytes|apply Hi|apply Hi|done].
  - etransitivity; [apply height_objects|done]. apply List.Forall_map, Forall_true. done.
Qed.

Lemma contact_key_inj a b : int64 a -> int64 b -> CONTACT_KEY ++ to_string a = CONTACT_KEY ++ to_string b -> a = b.
Proof. intros Ha Hb E%app_inv_head. unfold int64, minLargestInt, maxLargestInt in *. apply to_string_inj; (exact E || lia). Qed.

(** The effect on a list. *)
Definition set_status (contactId : Z) (st : list Z) (l : list Contact) : list Contact :=
  let new := map (fun c => if userId c =? contactId then mk_contact st contactId else c) l in
  if existsb (fun c => userId c =? contactId) l then new else new ++ [mk_contact st contactId].
Definition without (contactId : Z) (l : list Contact) : list Contact := List.filter (fun c => negb (userId c =? contactId)) l.

Lemma update_status_spec contactId st l :
  update_status contactId st l = (map (fun c => if userId c =? contactId then mk_contact st contactId else c) l, existsb (fun c => userId c =? contactId) l).
Proof.
  unfold update_status. enough (forall new b, foldl (fun '(new, updated) contact =>
      if userId contact =? contactId then (new ++ [mk_contact st (userId contact)], true) else (new ++ [contact], updated)) (new, b) l =
    (new ++ map (fun c => if userId c =? contactId then mk_contact st contactId else c) l, b || existsb (fun c => userId c =? contactId) l)) as -> by done.
  induction l as [|c l IH]; intros new b; cbn [foldl map existsb]; [by rewrite app_nil_r, orb_false_r|].
  destruct (Z.eqb_spec (userId c) contactId) as [->|]; rewrite IH, <- app_assoc; [|done]. by rewrite !orb_true_r.
Qed.

(** The status of a contact in a list. *)
Definition status_in (l : list Contact) (id : Z) : option (list Z) := status <$> List.find (fun c => userId c =? id) l.

Lemma status_in_set l id st id' : status_in (set_status id st l) id' = if decide (id = id') then Some st else status_in l id'.
Proof.
  unfold status_in, set_status. assert (forall l, List.find (fun c => userId c =? id') (map (fun c => if userId c =? id then mk_contact st id else c) l) =
    if decide (id = id') then (if existsb (fun c => userId c =? id) l then Some (mk_contact st id) else None) else List.find (fun c => userId c =? id') l) as Hmap.
  { clear l. induction l as [|c l IH]; cbn [map List.find existsb]; [by case_decide|]. destruct (Z.eqb_spec (userId c) id) as [E|E]; cbn [userId orb].
    - subst id. destruct (Z.eqb_spec (userId c) id') as [E'|E']; [by rewrite decide_True|]. rewrite IH, !decide_False by done. done.
    - rewrite IH. destruct (decide (id = id')) as [<-|Hne]; [|done]. by rewrite (proj2 (Z.eqb_neq _ _) E). }
  assert (forall l r, List.find (fun c => userId c =? id') (l ++ r) = match List.find (fun c => userId c =? id') l with Some c => Some c | None => List.find (fun c => userId c =? id') r end) as Happ.
  { clear. induction l as [|c l IH]; intros r; cbn; [done|]. by destruct (userId c =? id'). }
  destruct (existsb _ l) eqn:Ee; [rewrite Hmap, Ee; by case_decide|]. rewrite Happ, Hmap, Ee. cbn [List.find userId]. destruct (decide (id = id')) as [<-|Hne].
  - by rewrite Z.eqb_refl.
  - rewrite (proj2 (Z.eqb_neq id id') Hne). by destruct (List.find _ l).
Qed.

Lemma status_in_without l id id' : status_in (without id l) id' = if decide (id = id') then None else status_in l id'.
Proof.
  unfold status_in, without. induction l as [|c l IH]; cbn [List.filter List.find]; [by case_decide|]. destruct (Z.eqb_spec (userId c) id) as [E|E]; cbn [negb].
  - rewrite IH. destruct (decide (id = id')); [done|]. by rewrite (proj2 (Z.eqb_neq (userId c) id')) by congruence.
  - cbn [List.find]. destruct (Z.eqb_spec (userId c) id') as [E'|E']; [|exact IH]. by rewrite decide_False by congruence.
Qed.

Lemma set_status_ok id st l : bytes st -> int64 id -> Forall contact_ok l -> Forall contact_ok (set_status id st l).
Proof.
  intros Hst Hid Hl. unfold set_status. assert (Forall contact_ok (map (fun c => if userId c =? id then mk_contact st id else c) l)) as Hm.
  { apply List.Forall_map. eapply List.Forall_impl; [|exact Hl]. intros c Hc. by destruct (userId c =? id). }
  case_match; [done|]. apply Forall_app. split; [done|]. by apply Forall_singleton.
Qed.

Lemma set_status_nodup id st l : NoDup (map userId l) -> NoDup (map userId (set_status id st l)).
Proof.
  intros Hl. unfold set_status. assert (map userId (map (fun c => if userId c =? id then mk_contact st id else c) l) = map userId l) as Em.
  { rewrite map_map. apply map_ext. intros c. by destruct (Z.eqb_spec (userId c) id). }
  destruct (existsb _ l) eqn:E; [by rewrite Em|]. rewrite map_app, Em. apply NoDup_app. split; [done|]. split; [|apply NoDup_singleton].
  intros x Hx ->%list_elem_of_singleton. cbn in Hx. apply list_elem_of_fmap in Hx as (c & -> & Hc).
  assert (existsb (fun c' => userId c' =? userId c) l = true); [|congruence]. apply existsb_exists. exists c. split; [by apply list_elem_of_In|lia].
Qed.

Lemma without_ok id l : Forall contact_ok l -> Forall contact_ok (without id l).
Proof. unfold without. induction 1 as [|c l Hc _ IH]; cbn; [constructor|]. case_match; [by constructor|done]. Qed.

Lemma without_nodup id l : NoDup (map userId l) -> NoDup (map userId (without id l)).
Proof.
  unfold without. induction l as [|c l IH]; [done|]. intros [Hc Hl]%NoDup_cons. cbn. case_match; [|by apply IH]. cbn. apply NoDup_cons. split; [|by apply IH].
  intros Hin. apply Hc. rewrite list_elem_of_In in *. apply in_map_iff in Hin as (x & <- & Hx). apply filter_In in Hx as [Hx _]. by apply in_map.
Qed.

(** ** The operations on a database *)

Section run.
Context {D : Type} `{LeveldbLaws D} `{Spare}.

Definition contacts_key (u : Z) : list Z := CONTACT_KEY ++ to_string u.

(** The list of contacts kept for a user. *)
Definition contacts_are (d : D) (u : Z) (l : list Contact) : Prop :=
  Forall contact_ok l /\ match db_get d (contacts_key u) with None => l = [] | Some t => t = contacts_text l end.

Lemma read_contact c (w : DBWrapper (D := D)) : contact_ok c -> Contact_of_json (norm (contact_value c)) w = Ret (inr c, w).
Proof.
  intros [Hs Hi]. unfold Contact_of_json. rewrite (bind_ok _ _ _ (JString (status c)) w) by done. rewrite (bind_ok _ _ _ (status c) w) by done.
  rewrite (bind_ok _ _ _ (norm (JInt (userId c))) w) by done. rewrite (bind_ok _ _ _ _ w (asLargestInt_norm _ _ Hi)). by destruct c.
Qed.

Lemma run_getContacts d u l : contacts_are d u l -> getContactsByUserId u (Some d) = Ret (inr l, Some d).
Proof.
  intros [Hok Hget]. unfold getContactsByUserId, contacts_key in *. rewrite (bind_ok _ _ _ _ _ (run_existsKey _ [] d)).
  destruct (db_get d _) as [t|]; [subst t|by subst l]. cbn [truth negb]. unfold contacts_text. rewrite c_str_written by apply (contacts_storable l Hok).
  rewrite (bind_ok _ _ _ _ _ (parse_written _ _ _ (contacts_storable l Hok))).
  rewrite (json_loop_array_of contact_value _ id l), map_id; [done|]. intros i x Hx _. apply read_contact. rewrite Forall_forall in Hok. apply Hok, (list_elem_of_lookup_2 _ _ _ Hx).
Qed.

Lemma run_save_contacts d u l : save_contacts u l (Some d) = Ret (inr tt, Some (db_put d (contacts_key u) (contacts_text l))).
Proof. unfold save_contacts. rewrite (bind_ok _ _ _ _ _ (append_each_null contact_as_json contact_value l _ (fun c => eq_refl))). done. Qed.

Lemma run_addOrUpdate d u l id st : contacts_are d u l ->
  addOrUpdateRelation u id st (Some d) = Ret (inr tt, Some (db_put d (contacts_key u) (contacts_text (set_status id st l)))).
Proof.
  intros Hl. unfold addOrUpdateRelation. rewrite (bind_ok _ _ _ _ _ (run_getContacts d u l Hl)), update_status_spec. apply run_save_contacts.
Qed.

Lemma run_remove d u l id : contacts_are d u l -> removeRelation u id (Some d) = Ret (inr tt, Some (db_put d (contacts_key u) (contacts_text (without id l)))).
Proof. intros Hl. unfold removeRelation. rewrite (bind_ok _ _ _ _ _ (run_getContacts d u l Hl)). apply run_save_contacts. Qed.

Lemma contacts_put d u l v l' : int64 u -> int64 v -> contacts_are d v l' -> Forall contact_ok l ->
  contacts_are (db_put d (contacts_key u) (contacts_text l)) v (if decide (u = v) then l else l').
Proof.
  intros Hu Hv [Hok Hget] Hl. unfold contacts_are. rewrite get_put. destruct (decide (u = v)) as [<-|Hne]; [by rewrite decide_True|].
  rewrite decide_False; [done|]. intros E. by apply Hne, contact_key_inj.
Qed.

(** *** The whole table *)

Definition table := Z -> list Contact.
Definition table_is (d : D) (f : table) : Prop := forall u, int64 u -> contacts_are d u (f u).

Definition write_list (u : Z) (g : list Contact -> list Contact) (f : table) : table := fun v => if decide (u = v) then g (f v) else f v.

Lemma table_step (g : list Contact -> list Contact) d f u : table_is d f -> int64 u -> (forall l, Forall contact_ok l -> Forall contact_ok (g l)) ->
  table_is (db_put d (contacts_key u) (contacts_text (g (f u)))) (write_list u g f).
Proof.
  intros Hf Hu Hg v Hv. pose proof (contacts_put d u (g (f u)) v (f v) Hu Hv (Hf v Hv) (Hg _ (proj1 (Hf u Hu)))) as Hp.
  unfold write_list. by destruct (decide (u = v)) as [<-|].
Qed.

(** Two lists changed one after the other. *)
Lemma two_steps (m1 m2 : cpp (DBWrapper (D := D)) unit) (g1 g2 : list Contact -> list Contact) d f u v : table_is d f -> int64 u -> int64 v ->
  (forall l, Forall contact_ok l -> Forall contact_ok (g1 l)) -> (forall l, Forall contact_ok l -> Forall contact_ok (g2 l)) ->
  (forall d l, contacts_are d u l -> m1 (Some d) = Ret (inr tt, Some (db_put d (contacts_key u) (contacts_text (g1 l))))) ->
  (forall d l, contacts_are d v l -> m2 (Some d) = Ret (inr tt, Some (db_put d (contacts_key v) (contacts_text (g2 l))))) ->
  exists d', (m1;; m2) (Some d) = Ret (inr tt, Some d') /\ table_is d' (write_list v g2 (write_list u g1 f)).
Proof.
  intros Hf Hu Hv Hg1 Hg2 Hm1 Hm2. rewrite (bind_ok _ _ _ _ _ (Hm1 d (f u) (Hf u Hu))). pose proof (table_step g1 d f u Hf Hu Hg1) as Hf1.
  rewrite (Hm2 _ _ (Hf1 v Hv)). eexists. split; [reflexivity|]. by apply table_step.
Qed.

(** What an action does to the two lists. *)
Definition action_effect (action : list Z) (id : Z) (author : bool) : option (list Contact -> list Contact) :=
  if decide (action = ADD_CONTACT_ACTION) then Some (set_status id (if author then REQUESTED else RECEIVED)) else
  if decide (action = ACCEPT_CONTACT_ACTION) then Some (set_status id ACTIVE) else
  if decide (action = REMOVE_CONTACT_ACTION) then Some (without id) else None.

Lemma run_saveRelation d f a b action : table_is d f -> int64 a -> int64 b ->
  match action_effect action b true, action_effect action a false with
  | Some g1, Some g2 => exists d', saveRelation a b action (Some d) = Ret (inr tt, Some d') /\ table_is d' (write_list b g2 (write_list a g1 f))
  | _, _ => saveRelation a b action (Some d) = Ret (inl (InvalidRequestException (action ++ lit " is not a valid action")), Some d)
  end.
Proof.
  intros Hf Ha Hb. unfold action_effect, saveRelation.
  assert (forall st id l, bytes st -> int64 id -> Forall contact_ok l -> Forall contact_ok (set_status id st l)) as Hset by (intros; by apply set_status_ok).
  repeat case_decide; [..|done]; apply two_steps; auto using without_ok, run_addOrUpdate, run_remove; intros; by apply Hset; [apply ascii_bytes|..].
Qed.

(** *** Sequences of actions *)

Definition action_step (w w' : DBWrapper (D := D)) : Prop :=
  exists a b action r, int64 a /\ int64 b /\ saveRelation a b action w = Ret (r, w').

Definition no_contacts (d : D) : Prop := forall u, int64 u -> db_get d (contacts_key u) = None.

(** What the other side of a relation says. *)
Definition complement (st : list Z) : list Z := if decide (st = REQUESTED) then RECEIVED else if decide (st = RECEIVED) then REQUESTED else st.

Definition known_status (c : Contact) : Prop := status c ∈ [ACTIVE; REQUESTED; RECEIVED].
Definition list_ok (l : list Contact) : Prop := NoDup (map userId l) /\ Forall known_status l.

Definition table_ok (f : table) : Prop :=
  (forall u, int64 u -> list_ok (f u)) /\
  (forall u v, int64 u -> int64 v -> u <> v -> status_in (f v) u = complement <$> status_in (f u) v).

Lemma statuses_set id st l : st ∈ [ACTIVE; REQUESTED; RECEIVED] -> Forall known_status l ->
  Forall known_status (set_status id st l).
Proof.
  intros Hst Hl. unfold set_status. assert (Forall known_status (map (fun c => if userId c =? id then mk_contact st id else c) l)) as Hm.
  { apply List.Forall_map. eapply List.Forall_impl; [|exact Hl]. intros c Hc. cbv beta. by case_match. }
  case_match; [done|]. apply Forall_app. split; [done|]. by apply Forall_singleton.
Qed.

Lemma statuses_without id l : Forall known_status l -> Forall known_status (without id l).
Proof. unfold without. induction 1 as [|c l Hc _ IH]; cbn; [constructor|]. case_match; [by constructor|done]. Qed.

(** A change of the two lists of a relation, where what the one then says of
    the other is what an action writes. *)
Definition effect_ok (g : list Contact -> list Contact) (id : Z) (st : option (list Z)) : Prop :=
  forall l, list_ok l -> list_ok (g l) /\ forall id', status_in (g l) id' = if decide (id = id') then st else status_in l id'.

Lemma set_effect id st : st ∈ [ACTIVE; REQUESTED; RECEIVED] -> effect_ok (set_status id st) id (Some st).
Proof. intros Hst l [Hn Hl]. split; [split; [by apply set_status_nodup|by apply statuses_set]|intros; apply status_in_set]. Qed.

Lemma without_effect id : effect_ok (without id) id None.
Proof. intros l [Hn Hl]. split; [split; [by apply without_nodup|by apply statuses_without]|intros; apply status_in_without]. Qed.

Lemma table_ok_step f a b g1 g2 s1 s2 : table_ok f -> int64 a -> int64 b -> effect_ok g1 b s1 -> effect_ok g2 a s2 -> s2 = complement <$> s1 -> s1 = complement <$> s2 ->
  table_ok (write_list b g2 (write_list a g1 f)).
Proof.
  intros [Hl Hs] Ha Hb Hg1 Hg2 E12 E21. unfold write_list. split.
  - intros u Hu. destruct (Hg1 (f u) (Hl u Hu)) as [Hg1u _]. destruct (Hg2 (f u) (Hl u Hu)) as [Hg2u _]. destruct (Hg2 (g1 (f u)) Hg1u) as [Hg12u _].
    repeat case_decide; auto.
  - intros u v Hu Hv Hne.
    assert (forall u v, int64 u -> u <> v -> status_in (if decide (b = u) then g2 (if decide (a = u) then g1 (f u) else f u) else if decide (a = u) then g1 (f u) else f u) v =
      if decide (a = u /\ b = v) then s1 else if decide (b = u /\ a = v) then s2 else status_in (f u) v) as Hst.
    { clear u v Hu Hv Hne. intros u v Hu Hne. destruct (Hg1 (f u) (Hl u Hu)) as [Hg1u Hg1s]. destruct (Hg2 (f u) (Hl u Hu)) as [_ Hg2s]. destruct (Hg2 (g1 (f u)) Hg1u) as [_ Hg12s].
      destruct (decide (b = u)) as [<-|]; destruct (decide (a = _)) as [->|]; rewrite ?Hg12s, ?Hg1s, ?Hg2s; repeat case_decide; intuition congruence. }
    rewrite (Hst v u Hv), (Hst u v Hu) by congruence. repeat case_decide; first [by apply Hs|exact E21|exact E12|exfalso; intuition congruence].
Qed.

Lemma step_table w w' d f : w = Some d -> table_is d f -> table_ok f -> action_step w w' -> exists d' f', w' = Some d' /\ table_is d' f' /\ table_ok f'.
Proof.
  intros -> Hf Hok (a & b & action & r & Ha & Hb & E). pose proof (run_saveRelation d f a b action Hf Ha Hb) as Hrun. unfold action_effect in Hrun.
  repeat case_decide; [..|exists d, f; split; [congruence|done]]; destruct Hrun as (d' & Erun & Ht); rewrite Erun in E; injection E as <- <-;
    eexists d', _; (split; [done|]; split; [exact Ht|]); (eapply table_ok_step; [done|done|done|..]).
  all: first [apply set_effect; apply (bool_decide_unpack _); reflexivity|apply without_effect|done].
Qed.
End run.

(** C2: starting from a database without contacts, after any sequence of actions
    of any users, invalid actions included, two different users always agree
    on their relation: what the list of one says of the other is the
    counterpart of what the other's list says (requested and received, active
    and active, none and none), and no contact is listed twice. *)
Theorem contacts_symmetric {D} `{LeveldbLaws D} `{Spare} (d : D) w u v :
  no_contacts d -> rtc action_step (Some d) w -> int64 u -> int64 v -> u <> v ->
  exists lu lv, getContactsByUserId u w = Ret (inr lu, w) /\ getContactsByUserId v w = Ret (inr lv, w) /\
    status_in lv u = complement <$> status_in lu v /\ NoDup (map userId lu) /\ Forall known_status lu.
Proof.
  intros Hd Hsteps Hu Hv Hne.
  assert (forall w0, rtc action_step w0 w -> forall d0 f0, w0 = Some d0 -> table_is d0 f0 -> table_ok f0 -> exists d' f, w = Some d' /\ table_is d' f /\ table_ok f) as Hinv.
  { clear Hsteps. induction 1 as [w0|w0 w1 w2 Hstep _ IH]; intros d0 f0 E Hf Hok; [by exists d0, f0|]. destruct (step_table _ _ _ _ E Hf Hok Hstep) as (d1 & f1 & -> & Hf1 & Hok1). by apply (IH d1 f1). }
  destruct (Hinv _ Hsteps d (fun _ => []) eq_refl) as (d' & f & -> & Hf & Hl & Hs).
  - intros x Hx. unfold contacts_are. by rewrite Hd.
  - split; [split; constructor|done].
  - exists (f u), (f v). split_and!; [by apply run_getContacts, Hf|by apply run_getContacts, Hf|by apply Hs|by apply Hl|by apply Hl].
Qed.

Lemma contacts_symmetric_witness :
  let D := gmap (list Z) (list Z) in let _ : Spare := fun _ => lit "}]" in
  exists w : DBWrapper (D := D), rtc action_step (Some ∅) w /\
  exists lu lv, getContactsByUserId 3 w = Ret (inr lu, w) /\ getContactsByUserId 5 w = Ret (inr lv, w) /\
    status_in lv 3 = complement <$> status_in lu 5 /\ NoDup (map userId lu) /\ Forall known_status lu.
Proof.
  intros D sp. assert (exists w : DBWrapper (D := D), action_step (Some ∅) w) as [w Hw].
  { eexists. exists 3, 5, ADD_CONTACT_ACTION, (inr tt). split; [by split|]. split; [by split|]. vm_compute. reflexivity. }
  exists w. split; [by apply rtc_once|]. apply (contacts_symmetric (∅ : D) w 3 5); [intros u _; apply lookup_empty|by apply rtc_once|by split|by split|done].
Defined.

(** The status that an action gives to the contact in the list of the author
    and to the author in the list of the contact. *)
Definition new_statuses (action : list Z) : option (option (list Z) * option (list Z)) :=
  if decide (action = ADD_CONTACT_ACTION) then Some (Some REQUESTED, Some RECEIVED) else
  if decide (action = ACCEPT_CONTACT_ACTION) then Some (Some ACTIVE, Some ACTIVE) else
  if decide (action = REMOVE_CONTACT_ACTION) then Some (None, None) else None.

(** An action on the relation of two different users: adding, accepting and
    removing write their status into both lists, and leave what any list says
    of anyone else; any other action throws and changes nothing. *)
Theorem saveRelation_spec {D} `{LeveldbLaws D} `{Spare} (d : D) f a b action : table_is d f -> int64 a -> int64 b -> a <> b ->
  match new_statuses action with
  | None => saveRelation a b action (Some d) = Ret (inl (InvalidRequestException (action ++ lit " is not a valid action")), Some d)
  | Some (sa, sb) => exists d' f', saveRelation a b action (Some d) = Ret (inr tt, Some d') /\ table_is d' f' /\
      forall u v, status_in (f' u) v = if decide (u = a /\ v = b) then sa else if decide (u = b /\ v = a) then sb else status_in (f u) v
  end.
Proof.
  intros Hf Ha Hb Hne. pose proof (run_saveRelation d f a b action Hf Ha Hb) as Hrun. unfold action_effect, new_statuses in *.
  assert (forall u v g1 g2 s1 s2, (forall l id, status_in (g1 l) id = if decide (b = id) then s1 else status_in l id) -> (forall l id, status_in (g2 l) id = if decide (a = id) then s2 else status_in l id) ->
    status_in (write_list b g2 (write_list a g1 f) u) v = if decide (u = a /\ v = b) then s1 else if decide (u = b /\ v = a) then s2 else status_in (f u) v) as Hst.
  { intros u v g1 g2 s1 s2 Hg1 Hg2. unfold write_list. destruct (decide (b = u)) as [<-|]; [rewrite decide_False, Hg2 by done|destruct (decide (a = u)) as [<-|]; [rewrite Hg1|]];
      repeat case_decide; (done || intuition congruence). }
  repeat case_decide; [..|exact Hrun]; destruct Hrun as (d' & Erun & Ht); eexists d', _; (split; [exact Erun|]; split; [exact Ht|]); intros u v; apply Hst; intros; apply status_in_set || apply status_in_without.
Qed.

Lemma saveRelation_spec_witness :
  let D := gmap (list Z) (list Z) in let _ : Spare := fun _ => [] in
  table_is (∅ : D) (fun _ => []) /\
  exists d' f', saveRelation 3 5 ADD_CONTACT_ACTION (Some (∅ : D)) = Ret (inr tt, Some d') /\ table_is d' f' /\
    forall u v, status_in (f' u) v = if decide (u = 3 /\ v = 5) then Some REQUESTED else if decide (u = 5 /\ v = 3) then Some RECEIVED else None.
Proof.
  intros D sp. assert (table_is (∅ : D) (fun _ => [])) as H0 by (intros u _; by split). split; [exact H0|].
  exact (saveRelation_spec (∅ : D) (fun _ => []) 3 5 ADD_CONTACT_ACTION H0 ltac:(by split) ltac:(by split) ltac:(done)).
Defined.
