(* ===== verification/Person.v ===== *)
(** * Users as values (person/Person.cpp, Skill.cpp, WorkHistory.cpp, Location.cpp)

    A user with his skills, jobs and place, its reading from and writing to
    Json.  The lemma at the end says that a user that was stored is read
    back as the same user. *)

From Stdlib Require Import ZArith Lia String SpecFloat.
From stdpp Require Import base list numbers option.
From S2P Require Import Prelude Strs Cpp Double Json JsonReader JsonSafe JsonRoundtrip Store.

Local Open Scope Z_scope.

(** ** The code *)

Record Location := mk_location { latitude : double; longitude : double }.

Definition isEmpty (l : Location) : bool := deqb (latitude l) (of_Z 0) && deqb (longitude l) (of_Z 0).

Record Skill := mk_skill { skill_name : list Z; skill_description : list Z; skill_category : list Z }.

Record WorkHistory := mk_work { positionTitle : list Z; company : list Z; fromDate : list Z; toDate : list Z }.

Record Person := mk_person {
  id : Z; firstName : list Z; lastName : list Z; email : list Z; password : list Z; dateOfBirth : list Z; city : list Z; summary : list Z;
  location : Location; totRecommendations : Z; workHistory : list WorkHistory; skills : list Skill }.

Section json.
Context {S : Type}.

(** [value[key].asString()]. *)
Definition string_member (v : json) (key : list Z) : cpp S (list Z) := x ← member v key; asString x.

Definition Skill_deserializeMe (jvalue : json) : cpp S Skill :=
  n ← string_member jvalue (lit "name");
  d ← string_member jvalue (lit "description");
  c ← string_member jvalue (lit "category");
  mret (mk_skill (to_lower n) d c).

Definition Skill_serializeMe (s : Skill) : cpp S json :=
  v ← assign JNull (lit "name") (JString (skill_name s));
  v ← assign v (lit "description") (JString (skill_description s));
  assign v (lit "category") (JString (skill_category s)).

Definition WorkHistory_deserializeMe (jvalue : json) : cpp S WorkHistory :=
  p ← string_member jvalue (lit "position_title");
  c ← string_member jvalue (lit "company");
  f ← string_member jvalue (lit "from_date");
  t ← string_member jvalue (lit "to_date");
  mret (mk_work p c f t).

Definition WorkHistory_serializeMe (w : WorkHistory) : cpp S json :=
  v ← assign JNull (lit "position_title") (JString (positionTitle w));
  v ← assign v (lit "company") (JString (company w));
  v ← assign v (lit "from_date") (JString (fromDate w));
  assign v (lit "to_date") (JString (toDate w)).

(** The constructor from Json. *)
Definition Person_deserializeMe (personAsJson : json) : cpp S Person :=
  i ← member personAsJson (lit "id"); i ← asLargestInt i;
  first ← string_member personAsJson (lit "first_name");
  last ← string_member personAsJson (lit "last_name");
  mail ← string_member personAsJson (lit "email");
  pass ← string_member personAsJson (lit "password");
  birth ← string_member personAsJson (lit "date_of_birth");
  cit ← string_member personAsJson (lit "city");
  summ ← string_member personAsJson (lit "summary");
  tot ← member personAsJson (lit "tot_recommendations"); tot ← asInt tot;
  loc ← member personAsJson (lit "location"); lat ← member loc (lit "latitude"); lat ← asDouble lat;
  loc ← member personAsJson (lit "location"); long ← member loc (lit "longitude"); long ← asDouble long;
  jWorkHistoryVector ← member personAsJson (lit "work_history");
  works ← json_loop jWorkHistoryVector (fun _ => WorkHistory_deserializeMe);
  jSkillVector ← member personAsJson (lit "skills");
  sks ← json_loop jSkillVector (fun _ => Skill_deserializeMe);
  mret (mk_person i (to_lower first) (to_lower last) (to_lower mail) pass birth (to_lower cit) summ (mk_location lat long) tot works sks).

(** A loop "value[key].append(f(x))". *)
Fixpoint append_members {A} (v : json) (key : list Z) (l : list A) (f : A -> cpp S json) : cpp S json :=
  match l with [] => mret v | x :: l => y ← f x; v ← append_member v key y; append_members v key l f end.

Definition Person_serializeMe (p : Person) : cpp S json :=
  v ← assign JNull (lit "id") (JInt (id p));
  v ← assign v (lit "first_name") (JString (firstName p));
  v ← assign v (lit "last_name") (JString (lastName p));
  v ← assign v (lit "email") (JString (email p));
  v ← assign v (lit "password") (JString (password p));
  v ← assign v (lit "date_of_birth") (JString (dateOfBirth p));
  v ← assign v (lit "city") (JString (city p));
  v ← assign v (lit "summary") (JString (summary p));
  v ← assign2 v (lit "location") (lit "latitude") (JReal (latitude (location p)));
  v ← assign2 v (lit "location") (lit "longitude") (JReal (longitude (location p)));
  v ← assign v (lit "tot_recommendations") (JInt (totRecommendations p));
  v ← append_members v (lit "work_history") (workHistory p) WorkHistory_serializeMe;
  append_members v (lit "skills") (skills p) Skill_serializeMe.
End json.

Definition getFullName (p : Person) : list Z := firstName p ++ lit "-" ++ lastName p.

(** The first job without an end. *)
Fixpoint getCurrentJob (workHistoryVector : list WorkHistory) : option WorkHistory :=
  match workHistoryVector with
  | [] => None
  | w :: r => if decide (toDate w = []) then Some w else getCurrentJob r
  end.

Definition setId (i : Z) (p : Person) : Person :=
  mk_person i (firstName p) (lastName p) (email p) (password p) (dateOfBirth p) (city p) (summary p) (location p) (totRecommendations p) (workHistory p) (skills p).
Definition setEmail (m : list Z) (p : Person) : Person :=
  mk_person (id p) (firstName p) (lastName p) m (password p) (dateOfBirth p) (city p) (summary p) (location p) (totRecommendations p) (workHistory p) (skills p).
Definition setPassword (w : list Z) (p : Person) : Person :=
  mk_person (id p) (firstName p) (lastName p) (email p) w (dateOfBirth p) (city p) (summary p) (location p) (totRecommendations p) (workHistory p) (skills p).
Definition setLocation (lat long : double) (p : Person) : Person :=
  mk_person (id p) (firstName p) (lastName p) (email p) (password p) (dateOfBirth p) (city p) (summary p) (mk_location lat long) (totRecommendations p) (workHistory p) (skills p).
Definition setTotalRecommendations (n : Z) (p : Person) : Person :=
  mk_person (id p) (firstName p) (lastName p) (email p) (password p) (dateOfBirth p) (city p) (summary p) (location p) n (workHistory p) (skills p).

(** [deleteWorkHistory] and [deleteSkills]: the element at a growing index is
    deleted, and the last one removed from the vector. *)
Definition delete_each {A} (v : list A) : outcome (list A) :=
  let size := size v in
  '(_, v) ← loop (S (length v)) (fun '(i, w) =>
    if negb (i =? size) then
      _ ← rd w i;
      i ← int (i + 1);
      mret (inl (i, removelast w))
    else mret (inr (i, w))) (0, v);
  mret v.
Definition deleteWorkHistory (p : Person) : outcome (list WorkHistory) := delete_each (workHistory p).
Definition deleteSkills (p : Person) : outcome (list Skill) := delete_each (skills p).

(** [~Person]; the place is no vector. *)
Definition delete_person (p : Person) : outcome unit := _ ← deleteWorkHistory p; _ ← deleteSkills p; mret tt.

(** The user is changed in place. *)
Definition updateMe {S} (values : json) (p : Person) : cpp S Person :=
  first ← string_member values (lit "first_name");
  last ← string_member values (lit "last_name");
  birth ← string_member values (lit "date_of_birth");
  cit ← string_member values (lit "city");
  summ ← string_member values (lit "summary");
  loc ← member values (lit "location"); lat ← member loc (lit "latitude"); lat ← asDouble lat;
  loc ← member values (lit "location"); long ← member loc (lit "longitude"); long ← asDouble long;
  works ← pure (deleteWorkHistory p);
  m ← isMember values (lit "work_history");
  more ← (if m : bool then l ← member values (lit "work_history"); json_loop l (fun _ => WorkHistory_deserializeMe) else mret []);
  sks ← pure (deleteSkills p);
  m ← isMember values (lit "skills");
  more_skills ← (if m : bool then l ← member values (lit "skills"); json_loop l (fun _ => Skill_deserializeMe) else mret []);
  mret (mk_person (id p) first last (email p) (password p) birth cit summ (mk_location lat long) (totRecommendations p) (works ++ more) (sks ++ more_skills)).

(** What searches ask of a user. *)
Definition hasSkill (skill : list Z) (p : Person) : bool := existsb (fun s => bool_decide (skill_name s = skill)) (skills p).
Definition has_every_skill (sks : list (list Z)) (p : Person) : bool := forallb (fun s => hasSkill (to_lower s) p) sks.
Definition hasPosition (position : list Z) (p : Person) : bool := existsb (fun w => bool_decide (to_lower (positionTitle w) = to_lower position)) (workHistory p).
Definition has_every_position (positions : list (list Z)) (p : Person) : bool := forallb (fun x => hasPosition x p) positions.

(** The destructor of a user with two or more jobs or skills reads behind the end
    of the vector. *)
Lemma delete_each_short {A} (v r : list A) : delete_each v = Ret r -> (length v <= 1)%nat.
Proof.
  intros E. destruct (decide (length v <= 1)%nat) as [|Hv]; [done|exfalso]. revert E. unfold delete_each.
  assert (forall fuel k (w : list A), 0 <= k < size v -> k + size w = size v -> forall st,
    loop fuel (fun '(i, w) => if negb (i =? size v) then _ ← rd w i; i ← int (i + 1); mret (inl (i, removelast w)) else mret (inr (i, w))) (k, w) <> Ret st) as H.
  { induction fuel as [|fuel IH]; intros k w Hk Hw st; [done|]. rewrite loop_S. rewrite (proj2 (Z.eqb_neq k (size v))) by lia. cbn [negb].
    destruct (decide (k < size w)) as [Hi|Hi]; [|rewrite rd_oob by lia; done].
    destruct (rd_total w k) as (x & _ & ->); [lia|]. rewrite bind_Ret. unfold int. case_decide; [|done]. rewrite !bind_Ret.
    apply IH; [unfold size in *; lia|]. destruct w as [|y w]; [size_lia|]. unfold size in *. rewrite removelast_firstn_len, length_take. simpl length in *. lia. }
  destruct (loop _ _ (0, v)) as [[i w]|] eqn:E; [|done]. exfalso. eapply H; [| |exact E]; unfold size; lia.
Qed.
Lemma delete_each_one {A} (v : list A) : (length v <= 1)%nat -> delete_each v = Ret [].
Proof. destruct v as [|x [|y v]]; [done|done|simpl; lia]. Qed.

(** The users that can be deleted from memory. *)
Definition brief (p : Person) : Prop := (length (workHistory p) <= 1)%nat /\ (length (skills p) <= 1)%nat.

#[export] Instance brief_dec p : Decision (brief p).
Proof. unfold brief. apply _. Defined.

Lemma delete_person_brief p : brief p -> delete_person p = Ret tt.
Proof. intros [Hw Hs]. unfold delete_person, deleteWorkHistory, deleteSkills. by rewrite !delete_each_one. Qed.

Lemma delete_person_long p : ~ brief p -> exists f, delete_person p = Fault f.
Proof.
  intros Hb. unfold delete_person, deleteWorkHistory, deleteSkills. destruct (delete_each (workHistory p)) as [r|f] eqn:Ew; [|by exists f].
  destruct (delete_each (skills p)) as [r'|f] eqn:Es; [|by exists f]. destruct Hb. split; by eapply delete_each_short.
Qed.

(** ** Written and read back *)

Definition skill_value (s : Skill) : json :=
  JObject [(lit "category", JString (skill_category s)); (lit "description", JString (skill_description s)); (lit "name", JString (skill_name s))].
Definition work_value (w : WorkHistory) : json :=
  JObject [(lit "company", JString (company w)); (lit "from_date", JString (fromDate w)); (lit "position_title", JString (positionTitle w)); (lit "to_date", JString (toDate w))].
Definition location_value (l : Location) : json := JObject [(lit "latitude", JReal (latitude l)); (lit "longitude", JReal (longitude l))].

(** A member that is only there when the list is not empty. *)
Definition list_member (key : list Z) (l : list json) : list (list Z * json) := match l with [] => [] | _ => [(key, JArray l)] end.

Definition person_members (p : Person) : list (list Z * json) :=
  [(lit "city", JString (city p)); (lit "date_of_birth", JString (dateOfBirth p)); (lit "email", JString (email p)); (lit "first_name", JString (firstName p));
   (lit "id", JInt (id p)); (lit "last_name", JString (lastName p)); (lit "location", location_value (location p)); (lit "password", JString (password p))] ++
  list_member (lit "skills") (map skill_value (skills p)) ++
  [(lit "summary", JString (summary p)); (lit "tot_recommendations", JInt (totRecommendations p))] ++
  list_member (lit "work_history") (map work_value (workHistory p)).
Definition person_value (p : Person) : json := JObject (person_members p).

Section lemmas.
Context {S : Type}.
Implicit Types s : S.

Lemma key_compare_refl k : key_compare k k = Eq.
Proof. by apply key_compare_eq. Qed.

Lemma find_set k v m : find_member k (set_member k v m) = Some v.
Proof.
  induction m as [|[k' v'] m IH]; cbn; [by rewrite key_compare_refl|].
  destruct (key_compare k' k) eqn:E; cbn; [by rewrite E|by rewrite E|by rewrite key_compare_refl].
Qed.

Lemma set_set k v w m : set_member k w (set_member k v m) = set_member k w m.
Proof.
  induction m as [|[k' v'] m IH]; cbn; [by rewrite key_compare_refl|].
  destruct (key_compare k' k) eqn:E; cbn; [by rewrite E|by rewrite E, IH|by rewrite key_compare_refl].
Qed.

Lemma append_members_more {A} (f : A -> cpp S json) (g : A -> json) key s : (forall x, f x s = Ret (inr (g x), s)) ->
  forall l m acc, append_members (JObject (set_member key (JArray acc) m)) key l f s = Ret (inr (JObject (set_member key (JArray (acc ++ map g l)) m)), s).
Proof.
  intros Hf. induction l as [|x l IH]; intros m acc; cbn [append_members map]; [by rewrite app_nil_r|]. rewrite (bind_ok _ _ _ _ _ (Hf x)).
  rewrite (bind_ok _ _ _ (JObject (set_member key (JArray (acc ++ [g x])) m)) s); [by rewrite IH, <- app_assoc|].
  unfold append_member. rewrite (bind_ok _ _ _ (JArray acc) s) by (cbn [member]; by rewrite find_set).
  rewrite (bind_ok _ _ _ (JArray (acc ++ [g x])) s) by done. cbn [assign]. by rewrite set_set.
Qed.

Lemma append_members_spec {A} (f : A -> cpp S json) (g : A -> json) key l m s : (forall x, f x s = Ret (inr (g x), s)) -> find_member key m = None ->
  append_members (JObject m) key l f s = Ret (inr (JObject (match l with [] => m | _ => set_member key (JArray (map g l)) m end)), s).
Proof.
  intros Hf Hm. destruct l as [|x l]; [done|]. cbn [append_members]. rewrite (bind_ok _ _ _ _ _ (Hf x)).
  rewrite (bind_ok _ _ _ (JObject (set_member key (JArray [g x]) m)) s); [by rewrite (append_members_more f g key s Hf)|].
  unfold append_member. rewrite (bind_ok _ _ _ JNull s) by (cbn [member]; by rewrite Hm). done.
Qed.

Lemma serialize_person p s : Person_serializeMe p s = Ret (inr (person_value p), s).
Proof.
  unfold Person_serializeMe. do 11 (erewrite bind_ok by reflexivity).
  erewrite bind_ok by (apply (append_members_spec _ work_value); reflexivity).
  rewrite (append_members_spec _ skill_value) by (done || by destruct (workHistory p)).
  unfold person_value, person_members, list_member. by destruct (workHistory p), (skills p).
Qed.
End lemmas.

(** The users that are read back as they are: their texts are bytes, their
    names in lower case, their numbers of their width, and their coordinates
    numbers that the decimal text tells exactly. *)
Definition readable (d : double) : Prop :=
  is_finite d = true /\ match decode_text (valueToString_double d) with Some (JInt z) | Some (JUInt z) => of_Z z = d | Some (JReal d') => d' = d | _ => False end.

Definition lower (s : list Z) : Prop := bytes s /\ to_lower s = s.
Definition skill_ok (s : Skill) : Prop := lower (skill_name s) /\ bytes (skill_description s) /\ bytes (skill_category s).
Definition work_ok (w : WorkHistory) : Prop := bytes (positionTitle w) /\ bytes (company w) /\ bytes (fromDate w) /\ bytes (toDate w).
Definition person_ok (p : Person) : Prop :=
  (int64 (id p) /\ lower (firstName p) /\ lower (lastName p) /\ lower (email p) /\ bytes (password p) /\ bytes (dateOfBirth p) /\ lower (city p) /\ bytes (summary p)) /\
  (readable (latitude (location p)) /\ readable (longitude (location p)) /\ minInt <= totRecommendations p <= maxInt) /\
  Forall work_ok (workHistory p) /\ Forall skill_ok (skills p).

Lemma readable_jwf d : readable d -> jwf (JReal d).
Proof. intros [Hf Hd]. split; [done|]. intros E. by rewrite E in Hd. Qed.

Lemma asDouble_norm {S} d (s : S) : readable d -> asDouble (norm (JReal d)) s = Ret (inr d, s).
Proof. intros [_ Hd]. cbn [norm]. destruct (decode_text _) as [[]|]; try done; cbn in *; by subst. Qed.

Lemma asInt_norm {S} z (s : S) : minInt <= z <= maxInt -> asInt (norm (JInt z)) s = Ret (inr z, s).
Proof. intros Hz. cbn [norm]. rewrite (proj2 (Z.leb_le z maxInt)) by lia. cbn [asInt]. by rewrite (proj2 (Z.leb_le minInt z)), (proj2 (Z.leb_le z maxInt)) by lia. Qed.

Lemma read_skill {S} k (s : S) : skill_ok k -> Skill_deserializeMe (norm (skill_value k)) s = Ret (inr k, s).
Proof. intros [[_ Hl] _]. unfold Skill_deserializeMe. do 3 (erewrite bind_ok by reflexivity). rewrite Hl. by destruct k. Qed.

Lemma read_work {S} w (s : S) : WorkHistory_deserializeMe (norm (work_value w)) s = Ret (inr w, s).
Proof. unfold WorkHistory_deserializeMe. do 4 (erewrite bind_ok by reflexivity). by destruct w. Qed.

(** Members of a stored user. *)
Lemma person_member {S} p k v (s : S) : find_member k (person_members p) = Some v -> member (norm (person_value p)) k s = Ret (inr (norm v), s).
Proof.
  intros Hv. unfold person_value. cbn [norm member]. enough (find_member k (map (fun '(k, v) => (k, norm v)) (person_members p)) = Some (norm v)) as -> by done.
  induction (person_members p) as [|[k' v'] m IH]; [done|]. cbn in *. destruct (key_compare k' k); [congruence|by apply IH|by apply IH].
Qed.

Lemma person_string {S} p k v (s : S) : find_member k (person_members p) = Some (JString v) -> string_member (norm (person_value p)) k s = Ret (inr v, s).
Proof. intros Hv. unfold string_member. by rewrite (bind_ok _ _ _ _ _ (person_member p k _ s Hv)). Qed.

Lemma person_list {S} p k l (s : S) : find_member k (person_members p) = match l with [] => None | _ => Some (JArray l) end ->
  member (norm (person_value p)) k s = Ret (inr (norm (array_of l)), s).
Proof.
  intros Hl. destruct l as [|v l]; [|by rewrite (person_member p k _ s Hl)]. unfold person_value. cbn [norm member].
  enough (find_member k (map (fun '(k, v) => (k, norm v)) (person_members p)) = None) as -> by done.
  induction (person_members p) as [|[k' v'] m IH]; [done|]. cbn in *. destruct (key_compare k' k); [done|by apply IH|by apply IH].
Qed.

Ltac find_members p := unfold person_members; destruct (workHistory p), (skills p); reflexivity.

Lemma read_person {S} p (s : S) : person_ok p -> Person_deserializeMe (norm (person_value p)) s = Ret (inr p, s).
Proof.
  intros ((Hi & [_ Hf] & [_ Hl] & [_ He] & _ & _ & [_ Hc] & _) & (Hlat & Hlong & Htot) & _ & Hsk). unfold Person_deserializeMe.
  rewrite (bind_ok _ _ _ _ _ (person_member p (lit "id") (JInt (id p)) s ltac:(find_members p))), (bind_ok _ _ _ _ _ (asLargestInt_norm _ _ Hi)).
  rewrite (bind_ok _ _ _ _ _ (person_string p (lit "first_name") (firstName p) s ltac:(find_members p))).
  rewrite (bind_ok _ _ _ _ _ (person_string p (lit "last_name") (lastName p) s ltac:(find_members p))).
  rewrite (bind_ok _ _ _ _ _ (person_string p (lit "email") (email p) s ltac:(find_members p))).
  rewrite (bind_ok _ _ _ _ _ (person_string p (lit "password") (password p) s ltac:(find_members p))).
  rewrite (bind_ok _ _ _ _ _ (person_string p (lit "date_of_birth") (dateOfBirth p) s ltac:(find_members p))).
  rewrite (bind_ok _ _ _ _ _ (person_string p (lit "city") (city p) s ltac:(find_members p))).
  rewrite (bind_ok _ _ _ _ _ (person_string p (lit "summary") (summary p) s ltac:(find_members p))).
  rewrite (bind_ok _ _ _ _ _ (person_member p (lit "tot_recommendations") (JInt (totRecommendations p)) s ltac:(find_members p))), (bind_ok _ _ _ _ _ (asInt_norm _ _ Htot)).
  rewrite (bind_ok _ _ _ _ _ (person_member p (lit "location") (location_value (location p)) s ltac:(find_members p))).
  rewrite (bind_ok _ _ _ (norm (JReal (latitude (location p)))) s) by reflexivity. rewrite (bind_ok _ _ _ _ _ (asDouble_norm _ _ Hlat)).
  rewrite (bind_ok _ _ _ _ _ (person_member p (lit "location") (location_value (location p)) s ltac:(find_members p))).
  rewrite (bind_ok _ _ _ (norm (JReal (longitude (location p)))) s) by reflexivity. rewrite (bind_ok _ _ _ _ _ (asDouble_norm _ _ Hlong)).
  rewrite (bind_ok _ _ _ _ _ (person_list p (lit "work_history") (map work_value (workHistory p)) s ltac:(find_members p))).
  rewrite (bind_ok _ _ _ _ _ (json_loop_array_of work_value _ (fun w => w) (workHistory p) s (fun i x _ _ => read_work x s))).
  rewrite (bind_ok _ _ _ _ _ (person_list p (lit "skills") (map skill_value (skills p)) s ltac:(find_members p))).
  rewrite (bind_ok _ _ _ (map (fun k => k) (skills p)) s).
  - rewrite !map_id, Hf, Hl, He, Hc. destruct p as [? ? ? ? ? ? ? ? [] ? ? ?]. done.
  - apply json_loop_array_of. intros i x Hx _. apply read_skill. rewrite Forall_forall in Hsk. apply Hsk, list_elem_of_In, (list_elem_of_lookup_2 _ _ _ Hx).
Qed.

(** A stored user is a value that is read back. *)
Lemma jwf_strings_object m : sorted_names (map fst m) = true -> Forall (fun kv => bytes kv.1 /\ jwf kv.2) m -> jwf (JObject m).
Proof. intros Hs Hm. cbn [jwf]. split; [by apply sorted_names_keys|]. induction Hm as [|[k v] m [Hk Hv] _ IH]; [done|]. cbn [map fst sorted_names] in Hs. apply andb_prop in Hs as [_ Hs]. split_and!; [done|done|by apply IH]. Qed.

Ltac each_member := repeat first [apply Forall_nil_2|apply Forall_cons_2; [split; [by apply ascii_bytes|cbn [snd]]|]].

Lemma skill_jwf k : skill_ok k -> jwf (skill_value k).
Proof. intros ([Hn _] & Hd & Hc). apply jwf_strings_object; [done|]. each_member; done. Qed.

Lemma work_jwf w : work_ok w -> jwf (work_value w).
Proof. intros (Hp & Hc & Hf & Ht). apply jwf_strings_object; [done|]. each_member; done. Qed.

Lemma location_jwf l : readable (latitude l) -> readable (longitude l) -> jwf (location_value l).
Proof. intros Hlat Hlong. apply jwf_strings_object; [done|]. each_member; by apply readable_jwf. Qed.

Lemma person_storable p : person_ok p -> storable (person_value p).
Proof.
  intros ((Hi & [Hf _] & [Hl _] & [He _] & Hp & Hd & [Hc _] & Hs) & (Hlat & Hlong & Htot) & Hw & Hk).
  assert (Forall jwf (map work_value (workHistory p))) as Hwj by (apply List.Forall_map; eapply List.Forall_impl; [|exact Hw]; apply work_jwf).
  assert (Forall jwf (map skill_value (skills p))) as Hkj by (apply List.Forall_map; eapply List.Forall_impl; [|exact Hk]; apply skill_jwf).
  split.
  - apply jwf_strings_object; [unfold person_members; by destruct (workHistory p), (skills p)|].
    assert (forall k l, ascii_text k = true -> Forall jwf l -> Forall (fun kv => bytes kv.1 /\ jwf kv.2) (list_member k l)) as Hlist.
    { intros k l Hk' Hl'. destruct l as [|v l]; [constructor|]. apply Forall_singleton. split; [by apply ascii_bytes|]. by apply (jwf_array_of (v :: l)). }
    unfold person_members. repeat (apply Forall_app; split); [|by apply Hlist| |by apply Hlist].
    + each_member; try done. by apply location_jwf.
    + unfold minInt, maxInt, minLargestInt, maxLargestInt in *. each_member; [done|cbn [jwf]; unfold minLargestInt, maxLargestInt; lia].
  - unfold person_value. rewrite height_object. unfold stackLimit_g. enough (heights (map snd (person_members p)) <= 3) by lia. apply heights_le; [done|].
    assert (forall k (A : Type) (f : A -> json) l, (forall x, height (f x) = 2) -> Forall (fun v => height v <= 3) (map snd (list_member k (map f l)))) as Hlist.
    { intros k A f l Hh. destruct l as [|x l]; [constructor|]. apply Forall_singleton. apply (height_objects (map f (x :: l))). apply List.Forall_map, List.Forall_forall. intros y _. by rewrite Hh. }
    unfold person_members. rewrite !map_app. repeat (apply Forall_app; split); [by repeat constructor|by apply Hlist|by repeat constructor|by apply Hlist].
Qed.
