(* ===== verification/Manager.v ===== *)
(** * The keys of the users (person/Manager.cpp)

    A user is kept as Json text under his mail; other keys lead from his id,
    his name and his password to the mail, and from a skill or a position to
    the mails of the users that have it. *)

From Stdlib Require Import ZArith Lia String.
From stdpp Require Import base list numbers option.
From S2P Require Import Prelude Strs Cpp Double Json JsonReader JsonSafe JsonRoundtrip Store Person.

Local Open Scope Z_scope.

(** ** The code *)

Definition USER_MAIL_ID : list Z := lit "user:mail_".
Definition USER_UUID_ID : list Z := lit "user:uuid_".
Definition USER_PASSWORD : list Z := lit "user:password_".
Definition USER_NAME_ID : list Z := lit "user:name_".
Definition USER_SKILL : list Z := lit "user:skill_".
Definition USER_JOBPOSITION : list Z := lit "user:jobPosition_".

Section code.
Context {D : Type} `{Leveldb D} `{Spare}.
Abbreviation M := (cpp (DBWrapper (D := D))).

Definition saveUser (user : Person) : M unit :=
  person_json ← Person_serializeMe user;
  putKey (USER_MAIL_ID ++ email user) (FastWriter_write person_json);; mret tt.

Definition userExistsMail (user_mail : list Z) : M bool :=
  '(found, _) ← existsKey (USER_MAIL_ID ++ user_mail) []; mret (truth found).

Definition userExists (user_id : Z) : M bool :=
  '(found, _) ← existsKey (USER_UUID_ID ++ to_string user_id) []; mret (truth found).

Definition saveUserNameKey (user : Person) : M unit := putKey (USER_NAME_ID ++ getFullName user ++ lit "_" ++ email user) (email user);; mret tt.
Definition saveUserIdKey (user : Person) : M unit := putKey (USER_UUID_ID ++ to_string (id user)) (email user);; mret tt.
Definition saveUserPasswordKey (user : Person) : M unit := putKey (USER_PASSWORD ++ email user) (password user);; mret tt.

Definition getJsonFromString (svalue : list Z) : M json := '(_, jvalue) ← parse_string (c_str svalue) JNull; mret jvalue.

Definition getUserByMail (user_mail : list Z) : M Person :=
  '(found, suser) ← existsKey (USER_MAIL_ID ++ user_mail) [];
  if negb (truth found) then throw (UserNotFoundByMail user_mail) else
  juser ← getJsonFromString suser;
  Person_deserializeMe juser.

Definition getUserById (i : Z) : M Person :=
  '(found, user_mail) ← existsKey (USER_UUID_ID ++ to_string i) [];
  if truth found then getUserByMail user_mail else throw (UserNotFoundById i).

Definition saveUserSkillKey (name value : list Z) : M unit := putKey (USER_SKILL ++ name) value;; mret tt.
Definition deleteUserSkillKey (name : list Z) : M unit := deleteKey (USER_SKILL ++ name);; mret tt.
Definition saveUserJobPositionKey (job_position value : list Z) : M unit := putKey (USER_JOBPOSITION ++ job_position) value;; mret tt.

Definition deleteUserIdKey (user : Person) : M unit := deleteKey (USER_UUID_ID ++ to_string (id user));; mret tt.
Definition deleteUser (user : Person) : M unit := deleteKey (USER_MAIL_ID ++ email user);; mret tt.
Definition deleteUserNameKey (user : Person) : M unit := deleteKey (USER_NAME_ID ++ getFullName user ++ lit "_" ++ email user);; mret tt.
Definition deleteUserPasswordKey (user : Person) : M unit := deleteKey (USER_PASSWORD ++ email user);; mret tt.

Definition getUserSkillKey (skill : list Z) : M (list Z) :=
  '(found, users_withSkill) ← existsKey (USER_SKILL ++ skill) []; if negb (truth found) then throw KeyNotFound else mret users_withSkill.

Definition getUserJobPositionKey (job_position : list Z) : M (list Z) :=
  '(found, users_withSkill) ← existsKey (USER_JOBPOSITION ++ job_position) []; if negb (truth found) then throw KeyNotFound else mret users_withSkill.

Definition getUserIdKey (i : Z) : M (list Z) :=
  '(found, user_mail) ← existsKey (USER_UUID_ID ++ to_string i) []; if negb (truth found) then throw (UserNotFoundById i) else mret user_mail.
End code.

(** ** The users of a database *)

(** The parts of a key are those of its prefix and of what follows. *)
Definition mail_key (m : list Z) : list Z := USER_MAIL_ID ++ m.
Definition uuid_key (i : Z) : list Z := USER_UUID_ID ++ to_string i.

Lemma mail_key_inj a b : mail_key a = mail_key b -> a = b.
Proof. apply app_inv_head. Qed.

Lemma uuid_key_inj a b : int64 a -> int64 b -> uuid_key a = uuid_key b -> a = b.
Proof. intros Ha Hb E%app_inv_head. unfold int64, minLargestInt, maxLargestInt in *. apply to_string_inj; (exact E || lia). Qed.

(** The text of a user says everything about him. *)
Lemma person_text_inj p q : person_ok p -> person_ok q -> FastWriter_write (person_value p) = FastWriter_write (person_value q) -> p = q.
Proof.
  intros Hp Hq E. assert (norm (person_value p) = norm (person_value q)) as En.
  { pose proof (Reader_parse_written _ JNull [] (proj1 (person_storable p Hp)) (proj2 (person_storable p Hp))) as E1.
    pose proof (Reader_parse_written _ JNull [] (proj1 (person_storable q Hq)) (proj2 (person_storable q Hq))) as E2.
    unfold FastWriter_write in E. rewrite E in E1. congruence. }
  pose proof (read_person p tt Hp) as R1. pose proof (read_person q tt Hq) as R2. rewrite En in R1. congruence.
Qed.

Section run.
Context {D : Type} `{LeveldbLaws D} `{Spare}.

(** The user with an id, as he is stored. *)
Definition user_is (d : D) (i : Z) (p : Person) : Prop :=
  int64 i /\ person_ok p /\ id p = i /\ db_get d (uuid_key i) = Some (email p) /\ db_get d (mail_key (email p)) = Some (FastWriter_write (person_value p)).

(** Every id in use leads to a stored user with this id and this mail. *)
Definition users_ok (d : D) : Prop := forall i, int64 i -> is_Some (db_get d (uuid_key i)) -> exists p, user_is d i p.

Lemma run_saveUser p d : saveUser p (Some d) = Ret (inr tt, Some (db_put d (mail_key (email p)) (FastWriter_write (person_value p)))).
Proof. unfold saveUser. by rewrite (bind_ok _ _ _ _ _ (serialize_person p _)). Qed.

Lemma run_userExists i d : userExists i (Some d) = Ret (inr (bool_decide (is_Some (db_get d (uuid_key i)))), Some d).
Proof. unfold userExists. rewrite (bind_ok _ _ _ _ _ (run_existsKey _ _ _)). unfold uuid_key. by destruct (db_get d _). Qed.

Lemma run_userExistsMail m d : userExistsMail m (Some d) = Ret (inr (bool_decide (is_Some (db_get d (mail_key m)))), Some d).
Proof. unfold userExistsMail. rewrite (bind_ok _ _ _ _ _ (run_existsKey _ _ _)). unfold mail_key. by destruct (db_get d _). Qed.

Lemma run_json p (w : DBWrapper (D := D)) : person_ok p -> getJsonFromString (FastWriter_write (person_value p)) w = Ret (inr (norm (person_value p)), w).
Proof.
  intros Hp. unfold getJsonFromString. rewrite c_str_written by apply (person_storable p Hp). by rewrite (bind_ok _ _ _ _ _ (parse_written _ _ _ (person_storable p Hp))).
Qed.

Lemma run_getUserByMail d m p : person_ok p -> db_get d (mail_key m) = Some (FastWriter_write (person_value p)) -> getUserByMail m (Some d) = Ret (inr p, Some d).
Proof.
  intros Hp Hget. unfold getUserByMail. rewrite (bind_ok _ _ _ _ _ (run_existsKey _ _ _)). unfold mail_key in Hget. rewrite Hget. cbn [truth negb].
  rewrite (bind_ok _ _ _ _ _ (run_json p _ Hp)). by apply read_person.
Qed.

Lemma run_getUserByMail_none d m : db_get d (mail_key m) = None -> getUserByMail m (Some d) = Ret (inl (UserNotFoundByMail m), Some d).
Proof. intros Hget. unfold getUserByMail. rewrite (bind_ok _ _ _ _ _ (run_existsKey _ _ _)). unfold mail_key in Hget. by rewrite Hget. Qed.

Lemma run_getUserById d i p : user_is d i p -> getUserById i (Some d) = Ret (inr p, Some d).
Proof.
  intros (_ & Hp & _ & Hid & Hmail). unfold getUserById. rewrite (bind_ok _ _ _ _ _ (run_existsKey _ _ _)). unfold uuid_key in Hid. rewrite Hid. cbn [truth].
  by apply run_getUserByMail.
Qed.

(** What is written under other keys does not touch the users. *)
Definition other_key (k : list Z) : Prop := (forall m, mail_key m <> k) /\ (forall i, uuid_key i <> k).

Lemma user_put d i p k v : other_key k -> user_is (db_put d k v) i p <-> user_is d i p.
Proof. intros [Hm Hu]. unfold user_is. rewrite !get_put, !decide_False; [done|intros E; by apply (Hm (email p))|intros E; by apply (Hu i)]. Qed.

(** A user is determined by his id. *)
Lemma user_unique d i p q : user_is d i p -> user_is d i q -> p = q.
Proof. intros Hp Hq. pose proof (run_getUserById d i p Hp) as E1. pose proof (run_getUserById d i q Hq) as E2. congruence. Qed.

(** Writing a new version of a user. *)
Lemma user_save d i p q j : user_is d i p -> person_ok q -> id q = i -> email q = email p ->
  forall r, user_is (db_put d (mail_key (email p)) (FastWriter_write (person_value q))) j r <-> (if decide (i = j) then r = q else user_is d j r).
Proof.
  intros Hp Hq Hid Hmail r. pose proof Hp as (Hi & Hpok & Hpi & Hpu & Hpm). destruct (decide (i = j)) as [<-|Hne].
  - assert (user_is (db_put d (mail_key (email p)) (FastWriter_write (person_value q))) i q) as Hnew.
    { unfold user_is. rewrite !get_put, Hmail. rewrite (decide_False (P := mail_key (email p) = uuid_key i)), (decide_True (P := mail_key (email p) = mail_key (email p))) by done. done. }
    split; [|by intros ->]. intros Hr. by apply (user_unique _ _ _ _ Hr).
  - unfold user_is. rewrite !get_put, (decide_False (P := mail_key (email p) = uuid_key j)) by done.
    destruct (decide (mail_key (email p) = mail_key (email r))) as [E|E]; [|done]. apply mail_key_inj in E. split.
    + intros (Hj & Hrok & Hrj & Hru & Hrm). apply (inj Some) in Hrm. apply person_text_inj in Hrm; [|done|done]. congruence.
    + intros (Hj & Hrok & Hrj & Hru & Hrm). rewrite <- E, Hpm in Hrm. apply (inj Some) in Hrm. apply person_text_inj in Hrm; [|done|done]. congruence.
Qed.

(** A new user. *)
Definition insert_user (d : D) (p : Person) : D := db_put (db_put d (mail_key (email p)) (FastWriter_write (person_value p))) (uuid_key (id p)) (email p).

Lemma user_insert d p j r : person_ok p -> db_get d (uuid_key (id p)) = None -> db_get d (mail_key (email p)) = None ->
  user_is (insert_user d p) j r <-> if decide (id p = j) then r = p else user_is d j r.
Proof.
  intros Hp Hu Hm. pose proof Hp as ((Hi & _) & _). destruct (decide (id p = j)) as [<-|Hne].
  - assert (user_is (insert_user d p) (id p) p) as Hnew.
    { unfold user_is, insert_user. rewrite !get_put, (decide_True (P := uuid_key (id p) = uuid_key (id p))), (decide_False (P := uuid_key (id p) = mail_key (email p))), (decide_True (P := mail_key (email p) = mail_key (email p))) by done. done. }
    split; [|by intros ->]. intros Hr. by apply (user_unique _ _ _ _ Hr).
  - unfold user_is, insert_user. rewrite !get_put, (decide_False (P := mail_key (email p) = uuid_key j)), (decide_False (P := uuid_key (id p) = mail_key (email r))) by done.
    destruct (decide (uuid_key (id p) = uuid_key j)) as [E|_]; [split; [intros (Hj & _)|intros (Hj & _)]; by destruct (Hne (uuid_key_inj _ _ Hi Hj E))|].
    destruct (decide (mail_key (email p) = mail_key (email r))) as [E|E]; [|done]. apply mail_key_inj in E. split.
    + intros (Hj & Hrok & Hrj & Hru & Hrm). apply (inj Some) in Hrm. apply person_text_inj in Hrm; [|done|done]. congruence.
    + intros (Hj & Hrok & Hrj & Hru & Hrm). rewrite <- E, Hm in Hrm. done.
Qed.
End run.
