(* ===== verification/Recommendations.v ===== *)
(** * Recommendations (person/recommendation/RecommendationsManager.cpp)

    The users that recommend a user are a list under "recommendation_<id>", and
    the user himself keeps their number.  Both are updated together; the theorem
    says that they always agree. *)

From Stdlib Require Import ZArith Lia String.
From stdpp Require Import base list numbers option gmap.
From S2P Require Import Prelude Strs Cpp Double Json JsonReader JsonSafe JsonRoundtrip Store Person Manager.

Local Open Scope Z_scope.

(** ** The code *)

Definition RECOMMENDATION_KEY : list Z := lit "recommendation_".
Definition ARRAY_KEY : list Z := lit "recommendations".

Definition recommendationAlreadyExists (currentRecommendations : list Z) (fromId : Z) : bool := existsb (fun x => x =? fromId) currentRecommendations.

Section code.
Context {D : Type} `{Leveldb D} `{Spare}.
Abbreviation M := (cpp (DBWrapper (D := D))).

(** The loop from index [i] on. *)
Fixpoint build_items {S} (recommendationsAsJson : json) (i : Z) (current : list Z) : cpp S json :=
  match current with
  | [] => mret recommendationsAsJson
  | x :: current =>
      item ← assign JNull (to_string i) (JInt x);
      v ← append_member recommendationsAsJson ARRAY_KEY item;
      build_items v (i + 1) current
  end.
Definition buildJsonToSave {S} (currentRecommendations : list Z) : cpp S json := build_items JNull 0 currentRecommendations.

Definition parseRecommendationsString {S} (recommendationsAsString : list Z) : cpp S (list Z) :=
  '(parsingSuccessful, root) ← parse_string recommendationsAsString JNull;
  if negb parsingSuccessful then throw StdException else
  recommendationsAsJson ← member root ARRAY_KEY;
  json_loop recommendationsAsJson (fun i v => x ← member v (to_string i); asLargestInt x).

Definition getRecommendationsByUserId (userId : Z) : M (list Z) :=
  '(found, result) ← existsKey (RECOMMENDATION_KEY ++ to_string userId) [];
  if negb (truth found) then mret [] else parseRecommendationsString result.

Definition updateTotalRecommendation (delta i : Z) : M unit :=
  '(_, output) ← getKey (USER_UUID_ID ++ to_string i) [];
  '(_, user_information) ← getKey (USER_MAIL_ID ++ output) [];
  '(_, juser_info) ← parse_string (c_str user_information) JNull;
  person ← Person_deserializeMe juser_info;
  tot ← pure (int (totRecommendations person + delta));
  updated_user ← Person_serializeMe (setTotalRecommendations tot person);
  putKey (USER_MAIL_ID ++ output) (FastWriter_write updated_user);;
  mret tt.

Definition save_recommendations (toId : Z) (l : list Z) : M unit :=
  recommendationsAsJson ← buildJsonToSave l;
  putKey (RECOMMENDATION_KEY ++ to_string toId) (FastWriter_write recommendationsAsJson);;
  mret tt.

Definition addRecommendation (fromId toId : Z) : M unit :=
  currentRecommendations ← getRecommendationsByUserId toId;
  if negb (recommendationAlreadyExists currentRecommendations fromId) then
    save_recommendations toId (currentRecommendations ++ [fromId]);;
    updateTotalRecommendation 1 toId
  else mret tt.

Definition RecommendationsManager_removeRecommendation (fromId toId : Z) : M unit :=
  currentRecommendations ← getRecommendationsByUserId toId;
  if recommendationAlreadyExists currentRecommendations fromId then
    save_recommendations toId (List.filter (fun x => negb (x =? fromId)) currentRecommendations);;
    updateTotalRecommendation (-1) toId
  else mret tt.

(** *** The methods of [PersonManager] *)

Definition long_member {S} (v : json) (key : list Z) : cpp S Z := x ← member v key; asLargestInt x.

Definition validateUsersOfRequest (fromUserId toUserId : Z) : M unit :=
  a ← userExists fromUserId;
  if negb a then throw (UserNotFoundById fromUserId) else
  b ← userExists toUserId;
  if negb b then throw (UserNotFoundById toUserId) else
  if fromUserId =? toUserId then throw (InvalidRequestException (lit "From user and to user cannot be equals")) else mret tt.

Definition saveRecommendation (recommendation : json) : M unit :=
  fromUserId ← long_member recommendation (lit "from");
  toUserId ← long_member recommendation (lit "to");
  validateUsersOfRequest fromUserId toUserId;;
  addRecommendation fromUserId toUserId.

Definition removeRecommendation (fromUserId toUserId : Z) : M unit :=
  validateUsersOfRequest fromUserId toUserId;;
  RecommendationsManager_removeRecommendation fromUserId toUserId.
End code.

(** ** What is stored *)

Definition recommendation_key (u : Z) : list Z := RECOMMENDATION_KEY ++ to_string u.
Definition numbered (i : Z) (l : list Z) : list (Z * Z) := zip (seqZ i (size l)) l.
Definition item_value (x : Z * Z) : json := JObject [(to_string x.1, JInt x.2)].
Definition recommendations_value (l : list Z) : json := match l with [] => JNull | _ => JObject [(ARRAY_KEY, JArray (map item_value (numbered 0 l)))] end.

Lemma numbered_cons i x l : numbered i (x :: l) = (i, x) :: numbered (i + 1) l.
Proof. unfold numbered. rewrite size_cons. rewrite seqZ_cons by (pose proof (size_nonneg l); lia). cbn. do 3 f_equal; lia. Qed.

Lemma numbered_lookup i l k x : numbered i l !! k = Some x -> x.1 = i + Z.of_nat k /\ l !! k = Some x.2.
Proof.
  unfold numbered. destruct x as [a b]. intros [[-> _]%lookup_seqZ Hb]%lookup_zip_Some. done.
Qed.

Lemma numbered_snd i l : map snd (numbered i l) = l.
Proof. revert i. induction l as [|x l IH]; intros i; [done|]. rewrite numbered_cons. cbn. by rewrite IH. Qed.

Lemma build_items_more {S} (s : S) : forall l i acc,
  build_items (JObject [(ARRAY_KEY, JArray acc)]) i l s = Ret (inr (JObject [(ARRAY_KEY, JArray (acc ++ map item_value (numbered i l)))]), s).
Proof.
  induction l as [|x l IH]; intros i acc; [cbn; by rewrite app_nil_r|]. cbn [build_items]. rewrite (bind_ok _ _ _ (item_value (i, x)) s) by done.
  rewrite (bind_ok _ _ _ (JObject [(ARRAY_KEY, JArray (acc ++ [item_value (i, x)]))]) s) by done. rewrite IH, numbered_cons, <- app_assoc. done.
Qed.

Lemma run_build {S} l (s : S) : buildJsonToSave l s = Ret (inr (recommendations_value l), s).
Proof.
  destruct l as [|x l]; [done|]. unfold buildJsonToSave. cbn [build_items]. rewrite (bind_ok _ _ _ (item_value (0, x)) s) by done.
  rewrite (bind_ok _ _ _ (JObject [(ARRAY_KEY, JArray [item_value (0, x)])]) s) by done. rewrite build_items_more. cbn [recommendations_value]. by rewrite numbered_cons.
Qed.

Lemma recommendations_storable l : Forall int64 l -> storable (recommendations_value l).
Proof.
  intros Hl. destruct l as [|x l]; [done|]. set (l' := x :: l) in *. change (recommendations_value l') with (JObject [(ARRAY_KEY, JArray (map item_value (numbered 0 l')))]).
  split.
  - apply jwf_strings_object; [done|]. apply Forall_singleton. split; [by apply ascii_bytes|]. cbn [snd].
    pose proof (jwf_array_of (map item_value (numbered 0 l'))) as Hj. unfold l' in Hj at 2. rewrite numbered_cons in Hj. cbn [map array_of] in Hj. unfold l'. rewrite numbered_cons. apply Hj.
    apply List.Forall_map, List.Forall_forall. intros y Hy. apply jwf_strings_object; [done|]. apply Forall_singleton. split; [apply to_string_bytes|].
    apply (in_map snd) in Hy. rewrite numbered_snd in Hy. rewrite List.Forall_forall in Hl. apply (Hl _ Hy).
  - rewrite height_object. cbn [map snd]. unfold stackLimit_g. enough (heights [JArray (map item_value (numbered 0 l'))] <= 3) by lia. apply heights_le; [done|]. apply Forall_singleton.
    rewrite height_array. enough (heights (map item_value (numbered 0 l')) <= 2) by lia. apply heights_le; [done|]. apply List.Forall_map, List.Forall_forall. intros y _. done.
Qed.

Section run.
Context {D : Type} `{LeveldbLaws D} `{Spare}.

(** The users that recommend [u]. *)
Definition recommended_by (d : D) (u : Z) (l : list Z) : Prop :=
  Forall int64 l /\ match db_get d (recommendation_key u) with None => l = [] | Some t => t = FastWriter_write (recommendations_value l) end.

Lemma run_parse l (w : DBWrapper (D := D)) : Forall int64 l -> parseRecommendationsString (FastWriter_write (recommendations_value l)) w = Ret (inr l, w).
Proof.
  intros Hl. unfold parseRecommendationsString. rewrite (bind_ok _ _ _ _ _ (parse_written _ _ _ (recommendations_storable l Hl))). cbn [negb].
  rewrite (bind_ok _ _ _ (norm (array_of (map item_value (numbered 0 l)))) w) by (destruct l as [|z l0]; [done|cbn [recommendations_value]; by rewrite numbered_cons]).
  rewrite (json_loop_array_of item_value _ snd (numbered 0 l)); [by rewrite numbered_snd|]. intros i [j x] Hx Hi. apply numbered_lookup in Hx as [Hj Hx]. cbn [fst snd] in *.
  replace j with i by lia. rewrite (bind_ok _ _ _ (norm (JInt x)) w); [|].
  - apply asLargestInt_norm. rewrite List.Forall_forall in Hl. apply Hl, list_elem_of_In, (list_elem_of_lookup_2 _ _ _ Hx).
  - cbn [item_value norm map fst snd member find_member]. by rewrite key_compare_refl.
Qed.

Lemma run_getRecommendations d u l : recommended_by d u l -> getRecommendationsByUserId u (Some d) = Ret (inr l, Some d).
Proof.
  intros [Hl Hget]. unfold getRecommendationsByUserId, recommendation_key in *. rewrite (bind_ok _ _ _ _ _ (run_existsKey _ _ _)).
  destruct (db_get d _) as [t|]; [subst t|by subst l]. cbn [truth negb]. by apply run_parse.
Qed.

Lemma recommended_unique d u l l' : recommended_by d u l -> recommended_by d u l' -> l = l'.
Proof. intros Hl Hl'. pose proof (run_getRecommendations d u l Hl). pose proof (run_getRecommendations d u l' Hl'). congruence. Qed.

Lemma run_save_recommendations d u l : save_recommendations u l (Some d) = Ret (inr tt, Some (db_put d (recommendation_key u) (FastWriter_write (recommendations_value l)))).
Proof. unfold save_recommendations. by rewrite (bind_ok _ _ _ _ _ (run_build l _)). Qed.

Lemma recommendation_other u : other_key (recommendation_key u).
Proof. by split. Qed.

Lemma run_updateTotal d i p delta : user_is d i p -> minInt <= totRecommendations p + delta <= maxInt ->
  updateTotalRecommendation delta i (Some d) =
    Ret (inr tt, Some (db_put d (mail_key (email p)) (FastWriter_write (person_value (setTotalRecommendations (totRecommendations p + delta) p))))).
Proof.
  intros (_ & Hp & _ & Hid & Hmail) Ht. unfold updateTotalRecommendation. rewrite (bind_ok _ _ _ _ _ (run_getKey _ _ _)). unfold uuid_key in Hid. rewrite Hid.
  rewrite (bind_ok _ _ _ _ _ (run_getKey _ _ _)). unfold mail_key in Hmail. rewrite Hmail. rewrite c_str_written by apply (person_storable p Hp).
  rewrite (bind_ok _ _ _ _ _ (parse_written _ _ _ (person_storable p Hp))), (bind_ok _ _ _ _ _ (read_person p _ Hp)).
  rewrite (bind_ok _ _ _ (totRecommendations p + delta) (Some d)); [by rewrite (bind_ok _ _ _ _ _ (serialize_person _ _))|].
  unfold pure. unfold minInt, maxInt in Ht. destruct (wp_int (totRecommendations p + delta) (eq (totRecommendations p + delta))) as (t & -> & <-); [lia|done|done].
Qed.

(** *** The invariant *)

(** Users are stored under their ids, and the number that a user keeps is the
    length of the list of those that recommend him, each of them once. *)
Definition counted (d : D) : Prop :=
  users_ok d /\ forall i p, user_is d i p -> exists l, recommended_by d i l /\ NoDup l /\ totRecommendations p = size l.

(** Writing the list and the number of a user. *)
Lemma counted_update d i p l q : counted d -> user_is d i p -> Forall int64 l -> NoDup l -> size l <= maxInt -> q = setTotalRecommendations (size l) p ->
  let d' := db_put (db_put d (recommendation_key i) (FastWriter_write (recommendations_value l))) (mail_key (email p)) (FastWriter_write (person_value q)) in
  counted d' /\ recommended_by d' i l.
Proof.
  intros [Hok Hc] Hp Hl Hn Hs Hq. cbv zeta. set (d1 := db_put d (recommendation_key i) _). set (d2 := db_put d1 _ _).
  assert (user_is d1 i p) as Hp1 by (by apply user_put; [apply recommendation_other|]). pose proof Hp as (Hi & Hpok & Hpi & Hpu & Hpm).
  assert (person_ok q) as Hqok.
  { subst q. destruct Hpok as (Ha & (Hlat & Hlong & _) & Hb). split; [exact Ha|]. split; [|exact Hb]. split_and!; try done. pose proof (size_nonneg l). unfold minInt. cbn. lia. }
  pose proof (user_save d1 i p q) as Hsave. assert (forall j r, user_is d2 j r <-> if decide (i = j) then r = q else user_is d j r) as Huser.
  { intros j r. unfold d2. rewrite (Hsave j Hp1 Hqok) by (subst q; done). destruct (decide (i = j)); [done|]. apply user_put, recommendation_other. }
  assert (forall j l', int64 j -> recommended_by d2 j l' <-> if decide (i = j) then l' = l else recommended_by d j l') as Hrec.
  { intros j l' Hj. assert (recommended_by d2 j l' <-> recommended_by d1 j l') as ->. { unfold recommended_by, d2. rewrite get_put, decide_False by done. done. }
    unfold recommended_by, d1. rewrite get_put. destruct (decide (i = j)) as [<-|Hne].
    - rewrite decide_True by done. assert (recommended_by d1 i l) as Hl1 by (unfold recommended_by, d1; rewrite get_put, decide_True; done).
      split; [|by intros ->]. intros Hl'. apply (recommended_unique d1 i); [|exact Hl1]. unfold recommended_by, d1. by rewrite get_put, decide_True.
    - rewrite decide_False; [done|]. intros E%app_inv_head. apply Hne. unfold int64, minLargestInt, maxLargestInt in *. apply to_string_inj; (exact E || lia). }
  split; [split|by apply Hrec; [|rewrite decide_True]].
  - intros j Hj Hex. destruct (decide (i = j)) as [<-|Hne]; [exists q; apply Huser; by rewrite decide_True|].
    destruct (Hok j Hj) as [r Hr]; [|exists r; apply Huser; by rewrite decide_False]. unfold d2, d1 in Hex. by rewrite !get_put, !decide_False in Hex.
  - intros j r Hr. pose proof (proj1 Hr) as Hj. apply Huser in Hr. destruct (decide (i = j)) as [<-|Hne].
    + subst r. exists l. split; [apply Hrec; [done|by rewrite decide_True]|]. subst q. done.
    + destruct (Hc j r Hr) as (l' & Hl' & Hrest). exists l'. split; [apply Hrec; [done|by rewrite decide_False]|done].
Qed.

Lemma counted_empty : counted db_empty.
Proof. split; [intros i _ [x Hx]; by rewrite get_empty in Hx|]. intros i p (_ & _ & _ & Hx & _). by rewrite get_empty in Hx. Qed.

Lemma counted_insert d p : counted d -> person_ok p -> db_get d (uuid_key (id p)) = None -> db_get d (mail_key (email p)) = None ->
  db_get d (recommendation_key (id p)) = None -> totRecommendations p = 0 -> counted (insert_user d p).
Proof.
  intros [Hok Hc] Hp Hu Hm Hr Ht. pose proof (fun j r => user_insert d p j r Hp Hu Hm) as Huser.
  assert (forall j l, recommended_by (insert_user d p) j l <-> recommended_by d j l) as Hrec by (intros j l; unfold recommended_by, insert_user; by rewrite !get_put, !decide_False by done).
  split.
  - intros j Hj Hex. destruct (decide (id p = j)) as [<-|Hne]; [exists p; apply Huser; by rewrite decide_True|]. destruct (Hok j Hj) as [r Hr']; [|exists r; apply Huser; by rewrite decide_False].
    unfold insert_user in Hex. rewrite !get_put, (decide_False (P := mail_key (email p) = uuid_key j)) in Hex by done. rewrite decide_False in Hex; [done|].
    intros E. apply Hne, uuid_key_inj; [apply Hp|done|done].
  - intros j r Hj. apply Huser in Hj. case_decide as E; [subst j r|destruct (Hc j r Hj) as (l & Hl & Hrest); exists l; split; [by apply Hrec|done]].
    exists []. split; [apply Hrec; split; [constructor|by rewrite Hr]|]. split; [constructor|done].
Qed.

(** *** Requests *)

(** Why a request on two users is refused. *)
Definition request_error (d : D) (a b : Z) : option exn :=
  if decide (db_get d (uuid_key a) = None) then Some (UserNotFoundById a) else
  if decide (db_get d (uuid_key b) = None) then Some (UserNotFoundById b) else
  if decide (a = b) then Some (InvalidRequestException (lit "From user and to user cannot be equals")) else None.

Lemma run_validate d a b : validateUsersOfRequest a b (Some d) = Ret (match request_error d a b with Some e => inl e | None => inr tt end, Some d).
Proof.
  unfold validateUsersOfRequest, request_error. rewrite (bind_ok _ _ _ _ _ (run_userExists _ _)).
  destruct (db_get d (uuid_key a)) as [x|] eqn:Ea; [rewrite (decide_False (P := Some x = None)), bool_decide_true by done; cbn [negb]|by rewrite decide_True].
  rewrite (bind_ok _ _ _ _ _ (run_userExists _ _)). destruct (db_get d (uuid_key b)) as [y|] eqn:Eb; [rewrite (decide_False (P := Some y = None)), bool_decide_true by done; cbn [negb]|by rewrite decide_True].
  destruct (Z.eqb_spec a b); [by rewrite decide_True|by rewrite decide_False].
Qed.

Lemma exists_mem l x : recommendationAlreadyExists l x = true <-> x ∈ l.
Proof. unfold recommendationAlreadyExists. rewrite existsb_exists, list_elem_of_In. split; [intros (y & Hy & E); by replace x with y by lia|intros Hx; exists x; split; [done|lia]]. Qed.

Lemma filter_one l x : NoDup l -> x ∈ l -> let l' := List.filter (fun y => negb (y =? x)) l in NoDup l' /\ size l' = size l - 1.
Proof.
  intros Hn Hx l'. assert (forall l, ~ x ∈ l -> List.filter (fun y => negb (y =? x)) l = l) as Hid.
  { clear. induction l as [|y l IH]; [done|]. intros [Hy Hl]%not_elem_of_cons. cbn. rewrite (proj2 (Z.eqb_neq y x)) by congruence. cbn. by rewrite IH. }
  split; [subst l'; rewrite NoDup_ListNoDup in *; by apply List.NoDup_filter|]. unfold l'. clear l'. induction l as [|y l IH]; [by apply not_elem_of_nil in Hx|]. apply NoDup_cons in Hn as [Hy Hn]. cbn.
  destruct (Z.eqb_spec y x) as [->|Hne]; cbn; [rewrite Hid, size_cons by done; lia|]. apply elem_of_cons in Hx as [->|Hx]; [done|]. rewrite !size_cons, IH by done. lia.
Qed.

Definition recommendation_json (a b : Z) : json := JObject [(lit "from", norm (JInt a)); (lit "to", norm (JInt b))].

(** The list after a request. *)
Definition after_add (l : list Z) (a : Z) : list Z := if decide (a ∈ l) then l else l ++ [a].
Definition after_remove (l : list Z) (a : Z) : list Z := List.filter (fun x => negb (x =? a)) l.

Lemma request_user d a b : counted d -> int64 b -> request_error d a b = None ->
  exists p l, user_is d b p /\ recommended_by d b l /\ NoDup l /\ totRecommendations p = size l.
Proof.
  intros [Hok Hc] Hb E. unfold request_error in E. repeat (case_decide; [done|]). destruct (Hok b Hb) as [p Hp]; [by apply not_eq_None_Some|].
  destruct (Hc b p Hp) as (l & Hl). exists p, l. split; [done|exact Hl].
Qed.

Lemma run_add d a b p l : counted d -> int64 a -> user_is d b p -> recommended_by d b l -> NoDup l -> totRecommendations p = size l -> size l < maxInt ->
  exists d', addRecommendation a b (Some d) = Ret (inr tt, Some d') /\ counted d' /\ recommended_by d' b (after_add l a).
Proof.
  intros Hc Ha Hp Hl Hn Ht Hs. unfold addRecommendation, after_add. rewrite (bind_ok _ _ _ _ _ (run_getRecommendations d b l Hl)). pose proof (exists_mem l a) as Hmem.
  destruct (recommendationAlreadyExists l a) eqn:E; cbn [negb]; [exists d; by rewrite decide_True by by apply Hmem|]. rewrite decide_False by (intros Hin%Hmem; congruence).
  rewrite (bind_ok _ _ _ _ _ (run_save_recommendations d b _)). pose proof (size_nonneg l). unfold minInt, maxInt in *.
  rewrite (run_updateTotal _ b p 1) by first [unfold minInt, maxInt; lia|apply user_put; [apply recommendation_other|done]]. rewrite Ht. eexists. split; [reflexivity|].
  apply counted_update; try done.
  - apply Forall_app. split; [apply Hl|]. by apply Forall_singleton.
  - apply NoDup_app. split; [done|]. split; [|apply NoDup_singleton]. intros x Hx ->%list_elem_of_singleton. apply Hmem in Hx. congruence.
  - rewrite size_app. change (size [a]) with 1. unfold maxInt. lia.
  - rewrite size_app. done.
Qed.

Lemma run_remove_recommendation d a b p l : counted d -> user_is d b p -> recommended_by d b l -> NoDup l -> totRecommendations p = size l ->
  exists d', RecommendationsManager_removeRecommendation a b (Some d) = Ret (inr tt, Some d') /\ counted d' /\ recommended_by d' b (after_remove l a).
Proof.
  intros Hc Hp Hl Hn Ht. unfold RecommendationsManager_removeRecommendation, after_remove. rewrite (bind_ok _ _ _ _ _ (run_getRecommendations d b l Hl)).
  pose proof (exists_mem l a) as Hmem. destruct (recommendationAlreadyExists l a) eqn:E.
  - rewrite (bind_ok _ _ _ _ _ (run_save_recommendations d b _)). destruct (filter_one l a Hn) as [Hn' Hsz]; [by apply Hmem|].
    assert (minInt <= totRecommendations p <= maxInt) as Hr by apply Hp. unfold minInt in Hr. pose proof (size_nonneg l). pose proof (size_nonneg (after_remove l a)). unfold after_remove in *.
    rewrite (run_updateTotal _ b p (-1)) by first [unfold minInt; lia|apply user_put; [apply recommendation_other|done]]. rewrite Ht. eexists. split; [reflexivity|].
    apply counted_update; try done; [|lia|f_equal; lia]. apply List.Forall_forall. intros x Hx. apply filter_In in Hx as [Hx _]. destruct Hl as [Hl _]. rewrite List.Forall_forall in Hl. auto.
  - exists d. split; [done|]. split; [done|]. replace (List.filter _ l) with l; [done|]. assert (~ a ∈ l) as Hna by (intros Hin%Hmem; congruence). clear -Hna.
    induction l as [|y l IH]; [done|]. apply not_elem_of_cons in Hna as [Hy Hl]. cbn. rewrite (proj2 (Z.eqb_neq y a)) by congruence. cbn. by rewrite <- IH.
Qed.
End run.

Inductive request := Save (from to : Z) | Remove (from to : Z).

Definition run_request {D} `{Leveldb D} `{Spare} (r : request) : cpp (DBWrapper (D := D)) unit :=
  match r with Save a b => saveRecommendation (recommendation_json a b) | Remove a b => removeRecommendation a b end.

(** C5: recommending a user and taking it back: on a database where every user's
    number of recommendations is the length of the list of those that recommend
    him, a request returns, the two still agree for all users, a request on
    unknown users or on oneself throws and changes nothing, and otherwise the
    list has the author once, or no more. *)
Theorem recommendations_counted {D} `{LeveldbLaws D} `{Spare} (d : D) (r : request) :
  let '(a, b) := match r with Save a b | Remove a b => (a, b) end in
  counted d -> int64 a -> int64 b -> (forall l, recommended_by d b l -> size l < maxInt) ->
  exists x d', run_request r (Some d) = Ret (x, Some d') /\ counted d' /\
    match request_error d a b with
    | Some e => x = inl e /\ d' = d
    | None => x = inr tt /\ exists l, recommended_by d b l /\ recommended_by d' b (match r with Save _ _ => after_add l a | Remove _ _ => after_remove l a end)
    end.
Proof.
  destruct r as [a b|a b]; intros Hc Ha Hb Hroom; unfold run_request; [unfold saveRecommendation, long_member|unfold removeRecommendation].
  - rewrite (bind_ok _ _ _ a (Some d)) by (rewrite (bind_ok _ _ _ (norm (JInt a)) (Some d)) by done; by apply asLargestInt_norm).
    rewrite (bind_ok _ _ _ b (Some d)) by (rewrite (bind_ok _ _ _ (norm (JInt b)) (Some d)) by done; by apply asLargestInt_norm).
    pose proof (run_validate d a b) as Hv. destruct (request_error d a b) as [e|] eqn:Er; [rewrite (bind_exn _ _ _ _ _ Hv); by exists (inl e), d|].
    rewrite (bind_ok _ _ _ _ _ Hv). destruct (request_user d a b Hc Hb Er) as (p & l & Hp & Hl & Hn & Ht).
    destruct (run_add d a b p l Hc Ha Hp Hl Hn Ht (Hroom l Hl)) as (d' & E & Hc' & Hl'). exists (inr tt), d'. split_and!; [done|done|done|by exists l].
  - pose proof (run_validate d a b) as Hv. destruct (request_error d a b) as [e|] eqn:Er; [rewrite (bind_exn _ _ _ _ _ Hv); by exists (inl e), d|].
    rewrite (bind_ok _ _ _ _ _ Hv). destruct (request_user d a b Hc Hb Er) as (p & l & Hp & Hl & Hn & Ht).
    destruct (run_remove_recommendation d a b p l Hc Hp Hl Hn Ht) as (d' & E & Hc' & Hl'). exists (inr tt), d'. split_and!; [done|done|done|by exists l].
Qed.

Definition sample_person (i : Z) (mail : list Z) : Person :=
  mk_person i (lit "ada") (lit "lovelace") mail (lit "secret") (lit "10/12/1815") (lit "london") [] (mk_location (of_Z 0) tenth) 0
    [mk_work (lit "Programmer") (lit "Analytical Engine") (lit "01/1842") []] [mk_skill (lit "mathematics") [] []].

Lemma sample_person_ok i mail : int64 i -> ascii_text mail = true -> to_lower mail = mail -> person_ok (sample_person i mail).
Proof.
  intros Hi Hm Hl. assert (readable (of_Z 0) /\ readable tenth) as [H0 Ht] by (by split; (split; [reflexivity|vm_compute])).
  unfold person_ok, skill_ok, work_ok, lower, sample_person. cbn [id firstName lastName email password dateOfBirth city summary location latitude longitude totRecommendations workHistory skills].
  split_and!; lazymatch goal with
    | |- bytes _ => apply ascii_bytes; (reflexivity || exact Hm)
    | |- to_lower _ = _ => (reflexivity || exact Hl)
    | |- int64 _ => exact Hi
    | |- readable _ => assumption
    | |- Forall _ _ => apply Forall_singleton; split_and!; (reflexivity || apply ascii_bytes; reflexivity)
    | |- _ <= _ => done
    end.
Qed.

Lemma recommendations_counted_witness :
  let D := gmap (list Z) (list Z) in let _ : Spare := fun _ => lit "}]" in
  exists d : D, counted d /\ request_error d 1 2 = None /\
  exists x d', run_request (Save 1 2) (Some d) = Ret (x, Some d') /\ counted d' /\ x = inr tt /\ exists l, recommended_by d 2 l /\ recommended_by d' 2 (after_add l 1).
Proof.
  intros D sp. set (p1 := sample_person 1 (lit "a@b.c")). set (p2 := sample_person 2 (lit "d@e.f")). set (d1 := insert_user (db_empty : D) p1). set (d2 := insert_user d1 p2).
  assert (counted d2) as Hc.
  { apply counted_insert; [apply counted_insert; [apply counted_empty|by apply sample_person_ok|done|done|done|done]|by apply sample_person_ok|vm_compute; done|vm_compute; done|vm_compute; done|done]. }
  assert (request_error d2 1 2 = None) as Er by (vm_compute; done). exists d2. split; [exact Hc|]. split; [exact Er|].
  destruct (recommendations_counted d2 (Save 1 2) Hc) as (x & d' & E & Hc' & Hx).
  - done.
  - done.
  - intros l [_ Hl]. assert (db_get d2 (recommendation_key 2) = None) as En by (vm_compute; done). rewrite En in Hl. by subst l.
  - rewrite Er in Hx. exact (ex_intro _ x (ex_intro _ d' (conj E (conj Hc' Hx)))).
Defined.
