(* ===== verification/Messages.v ===== *)
(** * Messages between users (person/messages/)

    The messages of two users are one list, under the two ids in order.  The
    clock is the machine's: [format_time] is what [localtime] and [strftime]
    make of a time, which depends on its time zone. *)

From Stdlib Require Import ZArith Lia String.
From stdpp Require Import base list numbers option gmap.
From S2P Require Import Prelude Strs Cpp Double Json JsonReader JsonSafe JsonRoundtrip Styled Store Person Manager Recommendations.

Local Open Scope Z_scope.

(** ** The code *)

Class LocalTime := format_time : Z -> list Z.

Definition DELIMITER : list Z := lit "_".
Definition STATE_SENT : list Z := lit "sent".
Definition STATE_RECEIVED : list Z := lit "received".

Record Message := mk_message { message : list Z; timestamp : list Z; fromUserId : Z; toUserId : Z; state : list Z }.

Definition setState (st : list Z) (m : Message) : Message := mk_message (message m) (timestamp m) (fromUserId m) (toUserId m) st.

(** [MessagesManager::getKey]. *)
Definition conversation_key (fromUserId toUserId : Z) : list Z :=
  if fromUserId <? toUserId then to_string fromUserId ++ DELIMITER ++ to_string toUserId
  else to_string toUserId ++ DELIMITER ++ to_string fromUserId.

Section code.
Context {D : Type} `{Leveldb D} `{Spare} `{LocalTime}.
Abbreviation M := (cpp (DBWrapper (D := D))).

Definition Message_of_json (messageAsJson : json) : M Message :=
  m ← string_member messageAsJson (lit "message");
  t ← string_member messageAsJson (lit "timestamp");
  f ← long_member messageAsJson (lit "from");
  u ← long_member messageAsJson (lit "to");
  s ← string_member messageAsJson (lit "state");
  mret (mk_message m t f u s).

Definition Message_serializeMe (m : Message) : M json :=
  v ← assign JNull (lit "from") (JInt (fromUserId m));
  v ← assign v (lit "to") (JInt (toUserId m));
  v ← assign v (lit "message") (JString (message m));
  v ← assign v (lit "timestamp") (JString (timestamp m));
  assign v (lit "state") (JString (state m)).

Definition MessagesManager_getMessages (fromUserId toUserId : Z) : M (list Message) :=
  '(found, result) ← existsKey (conversation_key fromUserId toUserId) [];
  if truth found then
    '(_, messagesAsJson) ← parse_string (c_str result) JNull;
    json_loop messagesAsJson (fun _ => Message_of_json)
  else mret [].

Definition save_messages (fromUserId toUserId : Z) (messages : list Message) : M unit :=
  allMessagesAsJson ← append_each JNull messages Message_serializeMe;
  putKey (conversation_key fromUserId toUserId) (FastWriter_write allMessagesAsJson);;
  mret tt.

(** [now] is the time at the call. *)
Definition MessagesManager_saveMessage (now fromUserId toUserId : Z) (text : list Z) : M (list Z) :=
  let messageToSave := mk_message text (format_time now) fromUserId toUserId STATE_SENT in
  value ← Message_serializeMe messageToSave;
  currentMessages ← MessagesManager_getMessages fromUserId toUserId;
  save_messages fromUserId toUserId (currentMessages ++ [messageToSave]);;
  mret (toStyledString value).

(** The inner loop: [deliveredMessage] is the current message itself. *)
Definition mark_received (fromUserId : Z) (deliveredMessages : list Message) (currentMessage : Message) : Message :=
  foldl (fun currentMessage _ =>
    let deliveredMessage := currentMessage in
    if bool_decide (timestamp deliveredMessage = timestamp currentMessage) && (fromUserId =? toUserId currentMessage)
    then setState STATE_RECEIVED currentMessage else currentMessage) currentMessage deliveredMessages.

Definition setMessagesAsReceived (fromUserId toUserId : Z) (deliveredMessages : list Message) : M unit :=
  currentMessages ← MessagesManager_getMessages fromUserId toUserId;
  save_messages fromUserId toUserId (map (mark_received fromUserId deliveredMessages) currentMessages).

Fixpoint count_unread (requesterUserId unreadCount : Z) (currentMessages : list Message) : M Z :=
  match currentMessages with
  | [] => mret unreadCount
  | m :: r =>
      unreadCount ← (if bool_decide (state m = STATE_SENT) && (requesterUserId =? toUserId m) then pure (int (unreadCount + 1)) else mret unreadCount);
      count_unread requesterUserId unreadCount r
  end.

Definition getUnreadCount (requesterUserId withUserId : Z) : M Z :=
  currentMessages ← MessagesManager_getMessages requesterUserId withUserId;
  count_unread requesterUserId 0 currentMessages.

(** *** The methods of [PersonManager] *)

Definition saveMessage (now : Z) (request : json) : M (list Z) :=
  fromUserId ← long_member request (lit "from");
  toUserId ← long_member request (lit "to");
  messageToSave ← string_member request (lit "message");
  validateUsersOfRequest fromUserId toUserId;;
  MessagesManager_saveMessage now fromUserId toUserId messageToSave.

Definition getMessages (fromUserId toUserId : Z) : M (list Message) :=
  validateUsersOfRequest fromUserId toUserId;;
  MessagesManager_getMessages fromUserId toUserId.
End code.

(** ** What is stored *)

Definition message_value (m : Message) : json :=
  JObject [(lit "from", JInt (fromUserId m)); (lit "message", JString (message m)); (lit "state", JString (state m));
           (lit "timestamp", JString (timestamp m)); (lit "to", JInt (toUserId m))].
Definition message_ok (m : Message) : Prop := bytes (message m) /\ bytes (timestamp m) /\ int64 (fromUserId m) /\ int64 (toUserId m) /\ bytes (state m).

Lemma messages_storable l : Forall message_ok l -> storable (array_of (map message_value l)).
Proof.
  intros Hl. split.
  - apply jwf_array_of, List.Forall_map. eapply List.Forall_impl; [|exact Hl]. intros m (Hm & Ht & Hf & Hu & Hs). apply jwf_strings_object; [done|].
    each_member; done.
  - etransitivity; [apply height_objects|done]. apply List.Forall_map, List.Forall_forall. done.
Qed.

(** The key tells the two users. *)
Lemma to_string_chars z : Forall (fun c => (negb (c =? 95)) = true) (to_string z).
Proof. apply to_string_forall; [done|]. intros. lia. Qed.

Lemma two_ids a b c e : int64 a -> int64 b -> int64 c -> int64 e -> to_string a ++ DELIMITER ++ to_string b = to_string c ++ DELIMITER ++ to_string e -> a = c /\ b = e.
Proof.
  intros Ha Hb Hc He E. unfold int64, minLargestInt, maxLargestInt in *. pose proof (take_while_app (fun c => negb (c =? 95)) (to_string a) 95 (to_string b) (to_string_chars a) eq_refl) as E1.
  pose proof (take_while_app (fun c => negb (c =? 95)) (to_string c) 95 (to_string e) (to_string_chars c) eq_refl) as E2. change (95 :: to_string b) with (DELIMITER ++ to_string b) in E1.
  change (95 :: to_string e) with (DELIMITER ++ to_string e) in E2. rewrite E, E2 in E1. split; [symmetry; apply to_string_inj; (exact E1 || lia)|].
  rewrite E1 in E. apply app_inv_head, app_inv_head in E. apply to_string_inj; (exact E || lia).
Qed.

Lemma conversation_key_inj a b c e : int64 a -> int64 b -> int64 c -> int64 e -> conversation_key a b = conversation_key c e -> (a = c /\ b = e) \/ (a = e /\ b = c).
Proof. intros Ha Hb Hc He. unfold conversation_key. do 2 case_match; intros E; apply two_ids in E; tauto || (destruct E; auto) || done. Qed.

Lemma conversation_key_sym a b : conversation_key a b = conversation_key b a.
Proof.
  unfold conversation_key. destruct (Z.ltb_spec a b), (Z.ltb_spec b a); try done; [lia|]. by assert (a = b) as -> by lia.
Qed.

(** How many messages to [u] he has not received. *)
Definition unread (u : Z) (l : list Message) : Z := size (List.filter (fun m => bool_decide (state m = STATE_SENT) && (u =? toUserId m)) l).

Lemma unread_app u l r : unread u (l ++ r) = unread u l + unread u r.
Proof. unfold unread. rewrite List.filter_app, size_app. done. Qed.

Lemma unread_sent u t now a b : unread u [mk_message t now a b STATE_SENT] = if u =? b then 1 else 0.
Proof. unfold unread. cbn [List.filter state toUserId]. rewrite bool_decide_true by done. by destruct (u =? b). Qed.



Section run.
Context {D : Type} `{LeveldbLaws D} `{Spare} `{LocalTime}.

(** The messages of two users. *)
Definition conversation (d : D) (a b : Z) (l : list Message) : Prop :=
  Forall message_ok l /\ match db_get d (conversation_key a b) with None => l = [] | Some t => t = FastWriter_write (array_of (map message_value l)) end.

Lemma read_message m (w : DBWrapper (D := D)) : message_ok m -> Message_of_json (norm (message_value m)) w = Ret (inr m, w).
Proof.
  intros (_ & _ & Hf & Hu & _). unfold Message_of_json, long_member. do 2 (erewrite bind_ok by reflexivity).
  rewrite (bind_ok _ _ _ (fromUserId m) w) by (rewrite (bind_ok _ _ _ (norm (JInt (fromUserId m))) w) by done; by apply asLargestInt_norm).
  rewrite (bind_ok _ _ _ (toUserId m) w) by (rewrite (bind_ok _ _ _ (norm (JInt (toUserId m))) w) by done; by apply asLargestInt_norm).
  erewrite bind_ok by reflexivity. by destruct m.
Qed.

Lemma run_messages d a b l : conversation d a b l -> MessagesManager_getMessages a b (Some d) = Ret (inr l, Some d).
Proof.
  intros [Hok Hget]. unfold MessagesManager_getMessages. rewrite (bind_ok _ _ _ _ _ (run_existsKey _ _ _)). destruct (db_get d _) as [t|]; [subst t|by subst l]. cbn [truth].
  rewrite c_str_written by apply (messages_storable l Hok). rewrite (bind_ok _ _ _ _ _ (parse_written _ _ _ (messages_storable l Hok))).
  rewrite (json_loop_array_of message_value _ (fun m => m) l), map_id; [done|]. intros i m Hm _. apply read_message. rewrite List.Forall_forall in Hok. apply Hok, list_elem_of_In, (list_elem_of_lookup_2 _ _ _ Hm).
Qed.

Lemma conversation_sym d a b l : conversation d a b l <-> conversation d b a l.
Proof. unfold conversation. by rewrite conversation_key_sym. Qed.

Definition store_messages (d : D) (a b : Z) (l : list Message) : D := db_put d (conversation_key a b) (FastWriter_write (array_of (map message_value l))).

Lemma run_save_messages d a b l : save_messages a b l (Some d) = Ret (inr tt, Some (store_messages d a b l)).
Proof. unfold save_messages. by rewrite (bind_ok _ _ _ _ _ (append_each_null Message_serializeMe message_value l _ (fun m => eq_refl))). Qed.

Lemma conversation_store d a b l : Forall message_ok l -> conversation (store_messages d a b l) a b l.
Proof. intros Hl. split; [done|]. unfold store_messages. by rewrite get_put, decide_True. Qed.

Lemma conversation_other d a b l c e l' : int64 a -> int64 b -> int64 c -> int64 e -> ~ ((a = c /\ b = e) \/ (a = e /\ b = c)) ->
  conversation d c e l' -> conversation (store_messages d a b l) c e l'.
Proof.
  intros Ha Hb Hc He Hne [Hok Hget]. split; [done|]. unfold store_messages. rewrite get_put, decide_False; [done|]. intros E. by apply Hne, conversation_key_inj.
Qed.

Lemma run_count u l (w : DBWrapper (D := D)) : forall n, 0 <= n -> n + size l <= maxInt -> count_unread u n l w = Ret (inr (n + unread u l), w).
Proof.
  induction l as [|m l IH]; intros n Hn Hs; [cbn; by rewrite Z.add_0_r|]. cbn [count_unread]. rewrite size_cons in Hs. pose proof (size_nonneg l). unfold maxInt in *.
  unfold unread. cbn [List.filter]. destruct (bool_decide (state m = STATE_SENT) && (u =? toUserId m)).
  - rewrite (bind_ok _ _ _ (n + 1) w).
    + rewrite IH by lia. fold (unread u l). rewrite size_cons. do 3 f_equal. unfold unread. lia.
    + unfold pure. destruct (wp_int (n + 1) (eq (n + 1))) as (t & -> & <-); [lia|done|done].
  - rewrite (bind_ok _ _ _ n w) by done. by rewrite IH by lia.
Qed.

Lemma run_getUnreadCount d a b l : conversation d a b l -> size l <= maxInt -> getUnreadCount a b (Some d) = Ret (inr (unread a l), Some d).
Proof. intros Hl Hs. unfold getUnreadCount. by rewrite (bind_ok _ _ _ _ _ (run_messages d a b l Hl)), run_count. Qed.

(** Marking. *)
Lemma mark_received_spec a dl m : mark_received a dl m = if bool_decide (dl = []) || negb (a =? toUserId m) then m else setState STATE_RECEIVED m.
Proof.
  destruct dl as [|x dl]; [done|]. rewrite bool_decide_false by done. cbn [orb]. unfold mark_received. cbn [foldl]. rewrite bool_decide_true by done. cbn [andb].
  destruct (a =? toUserId m) eqn:E; cbn [negb].
  - enough (forall m', (a =? toUserId m') = true -> state m' = STATE_RECEIVED -> foldl (fun c (_ : Message) => if bool_decide (timestamp c = timestamp c) && (a =? toUserId c) then setState STATE_RECEIVED c else c) m' dl = m') as Hf.
    { by apply Hf. }
    induction dl as [|y dl IH]; intros m' E' Hs; [done|]. cbn [foldl]. rewrite bool_decide_true, E' by done. cbn [andb].
    assert (setState STATE_RECEIVED m' = m') as -> by (destruct m'; cbn in *; by subst). by apply IH.
  - induction dl as [|y dl IH]; [done|]. cbn [foldl]. rewrite bool_decide_true, E by done. exact IH.
Qed.

Lemma run_setMessagesAsReceived d a b dl l : conversation d a b l ->
  setMessagesAsReceived a b dl (Some d) = Ret (inr tt, Some (store_messages d a b (map (mark_received a dl) l))).
Proof. intros Hl. unfold setMessagesAsReceived. rewrite (bind_ok _ _ _ _ _ (run_messages d a b l Hl)). apply run_save_messages. Qed.

Lemma mark_unread a dl l u : unread u (map (mark_received a dl) l) = if bool_decide (dl = []) || negb (a =? u) then unread u l else 0.
Proof.
  unfold unread. induction l as [|m l IH]; cbn [map List.filter]; [by case_match|]. rewrite mark_received_spec. destruct (bool_decide (dl = [])) eqn:Ed; cbn [orb] in *.
  - destruct (_ && _); rewrite ?size_cons, IH; done.
  - destruct (Z.eqb_spec a (toUserId m)) as [Ea|Ea]; cbn [negb state toUserId setState].
    + destruct (Z.eqb_spec a u) as [Eu|Eu]; cbn [negb] in *; [|rewrite (proj2 (Z.eqb_neq u (toUserId m))), !andb_false_r by congruence; exact IH].
      rewrite bool_decide_false by done. exact IH.
    + destruct (Z.eqb_spec a u) as [Eu|Eu]; cbn [negb] in *; [|destruct (_ && _); rewrite ?size_cons, IH; done].
      by rewrite (proj2 (Z.eqb_neq u (toUserId m))), andb_false_r by congruence.
Qed.

Lemma mark_ok a dl l : Forall message_ok l -> Forall message_ok (map (mark_received a dl) l).
Proof.
  intros Hl. apply List.Forall_map. eapply List.Forall_impl; [|exact Hl]. intros m (Hm & Ht & Hf & Hu & Hs). rewrite mark_received_spec.
  case_match; [by unfold message_ok|]. split_and!; try done. by apply ascii_bytes.
Qed.
End run.

Definition message_request (a b : Z) (text : list Z) : json := JObject [(lit "from", norm (JInt a)); (lit "message", JString text); (lit "to", norm (JInt b))].

(** C17: a message that one user sends another, whose history is [l], is answered
    with its Json form, is from then on the last of the messages that either
    of the two gets, and is one more unread message for the receiver and none
    for the sender; when the receiver marks delivered messages, nothing is
    unread for him any more and only the states of messages to him changed.
    The messages of other pairs of users stay the same. *)
Theorem message_delivery {D} `{LeveldbLaws D} `{Spare} `{LocalTime} (d : D) now a b text l dl :
  int64 a -> int64 b -> request_error d a b = None -> conversation d a b l -> bytes text -> bytes (format_time now) -> size l < maxInt -> dl <> [] ->
  let m := mk_message text (format_time now) a b STATE_SENT in
  exists d1 d2, saveMessage now (message_request a b text) (Some d) = Ret (inr (toStyledString (message_value m)), Some d1) /\
    setMessagesAsReceived b a dl (Some d1) = Ret (inr tt, Some d2) /\
    MessagesManager_getMessages a b (Some d1) = Ret (inr (l ++ [m]), Some d1) /\ MessagesManager_getMessages b a (Some d1) = Ret (inr (l ++ [m]), Some d1) /\
    getUnreadCount b a (Some d1) = Ret (inr (unread b l + 1), Some d1) /\ getUnreadCount a b (Some d1) = Ret (inr (unread a l), Some d1) /\
    MessagesManager_getMessages a b (Some d2) = Ret (inr (map (fun m => if b =? toUserId m then setState STATE_RECEIVED m else m) (l ++ [m])), Some d2) /\
    getUnreadCount b a (Some d2) = Ret (inr 0, Some d2) /\ getUnreadCount a b (Some d2) = Ret (inr (unread a l), Some d2) /\
    forall c e l', int64 c -> int64 e -> ~ ((a = c /\ b = e) \/ (a = e /\ b = c)) -> conversation d c e l' -> conversation d2 c e l'.
Proof.
  intros Ha Hb Er Hl Htext Htime Hs Hdl m. assert (a <> b) as Hne by (unfold request_error in Er; repeat (case_decide; [done|]); done).
  assert (Forall message_ok (l ++ [m])) as Hlm by (apply Forall_app; split; [apply Hl|]; apply Forall_singleton; split_and!; try done; by apply ascii_bytes).
  assert (size (l ++ [m]) <= maxInt) as Hsm by (rewrite size_app; change (size [m]) with 1; lia).
  set (d1 := store_messages d a b (l ++ [m])). set (l2 := map (mark_received b dl) (l ++ [m])). set (d2 := store_messages d1 b a l2).
  assert (conversation d1 a b (l ++ [m])) as Hc1 by by apply conversation_store. pose proof (proj1 (conversation_sym d1 a b (l ++ [m])) Hc1) as Hc1s.
  assert (conversation d2 b a l2) as Hc2 by (apply conversation_store; by apply mark_ok). pose proof (proj1 (conversation_sym d2 b a l2) Hc2) as Hc2s.
  assert (size l2 <= maxInt) as Hs2 by (unfold l2; unfold size in *; by rewrite length_map).
  assert (l2 = map (fun m => if b =? toUserId m then setState STATE_RECEIVED m else m) (l ++ [m])) as El2.
  { unfold l2. apply map_ext. intros x. rewrite mark_received_spec, bool_decide_false by done. by destruct (b =? toUserId x). }
  exists d1, d2. split_and!.
  - unfold saveMessage, long_member. rewrite (bind_ok _ _ _ a (Some d)) by (rewrite (bind_ok _ _ _ (norm (JInt a)) (Some d)) by done; by apply asLargestInt_norm).
    rewrite (bind_ok _ _ _ b (Some d)) by (rewrite (bind_ok _ _ _ (norm (JInt b)) (Some d)) by done; by apply asLargestInt_norm).
    rewrite (bind_ok _ _ _ text (Some d)) by done. pose proof (run_validate d a b) as Hv. rewrite Er in Hv. rewrite (bind_ok _ _ _ _ _ Hv).
    unfold MessagesManager_saveMessage. rewrite (bind_ok _ _ _ (message_value m) (Some d)) by done. rewrite (bind_ok _ _ _ _ _ (run_messages d a b l Hl)).
    by rewrite (bind_ok _ _ _ _ _ (run_save_messages d a b _)).
  - by apply run_setMessagesAsReceived.
  - by apply run_messages.
  - by apply run_messages.
  - rewrite (run_getUnreadCount d1 b a _ Hc1s Hsm), unread_app. unfold m. by rewrite unread_sent, Z.eqb_refl.
  - rewrite (run_getUnreadCount d1 a b _ Hc1 Hsm), unread_app. unfold m. by rewrite unread_sent, (proj2 (Z.eqb_neq a b) Hne), Z.add_0_r.
  - rewrite (run_messages d2 a b l2 Hc2s), El2. done.
  - rewrite (run_getUnreadCount d2 b a _ Hc2 Hs2). unfold l2. by rewrite mark_unread, bool_decide_false, Z.eqb_refl.
  - rewrite (run_getUnreadCount d2 a b _ Hc2s Hs2). unfold l2. rewrite mark_unread, bool_decide_false, (proj2 (Z.eqb_neq b a)) by congruence. cbn [orb negb].
    rewrite unread_app. unfold m. by rewrite unread_sent, (proj2 (Z.eqb_neq a b) Hne), Z.add_0_r.
  - intros c e l' Hc He Hother Hl'. apply conversation_other; try done; [tauto|]. by apply conversation_other.
Qed.

Lemma message_delivery_witness :
  let D := gmap (list Z) (list Z) in let _ : Spare := fun _ => lit "}]" in let _ : LocalTime := fun t => to_string t in
  exists d : D, request_error d 1 2 = None /\ conversation d 1 2 [] /\
  let m := mk_message (lit "hello") (format_time 1479340800) 1 2 STATE_SENT in
  exists d1 d2, saveMessage 1479340800 (message_request 1 2 (lit "hello")) (Some d) = Ret (inr (toStyledString (message_value m)), Some d1) /\
    setMessagesAsReceived 2 1 [m] (Some d1) = Ret (inr tt, Some d2) /\
    MessagesManager_getMessages 1 2 (Some d1) = Ret (inr [m], Some d1) /\ MessagesManager_getMessages 2 1 (Some d1) = Ret (inr [m], Some d1) /\
    getUnreadCount 2 1 (Some d1) = Ret (inr 1, Some d1) /\ getUnreadCount 1 2 (Some d1) = Ret (inr 0, Some d1).
Proof.
  intros D sp lt. set (d := db_put (db_put (db_empty : D) (uuid_key 1) (lit "a")) (uuid_key 2) (lit "b")).
  assert (request_error d 1 2 = None) as Er by (vm_compute; done). assert (conversation d 1 2 []) as Hl by (split; [constructor|vm_compute; done]).
  exists d. split; [exact Er|]. split; [exact Hl|]. intros m.
  destruct (message_delivery d 1479340800 1 2 (lit "hello") [] [m] ltac:(by split) ltac:(by split) Er Hl ltac:(by apply ascii_bytes) (to_string_bytes _) ltac:(reflexivity) ltac:(discriminate))
    as (d1 & d2 & E1 & E2 & E3 & E4 & E5 & E6 & _).
  exact (ex_intro _ d1 (ex_intro _ d2 (conj E1 (conj E2 (conj E3 (conj E4 (conj E5 E6))))))).
Defined.

(** Marking goes by no more than whether any message was delivered. *)
Example received_all a m x : toUserId m = a -> mark_received a [x] m = setState STATE_RECEIVED m.
Proof. intros <-. rewrite mark_received_spec, bool_decide_false by done. cbn [orb]. by rewrite Z.eqb_refl. Qed.
