(* ===== verification/Users.v ===== *)
(** * Creating, changing and deleting users (person/PersonManager.cpp)

    Beside the keys of [Manager], a user is listed under each of his skills and
    positions.  A new user gets all his keys; deleting or changing a user, whatever
    it ends in, leaves no account inconsistent: ids lead to stored users, passwords
    and numbers of recommendations are theirs, fresh ids are unused, and the keys
    by name follow.  What deleting and changing do to the lists by skill and
    position is in the definitions only: the code mixes them up, as an example at
    the end shows.  The temporary user is deleted from memory at the end, which
    faults for one with several skills or jobs. *)

From Stdlib Require Import ZArith Lia String.
From stdpp Require Import base list numbers option gmap.
From S2P Require Import Prelude Strs Cpp Double Json JsonReader JsonSafe JsonRoundtrip Store Person Manager Recommendations.

Local Open Scope Z_scope.

(** ** The code *)

(** [std::getline] until the text is used up: what follows the last delimiter
    counts unless it is empty. *)
Fixpoint split_from (item : list Z) (s : list Z) (delim : Z) : list (list Z) :=
  match s with
  | [] => match item with [] => [] | _ => [item] end
  | c :: s => if c =? delim then item :: split_from [] s delim else split_from (item ++ [c]) s delim
  end.
Definition split (s : list Z) (delim : Z) : list (list Z) := split_from [] s delim.

Example split_ex : split (lit "a@b,,c@d,") 44 = [lit "a@b"; []; lit "c@d"].
Proof. reflexivity. Qed.

(** Addition of [long]. *)
Definition long (z : Z) : outcome Z := if (minLargestInt <=? z) && (z <=? maxLargestInt) then mret z else Fault SignedOverflow.

Definition LAST_ID : list Z := lit "lastID".

(** The loop that leaves out a mail: the others with commas between them. *)
Definition without_mail (user_mail : list Z) (mails : list (list Z)) : list Z :=
  foldl (fun new_users m =>
    if bool_decide (user_mail <> m) then (if bool_decide (new_users = []) then new_users ++ m else new_users ++ [44] ++ m) else new_users) [] mails.

Section code.
Context {D : Type} `{Leveldb D} `{Spare}.
Abbreviation M := (cpp (DBWrapper (D := D))).

Definition generateID : M Z :=
  '(found, last_id) ← existsKey LAST_ID [];
  if negb (truth found) then putKey LAST_ID (to_string 1);; mret 1 else
  l ← stol last_id; new ← pure (long (l + 1));
  putKey LAST_ID (to_string new);;
  l ← stol last_id; pure (long (l + 1)).

Definition saveSkill (skill : Skill) (user_mail : list Z) : M unit :=
  let name := to_lower (skill_name skill) in
  users_mail ← catch (users_mail ← getUserSkillKey name; mret (users_mail ++ [44] ++ user_mail))
                     (fun e => match e with KeyNotFound => mret user_mail | _ => throw e end);
  saveUserSkillKey name users_mail.

Definition savePosition (position_title user_mail : list Z) : M unit :=
  users_mail ← catch (users_mail ← getUserJobPositionKey position_title; mret (users_mail ++ [44] ++ user_mail))
                     (fun e => match e with KeyNotFound => mret user_mail | _ => throw e end);
  saveUserJobPositionKey position_title users_mail.

Definition saveSkills (user_newSkills : list Skill) (user_mail : list Z) : M unit := for_each user_newSkills (fun s => saveSkill s user_mail).
Definition savePositions (positions : list WorkHistory) (user_mail : list Z) : M unit := for_each positions (fun w => savePosition (to_lower (positionTitle w)) user_mail).

Definition deleteUserFromSkill (name user_mail : list Z) : M unit :=
  catch (output ← getUserSkillKey name;
         let new_users := without_mail user_mail (split output 44) in
         if bool_decide (new_users = []) then deleteUserSkillKey name else saveUserSkillKey name new_users)
        (fun e => match e with KeyNotFound => throw BadImplementationException | _ => throw e end).

(** The list is looked up in lower case and kept under the title as given; when
    nobody is left, the key of a skill goes. *)
Definition deleteUserFromJobPosition (job_position user_mail : list Z) : M unit :=
  catch (output ← getUserJobPositionKey (to_lower job_position);
         let new_users := without_mail user_mail (split output 44) in
         if bool_decide (new_users = []) then deleteUserSkillKey job_position else saveUserJobPositionKey job_position new_users)
        (fun e => match e with KeyNotFound => throw BadImplementationException | _ => throw e end).

Definition savePerson (juser_new_information : json) (forceID : Z) : M Z :=
  user ← Person_deserializeMe juser_new_information;
  let user_mail := email user in
  found ← userExistsMail user_mail;
  if (found : bool) then pure (delete_person user);; throw UserAlreadyExistsException else
  uniqueId ← (if negb (forceID =? -1) then mret forceID else generateID);
  let user := setTotalRecommendations 0 (setId uniqueId user) in
  saveUser user;; saveUserNameKey user;; saveUserIdKey user;; saveUserPasswordKey user;;
  saveSkills (skills user) user_mail;;
  savePositions (workHistory user) user_mail;;
  (match getCurrentJob (workHistory user) with Some w => savePosition (positionTitle w) user_mail | None => mret tt end);;
  pure (delete_person user);;
  mret uniqueId.

Definition deletePerson (i : Z) : M unit :=
  user ← getUserById i;
  catch (deleteUserIdKey user;; deleteUserNameKey user;; deleteUserPasswordKey user;;
         for_each (skills user) (fun s => deleteUserFromSkill (skill_name s) (email user));;
         for_each (workHistory user) (fun w => deleteUserFromJobPosition (positionTitle w) (email user));;
         deleteUser user)
        (fun e => match e with InvalidRequestException _ => throw e | _ => throw (UserNotFoundById i) end).

Definition updateName (new_user old_user : Person) : M unit :=
  if bool_decide (getFullName old_user <> getFullName new_user) then deleteUserNameKey old_user;; saveUserNameKey new_user else mret tt.

Definition updateSkills (new_user old_user : Person) : M unit :=
  for_each (skills new_user) (fun s =>
    if existsb (fun o => bool_decide (skill_name o = to_lower (skill_name s))) (skills old_user) then mret tt else saveSkill s (email new_user));;
  for_each (skills old_user) (fun o =>
    if existsb (fun s => bool_decide (skill_name o = skill_name s)) (skills new_user) then mret tt else deleteUserFromSkill (skill_name o) (email new_user)).

Definition updateWorkHistory (new_user old_user : Person) : M unit :=
  for_each (workHistory new_user) (fun w =>
    if existsb (fun o => bool_decide (positionTitle o = to_lower (positionTitle w))) (workHistory old_user) then mret tt
    else savePosition (to_lower (positionTitle w)) (email new_user));;
  for_each (workHistory old_user) (fun o =>
    if existsb (fun w => bool_decide (positionTitle o = positionTitle w)) (workHistory new_user) then mret tt
    else deleteUserFromJobPosition (positionTitle o) (email new_user)).

Definition updatePassword (new_user old_user : Person) : M unit :=
  if bool_decide (password old_user <> password new_user) then deleteUserPasswordKey old_user;; saveUserPasswordKey new_user else mret tt.

(** For an unknown user the id is read from the object that was deleted. *)
Definition updateUser (juser_new_information : json) : M Z :=
  new_user ← Person_deserializeMe juser_new_information;
  old_user ← catch (getUserById (id new_user))
    (fun e => match e with UserNotFoundById _ | UserNotFoundByMail _ => pure (delete_person new_user);; pure (Fault UseAfterFree) | _ => throw e end);
  let new_user := setEmail (email old_user) new_user in
  updateName new_user old_user;;
  updateSkills new_user old_user;;
  updateWorkHistory new_user old_user;;
  let new_user := setTotalRecommendations (totRecommendations old_user) new_user in
  new_user ← (if bool_decide (password new_user = []) then mret (setPassword (password old_user) new_user)
              else updatePassword new_user old_user;; mret new_user);
  let lat := if Person.isEmpty (location new_user) then latitude (location old_user) else latitude (location new_user) in
  let long := if Person.isEmpty (location new_user) then longitude (location old_user) else longitude (location new_user) in
  let new_user := setLocation lat long new_user in
  saveUser new_user;;
  pure (delete_person new_user);;
  mret (id new_user).
End code.

(** ** What the accounts rest on *)

Definition password_key (m : list Z) : list Z := USER_PASSWORD ++ m.

Definition name_key (p : Person) : list Z := USER_NAME_ID ++ getFullName p ++ lit "_" ++ email p.

(** The keys of the lists by skill and by position. *)
Inductive index_key : list Z -> Prop :=
  | skill_index s : index_key (USER_SKILL ++ s)
  | position_index s : index_key (USER_JOBPOSITION ++ s).

Section run.
Context {D : Type} `{LeveldbLaws D} `{Spare}.
Abbreviation M := (cpp (DBWrapper (D := D))).

(** What the accounts rest on: everything but the lists and the keys by name. *)
Definition account_key (k : list Z) : Prop := ~ index_key k /\ forall s, k <> USER_NAME_ID ++ s.

(** Databases that differ in the lists only, and databases with the same accounts. *)
Definition same_keys (d d' : D) : Prop := forall k, ~ index_key k -> db_get d k = db_get d' k.
Definition same_accounts (d d' : D) : Prop := forall k, account_key k -> db_get d k = db_get d' k.

#[export] Instance same_keys_equiv : Equivalence same_keys.
Proof. split; [by intros d Hk|intros d d' Hd k Hk; by rewrite (Hd k Hk)|intros d1 d2 d3 H12 H23 k Hk; by rewrite (H12 k Hk), (H23 k Hk)]. Qed.

#[export] Instance same_keys_accounts : subrelation same_keys same_accounts.
Proof. intros d d' Hd k [Hk _]. by apply Hd. Qed.

#[export] Instance same_accounts_equiv : Equivalence same_accounts.
Proof. split; [by intros d k Hk|intros d d' Hd k Hk; by rewrite (Hd k Hk)|intros d1 d2 d3 H12 H23 k Hk; by rewrite (H12 k Hk), (H23 k Hk)]. Qed.

Ltac no_index := solve [split; [let Hidx := fresh in by intros Hidx; inversion Hidx|done]|let Hidx := fresh in by intros Hidx; inversion Hidx].

#[export] Instance user_is_proper : Proper (same_accounts ==> eq ==> eq ==> iff) user_is.
Proof. intros d d' Hd i ? <- p ? <-. unfold user_is. by rewrite (Hd (uuid_key i)), (Hd (mail_key (email p))) by no_index. Qed.

#[export] Instance users_ok_proper : Proper (same_accounts ==> iff) users_ok.
Proof. intros d d' Hd. unfold users_ok. split; intros Hok i Hi Hu; [rewrite <- (Hd (uuid_key i)) in Hu by no_index|rewrite (Hd (uuid_key i)) in Hu by no_index]; destruct (Hok i Hi Hu) as [p Hp]; exists p; [by rewrite <- Hd|by rewrite Hd]. Qed.

#[export] Instance recommended_by_proper : Proper (same_accounts ==> eq ==> eq ==> iff) recommended_by.
Proof. intros d d' Hd i ? <- l ? <-. unfold recommended_by. by rewrite (Hd (recommendation_key i)) by no_index. Qed.

#[export] Instance counted_proper : Proper (same_accounts ==> iff) counted.
Proof. intros d d' Hd. unfold counted. setoid_rewrite Hd. done. Qed.

(** Methods that return from every database and change nothing but the lists. *)
Definition keeps {A} (m : M A) : Prop := forall d, exists r d', m (Some d) = Ret (r, Some d') /\ same_keys d d'.

Lemma keeps_ret {A} (a : A) : keeps (mret a).
Proof. intros d. by exists (inr a), d. Qed.

Lemma keeps_throw {A} e : keeps (throw e : M A).
Proof. intros d. by exists (inl e), d. Qed.

Lemma keeps_bind {A B} (m : M A) (f : A -> M B) : keeps m -> (forall a, keeps (f a)) -> keeps (m ≫= f).
Proof.
  intros Hm Hf d. destruct (Hm d) as ([e|a] & d1 & E & Hd).
  - exists (inl e), d1. by rewrite (bind_exn _ _ _ _ _ E).
  - destruct (Hf a d1) as (r & d2 & E2 & Hd2). exists r, d2. rewrite (bind_ok _ _ _ _ _ E). split; [done|]. by rewrite Hd.
Qed.

Lemma keeps_catch {A} (m : M A) h : keeps m -> (forall e, keeps (h e)) -> keeps (catch m h).
Proof.
  intros Hm Hh d. destruct (Hm d) as ([e|a] & d1 & E & Hd); unfold catch; rewrite E.
  - destruct (Hh e d1) as (r & d2 & E2 & Hd2). exists r, d2. split; [done|]. by rewrite Hd.
  - by exists (inr a), d1.
Qed.

Lemma keeps_for_each {A} (l : list A) (f : A -> M unit) : (forall x, keeps (f x)) -> keeps (for_each l f).
Proof. intros Hf. induction l as [|x l IH]; [apply keeps_ret|]. cbn [for_each]. by apply keeps_bind. Qed.

Lemma keeps_if {A} (b : bool) (m n : M A) : keeps m -> keeps n -> keeps (if b then m else n).
Proof. by destruct b. Qed.

Lemma keeps_exists k o : keeps (existsKey k o).
Proof. intros d. eexists _, d. split; [apply run_existsKey|done]. Qed.

Lemma keeps_put k v : index_key k -> keeps (putKey k v).
Proof. intros Hk d. eexists _, _. split; [apply run_putKey|]. intros k' Hk'. rewrite get_put, decide_False; [done|]. by intros ->. Qed.

Lemma keeps_delete k : index_key k -> keeps (deleteKey k).
Proof. intros Hk d. eexists _, _. split; [apply run_deleteKey|]. intros k' Hk'. rewrite get_delete, decide_False; [done|]. by intros ->. Qed.
End run.

Create HintDb keeps.
#[export] Hint Resolve keeps_ret keeps_throw keeps_bind keeps_catch keeps_for_each keeps_if keeps_exists keeps_put keeps_delete : keeps.
#[export] Hint Constructors index_key : keeps.

Section accounts.
Context {D : Type} `{LeveldbLaws D} `{Spare}.
Abbreviation M := (cpp (DBWrapper (D := D))).

Lemma keeps_skill_key s : keeps (getUserSkillKey s : M _).
Proof. unfold getUserSkillKey. apply keeps_bind; [auto with keeps|]. intros [f o]. auto with keeps. Qed.

Lemma keeps_position_key s : keeps (getUserJobPositionKey s : M _).
Proof. unfold getUserJobPositionKey. apply keeps_bind; [auto with keeps|]. intros [f o]. auto with keeps. Qed.

Ltac keeps_handler := let e := fresh "e" in intros e; destruct e; auto with keeps.

Lemma keeps_saveSkill s m : keeps (saveSkill s m : M _).
Proof. unfold saveSkill, saveUserSkillKey. apply keeps_bind; [apply keeps_catch; [auto using keeps_skill_key with keeps|keeps_handler]|auto with keeps]. Qed.

Lemma keeps_savePosition p m : keeps (savePosition p m : M _).
Proof. unfold savePosition, saveUserJobPositionKey. apply keeps_bind; [apply keeps_catch; [auto using keeps_position_key with keeps|keeps_handler]|auto with keeps]. Qed.

Lemma keeps_unskill s m : keeps (deleteUserFromSkill s m : M _).
Proof. unfold deleteUserFromSkill, saveUserSkillKey, deleteUserSkillKey. apply keeps_catch; [auto 6 using keeps_skill_key with keeps|keeps_handler]. Qed.

Lemma keeps_unposition s m : keeps (deleteUserFromJobPosition s m : M _).
Proof. unfold deleteUserFromJobPosition, saveUserJobPositionKey, deleteUserSkillKey. apply keeps_catch; [auto 6 using keeps_position_key with keeps|keeps_handler]. Qed.

Hint Resolve keeps_saveSkill keeps_savePosition keeps_unskill keeps_unposition : keeps.

Lemma keeps_updateSkills p q : keeps (updateSkills p q : M _).
Proof. unfold updateSkills. auto 6 with keeps. Qed.

Lemma keeps_updateWorkHistory p q : keeps (updateWorkHistory p q : M _).
Proof. unfold updateWorkHistory. auto 6 with keeps. Qed.

(** Accounts: users and their recommendations, their passwords, and no id
    beyond the last one given out. *)
Record accounts_ok (d : D) (n : Z) : Prop := {
  acc_counted : counted d;
  acc_range : 0 <= n <= maxLargestInt;
  acc_last : db_get d LAST_ID = Some (to_string n) \/ (n = 0 /\ db_get d LAST_ID = None);
  acc_fresh i : int64 i -> n < i -> db_get d (uuid_key i) = None /\ db_get d (recommendation_key i) = None;
  acc_password i p : user_is d i p -> db_get d (password_key (email p)) = Some (password p);
}.

Ltac no_index := solve [split; [let Hidx := fresh in by intros Hidx; inversion Hidx|done]|let Hidx := fresh in by intros Hidx; inversion Hidx].

Lemma accounts_same d d' n : same_accounts d d' -> accounts_ok d n -> accounts_ok d' n.
Proof.
  intros Hd [Hc Hr Hl Hf Hp]. split; [by rewrite <- Hd|done|by rewrite <- (Hd LAST_ID) by no_index| |].
  - intros i Hi Hn. destruct (Hf i Hi Hn) as [Hu Hrec]. by rewrite <- (Hd (uuid_key i)), <- (Hd (recommendation_key i)) by no_index.
  - intros i p Hip. rewrite <- Hd in Hip. rewrite <- (Hd (password_key (email p))) by no_index. by apply (Hp i).
Qed.

(** What is written under keys that no account uses. *)
Lemma counted_put d k v : other_key k -> (forall u, recommendation_key u <> k) -> counted d -> counted (db_put d k v).
Proof.
  intros Hk Hrk [Hok Hc]. pose proof (fun i p => user_put d i p k v Hk) as Huser. split.
  - intros i Hi Hu. destruct (Hok i Hi) as [p Hp]; [|exists p; by apply Huser]. rewrite get_put, decide_False in Hu; [done|]. intros E. by apply (proj2 Hk i).
  - intros i p Hp. apply Huser in Hp. destruct (Hc i p Hp) as (l & Hl & Hrest). exists l. split; [|done]. unfold recommended_by. rewrite get_put, decide_False; [exact Hl|]. intros E. by apply (Hrk i).
Qed.

Lemma mails_differ d i p j q : user_is d i p -> user_is d j q -> i <> j -> email p <> email q.
Proof.
  intros (_ & Hp & Hpi & _ & Hpm) (_ & Hq & Hqi & _ & Hqm) Hne E. rewrite E, Hqm in Hpm. apply (inj Some) in Hpm. apply person_text_inj in Hpm; [|done|done]. congruence.
Qed.

(** *** Creating *)

Lemma long_ok z : int64 z -> long z = Ret z.
Proof. intros [Hlo Hhi]. unfold long. by rewrite (proj2 (Z.leb_le _ _) Hlo), (proj2 (Z.leb_le _ _) Hhi). Qed.

Lemma run_generateID d n : accounts_ok d n -> n < maxLargestInt -> generateID (Some d) = Ret (inr (n + 1), Some (db_put d LAST_ID (to_string (n + 1)))).
Proof.
  intros [_ Hr Hl _ _] Hn. unfold generateID. rewrite (bind_ok _ _ _ _ _ (run_existsKey _ _ _)). destruct Hl as [-> |[-> ->]]; [|done]. cbn [truth negb].
  assert (stol (to_string n) (Some d) = Ret (inr n, Some d)) as E by (apply stol_to_string; unfold maxLargestInt in *; lia). rewrite (bind_ok _ _ _ _ _ E).
  assert (forall w : DBWrapper (D := D), pure (long (n + 1)) w = Ret (inr (n + 1), w)) as El by (intros w; unfold pure; rewrite long_ok; [done|unfold int64, minLargestInt, maxLargestInt in *; lia]).
  rewrite (bind_ok _ _ _ _ _ (El _)), (bind_ok _ _ _ _ _ (run_putKey _ _ _)). rewrite (bind_ok (stol _) _ _ n _) by (apply stol_to_string; unfold maxLargestInt in *; lia). apply El.
Qed.

(** The accounts after a new user. *)
Definition new_account (d : D) (q : Person) : D :=
  db_put (insert_user (db_put d LAST_ID (to_string (id q))) q) (password_key (email q)) (password q).

Lemma new_account_users d q j r : person_ok q -> db_get d (uuid_key (id q)) = None -> db_get d (mail_key (email q)) = None ->
  user_is (new_account d q) j r <-> if decide (id q = j) then r = q else user_is d j r.
Proof.
  intros Hq Hu Hm. unfold new_account. rewrite user_put by done. rewrite user_insert by (try done; by rewrite get_put, decide_False).
  case_decide; [done|]. by apply user_put.
Qed.

Lemma accounts_new d n q : accounts_ok d n -> n < maxLargestInt -> person_ok q -> id q = n + 1 -> totRecommendations q = 0 -> db_get d (mail_key (email q)) = None ->
  accounts_ok (new_account d q) (n + 1).
Proof.
  intros [Hc Hr Hl Hf Hp] Hn Hq Hid Ht Hm. assert (int64 (id q)) as Hi by apply Hq. destruct (Hf (id q) Hi) as [Hu Hrec]; [lia|]. split.
  - apply counted_put; [done|done|]. apply counted_insert; try done; [by apply counted_put|by rewrite get_put, decide_False..].
  - lia.
  - left. unfold new_account, insert_user. rewrite !get_put, (decide_False (P := password_key (email q) = LAST_ID)), (decide_False (P := uuid_key (id q) = LAST_ID)), (decide_False (P := mail_key (email q) = LAST_ID)) by done. by rewrite decide_True, Hid.
  - intros i Hi' Hni. destruct (Hf i Hi') as [Hu' Hrec']; [lia|]. unfold new_account, insert_user. rewrite !get_put. rewrite (decide_False (P := uuid_key (id q) = uuid_key i)) by (intros E%uuid_key_inj; (done || lia)).
    by rewrite !decide_False.
  - intros i r Hir. apply (new_account_users d q i r Hq Hu Hm) in Hir as Hir'. unfold new_account, insert_user. rewrite get_put. destruct (decide (id q = i)) as [E|E]; [subst r; by rewrite decide_True|].
    rewrite decide_False; [rewrite !get_put, !decide_False by done; by apply (Hp i)|]. intros Em%app_inv_head. destruct Hir' as (_ & _ & _ & _ & Hrm). rewrite <- Em in Hrm. congruence.
Qed.

(** *** The lists by skill and by position *)

(** A list when a mail is added to it, and after it was added under some names. *)
Definition listed (mail : list Z) (o : option (list Z)) : list Z := match o with Some l => l ++ [44] ++ mail | None => mail end.
Definition enlisted (mail : list Z) (names : list (list Z)) (n : list Z) (o : option (list Z)) : option (list Z) :=
  foldl (fun o x => if decide (x = n) then Some (listed mail o) else o) o names.

Definition put_listed (prefix mail : list Z) (d : D) (n : list Z) : D := db_put d (prefix ++ n) (listed mail (db_get d (prefix ++ n))).

Lemma put_listed_get prefix mail names d n : db_get (foldl (put_listed prefix mail) d names) (prefix ++ n) = enlisted mail names n (db_get d (prefix ++ n)).
Proof.
  revert d. induction names as [|x names IH]; intros d; [done|]. cbn [foldl enlisted]. rewrite IH. unfold enlisted. f_equal. unfold put_listed. rewrite get_put.
  destruct (decide (x = n)) as [->|Hne]; [by rewrite decide_True|]. rewrite decide_False; [done|]. by intros E%app_inv_head.
Qed.

Lemma put_listed_other prefix mail names d k : (forall n, k <> prefix ++ n) -> db_get (foldl (put_listed prefix mail) d names) k = db_get d k.
Proof. intros Hk. revert d. induction names as [|x names IH]; intros d; [done|]. cbn [foldl]. rewrite IH. unfold put_listed. rewrite get_put, decide_False; [done|]. intros E. by apply (Hk x). Qed.

Lemma run_saveSkill d s m : saveSkill s m (Some d) = Ret (inr tt, Some (put_listed USER_SKILL m d (to_lower (skill_name s)))).
Proof.
  unfold saveSkill. set (n := to_lower (skill_name s)). rewrite (bind_ok _ _ _ (listed m (db_get d (USER_SKILL ++ n))) (Some d)); [done|].
  unfold catch, getUserSkillKey, listed. unfold mbind, cpp_bind. rewrite run_existsKey. by destruct (db_get d _).
Qed.

Lemma run_savePosition d t m : savePosition t m (Some d) = Ret (inr tt, Some (put_listed USER_JOBPOSITION m d t)).
Proof.
  unfold savePosition. rewrite (bind_ok _ _ _ (listed m (db_get d (USER_JOBPOSITION ++ t))) (Some d)); [done|].
  unfold catch, getUserJobPositionKey, listed. unfold mbind, cpp_bind. rewrite run_existsKey. by destruct (db_get d _).
Qed.

Lemma run_for_each {A B} (l : list A) (f : A -> M unit) (g : D -> B -> D) (h : A -> B) d : (forall d x, f x (Some d) = Ret (inr tt, Some (g d (h x)))) ->
  for_each l f (Some d) = Ret (inr tt, Some (foldl g d (map h l))).
Proof. intros Hf. revert d. induction l as [|x l IH]; intros d; [done|]. cbn [for_each map foldl]. by rewrite (bind_ok _ _ _ _ _ (Hf d x)), IH. Qed.

Definition reads (j : json) (p : Person) : Prop := forall S (s : S), Person_deserializeMe j s = Ret (inr p, s).

(** The user that is stored for a new one. *)
Definition created (p : Person) (i : Z) : Person := setTotalRecommendations 0 (setId i p).

Lemma created_ok p i : person_ok p -> int64 i -> person_ok (created p i).
Proof. intros ((_ & Hs) & (Hlat & Hlong & _) & Hb) Hi. split; [by split|]. split; [|done]. split_and!; done. Qed.

(** The names under which a user is listed: a current job is listed under its
    title as it is, too. *)
Definition skill_names (p : Person) : list (list Z) := map (fun s => to_lower (skill_name s)) (skills p).
Definition position_names (p : Person) : list (list Z) :=
  map (fun w => to_lower (positionTitle w)) (workHistory p) ++ match getCurrentJob (workHistory p) with Some w => [positionTitle w] | None => [] end.

(** The database with all keys of a new user. *)
Definition with_keys (d : D) (q : Person) : D :=
  let d := db_put (db_put d LAST_ID (to_string (id q))) (mail_key (email q)) (FastWriter_write (person_value q)) in
  db_put (db_put (db_put d (name_key q) (email q)) (uuid_key (id q)) (email q)) (password_key (email q)) (password q).
Definition with_user (d : D) (q : Person) : D :=
  foldl (put_listed USER_JOBPOSITION (email q)) (foldl (put_listed USER_SKILL (email q)) (with_keys d q) (skill_names q)) (position_names q).

Lemma with_user_same d q : same_accounts (new_account d q) (with_user d q).
Proof.
  intros k [Hi Hn]. unfold with_user, with_keys, new_account, insert_user. rewrite !put_listed_other by (intros n ->; apply Hi; constructor). rewrite !get_put.
  by rewrite (decide_False (P := name_key q = k)) by (intros <-; by eapply Hn).
Qed.

Lemma run_savePerson d n j p : accounts_ok d n -> n < maxLargestInt -> reads j p ->
  savePerson j (-1) (Some d) =
    match db_get d (mail_key (email p)) with
    | Some _ => (pure (delete_person p);; throw UserAlreadyExistsException) (Some d)
    | None => (pure (delete_person p);; mret (n + 1)) (Some (with_user d (created p (n + 1))))
    end.
Proof.
  intros Hacc Hn Hj. unfold savePerson. rewrite (bind_ok _ _ _ _ _ (Hj _ _)), (bind_ok _ _ _ _ _ (run_userExistsMail _ _)).
  destruct (db_get d (mail_key (email p))) as [t|] eqn:Em.
  { by rewrite bool_decide_true. }
  rewrite bool_decide_false by (by intros [? ?]). cbn [Z.eqb Pos.eqb negb].
  rewrite (bind_ok _ _ _ _ _ (run_generateID d n Hacc Hn)). cbv zeta. fold (created p (n + 1)). set (q := created p (n + 1)).
  rewrite (bind_ok _ _ _ _ _ (run_saveUser q _)). do 3 (erewrite bind_ok by reflexivity). change (db_put _ (USER_PASSWORD ++ _) _) with (with_keys d q).
  unfold saveSkills, savePositions. rewrite (bind_ok _ _ _ _ _ (run_for_each _ _ (put_listed USER_SKILL (email p)) (fun s => to_lower (skill_name s)) _ (fun d s => run_saveSkill d s _))).
  rewrite (bind_ok _ _ _ _ _ (run_for_each _ _ (put_listed USER_JOBPOSITION (email p)) (fun w => to_lower (positionTitle w)) _ (fun d w => run_savePosition d _ _))).
  unfold with_user, position_names. rewrite foldl_app. set (d6 := foldl _ _ (map _ (workHistory q))).
  rewrite (bind_ok _ _ _ tt (Some (foldl (put_listed USER_JOBPOSITION (email q)) d6 match getCurrentJob (workHistory q) with Some w => [positionTitle w] | None => [] end))).
  - reflexivity.
  - destruct (getCurrentJob (workHistory q)) as [w|]; [|done]. by rewrite run_savePosition.
Qed.

Lemma run_delete_person {S A} p (m : cpp S A) (s : S) : brief p -> (pure (delete_person p);; m) s = m s.
Proof. intros Hb. by rewrite (bind_ok _ _ _ tt s) by (unfold pure; by rewrite delete_person_brief). Qed.

Lemma savePerson_long d n j p : accounts_ok d n -> n < maxLargestInt -> reads j p -> ~ brief p -> exists f, savePerson j (-1) (Some d) = Fault f.
Proof.
  intros Hacc Hn Hj [f E]%delete_person_long. exists f. rewrite (run_savePerson d n j p Hacc Hn Hj). unfold mbind, cpp_bind, pure. rewrite E. by destruct (db_get d _).
Qed.

(** A new account, with all that belongs to it. *)
Lemma account_created d n j p : accounts_ok d n -> n < maxLargestInt -> reads j p -> person_ok p -> brief p ->
  match db_get d (mail_key (email p)) with
  | Some _ => savePerson j (-1) (Some d) = Ret (inl UserAlreadyExistsException, Some d)
  | None => exists d', savePerson j (-1) (Some d) = Ret (inr (n + 1), Some d') /\ accounts_ok d' (n + 1) /\
      getUserById (n + 1) (Some d') = Ret (inr (created p (n + 1)), Some d') /\ db_get d' (password_key (email p)) = Some (password p) /\
      (forall i q, user_is d' i q <-> if decide (n + 1 = i) then q = created p (n + 1) else user_is d i q) /\
      db_get d' (name_key p) = Some (email p) /\
      (forall s, db_get d' (USER_SKILL ++ s) = enlisted (email p) (skill_names p) s (db_get d (USER_SKILL ++ s))) /\
      (forall s, db_get d' (USER_JOBPOSITION ++ s) = enlisted (email p) (position_names p) s (db_get d (USER_JOBPOSITION ++ s))) /\
      forall k, k ∉ [LAST_ID; mail_key (email p); name_key p; uuid_key (n + 1); password_key (email p)] -> ~ index_key k -> db_get d' k = db_get d k
  end.
Proof.
  intros Hacc Hn Hj Hp Hb. pose proof (run_savePerson d n j p Hacc Hn Hj) as Hrun. destruct (db_get d (mail_key (email p))) as [t|] eqn:Em; rewrite run_delete_person in Hrun by done; [done|].
  set (q := created p (n + 1)) in *. pose proof (with_user_same d q) as Hd. exists (with_user d q).
  assert (int64 (n + 1)) as Hi by (destruct Hacc as [_ Hr _ _ _]; unfold int64, minLargestInt, maxLargestInt in *; lia).
  assert (person_ok q) as Hq by by apply created_ok. assert (accounts_ok (with_user d q) (n + 1)) as Hacc' by (apply (accounts_same (new_account d q)); [done|by apply accounts_new]).
  destruct (acc_fresh _ _ Hacc (n + 1) Hi) as [Hu _]; [lia|].
  assert (forall i r, user_is (with_user d q) i r <-> if decide (n + 1 = i) then r = q else user_is d i r) as Huser by (intros i r; rewrite <- Hd, (new_account_users d q) by done; done).
  assert (user_is (with_user d q) (n + 1) q) as Hnew by (apply Huser; by rewrite decide_True).
  assert (forall prefix s, (forall k, k ∈ [LAST_ID; mail_key (email q); name_key q; uuid_key (id q); password_key (email q)] -> k <> prefix ++ s) -> db_get (with_keys d q) (prefix ++ s) = db_get d (prefix ++ s)) as Hkeys.
  { intros prefix s Hk. unfold with_keys. rewrite !get_put, !decide_False; [done|apply Hk; rewrite !elem_of_cons; tauto..]. }
  split_and!; [done|done|by apply run_getUserById|by apply (acc_password _ _ Hacc' (n + 1) q)|done|..].
  - unfold with_user. rewrite !put_listed_other by done. unfold with_keys. change (name_key p) with (name_key q). rewrite !get_put.
    rewrite (decide_False (P := password_key (email q) = name_key q)), (decide_False (P := uuid_key (id q) = name_key q)) by done. by rewrite decide_True.
  - intros s. unfold with_user. rewrite put_listed_other by done. rewrite put_listed_get, Hkeys; [done|]. intros k Hk. rewrite !elem_of_cons, elem_of_nil in Hk. destruct_or!; subst; done.
  - intros s. unfold with_user. rewrite put_listed_get, put_listed_other by done. rewrite Hkeys; [done|]. intros k Hk. rewrite !elem_of_cons, elem_of_nil in Hk. destruct_or!; subst; done.
  - intros k Hk Hx. unfold with_user. rewrite !put_listed_other by (intros s ->; apply Hx; constructor). unfold with_keys. rewrite !get_put, !decide_False; [done|intros <-; apply Hk; rewrite !elem_of_cons; tauto..].
Qed.

(** *** Deleting *)

(** What is left when a user goes; his own record may stay, without an id. *)
Definition removed (d : D) (i : Z) (p : Person) (d' : D) : Prop :=
  (db_get d' (uuid_key i) = None /\ db_get d' (password_key (email p)) = None /\ db_get d' (name_key p) = None) /\
  forall k, ~ index_key k -> k <> uuid_key i -> k <> password_key (email p) -> k <> name_key p -> k <> mail_key (email p) -> db_get d' k = db_get d k.

Lemma removed_keeps d i p d1 d2 : removed d i p d1 -> same_keys d1 d2 -> removed d i p d2.
Proof.
  intros [(Hu & Hw & Hn) Hk] Hd. split; [by rewrite <- (Hd (uuid_key i)), <- (Hd (password_key (email p))), <- (Hd (name_key p)) by no_index|].
  intros k Hi H1' H2' H3' H4'. rewrite <- (Hd k Hi). by apply Hk.
Qed.

Lemma removed_users d n i p d' j q : accounts_ok d n -> user_is d i p -> removed d i p d' -> user_is d' j q <-> j <> i /\ user_is d j q.
Proof.
  intros [[Hok _] _ _ _ _] Hp [(Hu & Hw & _) Hk]. assert (int64 i) as Hi by apply Hp.
  assert (forall j, int64 j -> j <> i -> db_get d' (uuid_key j) = db_get d (uuid_key j)) as Huuid.
  { intros j' Hj Hne. apply Hk; [no_index| |done..]. intros E. by apply Hne, uuid_key_inj. }
  assert (forall j q, user_is d j q -> j <> i -> db_get d' (mail_key (email q)) = db_get d (mail_key (email q))) as Hmail.
  { intros j' q' Hq Hne. apply Hk; [no_index|done..|]. intros E%mail_key_inj. by apply (mails_differ d j' q' i p Hq Hp Hne). }
  split.
  - intros (Hj & Hqok & Hqj & Hqu & Hqm). assert (j <> i) as Hne by (intros ->; congruence). split; [done|]. rewrite (Huuid j Hj Hne) in Hqu.
    destruct (Hok j Hj) as [q' Hq']; [by rewrite Hqu|]. assert (email q' = email q) as E. { destruct Hq' as (_ & _ & _ & Hq'u & _). congruence. }
    pose proof (Hmail j q' Hq' Hne) as Hm. rewrite E in Hm. unfold user_is. rewrite <- Hm. done.
  - intros [Hne Hq]. pose proof (Hmail j q Hq Hne) as Hm. destruct Hq as (Hj & Hqok & Hqj & Hqu & Hqm). unfold user_is. by rewrite Hm, (Huuid j Hj Hne).
Qed.

Lemma accounts_removed d n i p d' : accounts_ok d n -> user_is d i p -> removed d i p d' -> accounts_ok d' n.
Proof.
  intros Hacc Hp Hrem. pose proof (fun j q => removed_users d n i p d' j q Hacc Hp Hrem) as Huser. destruct Hrem as [(Hu & Hw & _) Hk]. destruct Hacc as [[Hok Hc] Hr Hl Hf Hpw].
  assert (forall j, int64 j -> j <> i -> db_get d' (uuid_key j) = db_get d (uuid_key j)) as Huuid.
  { intros j' Hj Hne. apply Hk; [no_index| |done..]. intros E. apply Hne, uuid_key_inj; [done|apply Hp|done]. }
  assert (forall u, db_get d' (recommendation_key u) = db_get d (recommendation_key u)) as Hrec by (intros u; by apply Hk; [no_index|..]).
  split; [split| | | |].
  - intros j Hj Hex. destruct (decide (j = i)) as [->|Hne]; [rewrite Hu in Hex; by destruct Hex|]. rewrite Huuid in Hex by done. destruct (Hok j Hj Hex) as [q Hq]. exists q. by apply Huser.
  - intros j q Hq. apply Huser in Hq as [Hne Hq]. destruct (Hc j q Hq) as (l & Hl' & Hrest). exists l. split; [|done]. unfold recommended_by. by rewrite Hrec.
  - done.
  - rewrite (Hk LAST_ID) by (done || no_index). done.
  - intros j Hj Hn. rewrite Hrec. destruct (Hf j Hj Hn) as [Hu' Hrec']. split; [|done]. destruct (decide (j = i)) as [->|Hne]; [done|]. by rewrite Huuid.
  - intros j q Hq. apply Huser in Hq as [Hne Hq]. rewrite (Hk (password_key (email q))); [by apply (Hpw j)|no_index|done| |done..]. intros E%app_inv_head. by apply (mails_differ d j q i p Hq Hp Hne).
Qed.

Lemma run_deletePerson_none d i : db_get d (uuid_key i) = None -> deletePerson i (Some d) = Ret (inl (UserNotFoundById i), Some d).
Proof. intros Hi. unfold deletePerson, getUserById, mbind, cpp_bind. rewrite run_existsKey. unfold uuid_key in Hi. by rewrite Hi. Qed.

(** The end of a deletion, after the keys of the user. *)
Lemma run_unlist d i p dx w : removed d i p dx ->
  exists r d', (for_each w (fun w => deleteUserFromJobPosition (positionTitle w) (email p));; deleteUser p) (Some dx) = Ret (r, Some d') /\ removed d i p d' /\ (r = inr tt -> db_get d' (mail_key (email p)) = None).
Proof.
  intros Hdx. destruct (keeps_for_each w (fun w => deleteUserFromJobPosition (positionTitle w) (email p)) (fun w => keeps_unposition _ _) dx) as ([e|[]] & d5 & E5 & H5).
  - exists (inl e), d5. rewrite (bind_exn _ _ _ _ _ E5). split; [done|]. split; [by apply (removed_keeps _ _ _ dx)|done].
  - rewrite (bind_ok _ _ _ _ _ E5). eexists _, _. split; [reflexivity|]. pose proof (removed_keeps _ _ _ _ _ Hdx H5) as [(Hu & Hw & Hn) Hk]. change (USER_MAIL_ID ++ email p) with (mail_key (email p)).
    split; [|intros _; by rewrite get_delete, decide_True]. split; [by rewrite !get_delete, !decide_False by done|]. intros k Hk1 Hk2 Hk3 Hk4 Hk5. rewrite get_delete, decide_False by congruence. by apply Hk.
Qed.

Lemma run_deletePerson d n i p : accounts_ok d n -> user_is d i p ->
  exists r d', deletePerson i (Some d) = Ret (r, Some d') /\ accounts_ok d' n /\ (forall j q, user_is d' j q <-> j <> i /\ user_is d j q) /\
    removed d i p d' /\ (r = inr tt -> db_get d' (mail_key (email p)) = None).
Proof.
  intros Hacc Hp. unfold deletePerson. rewrite (bind_ok _ _ _ _ _ (run_getUserById d i p Hp)).
  enough (exists r d', (deleteUserIdKey p;; deleteUserNameKey p;; deleteUserPasswordKey p;; for_each (skills p) (fun s => deleteUserFromSkill (skill_name s) (email p));;
      for_each (workHistory p) (fun w => deleteUserFromJobPosition (positionTitle w) (email p));; deleteUser p) (Some d) = Ret (r, Some d') /\ removed d i p d' /\ (r = inr tt -> db_get d' (mail_key (email p)) = None)) as (r & d' & E & Hrem & Hr).
  { pose proof (accounts_removed d n i p d' Hacc Hp Hrem) as Hacc'. pose proof (fun j q => removed_users d n i p d' j q Hacc Hp Hrem) as Huser. unfold catch. rewrite E.
    destruct r as [e|x]; [|by eexists _, d']. destruct e; by eexists _, d'. }
  do 3 (erewrite bind_ok by reflexivity). set (d3 := db_delete (db_delete (db_delete d _) _) _).
  assert (removed d i p d3) as H3.
  { assert (id p = i) as <- by apply Hp. unfold removed, d3. change (USER_UUID_ID ++ to_string (id p)) with (uuid_key (id p)). change (USER_PASSWORD ++ email p) with (password_key (email p)). change (USER_NAME_ID ++ _) with (name_key p).
    split; [split_and!; rewrite !get_delete|].
    - rewrite (decide_False (P := password_key (email p) = uuid_key (id p))) by done. rewrite (decide_False (P := name_key p = _)) by done. by rewrite decide_True.
    - by rewrite decide_True.
    - rewrite (decide_False (P := password_key (email p) = name_key p)) by done. by rewrite decide_True.
    - intros k Hk Hu Hw Hn Hm. by rewrite !get_delete, !decide_False by congruence. }
  destruct (keeps_for_each (skills p) (fun s => deleteUserFromSkill (skill_name s) (email p)) (fun s => keeps_unskill _ _) d3) as ([e|[]] & d4 & E4 & H4).
  - exists (inl e), d4. rewrite (bind_exn _ _ _ _ _ E4). split; [done|]. split; [by apply (removed_keeps _ _ _ d3)|done].
  - rewrite (bind_ok _ _ _ _ _ E4). apply run_unlist. by apply (removed_keeps _ _ _ d3).
Qed.

(** *** Changing *)

(** The record that replaces [old]. *)
Definition updated (old p : Person) : Person :=
  let q := setTotalRecommendations (totRecommendations old) (setEmail (email old) p) in
  let q := if bool_decide (password q = []) then setPassword (password old) q else q in
  let l := if Person.isEmpty (location q) then location old else location q in
  setLocation (latitude l) (longitude l) q.

Lemma setLocation_ok q a b : person_ok q -> readable a -> readable b -> person_ok (setLocation a b q).
Proof. intros (Hs & (_ & _ & Ht) & Hl) Ha Hb. exact (conj Hs (conj (conj Ha (conj Hb Ht)) Hl)). Qed.

Lemma updated_ok old p : person_ok old -> person_ok p -> person_ok (updated old p).
Proof.
  intros ((_ & _ & _ & Hmail & Hpass & _) & (Hlat & Hlong & Htot) & _) Hp. unfold updated. set (q := setTotalRecommendations _ _).
  assert (person_ok q) as Hq by (destruct Hp as ((Hi & Hf & Hl & _ & Hrest) & (Hla & Hlo & _) & Hb); exact (conj (conj Hi (conj Hf (conj Hl (conj Hmail Hrest)))) (conj (conj Hla (conj Hlo Htot)) Hb))).
  assert (person_ok (if bool_decide (password q = []) then setPassword (password old) q else q)) as Hq'.
  { case_match; [|done]. destruct Hq as ((Hi & Hf & Hl & Hm & _ & Hrest) & Hb). exact (conj (conj Hi (conj Hf (conj Hl (conj Hm (conj Hpass Hrest))))) Hb). }
  pose proof Hq' as (_ & (Hla & Hlo & _) & _). apply setLocation_ok; [done|by destruct (Person.isEmpty _)..].
Qed.

Lemma updated_fields old p : id (updated old p) = id p /\ email (updated old p) = email old /\ totRecommendations (updated old p) = totRecommendations old /\ getFullName (updated old p) = getFullName p.
Proof. unfold updated. by destruct (bool_decide _). Qed.

(** Writing the new record of a user and his password. *)
Definition write_account (d : D) (old q : Person) : D :=
  let d := if bool_decide (password old = password q) then d else db_put (db_delete d (password_key (email q))) (password_key (email q)) (password q) in
  db_put d (mail_key (email q)) (FastWriter_write (person_value q)).

Lemma write_account_users d old q j r : user_is d (id q) old -> person_ok q -> email q = email old ->
  user_is (write_account d old q) j r <-> if decide (id q = j) then r = q else user_is d j r.
Proof.
  intros Hold Hq Hm. unfold write_account. rewrite Hm. set (d1 := if bool_decide _ then d else _).
  assert (forall j r, user_is d1 j r <-> user_is d j r) as H1'.
  { intros j' r'. unfold d1. case_match; [done|]. unfold user_is. by rewrite !get_put, !get_delete, !decide_False. }
  rewrite (user_save d1 (id q) old q j) by (done || by apply H1'). case_decide; [done|]. apply H1'.
Qed.

Lemma accounts_write d n old q : accounts_ok d n -> user_is d (id q) old -> person_ok q -> email q = email old -> totRecommendations q = totRecommendations old ->
  accounts_ok (write_account d old q) n.
Proof.
  intros [[Hok Hc] Hr Hl Hf Hpw] Hold Hq Hm Ht. pose proof (fun j r => write_account_users d old q j r Hold Hq Hm) as Huser.
  assert (forall k, k <> mail_key (email q) -> k <> password_key (email q) -> db_get (write_account d old q) k = db_get d k) as Hget.
  { intros k Hk1 Hk2. unfold write_account. rewrite get_put, decide_False by congruence. case_match; [done|]. by rewrite get_put, get_delete, !decide_False by congruence. }
  assert (forall u l, recommended_by (write_account d old q) u l <-> recommended_by d u l) as Hrec by (intros u l; unfold recommended_by; by rewrite Hget).
  split; [split| | | |].
  - intros j Hj Hex. rewrite Hget in Hex by done. destruct (Hok j Hj Hex) as [r Hr']. destruct (decide (id q = j)) as [E|E]; [exists q|exists r]; apply Huser; [by rewrite decide_True|by rewrite decide_False].
  - intros j r Hj. apply Huser in Hj. case_decide as E; [subst j r|destruct (Hc j r Hj) as (l & Hl' & Hrest); exists l; split; [by apply Hrec|done]].
    destruct (Hc (id q) old Hold) as (l & Hl' & Hn & Hsz). exists l. split; [by apply Hrec|]. split; [done|congruence].
  - done.
  - by rewrite Hget.
  - intros j Hj Hn. by rewrite !Hget by done; apply Hf.
  - intros j r Hj. apply Huser in Hj. case_decide as E.
    + subst j r. unfold write_account. rewrite get_put, decide_False by done. case_bool_decide as Ep; [|by rewrite get_put, decide_True].
      rewrite Hm, <- Ep. by apply (Hpw (id q)).
    + rewrite Hget; [by apply (Hpw j)|done|]. intros Ek%app_inv_head. rewrite Hm in Ek. by apply (mails_differ d j r (id q) old Hj Hold (not_eq_sym E)).
Qed.

(** The end of [updateUser], after the indexes. *)
Definition save_changes (new_user old_user : Person) : M Z :=
  let new_user := setTotalRecommendations (totRecommendations old_user) new_user in
  new_user ← (if bool_decide (password new_user = []) then mret (setPassword (password old_user) new_user)
              else updatePassword new_user old_user;; mret new_user);
  let lat := if Person.isEmpty (location new_user) then latitude (location old_user) else latitude (location new_user) in
  let long := if Person.isEmpty (location new_user) then longitude (location old_user) else longitude (location new_user) in
  let new_user := setLocation lat long new_user in
  saveUser new_user;;
  pure (delete_person new_user);;
  mret (id new_user).

Lemma run_save_changes d old p : save_changes (setEmail (email old) p) old (Some d) = (pure (delete_person p);; mret (id p)) (Some (write_account d old (updated old p))).
Proof.
  unfold save_changes, write_account, updated. set (q := setTotalRecommendations _ _). destruct (bool_decide (password q = [])) eqn:Eq.
  - erewrite bind_ok by reflexivity. cbv zeta. set (q' := setPassword _ _).
    rewrite (bind_ok _ _ _ _ _ (run_saveUser _ _)). unfold location at 1. rewrite bool_decide_true by done. by destruct (Person.isEmpty (location q')).
  - assert (updatePassword q old (Some d) = Ret (inr tt, Some (if bool_decide (password old = password q) then d else db_put (db_delete d (password_key (email q))) (password_key (email q)) (password q)))) as E.
    { unfold updatePassword. destruct (decide (password old = password q)) as [E|E]; [by rewrite bool_decide_false, bool_decide_true by tauto|]. by rewrite bool_decide_true, bool_decide_false by done. }
    rewrite (bind_ok _ _ _ q _) by (by rewrite (bind_ok _ _ _ _ _ E)). cbv zeta. rewrite (bind_ok _ _ _ _ _ (run_saveUser _ _)). by destruct (Person.isEmpty (location q)).
Qed.

Lemma then_keeps {A} (m : M unit) (k : M A) d (Q : outcome ((exn + A) * DBWrapper (D := D)) -> Prop) : keeps m -> (forall e d', same_keys d d' -> Q (Ret (inl e, Some d'))) ->
  (forall d', same_keys d d' -> Q (k (Some d'))) -> Q ((m;; k) (Some d)).
Proof.
  intros Hm He Hk. destruct (Hm d) as ([e|[]] & d1 & E & Hd).
  - rewrite (bind_exn _ _ _ _ _ E). by apply He.
  - rewrite (bind_ok _ _ _ _ _ E). by apply Hk.
Qed.

(** The keys by name after a user was changed: a new name has a key, the old one
    has it no longer. *)
Definition name_entry (d : D) (old q : Person) (k : list Z) : option (list Z) :=
  if decide (getFullName old = getFullName q) then db_get d k else
  if decide (k = name_key q) then Some (email q) else if decide (k = name_key old) then None else db_get d k.

Definition renamed (d : D) (old q : Person) : D := if decide (getFullName old = getFullName q) then d else db_put (db_delete d (name_key old)) (name_key q) (email q).

Lemma run_updateName d q old : updateName q old (Some d) = Ret (inr tt, Some (renamed d old q)).
Proof. unfold updateName, renamed. case_decide; [by rewrite bool_decide_false by tauto|by rewrite bool_decide_true]. Qed.

Lemma renamed_same d old q : same_accounts d (renamed d old q).
Proof. intros k [_ Hk]. unfold renamed. case_decide; [done|]. rewrite get_put, get_delete, !decide_False; [done|by intros <-; eapply Hk..]. Qed.

Lemma renamed_names d old q k : db_get (renamed d old q) k = name_entry d old q k.
Proof. unfold renamed, name_entry. case_decide; [done|]. rewrite get_put, get_delete. by repeat case_decide; try congruence. Qed.

Lemma write_account_names d old q s : db_get (write_account d old q) (USER_NAME_ID ++ s) = db_get d (USER_NAME_ID ++ s).
Proof. unfold write_account. rewrite get_put, decide_False by done. case_match; [done|]. by rewrite get_put, get_delete, !decide_False. Qed.

(** What changing a user ends in. *)
Definition changed (d : D) (n : Z) (old p : Person) (x : outcome ((exn + Z) * DBWrapper (D := D))) : Prop :=
  match x with
  | Ret (r, Some d') => accounts_ok d' n /\
      (forall k q, user_is d' k q <-> if decide (id p = k) then q = match r with inr _ => updated old p | inl _ => old end else user_is d k q) /\
      forall s, db_get d' (USER_NAME_ID ++ s) = name_entry d old (updated old p) (USER_NAME_ID ++ s)
  | Ret (_, None) => False
  | Fault _ => ~ brief p
  end.

Lemma run_updateUser d n j p old : accounts_ok d n -> reads j p -> person_ok p -> user_is d (id p) old -> changed d n old p (updateUser j (Some d)).
Proof.
  intros Hacc Hj Hp Hold. unfold updateUser. rewrite (bind_ok _ _ _ _ _ (Hj _ _)). pose proof (run_getUserById d (id p) old Hold) as Eold.
  rewrite (bind_ok _ _ _ old (Some d)) by (unfold catch; by rewrite Eold). cbv zeta. set (p1 := setEmail (email old) p).
  destruct (updated_fields old p) as (Eid & Em & Et & Ename).
  assert (forall s d', same_keys (renamed d old p1) d' -> db_get d' (USER_NAME_ID ++ s) = name_entry d old (updated old p) (USER_NAME_ID ++ s)) as Hnames.
  { intros s d' Hd. rewrite <- (Hd (USER_NAME_ID ++ s)) by (intros Hx; inversion Hx). rewrite renamed_names. unfold name_entry, name_key. by rewrite Ename, Em. }
  pose proof (renamed_same d old p1) as Hren. set (d0 := renamed d old p1) in *.
  assert (forall e d', same_keys d0 d' -> changed d n old p (Ret (inl e, Some d'))) as Hexn.
  { intros e d' Hd. assert (same_accounts d d') as Hd' by (rewrite Hren; by apply same_keys_accounts). split; [by apply (accounts_same d)|]. split; [|intros s; by apply Hnames].
    intros k q. rewrite <- Hd'. case_decide as E; [|done]. subst k. split; [|by intros ->]. intros Hq. by apply (user_unique d (id p)). }
  rewrite (bind_ok _ _ _ _ _ (run_updateName d p1 old)). fold d0. change (changed d n old p ((updateSkills p1 old;; updateWorkHistory p1 old;; save_changes p1 old) (Some d0))).
  apply then_keeps; [apply keeps_updateSkills|by eauto|]. intros d2 H2'. apply then_keeps; [apply keeps_updateWorkHistory|intros; apply Hexn; by rewrite H2'|]. intros d3 H3'.
  assert (same_keys d0 d3) as H03 by (by rewrite H2'). assert (same_accounts d d3) as Hd3 by (rewrite Hren; by apply same_keys_accounts).
  pose proof (accounts_same _ _ _ Hd3 Hacc) as Hacc3. assert (user_is d3 (id p) old) as Hold3 by (by rewrite <- Hd3).
  assert (person_ok (updated old p)) as Hok by (apply updated_ok; [apply Hold|done]). rewrite <- Eid in Hold3. unfold p1. rewrite run_save_changes.
  destruct (decide (brief p)) as [Hb|Hb]; [rewrite run_delete_person by done|destruct (delete_person_long p Hb) as [f Ef]; unfold mbind, cpp_bind, pure; by rewrite Ef].
  split; [by apply accounts_write|]. split; [|intros s; rewrite write_account_names; by apply Hnames].
  intros k q. rewrite (write_account_users d3 old) by done. rewrite Eid. case_decide; [done|]. by rewrite <- Hd3.
Qed.

Lemma accounts_empty : accounts_ok db_empty 0.
Proof. split; [apply counted_empty|done|right; split; [done|apply get_empty]|intros; by rewrite !get_empty|]. intros i p (_ & _ & _ & Hu & _). by rewrite get_empty in Hu. Qed.
End accounts.

(** C22: creating a user from a body that reads as [p], with at most one job and
    one skill: when the mail is in use it throws and changes nothing; otherwise
    the next id is given out, the user is found under it with no recommendations
    yet, his password is kept for the login and his mail under his name, it is
    added to the list of each of his skills and positions and to no other, no
    other key changes, every other user stays as he was and the accounts stay
    consistent.  With more jobs or skills it faults, in the destructor of the
    temporary user. *)
Theorem savePerson_spec {D} `{LeveldbLaws D} `{Spare} (d : D) n j p : accounts_ok d n -> n < maxLargestInt -> reads j p -> person_ok p ->
  if decide (brief p) then
    match db_get d (mail_key (email p)) with
    | Some _ => savePerson j (-1) (Some d) = Ret (inl UserAlreadyExistsException, Some d)
    | None => exists d', savePerson j (-1) (Some d) = Ret (inr (n + 1), Some d') /\ accounts_ok d' (n + 1) /\
        getUserById (n + 1) (Some d') = Ret (inr (created p (n + 1)), Some d') /\ db_get d' (password_key (email p)) = Some (password p) /\
        (forall i q, user_is d' i q <-> if decide (n + 1 = i) then q = created p (n + 1) else user_is d i q) /\
        db_get d' (name_key p) = Some (email p) /\
        (forall s, db_get d' (USER_SKILL ++ s) = enlisted (email p) (skill_names p) s (db_get d (USER_SKILL ++ s))) /\
        (forall s, db_get d' (USER_JOBPOSITION ++ s) = enlisted (email p) (position_names p) s (db_get d (USER_JOBPOSITION ++ s))) /\
        forall k, k ∉ [LAST_ID; mail_key (email p); name_key p; uuid_key (n + 1); password_key (email p)] -> ~ index_key k -> db_get d' k = db_get d k
    end
  else exists f, savePerson j (-1) (Some d) = Fault f.
Proof. intros Hacc Hn Hj Hp. destruct (decide (brief p)); [by apply account_created|by apply (savePerson_long d n j p)]. Qed.

Lemma savePerson_spec_witness :
  let D := gmap (list Z) (list Z) in let _ : Spare := fun _ => [] in let p := sample_person 0 (lit "a@b.c") in
  exists d' : D, savePerson (norm (person_value p)) (-1) (Some ∅) = Ret (inr 1, Some d') /\ accounts_ok d' 1 /\ getUserById 1 (Some d') = Ret (inr (created p 1), Some d') /\
    db_get d' (USER_SKILL ++ lit "mathematics") = Some (lit "a@b.c").
Proof.
  intros D sp p. assert (person_ok p) as Hp by by apply sample_person_ok.
  destruct (savePerson_spec (∅ : D) 0 (norm (person_value p)) p accounts_empty ltac:(reflexivity) (fun S s => read_person p s Hp) Hp) as (d' & E & Hacc & Hget & _ & _ & _ & Hs & _).
  exact (ex_intro _ d' (conj E (conj Hacc (conj Hget (Hs (lit "mathematics")))))).
Defined.



(** The position of a user that leaves is left in the index, under the skill of
    this name, when there is one, somebody else's. *)
Example position_deletes_skill :
  let D := gmap (list Z) (list Z) in
  let d : D := <[USER_SKILL ++ lit "chef" := lit "x@y"]> (<[USER_JOBPOSITION ++ lit "chef" := lit "a@b"]> ∅) in
  deleteUserFromJobPosition (lit "chef") (lit "a@b") (Some d) = Ret (inr tt, Some (<[USER_JOBPOSITION ++ lit "chef" := lit "a@b"]> ∅)).
Proof. vm_compute. reflexivity. Qed.
