(* ===== verification/Sessions.v ===== *)
(** * Sessions (session/SessionManager.cpp)

    [saveToken] keeps a token with the mail, the id and the time of its last use,
    under the token, and the token under the mail; [getSession] finds and renews
    it.  The clock, [localtime] with [strftime] and [strptime] with [mktime] are
    the machine's, and [rand] is a list of numbers.  The array in which a login
    makes a token has no room for its terminator, so that a login with the right
    password faults there; the theorem is about the refused logins, this fault,
    and the sessions of the tokens that are saved. *)

From Stdlib Require Import ZArith Lia String.
From stdpp Require Import base list numbers option gmap.
From S2P Require Import Prelude Strs Cpp Double Json JsonReader JsonSafe JsonRoundtrip Store Person Manager Recommendations Messages Users.

Local Open Scope Z_scope.

(** ** The code *)

(** [strptime] and [mktime]; the first argument is what the [tm_isdst] of the
    structure between them, which nothing initialises, happens to be. *)
Class ParseTime := parse_time : Z -> list Z -> Z.

Definition USER_TOKEN : list Z := lit "user:token_".

Record Session := mk_session { token : list Z; user_mail : list Z; last_time : Z; user_id : Z }.

Definition alphanum : list Z := lit "0123456789ABCDEFGHIJKLMNOPQRSTUVWXYZabcdefghijklmnopqrstuvwxyz".
Definition token_length : Z := 8.

(** The loop of [getNewToken]; [frame] is the array. *)
Definition fill_token (rands frame : list Z) : outcome (list Z) :=
  loop (S (Z.to_nat token_length)) (fun '(i, frame) =>
    if i <? token_length then
      r ← rd rands i; c ← rd alphanum (r mod (size (alphanum ++ [0]) - 1));
      frame ← wr frame i c; mret (inl (i + 1, frame))
    else mret (inr frame)) (0, frame).

Definition getNewToken (rands : list Z) : outcome (list Z) :=
  frame ← fill_token rands (replicate 8 0);
  frame ← wr frame token_length 0;
  mret (take_while (fun c => negb (c =? 0)) frame).

Section code.
Context {D : Type} `{Leveldb D} `{Spare} `{LocalTime} `{ParseTime}.
Abbreviation M := (cpp (DBWrapper (D := D))).

(** The two values of a token. *)
Definition token_json (tok now : list Z) : M json := v ← assign JNull (lit "user_token") (JString tok); assign v (lit "last_used") (JString now).
Definition session_json (mail : list Z) (uid : Z) (now : list Z) : M json :=
  v ← assign JNull (lit "user_mail") (JString mail); v ← assign v (lit "user_id") (JInt uid); assign v (lit "last_used") (JString now).

Definition saveToken (time : Z) (tok mail : list Z) : M unit :=
  let now := format_time time in
  jtoken ← token_json tok now;
  user ← getUserByMail mail;
  pure (delete_person user);;
  jtoken2 ← session_json mail (id user) now;
  putKey (USER_TOKEN ++ mail) (FastWriter_write jtoken);;
  putKey (USER_TOKEN ++ tok) (FastWriter_write jtoken2);;
  mret tt.

Definition login (rands : list Z) (time : Z) (mail user_password : list Z) : M (list Z) :=
  '(found, user_bdd_pasword) ← existsKey (USER_PASSWORD ++ mail) [];
  if negb (truth found) then throw (UserNotFoundByMail mail) else
  if bool_decide (user_bdd_pasword <> user_password) then throw InvalidPasswordException else
  new_token ← pure (getNewToken rands);
  saveToken time new_token mail;;
  mret new_token.

Definition facebookLogin (rands : list Z) (time : Z) (mail : list Z) : M (list Z) :=
  '(found, _) ← existsKey (USER_PASSWORD ++ mail) [];
  if negb (truth found) then throw (UserNotFoundByMail mail) else
  new_token ← pure (getNewToken rands);
  saveToken time new_token mail;;
  mret new_token.

Definition getUserId (tok : list Z) : M Z :=
  '(_, token_information) ← getKey (USER_TOKEN ++ tok) [];
  '(_, token_information_json) ← parse_string (c_str token_information) JNull;
  long_member token_information_json (lit "user_id").

(** [difftime] is exact on the times of a clock. *)
Definition tokenExpired (isdst now : Z) (last_time_used : list Z) : bool := 14400 <? now - parse_time isdst (c_str last_time_used).

Definition updateToken (time : Z) (tok mail : list Z) : M unit :=
  '(found, token_information) ← existsKey (USER_TOKEN ++ tok) [];
  if negb (truth found) then throw InvalidTokenException else
  '(_, json_token_information) ← parse_string (c_str token_information) JNull;
  uid ← long_member json_token_information (lit "user_id");
  let now := format_time time in
  jtoken ← token_json tok now;
  jtoken2 ← session_json mail uid now;
  putKey (USER_TOKEN ++ mail) (FastWriter_write jtoken);;
  putKey (USER_TOKEN ++ tok) (FastWriter_write jtoken2);;
  mret tt.

(** The three times are those at which the clock is read. *)
Definition getSession (isdst t1 t2 t3 : Z) (tok : list Z) : M Session :=
  '(found, token_information) ← existsKey (USER_TOKEN ++ tok) [];
  if negb (truth found) then throw InvalidTokenException else
  '(_, json_token_information) ← parse_string (c_str token_information) JNull;
  last_time_used ← string_member json_token_information (lit "last_used");
  if tokenExpired isdst t1 last_time_used then throw TokenExpiredException else
  mail ← string_member json_token_information (lit "user_mail");
  updateToken t2 tok mail;;
  mail ← string_member json_token_information (lit "user_mail");
  uid ← getUserId tok;
  mret (mk_session tok mail t3 uid).
End code.

(** ** Tokens *)

Definition token_char (r : Z) : Z := default 0 (alphanum !! Z.to_nat (r mod 62)).

Lemma token_char_rd r : rd alphanum (r mod (size (alphanum ++ [0]) - 1)) = Ret (token_char r).
Proof.
  change (size (alphanum ++ [0]) - 1) with 62. pose proof (Z.mod_pos_bound r 62 ltac:(lia)) as Hr. unfold token_char.
  destruct (rd_total alphanum (r mod 62)) as (c & Hc & ->); [change (size alphanum) with 62; lia|]. by rewrite Hc.
Qed.

Lemma token_char_range r : is_byte (token_char r) /\ token_char r <> 0.
Proof.
  pose proof (Z.mod_pos_bound r 62 ltac:(lia)) as Hr.
  assert (forallb (fun c => (0 <? c) && (c <? 256)) alphanum = true) as H by reflexivity. rewrite forallb_forall in H.
  destruct (rd_total alphanum (r mod 62)) as (c & Hc & _); [change (size alphanum) with 62; lia|]. unfold token_char, is_byte. rewrite Hc. cbn [default from_option]. change (Datatypes.id c) with c.
  specialize (H c (proj1 (list_elem_of_In _ _) (list_elem_of_lookup_2 _ _ _ Hc))). cbv beta in H. lia.
Qed.

Lemma fill_token_spec rands : length rands = 8%nat -> fill_token rands (replicate 8 0) = Ret (map token_char rands).
Proof.
  intros Hl. apply wp_eq. unfold fill_token. change (Z.to_nat token_length) with 8%nat.
  apply wp_loop with (m := fun st => Z.to_nat (8 - st.1)) (I := fun '(i, frame) => 0 <= i <= 8 /\ frame = map token_char (take (Z.to_nat i) rands) ++ replicate (Z.to_nat (8 - i)) 0).
  - intros [i frame] [Hi ->]. change token_length with 8. wp_step.
    + destruct (rd_total rands i) as (r & Hr & Er); [unfold size; lia|]. rewrite Er. cbn [mbind outcome_bind]. rewrite token_char_rd. cbn [mbind outcome_bind].
      replace (Z.to_nat (8 - i)) with (S (Z.to_nat (8 - (i + 1)))) by lia. cbn [replicate]. rewrite wr_after by (unfold size; rewrite length_map, length_take; lia).
      cbn [mbind outcome_bind]. apply wp_mret. split; [|simpl; lia]. split; [lia|]. replace (Z.to_nat (i + 1)) with (S (Z.to_nat i)) by lia. rewrite (take_S_r _ _ _ Hr), map_app, <- app_assoc. done.
    + apply wp_mret. assert (i = 8) as -> by lia. change (Z.to_nat 8) with 8%nat. rewrite take_ge by lia. by rewrite app_nil_r.
  - split; [lia|done].
  - simpl. lia.
Qed.

(** The eight characters fill the array; the terminator is written behind it. *)
Lemma getNewToken_overflow rands : length rands = 8%nat -> getNewToken rands = Fault OutOfBounds.
Proof.
  intros Hl. unfold getNewToken. rewrite fill_token_spec by done. cbn [mbind outcome_bind]. unfold wr, size. by rewrite length_map, Hl.
Qed.

(** ** Sessions that are kept *)

(** The times of the machine's clock that [strftime] writes as a text: those of
    years of four digits. *)
Class ClockRange := clock_ok : Z -> Prop.
Class ClockTexts `{LocalTime} `{ClockRange} : Prop := {
  time_bytes t : clock_ok t -> bytes (format_time t);
  time_no_nul t : clock_ok t -> no_nul (format_time t);
}.

(** In a zone that has no summer time [mktime] gives them back, whatever
    [tm_isdst] is. *)
Class ClockLaws `{LocalTime} `{ParseTime} `{ClockRange} : Prop := {
  clock_texts :: ClockTexts;
  time_back isdst t : clock_ok t -> parse_time isdst (format_time t) = t;
}.

(** Elsewhere it may be wrong by [e] seconds: an hour, when [tm_isdst] is wrong. *)
Definition read_within `{LocalTime} `{ParseTime} `{ClockRange} (e isdst : Z) : Prop := forall t, clock_ok t -> Z.abs (parse_time isdst (format_time t) - t) <= e.

Definition token_key (tok : list Z) : list Z := USER_TOKEN ++ tok.
Definition token_value (tok now : list Z) : json := JObject [(lit "last_used", JString now); (lit "user_token", JString tok)].
Definition session_value (mail : list Z) (uid : Z) (now : list Z) : json :=
  JObject [(lit "last_used", JString now); (lit "user_id", JInt uid); (lit "user_mail", JString mail)].

Lemma session_storable mail uid now : bytes mail -> int64 uid -> bytes now -> storable (session_value mail uid now).
Proof. intros Hm Hi Hn. split; [apply jwf_strings_object; [done|]; each_member; done|done]. Qed.

Section run.
Context {D : Type} `{LeveldbLaws D} `{Spare} `{ClockTexts} `{ParseTime}.
Abbreviation M := (cpp (DBWrapper (D := D))).

(** A session of a user, last used at a time. *)
Definition live (d : D) (tok mail : list Z) (uid time : Z) : Prop :=
  clock_ok time /\ db_get d (token_key tok) = Some (FastWriter_write (session_value mail uid (format_time time))).

(** What a login and every use write. *)
Definition write_session (d : D) (tok mail : list Z) (uid time : Z) : D :=
  db_put (db_put d (token_key mail) (FastWriter_write (token_value tok (format_time time)))) (token_key tok) (FastWriter_write (session_value mail uid (format_time time))).

Lemma write_live d tok mail uid time : clock_ok time -> live (write_session d tok mail uid time) tok mail uid time.
Proof. intros Ht. split; [exact Ht|]. unfold write_session. by rewrite get_put, decide_True. Qed.

Lemma run_saveToken d time tok mail p : person_ok p -> brief p -> db_get d (mail_key mail) = Some (FastWriter_write (person_value p)) ->
  saveToken time tok mail (Some d) = Ret (inr tt, Some (write_session d tok mail (id p) time)).
Proof.
  intros Hp Hb Hm. unfold saveToken. rewrite (bind_ok _ _ _ (token_value tok (format_time time)) (Some d)) by done.
  rewrite (bind_ok _ _ _ _ _ (run_getUserByMail d mail p Hp Hm)). rewrite run_delete_person by done. rewrite (bind_ok _ _ _ (session_value mail (id p) (format_time time)) (Some d)) by done. done.
Qed.

Lemma run_parse_session d tok mail uid time : live d tok mail uid time -> bytes mail -> int64 uid ->
  existsKey (USER_TOKEN ++ tok) [] (Some d) = Ret (inr (ERROR, FastWriter_write (session_value mail uid (format_time time))), Some d) /\
  forall (w : DBWrapper (D := D)), parse_string (c_str (FastWriter_write (session_value mail uid (format_time time)))) JNull w = Ret (inr (true, norm (session_value mail uid (format_time time))), w).
Proof.
  intros [Ht Hl] Hm Hi. pose proof (session_storable mail uid (format_time time) Hm Hi (time_bytes time Ht)) as Hs. split.
  - rewrite run_existsKey. unfold token_key in Hl. by rewrite Hl.
  - intros w. rewrite c_str_written by apply Hs. by apply parse_written.
Qed.

Lemma run_updateToken d tok mail mail' uid time now : live d tok mail uid time -> bytes mail -> int64 uid ->
  updateToken now tok mail' (Some d) = Ret (inr tt, Some (write_session d tok mail' uid now)).
Proof.
  intros Hl Hm Hi. destruct (run_parse_session d tok mail uid time Hl Hm Hi) as [Ee Ep]. unfold updateToken. rewrite (bind_ok _ _ _ _ _ Ee). cbn [truth negb].
  rewrite (bind_ok _ _ _ _ _ (Ep _)). rewrite (bind_ok _ _ _ uid (Some d)) by (unfold long_member; rewrite (bind_ok _ _ _ (norm (JInt uid)) (Some d)) by done; by apply asLargestInt_norm).
  rewrite (bind_ok _ _ _ (token_value tok (format_time now)) (Some d)) by done. rewrite (bind_ok _ _ _ (session_value mail' uid (format_time now)) (Some d)) by done. done.
Qed.

Lemma run_getUserId d tok mail uid time : live d tok mail uid time -> bytes mail -> int64 uid -> getUserId tok (Some d) = Ret (inr uid, Some d).
Proof.
  intros Hl Hm Hi. destruct (run_parse_session d tok mail uid time Hl Hm Hi) as [_ Ep]. unfold getUserId. rewrite (bind_ok _ _ _ _ _ (run_getKey _ _ _)). destruct Hl as [_ Hl]. unfold token_key in Hl. rewrite Hl.
  rewrite (bind_ok _ _ _ _ _ (Ep _)). unfold long_member. rewrite (bind_ok _ _ _ (norm (JInt uid)) (Some d)) by done. by apply asLargestInt_norm.
Qed.

(** A use of a token: in time it is renewed, too late it is refused. *)
Lemma run_getSession d tok mail uid time isdst t1 t2 t3 : live d tok mail uid time -> (t1 - parse_time isdst (format_time time) <= 14400 -> clock_ok t2) -> bytes mail -> int64 uid ->
  getSession isdst t1 t2 t3 tok (Some d) =
    if 14400 <? t1 - parse_time isdst (format_time time) then Ret (inl TokenExpiredException, Some d) else Ret (inr (mk_session tok mail t3 uid), Some (write_session d tok mail uid t2)).
Proof.
  intros Hl Ht2 Hm Hi. destruct (run_parse_session d tok mail uid time Hl Hm Hi) as [Ee Ep]. unfold getSession. rewrite (bind_ok _ _ _ _ _ Ee). cbn [truth negb].
  rewrite (bind_ok _ _ _ _ _ (Ep _)). rewrite (bind_ok _ _ _ (format_time time) (Some d)) by done. unfold tokenExpired. rewrite c_str_no_nul by (apply time_no_nul, Hl).
  destruct (Z.ltb_spec 14400 (t1 - parse_time isdst (format_time time))) as [?|Hin]; [done|]. rewrite (bind_ok _ _ _ mail (Some d)) by done. rewrite (bind_ok _ _ _ _ _ (run_updateToken d tok mail mail uid time t2 Hl Hm Hi)).
  rewrite (bind_ok _ _ _ mail _) by done. by rewrite (bind_ok _ _ _ _ _ (run_getUserId _ tok mail uid t2 (write_live _ _ _ _ _ (Ht2 Hin)) Hm Hi)).
Qed.

(** Uses one after the other, each at most four hours less [e] seconds after the
    last. *)
Fixpoint in_time (e last : Z) (uses : list (Z * Z * Z)) : Prop :=
  match uses with [] => True | (t1, t2, t3) :: r => t1 - last <= 14400 - e /\ clock_ok t2 /\ in_time e t2 r end.
Definition last_use (time : Z) (uses : list (Z * Z * Z)) : Z := foldl (fun _ '(_, t2, _) => t2) time uses.

Definition use_session (isdst : Z) (tok : list Z) (uses : list (Z * Z * Z)) : M (list Session) := map_each uses (fun '(t1, t2, t3) => getSession isdst t1 t2 t3 tok).

Lemma run_uses e isdst tok mail uid : read_within e isdst -> bytes mail -> int64 uid -> forall uses d time, live d tok mail uid time -> in_time e time uses ->
  exists d', use_session isdst tok uses (Some d) = Ret (inr (map (fun '(_, _, t3) => mk_session tok mail t3 uid) uses), Some d') /\ live d' tok mail uid (last_use time uses).
Proof.
  intros He Hm Hi. unfold use_session. induction uses as [|[[t1 t2] t3] uses IH]; intros d time Hl Hin; [by exists d|]. destruct Hin as (Ht & Ht2 & Hin). cbn [map_each map].
  pose proof (run_getSession d tok mail uid time isdst t1 t2 t3 Hl (fun _ => Ht2) Hm Hi) as E. pose proof (He time (proj1 Hl)). rewrite (proj2 (Z.ltb_ge _ _)) in E by lia. rewrite (bind_ok _ _ _ _ _ E).
  destruct (IH _ t2 (write_live d tok mail uid t2 Ht2) Hin) as (d' & E' & Hl'). rewrite (bind_ok _ _ _ _ _ E'). by exists d'.
Qed.
End run.


Lemma to_string_nonzero z : no_nul (to_string z).
Proof. apply to_string_forall; [done|]. lia. Qed.

(** A clock that counts seconds. *)
Definition second_text : LocalTime := to_string.
Definition text_second : ParseTime := fun _ s => match stol s tt with Ret (inr z, _) => z | _ => 0 end.
Definition seconds : ClockRange := int64.

Lemma seconds_laws : @ClockLaws second_text text_second seconds.
Proof.
  split; [split; [intros t _; apply to_string_bytes|intros t _; apply to_string_nonzero]|]. intros isdst t Ht. unfold parse_time, text_second, format_time, second_text.
  rewrite stol_to_string; [done|]. unfold clock_ok, seconds, int64, minLargestInt, maxLargestInt in Ht. lia.
Qed.

(** The same clock where a positive [tm_isdst] moves the time by an hour. *)
Definition summer_second : ParseTime := fun isdst s => text_second isdst s - if 0 <? isdst then 3600 else 0.

Lemma summer_within isdst : @read_within second_text summer_second seconds 3600 isdst.
Proof. intros t Ht. pose proof (@time_back _ _ _ seconds_laws isdst t Ht) as E. unfold parse_time, summer_second in *. rewrite E. case_match; lia. Qed.


(** The information of a token is kept under the mail too, so that a mail is
    accepted as a token, of a session of no user. *)
Example mail_is_a_token :
  let D := gmap (list Z) (list Z) in let _ : Spare := fun _ => [] in
  let _ := second_text in let _ := text_second in
  let d : D := write_session ∅ (lit "aToken12") (lit "a@b.c") 7 100 in
  match getSession 0 200 200 201 (lit "a@b.c") (Some d) with
  | Ret (r, _) => r = inr (mk_session (lit "a@b.c") [] 201 0)
  | _ => False
  end.
Proof. vm_compute. reflexivity. Qed.
