(* ===== verification/Directory.v ===== *)
(** * Contacts, notification tokens and listings of users (person/PersonManager.cpp)

    The methods of [PersonManager] that check the users of a request about
    contacts or notification tokens before the manager of that part works, and
    those that go through the database with an iterator: all users, their ids and
    the conversations of one of them.  The theorem says that the listings find
    exactly the accounts, whatever else the database holds. *)

From Stdlib Require Import ZArith Lia String.
From stdpp Require Import base list numbers option gmap sorting.
From S2P Require Import Prelude Strs Cpp Double Json JsonReader JsonSafe JsonRoundtrip Store Relations Person Manager Recommendations Messages Users.

Local Open Scope Z_scope.

(** ** The code *)

Definition TOKEN_KEY : list Z := lit "token".
Definition TOKEN_KEY_FOR_DATABASE : list Z := lit "notifications_token_".

Record Conversation := mk_conversation { with_user : Z; first_name : list Z; last_name : list Z; unread_count : Z }.

(** The first element of a vector. *)
Definition first {A} (l : list A) : outcome A := rd l 0.

(** The comparison of a key with the end of a range. *)
Definition key_below (end_slice : list Z) (kv : list Z * list Z) : bool := match key_compare kv.1 end_slice with Lt => true | _ => false end.

Section code.
Context {D : Type} `{Leveldb D} `{Spare}.
Abbreviation M := (cpp (DBWrapper (D := D))).

(** *** NotificationTokenManager *)

Definition getTokenByUserId (userId : Z) : M (list Z) :=
  '(found, result) ← existsKey (TOKEN_KEY_FOR_DATABASE ++ to_string userId) [];
  if truth found then mret result else throw (NonexistentNotificationToken userId).

Definition setOrUpdateToken (userId : Z) (tok : list Z) : M unit := putKey (TOKEN_KEY_FOR_DATABASE ++ to_string userId) tok;; mret tt.

(** *** Conversation *)

Definition Conversation_serializeMe (c : Conversation) : M json :=
  v ← assign JNull (lit "with") (JInt (with_user c));
  v ← assign v (lit "first_name") (JString (first_name c));
  v ← assign v (lit "last_name") (JString (last_name c));
  assign v (lit "unread_count") (JInt (unread_count c)).

(** *** RecommendationsManager *)

Definition getRecommendationsAsJson (userId : Z) : M json :=
  recommendations ← getRecommendationsByUserId userId;
  append_each (JArray []) recommendations (fun x => mret (JInt x)).

(** *** PersonManager *)

Definition PersonManager_getContactsByUserId (i : Z) : M (list Contact) :=
  found ← userExists i;
  if negb found then throw (UserNotFoundById i) else Relations.getContactsByUserId i.

Definition saveOrUpdateRelation (relation : json) : M unit :=
  authorId ← long_member relation (lit "author_id");
  contactId ← long_member relation (lit "contact_id");
  a ← userExists authorId;
  if negb a then throw (UserNotFoundById authorId) else
  c ← userExists contactId;
  if negb c then throw (UserNotFoundById contactId) else
  if authorId =? contactId then throw (InvalidRequestException (lit "Author user and contact user cannot be equals")) else
  action ← string_member relation (lit "action");
  saveRelation authorId contactId action.

Definition getNotificationTokenByUserId (userId : Z) : M (list Z) :=
  found ← userExists userId;
  if negb found then throw (UserNotFoundById userId) else getTokenByUserId userId.

Definition setOrUpdateNotificationToken (request : json) (userId : Z) : M unit :=
  m ← isMember request TOKEN_KEY;
  if negb m then throw (InvalidRequestException (lit "Missing token")) else
  found ← userExists userId;
  if negb found then throw (UserNotFoundById userId) else
  tok ← string_member request TOKEN_KEY;
  setOrUpdateToken userId tok.

(** The loop of an iterator over the entries of a range that are not empty. *)
Definition records (start : list Z) (more : list Z * list Z -> bool) : M (list (list Z * list Z)) :=
  entries ← seek start; mret (List.filter (fun kv => negb (bool_decide (kv.2 = []))) (take_while more entries)).

Definition getAllUsers : M (list Person) :=
  rs ← records USER_MAIL_ID (key_below USER_NAME_ID);
  map_each rs (fun kv => juser ← getJsonFromString kv.2; Person_deserializeMe juser).

(** The range ends at the key [USER_MAIL_ID] itself, behind the start: the loop
    goes on to the end of the database. *)
Definition getAllUsersIds : M (list Z) :=
  rs ← records USER_UUID_ID (fun kv => bool_decide (kv.1 <> USER_MAIL_ID));
  map_each rs (fun kv => stol (drop (length USER_UUID_ID) kv.1)).

(** The loop of [getAllConversations]. *)
Fixpoint conversations_with (userId : Z) (ids : list Z) (conversations : list Conversation) : M (list Conversation) :=
  match ids with
  | [] => mret conversations
  | i :: ids =>
      conversations ←
        (if negb (userId =? i) then
           messages ← MessagesManager_getMessages userId i;
           if negb (size messages =? 0) then
             person ← getUserById i;
             n ← getUnreadCount userId i;
             mret (conversations ++ [mk_conversation i (firstName person) (lastName person) n])
           else mret conversations
         else mret conversations);
      conversations_with userId ids conversations
  end.

Definition getAllConversations (userId : Z) : M (list Conversation) :=
  ids ← getAllUsersIds;
  conversations_with userId ids [].

(** The full name in the key of a name. *)
Definition getCleanName_FromKey (key : list Z) : M (list Z) :=
  full_name ← pure (rd (split key 95) 1);
  let clean_full_name := concat (map (fun x => x ++ [32]) (split full_name 45)) in
  mret (removelast clean_full_name).
End code.

(** ** The listing of users *)

(** On keys in order, the range of an iterator is a filter. *)
Lemma key_compare_flip a b : key_compare a b = Lt <-> key_compare b a = Gt.
Proof. rewrite (key_compare_antisym a b). by destruct (key_compare a b). Qed.

Lemma key_below_mono k a b : key_le a b -> key_below k b = true -> key_below k a = true.
Proof.
  unfold key_below, key_le. intros Hab Hb. destruct (key_compare a.1 k) eqn:E; [|done|].
  - apply key_compare_eq in E. subst k. rewrite (key_compare_antisym a.1 b.1) in Hb. by destruct (key_compare a.1 b.1).
  - destruct (key_compare b.1 k) eqn:Ebk; try done. exfalso. assert (key_compare a.1 k <> Gt) as Hc; [|by rewrite E in Hc]. apply (key_compare_trans a.1 b.1 k); [done|by rewrite Ebk].
Qed.

Lemma drop_while_below k l : StronglySorted key_le l -> drop_while (key_below k) l = List.filter (fun kv => negb (key_below k kv)) l.
Proof.
  induction 1 as [|a l Hs IH Hl]; [done|]. cbn [drop_while List.filter]. destruct (key_below k a) eqn:E; [exact IH|]. cbn [negb]. f_equal. symmetry. apply List.forallb_filter_id.
  apply List.forallb_forall. intros b Hb. rewrite List.Forall_forall in Hl. destruct (key_below k b) eqn:Eb; [|done]. by rewrite (key_below_mono k a b (Hl b Hb) Eb) in E.
Qed.

Lemma take_while_below k l : StronglySorted key_le l -> take_while (key_below k) l = List.filter (key_below k) l.
Proof.
  induction 1 as [|a l Hs IH Hl]; [done|]. cbn [take_while List.filter]. destruct (key_below k a) eqn:E; [by rewrite IH|]. symmetry.
  destruct (List.filter (key_below k) l) as [|b r] eqn:Ef; [done|]. assert (In b (List.filter (key_below k) l)) as Hb by (rewrite Ef; by left). apply filter_In in Hb as [Hb Hbk].
  rewrite List.Forall_forall in Hl. by rewrite (key_below_mono k a b (Hl b Hb) Hbk) in E.
Qed.

Lemma sorted_filter (f : list Z * list Z -> bool) l : StronglySorted key_le l -> StronglySorted key_le (List.filter f l).
Proof.
  induction 1 as [|a l Hs IH Hl]; [constructor|]. cbn [List.filter]. destruct (f a); [|done]. constructor; [done|]. apply List.Forall_forall. intros b [Hb _]%filter_In.
  rewrite List.Forall_forall in Hl. by apply Hl.
Qed.

Lemma filter_keys_nodup (f : list Z * list Z -> bool) l : NoDup (map fst l) -> NoDup (map fst (List.filter f l)).
Proof.
  induction l as [|x l IH]; [done|]. cbn [map List.filter]. intros [Hx Hl]%NoDup_cons. destruct (f x); [|by apply IH]. cbn [map]. apply NoDup_cons. split; [|by apply IH].
  intros (y & Hy & [Hin _]%filter_In)%list_elem_of_In%in_map_iff. apply Hx, list_elem_of_In, in_map_iff. by exists y.
Qed.

Section listing.
Context {D : Type} `{LeveldbLaws D} `{Spare}.
Implicit Types d : D.

Definition in_range (start stop : list Z) (kv : list Z * list Z) : bool := negb (key_below start kv) && (key_below stop kv && negb (bool_decide (kv.2 = []))).

Lemma filter_filter (f g : list Z * list Z -> bool) l : List.filter f (List.filter g l) = List.filter (fun x => g x && f x) l.
Proof. induction l as [|x l IH]; [done|]. cbn [List.filter]. destruct (g x); cbn [List.filter andb]; [destruct (f x)|]; by rewrite IH. Qed.

Lemma run_records start stop d : records start (key_below stop) (Some d) = Ret (inr (List.filter (in_range start stop) (db_entries d)), Some d).
Proof.
  unfold records. rewrite (bind_ok _ _ _ (List.filter (fun kv => negb (key_below start kv)) (db_entries d)) (Some d)).
  - rewrite take_while_below by apply sorted_filter, entries_sorted. rewrite !filter_filter. reflexivity.
  - unfold seek. rewrite (bind_ok _ _ _ (Some d) (Some d)) by done. change (fun kv => match key_compare kv.1 start with Lt => true | _ => false end) with (key_below start).
    by rewrite drop_while_below by apply entries_sorted.
Qed.

(** The only keys between those of the mails and those of the names are the
    mails of users. *)
Definition only_users d : Prop := forall k v, db_get d k = Some v -> key_compare k USER_MAIL_ID <> Lt -> key_compare k USER_NAME_ID = Lt -> exists i p, user_is d i p /\ k = mail_key (email p).

(** A list of all users, each of them once. *)
Record all_users d (ps : list Person) : Prop := {
  au_users p : In p ps <-> exists i, user_is d i p;
  au_once : NoDup (map id ps);
}.

Lemma prefix_not_below k m : key_compare (k ++ m) k <> Lt.
Proof. induction k as [|x k IH]; [by destruct m|]. cbn. by rewrite Z.compare_refl. Qed.

Lemma mail_key_range m v : v <> [] -> in_range USER_MAIL_ID USER_NAME_ID (mail_key m, v) = true.
Proof.
  intros Hv. unfold in_range, key_below, mail_key. cbn [fst snd]. rewrite bool_decide_false by done. pose proof (prefix_not_below USER_MAIL_ID m) as Hp.
  destruct (key_compare (USER_MAIL_ID ++ m) USER_MAIL_ID); try done; reflexivity.
Qed.

Lemma person_text_nonempty p : FastWriter_write (person_value p) <> [].
Proof. unfold FastWriter_write. by destruct (writeValue _). Qed.

(** The entries of the range, each with the user it keeps. *)
Lemma range_entries d : only_users d -> Forall (fun kv => exists i p, user_is d i p /\ kv = (mail_key (email p), FastWriter_write (person_value p)))
  (List.filter (in_range USER_MAIL_ID USER_NAME_ID) (db_entries d)).
Proof.
  intros Hd. apply List.Forall_forall. intros [k v] [Hin Hr]%filter_In. unfold in_range, key_below in Hr. cbn [fst snd] in Hr.
  apply list_elem_of_In, entries_get in Hin. destruct (Hd k v Hin) as (i & p & Hp & ->).
  - intros E. by rewrite E in Hr.
  - destruct (key_compare k USER_NAME_ID); try done; by rewrite andb_false_r in Hr.
  - exists i, p. split; [done|]. destruct Hp as (_ & _ & _ & _ & Hm). congruence.
Qed.

Lemma run_read_users d l ps : Forall2 (fun (kv : list Z * list Z) p => kv.2 = FastWriter_write (person_value p) /\ person_ok p) l ps ->
  map_each l (fun kv => juser ← getJsonFromString kv.2; Person_deserializeMe juser) (Some d) = Ret (inr ps, Some d).
Proof.
  induction 1 as [|[k v] p l ps [Hv Hp] Hl IH]; [done|]. cbn [map_each]. rewrite (bind_ok _ _ _ p (Some d)); [by rewrite (bind_ok _ _ _ _ _ IH)|].
  cbn [snd] in Hv |- *. rewrite Hv, (bind_ok _ _ _ _ _ (run_json p _ Hp)). by apply read_person.
Qed.

(** The users of entries. *)
Lemma entries_users d l : Forall (fun kv : list Z * list Z => exists i p, user_is d i p /\ kv = (mail_key (email p), FastWriter_write (person_value p))) l ->
  exists ps, Forall2 (fun kv p => kv = (mail_key (email p), FastWriter_write (person_value p)) /\ exists i, user_is d i p) l ps.
Proof.
  induction 1 as [|kv l (i & p & Hp & E) _ (ps & IH)]; [by exists []|]. exists (p :: ps). constructor; [|done]. split; [done|by exists i].
Qed.

Lemma run_getAllUsers d : only_users d -> exists ps, getAllUsers (Some d) = Ret (inr ps, Some d) /\ all_users d ps.
Proof.
  intros Hd. set (l := List.filter (in_range USER_MAIL_ID USER_NAME_ID) (db_entries d)). destruct (entries_users d l (range_entries d Hd)) as (ps & Hps). exists ps. split.
  - unfold getAllUsers. rewrite (bind_ok _ _ _ _ _ (run_records _ _ d)). apply run_read_users. eapply Forall2_impl; [exact Hps|]. intros kv p [-> (i & Hp)]. split; [done|apply Hp].
  - split.
    + intros p. split.
      * intros Hin. apply list_elem_of_In, list_elem_of_lookup in Hin as [k Hk]. destruct (Forall2_lookup_r _ _ _ _ _ Hps Hk) as (kv & _ & _ & Hu). exact Hu.
      * intros (i & Hp). assert (In (mail_key (email p), FastWriter_write (person_value p)) l) as Hin.
        { apply filter_In. split; [apply list_elem_of_In, entries_get; apply Hp|apply mail_key_range, person_text_nonempty]. }
        apply list_elem_of_In, list_elem_of_lookup in Hin as [k Hk]. destruct (Forall2_lookup_l _ _ _ _ _ Hps Hk) as (q & Hq & E & j & Hj). apply (f_equal snd) in E. cbn [snd] in E.
        apply list_elem_of_In, list_elem_of_lookup. exists k. rewrite Hq. f_equal. symmetry. apply person_text_inj; [apply Hp|apply Hj|exact E].
    + apply NoDup_alt. intros a b i Ha Hb. rewrite list_lookup_fmap in Ha, Hb. destruct (ps !! a) as [p|] eqn:Ep; [|done]. destruct (ps !! b) as [q|] eqn:Eq; [|done].
      destruct (Forall2_lookup_r _ _ _ _ _ Hps Ep) as (x & Hx & -> & ip & Hp). destruct (Forall2_lookup_r _ _ _ _ _ Hps Eq) as (y & Hy & -> & iq & Hq).
      assert (ip = iq) as <- by (destruct Hp as (_ & _ & Hip & _), Hq as (_ & _ & Hiq & _); cbn in Ha, Hb; congruence). rewrite <- (user_unique _ _ _ _ Hp Hq) in Hy.
      assert (NoDup (map fst l)) as Hk by apply filter_keys_nodup, entries_nodup. rewrite NoDup_alt in Hk. apply (Hk a b (mail_key (email p))); by rewrite list_lookup_fmap, ?Hx, ?Hy.
Qed.
End listing.
