(* ===== verification/Api.v ===== *)
(** * Requests and responses (api/, Security/, config/, tools/)

    What every handler works with: the message that mongoose has parsed, the
    response, the permissions, the configuration, and [Handler] itself, whose
    [handleRequest] checks the session of a request to a method that is not
    public before a concrete handler sees it, and turns exceptions into
    responses.  The logger is left out.  The clock, [rand], what an
    uninitialised field holds, the shell and the texts of the exceptions of the libraries are the
    machine's. *)

From Stdlib Require Import ZArith Lia String.
From stdpp Require Import base list numbers option gmap.
From S2P Require Import Prelude Strs Uri Http Cpp Double Json JsonReader JsonSafe JsonRoundtrip Styled Store Person Manager Recommendations Messages Users Sessions.

Local Open Scope Z_scope.

(** ** The machine and the state of the server *)

Class Machine := {
  clock : nat -> Z;                         (* the times read during a request, in order *)
  rand_numbers : list Z;
  stack_isdst : Z;                          (* the [tm_isdst] that [tokenExpired] leaves as it is *)
  configValues : json;                      (* the configuration file *)
  shell : list Z -> option (list Z);        (* [popen]: the output of a command *)
  std_what : exn -> list Z;                 (* [what()] of the exceptions of the libraries *)
}.

(** The database, the commands given to the shell, and the files. *)
Record Server {D : Type} := mk_server { wrapper : DBWrapper (D := D); commands : list (list Z); files : gmap (list Z) (list Z) }.
Arguments Server : clear implicits.
Arguments mk_server {D} _ _ _.

(** A method on the database. *)
Definition on_db {D A} (m : cpp (DBWrapper (D := D)) A) : cpp (Server D) A := fun s =>
  match m (wrapper s) with
  | Ret (r, w) => Ret (r, mk_server w (commands s) (files s))
  | Fault e => Fault e
  end.

(** ** Config and the shell *)

Definition NAME_DB : list Z := lit "DbName".
Definition IMG_FOLDER : list Z := lit "imgDir".
Definition FACEBOOK_URL : list Z := lit "facebookUrl".
Definition FIREBASE_URL : list Z := lit "firebaseUrl".
Definition FIREBASE_AUTHORIZATION_KEY : list Z := lit "firebaseAuthorizationKey".
Definition DUMMY_SERVER_ENABLED : list Z := lit "dummyServerEnabled".

Definition Config_get `{Machine} {S} (key : list Z) : cpp S (list Z) :=
  m ← isMember configValues key;
  if negb m then throw (MissingConfigurationException key) else string_member configValues key.

Definition popen `{Machine} {D} (request : list Z) : cpp (Server D) (option (list Z)) := fun s =>
  Ret (inr (shell request), mk_server (wrapper s) (commands s ++ [request]) (files s)).

(** ** Security *)

Definition hasPermissionToEdit (userIdSession userIdToEdit : Z) : bool := userIdSession =? userIdToEdit.
Definition hasPermissionToDeleteUser (userIdSession userIdToDelete : Z) : bool := userIdSession =? userIdToDelete.
Definition hasPermissionToContactUser (userIdSession userIdAuthor : Z) : bool := userIdAuthor =? userIdSession.
Definition hasPermissionToSendMessage (userIdSession userIdAuthor : Z) : bool := userIdSession =? userIdAuthor.
Definition hasPermissionToReadMessage (userIdSession userIdFrom : Z) : bool := userIdFrom =? userIdSession.
Definition hasPermissionToDeleteProfilePicture (i userId : Z) : bool := i =? userId.
Definition hasPermissionToEditProfilePicture (i userId : Z) : bool := i =? userId.
Definition hasPermissionToSendRecommendations (i userId : Z) : bool := i =? userId.
Definition hasPermissionToDeleteRecommendations (i userId : Z) : bool := i =? userId.
Definition hasPermissionToUpdateNotificationToken (i userId : Z) : bool := i =? userId.
Definition hasPermissionToGetMessages (i userId : Z) : bool := i =? userId.

(** ** Response *)

Record Response := mk_response {
  header : list Z; response_body : list Z; bodyLength : Z;
  hasBinaryContent : bool; contentType : list Z;
  binaryBody : option (list Z)    (* None: a pointer to a buffer that is gone *)
}.

Definition new_Response : Response := mk_response [] [] 0 false (lit "text/json") (Some []).

Definition setHeader (h : list Z) (r : Response) : Response :=
  mk_response h (response_body r) (bodyLength r) (hasBinaryContent r) (contentType r) (binaryBody r).
Definition setBody (t : list Z) (r : Response) : Response :=
  mk_response (header r) t (size (c_str t)) (hasBinaryContent r) (contentType r) (binaryBody r).
Definition setBinaryBody (t : option (list Z)) (length : Z) (type : list Z) (r : Response) : Response :=
  mk_response (header r) (response_body r) length true type t.
Definition setErrorBody (errorDetails : list Z) (r : Response) : Response :=
  setBody (toStyledString (JObject [(lit "error", JString errorDetails); (lit "successful", JString (lit "false"))])) r.

Definition setSuccessfulHeader : Response -> Response := setHeader (lit "200 OK").
Definition setBadRequestHeader : Response -> Response := setHeader (lit "400 Bad Request").
Definition setUnauthorizedHeader : Response -> Response := setHeader (lit "401 Unauthorized").
Definition setForbiddenRequestHeader : Response -> Response := setHeader (lit "403 Forbidden").
Definition setNotFoundHeader : Response -> Response := setHeader (lit "404 Not Found").
Definition setConflictHeader : Response -> Response := setHeader (lit "409 Conflict").
Definition setInternalServerErrorHeader : Response -> Response := setHeader (lit "500 Internal Server Error").
Definition setNotImplementedHeader : Response -> Response := setHeader (lit "501 Not Implemented").

Definition error_response (set : Response -> Response) (details : list Z) : Response := setErrorBody details (set new_Response).
Definition getNotImplementedResponse : Response := setNotImplementedHeader new_Response.

Definition getBody (r : Response) : option (list Z) := if hasBinaryContent r then binaryBody r else Some (c_str (response_body r)).

(** ** Exceptions *)

(** [UserNotFoundException::getMessage]: the constructor from a mail leaves the
    id unset, the one from an id the mail empty. *)
Definition getMessage_id (e : exn) : outcome (list Z) :=
  match e with
  | UserNotFoundById userId => mret (lit "Usuario con el id " ++ to_string userId ++ lit " no existe en el sistema")
  | _ => Fault Uninitialised
  end.
Definition getMessage_mail (e : exn) : list Z :=
  lit "Usuario con el mail " ++ match e with UserNotFoundByMail userMail => userMail | _ => [] end ++ lit " no existe en el sistema".

Definition what `{Machine} (e : exn) : list Z :=
  match e with
  | BadImplementationException => lit "Implementación mal hecha. Debugear."
  | InvalidPasswordException => lit "Combinación mail de usuario y contraseña inválida."
  | InvalidTokenException => lit "El login no corresponde con una sesión abierta valida   "
  | NotAuthorizedException => lit "El usuario no tiene permisos para realizar la acción"
  | SpecialRequestException => lit "Se busca algo especial..."
  | TokenExpiredException => lit "La sesión expiró."
  | UserAlreadyExistsException => lit "El usuario ya existe en el sistema"
  | e => std_what e
  end.

(** ** Handler *)

(** A message in memory, as [mg_parse_http] leaves it. *)
Record Request := mk_request { memory : list Z; msg : http_message }.

(** [string(pointer)] of a C string. *)
Definition c_string (b : list Z) (q : option Z) : outcome (list Z) := deref q (fun i => n ← strlen b i; mret (slice b i n)).

Definition getStringFromMgStr (b : list Z) (structMgStr : mg_str) : outcome (list Z) :=
  loop (S (Z.to_nat (len structMgStr))) (fun '(i, asString) =>
    if i <? len structMgStr then c ← deref (p structMgStr) (fun q => rd b (q + i)); mret (inl (i + 1, asString ++ [c]))
    else mret (inr asString)) (0, []).

Definition isEqual (b : list Z) (s1 : mg_str) (s2 : list Z) : outcome bool :=
  if len s1 =? size s2 then d ← deref (p s1) (fun i => memcmp b i s2 0 (size s2)); mret (d =? 0) else mret false.

(** The value of a header, up to a NUL in it; empty when there is none. *)
Definition getHttpHeader (rq : Request) (name : list Z) : outcome (list Z) :=
  h ← mg_get_http_header (memory rq) (msg rq) name;
  match h with
  | None => mret []
  | Some header_information => v ← getStringFromMgStr (memory rq) header_information; mret (c_str v)
  end.

(** [find_first_of(c, pos)] and [find] of a string. *)
Fixpoint find_char (c : Z) (s : list Z) : option nat :=
  match s with [] => None | x :: s => if x =? c then Some 0%nat else S <$> find_char c s end.
Fixpoint starts_with (s t : list Z) : bool :=
  match t, s with [], _ => true | y :: t, x :: s => (x =? y) && starts_with s t | _ :: _, [] => false end.
Fixpoint find_string (s t : list Z) : option nat :=
  if starts_with s t then Some 0%nat else match s with [] => None | _ :: s => S <$> find_string s t end.

Definition getSubUrl (url : list Z) : list Z :=
  match find_char 47 (drop 1 url) with
  | Some k => drop (S (S k)) url
  | None => []
  end.

Definition parseUrl (url : list Z) : list (list Z) := if bool_decide (getSubUrl url <> []) then [getSubUrl url] else [].

Definition getUserIdFromUrl {S} (url : list Z) : cpp S Z :=
  match parseUrl url with
  | [userIdAsString] => catch (stol userIdAsString) (fun e => match e with StdInvalidArgument => throw (InvalidRequestException (lit "Not a numeric id")) | _ => throw e end)
  | _ => throw (InvalidRequestException (lit "Cannot get user id from url."))
  end.

Definition parseBody `{Spare} {S} (text : list Z) : cpp S json :=
  '(parsingSuccessful, root) ← parse_string text JNull;
  if negb parsingSuccessful then throw (InvalidRequestException (lit "Invalid Json.")) else mret root.

(** The last parameter of [substr] is a length. *)
Definition getParameterFromQueryParams {S} (queryParams parameter : list Z) : cpp S (list Z) :=
  match find_string queryParams parameter with
  | None => throw (InvalidRequestException (lit "Missing " ++ parameter ++ lit " parameter"))
  | Some found =>
      if size queryParams <? Z.of_nat found + size parameter + 2 then throw (InvalidRequestException (lit "Invalid query params")) else
      mret (take (found + length parameter + 2) (drop (found + length parameter + 1) queryParams))
  end.

Example substr_length : forall S (s : S), getParameterFromQueryParams (lit "user=12&first=3") (lit "user") s = Ret (inr (lit "12&fir"), s).
Proof. reflexivity. Qed.

Definition stoi {S} (text : list Z) : cpp S Z :=
  v ← stol text; if (minInt <=? v) && (v <=? maxInt) then mret v else throw StdOutOfRange.

(** The concrete handlers; a public method runs without a session. *)
Record Handler {D : Type} := mk_handler {
  getPublic : bool; putPublic : bool; deletePublic : bool; postPublic : bool;
  handleGetRequest : option Session -> Request -> list Z -> cpp (Server D) Response;
  handlePutRequest : option Session -> Request -> list Z -> cpp (Server D) Response;
  handleDeleteRequest : option Session -> Request -> list Z -> cpp (Server D) Response;
  handlePostRequest : option Session -> Request -> cpp (Server D) Response;
}.
Arguments Handler : clear implicits.
Arguments mk_handler {D} _ _ _ _ _ _ _ _.

Section handler.
Context {D : Type} `{Leveldb D} `{Spare} `{LocalTime} `{ParseTime} `{Machine}.
Abbreviation W := (cpp (Server D)).

Definition controlAccess (rq : Request) : W Session :=
  tok ← pure (getHttpHeader rq (lit "Authorization"));
  if bool_decide (tok = []) then throw (InvalidRequestException (lit "Falta el token de autenticación en el header"))
  else on_db (getSession stack_isdst (clock 0) (clock 1) (clock 2) tok).

(** [if (!public) session = controlAccess(httpMessage);] *)
Definition access (public : bool) (rq : Request) : W (option Session) :=
  if negb public then s ← controlAccess rq; mret (Some s) else mret None.

Definition dispatch (h : Handler D) (rq : Request) (url : list Z) : W Response :=
  let is_method name := pure (isEqual (memory rq) (method (msg rq)) name) in
  get_method ← is_method (lit "GET");
  if get_method : bool then s ← access (getPublic h) rq; handleGetRequest h s rq url else
  put_method ← is_method (lit "PUT");
  if put_method : bool then s ← access (putPublic h) rq; handlePutRequest h s rq url else
  delete_method ← is_method (lit "DELETE");
  if delete_method : bool then s ← access (deletePublic h) rq; handleDeleteRequest h s rq url else
  post_method ← is_method (lit "POST");
  if post_method : bool then s ← access (postPublic h) rq; handlePostRequest h s rq
  else mret getNotImplementedResponse.

Definition handle_exception (e : exn) : W Response :=
  match e with
  | InvalidRequestException m => mret (error_response setBadRequestHeader m)
  | NotAuthorizedException => mret (error_response setForbiddenRequestHeader (what e))
  | InvalidTokenException | TokenExpiredException => mret (setBody (what e) (setUnauthorizedHeader new_Response))
  | e => throw e
  end.

Definition Handler_handleRequest (h : Handler D) (rq : Request) (url : list Z) : W Response := catch (dispatch h rq url) handle_exception.

(** [session->getUserId()]. *)
Definition session_user (s : option Session) : W Z := match s with Some s => mret (user_id s) | None => pure (Fault NullPointer) end.
End handler.
