(* ===== verification/Handlers.v ===== *)
(** * The handlers (api/handler/)

    Each concrete handler of the server: the handler of users, contacts,
    messages, recommendations, conversations, notification tokens, logins and
    pictures, with the notifications they send.  A method of the database is run
    with [on_db]; what a C++ [catch] of a handler does is [answer]. *)

From Stdlib Require Import ZArith Lia String.
From stdpp Require Import base list numbers option gmap.
From S2P Require Import Prelude Strs Uri Http Cpp Double Json JsonReader JsonSafe JsonRoundtrip Styled Store Relations Person Manager Recommendations Messages Users Sessions Directory Api.

Local Open Scope Z_scope.

Definition USER : list Z := lit "user".
Definition FIRST : list Z := lit "first".
Definition LAST : list Z := lit "last".
Definition FIRST_INDEX : Z := 1.
Definition MAX_CANT : Z := 10.
Definition TO : list Z := lit "to".
Definition FROM : list Z := lit "from".
Definition USER_ID_KEY : list Z := lit "user_id".

(** [vector[i - 1]] for [i] from [lo] to [hi], in [unsigned long]. *)
Definition elements {A} (l : list A) (lo hi : Z) : outcome (list A) :=
  loop (S (S (length l))) (fun '(i, acc) =>
    if i <=? hi then x ← rd l (u64 (i - 1)); mret (inl (u64 (i + 1), acc ++ [x])) else mret (inr acc)) (lo, []).

(** The messages from [first] to [last], counted from the end. *)
Definition doTruncate {A} (messages : list A) (first last : Z) : outcome (list A) :=
  let lastParameter := u64 (size messages - first + 1) in
  let firstParameter := u64 (size messages - last + 1) in
  elements messages 1 (u64 (firstParameter - 1));;
  messagesToReturn ← elements messages firstParameter lastParameter;
  elements messages (u64 (lastParameter + 1)) (size messages);;
  mret messagesToReturn.

Example truncate_ex : doTruncate [10; 20; 30; 40; 50] 1 2 = Ret [40; 50] /\ doTruncate [10; 20; 30; 40; 50] 2 5 = Ret [10; 20; 30; 40].
Proof. done. Qed.
(** Past the number of messages it reads outside the vector. *)
Example truncate_past : doTruncate [10; 20] 5 2 = Fault OutOfBounds.
Proof. reflexivity. Qed.

Section code.
Context {D : Type} `{Leveldb D} `{Spare} `{LocalTime} `{ParseTime} `{Machine}.
Abbreviation W := (cpp (Server D)).

(** What the handlers do with the exceptions that they catch. *)
Definition answer (e : exn) : W Response :=
  match e with
  | UserNotFoundById _ | UserNotFoundByMail _ => m ← pure (getMessage_id e); mret (error_response setNotFoundHeader m)
  | InvalidRequestException m => mret (error_response setBadRequestHeader m)
  | e => throw e
  end.

Definition success (b : option json) : Response :=
  let r := setSuccessfulHeader new_Response in match b with Some v => setBody (toStyledString v) r | None => r end.

Definition not_implemented (_ : option Session) (_ : Request) (_ : list Z) : W Response := mret getNotImplementedResponse.
Definition not_implemented_post (_ : option Session) (_ : Request) : W Response := mret getNotImplementedResponse.

Definition request_body (rq : Request) : W (list Z) := pure (c_string (memory rq) (p (Http.body (msg rq)))).
Definition query_params (rq : Request) : W (list Z) := pure (getStringFromMgStr (memory rq) (query_string (msg rq))).

(** [if (!v.isMember(key)) throw InvalidRequestException(...)] *)
Definition require (v : json) (key complaint : list Z) : W unit :=
  m ← isMember v key; if negb m then throw (InvalidRequestException complaint) else mret tt.

Definition check (permission : bool) : W unit := if negb permission then throw NotAuthorizedException else mret tt.

(** *** UsersHandler *)

Definition Users_handlePost (_ : option Session) (rq : Request) : W Response :=
  requestBody ← request_body rq;
  catch (parsedBody ← parseBody requestBody;
         i ← on_db (savePerson parsedBody (-1));
         responseBody ← assign JNull (lit "id") (JInt i);
         mret (success (Some responseBody)))
        (fun e => match e with
                  | UserAlreadyExistsException => mret (error_response setConflictHeader (what e))
                  | InvalidRequestException m => mret (error_response setBadRequestHeader m)
                  | e => throw e
                  end).

Definition Users_handleGet (_ : option Session) (rq : Request) (url : list Z) : W Response :=
  catch (userId ← getUserIdFromUrl url;
         person ← on_db (getUserById userId);
         body ← Person_serializeMe (setPassword [] person);
         recommendations ← on_db (getRecommendationsAsJson userId);
         body ← assign body (lit "recommendations") recommendations;
         mret (success (Some body))) answer.

Definition Users_handleDelete (session : option Session) (rq : Request) (url : list Z) : W Response :=
  catch (userId ← getUserIdFromUrl url;
         u ← session_user session;
         check (hasPermissionToDeleteUser u userId);;
         on_db (deletePerson userId);;
         mret (success None)) answer.

Definition Users_handlePut (session : option Session) (rq : Request) (url : list Z) : W Response :=
  requestBody ← request_body rq;
  userId ← getUserIdFromUrl url;
  u ← session_user session;
  check (hasPermissionToEdit u userId);;
  catch (parsedBody ← parseBody requestBody;
         parsedBody ← assign parsedBody (lit "id") (JInt userId);
         i ← on_db (updateUser parsedBody);
         responseBody ← assign JNull (lit "id") (JInt i);
         mret (success (Some responseBody))) answer.

Definition UsersHandler : Handler D := mk_handler true false false true Users_handleGet Users_handlePut Users_handleDelete Users_handlePost.

(** *** NotificationSender *)

Definition quoted (t : list Z) : list Z := lit "\" ++ [34] ++ t ++ lit "\" ++ [34].

Definition buildCommonRequest (data tok : list Z) : W (list Z) :=
  key ← Config_get FIREBASE_AUTHORIZATION_KEY;
  url ← Config_get FIREBASE_URL;
  let postCommand := lit "curl -X POST" in
  let header := lit "--header " ++ [34] ++ lit "Authorization: key=" ++ key ++ [34] ++ lit " " ++ lit "--header " ++ [34] ++ lit "Content-Type: application/json" ++ [34] in
  let body := [34] ++ lit "{" ++ quoted (lit "to") ++ lit ":" ++ quoted tok ++ lit "," ++ quoted (lit "data") ++ lit ":" ++ data ++ lit "}" ++ [34] in
  mret (postCommand ++ lit " " ++ header ++ lit " " ++ url ++ lit " " ++ lit "-d" ++ lit " " ++ body).

Definition buildMessageRequest (fromUserId toUserId : Z) (message timestamp tok : list Z) : W (list Z) :=
  buildCommonRequest (lit "{" ++ quoted (lit "mensaje") ++ lit ":{" ++ quoted (lit "from") ++ lit ":" ++ to_string fromUserId ++ lit "," ++
    quoted (lit "message") ++ lit ":" ++ quoted message ++ lit "," ++ quoted (lit "timestamp") ++ lit ":" ++ quoted timestamp ++ lit "," ++
    quoted (lit "to") ++ lit ":" ++ to_string toUserId ++ lit "}}") tok.

Definition buildContactRequest (fromUserId toUserId : Z) (name tok : list Z) : W (list Z) :=
  buildCommonRequest (lit "{" ++ quoted (lit "solicitud") ++ lit ":{" ++ quoted (lit "from") ++ lit ":" ++ to_string fromUserId ++ lit "," ++
    quoted (lit "fromNombre") ++ lit ":" ++ quoted name ++ lit "," ++ quoted (lit "toId") ++ lit ":" ++ to_string toUserId ++ lit "}}") tok.

Definition performRequest (request : list Z) : W (list Z) :=
  dummy ← Config_get DUMMY_SERVER_ENABLED;
  if bool_decide (dummy = lit "true") then mret [] else
  out ← popen (c_str request);
  match out with None => throw StdRuntimeError | Some result => mret result end.

Definition sendNotification (request : list Z) : W unit := performRequest request;; mret tt.

(** [catch (NonexistentNotificationToken &e) {}] *)
Definition when_token (m : W unit) : W unit := catch m (fun e => match e with NonexistentNotificationToken _ => mret tt | e => throw e end).

(** *** ContactsHandler *)

Definition contact_entry (contact : Contact) : W json :=
  person ← on_db (getUserById (userId contact));
  v ← assign JNull (lit "id") (JInt (id person));
  v ← assign v (lit "first_name") (JString (firstName person));
  v ← assign v (lit "last_name") (JString (lastName person));
  v ← (match getCurrentJob (workHistory person) with
       | Some currentJob => j ← WorkHistory_serializeMe currentJob; assign v (lit "current_job") j
       | None => mret v
       end);
  assign v (lit "status") (JString (status contact)).

Definition Contacts_handleGet (_ : option Session) (rq : Request) (url : list Z) : W Response :=
  catch (userId ← getUserIdFromUrl url;
         contacts ← on_db (PersonManager_getContactsByUserId userId);
         responseBody ← assign2 JNull (lit "metadata") (lit "count") (JUInt (size contacts));
         responseBody ← append_members responseBody (lit "contacts") contacts contact_entry;
         mret (success (Some responseBody))) answer.

Definition Contacts_sendNotification (parsedBody : json) : W unit :=
  when_token (
    fromUserId ← long_member parsedBody (lit "author_id");
    toUserId ← long_member parsedBody (lit "contact_id");
    tok ← on_db (getNotificationTokenByUserId toUserId);
    person ← on_db (getUserById fromUserId);
    request ← buildContactRequest fromUserId toUserId (firstName person ++ lit " " ++ lastName person) tok;
    sendNotification request).

(** A comparison with a text. *)
Definition equals_text (v : json) (t : list Z) : bool := match v with JString s => bool_decide (s = t) | _ => false end.

Definition Contacts_handlePut (session : option Session) (rq : Request) (_ : list Z) : W Response :=
  requestBody ← request_body rq;
  catch (parsedBody ← parseBody requestBody;
         require parsedBody (lit "action") (lit "Missing action");;
         require parsedBody (lit "author_id") (lit "Missing author_id");;
         require parsedBody (lit "contact_id") (lit "Missing contact_id");;
         author_id ← long_member parsedBody (lit "author_id");
         u ← session_user session;
         check (hasPermissionToContactUser u author_id);;
         on_db (saveOrUpdateRelation parsedBody);;
         action ← member parsedBody (lit "action");
         (if equals_text action ADD_CONTACT_ACTION then Contacts_sendNotification parsedBody else mret tt);;
         mret (success None)) answer.

Definition ContactsHandler : Handler D := mk_handler false false false false Contacts_handleGet Contacts_handlePut not_implemented not_implemented_post.
(** *** MessagesHandler *)

Definition Messages_buildJsonResponse (messages : list Message) (totalCount : Z) : W json :=
  v ← assign2 JNull (lit "metadata") (lit "count") (JUInt (size messages));
  v ← assign2 v (lit "metadata") (lit "total_count") (JInt totalCount);
  append_members v (lit "messages") messages (fun m => on_db (Message_serializeMe m)).

(** The numbers of a query; a text that is not one is a bad request. *)
Definition numeric {A} (m : W A) (complaint : list Z) : W A :=
  catch m (fun e => match e with StdInvalidArgument => throw (InvalidRequestException complaint) | e => throw e end).

Definition user_of_query (queryParams key : list Z) : W Z :=
  numeric (t ← getParameterFromQueryParams queryParams key; stol t) (lit "Not a numeric id").

Definition number_if_exists (queryParams key : list Z) : W Z :=
  match find_string queryParams key with
  | None => mret 0
  | Some _ => numeric (value ← getParameterFromQueryParams queryParams key; stoi value) (lit "Not a numeric parameter")
  end.
Definition getFirstFromQueryParamsIfExists (queryParams : list Z) : W Z := number_if_exists queryParams FIRST.
Definition getLastFromQueryParamsIfExists (queryParams : list Z) : W Z := number_if_exists queryParams LAST.

Definition truncateMessages (messages : list Message) (queryParams : list Z) : W (list Message) :=
  firstParam ← getFirstFromQueryParamsIfExists queryParams;
  lastParam ← getLastFromQueryParamsIfExists queryParams;
  if (firstParam <? 0) || (lastParam <? 0) then throw (InvalidRequestException (lit "index must be greater than 0")) else
  let first := if negb (firstParam =? 0) then firstParam else FIRST_INDEX in
  last ← (if negb (lastParam =? 0) then mret lastParam else pure (int (firstParam + MAX_CANT)));
  if last <? first then throw (InvalidRequestException (lit "first can not be greater than last")) else
  pure (doTruncate messages first (if u64 last >? size messages then s32 (size messages) else last)).

Definition Messages_handleGet (session : option Session) (rq : Request) (url : list Z) : W Response :=
  queryParams ← query_params rq;
  catch (fromUserId ← getUserIdFromUrl url;
         u ← session_user session;
         check (hasPermissionToReadMessage u fromUserId);;
         toUserId ← user_of_query queryParams USER;
         messages ← on_db (getMessages fromUserId toUserId);
         let totalCount := size messages in
         messages ← truncateMessages messages queryParams;
         on_db (setMessagesAsReceived fromUserId toUserId messages);;
         messagesAsJson ← Messages_buildJsonResponse messages totalCount;
         mret (success (Some messagesAsJson))) answer.

Definition Messages_sendNotification (savedMessage : list Z) : W unit :=
  when_token (
    '(_, root) ← parse_string savedMessage JNull;
    fromUserId ← long_member root (lit "from");
    toUserId ← long_member root (lit "to");
    message ← string_member root (lit "message");
    timestamp ← string_member root (lit "timestamp");
    tok ← on_db (getNotificationTokenByUserId toUserId);
    request ← buildMessageRequest fromUserId toUserId message timestamp tok;
    sendNotification request).

Definition Messages_handlePut (session : option Session) (rq : Request) (_ : list Z) : W Response :=
  requestBody ← request_body rq;
  catch (parsedBody ← parseBody requestBody;
         require parsedBody (lit "from") (lit "Missing from user");;
         require parsedBody (lit "to") (lit "Missing to user");;
         require parsedBody (lit "message") (lit "Missing message");;
         userId ← long_member parsedBody (lit "from");
         u ← session_user session;
         check (hasPermissionToSendMessage u userId);;
         savedMessage ← on_db (saveMessage (clock 3) parsedBody);
         Messages_sendNotification savedMessage;;
         mret (setBody savedMessage (setSuccessfulHeader new_Response))) answer.

Definition MessagesHandler : Handler D := mk_handler false false false false Messages_handleGet Messages_handlePut not_implemented not_implemented_post.

(** *** RecommendationsHandler *)

Definition Recommendations_handleDelete (session : option Session) (rq : Request) (_ : list Z) : W Response :=
  queryParams ← query_params rq;
  catch (fromUserId ← user_of_query queryParams FROM;
         toUserId ← user_of_query queryParams TO;
         u ← session_user session;
         check (hasPermissionToDeleteRecommendations u fromUserId);;
         on_db (removeRecommendation fromUserId toUserId);;
         mret (success None)) answer.

Definition Recommendations_handlePut (session : option Session) (rq : Request) (_ : list Z) : W Response :=
  requestBody ← request_body rq;
  catch (parsedBody ← parseBody requestBody;
         require parsedBody (lit "from") (lit "Missing from user");;
         require parsedBody (lit "to") (lit "Missing to user");;
         userId ← long_member parsedBody (lit "from");
         u ← session_user session;
         check (hasPermissionToSendRecommendations u userId);;
         on_db (saveRecommendation parsedBody);;
         mret (success None)) answer.

Definition RecommendationsHandler : Handler D :=
  mk_handler false false false false not_implemented Recommendations_handlePut Recommendations_handleDelete not_implemented_post.

(** *** ConversationsHandler *)

(** The loop: the conversations as Json and the sum of their unread messages. *)
Fixpoint conversation_items (v : json) (totalUnreadCount : Z) (conversations : list Conversation) : W (json * Z) :=
  match conversations with
  | [] => mret (v, totalUnreadCount)
  | c :: r =>
      n ← pure (int (totalUnreadCount + unread_count c));
      j ← on_db (Conversation_serializeMe c);
      v ← append_member v (lit "conversations") j;
      conversation_items v n r
  end.

Definition Conversations_buildJsonResponse (conversations : list Conversation) (totalCount : Z) : W json :=
  v ← assign2 JNull (lit "metadata") (lit "total_count") (JInt totalCount);
  '(v, totalUnreadCount) ← conversation_items v 0 conversations;
  assign2 v (lit "metadata") (lit "total_unread_count") (JInt totalUnreadCount).

Definition Conversations_handleGet (session : option Session) (rq : Request) (url : list Z) : W Response :=
  catch (userId ← getUserIdFromUrl url;
         u ← session_user session;
         check (hasPermissionToGetMessages u userId);;
         conversations ← on_db (getAllConversations userId);
         conversationsAsJson ← Conversations_buildJsonResponse conversations (size conversations);
         mret (success (Some conversationsAsJson))) answer.

Definition ConversationsHandler : Handler D := mk_handler false false false false Conversations_handleGet not_implemented not_implemented not_implemented_post.

(** *** NotificationTokenHandler *)

Definition NotificationToken_handlePut (session : option Session) (rq : Request) (url : list Z) : W Response :=
  requestBody ← request_body rq;
  catch (userId ← getUserIdFromUrl url;
         u ← session_user session;
         check (hasPermissionToUpdateNotificationToken u userId);;
         parsedBody ← parseBody requestBody;
         on_db (setOrUpdateNotificationToken parsedBody userId);;
         mret (success None)) answer.

Definition NotificationTokenHandler : Handler D := mk_handler false false false false not_implemented NotificationToken_handlePut not_implemented not_implemented_post.
(** *** LoginHandler *)

Definition bad_request (e : exn) : W (Response + json) :=
  match e with InvalidRequestException m => mret (inl (error_response setBadRequestHeader m)) | e => throw e end.

Definition Login_handlePost (_ : option Session) (rq : Request) : W Response :=
  body ← catch (text ← request_body rq;
                body ← parseBody text;
                require body (lit "email") (lit "Mail member is missing");;
                require body (lit "password") (lit "Password member is missing");;
                mret (inr body)) bad_request;
  match body with
  | inl response => mret response
  | inr body =>
      user_mail ← string_member body (lit "email");
      user_password ← string_member body (lit "password");
      user_token ← catch (t ← on_db (login rand_numbers (clock 3) user_mail user_password); mret (inr t))
        (fun e => match e with
                  | InvalidPasswordException => mret (inl (error_response setUnauthorizedHeader (what e)))
                  | UserNotFoundById _ | UserNotFoundByMail _ => mret (inl (error_response setNotFoundHeader (getMessage_mail e)))
                  | e => throw e
                  end);
      match user_token with
      | inl response => mret response
      | inr user_token =>
          responseBody ← assign JNull TOKEN_KEY (JString user_token);
          uid ← on_db (Sessions.getUserId user_token);
          responseBody ← assign responseBody USER_ID_KEY (JInt uid);
          mret (success (Some responseBody))
      end
  end.

Definition LoginHandler : Handler D := mk_handler true true true true not_implemented not_implemented not_implemented Login_handlePost.

(** *** LoginWithFacebookHandler *)

Definition createPerson (data : json) : W Person :=
  firstName ← string_member data (lit "first_name");
  lastName ← string_member data (lit "last_name");
  birthday ← string_member data (lit "birthday");
  email ← string_member data (lit "email");
  mret (mk_person 0 firstName lastName email [] birthday [] [] (mk_location (of_Z 0) (of_Z 0)) 0 [] []).

Definition buildStringRequest (tokenToSend : list Z) : W (list Z) :=
  url ← Config_get FACEBOOK_URL;
  mret (lit "curl -i -X GET" ++ lit " " ++ [34] ++ url ++ lit "?" ++ lit "fields=first_name,last_name,birthday,email" ++ lit "&" ++ lit "access_token=" ++ tokenToSend ++ [34]).

(** The answer of [DummyServer::getFacebookDummyResponse]. *)
Definition getFacebookDummyResponse : list Z :=
  let q s := [34] ++ lit s ++ [34] in
  lit "HTTP/1.1 200 OK" ++ [10] ++
  lit "x-app-usage: {" ++ q "call_count"%string ++ lit ":2," ++ q "total_cputime"%string ++ lit ":1," ++ q "total_time"%string ++ lit ":2}" ++ [10] ++
  lit "x-fb-rev: 2702404" ++ [10] ++ lit "x-fb-trace-id: Cf9CGhVLlFm" ++ [10] ++ lit "Expires: Sat, 01 Jan 2000 00:00:00 GMT" ++ [10] ++
  lit "Content-Type: application/json; charset=UTF-8" ++ [10] ++ lit "facebook-api-version: v2.8" ++ [10] ++
  lit "Cache-Control: private, no-cache, no-store, must-revalidate" ++ [10] ++ lit "Pragma: no-cache" ++ [10] ++
  lit "ETag: " ++ q "883a40b13cf35bc6f98afbe90d124efee9798267"%string ++ [10] ++ lit "Access-Control-Allow-Origin: *" ++ [10] ++ lit "Vary: Accept-Encoding" ++ [10] ++
  lit "X-FB-Debug: wb85HnWzGrROPDsHluYraPDNVCgVSkS2adiz0PxseiMJHf3S8wqXRNOUicXszztkyGSyVaB80TpYq+TpjrgE4g==" ++ [10] ++
  lit "Date: Thu, 24 Nov 2016 20:01:35 GMT" ++ [10] ++ lit "Transfer-Encoding: chunked" ++ [10] ++ lit "Connection: keep-alive" ++ [13; 10; 13; 10] ++
  lit "{" ++ q "first_name"%string ++ lit ":" ++ q "John"%string ++ lit "," ++ q "last_name"%string ++ lit ":" ++ q "Doe"%string ++ lit "," ++ q "birthday"%string ++ lit ":" ++ q "01/01/1990"%string ++ lit "," ++
  q "email"%string ++ lit ":" ++ q "john@doe.com"%string ++ lit "," ++ q "id"%string ++ lit ":" ++ q "1000000"%string ++ lit "}".

Definition Facebook_performRequest (request : list Z) : W (list Z) :=
  dummy ← Config_get DUMMY_SERVER_ENABLED;
  if bool_decide (dummy = lit "true") then mret getFacebookDummyResponse else
  out ← popen (c_str request);
  match out with None => throw (ErrorLoginWithFacebookException (lit "Failed request to Facebook")) | Some result => mret result end.

(** Without an end of the header the body would begin outside the string. *)
Definition parseResponse (response : list Z) : W json :=
  match find_string response [13; 10; 13; 10] with
  | None => pure (Fault OutOfBounds)
  | Some bodyStart =>
      '(parsingSuccessful, root) ← parse_string (drop (bodyStart + 4) response) JNull;
      if negb parsingSuccessful then throw (ErrorLoginWithFacebookException (lit "Error parsing Facebook response")) else mret root
  end.

Definition getUserDataFromFacebook (requestAsJson : json) : W json :=
  m ← isMember requestAsJson TOKEN_KEY;
  if negb m then throw (InvalidRequestException (lit "Missing token")) else
  tok ← string_member requestAsJson TOKEN_KEY;
  request ← buildStringRequest tok;
  response ← Facebook_performRequest request;
  parsedResponse ← parseResponse response;
  e ← isMember parsedResponse (lit "error");
  if (e : bool) then v ← member parsedResponse (lit "error"); t ← string_member v (lit "message"); throw (ErrorLoginWithFacebookException t)
  else mret parsedResponse.

Definition Facebook_handlePost (_ : option Session) (rq : Request) : W Response :=
  requestBody ← request_body rq;
  catch (parsedBody ← parseBody requestBody;
         data ← getUserDataFromFacebook parsedBody;
         person ← createPerson data;
         found ← on_db (userExistsMail (email person));
         '(person, personId) ←
           (if negb found then
              j ← Person_serializeMe person;
              personId ← on_db (savePerson j (-1));
              mret (person, personId)
            else
              person ← on_db (getUserByMail (email person));
              mret (person, id person));
         user_token ← on_db (facebookLogin rand_numbers (clock 3) (email person));
         responseAsJson ← assign JNull TOKEN_KEY (JString user_token);
         responseAsJson ← assign responseAsJson USER_ID_KEY (JInt personId);
         mret (success (Some responseAsJson)))
        (fun e => match e with
                  | InvalidRequestException m | ErrorLoginWithFacebookException m => mret (error_response setBadRequestHeader m)
                  | e => throw e
                  end).

Definition LoginWithFacebookHandler : Handler D := mk_handler true true true true not_implemented not_implemented not_implemented Facebook_handlePost.
(** *** PictureHandler *)

(** A file that can be opened exists; the folder of the pictures is writable. *)
Definition get_file (path : list Z) : W (option (list Z)) := fun s => Ret (inr (files s !! c_str path), s).
Definition set_file (path : list Z) (content : option (list Z)) : W unit := fun s =>
  Ret (inr tt, mk_server (wrapper s) (commands s) (partial_alter (fun _ => content) (c_str path) (files s))).

Definition getFilePath (i : Z) : W (list Z) := f ← Config_get IMG_FOLDER; mret (f ++ to_string i ++ lit ".jpeg").

Definition existsPictureForId (i : Z) : W bool := path ← getFilePath i; f ← get_file path; mret (bool_decide (is_Some f)).

Definition deletePicture (i : Z) : W unit :=
  path ← getFilePath i; f ← get_file path;
  match f with
  | None => throw (ErrorDeletingFileException (lit "An error has occurred trying to delete file " ++ path))
  | Some _ => set_file path None
  end.

(** The bytes up to the fourth end of a line, 200 at most: [at_byte] is the
    offset in memory at which the loop stops, with the count of the bytes. *)
Definition skip_lines (b : list Z) (at_byte : Z) : outcome (Z * Z) :=
  loop 201 (fun '(i, at_byte, lineBreaksCounter, charactersCounter) =>
    if (i <? 200) && negb (lineBreaksCounter =? 4) then
      c ← rd b at_byte;
      mret (inl (i + 1, at_byte + 1, if c =? 10 then lineBreaksCounter + 1 else lineBreaksCounter, charactersCounter + 1))
    else mret (inr (at_byte, charactersCounter))) (0, at_byte, 0, 0).

Definition savePicture (i : Z) (b : list Z) (q : option Z) (sz : Z) : W unit :=
  path ← getFilePath i;
  '(at_byte, charactersCounter) ← pure (deref q (skip_lines b));
  let n := u64 (sz - charactersCounter - 4) in
  content ← pure (memcpy (replicate (length b) 0) 0 b at_byte n);
  set_file path (Some (take (Z.to_nat n) content)).

(** The response keeps a pointer to the local buffer. *)
Definition buildGetPictureResponse (i : Z) : W Response :=
  path ← getFilePath i; stream ← get_file path;
  match stream with
  | None => throw (PictureNotFoundException (lit "Cannot find requested picture"))
  | Some buffer =>
      if size buffer =? 0 then throw (InvalidRequestException (lit "Failed to open requested picture")) else
      mret (setBinaryBody None (size buffer) (lit "image/jpeg") (setSuccessfulHeader new_Response))
  end.

Definition Picture_handleGet (_ : option Session) (_ : Request) (url : list Z) : W Response :=
  catch (userId ← getUserIdFromUrl url; buildGetPictureResponse userId)
    (fun e => match e with
              | InvalidRequestException m => mret (error_response setBadRequestHeader m)
              | PictureNotFoundException m => mret (error_response setNotFoundHeader m)
              | e => throw e
              end).

Definition Picture_handleDelete (session : option Session) (_ : Request) (url : list Z) : W Response :=
  userId ← getUserIdFromUrl url;
  u ← session_user session;
  check (hasPermissionToDeleteProfilePicture u userId);;
  found ← existsPictureForId userId;
  if negb found then mret (error_response setNotFoundHeader (lit "Cannot find requested picture"))
  else deletePicture userId;; mret (success None).

Definition Picture_handlePut (session : option Session) (rq : Request) (url : list Z) : W Response :=
  userId ← getUserIdFromUrl url;
  u ← session_user session;
  check (hasPermissionToEditProfilePicture u userId);;
  found ← existsPictureForId userId;
  (if (found : bool) then deletePicture userId else mret tt);;
  savePicture userId (memory rq) (p (Http.body (msg rq))) (len (Http.body (msg rq)));;
  mret (success None).

Definition PictureHandler : Handler D := mk_handler true false false false Picture_handleGet Picture_handlePut Picture_handleDelete not_implemented_post.
End code.

(** The multipart framing of a picture is cut off by its size alone: a short body
    makes the length wrap around. *)
Example short_picture :
  let D := gmap (list Z) (list Z) in
  let _ : Machine := {| clock := fun _ => 0; rand_numbers := []; stack_isdst := 0; configValues := JObject [(IMG_FOLDER, JString (lit "img/"))]; shell := fun _ => None; std_what := fun _ => [] |} in
  savePicture 1 (lit "abc" ++ replicate 300 0) (Some 0) 3 (mk_server (None : DBWrapper (D := D)) [] ∅) = Fault OutOfBounds.
Proof. vm_compute. reflexivity. Qed.
