(* ===== verification/Search.v ===== *)
(** * Searching users (person/PersonManager.cpp, api/handler/SearchHandler.cpp)

    The searches by skill, position, mail, name and distance, their combination,
    and the handler that pages through what they find.  [std::regex] on a text
    with operators of regular expressions, and the order in which [std::sort]
    leaves users with as many recommendations, are parameters. *)

From Stdlib Require Import ZArith Lia String.
From stdpp Require Import base list numbers option gmap sorting.
From S2P Require Import Prelude Strs Uri Http Cpp Double Json JsonReader JsonSafe JsonRoundtrip Styled Store Relations Person Manager Recommendations Messages Users Sessions Directory Api Handlers.

Local Open Scope Z_scope.

(** ** Regular expressions *)

(** What is constructed from a text; None when the constructor throws. *)
Class SpecialRegex := special_regex : list Z -> option (list Z -> bool).

Definition plain (t : list Z) : bool := negb (existsb (fun c => (c =? 0) || existsb (Z.eqb c) (lit "^$\.*+?()[]{}|")) t).
Definition line_end (c : Z) : bool := (c =? 10) || (c =? 13).
Definition on_one_line (t : list Z) : bool := negb (existsb line_end t).

(** [regex_match] with the text between two groups for the rest of the line. *)
Definition contains_on_line (t s : list Z) : bool :=
  existsb (fun k => starts_with (drop k s) t && on_one_line (take k s) && on_one_line (drop (k + length t) s)) (seq 0 (S (length s))).

Definition regex_around `{SpecialRegex} {S} (t : list Z) : cpp S (list Z -> bool) :=
  if plain t then mret (contains_on_line t) else
  match special_regex t with Some m => mret m | None => throw StdRegexError end.

(** ** Query strings *)

Definition HEX2DEC (c : Z) : Z :=
  if (48 <=? c) && (c <=? 57) then c - 48 else
  if (65 <=? c) && (c <=? 70) then c - 55 else
  if (97 <=? c) && (c <=? 102) then c - 87 else -1.

Fixpoint uriDecode (sSrc : list Z) : list Z :=
  match sSrc with
  | [] => []
  | c :: t =>
      match t with
      | a :: b :: r =>
          if (c =? 37) && negb (HEX2DEC a =? -1) && negb (HEX2DEC b =? -1) then u8 (Z.shiftl (HEX2DEC a) 4 + HEX2DEC b) :: uriDecode r
          else c :: uriDecode t
      | _ => c :: uriDecode t
      end
  end.

Example uriDecode_ex : uriDecode (lit "a%20b%2Cc%zz%4") = lit "a b,c%zz%4".
Proof. reflexivity. Qed.

Definition hasParameter (query_params parameter : list Z) : bool :=
  match find_string query_params parameter with
  | None => false
  | Some found => negb (size query_params <? Z.of_nat found + size parameter + 2)
  end.

(** The [SearchHandler]'s own: up to the next "&". *)
Definition Search_getParameterFromQueryParams {S} (queryParams parameter : list Z) : cpp S (list Z) :=
  match find_string queryParams parameter with
  | None => throw (InvalidRequestException (lit "Missing " ++ parameter ++ lit " parameter"))
  | Some init_position => mret (take_while (fun c => negb (c =? 38)) (drop (init_position + length parameter + 1) queryParams))
  end.

Definition getSearchByFromQueryParams {S} (query_params parameter : list Z) : cpp S (option (list Z)) :=
  if hasParameter query_params parameter then
    parameter_value ← Search_getParameterFromQueryParams query_params parameter;
    mret (if bool_decide (parameter_value = []) then None else Some parameter_value)
  else mret None.

(** [catch (exception&)] of [stol]. *)
Definition number_parameter {S} (query_params parameter complaint : list Z) : cpp S Z :=
  t ← Search_getParameterFromQueryParams query_params parameter;
  catch (stol t) (fun _ => throw (InvalidRequestException complaint)).
Definition getPageSizeFromQueryParams {S} (query_params : list Z) : cpp S Z := number_parameter query_params (lit "size") (lit "Size of Page isn't an integer").
Definition getPageNumberFromQueryParams {S} (query_params : list Z) : cpp S Z := number_parameter query_params (lit "pageNumber") (lit "Page Number isn't an integer").

(** ** Places *)

Definition square (x : double) : double := dmul x x.
Definition getDistanceFrom (l m : Location) : double :=
  dadd (square (dsub (latitude l) (latitude m))) (square (dsub (longitude l) (longitude m))).

(** The place and the largest distance of a search. *)
Definition distance_arguments {S} (distance_search : list (list Z)) : cpp S (Location * double) :=
  x ← pure (rd distance_search 0); latitud ← stod x;
  y ← pure (rd distance_search 1); longitud ← stod y;
  z ← pure (rd distance_search 2); max_distance ← stod z;
  mret (mk_location latitud longitud, max_distance).

(** ** The searches *)

Section code.
Context {D : Type} `{Leveldb D} `{Spare} `{SpecialRegex}.
Abbreviation M := (cpp (DBWrapper (D := D))).

(** Users with a list of mails. *)
Definition users_of (mails : list Z) : M (list Person) := map_each (split mails 44) getUserByMail.

Definition searchBySkill (skills_search : list (list Z)) : M (list Person) :=
  skill ← pure (first skills_search);
  mails ← catch (m ← getUserSkillKey (to_lower skill); mret (Some m)) (fun e => match e with KeyNotFound => mret None | e => throw e end);
  match mails with
  | None => mret []
  | Some mails => users_result ← users_of mails; mret (List.filter (has_every_skill skills_search) users_result)
  end.

Definition searchByJobPosition (job_positions : list (list Z)) : M (list Person) :=
  let job_positions := map to_lower job_positions in
  position ← pure (first job_positions);
  mails ← catch (m ← getUserJobPositionKey position; mret (Some m)) (fun e => match e with KeyNotFound => mret None | e => throw e end);
  match mails with
  | None => mret []
  | Some mails => users_result ← users_of mails; mret (List.filter (has_every_position job_positions) users_result)
  end.

(** The users among some entries that [keep] wants. *)
Fixpoint users_among (keep : list Z * list Z -> Person -> bool) (test : list Z * list Z -> bool) (rs : list (list Z * list Z)) : M (list Person) :=
  match rs with
  | [] => mret []
  | kv :: rs =>
      if test kv then
        juser ← getJsonFromString kv.2;
        user ← Person_deserializeMe juser;
        l ← users_among keep test rs;
        mret (if keep kv user then user :: l else l)
      else users_among keep test rs
  end.

Definition searchByMail (user_mail : list (list Z)) : M (list Person) :=
  user_search ← pure (first user_mail);
  e ← regex_around (to_lower user_search);
  rs ← records USER_MAIL_ID (key_below USER_NAME_ID);
  users_among (fun _ _ => true) (fun kv => e kv.1) rs.

Definition searchByDistance (distance_search : list (list Z)) : M (list Person) :=
  '(search_location, max_distance) ← distance_arguments distance_search;
  rs ← records USER_MAIL_ID (key_below USER_NAME_ID);
  users_among (fun _ user => dleb (getDistanceFrom search_location (location user)) (square max_distance)) (fun _ => true) rs.

(** The loop of [searchByName]. *)
Fixpoint users_named (e : list Z -> bool) (rs : list (list Z * list Z)) : M (list Person) :=
  match rs with
  | [] => mret []
  | kv :: rs =>
      clean_full_name ← getCleanName_FromKey kv.1;
      if e clean_full_name then user ← getUserByMail kv.2; l ← users_named e rs; mret (user :: l)
      else users_named e rs
  end.

Definition searchByName (user_searchName : list (list Z)) : M (list Person) :=
  user_search ← pure (first user_searchName);
  e ← regex_around (to_lower user_search);
  rs ← records USER_NAME_ID (key_below USER_PASSWORD);
  users_named e rs.

(** *** The combination *)

Record Search := mk_search {
  by_name : option (list (list Z)); by_position : option (list (list Z)); by_skill : option (list (list Z));
  by_distance : option (list (list Z)); by_mail : option (list (list Z))
}.

(** One criterion: the first that is given searches, later ones discard. *)
Definition criterion {X} (value : option X) (search : X -> M (list Person)) (keep : X -> M (Person -> bool)) (partial_result : option (list Person)) : M (option (list Person)) :=
  match value, partial_result with
  | None, _ => mret partial_result
  | Some v, None => l ← search v; mret (Some l)
  | Some v, Some l => k ← keep v; mret (Some (List.filter k l))
  end.

Definition search_users_by (search_values : Search) : M (list Person) :=
  r ← criterion (by_skill search_values) searchBySkill (fun v => mret (has_every_skill v)) None;
  r ← criterion (by_position search_values) searchByJobPosition (fun v => mret (has_every_position v)) r;
  r ← criterion (by_mail search_values) searchByMail
        (fun v => m ← pure (first v); e ← regex_around m; mret (fun user => e (email user))) r;
  r ← criterion (by_name search_values) searchByName
        (fun v => n ← pure (first v); e ← regex_around (to_lower n); mret (fun user => e (firstName user) || e (lastName user))) r;
  r ← criterion (by_distance search_values) searchByDistance
        (fun v => '(l, max_distance) ← distance_arguments v; mret (fun user => negb (dltb max_distance (getDistanceFrom l (location user))))) r;
  mret (default [] r).
End code.

(** ** SearchHandler *)

(** [std::sort] with the order of [myfunction]. *)
Definition myfunction (p1 p2 : Person) : bool := totRecommendations p2 <? totRecommendations p1.
Class StdSort := std_sort : (Person -> Person -> bool) -> list Person -> list Person.

(** A page of users: [result[i]] for [i] from [start] to [end - 1]. *)
Definition page (result : list Person) (page_number page_size : Z) : outcome (list Person) :=
  n ← long (page_number - 1); start ← long (n * page_size);
  stop ← long (start + page_size);
  let stop := if u64 stop >? size result then size result else stop in
  loop (S (S (length result))) (fun '(i, acc) =>
    if i <? stop then x ← rd result (u64 i); mret (inl (i + 1, acc ++ [x])) else mret (inr acc)) (start, []).

(** A page before the first begins at a negative index. *)
Example page_zero : forall p : Person, page [p; p] 0 10 = Fault OutOfBounds.
Proof. reflexivity. Qed.

Section handler.
Context {D : Type} `{Leveldb D} `{Spare} `{SpecialRegex} `{StdSort} `{Machine}.
Abbreviation W := (cpp (Server D)).

Definition user_minInformation (user : Person) : W json :=
  v ← assign JNull (lit "first_name") (JString (firstName user));
  v ← assign v (lit "last_name") (JString (lastName user));
  v ← assign v (lit "id") (JInt (id user));
  v ← (match getCurrentJob (workHistory user) with
       | Some currentJob => j ← WorkHistory_serializeMe currentJob; assign v (lit "current_job") j
       | None => mret v
       end);
  v ← assign v (lit "tot_recommendations") (JInt (totRecommendations user));
  assign v (lit "mail") (JString (email user)).

(** The values of a query: what is asked for, with the page and its size. *)
Definition search_query (queryParams : list Z) : W (Search * Z * Z) :=
  name ← getSearchByFromQueryParams queryParams (lit "names");
  distance ← getSearchByFromQueryParams queryParams (lit "distances");
  position ← getSearchByFromQueryParams queryParams (lit "positions");
  skill ← getSearchByFromQueryParams queryParams (lit "skills");
  mail ← getSearchByFromQueryParams queryParams (lit "mails");
  page_number ← getPageNumberFromQueryParams queryParams;
  page_size ← getPageSizeFromQueryParams queryParams;
  let values t := split t 44 in
  mret (mk_search (values <$> name) (values <$> position) (values <$> skill) (values <$> distance) (values <$> mail), page_number, page_size).

Definition no_criterion (s : Search) : bool :=
  match s with mk_search None None None None None => true | _ => false end.

Definition Search_handleGet (_ : option Session) (rq : Request) (_ : list Z) : W Response :=
  uri ← query_params rq;
  query ← catch (q ← search_query (uriDecode uri); mret (inr q)) (fun e => match e with InvalidRequestException m => mret (inl (error_response setBadRequestHeader m)) | e => throw e end);
  match query with
  | inl response => mret response
  | inr (search_values, page_number, page_size) =>
      if match by_distance search_values with Some d => negb (size d =? 3) | None => false end
      then mret (error_response setBadRequestHeader (lit "La cantidad de valores para la busqueda por distancia debe ser 3"))
      else
        result ← (if no_criterion search_values then on_db getAllUsers else on_db (search_users_by search_values));
        let result := std_sort myfunction result in
        users ← pure (page result page_number page_size);
        jresult ← assign2 JNull (lit "metadata") (lit "total_count") (JUInt (size result));
        jresult ← append_members jresult (lit "result") users user_minInformation;
        mret (success (Some jresult))
  end.

Definition SearchHandler : Handler D := mk_handler true false false false Search_handleGet not_implemented not_implemented not_implemented_post.

(** *** TopTenHandler, which no route leads to *)

Definition getOrderTypeFromQueryParams {S} (query_params : list Z) : cpp S (list Z) :=
  orderBy_type ← getParameterFromQueryParams query_params (lit "orderBy");
  if negb (bool_decide (orderBy_type = lit "skill")) || negb (bool_decide (orderBy_type = lit "position")) then
    throw (InvalidRequestException (lit "No cumple con ninguno de los posibles ordenes. Están disponibles: skill o position"))
  else mret orderBy_type.

Definition getWhichOneFromQueryParams {S} (query_params : list Z) : cpp S (list Z) := getParameterFromQueryParams query_params (lit "whichOne").

Definition TopTen_handleGet (_ : option Session) (rq : Request) (_ : list Z) : W Response :=
  queryParams ← query_params rq;
  catch (orderBy_type ← getOrderTypeFromQueryParams queryParams;
         whichOne ← getWhichOneFromQueryParams queryParams;
         mret new_Response)
        (fun e => match e with InvalidRequestException m => mret (error_response setBadRequestHeader m) | e => throw e end).

(** No order is accepted: every query gets a bad request. *)
Lemma top_ten_refuses {S} q (s : S) : exists m, getOrderTypeFromQueryParams q s = Ret (inl (InvalidRequestException m), s).
Proof.
  unfold getOrderTypeFromQueryParams, getParameterFromQueryParams. destruct (find_string q _) as [k|]; [|by eexists]. case_match; [by eexists|].
  set (t := take _ _). destruct (decide (t = lit "skill")) as [->|Ht]; [by eexists|].
  eexists. unfold mret, cpp_ret, mbind, cpp_bind. by rewrite (bool_decide_eq_false_2 (t = lit "skill")).
Qed.
End handler.
