(* ===== verification/Web.v ===== *)
(** * The server (api/WebHandler.cpp)

    A message is given to the handler of its path; what a handler throws becomes
    an internal error.  The theorems: every request gets a response with one of
    eight statuses, but for the paths of files; without a valid session nothing
    that is not public happens; and a session is not enough to act for somebody
    else. *)

From Stdlib Require Import ZArith Lia String.
From stdpp Require Import base list numbers option gmap.
From S2P Require Import Prelude Strs Uri Http Cpp Double Json JsonReader JsonSafe JsonRoundtrip Styled Store Relations Person Manager Recommendations Messages Users Sessions Directory Api Handlers Search.

Local Open Scope Z_scope.

(** ** The code *)

(** [regex_match] with "/path.*": anything on the line. *)
Definition path_any (path url : list Z) : bool := starts_with url path && on_one_line (drop (length path) url).

Section code.
Context {D : Type} `{Leveldb D} `{Spare} `{LocalTime} `{ParseTime} `{SpecialRegex} `{StdSort} `{Machine}.
Abbreviation W := (cpp (Server D)).

(** The constructor of a handler reads the name of the database. *)
Definition handle_with (h : Handler D) (rq : Request) (url : list Z) : W Response :=
  Config_get NAME_DB;; Handler_handleRequest h rq url.

Definition route (rq : Request) (url : list Z) : W Response :=
  let is_url s := bool_decide (url = lit s) in
  let any s := path_any (lit s) url in
  if any "/users/"%string || is_url "/users"%string then handle_with UsersHandler rq url else
  if any "/profilepicture/"%string then handle_with PictureHandler rq url else
  if any "/contacts/"%string || is_url "/contacts"%string then handle_with ContactsHandler rq url else
  if is_url "/login"%string then handle_with LoginHandler rq url else
  if is_url "/facebooklogin"%string then handle_with LoginWithFacebookHandler rq url else
  if any "/recommendations"%string then handle_with RecommendationsHandler rq url else
  if any "/messages/"%string || is_url "/messages"%string then handle_with MessagesHandler rq url else
  if any "/conversations/"%string then handle_with ConversationsHandler rq url else
  if any "/notificationtokens/"%string then handle_with NotificationTokenHandler rq url else
  if any "/search"%string then handle_with SearchHandler rq url else
  if any "/profile"%string then throw SpecialRequestException else
  mret (setNotFoundHeader new_Response).

Definition WebHandler_handleRequest (rq : Request) : W Response :=
  catch (url ← pure (getStringFromMgStr (memory rq) (huri (msg rq))); route rq url)
    (fun e => match e with
              | SpecialRequestException => throw e
              | InvalidRequestException _ => throw e     (* it is not derived from [exception] *)
              | e => mret (error_response setInternalServerErrorHeader (what e))
              end).
End code.

(** ** Requests *)

Inductive Method := GET | PUT | DELETE | POST.
Definition method_text (m : Method) : list Z := match m with GET => lit "GET" | PUT => lit "PUT" | DELETE => lit "DELETE" | POST => lit "POST" end.

Definition text_is (b : list Z) (s : mg_str) (t : list Z) : Prop := str_in b s /\ str_bytes b s = t.

(** A message with a method, a path and the token of its header, empty if there
    is none. *)
Record message_is (rq : Request) (meth url tok : list Z) : Prop := {
  mi_method : text_is (memory rq) (method (msg rq)) meth;
  mi_url : text_is (memory rq) (huri (msg rq)) url;
  mi_token : getHttpHeader rq (lit "Authorization") = Ret tok;
}.

Lemma getStringFromMgStr_ok b s t : text_is b s t -> getStringFromMgStr b s = Ret t.
Proof.
  intros [Hin <-]. apply wp_eq. unfold getStringFromMgStr.
  assert (0 <= len s) as Hl by (unfold str_in in Hin; destruct (p s); lia).
  apply wp_loop with (m := fun st => Z.to_nat (len s - st.1)) (I := fun '(i, acc) => 0 <= i <= len s /\ acc = take (Z.to_nat i) (str_bytes b s)).
  - intros [i acc] [Hi ->]. pose proof (size_str_bytes b s Hin) as Hsz. unfold size in Hsz. wp_step.
    + unfold str_in in Hin. destruct (p s) as [q|] eqn:Ep; [|lia]. cbn [deref]. destruct (rd_total b (q + i)) as (c & Hc & ->); [lia|]. cbn [mbind outcome_bind].
      apply wp_mret. split; [|simpl; lia]. split; [lia|]. replace (Z.to_nat (i + 1)) with (S (Z.to_nat i)) by lia. rewrite (take_S_r _ _ c); [done|].
      unfold str_bytes, slice. rewrite Ep, lookup_take_lt, lookup_drop by lia. by replace (Z.to_nat q + Z.to_nat i)%nat with (Z.to_nat (q + i)) by lia.
    + apply wp_mret. rewrite take_ge by lia. done.
  - split; [lia|done].
  - simpl. lia.
Qed.

Lemma isEqual_ok b s t u : bytes b -> bytes u -> text_is b s t -> u <> [] -> isEqual b s u = Ret (bool_decide (t = u)).
Proof.
  intros Hb Hu [Hin <-] Hne. pose proof (size_str_bytes b s Hin) as Hsz. unfold isEqual. destruct (Z.eqb_spec (len s) (size u)) as [El|El].
  - unfold str_in, str_bytes in *. destruct (p s) as [q|]; [|destruct u; [done|]; unfold size in *; simpl in *; lia]. cbn [deref]. apply wp_eq.
    apply wp_bind. eapply wp_mono; [apply memcmp_spec; unfold size in *; (done || lia)|]. cbv beta. intros d [_ Hd]. apply wp_mret.
    assert (slice u 0 (size u) = u) as Eu by (unfold slice, size; rewrite drop_0, take_ge by lia; done). rewrite Eu, <- El in Hd.
    destruct (Z.eqb_spec d 0) as [->|Hd0]; [rewrite bool_decide_true; [done|by apply Hd]|rewrite bool_decide_false; [done|tauto]].
  - rewrite bool_decide_false; [done|]. intros E. rewrite E in Hsz. lia.
Qed.

(** Tests of closed terms. *)
Ltac evaluate_tests := repeat match goal with |- context [@bool_decide ?P ?d] => let b := eval vm_compute in (@bool_decide P d) in change (@bool_decide P d) with b end; cbv beta iota.

(** ** Access *)

Section access.
Context {D : Type} `{LeveldbLaws D} `{Spare} `{ClockLaws} `{SpecialRegex} `{StdSort} `{Machine}.
Abbreviation W := (cpp (Server D)).

Lemma run_on_db {A} (m : cpp (DBWrapper (D := D)) A) s r w : m (wrapper s) = Ret (r, w) -> on_db m s = Ret (r, mk_server w (commands s) (files s)).
Proof. unfold on_db. by intros ->. Qed.

(** The handler of a path. *)
Definition handler_of (url : list Z) : option (Handler D) :=
  let is_url s := bool_decide (url = lit s) in
  let any s := path_any (lit s) url in
  if any "/users/"%string || is_url "/users"%string then Some UsersHandler else
  if any "/profilepicture/"%string then Some PictureHandler else
  if any "/contacts/"%string || is_url "/contacts"%string then Some ContactsHandler else
  if is_url "/login"%string then Some LoginHandler else
  if is_url "/facebooklogin"%string then Some LoginWithFacebookHandler else
  if any "/recommendations"%string then Some RecommendationsHandler else
  if any "/messages/"%string || is_url "/messages"%string then Some MessagesHandler else
  if any "/conversations/"%string then Some ConversationsHandler else
  if any "/notificationtokens/"%string then Some NotificationTokenHandler else
  if any "/search"%string then Some SearchHandler else None.

Lemma route_handler rq url h : handler_of url = Some h -> route rq url = handle_with h rq url.
Proof. unfold handler_of, route. cbv zeta. intros Hh. repeat (case_match; [by simplify_eq|]). done. Qed.

Definition is_public (h : Handler D) (m : Method) : bool :=
  match m with GET => getPublic h | PUT => putPublic h | DELETE => deletePublic h | POST => postPublic h end.
Definition method_of (h : Handler D) (m : Method) (session : option Session) (rq : Request) (url : list Z) : W Response :=
  match m with
  | GET => handleGetRequest h session rq url | PUT => handlePutRequest h session rq url
  | DELETE => handleDeleteRequest h session rq url | POST => handlePostRequest h session rq
  end.

Lemma run_dispatch h rq m url tok s : bytes (memory rq) -> message_is rq (method_text m) url tok ->
  dispatch h rq url s = (session ← access (is_public h m) rq; method_of h m session rq url) s.
Proof.
  intros Hb [Hm _ _]. unfold dispatch. cbv zeta.
  assert (forall u, u <> [] -> bytes u -> forall s : Server D, pure (isEqual (memory rq) (method (msg rq)) u) s = Ret (inr (bool_decide (method_text m = u)), s)) as E.
  { intros u Hne Hu s'. unfold pure. by rewrite (isEqual_ok _ _ (method_text m)). }
  destruct m; do 4 try (erewrite bind_ok by (apply E; [done|by apply ascii_bytes]); evaluate_tests); reflexivity.
Qed.

(** The answers to a request whose session is not accepted. *)
Definition missing_token : Response := error_response setBadRequestHeader (lit "Falta el token de autenticación en el header").
Definition unauthorized (e : exn) : Response := setBody (what e) (setUnauthorizedHeader new_Response).

(** The state after the session is renewed. *)
Definition renewed (s : Server D) (d : D) (tok mail : list Z) (uid : Z) : Server D := mk_server (Some (write_session d tok mail uid (clock 1))) (commands s) (files s).

(** A session of a user that can be used at the time of the request. *)
Definition open_session (d : D) (tok mail : list Z) (uid : Z) : Prop :=
  tok <> [] /\ bytes mail /\ int64 uid /\ clock_ok (clock 1) /\ exists time, live d tok mail uid time /\ clock 0 - time <= 14400.

Lemma same_server (s : Server D) (d : D) : wrapper s = Some d -> mk_server (Some d) (commands s) (files s) = s.
Proof. destruct s as [w c f]. simpl. by intros ->. Qed.

Lemma run_controlAccess rq tok (s : Server D) (d : D) : getHttpHeader rq (lit "Authorization") = Ret tok -> wrapper s = Some d ->
  (tok = [] -> controlAccess rq s = Ret (inl (InvalidRequestException (lit "Falta el token de autenticación en el header")), s)) /\
  (tok <> [] -> db_get d (token_key tok) = None -> controlAccess rq s = Ret (inl InvalidTokenException, s)) /\
  (forall mail uid time, tok <> [] -> live d tok mail uid time -> bytes mail -> int64 uid -> 14400 < clock 0 - time -> controlAccess rq s = Ret (inl TokenExpiredException, s)) /\
  (forall mail uid, open_session d tok mail uid -> controlAccess rq s = Ret (inr (mk_session tok mail (clock 2) uid), renewed s d tok mail uid)).
Proof.
  intros Ht Hd. assert (controlAccess rq s = if bool_decide (tok = []) then Ret (inl (InvalidRequestException (lit "Falta el token de autenticación en el header")), s)
    else on_db (getSession stack_isdst (clock 0) (clock 1) (clock 2) tok) s) as E.
  { unfold controlAccess. rewrite (bind_ok _ _ _ tok s) by (unfold pure; by rewrite Ht). by case_match. }
  pose proof (same_server s d Hd) as Hs. split_and!.
  - intros ->. exact E.
  - intros Hne Hn. rewrite E, bool_decide_false by done. rewrite (run_on_db _ _ (inl InvalidTokenException) (Some d)); [by rewrite Hs|]. rewrite Hd.
    unfold getSession. rewrite (bind_ok _ _ _ _ _ (run_existsKey _ _ _)). unfold token_key in Hn. by rewrite Hn.
  - intros mail uid time Hne Hl Hm Hi Hlate. rewrite E, bool_decide_false by done. rewrite (run_on_db _ _ (inl TokenExpiredException) (Some d)); [by rewrite Hs|]. rewrite Hd.
    rewrite (run_getSession d tok mail uid time stack_isdst), (time_back _ _ (proj1 Hl)) by (done || (rewrite (time_back _ _ (proj1 Hl)); lia)). by rewrite (proj2 (Z.ltb_lt _ _) Hlate).
  - intros mail uid (Hne & Hm & Hi & Hc & time & Hl & Hin). rewrite E, bool_decide_false by done. apply run_on_db. rewrite Hd.
    rewrite (run_getSession d tok mail uid time stack_isdst), (time_back _ _ (proj1 Hl)) by done. by rewrite (proj2 (Z.ltb_ge _ _) Hin).
Qed.

(** What the server does with a request to a private method. *)
Definition web_exception (e : exn) : W Response :=
  match e with SpecialRequestException => throw e | InvalidRequestException _ => throw e | e => mret (error_response setInternalServerErrorHeader (what e)) end.

Definition configured : Prop := exists v, forall S (s : S), Config_get NAME_DB s = Ret (inr v, s).

Lemma run_web rq url h (s : Server D) : configured -> text_is (memory rq) (huri (msg rq)) url -> handler_of url = Some h ->
  WebHandler_handleRequest rq s = catch (catch (dispatch h rq url) handle_exception) web_exception s.
Proof.
  intros [v Hc] Hu Hh. unfold WebHandler_handleRequest, catch at 1. rewrite (bind_ok _ _ _ url s) by (unfold pure; by rewrite (getStringFromMgStr_ok _ _ url)).
  rewrite (route_handler _ _ _ Hh). unfold handle_with. by rewrite (bind_ok _ _ _ _ _ (Hc _ s)).
Qed.

Lemma run_private rq m url tok h (s : Server D) (d : D) : configured -> bytes (memory rq) -> message_is rq (method_text m) url tok -> handler_of url = Some h -> is_public h m = false -> wrapper s = Some d ->
  (tok = [] -> WebHandler_handleRequest rq s = Ret (inr missing_token, s)) /\
  (tok <> [] -> db_get d (token_key tok) = None -> WebHandler_handleRequest rq s = Ret (inr (unauthorized InvalidTokenException), s)) /\
  (forall mail uid time, tok <> [] -> live d tok mail uid time -> bytes mail -> int64 uid -> 14400 < clock 0 - time ->
     WebHandler_handleRequest rq s = Ret (inr (unauthorized TokenExpiredException), s)) /\
  (forall mail uid, open_session d tok mail uid ->
     WebHandler_handleRequest rq s = catch (catch (method_of h m (Some (mk_session tok mail (clock 2) uid)) rq url) handle_exception) web_exception (renewed s d tok mail uid)).
Proof.
  intros Hc Hb Hm Hh Hp Hd. assert (WebHandler_handleRequest rq s = catch (catch (session ← access false rq; method_of h m session rq url) handle_exception) web_exception s) as ->.
  { rewrite (run_web rq url h) by (done || apply Hm). unfold catch. by rewrite (run_dispatch h rq m url tok), Hp. }
  destruct (run_controlAccess rq tok s d (mi_token _ _ _ _ Hm) Hd) as (H1' & H2' & H3' & H4'). unfold access. cbn [negb].
  assert (forall e (s' : Server D), controlAccess rq s = Ret (inl e, s') ->
    catch (catch (session ← (s ← controlAccess rq; mret (Some s)); method_of h m session rq url) handle_exception) web_exception s = catch (handle_exception e) web_exception s') as Hexn.
  { intros e s' E. unfold catch. rewrite (bind_exn _ _ _ e s'); [done|]. by apply bind_exn. }
  split_and!.
  - intros Ht. by rewrite (Hexn _ _ (H1' Ht)).
  - intros Hne Hn. by rewrite (Hexn _ _ (H2' Hne Hn)).
  - intros mail uid time Hne Hl Hma Hi Hlate. by rewrite (Hexn _ _ (H3' mail uid time Hne Hl Hma Hi Hlate)).
  - intros mail uid Ho. unfold catch. erewrite bind_ok; [done|]. by rewrite (bind_ok _ _ _ _ _ (H4' mail uid Ho)).
Qed.

(** ** Permissions *)

(** Requests to a path that ends in the id of the user they are about. *)
Definition user_paths : list (Method * list Z) :=
  [(PUT, lit "/users/"); (DELETE, lit "/users/"); (PUT, lit "/profilepicture/"); (DELETE, lit "/profilepicture/");
   (GET, lit "/messages/"); (GET, lit "/conversations/"); (PUT, lit "/notificationtokens/")].

(** Requests whose body names their author, with the members they must have. *)
Definition author_paths : list (list Z * list Z * list (list Z)) :=
  [(lit "/contacts", lit "author_id", [lit "action"; lit "author_id"; lit "contact_id"]);
   (lit "/messages", lit "from", [lit "from"; lit "to"; lit "message"]);
   (lit "/recommendations", lit "from", [lit "from"; lit "to"])].

Definition forbidden : Response := error_response setForbiddenRequestHeader (what NotAuthorizedException).

(** The body, as a C string, and the query of a message. *)
Record texts_are (rq : Request) (t q : list Z) : Prop := {
  ta_body : c_string (memory rq) (p (Http.body (msg rq))) = Ret t;
  ta_query : text_is (memory rq) (query_string (msg rq)) q;
}.

Lemma run_request_body rq t q (s : Server D) : texts_are rq t q -> request_body rq s = Ret (inr t, s).
Proof. intros [Hb _]. unfold request_body, pure. by rewrite Hb. Qed.
Lemma run_query_params rq t q (s : Server D) : texts_are rq t q -> query_params rq s = Ret (inr q, s).
Proof. intros [_ Hq]. unfold query_params, pure. by rewrite (getStringFromMgStr_ok _ _ q). Qed.

Lemma find_char_app c (w r : list Z) : Forall (fun x => x <> c) w -> find_char c (w ++ c :: r) = Some (length w).
Proof. induction 1 as [|x w Hx _ IH]; cbn; [by rewrite Z.eqb_refl|]. by rewrite (proj2 (Z.eqb_neq _ _) Hx), IH. Qed.

Lemma user_id_of_path {St} (w : list Z) i (s : St) : Forall (fun x => x <> 47) w -> int64 i -> getUserIdFromUrl (47 :: w ++ 47 :: to_string i) s = Ret (inr i, s).
Proof.
  intros Hw Hi. assert (getSubUrl (47 :: w ++ 47 :: to_string i) = to_string i) as E.
  { unfold getSubUrl. change (drop 1 (47 :: ?x)) with x. rewrite (find_char_app _ _ _ Hw). change (drop (S (S (length w))) (47 :: w ++ 47 :: to_string i)) with (drop (S (length w)) (w ++ [47] ++ to_string i)). rewrite app_assoc. replace (S (length w)) with (length (w ++ [47])) by (rewrite length_app; simpl; lia). apply drop_app_length. }
  assert (to_string i <> []) as Hne by (unfold to_string; intros E0; case_match; [done|]; destruct (udigits_cons 19 i) as (x & y & E1 & _); congruence).
  unfold getUserIdFromUrl, parseUrl. rewrite E, bool_decide_true by done. unfold catch. rewrite stol_to_string; [done|]. unfold int64, minLargestInt, maxLargestInt in Hi. lia.
Qed.

Lemma digits_on_line i : on_one_line (to_string i) = true.
Proof.
  unfold on_one_line. apply negb_true_iff, not_true_is_false. intros (c & Hc & Hl)%existsb_exists.
  assert (Forall (fun c => line_end c = false) (to_string i)) as Hd by (apply to_string_forall; [done|]; unfold line_end; lia).
  rewrite List.Forall_forall in Hd. by rewrite (Hd c Hc) in Hl.
Qed.

(** [/path/] and an id, for a path of the table. *)
Definition id_path (w : list Z) : Prop := exists v, w = 47 :: v ++ [47] /\ Forall (fun x => x <> 47) v.

Lemma user_id_of_url {S} w i (s : S) : id_path w -> int64 i -> getUserIdFromUrl (w ++ to_string i) s = Ret (inr i, s).
Proof. intros (v & -> & Hv) Hi. cbn [app]. rewrite <- app_assoc. by apply user_id_of_path. Qed.

Ltac id_of_path :=
  match goal with |- id_path (_, ?w).2 => let v := eval vm_compute in (removelast (drop 1 w)) in exists v; split; [reflexivity|]; apply List.Forall_forall; intros c Hc; cbn in Hc; lia end.

Lemma user_paths_id m w : In (m, w) user_paths -> id_path w.
Proof.
  assert (Forall (fun x => id_path x.2) user_paths) as Hall; [|rewrite List.Forall_forall in Hall; intros Hin; by apply (Hall (m, w))].
  repeat (apply List.Forall_cons; [id_of_path|]). apply List.Forall_nil.
Qed.

Lemma starts_with_app w t : starts_with (w ++ t) w = true.
Proof. induction w as [|x w IH]; cbn; [by destruct t|]. by rewrite Z.eqb_refl. Qed.

Lemma path_any_app w t : on_one_line t = true -> path_any w (w ++ t) = true.
Proof. intros Ht. unfold path_any. by rewrite starts_with_app, drop_app_length. Qed.

(** The handler of a path with an id behind it: paths that differ do not match. *)
Ltac find_handler :=
  intros ?; unfold handler_of; cbv zeta;
  repeat first
    [ rewrite path_any_app by assumption; reflexivity
    | match goal with
      | |- context [path_any ?w ?u] => replace (path_any w u) with false by reflexivity
      | |- context [@bool_decide ?P ?d] => rewrite (@bool_decide_false P d) by (intros E; discriminate E)
      end; cbn [orb] ].

Lemma users_path t : on_one_line t = true -> handler_of (lit "/users/" ++ t) = Some UsersHandler.
Proof. find_handler. Qed.
Lemma profilepicture_path t : on_one_line t = true -> handler_of (lit "/profilepicture/" ++ t) = Some PictureHandler.
Proof. find_handler. Qed.
Lemma messages_path t : on_one_line t = true -> handler_of (lit "/messages/" ++ t) = Some MessagesHandler.
Proof. find_handler. Qed.
Lemma conversations_path t : on_one_line t = true -> handler_of (lit "/conversations/" ++ t) = Some ConversationsHandler.
Proof. find_handler. Qed.
Lemma notificationtokens_path t : on_one_line t = true -> handler_of (lit "/notificationtokens/" ++ t) = Some NotificationTokenHandler.
Proof. find_handler. Qed.

(** A handler refuses to work on a user that is not the session's. *)
Definition refuses (h : Handler D) (m : Method) : Prop :=
  is_public h m = false /\ forall rq t q url i se (s : Server D), texts_are rq t q -> (forall S (s : S), getUserIdFromUrl url s = Ret (inr i, s)) -> user_id se <> i ->
    method_of h m (Some se) rq url s = Ret (inl NotAuthorizedException, s).

Ltac refuse :=
  split; [reflexivity|]; intros rq t q url i se s Ht Hurl Hne; cbn [method_of handleGetRequest handlePutRequest handleDeleteRequest UsersHandler PictureHandler MessagesHandler ConversationsHandler NotificationTokenHandler];
  unfold Users_handlePut, Users_handleDelete, Picture_handlePut, Picture_handleDelete, Messages_handleGet, Conversations_handleGet, NotificationToken_handlePut;
  rewrite ?(bind_ok _ _ _ _ _ (run_request_body _ _ _ _ Ht)), ?(bind_ok _ _ _ _ _ (run_query_params _ _ _ _ Ht));
  unfold catch; rewrite (bind_ok _ _ _ _ _ (Hurl _ _)); rewrite (bind_ok (session_user _) _ _ (user_id se) s) by reflexivity;
  rewrite (bind_exn _ _ _ NotAuthorizedException s); [reflexivity|];
  unfold check, hasPermissionToEdit, hasPermissionToDeleteUser, hasPermissionToDeleteProfilePicture, hasPermissionToEditProfilePicture, hasPermissionToReadMessage, hasPermissionToGetMessages, hasPermissionToUpdateNotificationToken;
  rewrite ?(Z.eqb_sym i); by rewrite (proj2 (Z.eqb_neq _ _) Hne).

Lemma refuse_users_put : refuses UsersHandler PUT. Proof. refuse. Qed.
Lemma refuse_users_delete : refuses UsersHandler DELETE. Proof. refuse. Qed.
Lemma refuse_picture_put : refuses PictureHandler PUT. Proof. refuse. Qed.
Lemma refuse_picture_delete : refuses PictureHandler DELETE. Proof. refuse. Qed.
Lemma refuse_messages_get : refuses MessagesHandler GET. Proof. refuse. Qed.
Lemma refuse_conversations_get : refuses ConversationsHandler GET. Proof. refuse. Qed.
Lemma refuse_tokens_put : refuses NotificationTokenHandler PUT. Proof. refuse. Qed.

Lemma user_paths_refused m w : In (m, w) user_paths -> exists h, (forall t, on_one_line t = true -> handler_of (w ++ t) = Some h) /\ refuses h m.
Proof.
  intros [[= <- <-]|[[= <- <-]|[[= <- <-]|[[= <- <-]|[[= <- <-]|[[= <- <-]|[[= <- <-]|[]]]]]]]]; eexists;
    (split; [first [exact users_path|exact profilepicture_path|exact messages_path|exact conversations_path|exact notificationtokens_path]|]);
    [apply refuse_users_put|apply refuse_users_delete|apply refuse_picture_put|apply refuse_picture_delete|apply refuse_messages_get|apply refuse_conversations_get|apply refuse_tokens_put].
Qed.

Definition has_members (v : json) (keys : list (list Z)) : Prop := exists m, v = JObject m /\ Forall (fun k => is_Some (find_member k m)) keys.

Lemma run_require v keys k complaint (s : Server D) : has_members v keys -> In k keys -> require v k complaint s = Ret (inr tt, s).
Proof. intros (m & -> & Hk) Hin. rewrite List.Forall_forall in Hk. unfold require, isMember. cbn. by rewrite (bool_decide_true _ (Hk _ Hin)). Qed.

Ltac refuse_author :=
  eexists; split; [reflexivity|]; split; [reflexivity|]; intros rq t q v a se s Ht Hv Hk Ha Hne;
  cbn [method_of handlePutRequest ContactsHandler MessagesHandler RecommendationsHandler]; unfold Contacts_handlePut, Messages_handlePut, Recommendations_handlePut;
  rewrite (bind_ok _ _ _ _ _ (run_request_body _ _ _ _ Ht)); unfold catch; rewrite (bind_ok _ _ _ _ _ (Hv _ _));
  do 3 try (erewrite bind_ok by (eapply run_require; [exact Hk|simpl; tauto]));
  rewrite (bind_ok _ _ _ _ _ (Ha _ _)); rewrite (bind_ok (session_user _) _ _ (user_id se) s) by reflexivity;
  rewrite (bind_exn _ _ _ NotAuthorizedException s); [reflexivity|];
  unfold check, hasPermissionToContactUser, hasPermissionToSendMessage, hasPermissionToSendRecommendations; rewrite ?(Z.eqb_sym a); by rewrite (proj2 (Z.eqb_neq _ _) Hne).

Lemma author_paths_refused w author keys : In (w, author, keys) author_paths -> exists h, handler_of w = Some h /\ is_public h PUT = false /\
  forall rq t q v a se (s : Server D), texts_are rq t q -> (forall S (s : S), parseBody t s = Ret (inr v, s)) -> has_members v keys ->
    (forall S (s : S), long_member v author s = Ret (inr a, s)) -> user_id se <> a -> method_of h PUT (Some se) rq w s = Ret (inl NotAuthorizedException, s).
Proof. intros [[= <- <- <-]|[[= <- <- <-]|[[= <- <- <-]|[]]]]; refuse_author. Qed.

Lemma run_refused rq m url tok h (s : Server D) (d : D) mail uid :
  configured -> bytes (memory rq) -> message_is rq (method_text m) url tok -> handler_of url = Some h -> is_public h m = false -> wrapper s = Some d -> open_session d tok mail uid ->
  (forall s, method_of h m (Some (mk_session tok mail (clock 2) uid)) rq url s = Ret (inl NotAuthorizedException, s)) ->
  WebHandler_handleRequest rq s = Ret (inr forbidden, renewed s d tok mail uid).
Proof.
  intros Hc Hb Hm Hh Hp Hd Ho Href. destruct (run_private rq m url tok h s d Hc Hb Hm Hh Hp Hd) as (_ & _ & _ & Hrun). rewrite (Hrun mail uid Ho).
  unfold catch. by rewrite Href.
Qed.
End access.

(** C8: a request to a method that is not public, whatever its path: without a
    token in the header it is a bad request, with a token that nobody has or one
    that was not used for four hours it is not authorised, and in all of these
    cases the database, the files and the shell are left alone. *)
Theorem no_session_no_effect {D} `{LeveldbLaws D} `{Spare} `{ClockLaws} `{SpecialRegex} `{StdSort} `{Machine} rq m url tok h (s : Server D) (d : D) :
  configured -> bytes (memory rq) -> message_is rq (method_text m) url tok -> handler_of url = Some h -> is_public h m = false -> wrapper s = Some d ->
  (tok = [] -> WebHandler_handleRequest rq s = Ret (inr missing_token, s)) /\
  (tok <> [] -> db_get d (token_key tok) = None -> WebHandler_handleRequest rq s = Ret (inr (unauthorized InvalidTokenException), s)) /\
  (forall mail uid time, tok <> [] -> live d tok mail uid time -> bytes mail -> int64 uid -> 14400 < clock 0 - time ->
     WebHandler_handleRequest rq s = Ret (inr (unauthorized TokenExpiredException), s)).
Proof.
  intros Hc Hb Hm Hh Hp Hd. destruct (run_private rq m url tok h s d Hc Hb Hm Hh Hp Hd) as (H1' & H2' & H3' & _). by split_and!.
Qed.

(** C14: a user with an open session who asks to change, delete or read what
    belongs to the user with another id, or to add a contact, send a message or
    recommend in the name of another, is answered that this is forbidden; nothing
    but the time of his session changes. *)
Theorem only_for_oneself {D} `{LeveldbLaws D} `{Spare} `{ClockLaws} `{SpecialRegex} `{StdSort} `{Machine} rq tok t q (s : Server D) (d : D) mail uid :
  configured -> bytes (memory rq) -> texts_are rq t q -> wrapper s = Some d -> open_session d tok mail uid ->
  (forall m w i, In (m, w) user_paths -> message_is rq (method_text m) (w ++ to_string i) tok -> int64 i -> i <> uid ->
     WebHandler_handleRequest rq s = Ret (inr forbidden, renewed s d tok mail uid)) /\
  (forall w author keys v a, In (w, author, keys) author_paths -> message_is rq (method_text PUT) w tok ->
     (forall S (s : S), parseBody t s = Ret (inr v, s)) -> has_members v keys -> (forall S (s : S), long_member v author s = Ret (inr a, s)) -> a <> uid ->
     WebHandler_handleRequest rq s = Ret (inr forbidden, renewed s d tok mail uid)).
Proof.
  intros Hc Hb Ht Hd Ho. split.
  - intros m w i Hin Hm Hi Hne. pose proof (user_paths_id m w Hin) as Hid. destruct (user_paths_refused m w Hin) as (h & Hh & Hp & Href).
    apply (run_refused rq m (w ++ to_string i) tok h); try done; [apply Hh, digits_on_line|]. intros s'. apply (Href rq t q _ i); [done|intros; by apply user_id_of_url|cbn; congruence].
  - intros w author keys v a Hin Hm Hv Hk Ha Hne. destruct (author_paths_refused w author keys Hin) as (h & Hh & Hp & Href).
    apply (run_refused rq PUT w tok h); try done. intros s'. apply (Href rq t q v a); [done..|cbn; congruence].
Qed.

(** *** A request on the wire *)

(** What mongoose makes of a text in its buffer. *)
Definition received (text : list Z) : Request :=
  mk_request (text ++ [0]) match mg_parse_http (text ++ [0]) 0 (size text) http0 true with Ret (_, hm) => hm | Fault _ => http0 end.

Definition wire (start token_line body : list Z) : list Z :=
  start ++ lit " HTTP/1.1" ++ CRLF ++ token_line ++ lit "Content-Length: " ++ to_string (size body) ++ CRLF ++ CRLF ++ body.

Definition sample_machine : Machine := {| clock := fun n => 1000 + Z.of_nat n; rand_numbers := replicate 8 63; stack_isdst := 0;
  configValues := JObject [(NAME_DB, JString (lit "db")); (IMG_FOLDER, JString (lit "img/"))]; shell := fun _ => None; std_what := fun _ => lit "std::exception" |}.

Definition str_inside (b : list Z) (s : mg_str) : bool :=
  match p s with Some i => (0 <=? i) && (0 <=? len s) && (i + len s <=? size b) | None => len s =? 0 end.

Lemma text_is_check b s t : str_inside b s && bool_decide (str_bytes b s = t) = true -> text_is b s t.
Proof. intros [Hi Ht%bool_decide_eq_true]%andb_prop. split; [|done]. unfold str_in, str_inside in *. destruct (p s); lia. Qed.

Lemma sample_configured : @configured sample_machine.
Proof. by exists (lit "db"). Qed.

(** The message of a text: everything is evaluated. *)
Ltac message := split; first [apply text_is_check; vm_compute; reflexivity | vm_compute; reflexivity].

Lemma no_session_no_effect_witness :
  let D := gmap (list Z) (list Z) in let _ : Spare := fun _ => [] in let _ := second_text in let _ := text_second in let _ := seconds in let _ : SpecialRegex := fun _ => None in
  let _ : StdSort := fun _ l => l in let _ := sample_machine in
  let s : Server D := mk_server (Some ∅) [] ∅ in
  WebHandler_handleRequest (received (wire (lit "PUT /users/7") [] (lit "{}"))) s = Ret (inr missing_token, s) /\
  WebHandler_handleRequest (received (wire (lit "PUT /users/7") (lit "Authorization: tok" ++ CRLF) (lit "{}"))) s = Ret (inr (unauthorized InvalidTokenException), s).
Proof.
  intros D sp lt pt cr sr ss mc s. pose proof seconds_laws as CL.
  set (rq1 := received (wire _ [] _)). set (rq2 := received (wire _ (_ ++ _) _)).
  assert (message_is rq1 (method_text PUT) (lit "/users/7") []) as Hm1 by message.
  assert (message_is rq2 (method_text PUT) (lit "/users/7") (lit "tok")) as Hm2 by message.
  assert (bytes (memory rq1) /\ bytes (memory rq2)) as [Hb1 Hb2] by (split; apply ascii_bytes; vm_compute; reflexivity).
  split.
  - exact (proj1 (no_session_no_effect rq1 PUT (lit "/users/7") [] UsersHandler s ∅ sample_configured Hb1 Hm1 eq_refl eq_refl eq_refl) eq_refl).
  - exact (proj1 (proj2 (no_session_no_effect rq2 PUT (lit "/users/7") (lit "tok") UsersHandler s ∅ sample_configured Hb2 Hm2 eq_refl eq_refl eq_refl)) ltac:(discriminate) eq_refl).
Defined.

Lemma only_for_oneself_witness :
  let D := gmap (list Z) (list Z) in let _ : Spare := fun _ => [] in let _ := second_text in let _ := text_second in let _ := seconds in let _ : SpecialRegex := fun _ => None in
  let _ : StdSort := fun _ l => l in let _ := sample_machine in
  let d : D := <[token_key (lit "tok") := FastWriter_write (session_value (lit "a@b.c") 5 (to_string 900))]> ∅ in
  let s := mk_server (Some d) [] ∅ in
  WebHandler_handleRequest (received (wire (lit "PUT /users/7") (lit "Authorization: tok" ++ CRLF) (lit "{}"))) s = Ret (inr forbidden, renewed s d (lit "tok") (lit "a@b.c") 5) /\
  WebHandler_handleRequest (received (wire (lit "PUT /recommendations") (lit "Authorization: tok" ++ CRLF) (FastWriter_write (JObject [(lit "from", JInt 7); (lit "to", JInt 5)])))) s =
    Ret (inr forbidden, renewed s d (lit "tok") (lit "a@b.c") 5).
Proof.
  intros D sp lt pt cr sr ss mc d s. pose proof seconds_laws as CL.
  assert (open_session d (lit "tok") (lit "a@b.c") 5) as Ho.
  { split_and!; [discriminate|by apply ascii_bytes|done|done|]. exists 900. split; [split; [done|reflexivity]|vm_compute; discriminate]. }
  set (rq1 := received (wire (lit "PUT /users/7") _ _)). set (rq2 := received (wire (lit "PUT /recommendations") _ _)). set (v := JObject [(lit "from", JInt 7); (lit "to", JInt 5)]) in *.
  assert (message_is rq1 (method_text PUT) (lit "/users/" ++ to_string 7) (lit "tok")) as Hm1 by message.
  assert (message_is rq2 (method_text PUT) (lit "/recommendations") (lit "tok")) as Hm2 by message.
  assert (bytes (memory rq1) /\ bytes (memory rq2)) as [Hb1 Hb2] by (split; apply ascii_bytes; vm_compute; reflexivity).
  assert (texts_are rq1 (lit "{}") []) as Ht1 by (split; [vm_compute; reflexivity|apply text_is_check; vm_compute; reflexivity]).
  assert (texts_are rq2 (FastWriter_write v) []) as Ht2 by (split; [vm_compute; reflexivity|apply text_is_check; vm_compute; reflexivity]).
  assert (forall S (s : S), parseBody (FastWriter_write v) s = Ret (inr v, s)) as Hv by (intros; vm_compute; reflexivity).
  split.
  - exact (proj1 (only_for_oneself rq1 (lit "tok") (lit "{}") [] s d (lit "a@b.c") 5 sample_configured Hb1 Ht1 eq_refl Ho) PUT (lit "/users/") 7
      (or_introl eq_refl) Hm1 ltac:(done) ltac:(done)).
  - exact (proj2 (only_for_oneself rq2 (lit "tok") (FastWriter_write v) [] s d (lit "a@b.c") 5 sample_configured Hb2 Ht2 eq_refl Ho)
      (lit "/recommendations") (lit "from") [lit "from"; lit "to"] v 7 (or_intror (or_intror (or_introl eq_refl))) Hm2 Hv
      ltac:(by exists [(lit "from", JInt 7); (lit "to", JInt 5)]; split; [|repeat constructor; eexists]) ltac:(reflexivity) ltac:(done)).
Defined.
