(* ===== verification/Answers.v ===== *)
(** * Every request is answered (api/WebHandler.cpp, api/handler/)

    Whatever an exception, a handler turns it into a response or lets the web
    handler do so: the only one that leaves the server is the one with which the
    paths of files are handed back to mongoose. *)

From Stdlib Require Import ZArith Lia String.
From stdpp Require Import base list numbers option gmap.
From S2P Require Import Prelude Strs Uri Http Cpp Double Json JsonReader JsonSafe JsonRoundtrip Styled Store Relations Person Manager Recommendations Messages Users Sessions Directory Api Handlers Search Web.

Local Open Scope Z_scope.

(** ** Code that comes to an end *)

(** A computation that does not run out of fuel. *)
Definition ends {A} (c : outcome A) : Prop := c <> Fault OutOfFuel.
Abbreviation in_fuel := (wp_or (fun f => f <> OutOfFuel)).

Lemma ends_or {A} (c : outcome A) (Q : A -> Prop) : in_fuel c Q -> ends c.
Proof. intros H ->. by apply H. Qed.

Lemma or_ends {A} (c : outcome A) : ends c -> in_fuel c (fun _ => True).
Proof. intros H. destruct c as [a|f]; [done|]. intros ->. by apply H. Qed.

Ltac fuel_step :=
  lazymatch goal with
  | |- wp_or _ (_ ≫= _) _ => apply wp_or_bind
  | |- wp_or _ (mret _) _ => apply wp_or_mret
  | |- wp_or _ (rd _ _) _ => apply wp_or_rd; [done|intros ? ?]
  | |- wp_or _ (Fault _) _ => done
  | |- wp_or _ (match ?x with _ => _ end) _ => destruct x eqn:?
  end.
Ltac fuel_steps := repeat (fuel_step; cbv beta iota).

Lemma ends_int z : ends (int z).
Proof. unfold int. by case_decide. Qed.
Lemma ends_long z : ends (long z).
Proof. unfold long. by case_match. Qed.
Lemma ends_rd {A} (l : list A) i : ends (rd l i).
Proof. unfold rd. by repeat case_match. Qed.

Lemma ends_strlen b i : ends (strlen b i).
Proof.
  apply (ends_or _ (fun _ => True)). unfold strlen. destruct (decide (0 <= i)) as [Hi|Hi].
  - apply wp_or_loop with (I := fun k => 0 <= k) (m := fun k => Z.to_nat (size b - k)); [|done|unfold size; lia]. intros k Hk. fuel_steps; [done|lia].
  - cbn [loop]. by rewrite rd_oob by lia.
Qed.

Lemma ends_memcmp b1 i1 b2 i2 n : ends (memcmp b1 i1 b2 i2 n).
Proof.
  apply (ends_or _ (fun _ => True)). unfold memcmp. apply wp_or_loop with (I := fun k => 0 <= k) (m := fun k => Z.to_nat (n - k)); [|done|lia].
  intros k Hk. fuel_steps; try done. lia.
Qed.

Lemma ends_ncasecmp b1 i1 b2 i2 n : ends (mg_ncasecmp b1 i1 b2 i2 n).
Proof.
  apply (ends_or _ (fun _ => True)). unfold mg_ncasecmp. destruct (n >? 0); [|done]. destruct (decide (0 <= i1)) as [Hi|Hi].
  - apply wp_or_loop with (I := fun '(s1, _, _) => 0 <= s1) (m := fun '(s1, _, _) => Z.to_nat (size b1 - s1)); [|done|unfold size; lia].
    intros [[s1 s2] k] Hs. unfold lowercase. fuel_steps; try done. lia.
  - cbn [loop]. unfold lowercase. by rewrite rd_oob by lia.
Qed.

Lemma ends_getString b x : ends (getStringFromMgStr b x).
Proof.
  apply (ends_or _ (fun _ => True)). unfold getStringFromMgStr. apply wp_or_loop with (I := fun '(i, _) => 0 <= i) (m := fun '(i, _) => Z.to_nat (len x - i)); [|done|lia].
  intros [i acc] Hi. unfold deref. fuel_steps; try done. lia.
Qed.

Lemma ends_get_header b hm name : ends (mg_get_http_header b hm name).
Proof.
  apply (ends_or _ (fun _ => True)). unfold mg_get_http_header. cbv zeta. apply wp_or_loop with (I := fun i => 0 <= i) (m := fun i => Z.to_nat (size (header_names hm) - i)); [|done|unfold size; lia].
  intros i Hi. apply wp_or_bind, wp_or_rd; [done|]. intros h Hh. destruct (Strs.len h >? 0); [|done]. apply wp_or_bind, wp_or_rd; [done|]. intros v _.
  destruct (p h) as [q|]; [|apply wp_or_mret; split; lia]. destruct (Strs.len h =? size name); [|apply wp_or_mret; split; lia].
  fuel_step. eapply wp_or_mono; [apply or_ends, ends_ncasecmp|]. intros d _. cbv beta. destruct (d =? 0); [done|]. apply wp_or_mret. split; lia.
Qed.

Lemma ends_bind {A B} (c : outcome A) (f : A -> outcome B) : ends c -> (forall a, ends (f a)) -> ends (c ≫= f).
Proof. intros Hc Hf. destruct c as [a|e]; [apply Hf|]. intros [= ->]. by apply Hc. Qed.

Lemma ends_header rq name : ends (getHttpHeader rq name).
Proof. unfold getHttpHeader. apply ends_bind; [apply ends_get_header|]. intros [h|]; [|done]. apply ends_bind; [apply ends_getString|done]. Qed.

Lemma ends_isEqual b x t : ends (isEqual b x t).
Proof. unfold isEqual, deref. destruct (_ =? _); [|done]. apply ends_bind; [|done]. destruct (p x); [apply ends_memcmp|done]. Qed.

Lemma ends_c_string b q : ends (c_string b q).
Proof. unfold c_string, deref. destruct q; [|done]. apply ends_bind; [apply ends_strlen|done]. Qed.

Lemma ends_delete_each {A} (v : list A) : ends (delete_each v).
Proof.
  apply (ends_or _ (fun _ => True)). unfold delete_each. cbv zeta. apply wp_or_bind.
  apply wp_or_mono with (P := fun _ => True); [|by intros []]. apply wp_or_loop with (I := fun '(i, w) => 0 <= i /\ i + size w = size v) (m := fun '(i, w) => length w); [|split; lia|simpl; lia].
  intros [i w] [Hi Hw]. destruct (i =? size v); cbn [negb]; [done|]. fuel_step. fuel_step. fuel_step. eapply wp_or_mono with (P := fun j => j = i + 1); [unfold int; by case_decide|].
  intros ? ->. cbv beta. fuel_step. destruct w as [|x w]; [unfold size in *; simpl in *; lia|]. rewrite removelast_firstn_len. unfold size in *. rewrite length_take. simpl length in *. lia.
Qed.

Lemma ends_delete_person u : ends (delete_person u).
Proof. unfold delete_person, deleteWorkHistory, deleteSkills. apply ends_bind; [apply ends_delete_each|]. intros _. apply ends_bind; [apply ends_delete_each|done]. Qed.

Lemma ends_getNewToken rands : ends (getNewToken rands).
Proof.
  unfold getNewToken. apply ends_bind; [|intros frame; apply ends_bind; [unfold wr; by case_decide|done]].
  apply (ends_or _ (fun _ => True)). unfold fill_token. apply wp_or_loop with (I := fun '(i, _) => 0 <= i) (m := fun '(i, _) => Z.to_nat (token_length - i)); [|done|simpl; lia].
  intros [i frame] Hi. fuel_step; [|done]. fuel_step. fuel_step. fuel_step. fuel_step. fuel_step. eapply wp_or_mono with (P := fun _ => True); [unfold wr; by case_decide|]. intros w _. cbv beta. fuel_step. lia.
Qed.

Lemma ends_first {A} (l : list A) : ends (first l).
Proof. unfold first. by destruct l. Qed.

Lemma ends_memcpy {A} (d : list A) i s j n : ends (memcpy d i s j n).
Proof. unfold memcpy. by case_decide. Qed.

Lemma ends_getMessage_id e : ends (getMessage_id e).
Proof. by destruct e. Qed.

Lemma ends_skip_lines b q : ends (deref q (skip_lines b)).
Proof.
  destruct q as [i|]; [|done]. apply (ends_or _ (fun _ => True)). cbn [deref]. unfold skip_lines.
  apply wp_or_loop with (I := fun '(i, _, _, _) => 0 <= i) (m := fun '(i, _, _, _) => Z.to_nat (200 - i)); [|done|simpl; lia].
  intros [[[k at_byte] lines] chars] Hk. destruct (Z.ltb_spec k 200); cbn [andb]; [|done]. destruct (negb _); [|done]. apply wp_or_bind, wp_or_rd; [done|]. intros c _. split; [lia|]. lia.
Qed.

Lemma long_or z : in_fuel (long z) (fun x => int64 x).
Proof. unfold long. destruct (Z.leb_spec minLargestInt z), (Z.leb_spec z maxLargestInt); by cbn. Qed.

(** A page ends before the indexes come round. *)
Lemma ends_page l n m : ends (page l n m).
Proof.
  apply (ends_or _ (fun _ => True)). unfold page. apply wp_or_bind. eapply wp_or_mono; [apply long_or|]. intros k _. cbv beta.
  apply wp_or_bind. eapply wp_or_mono; [apply long_or|]. intros start Hstart. cbv beta. apply wp_or_bind. eapply wp_or_mono; [apply long_or|]. intros stop Hstop. cbv beta zeta.
  cbv beta in *. unfold int64, minLargestInt, maxLargestInt in *. rewrite Z.gtb_ltb. pose proof (size_nonneg l) as Hl. assert (0 <= u64 stop < 2 ^ 64) as Hu by (apply Z.mod_pos_bound; lia).
  destruct (Z.ltb_spec (size l) (2 ^ 64)) as [Hsmall|Hbig].
  - assert (exists e, (if size l <? u64 stop then size l else stop) = e /\ e < 2 ^ 64) as (e & -> & He) by (eexists; split; [reflexivity|]; destruct (_ <? _); lia).
    apply wp_or_loop with (I := fun '(i, _) => - 2 ^ 63 <= i <= 2 ^ 64) (m := fun '(i, _) => if i <? 0 then Z.to_nat (size l - (i + 2 ^ 64)) else Z.to_nat (size l - i)); [|lia|destruct (Z.ltb_spec start 0); unfold size in *; lia].
    intros [i acc] Hi. destruct (Z.ltb_spec i e); [|done]. apply wp_or_bind, wp_or_rd; [done|]. intros x Hx. cbn [wp_or mret outcome_ret]. unfold u64 in Hx. destruct (Z.ltb_spec i 0).
    + rewrite <- (Z.mod_add i 1), (Z.mod_small (i + 1 * 2 ^ 64)) in Hx by lia. destruct (Z.ltb_spec (i + 1) 0); lia.
    + rewrite Z.mod_small in Hx by lia. destruct (Z.ltb_spec (i + 1) 0); lia.
  - rewrite (proj2 (Z.ltb_ge (size l) (u64 stop))) by lia.
    apply wp_or_loop with (I := fun _ => True) (m := fun '(i, _) => Z.to_nat (stop - i)); [|done|unfold size in *; lia].
    intros [i acc] _. destruct (Z.ltb_spec i stop); [|done]. apply wp_or_bind, wp_or_rd; [done|]. intros x _. cbn [wp_or mret outcome_ret]. split; [done|lia].
Qed.

Lemma ends_parse doc root : ends (Reader_parse doc root).
Proof. destruct (Reader_total doc root) as [r ->]. done. Qed.

(** ** Code that throws no special exception *)

(** A computation whose results satisfy [Q], which throws no
    [SpecialRequestException] and which comes to an end, when [fuel] asks for it. *)
Definition gives {S A} (fuel : bool) (Q : A -> Prop) (m : cpp S A) : Prop :=
  forall s, match m s with
  | Ret (inr a, _) => Q a
  | Ret (inl e, _) => e <> SpecialRequestException
  | Fault f => fuel = true -> f <> OutOfFuel
  end.
Abbreviation quiet fuel := (gives fuel (fun _ => True)).

Section rules.
Context {S : Type} (fuel : bool).

Lemma gives_ret {A} (Q : A -> Prop) (a : A) : Q a -> gives fuel Q (mret a : cpp S A).
Proof. by intros HQ s. Qed.

Lemma gives_throw {A} (Q : A -> Prop) e : e <> SpecialRequestException -> gives fuel Q (throw e : cpp S A).
Proof. by intros He s. Qed.

Lemma gives_bind {A B} (Q : B -> Prop) (m : cpp S A) f : quiet fuel m -> (forall a, gives fuel Q (f a)) -> gives fuel Q (m ≫= f).
Proof. intros Hm Hf s. unfold mbind, cpp_bind. specialize (Hm s). destruct (m s) as [[[e|a] s1]|]; [done|apply Hf|done]. Qed.

Lemma gives_catch {A} (Q : A -> Prop) (m : cpp S A) h : gives fuel Q m -> (forall e, e <> SpecialRequestException -> gives fuel Q (h e)) -> gives fuel Q (catch m h).
Proof. intros Hm Hh s. unfold catch. specialize (Hm s). destruct (m s) as [[[e|a] s1]|]; [by apply Hh|done|done]. Qed.

Lemma quiet_pure {A} (c : outcome A) : ends c -> quiet fuel (pure c : cpp S A).
Proof. intros Hc s. unfold pure. destruct c; [done|]. intros _ ->. by apply Hc. Qed.

Lemma quiet_any {A} (c : outcome A) : quiet false (pure c : cpp S A).
Proof. intros s. unfold pure. by destruct c. Qed.

Lemma quiet_get : quiet fuel (get : cpp S S).
Proof. by intros s. Qed.
Lemma quiet_put (s : S) : quiet fuel (put s).
Proof. by intros s'. Qed.

Lemma quiet_map_each {A B} (l : list A) (f : A -> cpp S B) : (forall x, quiet fuel (f x)) -> quiet fuel (map_each l f).
Proof. intros Hf. induction l as [|x l IH]; cbn; [by apply gives_ret|]. apply gives_bind; [apply Hf|]. intros y. apply gives_bind; [exact IH|]. intros. by apply gives_ret. Qed.

Lemma quiet_for_each {A} (l : list A) (f : A -> cpp S unit) : (forall x, quiet fuel (f x)) -> quiet fuel (for_each l f).
Proof. intros Hf. induction l as [|x l IH]; cbn; [by apply gives_ret|]. apply gives_bind; [apply Hf|]. by intros. Qed.
End rules.

Lemma quiet_on_db {D A} fuel (m : cpp (DBWrapper (D := D)) A) : quiet fuel m -> quiet fuel (on_db m).
Proof. intros Hm s. unfold on_db. specialize (Hm (wrapper s)). by destruct (m (wrapper s)) as [[[e|x] w]|]. Qed.

(** The texts, vectors and numbers of the handlers. *)
Create HintDb ends.
#[export] Hint Resolve ends_int ends_long ends_rd ends_header ends_isEqual ends_c_string ends_getString ends_delete_each ends_delete_person ends_getNewToken ends_first ends_memcpy ends_getMessage_id ends_skip_lines ends_page ends_parse ends_bind : ends.
Ltac solve_ends := first [assumption | solve [auto with ends nocore] | unfold deleteWorkHistory, deleteSkills; solve [auto with ends nocore] | unfold ends; discriminate].

(** Code that throws nothing special is recognised by its structure: a definition
    is unfolded when no rule applies. *)
Ltac head_of t := lazymatch t with ?f _ => head_of f | _ => t end.

Create HintDb quiet.

Ltac quiet_step :=
  lazymatch goal with
  | |- gives _ _ (mret _) => apply gives_ret; auto with quiet
  | |- gives _ _ (throw _) => apply gives_throw; first [assumption | discriminate]
  | |- gives _ _ (_ ≫= _) => apply gives_bind; [|intros ?]
  | |- gives _ _ (catch _ _) => apply gives_catch; [|intros ? ?]
  | |- gives false _ (pure _) => apply quiet_any
  | |- gives _ _ (pure _) => apply quiet_pure; solve_ends
  | |- gives _ _ get => apply quiet_get
  | |- gives _ _ (put _) => apply quiet_put
  | |- gives _ _ (map_each _ _) => apply quiet_map_each; intros ?
  | |- gives _ _ (for_each _ _) => apply quiet_for_each; intros ?
  | |- gives _ _ (on_db _) => apply quiet_on_db
  | |- gives _ _ (match ?x with _ => _ end) => destruct x; try congruence
  | |- gives _ _ ?m => let h := head_of m in unfold h
  end.
Ltac solve_quiet := intros; repeat (first [solve [auto with quiet nocore] | quiet_step]).

Lemma quiet_append_each {S A} fuel (l : list A) (f : A -> cpp S json) v : (forall x, quiet fuel (f x)) -> quiet fuel (append_each v l f).
Proof. intros Hf. revert v. induction l as [|x l IH]; intros v; cbn [append_each]; solve_quiet. Qed.

Lemma quiet_append_members {S A} fuel (l : list A) (f : A -> cpp S json) v k : (forall x, quiet fuel (f x)) -> quiet fuel (append_members v k l f).
Proof. intros Hf. revert v. induction l as [|x l IH]; intros v; cbn [append_members]; solve_quiet. Qed.

#[export] Hint Extern 1 (gives _ _ (append_each _ _ _)) => apply quiet_append_each; solve_quiet : quiet.
#[export] Hint Extern 1 (gives _ _ (append_members _ _ _ _)) => apply quiet_append_members; solve_quiet : quiet.

Lemma quiet_person {S} fuel v : quiet fuel (Person_deserializeMe v : cpp S Person).
Proof. solve_quiet. Qed.

#[export] Hint Resolve quiet_person : quiet.

Lemma quiet_build_items {S} fuel v i l : quiet fuel (build_items v i l : cpp S json).
Proof. revert v i. induction l as [|x l IH]; intros v i; cbn [build_items]; solve_quiet. Qed.
#[export] Hint Resolve quiet_build_items : quiet.

Section parts.
Context {D : Type} `{Leveldb D} `{Spare} `{LocalTime} `{ParseTime} `{SpecialRegex} `{StdSort} `{Machine}.
Abbreviation M := (cpp (DBWrapper (D := D))).
Abbreviation W := (cpp (Server D)).

Lemma quiet_count_unread fuel u n l : quiet fuel (count_unread u n l : M Z).
Proof. revert n. induction l as [|x l IH]; intros n; cbn [count_unread]; solve_quiet. Qed.
Hint Resolve quiet_count_unread : quiet.

Lemma quiet_conversations fuel u ids l : quiet fuel (conversations_with u ids l : M _).
Proof. revert l. induction ids as [|x ids IH]; intros l; cbn [conversations_with]; solve_quiet. Qed.
Hint Resolve quiet_conversations : quiet.

Lemma quiet_conversation_items fuel v n l : quiet fuel (conversation_items v n l : W _).
Proof. revert v n. induction l as [|x l IH]; intros v n; cbn [conversation_items]; solve_quiet. Qed.
Hint Resolve quiet_conversation_items : quiet.

Lemma quiet_users_among fuel keep test rs : quiet fuel (users_among keep test rs : M _).
Proof. induction rs as [|x rs IH]; cbn [users_among]; solve_quiet. Qed.
Hint Resolve quiet_users_among : quiet.

Lemma quiet_users_named fuel e rs : quiet fuel (users_named e rs : M _).
Proof. induction rs as [|x rs IH]; cbn [users_named]; solve_quiet. Qed.
Hint Resolve quiet_users_named : quiet.

(** The shell and the files. *)
Lemma quiet_popen fuel r : quiet fuel (popen r : W _).
Proof. by intros s. Qed.
Lemma quiet_get_file fuel path : quiet fuel (get_file path : W _).
Proof. by intros s. Qed.
Lemma quiet_set_file fuel path c : quiet fuel (set_file path c : W _).
Proof. by intros s. Qed.
Hint Resolve quiet_popen quiet_get_file quiet_set_file : quiet.

(** ** Statuses *)

Definition statuses : list (list Z) :=
  map lit ["200 OK"; "400 Bad Request"; "401 Unauthorized"; "403 Forbidden"; "404 Not Found"; "409 Conflict"; "500 Internal Server Error"; "501 Not Implemented"]%string.
Definition has_status (r : Response) : Prop := In (header r) statuses.

Lemma error_status set details : has_status (set new_Response) -> has_status (error_response set details).
Proof. done. Qed.
Lemma body_status t r : has_status r -> has_status (setBody t r).
Proof. done. Qed.
Lemma binary_status t n ty r : has_status r -> has_status (setBinaryBody t n ty r).
Proof. done. Qed.
Lemma success_status b : has_status (success b).
Proof. destruct b; by left. Qed.
Hint Resolve error_status body_status binary_status success_status : quiet.
Hint Extern 1 (has_status (_ new_Response)) => cbn; tauto : quiet.
Hint Extern 1 (has_status getNotImplementedResponse) => cbn; tauto : quiet.

(** Code that may have its response already. *)
Definition early {B} (x : Response + B) : Prop := match x with inl r => has_status r | inr _ => True end.

Lemma gives_bind_early {A B} fuel (Q : A -> Prop) (m : W (Response + B)) f :
  gives fuel early m -> (forall r, has_status r -> gives fuel Q (f (inl r))) -> (forall b, gives fuel Q (f (inr b))) -> gives fuel Q (m ≫= f).
Proof.
  intros Hm Hl Hr s. unfold mbind, cpp_bind. specialize (Hm s). destruct (m s) as [[[e|[x|b]] s1]|]; [done|by apply Hl|apply Hr|done].
Qed.
Hint Extern 1 (early (inl _)) => cbn [early]; auto with quiet : quiet.
Hint Extern 1 (early (inr _)) => exact I : quiet.

Ltac solve_answers := intros; repeat first
  [ solve [auto with quiet nocore]
  | lazymatch goal with |- gives _ _ (@mbind _ _ (sum Response _) _ _ _) => apply gives_bind_early; [|intros ? ?; cbv beta iota|intros ?; cbv beta iota] end
  | quiet_step ].

(** *** The handlers *)

Definition answers (fuel : bool) (h : Handler D) : Prop := forall se rq url m, gives fuel has_status (method_of h m se rq url : W Response).

Ltac handler_answers := intros se rq url []; 
  cbv beta iota delta [method_of handleGetRequest handlePutRequest handleDeleteRequest handlePostRequest UsersHandler PictureHandler ContactsHandler LoginHandler
    LoginWithFacebookHandler RecommendationsHandler MessagesHandler ConversationsHandler NotificationTokenHandler SearchHandler]; solve_answers.

Lemma users_answer : answers true UsersHandler. Proof. handler_answers. Qed.
Lemma picture_answer : answers true PictureHandler. Proof. handler_answers. Qed.
Lemma contacts_answer : answers true ContactsHandler. Proof. handler_answers. Qed.
Lemma login_answer : answers true LoginHandler. Proof. handler_answers. Qed.
Lemma facebook_answer : answers true LoginWithFacebookHandler. Proof. handler_answers. Qed.
Lemma recommendations_answer : answers true RecommendationsHandler. Proof. handler_answers. Qed.
Lemma messages_answer : answers false MessagesHandler. Proof. handler_answers. Qed.
Lemma conversations_answer : answers true ConversationsHandler. Proof. handler_answers. Qed.
Lemma tokens_answer : answers true NotificationTokenHandler. Proof. handler_answers. Qed.
Lemma search_answer : answers true SearchHandler. Proof. handler_answers. Qed.

Lemma dispatch_answers fuel h rq url : answers fuel h -> gives fuel has_status (dispatch h rq url : W Response).
Proof.
  intros Hh. unfold dispatch. cbv zeta.
  repeat (apply gives_bind; [apply quiet_pure, ends_isEqual|]; intros []; [apply gives_bind; [solve_quiet|]; intros se; first [exact (Hh se rq url GET)|exact (Hh se rq url PUT)|exact (Hh se rq url DELETE)|exact (Hh se rq url POST)]|]).
  solve_quiet.
Qed.

(** What leaves a handler: a response, or an exception for the web handler. *)
Definition internal (e : exn) : Prop := match e with SpecialRequestException | InvalidRequestException _ => False | _ => True end.
Definition handled (fuel : bool) (x : outcome ((exn + Response) * Server D)) : Prop :=
  match x with Ret (inr r, _) => has_status r | Ret (inl e, _) => internal e | Fault f => fuel = true -> f <> OutOfFuel end.

Lemma handle_exception_handled fuel e (s : Server D) : e <> SpecialRequestException -> handled fuel (handle_exception e s).
Proof. intros He. destruct e; try done; cbn; tauto. Qed.

Lemma Config_get_handled key (s : Server D) : match Config_get key s with Ret (inl e, _) => internal e | Ret (inr _, _) => True | Fault f => f <> OutOfFuel end.
Proof. unfold Config_get, isMember, string_member, member, asString, mbind, cpp_bind, mret, cpp_ret, throw. by repeat case_match; simplify_eq. Qed.

Lemma handle_with_handled fuel h rq url (s : Server D) : answers fuel h -> handled fuel (handle_with h rq url s).
Proof.
  intros Hh. unfold handle_with, mbind, cpp_bind. pose proof (Config_get_handled NAME_DB s) as Hc. destruct (Config_get NAME_DB s) as [[[e|v] s1]|]; [done| |by intros _].
  unfold Handler_handleRequest, catch. pose proof (dispatch_answers fuel h rq url Hh s1) as Hd. destruct (dispatch h rq url s1) as [[[e|x] s2]|]; [by apply handle_exception_handled|done|done].
Qed.

(** Only the handler of messages might not end, see below. *)
Lemma handlers_answer url h : handler_of url = Some h -> answers true h \/ (h = MessagesHandler /\ answers false h).
Proof.
  unfold handler_of. cbv zeta. intros Hh. repeat (case_match; [injection Hh as <-; first [right; split; [done|exact messages_answer]|left; first
    [exact users_answer|exact picture_answer|exact contacts_answer|exact login_answer|exact facebook_answer|exact recommendations_answer|exact conversations_answer|exact tokens_answer|exact search_answer]]|]). done.
Qed.

Lemma route_other rq url : handler_of url = None -> route rq url = if path_any (lit "/profile") url then throw SpecialRequestException else mret (setNotFoundHeader new_Response).
Proof. unfold handler_of, route. cbv zeta. intros Hh. repeat (case_match; [done|]). done. Qed.
End parts.

(** C18: whatever the message and the state of the server, the web handler comes
    to an end: it has a response with one of the eight statuses; or the exception
    leaves it with which a path of files, "/profile..." without a handler of its
    own, is handed to mongoose; or it faults where the code has no defined
    behaviour, and then no loop was left running, unless it was a request on
    messages, whose loops over a vector would not end for one of 2^64. *)
Theorem every_request_answered {D} `{Leveldb D} `{Spare} `{LocalTime} `{ParseTime} `{SpecialRegex} `{StdSort} `{Machine} rq (s : Server D) :
  match WebHandler_handleRequest rq s with
  | Ret (inr response, _) => has_status response
  | Ret (inl e, _) => e = SpecialRequestException /\ exists url, getStringFromMgStr (memory rq) (huri (msg rq)) = Ret url /\ path_any (lit "/profile") url = true /\ handler_of (D := D) url = None
  | Fault f => f = OutOfFuel -> exists url, getStringFromMgStr (memory rq) (huri (msg rq)) = Ret url /\ handler_of (D := D) url = Some MessagesHandler
  end.
Proof.
  unfold WebHandler_handleRequest, catch, mbind at 1, cpp_bind, pure. pose proof (ends_getString (memory rq) (huri (msg rq))) as He. destruct (getStringFromMgStr _ _) as [url|]; [|intros ->; by destruct He]. cbn [mbind outcome_bind].
  destruct (handler_of url) as [h|] eqn:Eh.
  - rewrite (route_handler _ _ _ Eh). assert (forall fuel, answers fuel h -> handled fuel (handle_with h rq url s)) as Hall by (intros; by apply handle_with_handled).
    assert (handled false (handle_with h rq url s)) as Hh.
    { destruct (handlers_answer url h Eh) as [Ha|[_ Ha]]; [|by apply Hall]. specialize (Hall true Ha). by destruct (handle_with h rq url s) as [[[e|x] s1]|f]. }
    destruct (handle_with h rq url s) as [[[e|x] s1]|f]; [destruct e; try done; cbn; tauto|done|].
    intros ->. exists url. split; [done|]. rewrite Eh. destruct (handlers_answer url h Eh) as [Ha|[-> _]]; [|done]. by destruct (Hall true Ha eq_refl).
  - rewrite (route_other _ _ Eh). destruct (path_any (lit "/profile") url) eqn:Ep; [split; [done|by exists url]|cbn; tauto].
Qed.

Lemma every_request_answered_witness :
  let D := gmap (list Z) (list Z) in let _ : Spare := fun _ => [] in let _ := second_text in let _ := text_second in let _ : SpecialRegex := fun _ => None in
  let _ : StdSort := fun _ l => l in let _ := sample_machine in
  let s : Server D := mk_server (Some ∅) [] ∅ in
  let rq1 := received (wire (lit "GET /users/99999999999999999999") [] []) in let rq2 := received (wire (lit "GET /nothing") [] []) in
  (exists r, WebHandler_handleRequest rq1 s = Ret (inr r, s) /\ has_status r) /\ (exists r, WebHandler_handleRequest rq2 s = Ret (inr r, s) /\ has_status r).
Proof.
  intros D sp lt pt sr ss mc s rq1 rq2.
  assert (WebHandler_handleRequest rq1 s = Ret (inr (error_response setInternalServerErrorHeader (what StdOutOfRange)), s)) as E1 by (vm_compute; reflexivity).
  assert (WebHandler_handleRequest rq2 s = Ret (inr (setNotFoundHeader new_Response), s)) as E2 by (vm_compute; reflexivity).
  pose proof (every_request_answered rq1 s) as H1. pose proof (every_request_answered rq2 s) as H2. rewrite E1 in H1. rewrite E2 in H2.
  exact (conj (ex_intro _ _ (conj E1 H1)) (ex_intro _ _ (conj E2 H2))).
Defined.
