(* ===== verification/Journey.v ===== *)
(** * A new user, from the first request on

    The requests of a user that has just installed the application, through the
    web handler: he registers, tries to log in and looks at a profile.  The theorem
    composes the routing, the handlers, the accounts and the sessions. *)

From Stdlib Require Import ZArith Lia String.
From stdpp Require Import base list numbers option gmap.
From S2P Require Import Prelude Strs Uri Http Cpp Double Json JsonReader JsonSafe JsonRoundtrip Styled Store Relations Person Manager Recommendations Messages Users Sessions Directory Api Handlers Search Web.

Local Open Scope Z_scope.

Section journey.
Context {D : Type} `{LeveldbLaws D} `{Spare} `{ClockLaws} `{SpecialRegex} `{StdSort} `{Machine}.
Abbreviation W := (cpp (Server D)).

(** A request to a public method, with a body that is Json. *)
Record json_request (rq : Request) (meth url : list Z) (v : json) : Prop := {
  jr_bytes : bytes (memory rq);
  jr_message : exists tok, message_is rq meth url tok;
  jr_body : exists t q, texts_are rq t q /\ forall S (s : S), parseBody t s = Ret (inr v, s);
}.

Lemma run_public rq m url tok h (s : Server D) : configured -> bytes (memory rq) -> message_is rq (method_text m) url tok -> handler_of url = Some h -> is_public h m = true ->
  WebHandler_handleRequest rq s = catch (catch (method_of h m None rq url) handle_exception) web_exception s.
Proof.
  intros Hc Hb Hm Hh Hp. rewrite (run_web rq url h) by (done || apply Hm). unfold catch. rewrite (run_dispatch h rq m url tok), Hp by done.
  by rewrite (bind_ok _ _ _ None s).
Qed.

(** *** Registering *)

Definition id_answer (i : Z) : Response := success (Some (JObject [(lit "id", JInt i)])).

Lemma run_register rq j p n (s : Server D) (d : D) : configured -> json_request rq (lit "POST") (lit "/users") j -> reads j p -> person_ok p -> brief p -> wrapper s = Some d -> accounts_ok d n -> n < maxLargestInt ->
  match db_get d (mail_key (email p)) with
  | Some _ => WebHandler_handleRequest rq s = Ret (inr (error_response setConflictHeader (what UserAlreadyExistsException)), s)
  | None => exists d', WebHandler_handleRequest rq s = Ret (inr (id_answer (n + 1)), mk_server (Some d') (commands s) (files s)) /\ accounts_ok d' (n + 1) /\
      db_get d' (password_key (email p)) = Some (password p) /\ forall i q, user_is d' i q <-> if decide (n + 1 = i) then q = created p (n + 1) else user_is d i q
  end.
Proof.
  intros Hc [Hb [tok Hm] (t & q & Ht & Hv)] Hj Hp Hbr Hd Hacc Hn. rewrite (run_public rq POST (lit "/users") tok UsersHandler s Hc Hb Hm eq_refl eq_refl).
  assert (forall r d', savePerson j (-1) (Some d) = Ret (r, Some d') -> method_of UsersHandler POST None rq (lit "/users") s =
    match r with inr i => Ret (inr (id_answer i), mk_server (Some d') (commands s) (files s))
    | inl UserAlreadyExistsException => Ret (inr (error_response setConflictHeader (what UserAlreadyExistsException)), mk_server (Some d') (commands s) (files s))
    | inl (InvalidRequestException m) => Ret (inr (error_response setBadRequestHeader m), mk_server (Some d') (commands s) (files s))
    | inl e => Ret (inl e, mk_server (Some d') (commands s) (files s)) end) as Hrun.
  { intros r d' E. cbn [method_of handlePostRequest UsersHandler]. unfold Users_handlePost. rewrite (bind_ok _ _ _ _ _ (run_request_body _ _ _ _ Ht)). unfold catch.
    rewrite (bind_ok _ _ _ _ _ (Hv _ _)). rewrite <- Hd in E. pose proof (run_on_db _ s _ _ E) as E'. destruct r as [e|i].
    - rewrite (bind_exn _ _ _ _ _ E'). by destruct e.
    - by rewrite (bind_ok _ _ _ _ _ E'). }
  pose proof (account_created d n j p Hacc Hn Hj Hp Hbr) as Hc'. destruct (db_get d (mail_key (email p))) as [x|].
  - unfold catch. rewrite (Hrun _ _ Hc'). by rewrite same_server.
  - destruct Hc' as (d' & E & Hacc' & _ & Hpw & Hus & _). exists d'. split_and!; [|done..]. unfold catch. by rewrite (Hrun _ _ E).
Qed.

(** *** Logging in *)

Definition credentials (v : json) (mail pw : list Z) : Prop :=
  has_members v [lit "email"; lit "password"] /\ forall S (s : S), string_member v (lit "email") s = Ret (inr mail, s) /\ string_member v (lit "password") s = Ret (inr pw, s).

Definition token_answer (tok : list Z) (uid : Z) : Response := success (Some (JObject [(TOKEN_KEY, JString tok); (USER_ID_KEY, JInt uid)])).

Lemma run_login d mail pw : length rand_numbers = 8%nat -> login rand_numbers (clock 3) mail pw (Some d) =
  match db_get d (password_key mail) with
  | None => Ret (inl (UserNotFoundByMail mail), Some d)
  | Some y => if bool_decide (y <> pw) then Ret (inl InvalidPasswordException, Some d) else Fault OutOfBounds
  end.
Proof.
  intros Hr. unfold login. rewrite (bind_ok _ _ _ _ _ (run_existsKey _ _ _)). unfold password_key. destruct (db_get d (USER_PASSWORD ++ mail)) as [y|]; [|done]. cbn [truth negb]; cbv beta iota.
  destruct (bool_decide (y <> pw)); [reflexivity|]. unfold mbind, cpp_bind, pure. by rewrite getNewToken_overflow.
Qed.

Lemma run_login_request rq v mail pw (s : Server D) : configured -> json_request rq (lit "POST") (lit "/login") v -> credentials v mail pw ->
  WebHandler_handleRequest rq s = catch (catch (
    user_token ← catch (t ← on_db (login rand_numbers (clock 3) mail pw); mret (inr t))
        (fun e => match e with
                  | InvalidPasswordException => mret (inl (error_response setUnauthorizedHeader (what e)))
                  | UserNotFoundById _ | UserNotFoundByMail _ => mret (inl (error_response setNotFoundHeader (getMessage_mail e)))
                  | e => throw e
                  end);
    match user_token with
    | inl response => mret response
    | inr user_token => uid ← on_db (Sessions.getUserId user_token); mret (token_answer user_token uid)
    end) handle_exception) web_exception s.
Proof.
  intros Hc [Hb [tok Hm] (t & q & Ht & Hv)] [Hk Hcr]. rewrite (run_public rq POST (lit "/login") tok LoginHandler s Hc Hb Hm eq_refl eq_refl). cbn [method_of handlePostRequest LoginHandler].
  enough (forall s, Login_handlePost None rq s = (_ : W Response) s) as E by (unfold catch at 1 2; rewrite E; reflexivity). clear s. intros s. unfold Login_handlePost.
  rewrite (bind_ok _ _ _ (inr v) s).
  - rewrite (bind_ok _ _ _ mail s) by apply Hcr. rewrite (bind_ok _ _ _ pw s) by apply Hcr. reflexivity.
  - unfold catch. rewrite (bind_ok _ _ _ _ _ (run_request_body _ _ _ _ Ht)), (bind_ok _ _ _ _ _ (Hv _ _)).
    do 2 (erewrite bind_ok by (eapply run_require; [exact Hk|simpl; tauto])). reflexivity.
Qed.

Lemma login_answers rq v mail pw (s : Server D) (d : D) : configured -> length rand_numbers = 8%nat -> json_request rq (lit "POST") (lit "/login") v -> credentials v mail pw -> wrapper s = Some d ->
  WebHandler_handleRequest rq s =
    match db_get d (password_key mail) with
    | None => Ret (inr (error_response setNotFoundHeader (getMessage_mail (UserNotFoundByMail mail))), s)
    | Some y => if bool_decide (y <> pw) then Ret (inr (error_response setUnauthorizedHeader (what InvalidPasswordException)), s) else Fault OutOfBounds
    end.
Proof.
  intros Hc Hr Hrq Hcr Hd. rewrite (run_login_request rq v mail pw s Hc Hrq Hcr). pose proof (run_login d mail pw Hr) as El. rewrite <- Hd in El. pose proof (same_server s d Hd) as Hs. rewrite <- Hd in Hs.
  assert (on_db (login rand_numbers (clock 3) mail pw) s = match login rand_numbers (clock 3) mail pw (wrapper s) with Ret (r, w) => Ret (r, mk_server w (commands s) (files s)) | Fault f => Fault f end) as Hon by done.
  rewrite El in Hon. destruct (db_get d (password_key mail)) as [y|]; [destruct (bool_decide (y <> pw))|].
  - unfold catch. rewrite (bind_ok _ _ _ (inl (error_response setUnauthorizedHeader (what InvalidPasswordException))) s); [reflexivity|].
    rewrite (bind_exn _ _ _ _ _ Hon). by rewrite Hs.
  - unfold catch, mbind, cpp_bind. by rewrite Hon.
  - unfold catch. rewrite (bind_ok _ _ _ (inl (error_response setNotFoundHeader (getMessage_mail (UserNotFoundByMail mail)))) s); [reflexivity|].
    rewrite (bind_exn _ _ _ _ _ Hon). by rewrite Hs.
Qed.

(** *** Looking at a profile *)

(** The profile that is sent: without the password, with those who recommend. *)
Definition profile_answer (p : Person) (recommended : list Z) : Response :=
  success (Some (JObject (set_member (lit "recommendations") (JArray (map JInt recommended)) (person_members (setPassword [] p))))).

Lemma append_each_ints {St} l (a : list json) (s : St) : append_each (JArray a) l (fun x => mret (JInt x)) s = Ret (inr (JArray (a ++ map JInt l)), s).
Proof.
  revert a. induction l as [|x l IH]; intros a; cbn [append_each map]; [by rewrite app_nil_r|].
  rewrite (bind_ok _ _ _ (JInt x) s) by done. rewrite (bind_ok _ _ _ (JArray (a ++ [JInt x])) s) by done. rewrite IH. by rewrite <- app_assoc.
Qed.

Lemma run_profile rq tok i (s : Server D) (d : D) : configured -> bytes (memory rq) -> message_is rq (lit "GET") (lit "/users/" ++ to_string i) tok -> int64 i -> wrapper s = Some d ->
  (db_get d (uuid_key i) = None -> WebHandler_handleRequest rq s = Ret (inr (error_response setNotFoundHeader (lit "Usuario con el id " ++ to_string i ++ lit " no existe en el sistema")), s)) /\
  (forall p l, user_is d i p -> recommended_by d i l -> WebHandler_handleRequest rq s = Ret (inr (profile_answer p l), s)).
Proof.
  intros Hc Hb Hm Hi Hd. rewrite (run_public rq GET _ tok UsersHandler s Hc Hb Hm (users_path _ (digits_on_line i)) eq_refl). cbn [method_of handleGetRequest UsersHandler].
  pose proof (same_server s d Hd) as Hs. assert (id_path (lit "/users/")) as Hid by (apply (user_paths_id PUT); by left).
  split.
  - intros Hn. unfold Users_handleGet, catch. rewrite (bind_ok _ _ _ _ _ (user_id_of_url _ i _ Hid Hi)).
    rewrite (bind_exn _ _ _ (UserNotFoundById i) s); [reflexivity|]. rewrite (run_on_db _ _ (inl (UserNotFoundById i)) (Some d)); [by rewrite Hs|]. rewrite Hd.
    unfold getUserById. rewrite (bind_ok _ _ _ _ _ (run_existsKey _ _ _)). unfold uuid_key in Hn. by rewrite Hn.
  - intros p l Hp Hl. unfold Users_handleGet, catch. rewrite (bind_ok _ _ _ _ _ (user_id_of_url _ i _ Hid Hi)).
    rewrite (bind_ok _ _ _ p s) by (rewrite (run_on_db _ _ (inr p) (Some d)); [by rewrite Hs|rewrite Hd; by apply run_getUserById]).
    rewrite (bind_ok _ _ _ _ _ (serialize_person _ _)). rewrite (bind_ok _ _ _ (JArray (map JInt l)) s); [reflexivity|].
    rewrite (run_on_db _ _ (inr (JArray (map JInt l))) (Some d)); [by rewrite Hs|]. rewrite Hd. unfold getRecommendationsAsJson.
    rewrite (bind_ok _ _ _ _ _ (run_getRecommendations d i l Hl)). apply append_each_ints.
Qed.
End journey.

Section after_token.
Context {D : Type} `{LeveldbLaws D} `{Spare} `{ClockLaws}.

(** Saving a token changes no user and no recommendation. *)
Lemma write_session_user (d : D) tok mail uid time i p : user_is (write_session d tok mail uid time) i p <-> user_is d i p.
Proof. unfold write_session. rewrite !user_put; [done|split; done|split; done]. Qed.

Lemma write_session_recommended (d : D) tok mail uid time i l : recommended_by (write_session d tok mail uid time) i l <-> recommended_by d i l.
Proof. unfold recommended_by, write_session. by rewrite !get_put, !decide_False. Qed.

Lemma accounts_put (d : D) n k v : other_key k -> (forall u, recommendation_key u <> k) -> (forall m, password_key m <> k) -> LAST_ID <> k -> accounts_ok d n -> accounts_ok (db_put d k v) n.
Proof.
  intros Hk Hr Hp Hl [Hc Hrange Hlast Hfresh Hpw]. split; [by apply counted_put|done|by rewrite get_put, decide_False| |].
  - intros i Hi Hni. rewrite !get_put, !decide_False; [by apply Hfresh|by intros ->; apply (Hr i)|by intros ->; apply (proj2 Hk i)].
  - intros i p Hu%user_put; [|done]. rewrite get_put, decide_False; [by apply (Hpw i)|]. intros ->. by apply (Hp (email p)).
Qed.

Lemma write_session_accounts (d : D) tok mail uid time n : accounts_ok d n -> accounts_ok (write_session d tok mail uid time) n.
Proof. intros Hacc. unfold write_session. do 2 (apply accounts_put; [by split|done..|]). exact Hacc. Qed.

Lemma nobody_recommends (d : D) n i p : accounts_ok d n -> user_is d i p -> totRecommendations p = 0 -> recommended_by d i [].
Proof.
  intros Hacc Hp Ht. destruct (acc_counted _ _ Hacc) as [_ Hc]. destruct (Hc i p Hp) as (l & Hl & _ & Hs). destruct l as [|x l]; [done|]. rewrite size_cons in Hs. pose proof (size_nonneg l). lia.
Qed.
End after_token.


Lemma written_request `{Spare} rq meth url v : storable v -> bytes (memory rq) -> message_is rq meth url [] -> texts_are rq (FastWriter_write v) [] -> json_request rq meth url (norm v).
Proof.
  intros Hv Hb Hm Ht. split; [done|by exists []|]. exists (FastWriter_write v), []. split; [done|]. intros S' s'. unfold parseBody. by rewrite (bind_ok _ _ _ _ _ (parse_written v JNull s' Hv)).
Qed.

(** The requests of the witness. *)
Definition sample_request (path : list Z) (v : json) : Request := received (wire (lit "POST " ++ path) [] (FastWriter_write v)).
Definition login_value (mail pw : list Z) : json := JObject [(lit "email", JString mail); (lit "password", JString pw)].

Lemma login_value_storable mail pw : bytes mail -> bytes pw -> storable (login_value mail pw).
Proof. intros Hm Hp. split; [apply jwf_strings_object; [done|]; each_member; done|done]. Qed.

Lemma login_value_credentials mail pw : credentials (norm (login_value mail pw)) mail pw.
Proof. split; [eexists; split; [reflexivity|repeat constructor; eexists; reflexivity]|done]. Qed.

Ltac written := apply written_request; [|apply ascii_bytes; vm_compute; reflexivity|message|split; [vm_compute; reflexivity|apply text_is_check; vm_compute; reflexivity]].

