(* ===== verification/Pages.v ===== *)
(** * Paging through the users (api/handler/SearchHandler.cpp)

    A search without a criterion lists all users, those with most recommendations
    first, and answers with one page of them. *)

From Stdlib Require Import ZArith Lia String.
From stdpp Require Import base list numbers option gmap sorting.
From S2P Require Import Prelude Strs Uri Http Cpp Double Json JsonReader JsonSafe JsonRoundtrip Styled Store Relations Person Manager Recommendations Messages Users Sessions Directory Api Handlers Search Web.

Local Open Scope Z_scope.

(** ** The order *)

(** What [std::sort] promises for the order of the handler. *)
Definition more_recommended (p q : Person) : Prop := totRecommendations q <= totRecommendations p.
Class StdSortLaws `{StdSort} : Prop := {
  sort_same l : std_sort myfunction l ≡ₚ l;
  sort_ordered l : StronglySorted more_recommended (std_sort myfunction l);
}.

#[export] Instance more_recommended_dec : RelDecision more_recommended.
Proof. intros p q. unfold more_recommended. apply _. Defined.
#[export] Instance more_recommended_total : Total more_recommended.
Proof. intros p q. unfold more_recommended. lia. Qed.
#[export] Instance more_recommended_trans : Transitive more_recommended.
Proof. intros p q r. unfold more_recommended. lia. Qed.

(** ** A page *)

Lemma page_spec l k z : 1 <= k -> 1 <= z -> k * z <= maxLargestInt -> size l <= maxLargestInt -> page l k z = Ret (slice l ((k - 1) * z) z).
Proof.
  intros Hk Hz Hm Hl. unfold page. rewrite long_ok by (unfold int64, minLargestInt, maxLargestInt in *; nia). cbn [mbind outcome_bind].
  rewrite long_ok by (unfold int64, minLargestInt, maxLargestInt in *; nia). cbn [mbind outcome_bind]. set (start := (k - 1) * z).
  assert (0 <= start /\ start + z <= maxLargestInt) as [Hs0 Hs1] by (unfold start; nia).
  rewrite long_ok by (unfold int64, minLargestInt, maxLargestInt in *; lia). cbn [mbind outcome_bind].
  assert (u64 (start + z) = start + z) as -> by (apply Z.mod_small; unfold maxLargestInt in *; lia).
  set (stop := if start + z >? size l then size l else start + z). apply wp_eq. pose proof (size_nonneg l) as Hsz.
  assert (stop <= size l /\ (stop = start + z \/ stop = size l /\ size l < start + z)) as [Hstop Hend] by (unfold stop; destruct (Z.gtb_spec (start + z) (size l)); lia).
  apply wp_loop with (m := fun st => Z.to_nat (stop - st.1)) (I := fun '(i, acc) => start <= i /\ (i <= stop \/ i = start) /\ acc = take (Z.to_nat (i - start)) (drop (Z.to_nat start) l)).
  - intros [i acc] (Hi & Hi2 & ->). wp_step.
    + assert (u64 i = i) as -> by (apply Z.mod_small; unfold maxLargestInt in *; lia). destruct (rd_total l i) as (x & Hx & ->); [lia|]. cbn [mbind outcome_bind].
      apply wp_mret. split; [|simpl; lia]. split; [lia|]. split; [lia|]. replace (Z.to_nat (i + 1 - start)) with (S (Z.to_nat (i - start))) by lia. rewrite (take_S_r _ _ x); [done|].
      rewrite lookup_drop. by replace (Z.to_nat start + Z.to_nat (i - start))%nat with (Z.to_nat i) by lia.
    + apply wp_mret. unfold slice. destruct (decide (i = start + z)) as [->|Hne]; [by replace (start + z - start) with z by lia|].
      rewrite !take_ge; [done|rewrite length_drop; unfold size in *; lia|rewrite length_drop; unfold size in *; lia].
  - split; [lia|]. split; [by right|]. by rewrite Z.sub_diag.
  - simpl. unfold size in *. lia.
Qed.

(** ** The answer *)

(** What the answer says of a user. *)
Definition summary_value (p : Person) : json :=
  JObject ((match getCurrentJob (workHistory p) with Some w => [(lit "current_job", work_value w)] | None => [] end) ++
    [(lit "first_name", JString (firstName p)); (lit "id", JInt (id p)); (lit "last_name", JString (lastName p)); (lit "mail", JString (email p));
     (lit "tot_recommendations", JInt (totRecommendations p))]).

Lemma run_summary {D} `{Machine} p (s : Server D) : user_minInformation p s = Ret (inr (summary_value p), s).
Proof. unfold user_minInformation, summary_value. destruct (getCurrentJob (workHistory p)); reflexivity. Qed.

Definition page_answer (total : Z) (users : list Person) : Response :=
  success (Some (JObject ((lit "metadata", JObject [(lit "total_count", JUInt total)]) :: list_member (lit "result") (map summary_value users)))).

(** ** The only keys of the range *)

Section only.
Context {D : Type} `{LeveldbLaws D} `{Spare}.

Lemma only_users_empty : only_users (db_empty : D).
Proof. intros k v Hk. by rewrite get_empty in Hk. Qed.

(** A new account keeps it so: what is written beside the mail lies outside. *)
Lemma only_users_new (d : D) q : only_users d -> person_ok q -> db_get d (uuid_key (id q)) = None -> db_get d (mail_key (email q)) = None -> only_users (new_account d q).
Proof.
  intros Hd Hq Hu Hm k v Hk Hlo Hhi. pose proof (fun j r => new_account_users d q j r Hq Hu Hm) as Husers. unfold new_account, insert_user in Hk. rewrite !get_put in Hk.
  destruct (decide (password_key (email q) = k)) as [<-|]; [done|]. destruct (decide (uuid_key (id q) = k)) as [<-|]; [done|].
  destruct (decide (mail_key (email q) = k)) as [<-|].
  - exists (id q), q. split; [|done]. apply Husers. by rewrite decide_True.
  - destruct (decide (LAST_ID = k)) as [<-|]; [by destruct Hlo|]. destruct (Hd k v Hk Hlo Hhi) as (i & p & Hp & ->). exists i, p. split; [|done]. apply Husers.
    rewrite decide_False; [done|]. intros <-. destruct Hp as (_ & _ & _ & Hpu & _). congruence.
Qed.
End only.

(** C33: a search without a criterion, for a page from the first on and a positive
    number of users to a page, is answered with the number of all users and this
    page of the list of them, in which every user of the database is once and
    nobody comes before a user with more recommendations; the server stays as it
    is. *)
Theorem search_pages {D} `{LeveldbLaws D} `{Spare} `{ClockLaws} `{SpecialRegex} `{StdSortLaws} `{Machine} rq tok t q srch k z (s : Server D) (d : D) :
  configured -> bytes (memory rq) -> message_is rq (lit "GET") (lit "/search") tok -> texts_are rq t q ->
  (forall s : Server D, search_query (uriDecode q) s = Ret (inr (srch, k, z), s)) -> no_criterion srch = true ->
  1 <= k -> 1 <= z -> k * z <= maxLargestInt -> wrapper s = Some d -> only_users d -> (forall ps, all_users d ps -> size ps <= maxLargestInt) ->
  exists ps, all_users d ps /\ StronglySorted more_recommended ps /\
    WebHandler_handleRequest rq s = Ret (inr (page_answer (size ps) (slice ps ((k - 1) * z) z)), s).
Proof.
  intros Hc Hb Hm Ht Hq Hno Hk Hz Hkz Hd Hu Hsz. destruct (run_getAllUsers d Hu) as (l & El & [Hin Hnd]). set (ps := std_sort myfunction l).
  assert (all_users d ps) as Hps.
  { split; [|unfold ps; by rewrite sort_same]. intros p. rewrite <- Hin, <- !list_elem_of_In. unfold ps. by rewrite sort_same. }
  exists ps. split; [exact Hps|]. split; [apply sort_ordered|].
  rewrite (run_web rq (lit "/search") SearchHandler s Hc (mi_url _ _ _ _ Hm) eq_refl). unfold catch at 1 2. rewrite (run_dispatch SearchHandler rq GET (lit "/search") tok s Hb Hm).
  cbn [is_public getPublic SearchHandler]. rewrite (bind_ok (access true rq) _ _ None s) by reflexivity. cbn [method_of handleGetRequest SearchHandler].
  enough (Search_handleGet None rq (lit "/search") s = Ret (inr (page_answer (size ps) (slice ps ((k - 1) * z) z)), s)) as -> by done.
  unfold Search_handleGet. rewrite (bind_ok _ _ _ _ _ (run_query_params _ _ _ _ Ht)). rewrite (bind_ok _ _ _ (inr (srch, k, z)) s) by (unfold catch; by rewrite (bind_ok _ _ _ _ _ (Hq s))).
  assert (by_distance srch = None) as -> by (destruct srch as [[] [] [] [] []]; done). rewrite Hno.
  rewrite (bind_ok _ _ _ l s) by (rewrite (run_on_db _ _ (inr l) (Some d)); [by rewrite (same_server s d Hd)|by rewrite Hd]). cbv zeta. fold ps.
  rewrite (bind_ok _ _ _ (slice ps ((k - 1) * z) z) s) by (unfold pure; by rewrite page_spec by (done || by apply Hsz)).
  erewrite bind_ok by reflexivity. erewrite bind_ok by (apply (append_members_spec _ summary_value); [intros; apply run_summary|reflexivity]).
  unfold page_answer. by destruct (slice ps ((k - 1) * z) z).
Qed.

Definition sort_by_recommendations : StdSort := fun _ => merge_sort more_recommended.

Lemma sort_by_recommendations_laws : @StdSortLaws sort_by_recommendations.
Proof. split; intros l; [apply merge_sort_Permutation|apply StronglySorted_merge_sort; apply _]. Qed.

Lemma search_pages_witness :
  let D := gmap (list Z) (list Z) in let _ : Spare := fun _ => [] in let _ := second_text in let _ := text_second in let _ := seconds in let _ : SpecialRegex := fun _ => None in
  let _ := sort_by_recommendations in let _ := sample_machine in
  let p := sample_person 1 (lit "a@b.c") in let d : D := new_account ∅ p in let s := mk_server (Some d) [] ∅ in
  exists ps, all_users d ps /\ WebHandler_handleRequest (received (wire (lit "GET /search?pageNumber=1&size=10") [] [])) s = Ret (inr (page_answer (size ps) (slice ps 0 10)), s).
Proof.
  intros D sp lt pt cr sr ss mc p d s. pose proof seconds_laws as CL. pose proof sort_by_recommendations_laws as SL. set (rq := received _).
  assert (person_ok p) as Hp by by apply sample_person_ok.
  assert (only_users d) as Hd by (apply only_users_new; [exact (only_users_empty (D := D))|exact Hp|reflexivity|reflexivity]).
  assert (bytes (memory rq)) as Hb by (apply ascii_bytes; vm_compute; reflexivity).
  assert (message_is rq (lit "GET") (lit "/search") []) as Hm by message.
  assert (texts_are rq [] (lit "pageNumber=1&size=10")) as Ht by (split; [vm_compute; reflexivity|apply text_is_check; vm_compute; reflexivity]).
  assert (forall ps, all_users d ps -> size ps <= maxLargestInt) as Hsz.
  { intros ps [Hin Hnd]. assert (length (map id ps) <= length [1%Z])%nat as Hl; [|rewrite length_map in Hl; unfold size, maxLargestInt; simpl in Hl; lia].
    apply (NoDup_incl_length (proj1 (NoDup_ListNoDup _) Hnd)). intros i (q & <- & (j & Hq)%Hin)%in_map_iff. left. apply new_account_users in Hq; [|exact Hp|reflexivity|reflexivity].
    case_decide; [by subst q|]. destruct Hq as (_ & _ & _ & Hu & _). done. }
  destruct (search_pages rq [] [] (lit "pageNumber=1&size=10") (mk_search None None None None None) 1 10 s d sample_configured Hb Hm Ht ltac:(intros; vm_compute; reflexivity) eq_refl
    ltac:(done) ltac:(done) ltac:(done) eq_refl Hd Hsz) as (ps & Hps & _ & E).
  exact (ex_intro _ ps (conj Hps E)).
Defined.
