(* ===== verification/Main.v ===== *)
(** * The program (main.cpp, tools/MainHelper.cpp, api/Response.cpp)

    [ev_handler], which gives every HTTP request to a web handler and sends what it
    answers.  Two pointers it reads are dangling: the header of a response is read
    after its text was deleted, and the body after the response was.  So the
    program has no defined behaviour once a handler has answered: the lemma at the
    end says so, and what becomes of the exceptions that leave a handler. *)

From Stdlib Require Import ZArith Lia String.
From stdpp Require Import base list numbers option gmap.
From S2P Require Import Prelude Strs Mbuf Http Conn Cpp Net Websocket HttpServer.
From S2P Require Import Json Store Messages Sessions Search Api Handlers Web Answers.

Local Open Scope Z_scope.

(** ** The code *)

(** [Response::getHeader], the text before it is deleted. *)
Definition fullHeader (r : Response) : list Z :=
  lit "HTTP/1.1 " ++ header r ++ CRLF ++ lit "Transfer-Encoding: chunked" ++ CRLF ++
  (if negb (bodyLength r =? 0) then lit "Content-Type: " ++ contentType r ++ CRLF else []) ++
  lit "Content-Length: " ++ to_string (bodyLength r) ++ CRLF ++ CRLF.

(** A pointer to the bytes of an object, which may have been deleted since. *)
Inductive pointer := Null | Alive (b : list Z) | Dangling.
Definition delete (q : pointer) : pointer := match q with Null => Null | _ => Dangling end.
Definition at_pointer (q : pointer) : outcome (list Z) :=
  match q with Null => Fault NullPointer | Alive b => mret b | Dangling => Fault UseAfterFree end.

(** [headerAsChar] points into the string that is deleted before it is returned. *)
Definition Response_getHeader (r : Response) : pointer :=
  let headerAsChar := Alive (fullHeader r ++ [0]) in
  delete headerAsChar.

(** [struct mbuf body]. *)
Record returned_body := mk_body { body_buf : pointer; body_len : Z }.

(** [offset] are the bytes that come after the body on the wire. *)
Definition validBody (bdy : returned_body) (bodyToSend : mbuf) : outcome bool :=
  let offset := 7 in
  loop (S (Z.to_nat (body_len bdy))) (fun i =>
    if i <? body_len bdy then
      t ← at_pointer (body_buf bdy); x ← rd t (body_len bdy - 1 - i);
      y ← rd (mb_buf bodyToSend) (mb_len bodyToSend - 1 - offset - i);
      if x =? y then i ← int (i + 1); mret (inl i) else mret (inr false)
    else mret (inr true)) 0.

(** The server, and the requests that were handed to [mg_serve_http]. *)
Record World {D : Type} := mk_world { server : Server D; served : list http_message }.
Arguments World : clear implicits.
Arguments mk_world {D} _ _.

Section program.
Context {D F : Type} `{Leveldb D} `{Spare} `{LocalTime} `{ParseTime} `{SpecialRegex} `{StdSort} `{EqDecision F}.
Abbreviation connection := (mg_connection F (mg_http_proto_data F)).
Context (malloc : bool).

(** The characters of [getBody]; a binary body is a local array that is gone. *)
Definition body_pointer (response : Response) : pointer :=
  if hasBinaryContent response then match getBody response with Some b => Alive b | None => Dangling end else Alive (response_body response ++ [0]).

(** The body is the format of [mg_printf_http_chunk]; what it returns points into
    the response, which is deleted, or is an exception. *)
Definition processMessage (mc : Machine) (nc : connection) (rq : Request) (s : Server D) : outcome ((exn + returned_body) * connection * Server D) :=
  '(r, s) ← WebHandler_handleRequest rq s;
  match r with
  | inl e => mret (inl e, nc, s)
  | inr response =>
      let udp := has_flag MG_F_UDP nc in
      hdr ← at_pointer (Response_getHeader response);
      c ← mg_printf malloc udp (nc_out nc) (c_str hdr);
      let body := mk_body (body_pointer response) (bodyLength response) in
      b ← at_pointer (body_buf body);
      c ← (if hasBinaryContent response then mg_send_http_chunk udp c b (body_len body) else mg_printf_http_chunk malloc udp c (c_str b) [body_len body]);
      c ← mg_send_http_chunk udp c [] 0;
      mret (inr (mk_body (delete (body_buf body)) (body_len body)), set_out nc c, s)
  end.

(** The two machines are those of the first and of the second attempt. *)
Definition ev_handler (mc1 mc2 : Machine) (nc : connection) (ev : Z) (data : ev_data) (w : World D) : outcome (connection * World D) :=
  match data with
  | HttpData hm =>
    if ev =? MG_EV_HTTP_REQUEST then
      let rq := mk_request (mb_buf (rbuf nc)) hm in
      let caught (e : exn) (nc : connection) (s : Server D) :=
        match e with
        | SpecialRequestException => mret (nc, mk_world s (served w ++ [hm]))
        | _ => Fault Aborted
        end in
      '(r, nc, s) ← processMessage mc1 nc rq (server w);
      match r with
      | inl e => caught e nc s
      | inr bdy =>
          valid ← validBody bdy (send_mbuf (nc_out nc));
          if valid : bool then mret (nc, mk_world s (served w)) else
          m ← mbuf_remove (send_mbuf (nc_out nc)) (send_len nc);
          '(r, nc, s) ← processMessage mc2 (set_out nc (mk_conn m (Conn.answers (nc_out nc)))) rq s;
          match r with inl e => caught e nc s | inr _ => mret (nc, mk_world s (served w)) end
      end
    else mret (nc, w)
  | _ => mret (nc, w)
  end.

End program.

(** ** What becomes of a request *)

(** A request whose handling faults, an answer, whose header is read after it was
    deleted, and the exceptions: the paths of files are handed to mongoose, with
    nothing sent; any other exception ends the program. *)
Lemma ev_handler_request {D} `{Leveldb D} `{Spare} `{LocalTime} `{ParseTime} `{SpecialRegex} `{StdSort} mc1 mc2 (nc : web_conn) hm (w : World D) :
  let rq := mk_request (mb_buf (rbuf nc)) hm in
  ev_handler true mc1 mc2 nc MG_EV_HTTP_REQUEST (HttpData hm) w =
    match @WebHandler_handleRequest D _ _ _ _ _ _ mc1 rq (server w) with
    | Ret (inr _, _) => Fault UseAfterFree
    | Ret (inl SpecialRequestException, s) => Ret (nc, mk_world s (served w ++ [hm]))
    | Ret (inl _, _) => Fault Aborted
    | Fault f => Fault f
    end.
Proof.
  intros rq. unfold ev_handler. rewrite Z.eqb_refl. cbv zeta. fold rq. unfold processMessage. destruct (WebHandler_handleRequest rq (server w)) as [[[e|r] s]|f]; [|done..]. by destruct e.
Qed.

(** *** Examples *)

(** A body with a per cent sign, which a user can put into his profile, is read as a format. *)
Example body_is_format : mg_printf_http_chunk true false fresh_conn (lit "100%, siempre") [13] = Fault BadVararg.
Proof. vm_compute. reflexivity. Qed.
Example body_prints_length : match mg_printf_http_chunk true false fresh_conn (lit "%lu") [3] with Ret c => sent c = lit "1" ++ CRLF ++ lit "3" ++ CRLF | Fault _ => False end.
Proof. vm_compute. reflexivity. Qed.

(** An answer without a body: the last chunk is sent twice, and the second one
    belongs to no message. *)
Example empty_answer : match (c ← mg_printf_http_chunk true false fresh_conn [] [0]; mg_send_http_chunk false c [] 0) with
  Ret c => sent c = lit "0" ++ CRLF ++ CRLF ++ lit "0" ++ CRLF ++ CRLF | Fault _ => False end.
Proof. vm_compute. reflexivity. Qed.

(** The body is compared with what was sent, backwards. *)
Example valid_body : validBody (mk_body (Alive (lit "hola" ++ [0])) 4) (mk_mbuf 4096 (lit "4" ++ CRLF ++ lit "hola" ++ CRLF ++ lit "0" ++ CRLF ++ CRLF) 14 14) = Ret true.
Proof. vm_compute. reflexivity. Qed.
